(* ===== verification/_CoqProject ===== *)
-Q . S2P
Prelude.v
LinkedList.v
Timeout.v
Packet.v
FlowState.v
TcpCommon.v
Qman.v
Dma.v
Circ.v
FastPath.v
FastRx.v
Stream.v
TxPath.v
RxPath.v
Handlers.v
Queues.v
Dataplane.v
NicIf.v
FlowTable.v
CC.v
PacketMem.v
KernelState.v
ControlSeg.v
Arp.v
KernelTcp.v
Appif.v
Kernel.v
KernelTimers.v
KernelSafe.v
KernelConn.v
Backlog.v
System.v
AppConn.v
AppPoll.v
AppRing.v
AppBump.v
AppObj.v
AppPollSafe.v
AppSystem.v
Config.v
ConfigParse.v
UxSocket.v
UxSafe.v
UxAgree.v
SockState.v
SockEpoll.v
SockEpollInv.v
SockEpollSafe.v
SockEpollCtl.v
SockEpollScan.v
SockCalls.v
SockStream.v
SockUpdate.v
SockSend.v
SockControl.v
SockSettings.v
FkHash.v
FkAlloc.v
FkAllocSafe.v
FkAllocOps.v
FkAllocSystem.v
FkTable.v
FkTableRep.v
FkTableOps.v
FkServer.v
FkStore.v
FkServe.v
StormQueue.v
StormTuple.v
StormBolts.v
StormSystem.v
StormCount.v
StormNic.v
Examples.v
AppExamples.v
SockExamples.v
KernelExamples.v
FkExamples.v
StormExamples.v
