(* ===== verification/Prelude.v ===== *)
(** * tas-linux: a verification library for the flextcp TCP stack

    The repository (src/flextcp-code/) is a user-space TCP stack.  A fast path
    (flexnic/) runs on dedicated cores: it receives and sends the segments of
    established connections, copies payload between packets and circular
    buffers in memory it shares with the applications, and schedules
    transmission with a queue manager.  A kernel process (kernel/) opens and
    closes connections, answers ARP, runs congestion control and timers, and
    registers flows with the fast path by writing its tables.  Applications
    talk to both through queues in shared memory.

    ** Files

    Prelude: integers at their width, outcomes of computations, record update,
    lists.  LinkedList: pointer lists in a store, singly and doubly linked.

    The fast path:
    - Packet (include/packet_defs.h, include/utils.h): headers, big-endian
      fields, bytes; FlowState (include/flextcp_plif.h): the state of a flow and
      of an application context in shared memory;
    - TcpCommon (flexnic/tcp_common.h): window tests, trimming, options; Dma
      (flexnic/dma.c); Circ (include/utils_circ.h);
    - Qman (flexnic/qman.c, utils/rng.c): both scheduling lists, firing, rates;
    - FastPath, FastRx (flexnic/fast_flows.c): one definition per handler,
      [fast_flows_packet] split into the stages of its body;
    - Stream: what the sequence numbers and buffer positions of a flow mean, as
      byte streams on unbounded integers; TxPath, RxPath, Handlers: every
      handler against these streams;
    - Queues (flexnic/fast_appctx.c, flexnic/fast_kernel.c): queues to the
      applications and to the kernel; Dataplane (flexnic/fastemu.c): the polling
      functions of a core and its buffer cache.

    The kernel process:
    - NicIf (kernel/nicif.c): registration of flows, statistics, queues;
      FlowTable: the hash table both processes use; CC (kernel/cc.c): congestion
      control; PacketMem (kernel/packetmem.c): the allocator of buffers;
    - Timeout (utils/timeout.c): the timer manager;
    - KernelState (kernel/internal.h, kernel/appif.h, kernel/appif_ctx.c,
      kernel/tcp.c): connections, listeners, application contexts, messages,
      control segments; ControlSeg: their wire format;
    - Arp (kernel/arp.c, kernel/routing.c), KernelTcp (kernel/tcp.c,
      kernel/tap.c): connection management; Appif (kernel/appif_ctx.c): requests
      of applications; Kernel (kernel/kernel.c): dispatch of timers and packets;
    - Config (kernel/config.c, utils/utils.c): the command line; ConfigParse:
      what its parsers accept;
    - UxSocket (kernel/appif.c, stack/kernel.c): how applications register, both
      sides; UxSafe: the two threads of the kernel that take part, as steps
      ([usys_step]) with their invariant; UxAgree: what both sides then know;
    - KernelTimers, KernelSafe: the invariant of the process; KernelConn:
      handshakes, ports; Backlog: the queue of a listener.

    The library an application links:
    - AppConn (stack/conn.c, stack/internal.h, stack/include/flextcp.h): its
      connections, listeners and contexts, and every call on a stream
      connection; AppPoll (stack/init.c, the object calls of stack/conn.c, the
      queues of stack/kernel.c): object connections, queues to the fast path and
      the kernel, [flextcp_context_poll] with its event handlers;
    - AppRing: the four positions of each ring as unbounded counters
      ([app_view], [AppRep]) and the calls against them; AppBump: the list of
      connections that have news for the fast path; AppObj: objects in the
      transmit ring; AppPollSafe: the polling loops.

    The POSIX layer on top of that library (sockets/):
    - SockState (sockets/internal.h, sockets/manage_fd.c): its structs and the
      table of descriptors; SockEpoll (sockets/epoll.c): epoll instances;
      SockCalls (sockets/context.c, sockets/transfer.c, [epoll_wait]): events,
      receiving and sending; SockControl (sockets/control.c): everything else;
    - SockEpollInv, SockEpollSafe: the doubly linked lists of an instance and of a socket, and the invariant [epoll_ok] every operation
      keeps (no event is lost); SockEpollCtl: [epoll_ctl] against the set of
      registered sockets; SockEpollScan: what [epoll_wait] reports;
    - SockStream, SockUpdate, SockSend: a socket's unread pieces and the calls
      that transfer data, against the byte streams of AppRing; SockSettings: the
      time limit of [epoll_wait], settings, accepting, descriptors that are
      used again.

    A server that runs on top, the key-value store (flexkvs/server/):
    - FkHash (jenkins_hash.c): the hash of a key, for every alignment;
    - FkAlloc (ialloc.c, iokvs.h): items, segments, the log-structured allocator
      and its cleaning; FkAllocSafe, FkAllocOps: its invariant
      [ial_inv] (every segment is free, reserved or in one log, and what a log
      has handed out adds up) through allocation, release and cleaning;
      FkAllocSystem: any sequence of its operations ([alloc_step]);
    - FkTable (hashtable.c): buckets, lookup and insertion; FkTableRep: the
      finite map a table represents ([table_rep]); FkTableOps: the calls against
      that map;
    - FkServer (main.c): the requests and events of a connection, the cleaning of
      the log; FkStore: allocator and table together, as a specification of
      what a server stores and holds ([store_step], [store_ok]); FkServe:
      requests, byte for byte, against that specification.

    An application that runs on top, the stream processor (mystorm/): processes
    ("workers") that hand tuples to each other's tasks.
    - StormQueue (storm.h, worker.c): tuples, and the queue between two threads
      of a worker, action by action ([q_step]) against a bounded queue;
    - StormTuple (storm.h, worker.h, hash.c, worker.c): the bytes of a tuple,
      the hash of a string, groupings, the table of workers and the lookups in
      it; StormBolts (spout.c, rank.c, worker.c): sending, spouts, rankers;
      StormCount (count.c, hash_table.c): counters, and the bolts of the
      repository as those of StormSystem;
    - StormSystem (worker.c): all threads of all workers as steps ([y_step]),
      for any bolts, and their invariant;
    - StormNic (flexnic.c, worker.c): the emulated network card that takes the
      place of the connections.

    System puts the handlers of a flow together; AppSystem adds the library in
    front of the flow.  Examples, AppExamples, SockExamples, KernelExamples,
    FkExamples and StormExamples apply every theorem that has
    hypotheses to a concrete state.

    ** How the code is modelled

    A C integer is a [Z], truncated where C truncates.  A struct is a record, an
    array a finite map or a list, a pointer list either the pointers themselves
    (queue manager, timers, where the theorems are about them) or the list of
    addresses in its order (connections, ARP entries).  A function that changes
    global state takes and returns it.  The result is an [outcome]: [Ok], or
    [Crash] for [abort] and failed assertions, or [Spin] for a computation that
    never returns.  Memory contents are bytes in a finite map.  [malloc] is an
    argument: the address it returns.  DPDK functions, the clock, the CRC
    instruction and the configuration are members of the classes [Platform]
    (FastPath) and [KEnv] (KernelState), so a handler runs at one instant.

    ** The theorems

    - A flow as the kernel registers it represents a fresh connection, and every
      handler takes it along the steps of two byte streams (System), but for
      segments in a gap of the window test, which can write over unread bytes
      ([gap_segment_overruns], RxPath); the single handlers: acknowledgements, reception with an out-of-order interval,
      transmission, pointer bumps, retransmission (Stream, RxPath, TxPath,
      Handlers).
    - From a SYN-ACK to that flow: [handshake_completes] (KernelConn).
    - Registered flows are found, others keep being found; the table's
      allocation ends; a flow can get lost (FlowTable).
    - No timer handler of the kernel process aborts, and the state its timers
      depend on is kept by every step (KernelSafe); arming, disarming and
      polling against a list sorted by deadline, and every armed timer fires
      if the handler is fair ([armed_timer_fires], Timeout), which the kernel's
      is, although it arms timers again ([timeout_handler_fair], KernelSafe).
    - Registration: when the functions of its two threads and the rest of the
      kernel run one at a time, in any order, no two owners share a byte of packet
      memory, no two contexts a doorbell, and a context in use is known to the
      fast path ([registration_safe]); the code does not ensure that for packet
      memory, and two overlapping allocations can get the same block
      ([packetmem_alloc_overlaps], PacketMem); the application's context has the
      addresses the fast path has ([registration_agrees]) and every core's event
      descriptor ([connect_gets_descriptors]).
    - The command line printed from a configuration is parsed to it, but for the
      time limit of ARP requests, which no command line sets
      ([config_roundtrip]); an address is read exactly when it is printed that
      way ([parse_ipv4_iff], ConfigParse).
    - A listener's backlog is a first-in first-out queue (Backlog); ports
      (KernelConn); routing (Arp); control segments and both option parsers
      (ControlSeg, TcpCommon).
    - Scheduling order and conservation (Qman); no poll loses a buffer, uses one
      twice or overruns the transmit buffer ([polls_account_buffers], Dataplane); the bounds of congestion windows (CC), the packet
      memory as a partition (PacketMem), rings and packet images (Circ,
      Queues).
    - The application library: freeing received data and allocating, sending
      and being notified about transmit data move the counters of a connection
      as they should ([rx_done_refines], [tx_alloc_refines], [tx_send_refines],
      [connupdate_refines], AppRing), early data is reported when the connection
      opens; marked connections are announced to the fast path in order
      (AppBump); objects are sent in the order of their allocation, whatever
      order they are finished in (AppObj); polling a context ends (AppPollSafe); and an announced
      connection's free space and new data reach the flow of the fast path,
      which keeps its invariant ([update_reaches_flow], AppSystem).
    - The POSIX layer: [epoll_ctl] changes exactly one registration and fails
      where it should ([epoll_ctl_refines]); a scan reports exactly the ready
      sockets it comes to, in turn, and no ready socket starves
      ([epoll_scan_reports], [epoll_no_starvation]); an update of the fast path
      extends a socket's unread bytes, makes it readable and gets it reported
      ([update_readable]); reading returns the peer's next bytes, writing puts
      the caller's at the next positions of the ring, with one buffer or several
      ([recv_in_order], [recvmsg_scatters], [send_in_order],
      [sendmsg_gathers]); how accepts end, and the settings of a socket
      ([accept_outcome], [settings_refine]).
    - The key-value store: however a server allocates, fills, stores, looks up
      and releases items, the store is a map and no item that is stored or held
      changes ([store_refines]); a GET answers with the bytes of the SET before
      it ([set_then_get]); [hasht_put] and [hasht_get] are insertion into and
      lookup in a map ([hasht_put_refines], [hasht_get_refines]; with a compare,
      [hasht_put_cas]); the allocator never hands out bytes that are in use,
      frees only segments with nothing live in them, and its maintenance ends
      ([allocator_safe]); the hash depends on the bytes only
      ([jenkins_hash_string]).
    - The stream processor: interleaved action by action, the two threads of a
      queue see a bounded first-in first-out queue, and the slot the consumer
      reads is never half written ([storm_queue_refines]); whatever the order of
      the threads and however the network cuts messages, a task executes the
      tuples sent to it, each once, those of a sender in order, and nothing is
      lost ([storm_delivers]); the ranking of a ranker, and each it sends, are
      the greatest counts seen, every string once and in order
      ([rank_finds_best]); a counter counts its strings' hashes
      ([count_counts]); a round of the card moves a batch to the queues of its
      tasks ([flexnic_round_delivers]).
    - Errors: what the window functions accept that they should not, when the
      option parser does not return, lost flows, a kernel process that aborts
      when a peer refuses a connection twice, a receive window that is never
      announced again ([rx_window_lost]), a time limit that works the wrong way
      round ([epoll_wait_deadline_inverted]), an epoll descriptor that cannot be
      used again ([epoll_fd_reuse_aborts]), a registration that arrives in two
      pieces ([split_request_never_served]), a key-value server that a client
      stops by closing its connection ([close_after_set_aborts]), by a malformed
      request ([short_set_aborts]) or by a value that is too long
      ([oversize_value_loops]), a tuple that is read before it has been written
      ([flexnic_torn_read]) and slots that two threads of the card both reserve
      ([flexnic_reserved_twice]).

    ** Fuel

    Loops over bounded ranges recurse on the bound.  [opts_fuel] (41) exceeds
    the 40 bytes of TCP options, each step of the parser that makes progress
    uses one; [pull_fuel] exceeds the moves a slot can be pulled by; [list_fuel]
    the length of a timer list; [port_fuel] one round of the ports; [route_fuel]
    the entries of the routing table; [qfuel] of [Platform] is a parameter and
    bounds the queue manager's walks.  The scans over the objects of a ring, the
    list of marked connections and the entries of a queue take the fuel as an
    argument, and the theorems ask for one more than their number.  [es_fuel] is
    one more than the entries of all epoll instances, and a socket's list has no
    more ([so_fuel]); [poll_n_loop] gets one more than the bound it counts down
    by 32.  A call of the POSIX layer that waits takes the list of what the
    other processes do before each of its polls; [Spin] says it still waits
    after the last.  Where a loop can fail to end the theorems say exactly when.

    ** Not modelled

    Threads: in the stack a handler is one step, so two cores, the application,
    the thread of the unix socket and the TAP thread interleave between handlers
    only, which the code does not ensure where it takes no lock; in StormSystem an operation of a queue is one step, which StormQueue
    justifies.  The
    set-up of shared memory, interrupts, opening the unix socket and waiting for
    its events, splitting the command line into options (getopt_long) and
    floating-point options, DPDK glue (flexnic/network.c), statistics, prefetching and tracing are input and
    output or do not change the state.  In UxSafe the rest of the kernel is any
    step that leaves registrations alone and takes from packet memory through
    the allocator ([kernel_frame]).  Of the application library, blocking
    ([flextcp_block]) and its initialisation are input and output; of the POSIX layer, creating the context of a thread and
    the forwarding between the C library and the layer (sockets/interpose.c).
    Of the key-value store, accepting connections, the loops of its threads,
    its server on another network interface and its benchmark client; a scan of
    [ialloc_maintenance] is modelled on the structs of items, so it finds
    nothing where no item starts, while the code reads whatever bytes are there
    (FkAlloc), and [store_step] leaves the cleaning of the log out for that
    reason.  Of the stream processor, opening and losing connections, the variant
    with mTCP, the packets between cards (USE_DPDK), the lists behind the hash
    table and the counters for statistics; the two queues of a task are those
    of NORMAL_QUEUE, and the card's are used one operation at a time, but for
    [flexnic_reserved_twice].  The benchmarks (mtcp/) use the stack and are not
    part of it. *)
From stdpp Require Import base numbers list gmap.
From Stdlib Require Import ZArith Lia.
Open Scope Z_scope.

(** ** Fixed-width integers

    A C integer of width w is a [Z]; every place where C truncates is written
    with one of these functions. *)
Definition u8 (x : Z) : Z := x mod 256.
Definition u16 (x : Z) : Z := x mod 65536.
Definition u32 (x : Z) : Z := x mod 4294967296.
Definition u64 (x : Z) : Z := x mod 18446744073709551616.
Definition s32 (x : Z) : Z :=
  if u32 x <? 2147483648 then u32 x else u32 x - 4294967296.
Definition s64 (x : Z) : Z :=
  if u64 x <? 9223372036854775808 then u64 x else u64 x - 18446744073709551616.
Definition UINT32_MAX : Z := 4294967295.
Definition INT32_MAX : Z := 2147483647.
Definition INT16_MAX : Z := 32767.

(** [MIN]/[MAX] of include/utils.h. *)
Definition MIN (a b : Z) : Z := if b <? a then b else a.
Definition MAX (a b : Z) : Z := if a <? b then b else a.

Definition is_u16 (x : Z) : Prop := 0 <= x < 65536.
Definition is_u32 (x : Z) : Prop := 0 <= x < 4294967296.

(** Boolean comparisons in the context or the goal are split into their two
    cases, recording the arithmetic fact of each branch. *)
Ltac bsplit :=
  repeat match goal with
  | |- context [?a <? ?b] => destruct (Z.ltb_spec a b)
  | |- context [?a <=? ?b] => destruct (Z.leb_spec a b)
  | |- context [?a =? ?b] => destruct (Z.eqb_spec a b)
  | H : context [?a <? ?b] |- _ => destruct (Z.ltb_spec a b)
  | H : context [?a <=? ?b] |- _ => destruct (Z.leb_spec a b)
  | H : context [?a =? ?b] |- _ => destruct (Z.eqb_spec a b)
  end; cbn [andb orb negb] in *.

(** Linear arithmetic over the truncations above. *)
Ltac mlia :=
  unfold is_u16, is_u32, u8, u16, u32, u64, MIN, MAX, UINT32_MAX, INT32_MAX, INT16_MAX in *;
  Z.div_mod_to_equations; lia.

Lemma u32_small x : is_u32 x -> u32 x = x.
Proof. unfold is_u32, u32; intros; apply Z.mod_small; lia. Qed.
Lemma u16_small x : is_u16 x -> u16 x = x.
Proof. unfold is_u16, u16; intros; apply Z.mod_small; lia. Qed.
Lemma u64_small x : 0 <= x < 18446744073709551616 -> u64 x = x.
Proof. unfold u64; intros; apply Z.mod_small; lia. Qed.
Lemma s32_small x : -2147483648 <= x < 2147483648 -> s32 x = x.
Proof. intros H. unfold s32, u32. destruct (Z.ltb_spec (x mod 4294967296) 2147483648); Z.div_mod_to_equations; lia. Qed.
Lemma u32_range x : is_u32 (u32 x).
Proof. mlia. Qed.
Lemma u16_range x : is_u16 (u16 x).
Proof. mlia. Qed.
Lemma u64_range x : 0 <= u64 x < 18446744073709551616.
Proof. mlia. Qed.
Lemma MIN_spec a b : MIN a b = Z.min a b.
Proof. unfold MIN; bsplit; lia. Qed.
Lemma MAX_spec a b : MAX a b = Z.max a b.
Proof. unfold MAX; bsplit; lia. Qed.
Lemma u32_add_l x y : u32 (u32 x + y) = u32 (x + y).
Proof. unfold u32. rewrite Zplus_mod_idemp_l. reflexivity. Qed.
Lemma u32_sub_l x y : u32 (u32 x - y) = u32 (x - y).
Proof. unfold u32. rewrite Zminus_mod_idemp_l. reflexivity. Qed.

(** Drop a truncation of a value that is provably in range. *)
Ltac u16_drop :=
  repeat match goal with
  | |- context [u16 ?x] => rewrite (u16_small x) by (unfold is_u16 in *; lia)
  end.
Ltac u32_drop :=
  repeat match goal with
  | |- context [u32 ?x] => rewrite (u32_small x) by (unfold is_u32 in *; lia)
  end.

Create HintDb words discriminated.
#[export] Hint Resolve u32_range u16_range u64_range : words.
#[export] Hint Rewrite MIN_spec MAX_spec : words.

(** ** Outcomes

    [Ok] is a normal return.  [Crash] is [abort()] or a failed [assert].
    [Spin] is a computation that never returns: a spin lock that is already
    held by the same thread, or a loop without progress (the model's fuel ran
    out). *)
Inductive outcome (A : Type) : Type :=
| Ok (a : A)
| Crash
| Spin.
Arguments Ok {A} a.
Arguments Crash {A}.
Arguments Spin {A}.

Definition obind {A B} (m : outcome A) (k : A -> outcome B) : outcome B :=
  match m with Ok a => k a | Crash => Crash | Spin => Spin end.
(** [assert(b)] of <assert.h>. *)
Definition assert_ (b : bool) : outcome unit := if b then Ok tt else Crash.

Declare Scope outcome_scope.
Delimit Scope outcome_scope with outcome.
Notation "'let!' x := m 'in' k" := (obind m (fun x => k))
  (at level 200, x pattern, m at level 100, k at level 200, right associativity)
  : outcome_scope.
Open Scope outcome_scope.

Lemma obind_ok {A B} (m : outcome A) (k : A -> outcome B) b :
  obind m k = Ok b -> exists a, m = Ok a /\ k a = Ok b.
Proof. destruct m; cbn; intros; try discriminate; eauto. Qed.

(** Decompose a successful run of a sequence of binds. *)
Ltac bind_inv H :=
  cbv zeta in H;
  lazymatch type of H with
  | obind _ _ = Ok _ =>
      let a := fresh "a" in let E := fresh "E" in
      let K := fresh "K" in
      apply obind_ok in H; destruct H as (a & E & K); rename K into H;
      cbv beta in H; bind_inv H
  | _ => idtac
  end.

(** ** Record update

    [r <| f := v |>] is the record [r] with field [f] replaced.  A record type
    opts in with an [Eta] instance: its constructor applied to its own
    projections. *)
Class Eta (R : Type) := eta : R -> R.
Class Upd {R F : Type} (proj : R -> F) := upd : (F -> F) -> R -> R.

Ltac solve_upd :=
  lazymatch goal with
  | |- @Upd ?R ?F ?proj =>
      let i := constr:(_ : Eta R) in
      let i' := eval unfold eta in i in
      let i'' := eval hnf in i' in
      exact (fun (g : F -> F) (r : R) =>
        ltac:(let b := eval cbv beta in (i'' r) in
              match b with
              | context C [proj r] => let b' := context C [g (proj r)] in exact b'
              end))
  end.
#[export] Hint Extern 1 (Upd _) => solve_upd : typeclass_instances.

Declare Scope record_scope.
Notation "r <| f := v |>" := (upd (proj := f) (fun _ => v) r)
  (at level 12, f at level 10, v at level 99, left associativity,
   format "r  <| f  :=  v |>") : record_scope.
Open Scope record_scope.

(** ** Lists as byte buffers *)

(** Byte [i] of a buffer; 0 outside of it. *)
Definition byte_at (l : list Z) (i : Z) : Z := default 0 (l !! Z.to_nat i).

Definition slice (l : list Z) (i n : Z) : list Z :=
  take (Z.to_nat n) (drop (Z.to_nat i) l).

(** ** Bits *)

Lemma lor_shiftl_add a b n :
  0 <= n -> 0 <= b < 2 ^ n -> Z.lor (Z.shiftl a n) b = a * 2 ^ n + b.
Proof.
  intros Hn Hb. rewrite <- Z.shiftl_mul_pow2 by lia.
  rewrite <- Z.add_lor_land.
  assert (E : Z.land (Z.shiftl a n) b = 0); [|lia].
  apply Z.bits_inj'. intros i Hi. rewrite Z.land_spec, Z.bits_0.
  destruct (Z.ltb_spec i n).
  - rewrite Z.shiftl_spec_low by lia. reflexivity.
  - destruct (Z.eq_dec b 0) as [->|]; [rewrite Z.bits_0; apply andb_false_r|].
    rewrite (Z.bits_above_log2 b i); [apply andb_false_r | lia |].
    apply Z.log2_lt_pow2; [lia|].
    assert (2 ^ n <= 2 ^ i) by (apply Z.pow_le_mono_r; lia). lia.
Qed.

(** ** Lists *)

Lemma filter_ext_in {A} (P Q : A -> Prop) `{forall x, Decision (P x)} `{forall x, Decision (Q x)}
    (l : list A) :
  (forall x, x ∈ l -> P x <-> Q x) -> filter P l = filter Q l.
Proof.
  induction l as [|x l IH]; intros E; auto. rewrite !filter_cons.
  assert (Ex : P x <-> Q x) by (apply E; left).
  rewrite IH by (intros; apply E; right; auto).
  destruct (decide (P x)), (decide (Q x)); tauto.
Qed.

Lemma elem_of_take_in {A} (l : list A) n x : x ∈ take n l -> x ∈ l.
Proof. intros H. rewrite <- (take_drop n l). apply elem_of_app. auto. Qed.

Lemma sum_nonneg ls : Forall (fun n => 0 <= n) ls -> 0 <= foldr Z.add 0 ls.
Proof. induction 1; cbn in *; lia. Qed.
