(* ===== verification/LinkedList.v ===== *)
(** Intrusive linked lists: the list of nodes reached by following a [next]
    field.  Used for every list the program threads through its structs (the
    queue manager's lists, timeouts, free lists, completion queues). *)
From stdpp Require Import base numbers list gmap.
From Stdlib Require Import ZArith Lia.
From S2P Require Import Prelude.

Section Chain.
Context {K : Type} `{EqDecision K}.

(** [chain nxt p l q]: following [nxt] from pointer [p] visits the nodes [l]
    and arrives at pointer [q] ([None] is the null pointer). *)
Inductive chain (nxt : K -> option K) : option K -> list K -> option K -> Prop :=
| chain_nil p : chain nxt p [] p
| chain_cons x l q : chain nxt (nxt x) l q -> chain nxt (Some x) (x :: l) q.

Implicit Types (nxt : K -> option K) (l : list K).

Lemma chain_nil_inv nxt p q : chain nxt p [] q -> p = q.
Proof. inversion 1; auto. Qed.

Lemma chain_cons_inv nxt p x l q :
  chain nxt p (x :: l) q -> p = Some x /\ chain nxt (nxt x) l q.
Proof. inversion 1; auto. Qed.

Lemma chain_ext nxt nxt' p l q :
  (forall x, x ∈ l -> nxt x = nxt' x) -> chain nxt p l q -> chain nxt' p l q.
Proof.
  intros E H. induction H as [p|x l q H IH]; constructor.
  rewrite <- E by (left; auto). apply IH. intros y Hy. apply E. right; auto.
Qed.

Lemma chain_app nxt p l1 l2 q :
  chain nxt p (l1 ++ l2) q <-> exists r, chain nxt p l1 r /\ chain nxt r l2 q.
Proof.
  split.
  - revert p. induction l1 as [|x l1 IH]; intros p H; cbn in *.
    + eexists; split; [constructor|auto].
    + apply chain_cons_inv in H as [-> H]. destruct (IH _ H) as (r & ? & ?).
      exists r. split; auto. constructor; auto.
  - intros (r & H1 & H2). induction H1; cbn; auto. constructor; auto.
Qed.

Lemma chain_snoc nxt p l x q :
  chain nxt p (l ++ [x]) q <-> chain nxt p l (Some x) /\ nxt x = q.
Proof.
  rewrite chain_app. split.
  - intros (r & H1 & H2). apply chain_cons_inv in H2 as [-> H2].
    apply chain_nil_inv in H2. auto.
  - intros [H1 <-]. exists (Some x). split; auto. repeat constructor.
Qed.

(** A null-terminated chain is determined by its start. *)
Lemma chain_det nxt p l1 l2 :
  chain nxt p l1 None -> chain nxt p l2 None -> l1 = l2.
Proof.
  revert p l2. induction l1 as [|x l1 IH]; intros p l2 H1 H2.
  - apply chain_nil_inv in H1. subst. inversion H2; auto.
  - apply chain_cons_inv in H1 as [-> H1]. inversion H2; subst.
    f_equal. eauto.
Qed.

(** Redirecting the [next] of the last node before a cut. *)
Lemma chain_redirect nxt nxt' p l1 x l2 q r :
  chain nxt p (l1 ++ x :: l2) q ->
  (forall y, y ∈ l1 -> nxt y = nxt' y) -> nxt' x = r ->
  chain nxt' p (l1 ++ [x]) r.
Proof.
  intros H E Er. apply chain_snoc. split; auto.
  apply chain_app in H as (p' & H1 & H2). apply chain_cons_inv in H2 as [-> _].
  eapply chain_ext; eauto.
Qed.
End Chain.

Arguments chain {K} nxt p l q.

(** ** Doubly linked lists

    [dseg nxt prv pp l qn]: the nodes [l] are linked in both directions; the
    first node's [prev] is [pp], the last node's [next] is [qn]. *)
Section DSeg.
Context {K : Type} `{EqDecision K}.
Implicit Types (nxt prv : K -> option K) (l : list K) (p q : option K).

Fixpoint dseg nxt prv (pp : option K) l (qn : option K) : Prop :=
  match l with
  | [] => True
  | x :: l' => prv x = pp /\ nxt x = from_option Some qn (head l') /\ dseg nxt prv (Some x) l' qn
  end.

(** A whole list, null-terminated on both sides. *)
Definition dlist nxt prv l : Prop := dseg nxt prv None l None.

Lemma dseg_app nxt prv p l1 l2 q :
  dseg nxt prv p (l1 ++ l2) q <->
  dseg nxt prv p l1 (from_option Some q (head l2)) /\ dseg nxt prv (from_option Some p (last l1)) l2 q.
Proof.
  revert p. induction l1 as [|x l1 IH]; intros p; cbn [app dseg].
  - cbn. tauto.
  - rewrite IH. assert (El : from_option Some p (last (x :: l1)) = from_option Some (Some x) (last l1)).
    { rewrite last_cons. destruct (last l1); reflexivity. }
    assert (Eh : from_option Some q (head (l1 ++ l2)) =
                 from_option Some (from_option Some q (head l2)) (head l1)).
    { destruct l1; reflexivity. }
    rewrite El, Eh. tauto.
Qed.

(** Only the two boundary pointers of a segment may change. *)
Lemma dseg_relink nxt prv nxt' prv' p p' l q q' :
  NoDup l -> dseg nxt prv p l q ->
  (forall y, y ∈ l -> last l <> Some y -> nxt' y = nxt y) ->
  (forall y, last l = Some y -> nxt' y = q') ->
  (forall y, y ∈ l -> head l <> Some y -> prv' y = prv y) ->
  (forall y, head l = Some y -> prv' y = p') ->
  dseg nxt' prv' p' l q'.
Proof.
  revert p p'. induction l as [|x l IH]; intros p p' ND D Hn Hl Hp Hh; [exact I|].
  apply NoDup_cons in ND as [Hx ND]. destruct D as (D1 & D2 & D3). cbn [dseg]. split_and!.
  - apply Hh. reflexivity.
  - destruct l as [|y l]; [apply Hl; reflexivity|]. cbn. rewrite Hn, D2; [reflexivity | left |].
    rewrite last_cons_cons. intros E. apply Hx. apply last_Some in E as [l' E].
    rewrite E. apply elem_of_app. right. left.
  - apply (IH (Some x)); auto.
    + intros y Hy Hn'. apply Hn; [right; auto|]. rewrite last_cons. destruct (last l) eqn:E; [congruence|].
      apply last_None in E as ->. inversion Hy.
    + intros y Hy. apply Hl. rewrite last_cons, Hy. reflexivity.
    + intros y Hy _. apply Hp; [right; auto|]. cbn. intros [= ->]. contradiction.
    + intros y Hy. destruct l as [|z l]; [discriminate|]. injection Hy as ->.
      rewrite Hp; [apply D3 | right; left |]. cbn. intros [= ->]. apply Hx. left.
Qed.

Lemma dlist_ext nxt prv nxt' prv' l :
  NoDup l -> (forall y, y ∈ l -> nxt' y = nxt y /\ prv' y = prv y) ->
  dlist nxt prv l -> dlist nxt' prv' l.
Proof.
  unfold dlist. generalize (@None K) at 1 3 as p. induction l as [|x l IH]; intros p ND E D; [exact I|].
  apply NoDup_cons in ND as [_ ND]. destruct D as (D1 & D2 & D3). destruct (E x) as [E1 E2]; [left|].
  cbn [dseg]. rewrite E1, E2. split_and!; auto. apply IH; auto. intros y Hy. apply E. right; auto.
Qed.

(** Linking a node in between [l1] and [l2]. *)
Lemma dlist_insert nxt prv nxt' prv' l1 x l2 :
  NoDup (l1 ++ x :: l2) -> dlist nxt prv (l1 ++ l2) ->
  nxt' x = head l2 -> prv' x = last l1 ->
  (forall y, last l1 = Some y -> nxt' y = Some x) ->
  (forall y, y ∈ l1 ++ l2 -> last l1 <> Some y -> nxt' y = nxt y) ->
  (forall y, head l2 = Some y -> prv' y = Some x) ->
  (forall y, y ∈ l1 ++ l2 -> head l2 <> Some y -> prv' y = prv y) ->
  dlist nxt' prv' (l1 ++ x :: l2).
Proof.
  intros ND D Ex Px Hn Hn' Hp Hp'. apply NoDup_app in ND as (ND1 & Dis & ND2).
  apply NoDup_cons in ND2 as [Hx ND2]. unfold dlist in *. apply dseg_app in D as [D1 D2].
  assert (Nh : forall y, y ∈ l1 -> head l2 <> Some y).
  { intros y H E. apply (Dis y H). destruct l2; [discriminate|]. injection E as ->. right; left. }
  assert (Nl : forall y, y ∈ l2 -> last l1 <> Some y).
  { intros y H E. apply last_Some in E as [l' ->]. apply (Dis y); [|right; exact H].
    apply elem_of_app. right. left. }
  apply dseg_app. split; [|cbn [dseg]; split_and!].
  - eapply dseg_relink; [exact ND1 | exact D1 | | | |]; cbn.
    + intros y Hy. apply Hn'. apply elem_of_app; auto.
    + exact Hn.
    + intros y Hy _. apply Hp'; [apply elem_of_app; auto | auto].
    + intros y E. destruct l1 as [|z l1]; [discriminate|]. injection E as ->. destruct D1 as (E1 & _).
      rewrite Hp', E1; [reflexivity | left |]. apply Nh. left.
  - rewrite Px. destruct (last l1); reflexivity.
  - rewrite Ex. destruct (head l2); reflexivity.
  - eapply dseg_relink; [exact ND2 | exact D2 | | | |].
    + intros y Hy _. apply Hn'; [apply elem_of_app; auto | auto].
    + intros y E. rewrite Hn'; [|apply elem_of_app; right; apply last_Some in E as [l' ->]; apply elem_of_app; right; left|].
      * apply last_Some in E as [l' ->]. apply dseg_app in D2 as [_ (_ & E & _)]. exact E.
      * apply Nl. apply last_Some in E as [l' ->]. apply elem_of_app; right; left.
    + intros y Hy. apply Hp'. apply elem_of_app; auto.
    + exact Hp.
Qed.

(** Unlinking a node. *)
Lemma dlist_remove nxt prv nxt' prv' l1 x l2 :
  NoDup (l1 ++ x :: l2) -> dlist nxt prv (l1 ++ x :: l2) ->
  (forall y, last l1 = Some y -> nxt' y = head l2) ->
  (forall y, y ∈ l1 ++ l2 -> last l1 <> Some y -> nxt' y = nxt y) ->
  (forall y, head l2 = Some y -> prv' y = last l1) ->
  (forall y, y ∈ l1 ++ l2 -> head l2 <> Some y -> prv' y = prv y) ->
  dlist nxt' prv' (l1 ++ l2).
Proof.
  intros ND D Hn Hn' Hp Hp'. apply NoDup_app in ND as (ND1 & Dis & ND2).
  apply NoDup_cons in ND2 as [Hx ND2]. unfold dlist in *. apply dseg_app in D as [D1 (E1 & E2 & D2)].
  assert (Nh : forall y, y ∈ l1 -> head l2 <> Some y).
  { intros y H E. apply (Dis y H). destruct l2; [discriminate|]. injection E as ->. right; left. }
  assert (Nl : forall y, y ∈ l2 -> last l1 <> Some y).
  { intros y H E. apply last_Some in E as [l' ->]. apply (Dis y); [|right; exact H].
    apply elem_of_app. right. left. }
  apply dseg_app. split.
  - eapply dseg_relink; [exact ND1 | exact D1 | | | |].
    + intros y Hy. apply Hn'. apply elem_of_app; auto.
    + intros y E. rewrite Hn by auto. destruct (head l2); reflexivity.
    + intros y Hy _. apply Hp'; [apply elem_of_app; auto | auto].
    + intros y E. destruct l1 as [|z l1]; [discriminate|]. injection E as ->. destruct D1 as (E' & _).
      rewrite Hp', E'; [reflexivity | left |]. apply Nh. left.
  - eapply dseg_relink; [exact ND2 | exact D2 | | | |].
    + intros y Hy _. apply Hn'; [apply elem_of_app; auto | auto].
    + intros y E. assert (Hy : y ∈ l2) by (apply last_Some in E as [l' ->]; apply elem_of_app; right; left).
      rewrite Hn'; [|apply elem_of_app; auto | auto].
      apply last_Some in E as [l' ->]. apply dseg_app in D2 as [_ (_ & E & _)]. exact E.
    + intros y Hy. apply Hp'. apply elem_of_app; auto.
    + intros y E. rewrite Hp by auto. destruct (last l1); reflexivity.
Qed.

(** The neighbours of a node, as its own fields record them. *)
Lemma dlist_at nxt prv l1 x l2 :
  dlist nxt prv (l1 ++ x :: l2) -> prv x = last l1 /\ nxt x = head l2.
Proof.
  intros D. apply dseg_app in D as [_ (E1 & E2 & _)]. rewrite E1, E2.
  split; [destruct (last l1) | destruct (head l2)]; reflexivity.
Qed.

(** Following [next] through a doubly linked list. *)
Lemma dseg_chain nxt prv p l q : dseg nxt prv p l q -> chain nxt (from_option Some q (head l)) l q.
Proof.
  revert p. induction l as [|x l IH]; intros p D; [constructor|]. destruct D as (_ & E & D).
  cbn. constructor. rewrite E. exact (IH _ D).
Qed.

(** ** The three updates of the code, field by field *)

Lemma head_in (l : list K) x : head l = Some x -> x ∈ l.
Proof. destruct l; [discriminate|]. intros [= ->]. left. Qed.
Lemma last_in (l : list K) x : last l = Some x -> x ∈ l.
Proof. intros E. apply last_Some in E as [l' ->]. apply elem_of_app. right; left. Qed.

(** [x] is unlinked: its neighbours are linked to each other. *)
Definition unlinks nxt prv nxt' prv' (x : K) : Prop :=
  forall y, nxt' y = (if decide (prv x = Some y) then nxt x else nxt y) /\
            prv' y = (if decide (nxt x = Some y) then prv x else prv y).

(** [x] is put in front of [l], or behind it. *)
Definition pushes nxt prv nxt' prv' (x : K) l : Prop :=
  forall y, nxt' y = (if decide (y = x) then head l else nxt y) /\
            prv' y = (if decide (y = x) then None else if decide (head l = Some y) then Some x else prv y).
Definition appends nxt prv nxt' prv' (x : K) l : Prop :=
  forall y, nxt' y = (if decide (y = x) then None else if decide (last l = Some y) then Some x else nxt y) /\
            prv' y = (if decide (y = x) then last l else prv y).

Lemma unlinks_self nxt prv nxt' prv' l1 x l2 :
  NoDup (l1 ++ x :: l2) -> dlist nxt prv (l1 ++ x :: l2) -> unlinks nxt prv nxt' prv' x ->
  dlist nxt' prv' (l1 ++ l2).
Proof.
  intros ND D U. destruct (dlist_at _ _ _ _ _ D) as [P N]. pose proof ND as ND'.
  apply NoDup_app in ND' as (ND1 & Dis & ND2). apply NoDup_cons in ND2 as [Hx ND2].
  apply (dlist_remove nxt prv nxt' prv' l1 x l2); auto.
  - intros y H. rewrite (proj1 (U y)), P, N, decide_True by exact H. reflexivity.
  - intros y _ H. rewrite (proj1 (U y)), P, decide_False by exact H. reflexivity.
  - intros y H. rewrite (proj2 (U y)), P, N, decide_True by exact H. reflexivity.
  - intros y _ H. rewrite (proj2 (U y)), N, decide_False by exact H. reflexivity.
Qed.

(** Nodes of other lists keep their fields. *)
Lemma unlinks_other nxt prv nxt' prv' l1 x l2 y :
  dlist nxt prv (l1 ++ x :: l2) -> unlinks nxt prv nxt' prv' x -> y ∉ l1 ++ l2 ->
  nxt' y = nxt y /\ prv' y = prv y.
Proof.
  intros D U Hy. destruct (dlist_at _ _ _ _ _ D) as [P N]. destruct (U y) as [-> ->]. rewrite P, N.
  rewrite !decide_False; [auto | |]; intros H; apply Hy, elem_of_app; auto using head_in, last_in.
Qed.

Lemma pushes_self nxt prv nxt' prv' x l :
  NoDup (x :: l) -> dlist nxt prv l -> pushes nxt prv nxt' prv' x l -> dlist nxt' prv' (x :: l).
Proof.
  intros ND D U. pose proof ND as ND'. apply NoDup_cons in ND' as [Hx _].
  assert (Ne : forall y, y ∈ l -> y <> x) by (intros y H ->; contradiction).
  apply (dlist_insert nxt prv nxt' prv' [] x l ND D).
  - rewrite (proj1 (U x)), decide_True; reflexivity.
  - rewrite (proj2 (U x)), decide_True; reflexivity.
  - discriminate.
  - intros y H _. rewrite (proj1 (U y)), decide_False; auto.
  - intros y H. rewrite (proj2 (U y)), decide_False, decide_True; auto using head_in.
  - intros y H H'. rewrite (proj2 (U y)), !decide_False; auto.
Qed.

Lemma pushes_other nxt prv nxt' prv' x l y :
  pushes nxt prv nxt' prv' x l -> y <> x -> y ∉ l -> nxt' y = nxt y /\ prv' y = prv y.
Proof.
  intros U N Hy. destruct (U y) as [-> ->]. rewrite !decide_False; auto.
  intros H. apply Hy, head_in, H.
Qed.

Lemma appends_self nxt prv nxt' prv' x l :
  NoDup (x :: l) -> dlist nxt prv l -> appends nxt prv nxt' prv' x l -> dlist nxt' prv' (l ++ [x]).
Proof.
  intros ND D U. apply NoDup_cons in ND as [Hx ND].
  assert (Ne : forall y, y ∈ l -> y <> x) by (intros y H ->; contradiction).
  apply (dlist_insert nxt prv nxt' prv' l x []); rewrite ?app_nil_r; auto.
  - apply NoDup_app. split_and!; [exact ND | | apply NoDup_singleton].
    intros y H H'. apply list_elem_of_singleton in H'. exact (Ne y H H').
  - rewrite (proj1 (U x)), decide_True; reflexivity.
  - rewrite (proj2 (U x)), decide_True; reflexivity.
  - intros y H. rewrite (proj1 (U y)), decide_False, decide_True; auto using last_in.
  - intros y H H'. rewrite (proj1 (U y)), !decide_False; auto.
  - discriminate.
  - intros y H _. rewrite (proj2 (U y)), decide_False; auto.
Qed.

Lemma appends_other nxt prv nxt' prv' x l y :
  appends nxt prv nxt' prv' x l -> y <> x -> y ∉ l -> nxt' y = nxt y /\ prv' y = prv y.
Proof.
  intros U N Hy. destruct (U y) as [-> ->]. rewrite !decide_False; auto.
  intros H. apply Hy, last_in, H.
Qed.
End DSeg.
