(* ===== verification/Timeout.v ===== *)
(** The timer service of the kernel: utils/timeout.c.

    Timers are structs embedded in connections and ARP entries; the manager
    threads them through two doubly linked lists: [timeouts], in the order of
    their deadlines, and [due], waiting for their handler.  A pointer is
    [option Z]; [tm_obj] is the memory holding the structs. *)
From stdpp Require Import base numbers list gmap sorting.
From Stdlib Require Import ZArith Lia.
From S2P Require Import Prelude LinkedList.

(** ** Data *)

Definition TIMEOUT_BITS : Z := 28.
Definition TIMEOUT_MASK : Z := 268435455.
Definition MAX_TIMEOUTS : nat := 64.

Record timeout := mk_timeout
  { to_timeout_type : Z; to_next : option Z; to_prev : option Z }.
#[export] Instance eta_timeout : Eta timeout := fun o =>
  mk_timeout (to_timeout_type o) (to_next o) (to_prev o).
#[export] Instance timeout_inhabited : Inhabited timeout := populate (mk_timeout 0 None None).

(** [struct timeout_manager], with the memory its pointers refer to. *)
Record timeout_manager := mk_timeout_manager
  { tm_obj : gmap Z timeout;
    tm_timeouts_first : option Z; tm_timeouts_last : option Z;
    tm_due_first : option Z; tm_due_last : option Z }.
#[export] Instance eta_timeout_manager : Eta timeout_manager := fun m =>
  mk_timeout_manager (tm_obj m) (tm_timeouts_first m) (tm_timeouts_last m)
    (tm_due_first m) (tm_due_last m).

Definition util_timeout_init (obj : gmap Z timeout) : timeout_manager :=
  mk_timeout_manager obj None None None None.

(** Reading a struct, and updating a field of it. *)
Definition tget (m : timeout_manager) (i : Z) : timeout := tm_obj m !!! i.
Definition tset (m : timeout_manager) (i : Z) (o : timeout) : timeout_manager :=
  m <| tm_obj := <[i := o]> (tm_obj m) |>.

(** ** Time stamps of 28 bits *)

(** [rel_time]: 32-bit subtraction, returned as [int32_t]. *)
Definition rel_time (cur_ts : Z) (o : timeout) : Z :=
  let middle := 134217728 in
  let to_ts := Z.land (to_timeout_type o) TIMEOUT_MASK in
  if cur_ts <? middle then
    let start := Z.land (u32 (cur_ts - middle)) TIMEOUT_MASK in
    let end_ := 268435456 in
    if (start <=? to_ts) && (to_ts <? end_)
    then s32 (to_ts - start - middle)
    else s32 (to_ts - cur_ts)
  else if cur_ts =? middle then s32 (to_ts - cur_ts)
  else
    let start := 0 in
    let end_ := u32 (Z.land (u32 (cur_ts + middle)) TIMEOUT_MASK + 1) in
    if (start <=? cur_ts) && (to_ts <? end_)
    then s32 (to_ts + (268435456 - cur_ts))
    else s32 (to_ts - cur_ts).

Definition timeout_due (o : timeout) (ts : Z) : bool := rel_time ts o <=? 0.

(** ** Operations *)

(** One round of the loop of [move_due_timeouts]: the first pending timer goes
    to the end of the due list. *)
Definition move_one (m : timeout_manager) (to : Z) : timeout_manager :=
  let next := to_next (tget m to) in
  let m := m <| tm_timeouts_first := next |> in
  let m := match next with
           | Some n => tset m n (tget m n <| to_prev := None |>)
           | None => m <| tm_timeouts_last := None |>
           end in
  let m := tset m to (tget m to <| to_next := None |> <| to_prev := tm_due_last m |>) in
  let m := match tm_due_last m with
           | None => m <| tm_due_first := Some to |>
           | Some d => tset m d (tget m d <| to_next := Some to |>)
           end in
  m <| tm_due_last := Some to |>.

Fixpoint move_due_loop (fuel : nat) (m : timeout_manager) (cur_ts : Z) : outcome timeout_manager :=
  match fuel with
  | O => Spin
  | S fuel =>
    match tm_timeouts_first m with
    | None => Ok m
    | Some to =>
      if timeout_due (tget m to) cur_ts then move_due_loop fuel (move_one m to) cur_ts
      else Ok m
    end
  end.

(** Each list visits a struct at most once. *)
Definition list_fuel (m : timeout_manager) : nat := S (size (tm_obj m)).

Definition move_due_timeouts (m : timeout_manager) (cur_ts : Z) : outcome timeout_manager :=
  move_due_loop (list_fuel m) m cur_ts.

(** Step 2 of [util_timeout_arm_ts]: from the tail towards the head, the first
    timer that is not later; [rel_time] is compared as an unsigned number. *)
Fixpoint arm_pred (fuel : nat) (m : timeout_manager) (tp : option Z) (cur_ts us : Z)
    : outcome (option Z) :=
  match fuel with
  | O => Spin
  | S fuel =>
    match tp with
    | None => Ok None
    | Some p =>
      if us <? u32 (rel_time cur_ts (tget m p))
      then arm_pred fuel m (to_prev (tget m p)) cur_ts us else Ok tp
    end
  end.

(** Step 3: link the timer behind [tp]. *)
Definition arm_insert (m : timeout_manager) (to : Z) (us type cur_ts : Z) (tp : option Z)
    : timeout_manager :=
  let tn := match tp with Some p => to_next (tget m p) | None => tm_timeouts_first m end in
  let tt := Z.lor (u32 (Z.shiftl type TIMEOUT_BITS)) (Z.land (u32 (cur_ts + us)) TIMEOUT_MASK) in
  let m := tset m to (mk_timeout tt tn tp) in
  let m := match tp with
           | None => m <| tm_timeouts_first := Some to |>
           | Some p => tset m p (tget m p <| to_next := Some to |>)
           end in
  match tn with
  | None => m <| tm_timeouts_last := Some to |>
  | Some n => tset m n (tget m n <| to_prev := Some to |>)
  end.

Definition util_timeout_arm_ts (m : timeout_manager) (to : Z) (us type cur_ts : Z)
    : outcome timeout_manager :=
  if 134217728 <=? us then Crash
  else
    let! m := move_due_timeouts m cur_ts in
    let! tp := arm_pred (list_fuel m) m (tm_timeouts_last m) cur_ts us in
    Ok (arm_insert m to us type cur_ts tp).

Definition util_timeout_disarm (m : timeout_manager) (to : Z) : outcome timeout_manager :=
  let prev := to_prev (tget m to) in
  let next := to_next (tget m to) in
  let! m :=
    match prev with
    | None =>
      if decide (tm_timeouts_first m = Some to) then Ok (m <| tm_timeouts_first := next |>)
      else if decide (tm_due_first m = Some to) then Ok (m <| tm_due_first := next |>)
      else Crash
    | Some p => Ok (tset m p (tget m p <| to_next := next |>))
    end in
  match next with
  | None =>
    if decide (tm_timeouts_last m = Some to) then Ok (m <| tm_timeouts_last := prev |>)
    else if decide (tm_due_last m = Some to) then Ok (m <| tm_due_last := prev |>)
    else Crash
  | Some n => Ok (tset m n (tget m n <| to_prev := prev |>))
  end.

Definition util_timeout_next (m : timeout_manager) (cur_ts : Z) : Z :=
  match tm_due_first m with
  | Some _ => 0
  | None =>
    match tm_timeouts_first m with
    | None => UINT32_MAX
    | Some f => let next := rel_time cur_ts (tget m f) in if next <? 0 then 0 else next
    end
  end.

(** [util_timeout_poll_ts].  The handler gets the manager (it may arm and
    disarm timers) and the state [S] of its own. *)
Section Poll.
Context {S : Type} (handler : timeout_manager -> S -> Z -> Z -> outcome (timeout_manager * S)).

(** Taking the first timer off the due list. *)
Definition due_pop (m : timeout_manager) (to : Z) : timeout_manager :=
  let m := m <| tm_due_first := to_next (tget m to) |> in
  match tm_due_first m with
  | Some n => tset m n (tget m n <| to_prev := None |>)
  | None => m <| tm_due_last := None |>
  end.

(** [k] = [MAX_TIMEOUTS - num]. *)
Fixpoint poll_due (k : nat) (m : timeout_manager) (s : S) : outcome (timeout_manager * S) :=
  match k with
  | O => Ok (m, s)
  | Datatypes.S k =>
    match tm_due_first m with
    | None => Ok (m, s)
    | Some to =>
      let m := due_pop m to in
      let! (m, s) := handler m s to (Z.shiftr (to_timeout_type (tget m to)) TIMEOUT_BITS) in
      poll_due k m s
    end
  end.

Definition util_timeout_poll_ts (m : timeout_manager) (s : S) (cur_ts : Z)
    : outcome (timeout_manager * S) :=
  let! m := move_due_timeouts m cur_ts in
  poll_due MAX_TIMEOUTS m s.
End Poll.

(** ** Time

    The manager sees the microsecond clock modulo 2^28; the theorems speak of
    the unbounded clock. *)
Definition HORIZON : Z := 134217728.
Definition ts_of (t : Z) : Z := t mod 268435456.
Definition type_ts (o : timeout) : Z := Z.land (to_timeout_type o) TIMEOUT_MASK.
Definition type_of (o : timeout) : Z := Z.shiftr (to_timeout_type o) TIMEOUT_BITS.

Lemma land_mask x : Z.land x TIMEOUT_MASK = ts_of x.
Proof. change TIMEOUT_MASK with (Z.ones 28). rewrite Z.land_ones by lia. reflexivity. Qed.

(** [rel_time] as the signed distance of the two stamps. *)
Lemma rel_time_dist c o :
  0 <= c < 268435456 ->
  rel_time c o =
    let d := type_ts o - c in
    if c <? HORIZON then (if HORIZON <=? d then d - 268435456 else d)
    else if c =? HORIZON then d
    else if d <=? - HORIZON then d + 268435456 else d.
Proof.
  intros Hc. unfold rel_time, type_ts. pose proof (land_mask (to_timeout_type o)) as E.
  assert (Ht : 0 <= Z.land (to_timeout_type o) TIMEOUT_MASK < 268435456)
    by (rewrite E; unfold ts_of; apply Z.mod_pos_bound; lia).
  revert Ht. generalize (Z.land (to_timeout_type o) TIMEOUT_MASK). intros t Ht. clear E.
  rewrite !land_mask. unfold HORIZON, ts_of. cbv zeta.
  assert (E1 : c < 134217728 -> u32 (c - 134217728) mod 268435456 = c + 134217728) by (intros; mlia).
  assert (E2 : 134217728 < c -> u32 (u32 (c + 134217728) mod 268435456 + 1) = c - 134217728 + 1) by (intros; mlia).
  destruct (Z.ltb_spec c 134217728).
  - rewrite E1 by lia. bsplit; rewrite s32_small by lia; lia.
  - clear E1. destruct (Z.eqb_spec c 134217728); [apply s32_small; lia|].
    rewrite E2 by lia. bsplit; rewrite s32_small by lia; lia.
Qed.

(** On the unbounded clock: exact within the horizon. *)
Lemma rel_time_exact T d o :
  type_ts o = ts_of d -> - HORIZON < d - T < HORIZON -> rel_time (ts_of T) o = d - T.
Proof.
  intros E H. rewrite rel_time_dist by (unfold ts_of; apply Z.mod_pos_bound; lia).
  rewrite E. unfold ts_of, HORIZON in *. cbv zeta. bsplit; Z.div_mod_to_equations; lia.
Qed.

(** ** The lists the manager represents *)

Record timer := mk_timer { t_id : Z; t_deadline : Z; t_type : Z }.

Definition nxt (m : timeout_manager) (i : Z) : option Z := to_next (tget m i).
Definition prv (m : timeout_manager) (i : Z) : option Z := to_prev (tget m i).

(** The struct of a timer. *)
Definition encodes (m : timeout_manager) (t : timer) : Prop :=
  to_timeout_type (tget m (t_id t)) = t_type t * 268435456 + ts_of (t_deadline t).

(** [pend] in the order of deadlines, [due] in the order in which they will be
    handled; no timer is in both. *)
Record timers_rep (m : timeout_manager) (pend due : list timer) : Prop := mk_timers_rep
  { tr_pend : dlist (nxt m) (prv m) (map t_id pend);
    tr_due : dlist (nxt m) (prv m) (map t_id due);
    tr_first : tm_timeouts_first m = head (map t_id pend);
    tr_last : tm_timeouts_last m = last (map t_id pend);
    tr_due_first : tm_due_first m = head (map t_id due);
    tr_due_last : tm_due_last m = last (map t_id due);
    tr_nodup : NoDup (map t_id pend ++ map t_id due);
    tr_alloc : forall i, i ∈ map t_id pend ++ map t_id due -> is_Some (tm_obj m !! i);
    tr_enc : Forall (encodes m) (pend ++ due);
    tr_type : Forall (fun t => 0 <= t_type t < 16) (pend ++ due);
    tr_sorted : StronglySorted (fun t u => t_deadline t <= t_deadline u) pend }.

(** No pending deadline is 2^27 microseconds or more away. *)
Definition within (T : Z) (pend : list timer) : Prop :=
  Forall (fun t => - HORIZON < t_deadline t - T < HORIZON) pend.

Lemma tget_tset m i o j : tget (tset m i o) j = if decide (i = j) then o else tget m j.
Proof.
  unfold tget, tset. cbn. destruct (decide (i = j)) as [->|N];
    [apply lookup_total_insert_eq | apply lookup_total_insert_ne; auto].
Qed.

Lemma encodes_fields m t : 0 <= t_type t < 16 -> encodes m t ->
  type_ts (tget m (t_id t)) = ts_of (t_deadline t) /\ type_of (tget m (t_id t)) = t_type t.
Proof.
  unfold encodes, type_ts, type_of. intros Ht ->. rewrite land_mask, Z.shiftr_div_pow2 by (unfold TIMEOUT_BITS; lia).
  change (2 ^ TIMEOUT_BITS) with 268435456. unfold ts_of. split; Z.div_mod_to_equations; lia.
Qed.

(** A loop over one of the lists ends within [list_fuel] steps. *)
Lemma rep_length m pend due : timers_rep m pend due -> (length pend < list_fuel m)%nat.
Proof.
  intros R. apply tr_nodup in R as ND. apply NoDup_app in ND as (ND & _ & _).
  unfold list_fuel. assert (length (map t_id pend) <= size (tm_obj m))%nat; [|rewrite length_map in *; lia].
  rewrite <- (size_dom (tm_obj m)), <- (size_list_to_set (C := gset Z) (map t_id pend)) by exact ND.
  apply subseteq_size. intros i Hi. apply elem_of_list_to_set in Hi. apply elem_of_dom.
  apply (tr_alloc _ _ _ R). apply elem_of_app; auto.
Qed.

(** Reading structs and manager fields through updates. *)
Lemma tget_first m v i : tget (m <| tm_timeouts_first := v |>) i = tget m i.
Proof. reflexivity. Qed.
Lemma tget_last m v i : tget (m <| tm_timeouts_last := v |>) i = tget m i.
Proof. reflexivity. Qed.
Lemma tget_due_first m v i : tget (m <| tm_due_first := v |>) i = tget m i.
Proof. reflexivity. Qed.
Lemma tget_due_last m v i : tget (m <| tm_due_last := v |>) i = tget m i.
Proof. reflexivity. Qed.
Create Rewrite HintDb tget.
#[local] Hint Rewrite tget_first tget_last tget_due_first tget_due_last tget_tset : tget.

Ltac tget_cases :=
  unfold nxt, prv; autorewrite with tget; repeat case_decide; simplify_eq/=; try congruence; auto.

Lemma head_elem {A} (l : list A) x : head l = Some x -> x ∈ l.
Proof. destruct l; [discriminate|]. intros [= ->]. left. Qed.
Lemma last_elem {A} (l : list A) x : last l = Some x -> x ∈ l.
Proof. intros E. apply last_Some in E as [l' ->]. apply elem_of_app. right; left. Qed.

Section MoveOne.
Context (m : timeout_manager) (x : Z) (P D : list Z).
Hypothesis ND : NoDup ((x :: P) ++ D).
Hypothesis Ex : to_next (tget m x) = head P.
Hypothesis El : tm_due_last m = last D.

Lemma move_one_disj :
  (forall y, head P = Some y -> y <> x /\ last D <> Some y) /\ (forall y, last D = Some y -> y <> x).
Proof.
  apply NoDup_cons in ND as [Hx ND']. apply NoDup_app in ND' as (_ & Dis & _).
  assert (HD : forall y, last D = Some y -> y ∈ D).
  { intros y E. apply last_Some in E as [l ->]. apply elem_of_app. right; left. }
  assert (HP : forall y, head P = Some y -> y ∈ P).
  { intros y E. destruct P; [discriminate|]. injection E as ->. left. }
  split.
  - intros y E. split; [|intros E'; apply (Dis y); auto]. intros ->. apply Hx, elem_of_app; auto.
  - intros y E ->. apply Hx, elem_of_app; auto.
Qed.

Lemma move_one_nxt y : nxt (move_one m x) y =
  if decide (last D = Some y) then Some x else if decide (y = x) then None else nxt m y.
Proof.
  destruct move_one_disj as [H1 H2]. unfold move_one. rewrite Ex.
  destruct (head P) as [n|]; cbn [tm_due_last tset upd eta_timeout_manager]; rewrite El;
    destruct (last D) as [d|]; try (destruct (H1 n eq_refl)); try (pose proof (H2 d eq_refl)); tget_cases.
Qed.

Lemma move_one_prv y : prv (move_one m x) y =
  if decide (y = x) then last D else if decide (head P = Some y) then None else prv m y.
Proof.
  destruct move_one_disj as [H1 H2]. unfold move_one. rewrite Ex.
  destruct (head P) as [n|]; cbn [tm_due_last tset upd eta_timeout_manager]; rewrite El;
    destruct (last D) as [d|]; try (destruct (H1 n eq_refl)); try (pose proof (H2 d eq_refl)); tget_cases.
Qed.

Lemma move_one_type y : to_timeout_type (tget (move_one m x) y) = to_timeout_type (tget m y).
Proof.
  unfold move_one. rewrite Ex.
  destruct (head P) as [n|]; cbn [tm_due_last tset upd eta_timeout_manager]; rewrite El;
    destruct (last D) as [d|]; tget_cases.
Qed.

(** Both lists after one round. *)
Lemma move_one_lists :
  dlist (nxt m) (prv m) (x :: P) -> dlist (nxt m) (prv m) D ->
  dlist (nxt (move_one m x)) (prv (move_one m x)) P /\
  dlist (nxt (move_one m x)) (prv (move_one m x)) (D ++ [x]).
Proof.
  intros Dp Dd. pose proof move_one_disj as [H1 H2]. pose proof ND as ND'.
  apply NoDup_cons in ND' as [Hx ND']. apply NoDup_app in ND' as (NDP & Dis & NDD).
  assert (Dis' : forall y, y ∈ D -> head P <> Some y) by (intros y H E; apply head_elem in E; apply (Dis y); auto).
  assert (Dis2 : forall y, y ∈ P -> last D <> Some y) by (intros y H E; apply last_elem in E; apply (Dis y); auto).
  assert (NxP : forall y, y ∈ P -> y <> x) by (intros y H ->; apply Hx, elem_of_app; auto).
  assert (NxD : forall y, y ∈ D -> y <> x) by (intros y H ->; apply Hx, elem_of_app; auto).
  pose proof move_one_nxt as N. pose proof move_one_prv as V. split.
  - apply (dlist_remove (nxt m) (prv m) _ _ [] x P); cbn [app]; auto.
    + apply NoDup_cons. split; [|exact NDP]. intros H. apply Hx, elem_of_app; auto.
    + discriminate.
    + intros y H _. rewrite N, !decide_False; auto.
    + intros y H. rewrite V, decide_False, decide_True; auto. apply H1, H.
    + intros y H H'. rewrite V, !decide_False; auto.
  - apply (dlist_insert (nxt m) (prv m) _ _ D x []); rewrite ?app_nil_r; auto.
    + apply NoDup_app. split_and!; [exact NDD | | apply NoDup_singleton].
      intros y H H'. apply list_elem_of_singleton in H'. subst. apply (NxD x H eq_refl).
    + rewrite N, decide_False, decide_True; auto. intros E. apply (H2 x E eq_refl).
    + rewrite V, decide_True; auto.
    + intros y H. rewrite N, decide_True; auto.
    + intros y H H'. rewrite N, !decide_False; auto.
    + discriminate.
    + intros y H _. rewrite V, !decide_False; auto.
Qed.

(** The manager's four pointers after one round. *)
Lemma move_one_ptrs :
  tm_timeouts_last m = last (x :: P) -> tm_due_first m = head D ->
  tm_timeouts_first (move_one m x) = head P /\ tm_timeouts_last (move_one m x) = last P /\
  tm_due_first (move_one m x) = head (D ++ [x]) /\ tm_due_last (move_one m x) = last (D ++ [x]).
Proof.
  intros La DF. unfold move_one. rewrite last_snoc, Ex. split_and!.
  - destruct (head P), (tm_due_last _); reflexivity.
  - transitivity (match head P with Some _ => last (x :: P) | None => None end).
    + rewrite <- La. destruct (head P), (tm_due_last _); reflexivity.
    + rewrite last_cons. destruct P as [|z P']; [reflexivity|]. cbn [head].
      destruct (last (z :: P')) eqn:E; [reflexivity | apply last_None in E; discriminate].
  - transitivity (match last D with Some _ => head D | None => Some x end).
    + rewrite <- El, <- DF. destruct (head P); cbn [tm_due_last tset upd eta_timeout_manager];
        destruct (tm_due_last m); reflexivity.
    + destruct D as [|z D']; [reflexivity|]. destruct (last (z :: D')) eqn:E; [reflexivity | apply last_None in E; discriminate].
  - destruct (head P), (tm_due_last _); reflexivity.
Qed.
End MoveOne.

(** No operation drops a struct of the memory. *)
Lemma move_one_alloc m x i : is_Some (tm_obj m !! i) -> is_Some (tm_obj (move_one m x) !! i).
Proof.
  intros H. unfold move_one, tset. destruct (to_next (tget m x)); cbn [tm_due_last upd eta_timeout_manager];
    destruct (tm_due_last m); cbn [tm_obj upd eta_timeout_manager]; rewrite ?lookup_insert_is_Some'; auto.
Qed.

Lemma move_one_rep m t pend due :
  timers_rep m (t :: pend) due -> timers_rep (move_one m (t_id t)) pend (due ++ [t]).
Proof.
  intros [Dp Dd F La DF DL ND Al En Ty So].
  destruct (dlist_at _ _ [] (t_id t) (map t_id pend) Dp) as [_ Ex].
  destruct (move_one_lists m _ _ _ ND Ex DL Dp Dd) as [L1 L2].
  destruct (move_one_ptrs m _ _ _ ND Ex DL La DF) as (P1 & P2 & P3 & P4).
  assert (EM : map t_id (due ++ [t]) = map t_id due ++ [t_id t]) by apply map_app.
  assert (EP : pend ++ due ++ [t] ≡ₚ (t :: pend) ++ due).
  { rewrite (Permutation_app_comm due [t]), (app_assoc pend [t] due), (Permutation_app_comm pend [t]). reflexivity. }
  assert (EI : map t_id pend ++ map t_id due ++ [t_id t] ≡ₚ map t_id (t :: pend) ++ map t_id due).
  { rewrite <- EM, <- !map_app, EP. reflexivity. }
  split; rewrite ?EM; auto.
  - rewrite EI. exact ND.
  - intros i Hi. apply move_one_alloc, Al. rewrite <- EI. exact Hi.
  - rewrite EP. eapply Forall_impl; [exact En|]. intros u Hu. unfold encodes in *.
    rewrite (move_one_type m (t_id t) (map t_id pend) (map t_id due)) by auto. exact Hu.
  - rewrite EP. exact Ty.
  - apply StronglySorted_inv in So as [So _]. exact So.
Qed.

(** ** Moving due timers *)

Definition later (T : Z) (pend : list timer) : list timer := filter (fun t => T < t_deadline t) pend.
Definition expired (T : Z) (pend : list timer) : list timer := filter (fun t => t_deadline t <= T) pend.

Lemma none_expired T pend : Forall (fun t => T < t_deadline t) pend -> later T pend = pend /\ expired T pend = [].
Proof.
  unfold later, expired. induction 1 as [|t l H _ [IH1 IH2]]; [auto|].
  rewrite !filter_cons. rewrite decide_True, decide_False by lia. rewrite IH1, IH2. auto.
Qed.

Lemma expired_cons T t pend : t_deadline t <= T ->
  later T (t :: pend) = later T pend /\ expired T (t :: pend) = t :: expired T pend.
Proof. intros H. unfold later, expired. rewrite !filter_cons, decide_False, decide_True by lia. auto. Qed.

(** [timeout_due] on the unbounded clock. *)
Lemma timeout_due_exact m t T :
  0 <= t_type t < 16 -> encodes m t -> - HORIZON < t_deadline t - T < HORIZON ->
  rel_time (ts_of T) (tget m (t_id t)) = t_deadline t - T /\
  timeout_due (tget m (t_id t)) (ts_of T) = (t_deadline t <=? T).
Proof.
  intros Ht E H. destruct (encodes_fields m t Ht E) as [Es _].
  unfold timeout_due. rewrite (rel_time_exact T (t_deadline t)) by auto. split; [reflexivity|]. bsplit; lia.
Qed.

Lemma move_due_loop_rep fuel m pend due T :
  timers_rep m pend due -> within T pend -> (length pend < fuel)%nat ->
  exists m', move_due_loop fuel m (ts_of T) = Ok m' /\
    timers_rep m' (later T pend) (due ++ expired T pend).
Proof.
  revert m pend due. induction fuel as [|fuel IH]; intros m pend due R W Hf; [lia|]. cbn [move_due_loop].
  rewrite (tr_first _ _ _ R). destruct pend as [|t pend]; cbn [map head].
  { exists m. split; [reflexivity|]. cbn. rewrite app_nil_r. exact R. }
  apply Forall_cons in W as [W0 W].
  destruct (timeout_due_exact m t T) as [_ E]; [| |exact W0|].
  { pose proof (tr_type _ _ _ R) as Ty. inversion Ty. auto. }
  { pose proof (tr_enc _ _ _ R) as En. inversion En. auto. }
  rewrite E. destruct (Z.leb_spec (t_deadline t) T) as [L|L].
  - destruct (expired_cons T t pend L) as [-> ->].
    destruct (IH _ _ _ (move_one_rep m t pend due R) W) as (m' & E' & R'); [cbn in Hf; lia|].
    exists m'. split; [exact E'|]. rewrite <- app_assoc in R'. exact R'.
  - exists m. split; [reflexivity|]. pose proof (tr_sorted _ _ _ R) as So.
    apply StronglySorted_inv in So as [_ So].
    destruct (none_expired T (t :: pend)) as [-> ->]; [|rewrite app_nil_r; exact R].
    constructor; [lia|]. eapply Forall_impl; [exact So|]. cbn. lia.
Qed.

Lemma move_due_rep m pend due T :
  timers_rep m pend due -> within T pend ->
  exists m', move_due_timeouts m (ts_of T) = Ok m' /\
    timers_rep m' (later T pend) (due ++ expired T pend).
Proof. intros R W. apply move_due_loop_rep; auto. eapply rep_length, R. Qed.

(** ** Arming *)

(** The pending list with one more timer: behind those not later. *)
Definition insert_timer (t : timer) (pend : list timer) : list timer :=
  expired (t_deadline t) pend ++ t :: later (t_deadline t) pend.

Lemma sorted_split d pend :
  StronglySorted (fun t u => t_deadline t <= t_deadline u) pend -> pend = expired d pend ++ later d pend.
Proof.
  induction 1 as [|t l So IH Ht]; [reflexivity|]. destruct (Z.le_gt_cases (t_deadline t) d) as [L|L].
  - destruct (expired_cons d t l L) as [-> ->]. cbn. congruence.
  - destruct (none_expired d (t :: l)) as [-> ->]; [|reflexivity].
    constructor; [lia|]. eapply Forall_impl; [exact Ht|]. cbn. lia.
Qed.

(** The search from the tail stops at the last timer that is not later. *)
Lemma arm_pred_spec m l r due T us fuel :
  timers_rep m (l ++ r) due -> Forall (fun t => T < t_deadline t < T + HORIZON) l -> 0 <= us < HORIZON ->
  (length l < fuel)%nat ->
  arm_pred fuel m (last (map t_id l)) (ts_of T) us = Ok (last (map t_id (expired (T + us) l))).
Proof.
  intros R W Hu. revert l r R W. induction fuel as [|fuel IH]; intros l r R W Hf; [lia|].
  destruct l as [|t l _] using rev_ind; [reflexivity|]. cbn [arm_pred].
  rewrite map_app; cbn [map]; rewrite last_snoc. apply Forall_app in W as [W W0]. rewrite Forall_singleton in W0.
  assert (Hin : t ∈ (l ++ [t]) ++ r) by (rewrite !elem_of_app, list_elem_of_singleton; auto).
  destruct (timeout_due_exact m t T) as [E _].
  { pose proof (tr_type _ _ _ R) as Ty. apply Forall_app in Ty as [Ty _]. rewrite Forall_forall in Ty. auto. }
  { pose proof (tr_enc _ _ _ R) as En. apply Forall_app in En as [En _]. rewrite Forall_forall in En. auto. }
  { unfold HORIZON in *; lia. }
  rewrite E, u32_small by (unfold is_u32, HORIZON in *; lia).
  pose proof (tr_sorted _ _ _ R) as So. rewrite <- app_assoc in So, R. cbn [app] in So, R.
  destruct (Z.ltb_spec us (t_deadline t - T)) as [L|L].
  - pose proof (tr_pend _ _ _ R) as D. rewrite map_app in D. cbn [map] in D.
    destruct (dlist_at _ _ _ _ _ D) as [Ep _]. unfold prv in Ep. rewrite Ep.
    rewrite (IH l (t :: r)); auto; [|rewrite length_app in Hf; cbn in Hf; lia].
    unfold expired. rewrite filter_app, filter_cons, decide_False, filter_nil, app_nil_r by lia. reflexivity.
  - apply StronglySorted_app in So as (So & So1 & So2).
    assert (El : expired (T + us) l = l).
    { unfold expired. clear - So So1 L. induction l as [|u l IH]; [reflexivity|].
      apply StronglySorted_inv in So1 as [So1 _].
      rewrite filter_cons, decide_True, IH; auto.
      - intros a b Ha Hb. apply So; [right|]; auto.
      - specialize (So u t). assert (t_deadline u <= t_deadline t) by (apply So; left). lia. }
    unfold expired in *. rewrite filter_app, El, filter_cons, decide_True, filter_nil by lia.
    rewrite map_app; cbn [map]; rewrite last_snoc. reflexivity.
Qed.

Section ArmInsert.
Context (m : timeout_manager) (x us type cur : Z) (L1 L2 : list Z).
Let tp := last L1.
Let m' := arm_insert m x us type cur tp.
Hypothesis ND : NoDup (L1 ++ L2).
Hypothesis Hx : x ∉ L1 ++ L2.
Hypothesis Dl : dlist (nxt m) (prv m) (L1 ++ L2).
Hypothesis Fst : tm_timeouts_first m = head (L1 ++ L2).

Lemma arm_insert_next :
  match tp with Some p => to_next (tget m p) | None => tm_timeouts_first m end = head L2.
Proof.
  unfold tp. destruct (last L1) as [p|] eqn:E.
  - apply last_Some in E as [l ->]. rewrite <- app_assoc in Dl. cbn in Dl.
    destruct (dlist_at _ _ l p L2 Dl) as [_ E]. exact E.
  - apply last_None in E as ->. exact Fst.
Qed.

Lemma arm_insert_disj :
  (forall p, last L1 = Some p -> p <> x /\ head L2 <> Some p) /\ (forall n, head L2 = Some n -> n <> x).
Proof.
  apply NoDup_app in ND as (_ & Dis & _). split.
  - intros p E. apply last_elem in E. split; [|intros E'; apply head_elem in E'; apply (Dis p); auto].
    intros ->. apply Hx, elem_of_app; auto.
  - intros n E ->. apply head_elem in E. apply Hx, elem_of_app; auto.
Qed.

Lemma arm_insert_nxt y : nxt m' y =
  if decide (last L1 = Some y) then Some x else if decide (y = x) then head L2 else nxt m y.
Proof.
  destruct arm_insert_disj as [H1 H2]. unfold m', arm_insert. rewrite arm_insert_next. unfold tp.
  destruct (last L1) as [p|]; destruct (head L2) as [n|];
    try (destruct (H1 p eq_refl)); try (pose proof (H2 n eq_refl)); tget_cases.
Qed.

Lemma arm_insert_prv y : prv m' y =
  if decide (head L2 = Some y) then Some x else if decide (y = x) then last L1 else prv m y.
Proof.
  destruct arm_insert_disj as [H1 H2]. unfold m', arm_insert. rewrite arm_insert_next. unfold tp.
  destruct (last L1) as [p|]; destruct (head L2) as [n|];
    try (destruct (H1 p eq_refl)); try (pose proof (H2 n eq_refl)); tget_cases.
Qed.

Lemma arm_insert_type y : to_timeout_type (tget m' y) =
  if decide (y = x) then Z.lor (u32 (Z.shiftl type TIMEOUT_BITS)) (Z.land (u32 (cur + us)) TIMEOUT_MASK)
  else to_timeout_type (tget m y).
Proof.
  destruct arm_insert_disj as [H1 H2]. unfold m', arm_insert. rewrite arm_insert_next. unfold tp.
  destruct (last L1) as [p|]; destruct (head L2) as [n|];
    try (destruct (H1 p eq_refl)); try (pose proof (H2 n eq_refl)); tget_cases.
Qed.

Lemma arm_insert_list : dlist (nxt m') (prv m') (L1 ++ x :: L2).
Proof.
  destruct arm_insert_disj as [H1 H2].
  assert (NE : forall y, y ∈ L1 ++ L2 -> y <> x) by (intros y H ->; auto).
  apply (dlist_insert (nxt m) (prv m) _ _ L1 x L2); auto.
  - rewrite <- Permutation_middle. apply NoDup_cons; auto.
  - rewrite arm_insert_nxt, decide_False, decide_True; auto. intros E. destruct (H1 x E); congruence.
  - rewrite arm_insert_prv, decide_False, decide_True; auto. intros E. apply (H2 x E eq_refl).
  - intros y E. rewrite arm_insert_nxt, decide_True; auto.
  - intros y Hy E. rewrite arm_insert_nxt, !decide_False; auto.
  - intros y E. rewrite arm_insert_prv, decide_True; auto.
  - intros y Hy E. rewrite arm_insert_prv, !decide_False; auto.
Qed.

(** A list elsewhere is not touched. *)
Lemma arm_insert_other D : NoDup D -> (forall y, y ∈ D -> y ∉ L1 ++ L2 /\ y <> x) ->
  dlist (nxt m) (prv m) D -> dlist (nxt m') (prv m') D.
Proof.
  intros NDD Hy. apply dlist_ext; auto. intros y Hin. destruct (Hy y Hin) as [Hn Hne].
  rewrite arm_insert_nxt, arm_insert_prv, !decide_False; auto;
    intros E; [apply head_elem in E | apply last_elem in E]; apply Hn, elem_of_app; auto.
Qed.

Lemma arm_insert_ptrs : tm_timeouts_last m = last (L1 ++ L2) ->
  tm_timeouts_first m' = head (L1 ++ x :: L2) /\ tm_timeouts_last m' = last (L1 ++ x :: L2) /\
  tm_due_first m' = tm_due_first m /\ tm_due_last m' = tm_due_last m.
Proof.
  intros La. unfold m', arm_insert. rewrite arm_insert_next. unfold tp. split_and!.
  - destruct L1 as [|a l]; [destruct L2; reflexivity|]. cbn [app head]. cbn [app head] in Fst.
    destruct (last (a :: l)) eqn:E; [|apply last_None in E; discriminate]. destruct (head L2); exact Fst.
  - rewrite last_app, last_cons. destruct L2 as [|b l]; [destruct (last L1); reflexivity|]. cbn [head].
    rewrite last_app in La. destruct (last (b :: l)) eqn:E; [|apply last_None in E; discriminate].
    rewrite <- La. destruct (last L1); reflexivity.
  - destruct (last L1), (head L2); reflexivity.
  - destruct (last L1), (head L2); reflexivity.
Qed.

Lemma arm_insert_alloc i : i = x \/ is_Some (tm_obj m !! i) -> is_Some (tm_obj m' !! i).
Proof.
  intros H. unfold m', arm_insert, tset. rewrite arm_insert_next.
  destruct tp, (head L2); cbn [tm_obj upd eta_timeout_manager];
    rewrite ?lookup_insert_is_Some'; destruct H as [->|]; auto.
Qed.
End ArmInsert.

Lemma arm_stamp T us type : 0 <= type < 16 ->
  Z.lor (u32 (Z.shiftl type TIMEOUT_BITS)) (Z.land (u32 (ts_of T + us)) TIMEOUT_MASK) =
  type * 268435456 + ts_of (T + us).
Proof.
  intros Ht. rewrite land_mask. unfold TIMEOUT_BITS.
  rewrite u32_small by (rewrite Z.shiftl_mul_pow2 by lia; change (2 ^ 28) with 268435456; unfold is_u32; lia).
  assert (E : ts_of (u32 (ts_of T + us)) = ts_of (T + us)) by (unfold ts_of, u32; Z.div_mod_to_equations; lia).
  rewrite E, lor_shiftl_add; [reflexivity | lia |]. apply Z.mod_pos_bound. lia.
Qed.

(** The timers a list loses by [later] and [expired] are the ones it has. *)
Lemma later_expired T pend : later T pend ++ expired T pend ≡ₚ pend.
Proof.
  unfold later, expired. induction pend as [|t l IH]; [reflexivity|]. rewrite !filter_cons.
  destruct (Z.le_gt_cases (t_deadline t) T).
  - rewrite decide_False, decide_True by lia. rewrite <- Permutation_middle, IH. reflexivity.
  - rewrite decide_True, decide_False by lia. cbn. rewrite IH. reflexivity.
Qed.

Lemma insert_timer_perm t pend : insert_timer t pend ≡ₚ t :: pend.
Proof.
  unfold insert_timer. rewrite <- Permutation_middle, (Permutation_app_comm (expired _ _)), later_expired. reflexivity.
Qed.

Lemma insert_timer_sorted t pend :
  StronglySorted (fun t u => t_deadline t <= t_deadline u) pend ->
  StronglySorted (fun t u => t_deadline t <= t_deadline u) (insert_timer t pend).
Proof.
  intros So. rewrite (sorted_split (t_deadline t) pend So) in So. unfold insert_timer.
  apply StronglySorted_app in So as (_ & So1 & So2). apply StronglySorted_app. split_and!; auto.
  - intros u v Hu Hv. apply list_elem_of_filter in Hu as [Hu _].
    apply elem_of_cons in Hv as [->|Hv]; [exact Hu|]. apply list_elem_of_filter in Hv as [Hv _]. lia.
  - constructor; auto. apply Forall_forall. intros v Hv. apply list_elem_of_filter in Hv as [Hv _]. lia.
Qed.

Lemma arm_insert_rep m pend due T x us type :
  timers_rep m pend due -> x ∉ map t_id (pend ++ due) -> 0 <= type < 16 ->
  timers_rep (arm_insert m x us type (ts_of T) (last (map t_id (expired (T + us) pend))))
    (insert_timer (mk_timer x (T + us) type) pend) due.
Proof.
  intros [Dp Dd F La DF DL ND Al En Ty So] Hx Ht. rewrite map_app in Hx.
  set (t := mk_timer x (T + us) type). pose proof (insert_timer_perm t pend) as EP.
  pose proof (sorted_split (T + us) pend So) as Sp.
  set (L1 := map t_id (expired (T + us) pend)) in *. set (L2 := map t_id (later (T + us) pend)).
  assert (EI : map t_id pend = L1 ++ L2) by (rewrite Sp at 1; apply map_app).
  assert (EI' : map t_id (insert_timer t pend) = L1 ++ x :: L2) by apply map_app.
  rewrite EI in *. pose proof ND as ND'. apply NoDup_app in ND' as (NDP & Dis & NDD).
  assert (Hx1 : x ∉ L1 ++ L2) by (intros H; apply Hx, elem_of_app; auto).
  destruct (arm_insert_ptrs m x us type (ts_of T) L1 L2 NDP Hx1 Dp F La) as (P1 & P2 & P3 & P4).
  pose proof (arm_insert_type m x us type (ts_of T) L1 L2 NDP Hx1 Dp F) as ET.
  split; rewrite ?EI', ?P3, ?P4; auto.
  - apply arm_insert_list; auto.
  - eapply arm_insert_other; eauto. intros y Hy. split.
    + intros Hy'. apply (Dis y); auto.
    + intros ->. apply Hx, elem_of_app; auto.
  - rewrite <- Permutation_middle. cbn. apply NoDup_cons; auto.
  - intros i Hi. apply (arm_insert_alloc m x us type (ts_of T) L1 L2); auto.
    rewrite <- Permutation_middle in Hi. cbn in Hi. apply elem_of_cons in Hi as [->|Hi]; auto.
  - rewrite EP. constructor.
    + unfold encodes. rewrite ET, decide_True by reflexivity. apply arm_stamp, Ht.
    + rewrite Forall_forall in En |- *. intros u Hu. unfold encodes. rewrite ET, decide_False; [apply En, Hu|].
      intros E. apply Hx. rewrite <- EI, <- map_app, <- E. apply list_elem_of_fmap_2, Hu.
  - rewrite EP. constructor; auto.
  - apply insert_timer_sorted, So.
Qed.

Lemma later_within T pend : within T pend -> Forall (fun t => T < t_deadline t < T + HORIZON) (later T pend).
Proof.
  unfold within. rewrite !Forall_forall. intros H t Ht. apply list_elem_of_filter in Ht as [Ht Hin].
  specialize (H t Hin). cbn in H. lia.
Qed.

Lemma arm_rep m pend due T x us type :
  timers_rep m pend due -> within T pend -> x ∉ map t_id (pend ++ due) ->
  0 <= us < HORIZON -> 0 <= type < 16 ->
  exists m', util_timeout_arm_ts m x us type (ts_of T) = Ok m' /\
    timers_rep m' (insert_timer (mk_timer x (T + us) type) (later T pend)) (due ++ expired T pend).
Proof.
  intros R W Hx Hu Ht. unfold util_timeout_arm_ts. fold HORIZON.
  destruct (Z.leb_spec HORIZON us); [lia|].
  destruct (move_due_rep m pend due T R W) as (m1 & -> & R1). cbn [obind].
  rewrite (tr_last _ _ _ R1).
  rewrite (arm_pred_spec m1 (later T pend) [] (due ++ expired T pend) T us);
    [| rewrite app_nil_r; exact R1 | apply later_within, W | lia | eapply rep_length, R1].
  cbn [obind]. eexists. split; [reflexivity|]. apply arm_insert_rep; auto.
  rewrite (Permutation_app_comm due), app_assoc, later_expired. exact Hx.
Qed.

(** Arming a timer that is in no list: intervals of 2^27 microseconds or
    more abort; otherwise the timers whose deadline has passed become due, in
    the order of their deadlines, and the new timer is pending for the time
    now plus the interval, behind the timers with the same or an earlier
    deadline. *)
Theorem util_timeout_arm_ts_spec m pend due T x us type :
  timers_rep m pend due -> within T pend -> x ∉ map t_id (pend ++ due) ->
  0 <= us -> 0 <= type < 16 ->
  if us <? HORIZON then
    exists m', util_timeout_arm_ts m x us type (ts_of T) = Ok m' /\
      timers_rep m' (insert_timer (mk_timer x (T + us) type) (later T pend)) (due ++ expired T pend)
  else util_timeout_arm_ts m x us type (ts_of T) = Crash.
Proof.
  intros R W Hx Hu Ht. destruct (Z.ltb_spec us HORIZON); [apply arm_rep; auto|].
  unfold util_timeout_arm_ts. fold HORIZON. destruct (Z.leb_spec HORIZON us); [reflexivity | lia].
Qed.

(** The timers there are after arming. *)
Lemma arm_perm t T pend due :
  insert_timer t (later T pend) ++ due ++ expired T pend ≡ₚ t :: pend ++ due.
Proof.
  rewrite insert_timer_perm. cbn. constructor.
  rewrite (Permutation_app_comm due), app_assoc, later_expired. reflexivity.
Qed.

(** ** Disarming *)

Section Disarm.
Context (m : timeout_manager) (x : Z) (L1 L2 : list Z).
Hypothesis ND : NoDup (L1 ++ x :: L2).
Hypothesis Dl : dlist (nxt m) (prv m) (L1 ++ x :: L2).

(** What a successful run does to the structs. *)
Lemma disarm_structs m' : util_timeout_disarm m x = Ok m' ->
  (forall y, nxt m' y = if decide (last L1 = Some y) then head L2 else nxt m y) /\
  (forall y, prv m' y = if decide (head L2 = Some y) then last L1 else prv m y) /\
  (forall y, to_timeout_type (tget m' y) = to_timeout_type (tget m y)) /\
  (forall i, is_Some (tm_obj m !! i) -> is_Some (tm_obj m' !! i)).
Proof.
  destruct (dlist_at _ _ _ _ _ Dl) as [Ep En]. unfold nxt, prv in Ep, En.
  assert (H : forall p n, last L1 = Some p -> head L2 = Some n -> p <> n).
  { intros p n E1 E2 ->. apply last_elem in E1. apply head_elem in E2.
    apply NoDup_app in ND as (_ & Dis & _). apply (Dis n E1). right; auto. }
  unfold util_timeout_disarm. rewrite Ep, En.
  destruct (last L1) as [p|], (head L2) as [n|]; cbn [obind]; try pose proof (H p n eq_refl eq_refl);
    repeat (case_decide; cbn [obind]); intros E; try discriminate; injection E as <-;
    split_and!; intros y; try (now tget_cases);
    intros Hy; unfold tset; cbn [tm_obj upd eta_timeout_manager];
    rewrite ?lookup_insert_is_Some'; auto.
Qed.

Lemma disarm_list m' : util_timeout_disarm m x = Ok m' -> dlist (nxt m') (prv m') (L1 ++ L2).
Proof.
  intros E. destruct (disarm_structs m' E) as (N & V & _ & _).
  apply (dlist_remove (nxt m) (prv m) _ _ L1 x L2); auto.
  - intros y H. rewrite N, decide_True; auto.
  - intros y _ H. rewrite N, decide_False; auto.
  - intros y H. rewrite V, decide_True; auto.
  - intros y _ H. rewrite V, decide_False; auto.
Qed.

Lemma disarm_other m' D : util_timeout_disarm m x = Ok m' ->
  NoDup D -> (forall y, y ∈ D -> y ∉ L1 ++ L2) -> dlist (nxt m) (prv m) D -> dlist (nxt m') (prv m') D.
Proof.
  intros E NDD H. destruct (disarm_structs m' E) as (N & V & _ & _). apply dlist_ext; auto.
  intros y Hy. rewrite N, V, !decide_False; auto; intros E'; apply (H y Hy), elem_of_app;
    [right; apply head_elem | left; apply last_elem]; exact E'.
Qed.

Lemma disarm_pend_ptrs :
  tm_timeouts_first m = head (L1 ++ x :: L2) -> tm_timeouts_last m = last (L1 ++ x :: L2) ->
  exists m', util_timeout_disarm m x = Ok m' /\
    tm_timeouts_first m' = head (L1 ++ L2) /\ tm_timeouts_last m' = last (L1 ++ L2) /\
    tm_due_first m' = tm_due_first m /\ tm_due_last m' = tm_due_last m.
Proof.
  intros F La. destruct (dlist_at _ _ _ _ _ Dl) as [Ep En]. unfold nxt, prv in Ep, En.
  unfold util_timeout_disarm. rewrite Ep, En. rewrite last_app, last_cons in La.
  destruct L1 as [|a l1 _] using rev_ind; destruct L2 as [|b l2]; cbn [last head app] in *;
    rewrite ?last_snoc, ?app_nil_r in *.
  - rewrite decide_True by exact F. cbn. rewrite decide_True by exact La. eexists. split; [reflexivity|]. auto.
  - rewrite decide_True by exact F. cbn [obind]. eexists. split; [reflexivity|]. split_and!; auto.
    destruct (last (b :: l2)) eqn:E; [exact La | apply last_None in E; discriminate].
  - cbn [obind]. rewrite decide_True by exact La. eexists. split; [reflexivity|]. split_and!; auto.
    + cbn. rewrite F. destruct l1; reflexivity.
    + rewrite last_snoc. reflexivity.
  - cbn [obind]. eexists. split; [reflexivity|]. split_and!; auto.
    + cbn. rewrite F. destruct l1; reflexivity.
    + cbn. rewrite La, last_app. destruct (last (b :: l2)) eqn:E; [reflexivity | apply last_None in E; discriminate].
Qed.

Lemma disarm_due_ptrs :
  tm_timeouts_first m <> Some x -> tm_timeouts_last m <> Some x ->
  tm_due_first m = head (L1 ++ x :: L2) -> tm_due_last m = last (L1 ++ x :: L2) ->
  exists m', util_timeout_disarm m x = Ok m' /\
    tm_due_first m' = head (L1 ++ L2) /\ tm_due_last m' = last (L1 ++ L2) /\
    tm_timeouts_first m' = tm_timeouts_first m /\ tm_timeouts_last m' = tm_timeouts_last m.
Proof.
  intros N1 N2 F La. destruct (dlist_at _ _ _ _ _ Dl) as [Ep En]. unfold nxt, prv in Ep, En.
  unfold util_timeout_disarm. rewrite Ep, En. rewrite last_app, last_cons in La.
  destruct L1 as [|a l1 _] using rev_ind; destruct L2 as [|b l2]; cbn [last head app] in *;
    rewrite ?last_snoc, ?app_nil_r in *; rewrite ?(decide_False (P := tm_timeouts_first m = _)) by exact N1.
  - rewrite decide_True by exact F. cbn. rewrite decide_False by exact N2. rewrite decide_True by exact La.
    eexists. split; [reflexivity|]. auto.
  - rewrite decide_True by exact F. cbn [obind]. eexists. split; [reflexivity|]. split_and!; auto.
    destruct (last (b :: l2)) eqn:E; [exact La | apply last_None in E; discriminate].
  - cbn [obind]. rewrite decide_False by exact N2. rewrite decide_True by exact La.
    eexists. split; [reflexivity|]. split_and!; auto.
    + cbn. rewrite F. destruct l1; reflexivity.
    + rewrite last_snoc. reflexivity.
  - cbn [obind]. eexists. split; [reflexivity|]. split_and!; auto.
    + cbn. rewrite F. destruct l1; reflexivity.
    + cbn. rewrite La, last_app. destruct (last (b :: l2)) eqn:E; [reflexivity | apply last_None in E; discriminate].
Qed.
End Disarm.

Definition without (x : Z) (l : list timer) : list timer := filter (fun t => t_id t <> x) l.

Lemma without_absent x l : x ∉ map t_id l -> without x l = l.
Proof.
  unfold without. induction l as [|t l IH]; intros H; [reflexivity|]. cbn in H.
  apply not_elem_of_cons in H as [N H]. rewrite filter_cons, decide_True, IH; auto.
Qed.

Lemma without_split l1 t l2 : NoDup (map t_id (l1 ++ t :: l2)) -> without (t_id t) (l1 ++ t :: l2) = l1 ++ l2.
Proof.
  intros ND. rewrite map_app in ND. cbn in ND. apply NoDup_app in ND as (_ & Dis & ND2).
  apply NoDup_cons in ND2 as [N2 _]. unfold without. rewrite filter_app, filter_cons, decide_False by auto.
  fold (without (t_id t) l1) (without (t_id t) l2). rewrite !without_absent; auto.
  intros H. apply (Dis _ H). left.
Qed.

Lemma sorted_delete {A} (R : A -> A -> Prop) l1 t l2 :
  StronglySorted R (l1 ++ t :: l2) -> StronglySorted R (l1 ++ l2).
Proof.
  intros So. apply StronglySorted_app in So as (So & So1 & So2). apply StronglySorted_inv in So2 as [So2 _].
  apply StronglySorted_app. split_and!; auto. intros a b Ha Hb. apply So; auto. right; auto.
Qed.

Lemma disarm_forall m m' L1 x L2 (l l' : list timer) :
  NoDup (L1 ++ x :: L2) -> dlist (nxt m) (prv m) (L1 ++ x :: L2) -> util_timeout_disarm m x = Ok m' ->
  (forall t, t ∈ l' -> t ∈ l) -> Forall (encodes m) l -> Forall (fun t => 0 <= t_type t < 16) l ->
  (forall i, i ∈ map t_id l -> is_Some (tm_obj m !! i)) ->
  Forall (encodes m') l' /\ Forall (fun t => 0 <= t_type t < 16) l' /\
  (forall i, i ∈ map t_id l' -> is_Some (tm_obj m' !! i)).
Proof.
  intros ND Dl E Sub En Ty Al. destruct (disarm_structs m x L1 L2 ND Dl m' E) as (_ & _ & T & A).
  rewrite !Forall_forall in *. split_and!; auto.
  - intros t Ht. unfold encodes. rewrite T. apply En, Sub, Ht.
  - intros i Hi. apply A, Al. apply list_elem_of_fmap in Hi as (t & -> & Ht). apply list_elem_of_fmap_2. auto.
Qed.

Lemma disarm_pend_rep m l1 t l2 due :
  timers_rep m (l1 ++ t :: l2) due ->
  exists m', util_timeout_disarm m (t_id t) = Ok m' /\ timers_rep m' (l1 ++ l2) due.
Proof.
  intros [Dp Dd F La DF DL ND Al En Ty So]. rewrite map_app in *; cbn [map] in *.
  pose proof ND as ND'. apply NoDup_app in ND' as (NDP & Dis & NDD).
  destruct (disarm_pend_ptrs m (t_id t) _ _ NDP Dp F La) as (m' & E & P1 & P2 & P3 & P4).
  exists m'. split; [exact E|].
  assert (Sub : forall u, u ∈ (l1 ++ l2) ++ due -> u ∈ (l1 ++ t :: l2) ++ due)
    by (intros u; rewrite !elem_of_app, elem_of_cons; tauto).
  rewrite <- map_cons, <- !map_app in Al.
  destruct (disarm_forall _ _ _ _ _ _ _ NDP Dp E Sub En Ty Al) as (En' & Ty' & Al').
  split; rewrite ?P3, ?P4, ?map_app in *; auto.
  - eapply disarm_list; eauto.
  - eapply disarm_other; eauto. intros y Hy Hy'. apply (Dis y); auto.
    rewrite elem_of_app in *. rewrite elem_of_cons. tauto.
  - rewrite <- Permutation_middle in ND. apply NoDup_cons in ND as [_ ND]. exact ND.
  - eapply sorted_delete, So.
Qed.

Lemma disarm_due_rep m pend l1 t l2 :
  timers_rep m pend (l1 ++ t :: l2) ->
  exists m', util_timeout_disarm m (t_id t) = Ok m' /\ timers_rep m' pend (l1 ++ l2).
Proof.
  intros [Dp Dd F La DF DL ND Al En Ty So]. rewrite map_app in *; cbn [map] in *.
  pose proof ND as ND'. apply NoDup_app in ND' as (NDP & Dis & NDD).
  assert (Hx : t_id t ∉ map t_id pend) by (intros H; apply (Dis _ H), elem_of_app; right; left).
  destruct (disarm_due_ptrs m (t_id t) _ _ NDD Dd) as (m' & E & P1 & P2 & P3 & P4); auto.
  { rewrite F. intros H. apply head_elem in H. auto. }
  { rewrite La. intros H. apply last_elem in H. auto. }
  exists m'. split; [exact E|].
  assert (Sub : forall u, u ∈ pend ++ (l1 ++ l2) -> u ∈ pend ++ (l1 ++ t :: l2))
    by (intros u; rewrite !elem_of_app, elem_of_cons; tauto).
  rewrite <- map_cons, <- !map_app in Al.
  destruct (disarm_forall _ _ _ _ _ _ _ NDD Dd E Sub En Ty Al) as (En' & Ty' & Al').
  split; rewrite ?P3, ?P4, ?map_app in *; auto.
  - eapply disarm_other; eauto. intros y Hy Hy'. apply (Dis y); auto.
    rewrite elem_of_app in *. rewrite elem_of_cons. tauto.
  - eapply disarm_list; eauto.
  - rewrite app_assoc, <- Permutation_middle in ND. apply NoDup_cons in ND as [_ ND]. rewrite app_assoc. exact ND.
Qed.

Lemma disarm_rep m pend due x :
  timers_rep m pend due -> x ∈ map t_id (pend ++ due) ->
  exists m', util_timeout_disarm m x = Ok m' /\ timers_rep m' (without x pend) (without x due).
Proof.
  intros R Hx. pose proof (tr_nodup _ _ _ R) as ND. apply NoDup_app in ND as (NDP & Dis & NDD).
  rewrite map_app in Hx. apply elem_of_app in Hx as [Hx|Hx];
    pose proof Hx as Hx'; apply list_elem_of_fmap in Hx as (t & -> & Ht);
    apply list_elem_of_split in Ht as (l1 & l2 & ->).
  - rewrite (without_split _ _ _ NDP), (without_absent _ due) by auto. apply disarm_pend_rep, R.
  - rewrite (without_split _ _ _ NDD), (without_absent _ pend) by (intros H; eapply Dis; eauto).
    apply disarm_due_rep, R.
Qed.

(** Disarming a timer that is pending or due takes it out of its list and
    leaves every other timer in its place; it never aborts. *)
Theorem util_timeout_disarm_spec m pend due x :
  timers_rep m pend due -> x ∈ map t_id (pend ++ due) ->
  exists m', util_timeout_disarm m x = Ok m' /\ timers_rep m' (without x pend) (without x due).
Proof. exact (disarm_rep m pend due x). Qed.

Lemma without_app x l k : without x (l ++ k) = without x l ++ without x k.
Proof. apply filter_app. Qed.

Lemma without_notin x l : x ∉ map t_id (without x l).
Proof. intros H. apply list_elem_of_fmap in H as (t & -> & Ht). apply list_elem_of_filter in Ht as [N _]. auto. Qed.

(** ** Polling *)

Section DuePop.
Context (m : timeout_manager) (pend due : list timer) (t : timer).
Hypothesis R : timers_rep m pend (t :: due).

Lemma due_pop_structs :
  (forall y, nxt (due_pop m (t_id t)) y = nxt m y) /\
  (forall y, prv (due_pop m (t_id t)) y = if decide (head (map t_id due) = Some y) then None else prv m y) /\
  (forall y, to_timeout_type (tget (due_pop m (t_id t)) y) = to_timeout_type (tget m y)) /\
  (forall i, is_Some (tm_obj m !! i) -> is_Some (tm_obj (due_pop m (t_id t)) !! i)).
Proof.
  destruct (dlist_at (nxt m) (prv m) [] (t_id t) (map t_id due) (tr_due _ _ _ R)) as [_ E]. unfold nxt in E.
  unfold due_pop. cbn [tm_due_first upd eta_timeout_manager]. rewrite E.
  destruct (head (map t_id due)) as [n|]; split_and!; intros y; try (now tget_cases); auto.
  intros Hy. unfold tset. cbn [tm_obj upd eta_timeout_manager]. rewrite ?lookup_insert_is_Some'; auto.
Qed.

Lemma due_pop_rep : timers_rep (due_pop m (t_id t)) pend due.
Proof.
  destruct due_pop_structs as (N & V & Te & A). destruct R as [Dp Dd F La DF DL ND Al En Ty So].
  pose proof ND as ND'. apply NoDup_app in ND' as (NDP & Dis & NDD). cbn [map] in *.
  destruct (dlist_at (nxt m) (prv m) [] (t_id t) (map t_id due) Dd) as [_ Ex]. unfold nxt in Ex.
  assert (Sub : forall u, u ∈ pend ++ due -> u ∈ pend ++ t :: due)
    by (intros u; rewrite !elem_of_app, elem_of_cons; tauto).
  pose proof NDD as NDD'. apply NoDup_cons in NDD as [Nt NDD]. split.
  - eapply dlist_ext; [exact NDP | | exact Dp]. intros y Hy. rewrite N, V, decide_False; auto.
    intros E. apply head_elem in E. apply (Dis y Hy). right; auto.
  - apply (dlist_remove (nxt m) (prv m) _ _ [] (t_id t)); auto.
    + discriminate.
    + intros y E. rewrite V, decide_True; auto.
    + intros y _ E. rewrite V, decide_False; auto.
  - unfold due_pop. cbn [tm_due_first upd eta_timeout_manager]. rewrite Ex.
    destruct (head (map t_id due)); exact F.
  - unfold due_pop. cbn [tm_due_first upd eta_timeout_manager]. rewrite Ex.
    destruct (head (map t_id due)); exact La.
  - unfold due_pop. cbn [tm_due_first upd eta_timeout_manager]. rewrite Ex.
    destruct (head (map t_id due)); reflexivity.
  - unfold due_pop. cbn [tm_due_first upd eta_timeout_manager]. rewrite Ex. rewrite last_cons in DL.
    destruct (map t_id due) as [|z l]; [reflexivity|].
    destruct (last (z :: l)) eqn:E; [exact DL | apply last_None in E; discriminate].
  - apply NoDup_app. split_and!; auto. intros y Hy Hy'. apply (Dis y Hy). right; auto.
  - intros i Hi. apply A, Al. rewrite elem_of_app, elem_of_cons in *. tauto.
  - rewrite Forall_forall in *. intros u Hu. unfold encodes. rewrite Te. apply En, Sub, Hu.
  - rewrite Forall_forall in *. auto.
  - exact So.
Qed.

Lemma due_pop_type : Z.shiftr (to_timeout_type (tget (due_pop m (t_id t)) (t_id t))) TIMEOUT_BITS = t_type t.
Proof.
  destruct due_pop_structs as (_ & _ & Te & _). rewrite Te.
  apply (encodes_fields m t); [pose proof (tr_type _ _ _ R) as H | pose proof (tr_enc _ _ _ R) as H];
    rewrite Forall_forall in H; apply H, elem_of_app; right; left.
Qed.
End DuePop.

Section Handler.
Context {S : Type} (handler : timeout_manager -> S -> Z -> Z -> outcome (timeout_manager * S)).

(** The handler as the poll loop calls it keeps [I]. *)
Definition handler_keeps (I : S -> list timer -> list timer -> Prop) : Prop :=
  forall m s pend due t, timers_rep m pend due -> I s pend (t :: due) -> t_id t ∉ map t_id (pend ++ due) ->
    0 <= t_type t < 16 ->
    exists m' s' pend' due', handler m s (t_id t) (t_type t) = Ok (m', s') /\
      timers_rep m' pend' due' /\ I s' pend' due'.

(** Handlers may arm and disarm timers: what they keep, polling keeps. *)
Lemma poll_due_keeps I k m s pend due :
  handler_keeps I -> timers_rep m pend due -> I s pend due ->
  exists m' s' pend' due', poll_due handler k m s = Ok (m', s') /\ timers_rep m' pend' due' /\ I s' pend' due'.
Proof.
  intros HK. revert m s pend due. induction k as [|k IH]; intros m s pend due R HI; [cbn; eauto 8|].
  cbn [poll_due]. rewrite (tr_due_first _ _ _ R). destruct due as [|t due]; cbn [map head]; [eauto 8|].
  rewrite (due_pop_type _ _ _ _ R).
  destruct (HK _ s pend due t (due_pop_rep _ _ _ _ R) HI) as (m' & s' & p' & d' & E & R' & HI').
  - pose proof (tr_nodup _ _ _ R) as ND. cbn [map] in ND. rewrite map_app.
    rewrite <- Permutation_middle in ND. apply NoDup_cons in ND as [ND _]. exact ND.
  - pose proof (tr_type _ _ _ R) as H. rewrite Forall_forall in H. apply H, elem_of_app. right; left.
  - rewrite E. cbn [obind]. apply (IH _ _ _ _ R' HI').
Qed.

(** A handler that leaves the timers alone. *)
Context (f : S -> Z -> Z -> S).
Definition quiet_handler : Prop := forall m s i ty, handler m s i ty = Ok (m, f s i ty).
Definition handled (l : list timer) (s : S) : S := fold_left (fun s t => f s (t_id t) (t_type t)) l s.

Lemma poll_due_quiet k m s pend due :
  quiet_handler -> timers_rep m pend due ->
  exists m', poll_due handler k m s = Ok (m', handled (take k due) s) /\ timers_rep m' pend (drop k due).
Proof.
  intros Q. revert m s due. induction k as [|k IH]; intros m s due R; [exists m; auto|].
  cbn [poll_due]. rewrite (tr_due_first _ _ _ R). destruct due as [|t due]; cbn [map head]; [exists m; auto|].
  rewrite (due_pop_type _ _ _ _ R), Q. cbn [obind].
  destruct (IH _ (f s (t_id t) (t_type t)) due (due_pop_rep _ _ _ _ R)) as (m' & E & R').
  exists m'. split; [exact E | exact R'].
Qed.

Lemma poll_quiet m s pend due T :
  quiet_handler -> timers_rep m pend due -> within T pend ->
  let due' := due ++ expired T pend in
  exists m', util_timeout_poll_ts handler m s (ts_of T) = Ok (m', handled (take MAX_TIMEOUTS due') s) /\
    timers_rep m' (later T pend) (drop MAX_TIMEOUTS due').
Proof.
  intros Q R W due'. unfold util_timeout_poll_ts.
  destruct (move_due_rep m pend due T R W) as (m1 & -> & R1). cbn [obind].
  apply poll_due_quiet; auto.
Qed.

End Handler.

(** ** Properties of the service *)

Lemma timers_rep_init obj : timers_rep (util_timeout_init obj) [] [].
Proof. split; cbn; auto using NoDup_nil_2; try constructor. intros i Hi. inversion Hi. Qed.

(** A poll makes the timers due whose deadline has passed, and no others,
    and calls the handler for the first 64 due timers in order, with the type
    they were armed with; the rest stays due for the next poll. *)
Theorem util_timeout_poll_ts_spec {S} (handler : timeout_manager -> S -> Z -> Z -> outcome (timeout_manager * S))
    f m s pend due T :
  quiet_handler handler f -> timers_rep m pend due -> within T pend ->
  let due' := due ++ expired T pend in
  exists m', util_timeout_poll_ts handler m s (ts_of T) =
      Ok (m', fold_left (fun s t => f s (t_id t) (t_type t)) (take 64 due') s) /\
    timers_rep m' (later T pend) (drop 64 due').
Proof. intros Q R W. exact (poll_quiet handler f m s pend due T Q R W). Qed.

(** The time [util_timeout_next] returns is 0 when a timer is due, all
    ones when there is no timer, and otherwise the time until the earliest
    deadline: whoever sleeps that long misses no timer. *)
Theorem util_timeout_next_spec m pend due T :
  timers_rep m pend due -> within T pend ->
  let n := util_timeout_next m (ts_of T) in
  match due, pend with
  | _ :: _, _ => n = 0
  | [], [] => n = UINT32_MAX
  | [], t :: _ => n = Z.max 0 (t_deadline t - T) /\ (forall u, u ∈ pend -> t_deadline t <= t_deadline u)
  end.
Proof.
  intros R W n. subst n. unfold util_timeout_next. rewrite (tr_due_first _ _ _ R), (tr_first _ _ _ R).
  destruct due as [|d due]; [|reflexivity]. destruct pend as [|t pend]; [reflexivity|]. cbn [map head].
  apply Forall_cons in W as [W0 _]. pose proof (tr_enc _ _ _ R) as En. pose proof (tr_type _ _ _ R) as Ty.
  apply Forall_cons in En as [En _]. apply Forall_cons in Ty as [Ty _].
  destruct (timeout_due_exact m t T Ty En W0) as [E _]. rewrite E. split; [bsplit; lia|].
  pose proof (tr_sorted _ _ _ R) as So. apply StronglySorted_inv in So as [_ So]. rewrite Forall_forall in So.
  intros u Hu. apply elem_of_cons in Hu as [->|Hu]; [lia | exact (So u Hu)].
Qed.

(** ** Every timer fires *)

Definition ids (l : list timer) : list (Z * Z) := map (fun t => (t_id t, t_type t)) l.

(** The manager determines its timers but for the multiples of 2^28 in their deadlines. *)
Lemma dseg_det nxt prv l : forall p l' q, @dseg Z nxt prv p l None -> dseg nxt prv q l' None -> head l = head l' -> l = l'.
Proof.
  induction l as [|x l IH]; intros p [|y l'] q D D' H; cbn in *; try congruence. injection H as <-.
  destruct D as (_ & N & D), D' as (_ & N' & D'). f_equal. eapply IH; eauto. rewrite N in N'.
  destruct l, l'; cbn in *; congruence.
Qed.
Lemma encodes_ids m l l' : map t_id l = map t_id l' -> Forall (encodes m) l -> Forall (encodes m) l' ->
  Forall (fun t => 0 <= t_type t < 16) l -> Forall (fun t => 0 <= t_type t < 16) l' -> ids l = ids l'.
Proof.
  revert l'. induction l as [|t l IH]; intros [|t' l'] H E E' Ty Ty'; try discriminate; [reflexivity|].
  injection H as Hi H. apply Forall_cons in E as [E1 E], E' as [E1' E'], Ty as [T1 Ty], Ty' as [T1' Ty'].
  unfold ids in *. cbn [map]. f_equal; [|eapply IH; eauto]. f_equal; [exact Hi|].
  destruct (encodes_fields m t T1 E1) as [_ <-], (encodes_fields m t' T1' E1') as [_ <-]. now rewrite Hi.
Qed.
Lemma rep_ids m p d p' d' : timers_rep m p d -> timers_rep m p' d' -> ids (p ++ d) = ids (p' ++ d').
Proof.
  intros R R'. apply (encodes_ids m); try (apply R || apply R').
  rewrite !map_app. f_equal; (eapply dseg_det; [apply R | apply R' |]).
  - now rewrite <- (tr_first _ _ _ R), <- (tr_first _ _ _ R').
  - now rewrite <- (tr_due_first _ _ _ R), <- (tr_due_first _ _ _ R').
Qed.

(** The calls of a handler on record. *)
Definition recorded {S} (handler : timeout_manager -> S -> Z -> Z -> outcome (timeout_manager * S))
    (m : timeout_manager) (sl : S * list (Z * Z)) (i ty : Z) : outcome (timeout_manager * (S * list (Z * Z))) :=
  let! (m, s) := handler m sl.1 i ty in Ok (m, (s, sl.2 ++ [(i, ty)])).

(** Polling at each of the times [Ts]; [handler T] is the handler at time [T]. *)
Fixpoint polls {S} (handler : Z -> timeout_manager -> S -> Z -> Z -> outcome (timeout_manager * S))
    (Ts : list Z) (m : timeout_manager) (s : S) : outcome (timeout_manager * S) :=
  match Ts with
  | [] => Ok (m, s)
  | T :: Ts => let! (m, s) := util_timeout_poll_ts (handler T) m s (ts_of T) in polls handler Ts m s
  end.
(** Each time less than 2^27 microseconds after the one before. *)
Fixpoint soon (T : Z) (Ts : list Z) : Prop :=
  match Ts with [] => True | T' :: Ts => T <= T' < T + HORIZON /\ soon T' Ts end.

Section Fair.
Context {S : Type} (I : S -> list timer -> list timer -> Prop).

(** The pending timers while the poll at [T] runs. *)
Definition ahead (T : Z) (pend : list timer) : Prop := Forall (fun t => T <= t_deadline t < T + HORIZON) pend.

(** What a handler that runs at [T] may do to the timers: any arming, also of the
    timer it is called for, with an interval below 2^27 microseconds, any disarming of
    pending timers, as long as those that are due already stay due in their order.  It
    does not abort, and it keeps [I], which is about its own state and the two lists. *)
Definition fair_handler (T : Z) (handler : timeout_manager -> S -> Z -> Z -> outcome (timeout_manager * S)) : Prop :=
  forall m s pend due t, timers_rep m pend due -> I s pend (t :: due) -> ahead T pend ->
    t_id t ∉ map t_id (pend ++ due) -> 0 <= t_type t < 16 ->
    exists m' s' pend' more, handler m s (t_id t) (t_type t) = Ok (m', s') /\
      timers_rep m' pend' (due ++ more) /\ I s' pend' (due ++ more) /\ ahead T pend'.

(** [I] does not depend on when the manager notices that a timer is due. *)
Definition moves_keep : Prop := forall s pend due T, I s pend due -> I s (later T pend) (due ++ expired T pend).

Context (handler : Z -> timeout_manager -> S -> Z -> Z -> outcome (timeout_manager * S)) (T : Z).
Hypothesis F : fair_handler T (handler T).

Lemma fair_call m s pend t due : timers_rep m pend (t :: due) -> I s pend (t :: due) -> ahead T pend ->
  exists m' s' pend' more, handler T (due_pop m (t_id t)) s (t_id t) (t_type t) = Ok (m', s') /\
    timers_rep m' pend' (due ++ more) /\ I s' pend' (due ++ more) /\ ahead T pend'.
Proof.
  intros R HI A. refine (F _ s pend due t (due_pop_rep _ _ _ _ R) HI A _ _).
  - pose proof (tr_nodup _ _ _ R) as ND. cbn [map] in ND. rewrite map_app.
    rewrite <- Permutation_middle in ND. apply NoDup_cons in ND as [ND _]. exact ND.
  - pose proof (tr_type _ _ _ R) as H. rewrite Forall_forall in H. apply H, elem_of_app. right; left.
Qed.

(** A poll calls the handler and keeps what is on record. *)
Lemma poll_due_fair k : forall m s log pend due, timers_rep m pend due -> I s pend due -> ahead T pend ->
  exists m' s' log' pend' due', poll_due (recorded (handler T)) k m (s, log) = Ok (m', (s', log')) /\
    timers_rep m' pend' due' /\ I s' pend' due' /\ ahead T pend' /\ log ⊆ log'.
Proof.
  induction k as [|k IH]; intros m s log pend due R HI A; [cbn; eauto 12|].
  cbn [poll_due]. rewrite (tr_due_first _ _ _ R). destruct due as [|t due]; cbn [map head]; [eauto 12|].
  rewrite (due_pop_type _ _ _ _ R). destruct (fair_call _ _ _ _ _ R HI A) as (m1 & s1 & p1 & more & E & R1 & HI1 & A1).
  unfold recorded at 1. cbn [fst snd]. rewrite E. cbn [obind].
  destruct (IH m1 s1 (log ++ [(t_id t, t_type t)]) _ _ R1 HI1 A1) as (m' & s' & log' & p' & d' & E' & R' & HI' & A' & L).
  exists m', s', log', p', d'. split_and!; auto. intros x Hx. apply L, elem_of_app. auto.
Qed.

(** The timer behind [d1] is called, or gets [k] places ahead. *)
Lemma poll_due_reaches k : forall m s log pend d1 t d2, timers_rep m pend (d1 ++ t :: d2) -> I s pend (d1 ++ t :: d2) ->
  ahead T pend ->
  exists m' s' log' pend' due', poll_due (recorded (handler T)) k m (s, log) = Ok (m', (s', log')) /\
    timers_rep m' pend' due' /\ I s' pend' due' /\ ahead T pend' /\
    ((t_id t, t_type t) ∈ log' \/ (k <= length d1)%nat /\ exists more, due' = drop k d1 ++ t :: more).
Proof.
  induction k as [|k IH]; intros m s log pend d1 t d2 R HI A.
  { exists m, s, log, pend, (d1 ++ t :: d2). split_and!; auto. right. split; [lia|]. rewrite drop_0. eauto. }
  cbn [poll_due]. rewrite (tr_due_first _ _ _ R). destruct d1 as [|u d1]; cbn [app map head] in *;
    rewrite (due_pop_type _ _ _ _ R); destruct (fair_call _ _ _ _ _ R HI A) as (m1 & s1 & p1 & more & E & R1 & HI1 & A1);
    unfold recorded at 1; cbn [fst snd]; rewrite E; cbn [obind].
  - destruct (poll_due_fair k m1 s1 (log ++ [(t_id t, t_type t)]) _ _ R1 HI1 A1) as (m' & s' & log' & p' & d' & E' & R' & HI' & A' & L).
    exists m', s', log', p', d'. split_and!; auto. left. apply L, elem_of_app. right. left.
  - rewrite <- app_assoc in R1, HI1. cbn [app] in R1, HI1.
    destruct (IH m1 s1 (log ++ [(t_id u, t_type u)]) p1 d1 t (d2 ++ more) R1 HI1 A1) as (m' & s' & log' & p' & d' & E' & R' & HI' & A' & C).
    exists m', s', log', p', d'. split_and!; auto. destruct C as [C|[C D]]; [auto|right]. cbn [length drop]. split; [lia|exact D].
Qed.
End Fair.

Section Polls.
Context {S : Type} (I : S -> list timer -> list timer -> Prop) (M : moves_keep I).
Context (handler : Z -> timeout_manager -> S -> Z -> Z -> outcome (timeout_manager * S)).

Lemma ahead_within T T' pend : ahead T pend -> T <= T' < T + HORIZON -> within T' pend.
Proof. intros A HT. eapply Forall_impl; [exact A|]. cbn. unfold HORIZON in *. lia. Qed.
Lemma ahead_later T pend : within T pend -> ahead T (later T pend).
Proof. intros W. eapply Forall_impl; [exact (later_within T pend W)|]. cbn. lia. Qed.

Lemma polls_fair Ts : forall T m s log pend due, Forall (fun T => fair_handler I T (handler T)) Ts -> soon T Ts ->
  timers_rep m pend due -> I s pend due -> ahead T pend ->
  exists m' s' log', polls (fun T => recorded (handler T)) Ts m (s, log) = Ok (m', (s', log')) /\ log ⊆ log'.
Proof.
  induction Ts as [|T1 Ts IH]; intros T m s log pend due F G R HI A; [cbn; eauto|].
  apply Forall_cons in F as [F1 F]. destruct G as [G1 G]. pose proof (ahead_within T T1 pend A G1) as W.
  cbn [polls]. unfold util_timeout_poll_ts. destruct (move_due_rep m pend due T1 R W) as (m1 & -> & R1). cbn [obind].
  destruct (poll_due_fair I handler T1 F1 MAX_TIMEOUTS m1 s log _ _ R1 (M _ _ _ T1 HI) (ahead_later T1 pend W))
    as (m2 & s2 & log2 & p2 & d2 & E2 & R2 & HI2 & A2 & L2). rewrite E2. cbn [obind].
  destruct (IH T1 m2 s2 log2 p2 d2 F G R2 HI2 A2) as (m' & s' & log' & E & L). exists m', s', log'. split; [exact E|].
  intros x Hx. apply L, L2, Hx.
Qed.

Lemma polls_reach Ts : forall T m s log pend d1 t d2, Forall (fun T => fair_handler I T (handler T)) Ts -> soon T Ts ->
  timers_rep m pend (d1 ++ t :: d2) -> I s pend (d1 ++ t :: d2) -> ahead T pend -> (length d1 < 64 * length Ts)%nat ->
  exists m' s' log', polls (fun T => recorded (handler T)) Ts m (s, log) = Ok (m', (s', log')) /\ (t_id t, t_type t) ∈ log'.
Proof.
  induction Ts as [|T1 Ts IH]; intros T m s log pend d1 t d2 F G R HI A L; [cbn in L; lia|].
  apply Forall_cons in F as [F1 F]. destruct G as [G1 G]. pose proof (ahead_within T T1 pend A G1) as W.
  cbn [polls]. unfold util_timeout_poll_ts. destruct (move_due_rep m pend _ T1 R W) as (m1 & -> & R1). cbn [obind].
  pose proof (M _ _ _ T1 HI) as HI1. rewrite <- app_assoc in R1, HI1. cbn [app] in R1, HI1.
  destruct (poll_due_reaches I handler T1 F1 MAX_TIMEOUTS m1 s log _ d1 t _ R1 HI1 (ahead_later T1 pend W))
    as (m2 & s2 & log2 & p2 & due2 & E2 & R2 & HI2 & A2 & C). rewrite E2. cbn [obind].
  destruct C as [C|[C (more & ->)]].
  - destruct (polls_fair Ts T1 m2 s2 log2 p2 due2 F G R2 HI2 A2) as (m' & s' & log' & E & L'). exists m', s', log'. auto.
  - apply (IH T1 m2 s2 log2 p2 (drop MAX_TIMEOUTS d1) t more F G R2 HI2 A2).
    rewrite length_drop. unfold MAX_TIMEOUTS in *. cbn [length] in L. lia.
Qed.
End Polls.

(** C37.  Every armed timer fires: once its interval has passed, polling often
    enough (64 timers per poll, so once for every 64 timers in existence, each poll less
    than 2^27 microseconds after the one before) calls the handler with it and its type.
    The handlers may arm timers, also the one they are called for, and disarm pending
    ones; what is asked of them, under an invariant of their own, is that they do not abort,
    leave the due timers in their order and arm for less than 2^27 microseconds
    ([fair_handler]).  The kernel's handler is one ([timeout_handler_fair]). *)
Theorem armed_timer_fires {S} (handler : Z -> timeout_manager -> S -> Z -> Z -> outcome (timeout_manager * S))
    I m pend due T0 x us type :
  moves_keep I -> timers_rep m pend due -> within T0 pend -> x ∉ map t_id (pend ++ due) ->
  0 <= us < HORIZON -> 0 <= type < 16 ->
  exists m', util_timeout_arm_ts m x us type (ts_of T0) = Ok m' /\
    let pend' := insert_timer (mk_timer x (T0 + us) type) (later T0 pend) in
    let due' := due ++ expired T0 pend in
    forall T Ts s, T0 + us <= T -> within T pend' -> soon T Ts -> I s pend' due' ->
      Forall (fun T => fair_handler I T (handler T)) (T :: Ts) ->
      (length pend + length due < 64 * length (T :: Ts))%nat ->
      exists m'' s' calls, polls (fun T => recorded (handler T)) (T :: Ts) m' (s, []) = Ok (m'', (s', calls)) /\
        (x, type) ∈ calls.
Proof.
  intros M R W Hx Hu Ht. destruct (arm_rep m pend due T0 x us type R W Hx Hu Ht) as (m' & E & R').
  exists m'. split; [exact E|]. cbv zeta. intros T Ts s HT W' G HI F HL. set (t := mk_timer x (T0 + us) type) in *.
  set (p' := insert_timer t (later T0 pend)) in *. set (d' := due ++ expired T0 pend) in *.
  assert (HP : (length (later T0 pend) + length (expired T0 pend))%nat = length pend)
    by (rewrite <- length_app, later_expired; reflexivity).
  assert (HP' : p' ≡ₚ t :: later T0 pend) by apply insert_timer_perm.
  assert (Ex : t ∈ expired T p') by (apply list_elem_of_filter; split; [exact HT|]; rewrite HP'; left).
  apply list_elem_of_split in Ex as (e1 & e2 & Ee).
  assert (Le : (length e1 <= length (later T0 pend))%nat).
  { pose proof (length_filter (fun t => t_deadline t <= T) p') as L. fold (expired T p') in L.
    rewrite Ee, HP', length_app in L. cbn [length] in L. lia. }
  apply Forall_cons in F as [F1 F]. cbn [polls]. unfold util_timeout_poll_ts.
  destruct (move_due_rep m' p' d' T R' W') as (m1 & -> & R1). cbn [obind]. pose proof (M _ _ _ T HI) as HI1.
  rewrite Ee, app_assoc in R1, HI1.
  destruct (poll_due_reaches I handler T F1 MAX_TIMEOUTS m1 s [] _ (d' ++ e1) t e2 R1 HI1 (ahead_later T p' W'))
    as (m2 & s2 & log2 & p2 & due2 & E2 & R2 & HI2 & A2 & C). rewrite E2. cbn [obind].
  destruct C as [C|[C (more & ->)]].
  - destruct (polls_fair I M handler Ts T m2 s2 log2 p2 due2 F G R2 HI2 A2) as (m3 & s3 & log3 & E3 & L3). eauto 8.
  - destruct (polls_reach I M handler Ts T m2 s2 log2 p2 _ t more F G R2 HI2 A2) as (m3 & s3 & log3 & E3 & L3); [|eauto 8].
    unfold d', MAX_TIMEOUTS in *. rewrite !length_app in C. rewrite length_drop, !length_app. cbn [length] in HL. lia.
Qed.
