(* ===== verification/Packet.v ===== *)
(** Packet layouts and header macros: include/packet_defs.h and the
    big-endian integer types of include/utils.h.

    A C struct that overlays a packet buffer is a record whose big-endian
    fields hold the value as it is stored ([beui16]/[beui32]: the member [x] of
    the C struct); the bytes that follow [struct pkt_tcp] in the buffer are
    [p_data]. *)
From stdpp Require Import base numbers list.
From Stdlib Require Import ZArith Lia.
From S2P Require Import Prelude.

(** ** Big-endian integers (include/utils.h) *)

Definition bswap16 (x : Z) : Z := (x mod 256) * 256 + (x / 256) mod 256.
Definition bswap32 (x : Z) : Z :=
  (x mod 256) * 16777216 + ((x / 256) mod 256) * 65536 +
  ((x / 65536) mod 256) * 256 + (x / 16777216) mod 256.

Record beui16 := mk_beui16 { be16_x : Z }.
Record beui32 := mk_beui32 { be32_x : Z }.
Definition f_beui16 (x : beui16) : Z := bswap16 (be16_x x).
Definition f_beui32 (x : beui32) : Z := bswap32 (be32_x x).
Definition t_beui16 (x : Z) : beui16 := mk_beui16 (bswap16 (u16 x)).
Definition t_beui32 (x : Z) : beui32 := mk_beui32 (bswap32 (u32 x)).
(** ntohs/htons on a little-endian host. *)
Definition ntohs (x : Z) : Z := bswap16 x.
Definition htons (x : Z) : Z := bswap16 (u16 x).

(** ** Structures *)

Record eth_hdr := mk_eth_hdr
  { eth_dest : list Z; eth_src : list Z; eth_type : beui16 }.

Record ip_hdr := mk_ip_hdr
  { ip_v_hl : Z; ip_tos : Z; ip_len : beui16; ip_id : beui16;
    ip_offset : beui16; ip_ttl : Z; ip_proto : Z; ip_chksum : Z;
    ip_src : beui32; ip_dest : beui32 }.

Record tcp_hdr := mk_tcp_hdr
  { tcp_src : beui16; tcp_dest : beui16; tcp_seqno : beui32;
    tcp_ackno : beui32; tcp_hdrlen_rsvd_flags : Z; tcp_wnd : beui16;
    tcp_chksum : Z; tcp_urgp : beui16 }.

Record pkt_tcp := mk_pkt_tcp
  { p_eth : eth_hdr; p_ip : ip_hdr; p_tcp : tcp_hdr; p_data : list Z }.

#[export] Instance eta_ip_hdr : Eta ip_hdr := fun h =>
  mk_ip_hdr (ip_v_hl h) (ip_tos h) (ip_len h) (ip_id h) (ip_offset h)
    (ip_ttl h) (ip_proto h) (ip_chksum h) (ip_src h) (ip_dest h).
#[export] Instance eta_tcp_hdr : Eta tcp_hdr := fun h =>
  mk_tcp_hdr (tcp_src h) (tcp_dest h) (tcp_seqno h) (tcp_ackno h)
    (tcp_hdrlen_rsvd_flags h) (tcp_wnd h) (tcp_chksum h) (tcp_urgp h).
#[export] Instance eta_pkt_tcp : Eta pkt_tcp := fun p =>
  mk_pkt_tcp (p_eth p) (p_ip p) (p_tcp p) (p_data p).

(** sizeof of the packed structs. *)
Definition SZ_ETH : Z := 14.
Definition SZ_IP : Z := 20.
Definition SZ_TCP : Z := 20.
Definition SZ_PKT_TCP : Z := 54.
Definition SZ_TS_OPT : Z := 10.
Definition SZ_MSS_OPT : Z := 4.
Definition SZ_OBJ_HDR : Z := 8.

(** ** Constants and accessors *)

Definition ETH_TYPE_IP : Z := 2048.
Definition IP_PROTO_TCP : Z := 6.
Definition IP_ECN_NONE : Z := 0.
Definition IP_ECN_ECT0 : Z := 2.
Definition IP_ECN_CE : Z := 3.

Definition IPH_V (h : ip_hdr) : Z := Z.shiftr (ip_v_hl h) 4.
Definition IPH_HL (h : ip_hdr) : Z := Z.land (ip_v_hl h) 15.
Definition IPH_ECN (h : ip_hdr) : Z := Z.land (ip_tos h) 3.
Definition IPH_VHL (v hl : Z) : Z := Z.lor (Z.shiftl v 4) hl.
(** [IPH_ECN_SET]: the mask 0xffc is applied before the store truncates to a
    byte. *)
Definition IPH_ECN_SET (h : ip_hdr) (e : Z) : ip_hdr :=
  h <| ip_tos := u8 (Z.lor (Z.land (ip_tos h) 4092) e) |>.

Definition TCP_FIN : Z := 1.
Definition TCP_SYN : Z := 2.
Definition TCP_RST : Z := 4.
Definition TCP_PSH : Z := 8.
Definition TCP_ACK : Z := 16.
Definition TCP_URG : Z := 32.
Definition TCP_ECE : Z := 64.
Definition TCP_CWR : Z := 128.
Definition TCP_FLAGS : Z := 511.

Definition TCPH_HDRLEN (h : tcp_hdr) : Z :=
  Z.shiftr (ntohs (tcp_hdrlen_rsvd_flags h)) 12.
Definition TCPH_FLAGS (h : tcp_hdr) : Z :=
  Z.land (ntohs (tcp_hdrlen_rsvd_flags h)) TCP_FLAGS.
Definition TCPH_HDRLEN_FLAGS (len flags : Z) : Z :=
  htons (Z.lor (Z.shiftl len 12) flags).

Definition TCP_OPT_END_OF_OPTIONS : Z := 0.
Definition TCP_OPT_NO_OP : Z := 1.
Definition TCP_OPT_MSS : Z := 2.
Definition TCP_OPT_TIMESTAMP : Z := 8.

Definition OBJ_MAGIC : Z := 47109.

(** Multi-byte fields read from raw buffer bytes, host byte order result. *)
Definition be16_at (l : list Z) (i : Z) : Z := byte_at l i * 256 + byte_at l (i + 1).
Definition be32_at (l : list Z) (i : Z) : Z :=
  byte_at l i * 16777216 + byte_at l (i + 1) * 65536 +
  byte_at l (i + 2) * 256 + byte_at l (i + 3).
(** The four bytes [t_beui32 x] occupies in memory. *)
Definition be32_bytes (x : Z) : list Z :=
  [(x / 16777216) mod 256; (x / 65536) mod 256; (x / 256) mod 256; x mod 256].
Definition be16_bytes (x : Z) : list Z := [(x / 256) mod 256; x mod 256].

(** ** Round trips *)

Lemma div_mod_digit x d q b r :
  0 < d -> x = d * (256 * q + b) + r -> 0 <= r < d -> 0 <= b < 256 ->
  (x / d) mod 256 = b.
Proof.
  intros Hd Hx Hr Hb. rewrite <- (Z.div_unique_pos x d (256 * q + b) r) by lia.
  symmetry. apply (Z.mod_unique_pos _ 256 q b); lia.
Qed.

Lemma bswap32_digits b3 b2 b1 b0 :
  0 <= b0 < 256 -> 0 <= b1 < 256 -> 0 <= b2 < 256 -> 0 <= b3 < 256 ->
  bswap32 (b3 * 16777216 + b2 * 65536 + b1 * 256 + b0) =
  b0 * 16777216 + b1 * 65536 + b2 * 256 + b3.
Proof.
  intros. unfold bswap32. set (x := b3 * 16777216 + b2 * 65536 + b1 * 256 + b0).
  assert (E0 : x mod 256 = b0).
  { rewrite <- (Z.div_1_r x).
    apply (div_mod_digit x 1 (b3 * 65536 + b2 * 256 + b1) b0 0); subst x; lia. }
  rewrite E0.
  rewrite (div_mod_digit x 256 (b3 * 256 + b2) b1 b0), (div_mod_digit x 65536 b3 b2 (b1 * 256 + b0)),
    (div_mod_digit x 16777216 0 b3 (b2 * 65536 + b1 * 256 + b0)) by (subst x; lia).
  lia.
Qed.

Lemma u32_sum_digits x :
  u32 x = (x / 16777216) mod 256 * 16777216 + (x / 65536) mod 256 * 65536 +
          (x / 256) mod 256 * 256 + x mod 256.
Proof.
  unfold u32. change 4294967296 with (256 * (256 * (256 * 256))).
  rewrite !Z.rem_mul_r by lia.
  rewrite !Z.div_div by lia. change (256 * 256) with 65536. change (65536 * 256) with 16777216. lia.
Qed.

Lemma u32_digits x : is_u32 x ->
  exists b3 b2 b1 b0, x = b3 * 16777216 + b2 * 65536 + b1 * 256 + b0 /\
    0 <= b0 < 256 /\ 0 <= b1 < 256 /\ 0 <= b2 < 256 /\ 0 <= b3 < 256.
Proof.
  intros Hx. exists (x / 256 / 256 / 256), ((x / 256 / 256) mod 256), ((x / 256) mod 256), (x mod 256).
  mlia.
Qed.

Lemma bswap16_involutive x : is_u16 x -> bswap16 (bswap16 x) = x.
Proof.
  intros Hx. unfold bswap16.
  assert (E : (x / 256) mod 256 = x / 256) by mlia. rewrite E.
  rewrite <- (Z.mod_unique_pos (x mod 256 * 256 + x / 256) 256 (x mod 256) (x / 256)) by mlia.
  rewrite <- (Z.div_unique_pos (x mod 256 * 256 + x / 256) 256 (x mod 256) (x / 256)) by mlia.
  mlia.
Qed.

Lemma bswap32_involutive x : is_u32 x -> bswap32 (bswap32 x) = x.
Proof.
  intros Hx. destruct (u32_digits x Hx) as (b3 & b2 & b1 & b0 & -> & ? & ? & ? & ?).
  rewrite bswap32_digits, bswap32_digits; lia.
Qed.

Lemma bswap16_range x : is_u16 (bswap16 x).
Proof. unfold bswap16. mlia. Qed.
Lemma bswap32_range x : is_u32 (bswap32 x).
Proof. unfold bswap32. mlia. Qed.

Lemma f_t_beui16 x : f_beui16 (t_beui16 x) = u16 x.
Proof. unfold f_beui16, t_beui16; cbn. apply bswap16_involutive, u16_range. Qed.

Lemma f_t_beui32 x : f_beui32 (t_beui32 x) = u32 x.
Proof. unfold f_beui32, t_beui32; cbn. apply bswap32_involutive, u32_range. Qed.

Lemma be32_at_bytes l1 l2 x i :
  Z.to_nat i = length l1 -> 0 <= i ->
  be32_at (l1 ++ be32_bytes x ++ l2) i = u32 x.
Proof.
  intros Hi H0. unfold be32_at, byte_at.
  assert (E : forall k, 0 <= k < 4 ->
    (l1 ++ be32_bytes x ++ l2) !! Z.to_nat (i + k) = be32_bytes x !! Z.to_nat k).
  { intros k Hk. rewrite lookup_app_r by lia.
    replace (Z.to_nat (i + k) - length l1)%nat with (Z.to_nat k) by lia.
    apply lookup_app_l. cbn; lia. }
  replace i with (i + 0) at 1 by lia.
  rewrite !E by lia. rewrite u32_sum_digits. reflexivity.
Qed.

Lemma hdrlen_flags_value len flags :
  0 <= len < 16 -> 0 <= flags < 4096 ->
  ntohs (TCPH_HDRLEN_FLAGS len flags) = len * 4096 + flags.
Proof.
  intros Hl Hf. unfold TCPH_HDRLEN_FLAGS, htons, ntohs.
  rewrite bswap16_involutive by apply u16_range.
  rewrite lor_shiftl_add by lia.
  change (2 ^ 12) with 4096. mlia.
Qed.

Lemma hdrlen_flags_hdrlen h len flags :
  0 <= len < 16 -> 0 <= flags < 4096 ->
  TCPH_HDRLEN (h <| tcp_hdrlen_rsvd_flags := TCPH_HDRLEN_FLAGS len flags |>) = len.
Proof.
  intros. unfold TCPH_HDRLEN. cbn [tcp_hdrlen_rsvd_flags upd].
  rewrite hdrlen_flags_value, Z.shiftr_div_pow2 by lia. change (2 ^ 12) with 4096. mlia.
Qed.

Lemma hdrlen_flags_flags h len flags :
  0 <= len < 16 -> 0 <= flags < 512 ->
  TCPH_FLAGS (h <| tcp_hdrlen_rsvd_flags := TCPH_HDRLEN_FLAGS len flags |>) = flags.
Proof.
  intros. unfold TCPH_FLAGS, TCP_FLAGS. cbn [tcp_hdrlen_rsvd_flags upd].
  rewrite hdrlen_flags_value by lia. change 511 with (Z.ones 9).
  rewrite Z.land_ones by lia. change (2 ^ 9) with 512. mlia.
Qed.
