(* ===== verification/FlowState.v ===== *)
(** The pipeline memory shared by the fast path, the kernel and the
    applications: include/flextcp_plif.h. *)
From stdpp Require Import base numbers list gmap.
From Stdlib Require Import ZArith Lia.
From S2P Require Import Prelude Packet.

(** ** Flow state ([struct flextcp_pl_flowst]) *)

Definition FLEXNIC_PL_FLOWST_SLOWPATH : Z := 1.
Definition FLEXNIC_PL_FLOWST_OBJCONN : Z := 2.
Definition FLEXNIC_PL_FLOWST_OBJNOHASH : Z := 4.
Definition FLEXNIC_PL_FLOWST_ECN : Z := 8.
Definition FLEXNIC_PL_FLOWST_RX_MASK : Z := 18446744073709551600.

Record flowst := mk_flowst
  { fs_opaque : Z; fs_rx_base_sp : Z; fs_tx_base : Z;
    fs_rx_len : Z; fs_tx_len : Z; fs_qman_qid : Z;
    fs_local_ip : beui32; fs_remote_ip : beui32;
    fs_local_port : beui16; fs_remote_port : beui16;
    fs_remote_mac : list Z; fs_db_id : Z; fs_flow_group : Z;
    fs_lock : Z;
    fs_rx_avail : Z; fs_rx_next_pos : Z; fs_rx_next_seq : Z;
    fs_rx_remote_avail : Z; fs_rx_objrem : Z; fs_rx_dupack_cnt : Z;
    fs_rx_ooo_start : Z; fs_rx_ooo_len : Z;
    fs_tx_sent : Z; fs_tx_next_pos : Z; fs_tx_next_seq : Z;
    fs_tx_head : Z; fs_tx_objrem : Z; fs_tx_next_ts : Z;
    fs_bump_seq : Z; fs_tx_rate : Z; fs_cnt_tx_drops : Z;
    fs_cnt_rx_acks : Z; fs_cnt_rx_ack_bytes : Z; fs_cnt_rx_ecn : Z;
    fs_rtt_est : Z }.

#[export] Instance eta_flowst : Eta flowst := fun fs => mk_flowst
  (fs_opaque fs) (fs_rx_base_sp fs) (fs_tx_base fs)
  (fs_rx_len fs) (fs_tx_len fs) (fs_qman_qid fs)
  (fs_local_ip fs) (fs_remote_ip fs) (fs_local_port fs) (fs_remote_port fs)
  (fs_remote_mac fs) (fs_db_id fs) (fs_flow_group fs) (fs_lock fs)
  (fs_rx_avail fs) (fs_rx_next_pos fs) (fs_rx_next_seq fs)
  (fs_rx_remote_avail fs) (fs_rx_objrem fs) (fs_rx_dupack_cnt fs)
  (fs_rx_ooo_start fs) (fs_rx_ooo_len fs)
  (fs_tx_sent fs) (fs_tx_next_pos fs) (fs_tx_next_seq fs)
  (fs_tx_head fs) (fs_tx_objrem fs) (fs_tx_next_ts fs)
  (fs_bump_seq fs) (fs_tx_rate fs) (fs_cnt_tx_drops fs)
  (fs_cnt_rx_acks fs) (fs_cnt_rx_ack_bytes fs) (fs_cnt_rx_ecn fs)
  (fs_rtt_est fs).

(** A flow state as the zeroed shared memory region holds it. *)
Definition zero_flowst : flowst :=
  mk_flowst 0 0 0 0 0 0 (mk_beui32 0) (mk_beui32 0) (mk_beui16 0) (mk_beui16 0)
    [0;0;0;0;0;0] 0 0 0 0 0 0 0 0 0 0 0 0 0 0 0 0 0 0 0 0 0 0 0 0.
#[export] Instance flowst_inhabited : Inhabited flowst := populate zero_flowst.

Definition has_flag (w f : Z) : bool := negb (Z.land w f =? 0).
Definition fs_objconn (fs : flowst) : bool :=
  has_flag (fs_rx_base_sp fs) FLEXNIC_PL_FLOWST_OBJCONN.

(** Simplify projections of updated flow states. *)
Ltac fs_cbn :=
  cbn [fs_opaque fs_rx_base_sp fs_tx_base fs_rx_len fs_tx_len fs_qman_qid
    fs_local_ip fs_remote_ip fs_local_port fs_remote_port fs_remote_mac fs_db_id
    fs_flow_group fs_lock fs_rx_avail fs_rx_next_pos fs_rx_next_seq
    fs_rx_remote_avail fs_rx_objrem fs_rx_dupack_cnt fs_rx_ooo_start
    fs_rx_ooo_len fs_tx_sent fs_tx_next_pos fs_tx_next_seq fs_tx_head
    fs_tx_objrem fs_tx_next_ts fs_bump_seq fs_tx_rate fs_cnt_tx_drops
    fs_cnt_rx_acks fs_cnt_rx_ack_bytes fs_cnt_rx_ecn fs_rtt_est upd] in *.

(** ** Application contexts and queue entries *)

Definition FLEXNIC_PL_APPST_NUM : Z := 8.
Definition FLEXNIC_PL_APPST_CTX_NUM : Z := 31.
Definition FLEXNIC_PL_APPCTX_NUM : Z := 16.
Definition FLEXNIC_PL_FLOWST_NUM : Z := 131072.
Definition FLEXNIC_PL_FLOWHT_ENTRIES : Z := 262144.
Definition FLEXNIC_PL_FLOWHT_NBSZ : Z := 4.
Definition FLEXNIC_PL_FLOWHTE_VALID : Z := 2147483648.
Definition FLEXNIC_PL_FLOWHTE_POSSHIFT : Z := 29.
Definition FLEXNIC_PL_QMANTE_TYPEMASK : Z := 3221225472.

(** [struct flextcp_pl_appctx]: registers of a queue pair (applications and
    the kernel). *)
Record appctx := mk_appctx
  { ac_rx_base : Z; ac_tx_base : Z; ac_rx_len : Z; ac_tx_len : Z;
    ac_qman_qid : Z; ac_appst_id : Z; ac_evfd : Z;
    ac_rx_head : Z; ac_tx_head : Z; ac_last_ts : Z }.
#[export] Instance eta_appctx : Eta appctx := fun a => mk_appctx
  (ac_rx_base a) (ac_tx_base a) (ac_rx_len a) (ac_tx_len a)
  (ac_qman_qid a) (ac_appst_id a) (ac_evfd a)
  (ac_rx_head a) (ac_tx_head a) (ac_last_ts a).
#[export] Instance appctx_inhabited : Inhabited appctx :=
  populate (mk_appctx 0 0 0 0 0 0 0 0 0 0).

(** [struct flextcp_pl_appst]. *)
Record appst := mk_appst { as_ctx_num : Z; as_ctx_ids : list Z }.
#[export] Instance appst_inhabited : Inhabited appst := populate (mk_appst 0 []).

(** [struct flextcp_pl_flowhte]. *)
Record flowhte := mk_flowhte { hte_flow_id : Z; hte_flow_hash : Z }.
#[export] Instance flowhte_inhabited : Inhabited flowhte := populate (mk_flowhte 0 0).

Definition FLEXTCP_PL_ARX_CONNUPDATE : Z := 1.
Definition FLEXTCP_PL_ARX_OBJUPDATE : Z := 2.
Definition FLEXTCP_PL_ATX_CONNUPDATE : Z := 1.
Definition FLEXTCP_PL_KTX_PACKET : Z := 1.
Definition FLEXTCP_PL_KTX_CONNRETRAN : Z := 2.
Definition FLEXTCP_PL_KRX_PACKET : Z := 1.

(** [struct flextcp_pl_arx] with its [connupdate] message. *)
Record arx_entry := mk_arx
  { arx_opaque : Z; arx_rx_bump : Z; arx_rx_pos : Z; arx_tx_bump : Z;
    arx_tx_head : Z; arx_type : Z }.
#[export] Instance eta_arx : Eta arx_entry := fun a => mk_arx
  (arx_opaque a) (arx_rx_bump a) (arx_rx_pos a) (arx_tx_bump a)
  (arx_tx_head a) (arx_type a).
