(* ===== verification/TcpCommon.v ===== *)
(** Sequence-number and option processing shared by the fast path and its unit
    test: flexnic/tcp_common.h. *)
From stdpp Require Import base numbers list sets gmap.
From Stdlib Require Import ZArith Lia.
From S2P Require Import Prelude Packet FlowState.

(** ** Definitions *)

(** [tcp_valid_rxseq]: [None] is the return value -1 (drop), [Some (ts, te)]
    the return value 0 with [*trim_start], [*trim_end]. *)
Definition tcp_valid_rxseq (fs : flowst) (pkt_seq pkt_bytes : Z) : option (Z * Z) :=
  let pkt_bytes := u16 pkt_bytes in
  let pseq_a := pkt_seq in
  let pseq_b := u32 (pkt_seq + pkt_bytes) in
  let sseq_a := fs_rx_next_seq fs in
  let sseq_b := u32 (fs_rx_next_seq fs + fs_rx_avail fs) in
  if (pseq_a <=? pseq_b) && (sseq_a <=? sseq_b) then
    if pseq_b <? sseq_a then None
    else if sseq_a <? pseq_a then None
    else Some (u16 (u32 (sseq_a - pseq_a)),
               u16 (if sseq_b <? pseq_b then u32 (pseq_b - sseq_b) else 0))
  else if (pseq_a <=? pseq_b) && (sseq_b <? sseq_a) then
    if (sseq_b <=? pseq_a) && (pseq_b <? sseq_a) then None
    else if (sseq_a <? pseq_a) || (pseq_a <? sseq_b) then None
    else Some (u16 (u32 (sseq_a - pseq_a)), 0)
  else if (pseq_b <? pseq_a) && (sseq_a <=? sseq_b) then
    if pseq_b <? sseq_a then None
    else if sseq_a <? pseq_a then None
    else Some (u16 (u32 (sseq_a - pseq_a)),
               u16 (if sseq_b <? pseq_b then u32 (pseq_b - sseq_b) else 0))
  else
    if sseq_a <? pseq_a then None
    else Some (u16 (u32 (sseq_a - pseq_a)),
               u16 (if sseq_b <? pseq_b then u32 (pseq_b - sseq_b) else 0)).

(** [tcp_trim_rxbuf]. *)
Definition tcp_trim_rxbuf (fs : flowst) (pkt_seq pkt_bytes : Z) : option (Z * Z) :=
  let pkt_bytes := u16 pkt_bytes in
  let pseq_a := pkt_seq in
  let pseq_b := u32 (pkt_seq + pkt_bytes) in
  let sseq_a := fs_rx_next_seq fs in
  let sseq_b := u32 (fs_rx_next_seq fs + fs_rx_avail fs) in
  if (pseq_a <=? pseq_b) && (sseq_a <=? sseq_b) then
    if pseq_b <? sseq_a then None
    else if sseq_b <? pseq_a then None
    else Some (u16 (if pseq_a <? sseq_a then u32 (sseq_a - pseq_a) else 0),
               u16 (if sseq_b <? pseq_b then u32 (pseq_b - sseq_b) else 0))
  else if (pseq_a <=? pseq_b) && (sseq_b <? sseq_a) then
    if (sseq_b <? pseq_a) && (pseq_b <? sseq_a) then None
    else Some (u16 (if (sseq_b <? pseq_a) && (pseq_a <? sseq_a)
                    then u32 (sseq_a - pseq_a) else 0),
               u16 (if (sseq_b <=? pseq_b) && (pseq_b <? sseq_a)
                    then u32 (pseq_b - sseq_b) else 0))
  else if (pseq_b <? pseq_a) && (sseq_a <=? sseq_b) then
    if (sseq_b <? pseq_a) && (pseq_b <? sseq_a) then None
    else Some (u16 (if (sseq_a <=? pseq_b) || (pseq_a <? sseq_a)
                    then u32 (sseq_a - pseq_a) else 0),
               u16 (if (sseq_b <? pseq_b) || (pseq_a <=? sseq_a)
                    then u32 (pseq_b - sseq_b) else 0))
  else
    Some (u16 (if pseq_a <? sseq_a then u32 (sseq_a - pseq_a) else 0),
          u16 (if sseq_b <? pseq_b then u32 (pseq_b - sseq_b) else 0)).

(** [tcp_valid_rxack] with [ALLOW_FUTURE_ACKS]: [Some bump] is the return value
    0, [None] is -1. *)
Definition tcp_valid_rxack (fs : flowst) (ack : Z) : option Z :=
  let fsack_a := u32 (fs_tx_next_seq fs - fs_tx_sent fs) in
  let fsack_b :=
    if fs_tx_next_pos fs <=? fs_tx_head fs
    then u32 (fs_tx_next_seq fs + u32 (fs_tx_head fs - fs_tx_next_pos fs))
    else u32 (fs_tx_next_seq fs +
              u32 (u32 (fs_tx_head fs - fs_tx_next_pos fs) + fs_tx_len fs)) in
  if fsack_a <=? fsack_b then
    if (ack <? fsack_a) || (fsack_b <? ack) then None
    else Some (u32 (ack - fsack_a))
  else
    if (ack <? fsack_a) && (fsack_b <? ack) then None
    else Some (u32 (ack - fsack_a)).

(** [tcp_txavail]: [phead] is the optional head pointer argument. *)
Definition tcp_txavail (fs : flowst) (phead : option Z) : Z :=
  let head := default (fs_tx_head fs) phead in
  let buf_avail :=
    if fs_tx_next_pos fs <=? head then u32 (head - fs_tx_next_pos fs)
    else u32 (u32 (fs_tx_len fs - fs_tx_next_pos fs) + head) in
  let fc_avail := u32 (fs_rx_remote_avail fs - fs_tx_sent fs) in
  MIN buf_avail fc_avail.

(** The option-list loop of [tcp_parse_options].  [opt] are the bytes from
    [p + 1]; the result is the offset [opts->ts] points to, [None] the return
    value -1, and [Spin] an exhausted iteration budget. *)
Fixpoint parse_opts_loop (fuel : nat) (opt : list Z) (opts_len off : Z)
    (ts : option Z) : outcome (option (option Z)) :=
  match fuel with
  | O => Spin
  | S fuel' =>
    if off <? opts_len then
      let opt_kind := byte_at opt off in
      let opt_avail := u8 (opts_len - off) in
      if opt_kind =? TCP_OPT_END_OF_OPTIONS then Ok (Some ts)
      else if opt_kind =? TCP_OPT_NO_OP then
        parse_opts_loop fuel' opt opts_len (u16 (off + 1)) ts
      else if opt_avail <? 2 then Ok None
      else
        let opt_len := byte_at opt (off + 1) in
        if opt_kind =? TCP_OPT_TIMESTAMP then
          if negb (opt_len =? SZ_TS_OPT) then Ok None
          else parse_opts_loop fuel' opt opts_len (u16 (off + opt_len)) (Some off)
        else parse_opts_loop fuel' opt opts_len (u16 (off + opt_len)) ts
    else Ok (Some ts)
  end.

Definition tcp_opts_len (p : pkt_tcp) : Z := u16 (TCPH_HDRLEN (p_tcp p) * 4 - 20).

Definition tcp_parse_options (fuel : nat) (p : pkt_tcp) (len : Z)
    : outcome (option (option Z)) :=
  if (TCPH_HDRLEN (p_tcp p) <? 5) || (u64 (len - SZ_PKT_TCP) <? tcp_opts_len p)
  then Ok None
  else parse_opts_loop fuel (p_data p) (tcp_opts_len p) 0 None.

(** Iterations that always suffice when every option advances: the option
    area of a TCP header is at most 40 bytes. *)
Definition opts_fuel : nat := 41.

(** ** Reference definitions *)

(** In-order segments only: bytes [d] in front of the window start have been
    received before, bytes beyond the window do not fit. *)
Definition rxseq_ref (fs : flowst) (seq n : Z) : option (Z * Z) :=
  let d := u32 (fs_rx_next_seq fs - seq) in
  if n <? d then None else Some (d, Z.max 0 (n - d - fs_rx_avail fs)).

(** Any overlap with the window, the window being [rx_avail] bytes from
    [rx_next_seq] on. *)
Definition rxbuf_ref (fs : flowst) (seq n : Z) : option (Z * Z) :=
  let off := u32 (seq - fs_rx_next_seq fs) in
  let d := u32 (fs_rx_next_seq fs - seq) in
  if off <=? fs_rx_avail fs then Some (0, Z.max 0 (off + n - fs_rx_avail fs))
  else if d <=? n then Some (d, Z.max 0 (n - d - fs_rx_avail fs))
  else None.

Definition pkt_wraps (seq n : Z) : bool := 4294967296 <=? seq + n.
Definition buf_wraps (fs : flowst) : bool :=
  4294967296 <=? fs_rx_next_seq fs + fs_rx_avail fs.

(** The window does not cross sequence number 0, the packet does, and it
    starts inside the window after its first byte. *)
Definition trim_gap (fs : flowst) (seq n : Z) : bool :=
  pkt_wraps seq n && negb (buf_wraps fs) &&
  (fs_rx_next_seq fs <? seq) && (seq <=? fs_rx_next_seq fs + fs_rx_avail fs).

(** Bytes queued in the send buffer that were not sent yet. *)
Definition tx_unsent (fs : flowst) (head : Z) : Z :=
  if fs_tx_next_pos fs <=? head then head - fs_tx_next_pos fs
  else fs_tx_len fs - fs_tx_next_pos fs + head.

(** Machine ranges of the receive window and of the transmit buffer state. *)
Definition rxwin_ok (fs : flowst) : Prop :=
  is_u32 (fs_rx_next_seq fs) /\ 0 <= fs_rx_avail fs < 4294901760.

Definition txbuf_ok (fs : flowst) : Prop :=
  0 < fs_tx_len fs < 2147483648 /\ 0 <= fs_tx_next_pos fs < fs_tx_len fs /\
  0 <= fs_tx_head fs < fs_tx_len fs /\ is_u32 (fs_tx_next_seq fs) /\
  0 <= fs_tx_sent fs < 2147483648 /\ is_u32 (fs_rx_remote_avail fs).

(** A zero-length option is reached from offset [off]. *)
Inductive zero_opt_reached (opt : list Z) (opts_len : Z) : Z -> Prop :=
| zo_here off : off < opts_len -> 2 <= opts_len - off ->
    byte_at opt off ∉ [TCP_OPT_END_OF_OPTIONS; TCP_OPT_NO_OP; TCP_OPT_TIMESTAMP] ->
    byte_at opt (off + 1) = 0 -> zero_opt_reached opt opts_len off
| zo_nop off : off < opts_len -> byte_at opt off = TCP_OPT_NO_OP ->
    zero_opt_reached opt opts_len (off + 1) -> zero_opt_reached opt opts_len off
| zo_skip off : off < opts_len -> 2 <= opts_len - off ->
    byte_at opt off ∉ [TCP_OPT_END_OF_OPTIONS; TCP_OPT_NO_OP] ->
    (byte_at opt off = TCP_OPT_TIMESTAMP -> byte_at opt (off + 1) = SZ_TS_OPT) ->
    zero_opt_reached opt opts_len (off + byte_at opt (off + 1)) ->
    zero_opt_reached opt opts_len off.

(** ** Sequence-number arithmetic *)

Lemma u32_add_cases a b : is_u32 a -> is_u32 b ->
  (a + b < 4294967296 /\ u32 (a + b) = a + b) \/
  (4294967296 <= a + b /\ u32 (a + b) = a + b - 4294967296).
Proof.
  intros Ha Hb. destruct (Z.ltb_spec (a + b) 4294967296).
  - left; split; auto. apply u32_small; mlia.
  - right; split; auto. symmetry; apply (Z.mod_unique_pos _ _ 1); mlia.
Qed.

Lemma u32_sub_cases a b : is_u32 a -> is_u32 b ->
  (b <= a /\ u32 (a - b) = a - b) \/ (a < b /\ u32 (a - b) = a - b + 4294967296).
Proof.
  intros Ha Hb. destruct (Z.leb_spec b a).
  - left; split; auto. apply u32_small; mlia.
  - right; split; auto. symmetry; apply (Z.mod_unique_pos _ _ (-1)); mlia.
Qed.

(** Case analysis on the wrap-around of every [u32] sum and difference of the
    goal whose operands are known to be in range; impossible cases are pruned
    as soon as they appear. *)
Ltac u32_split :=
  repeat match goal with
  | |- context [u32 (?a + ?b)] =>
      let E := fresh "E" in
      destruct (u32_add_cases a b) as [[? E]|[? E]]; [unfold is_u32; lia | unfold is_u32; lia | |];
      rewrite ?E in *; clear E; try (exfalso; lia)
  | |- context [u32 (?a - ?b)] =>
      let E := fresh "E" in
      destruct (u32_sub_cases a b) as [[? E]|[? E]]; [unfold is_u32; lia | unfold is_u32; lia | |];
      rewrite ?E in *; clear E; try (exfalso; lia)
  end.

Ltac bprune :=
  repeat (match goal with
  | |- context [?a <? ?b] => destruct (Z.ltb_spec a b)
  | |- context [?a <=? ?b] => destruct (Z.leb_spec a b)
  | |- context [?a =? ?b] => destruct (Z.eqb_spec a b)
  end; try (exfalso; lia); cbn [andb orb negb]).

Ltac trim_close :=
  u16_drop;
  first [reflexivity | (f_equal; f_equal; lia)].

(** [tcp_valid_rxseq] accepts exactly the segments that start at or before
    the next expected byte and reach it, trims the bytes received before and
    the bytes beyond the window -- except that it drops every segment that
    crosses sequence number 0 while the receive window does not. *)
Theorem tcp_valid_rxseq_spec fs seq n :
  rxwin_ok fs -> is_u32 seq -> is_u16 n ->
  tcp_valid_rxseq fs seq n =
    if pkt_wraps seq n && negb (buf_wraps fs) then None else rxseq_ref fs seq n.
Proof.
  intros [Hnext Hav] Hseq Hn. unfold tcp_valid_rxseq, rxseq_ref, pkt_wraps, buf_wraps.
  rewrite (u16_small n) by auto. unfold is_u16, is_u32 in *.
  set (A := fs_rx_next_seq fs) in *. set (V := fs_rx_avail fs) in *.
  unfold is_u32 in *. u32_split; bprune; trim_close.
Qed.

Lemma trim_rxbuf_eq fs seq n :
  rxwin_ok fs -> is_u32 seq -> is_u16 n ->
  tcp_trim_rxbuf fs seq n =
    if trim_gap fs seq n then Some (0, 0) else rxbuf_ref fs seq n.
Proof.
  intros [Hnext Hav] Hseq Hn. unfold tcp_trim_rxbuf, rxbuf_ref, trim_gap, pkt_wraps, buf_wraps.
  rewrite (u16_small n) by auto. unfold is_u16, is_u32 in *.
  set (A := fs_rx_next_seq fs) in *. set (V := fs_rx_avail fs) in *.
  unfold is_u32 in *. u32_split; bprune; trim_close.
Qed.

(** [tcp_trim_rxbuf] computes the intersection of a segment with the
    receive window, except for a segment that crosses sequence number 0 and
    starts strictly inside a window that does not: such a segment is accepted
    without any trimming. *)
Theorem tcp_trim_rxbuf_spec fs seq n :
  rxwin_ok fs -> is_u32 seq -> is_u16 n ->
  tcp_trim_rxbuf fs seq n =
    if trim_gap fs seq n then Some (0, 0) else rxbuf_ref fs seq n.
Proof. exact (trim_rxbuf_eq fs seq n). Qed.

(** A segment [tcp_trim_rxbuf] accepts without being in the gap of trim_gap fits the
    window once trimmed: what is left starts inside the window and ends inside
    it. *)
Lemma rxbuf_ref_fits fs seq n ts te :
  rxwin_ok fs -> is_u32 seq -> is_u16 n -> rxbuf_ref fs seq n = Some (ts, te) ->
  0 <= ts /\ 0 <= te /\ ts + te <= n /\
  (n - ts - te = 0 \/
   u32 (seq + ts - fs_rx_next_seq fs) + (n - ts - te) <= fs_rx_avail fs).
Proof.
  intros [Hnext Hav] Hseq Hn. unfold rxbuf_ref, is_u16, is_u32 in *.
  set (A := fs_rx_next_seq fs) in *. set (V := fs_rx_avail fs) in *.
  u32_split; bprune; intros E; simplify_eq; repeat split; try lia.
  all: first [right; mlia | left; lia].
Qed.

Lemma valid_rxack_eq fs ack :
  txbuf_ok fs -> is_u32 ack ->
  tcp_valid_rxack fs ack =
    let bump := u32 (ack - u32 (fs_tx_next_seq fs - fs_tx_sent fs)) in
    if bump <=? fs_tx_sent fs + tx_unsent fs (fs_tx_head fs) then Some bump else None.
Proof.
  intros (HL & Hp & Hh & Hq & Hs & Hr) Hack.
  unfold tcp_valid_rxack, tx_unsent, is_u32 in *. cbv zeta.
  set (L := fs_tx_len fs) in *. set (P := fs_tx_next_pos fs) in *.
  set (Hd := fs_tx_head fs) in *. set (Q := fs_tx_next_seq fs) in *.
  set (S := fs_tx_sent fs) in *.
  destruct (Z.leb_spec P Hd).
  - rewrite (u32_small (Hd - P)) by (unfold is_u32; lia).
    u32_split; bprune; reflexivity.
  - rewrite u32_add_l, (u32_small (Hd - P + L)) by (unfold is_u32; lia).
    u32_split; bprune; reflexivity.
Qed.

(** [tcp_valid_rxack] accepts exactly the acknowledgement numbers between
    the oldest unacknowledged byte and the end of the data in the send buffer,
    modulo 2^32, and returns the number of newly acknowledged bytes. *)
Theorem tcp_valid_rxack_spec fs ack :
  txbuf_ok fs -> is_u32 ack ->
  tcp_valid_rxack fs ack =
    let bump := u32 (ack - u32 (fs_tx_next_seq fs - fs_tx_sent fs)) in
    if bump <=? fs_tx_sent fs + tx_unsent fs (fs_tx_head fs) then Some bump else None.
Proof. exact (valid_rxack_eq fs ack). Qed.

Lemma txavail_eq fs phead :
  txbuf_ok fs -> 0 <= default (fs_tx_head fs) phead < fs_tx_len fs ->
  let unsent := tx_unsent fs (default (fs_tx_head fs) phead) in
  tcp_txavail fs phead =
    if fs_tx_sent fs <=? fs_rx_remote_avail fs
    then Z.min unsent (fs_rx_remote_avail fs - fs_tx_sent fs) else unsent.
Proof.
  intros (HL & Hp & Hh & Hq & Hs & Hr) Hd. unfold tcp_txavail, tx_unsent.
  set (h := default (fs_tx_head fs) phead) in *. rewrite MIN_spec.
  set (L := fs_tx_len fs) in *. set (P := fs_tx_next_pos fs) in *.
  set (S := fs_tx_sent fs) in *. set (R := fs_rx_remote_avail fs) in *.
  unfold is_u32 in *.
  rewrite (u32_small (L - P)) by (unfold is_u32; lia).
  destruct (Z.leb_spec P h).
  - rewrite (u32_small (h - P)) by (unfold is_u32; lia). u32_split; bprune; lia.
  - rewrite (u32_small (L - P + h)) by (unfold is_u32; lia). u32_split; bprune; lia.
Qed.

(** [tcp_txavail] is the smaller of the unsent bytes and the remaining
    receiver window -- when the bytes in flight fit the window; when the
    receiver shrank its window below them, flow control has no effect. *)
Theorem tcp_txavail_spec fs phead :
  txbuf_ok fs -> 0 <= default (fs_tx_head fs) phead < fs_tx_len fs ->
  let unsent := tx_unsent fs (default (fs_tx_head fs) phead) in
  tcp_txavail fs phead =
    if fs_tx_sent fs <=? fs_rx_remote_avail fs
    then Z.min unsent (fs_rx_remote_avail fs - fs_tx_sent fs) else unsent.
Proof. exact (txavail_eq fs phead). Qed.

Lemma tcp_txavail_le_unsent fs phead :
  txbuf_ok fs -> 0 <= default (fs_tx_head fs) phead < fs_tx_len fs ->
  0 <= tcp_txavail fs phead <= tx_unsent fs (default (fs_tx_head fs) phead).
Proof.
  intros H Hd. rewrite txavail_eq by auto. cbv zeta. unfold tx_unsent.
  destruct H as (HL & Hp & Hh & Hq & Hs & Hr). unfold is_u32 in *. bprune; lia.
Qed.

(** ** The option parser *)

Section OptionLoop.
Context (opt : list Z) (opts_len : Z).
Hypothesis Hlen : 0 <= opts_len <= 40.
Hypothesis Hbytes : Forall (fun b => 0 <= b < 256) opt.

Lemma opt_byte_range i : 0 <= byte_at opt i < 256.
Proof.
  unfold byte_at. destruct (opt !! Z.to_nat i) eqn:E; cbn; [|lia].
  rewrite Forall_lookup in Hbytes. eauto.
Qed.

(** One iteration on a variable-length option. *)
Lemma parse_opts_loop_var fuel off ts :
  0 <= off < opts_len ->
  byte_at opt off <> TCP_OPT_END_OF_OPTIONS -> byte_at opt off <> TCP_OPT_NO_OP ->
  parse_opts_loop (S fuel) opt opts_len off ts =
    if opts_len - off <? 2 then Ok None
    else if (byte_at opt off =? TCP_OPT_TIMESTAMP) && negb (byte_at opt (off + 1) =? SZ_TS_OPT)
    then Ok None
    else parse_opts_loop fuel opt opts_len (off + byte_at opt (off + 1))
           (if byte_at opt off =? TCP_OPT_TIMESTAMP then Some off else ts).
Proof.
  intros H0 HE HN. pose proof (opt_byte_range (off + 1)) as Hb. cbn [parse_opts_loop].
  u16_drop.
  unfold u8. rewrite (Z.mod_small (opts_len - off)) by lia.
  rewrite (proj2 (Z.ltb_lt off opts_len)), (proj2 (Z.eqb_neq _ _) HE),
    (proj2 (Z.eqb_neq _ _) HN) by lia.
  destruct (opts_len - off <? 2), (byte_at opt off =? TCP_OPT_TIMESTAMP),
    (byte_at opt (off + 1) =? SZ_TS_OPT); reflexivity.
Qed.

Lemma parse_opts_loop_nop fuel off ts :
  0 <= off < opts_len -> byte_at opt off = TCP_OPT_NO_OP ->
  parse_opts_loop (S fuel) opt opts_len off ts =
  parse_opts_loop fuel opt opts_len (off + 1) ts.
Proof.
  intros H0 HN. cbn [parse_opts_loop].
  rewrite (proj2 (Z.ltb_lt off opts_len)), HN by lia.
  rewrite (u16_small (off + 1)) by (unfold is_u16; lia). reflexivity.
Qed.

Lemma zero_opt_spins off : 0 <= off -> zero_opt_reached opt opts_len off ->
  forall fuel ts, parse_opts_loop fuel opt opts_len off ts = Spin.
Proof.
  intros H0 Hz fuel. revert off H0 Hz.
  induction fuel as [|fuel IH]; intros off H0 Hz ts; auto.
  pose proof (opt_byte_range (off + 1)) as Hb.
  destruct Hz as [off L A K Z|off L N Z|off L A K T Z].
  - rewrite !not_elem_of_cons in K. destruct K as (K1 & K2 & K3 & _).
    rewrite parse_opts_loop_var by auto with lia.
    rewrite (proj2 (Z.ltb_ge _ _)), (proj2 (Z.eqb_neq _ _) K3) by lia. cbn.
    rewrite Z, Z.add_0_r. apply IH; [lia|].
    apply zo_here; auto. rewrite !not_elem_of_cons. auto using not_elem_of_nil.
  - rewrite parse_opts_loop_nop by auto with lia. auto with lia.
  - rewrite !not_elem_of_cons in K. destruct K as (K1 & K2 & _).
    rewrite parse_opts_loop_var by auto with lia.
    rewrite (proj2 (Z.ltb_ge _ _)) by lia.
    destruct (Z.eqb_spec (byte_at opt off) TCP_OPT_TIMESTAMP) as [E|E]; cbn.
    + pose proof (T E) as T'. rewrite T', Z.eqb_refl. cbn [negb]. rewrite <- T'.
      apply IH; [lia | auto].
    + apply IH; [lia | auto].
Qed.

Lemma spin_zero_opt off fuel ts : 0 <= off ->
  (Z.to_nat (opts_len - off) < fuel)%nat ->
  parse_opts_loop fuel opt opts_len off ts = Spin -> zero_opt_reached opt opts_len off.
Proof.
  revert off ts. induction fuel as [|fuel IH]; intros off ts H0 Hf; [lia|].
  pose proof (opt_byte_range (off + 1)) as Hb.
  destruct (Z.ltb_spec off opts_len) as [Hl|Hl].
  2:{ cbn. rewrite (proj2 (Z.ltb_ge _ _)) by lia. discriminate. }
  destruct (Z.eq_dec (byte_at opt off) TCP_OPT_END_OF_OPTIONS) as [K1|K1].
  { cbn. rewrite (proj2 (Z.ltb_lt _ _)), K1 by lia. discriminate. }
  destruct (Z.eq_dec (byte_at opt off) TCP_OPT_NO_OP) as [K2|K2].
  { rewrite parse_opts_loop_nop by auto with lia. intros E. apply zo_nop; auto.
    eapply IH; eauto; lia. }
  rewrite parse_opts_loop_var by auto with lia.
  destruct (Z.ltb_spec (opts_len - off) 2); [discriminate|].
  destruct (Z.eqb_spec (byte_at opt off) TCP_OPT_TIMESTAMP) as [K3|K3]; cbn [andb].
  - destruct (Z.eqb_spec (byte_at opt (off + 1)) SZ_TS_OPT) as [L|L]; cbn [negb]; [|discriminate].
    intros E. apply zo_skip; auto; [set_solver|]. unfold SZ_TS_OPT in *.
    eapply IH; eauto; lia.
  - intros E. destruct (Z.eq_dec (byte_at opt (off + 1)) 0) as [L|L].
    + apply zo_here; auto. set_solver.
    + apply zo_skip; auto; [set_solver | tauto |]. eapply IH; eauto; lia.
Qed.

Lemma parse_opts_loop_bound off fuel ts t : 0 <= off ->
  parse_opts_loop fuel opt opts_len off ts = Ok (Some (Some t)) ->
  ts = Some t \/ (0 <= t < opts_len - 1 /\ byte_at opt t = TCP_OPT_TIMESTAMP /\
                  byte_at opt (t + 1) = SZ_TS_OPT).
Proof.
  revert off ts. induction fuel as [|fuel IH]; intros off ts H0; cbn; [discriminate|].
  pose proof (opt_byte_range (off + 1)) as Hb.
  destruct (Z.ltb_spec off opts_len); [|intros; simplify_eq; auto].
  u16_drop.
  unfold u8. rewrite (Z.mod_small (opts_len - off)) by lia.
  destruct (Z.eqb_spec (byte_at opt off) TCP_OPT_END_OF_OPTIONS); [intros; simplify_eq; auto|].
  destruct (Z.eqb_spec (byte_at opt off) TCP_OPT_NO_OP).
  { intros E. destruct (IH (off + 1) ts ltac:(lia) E); auto. }
  destruct (Z.ltb_spec (opts_len - off) 2); [discriminate|].
  destruct (Z.eqb_spec (byte_at opt off) TCP_OPT_TIMESTAMP) as [T|T].
  - destruct (Z.eqb_spec (byte_at opt (off + 1)) SZ_TS_OPT) as [L|L]; cbn; [|discriminate].
    intros E. destruct (IH (off + byte_at opt (off + 1)) (Some off) ltac:(lia) E) as [E'|]; auto.
    simplify_eq. right. repeat split; auto; lia.
  - intros E. destruct (IH (off + byte_at opt (off + 1)) ts ltac:(lia) E); auto.
Qed.
End OptionLoop.

Lemma tcp_opts_len_range p : 5 <= TCPH_HDRLEN (p_tcp p) <= 15 -> 0 <= tcp_opts_len p <= 40.
Proof. intros. unfold tcp_opts_len. rewrite u16_small; unfold is_u16; lia. Qed.

(** The packet is long enough for its header length. *)
Definition opts_fit (p : pkt_tcp) (len : Z) : bool :=
  (5 <=? TCPH_HDRLEN (p_tcp p)) && (tcp_opts_len p <=? len - SZ_PKT_TCP).

(** C34.  On a packet whose header fits, [tcp_parse_options] fails to return
    exactly when it reaches an option with length byte 0; otherwise 41
    iterations are enough. *)
Theorem tcp_parse_options_hangs_iff p len :
  TCPH_HDRLEN (p_tcp p) <= 15 -> SZ_PKT_TCP <= len < 65536 ->
  Forall (fun b => 0 <= b < 256) (p_data p) ->
  ((forall fuel, tcp_parse_options fuel p len = Spin) <->
   opts_fit p len = true /\ zero_opt_reached (p_data p) (tcp_opts_len p) 0) /\
  (tcp_parse_options opts_fuel p len = Spin ->
   forall fuel, tcp_parse_options fuel p len = Spin).
Proof.
  intros Hh Hlen Hb. unfold tcp_parse_options, opts_fit.
  rewrite (u64_small (len - SZ_PKT_TCP)) by (unfold SZ_PKT_TCP in *; lia).
  destruct (Z.ltb_spec (TCPH_HDRLEN (p_tcp p)) 5);
    destruct (Z.leb_spec 5 (TCPH_HDRLEN (p_tcp p))); try lia; cbn [andb orb negb].
  { split; [split|]; [intros A; discriminate (A 0%nat) | intros [? _]; discriminate | discriminate]. }
  rewrite Z.ltb_antisym. destruct (tcp_opts_len p <=? len - SZ_PKT_TCP); cbn [negb].
  2:{ split; [split|]; [intros A; discriminate (A 0%nat) | intros [? _]; discriminate | discriminate]. }
  assert (R := tcp_opts_len_range p ltac:(lia)).
  assert (S0 : parse_opts_loop opts_fuel (p_data p) (tcp_opts_len p) 0 None = Spin ->
    zero_opt_reached (p_data p) (tcp_opts_len p) 0).
  { apply spin_zero_opt; auto; unfold opts_fuel; lia. }
  split; [split|]; auto.
  - intros [_ Hz] fuel. apply zero_opt_spins; auto; lia.
  - intros E fuel. apply zero_opt_spins; auto; lia.
Qed.
