(* ===== verification/Qman.v ===== *)
(** The queue manager: flexnic/qman.c, and the linear congruential generator it
    uses: utils/rng.c (state: the 48-bit [seed]).

    Every thread owns an array of queues; active queues without a rate are on a
    FIFO list threaded through [next_idxs[0]], rate-limited ones on a skip list
    ordered by the time they may send next. *)
From stdpp Require Import base numbers list sorting gmap.
From Stdlib Require Import ZArith Lia.
From S2P Require Import Prelude LinkedList.

Definition rng_a : Z := 25214903917.
Definition rng_c : Z := 11.
Definition rng_m : Z := 281474976710656.

Definition utils_rng_init (seed : Z) : Z := Z.lxor (u64 seed) rng_a mod rng_m.

(** Returns the value and the new seed. *)
Definition utils_rng_gen32 (seed : Z) : Z * Z :=
  let next := u64 (rng_a * seed + rng_c) mod rng_m in
  (u32 (Z.shiftr next 16), next).

(** [utils_rng_gen]: [size] bytes, four at a time little-endian, the rest from
    the top bytes of one more value. *)
Fixpoint rng_tail (n : nat) (x : Z) : list Z :=
  match n with
  | O => []
  | S n' => Z.shiftr x 24 :: rng_tail n' (u32 (Z.shiftl x 8))
  end.
Fixpoint rng_words (n : nat) (seed : Z) : list Z * Z :=
  match n with
  | O => ([], seed)
  | S n' =>
      let '(x, s) := utils_rng_gen32 seed in
      let '(l, s') := rng_words n' s in
      ([x mod 256; (x / 256) mod 256; (x / 65536) mod 256; (x / 16777216) mod 256] ++ l, s')
  end.
Definition utils_rng_gen (seed : Z) (size : nat) : list Z * Z :=
  let '(l, s) := rng_words (size / 4) seed in
  let '(x, s') := utils_rng_gen32 s in
  (l ++ rng_tail (size mod 4) x, s').

Lemma rng_seed_range seed : 0 <= snd (utils_rng_gen32 seed) < rng_m.
Proof. cbn. apply Z.mod_pos_bound. reflexivity. Qed.

Lemma rng_value_range seed : is_u32 (fst (utils_rng_gen32 seed)).
Proof. apply u32_range. Qed.

Lemma length_rng_tail n x : length (rng_tail n x) = n.
Proof. revert x; induction n; cbn; auto. Qed.

Lemma length_rng_words n seed : length (fst (rng_words n seed)) = (4 * n)%nat.
Proof.
  revert seed. induction n as [|n IH]; intros seed; cbn [rng_words]; auto.
  destruct (utils_rng_gen32 seed) as [x s]. specialize (IH s).
  destruct (rng_words n s) as [l s']. cbn in *. lia.
Qed.

(** ** The queue manager *)

Definition FLAG_INSKIPLIST : Z := 1.
Definition FLAG_INNOLIMITL : Z := 2.
Definition SKIPLIST_LEVELS : nat := 4.
Definition SKIPLIST_BITS : Z := 3.
Definition IDXLIST_INVAL : Z := 4294967295.
Definition RNG_SEED : Z := 305419896.
Definition FLEXNIC_NUM_QMQUEUES : Z := 131072.

Definition QMAN_SET_RATE : Z := 1.
Definition QMAN_SET_MAXCHUNK : Z := 2.
Definition QMAN_SET_OPAQUE : Z := 4.
Definition QMAN_SET_AVAIL : Z := 8.
Definition QMAN_ADD_AVAIL : Z := 16.

(** ** State *)

Record queue := mk_queue
  { q_next_idxs : list Z; q_next_ts : Z; q_rate : Z; q_avail : Z;
    q_max_chunk : Z; q_opaque : Z; q_flags : Z }.
#[export] Instance eta_queue : Eta queue := fun q => mk_queue
  (q_next_idxs q) (q_next_ts q) (q_rate q) (q_avail q) (q_max_chunk q)
  (q_opaque q) (q_flags q).
Definition zero_queue : queue := mk_queue [0; 0; 0; 0] 0 0 0 0 0 0.
#[export] Instance queue_inhabited : Inhabited queue := populate zero_queue.

Record qman_thread := mk_qman_thread
  { qt_queues : gmap Z queue; qt_head_idx : list Z;
    qt_nolimit_head : Z; qt_nolimit_tail : Z;
    qt_ts_real : Z; qt_ts_virtual : Z; qt_rng : Z; qt_nolimit_first : bool }.
#[export] Instance eta_qman_thread : Eta qman_thread := fun t => mk_qman_thread
  (qt_queues t) (qt_head_idx t) (qt_nolimit_head t) (qt_nolimit_tail t)
  (qt_ts_real t) (qt_ts_virtual t) (qt_rng t) (qt_nolimit_first t).

Ltac qm_cbn :=
  cbn [q_next_idxs q_next_ts q_rate q_avail q_max_chunk q_opaque q_flags
    qt_queues qt_head_idx qt_nolimit_head qt_nolimit_tail qt_ts_real
    qt_ts_virtual qt_rng qt_nolimit_first upd] in *.

Definition qget (t : qman_thread) (i : Z) : queue := qt_queues t !!! i.
Definition qset (t : qman_thread) (i : Z) (q : queue) : qman_thread :=
  t <| qt_queues := <[i := q]> (qt_queues t) |>.
Definition nidx (l : list Z) (k : nat) : Z := l !!! k.

(** A fired queue: id, bytes and opaque value. *)
Record fired := mk_fired { f_id : Z; f_bytes : Z; f_opaque : Z }.

(** ** Time *)

(** [rel_time]: 64-bit arithmetic on 32-bit timestamps. *)
Definition rel_time (cur_ts ts_in : Z) : Z :=
  let middle := 2147483648 in
  let mask := 4294967295 in
  if cur_ts <? middle then
    let start := Z.land (u64 (cur_ts - middle)) mask in
    if (start <=? ts_in) && (ts_in <? 4294967296)
    then s64 (u64 (u64 (ts_in - start) - middle))
    else s64 (u64 (ts_in - cur_ts))
  else if cur_ts =? middle then s64 (u64 (ts_in - cur_ts))
  else
    let end_ := u64 (Z.land (u64 (cur_ts + middle)) mask + 1) in
    if (0 <=? cur_ts) && (ts_in <? end_)
    then s64 (u64 (ts_in + u64 (4294967296 - cur_ts)))
    else s64 (u64 (ts_in - cur_ts)).

Definition timestamp_lessthaneq (t : qman_thread) (a b : Z) : bool :=
  rel_time (qt_ts_virtual t) a <=? rel_time (qt_ts_virtual t) b.

(** [queue_new_ts]: virtual time at which [bytes] bytes are paid for. *)
Definition queue_new_ts (t : qman_thread) (q : queue) (bytes : Z) : Z :=
  u32 (qt_ts_virtual t + u64 (bytes * 8 * 1000000) / q_rate q).

(** [__builtin_ffs]: 1 + the index of the lowest set bit, 0 for 0. *)
Fixpoint ffs_from (n : nat) (i x : Z) : Z :=
  match n with
  | O => 0
  | S n' => if Z.testbit x i then i + 1 else ffs_from n' (i + 1) x
  end.
Definition ffs32 (x : Z) : Z := ffs_from 32 0 x.

Definition queue_level (t : qman_thread) : nat * qman_thread :=
  let '(r, seed) := utils_rng_gen32 (qt_rng t) in
  let x := u8 (Z.quot (ffs32 r - 1) SKIPLIST_BITS) in
  (if x <? Z.of_nat SKIPLIST_LEVELS then Z.to_nat x else (SKIPLIST_LEVELS - 1)%nat,
   t <| qt_rng := seed |>).

(** ** Activation *)

Definition in_no_list (q : queue) : bool :=
  Z.land (q_flags q) (Z.lor FLAG_INSKIPLIST FLAG_INNOLIMITL) =? 0.

Definition queue_activate_nolimit (t : qman_thread) (idx : Z) : outcome qman_thread :=
  let q := qget t idx in
  let! _ := assert_ (in_no_list q) in
  let q := q <| q_flags := Z.lor (q_flags q) FLAG_INNOLIMITL |>
             <| q_next_idxs := <[0%nat := IDXLIST_INVAL]> (q_next_idxs q) |> in
  let t := qset t idx q in
  if qt_nolimit_tail t =? IDXLIST_INVAL then
    Ok (t <| qt_nolimit_head := idx |> <| qt_nolimit_tail := idx |>)
  else
    let tail := qt_nolimit_tail t in
    let q_tail := qget t tail in
    let t := qset t tail (q_tail <| q_next_idxs := <[0%nat := idx]> (q_next_idxs q_tail) |>) in
    Ok (t <| qt_nolimit_tail := idx |>).

(** The inner loop of the predecessor search at level [l]. *)
Fixpoint skip_walk (fuel : nat) (t : qman_thread) (l : nat) (ts pred idx : Z) : outcome Z :=
  match fuel with
  | O => Spin
  | S fuel' =>
    if negb (idx =? IDXLIST_INVAL) && timestamp_lessthaneq t (q_next_ts (qget t idx)) ts
    then skip_walk fuel' t l ts idx (nidx (q_next_idxs (qget t idx)) l)
    else Ok pred
  end.

(** Predecessors for levels [l-1 .. 0], top-down. *)
Fixpoint find_preds (fuel : nat) (t : qman_thread) (ts : Z) (l : nat) (pred : Z)
    : outcome (list Z) :=
  match l with
  | O => Ok []
  | S l' =>
    let idx := if negb (pred =? IDXLIST_INVAL) then pred else nidx (qt_head_idx t) l' in
    let! pred := skip_walk fuel t l' ts pred idx in
    let! rest := find_preds fuel t ts l' pred in
    Ok (rest ++ [pred])
  end.

(** Link queue [q_idx] behind [preds] on levels [l-1 .. 0]. *)
Fixpoint skip_insert (t : qman_thread) (q_idx : Z) (preds : list Z) (level l : nat)
    : qman_thread :=
  match l with
  | O => t
  | S l' =>
    let q := qget t q_idx in
    let t :=
      if (level <? l')%nat then
        qset t q_idx (q <| q_next_idxs := <[l' := IDXLIST_INVAL]> (q_next_idxs q) |>)
      else
        let idx := nidx preds l' in
        if negb (idx =? IDXLIST_INVAL) then
          let t := qset t q_idx
            (q <| q_next_idxs := <[l' := nidx (q_next_idxs (qget t idx)) l']> (q_next_idxs q) |>) in
          let p := qget t idx in
          qset t idx (p <| q_next_idxs := <[l' := q_idx]> (q_next_idxs p) |>)
        else
          let t := qset t q_idx
            (q <| q_next_idxs := <[l' := nidx (qt_head_idx t) l']> (q_next_idxs q) |>) in
          t <| qt_head_idx := <[l' := q_idx]> (qt_head_idx t) |>
    in skip_insert t q_idx preds level l'
  end.

(** The timestamp a queue is entered with: not in the past and not later than
    after sending one chunk at the current rate. *)
Definition clamp_ts (t : qman_thread) (q : queue) : Z :=
  let ts := q_next_ts q in
  let max_ts := queue_new_ts t q (q_max_chunk q) in
  if timestamp_lessthaneq t ts (qt_ts_virtual t) then qt_ts_virtual t
  else if negb (timestamp_lessthaneq t ts max_ts) then max_ts
  else ts.

Definition queue_activate_skiplist (fuel : nat) (t : qman_thread) (q_idx : Z)
    : outcome qman_thread :=
  let q := qget t q_idx in
  let! _ := assert_ (in_no_list q) in
  let ts := clamp_ts t q in
  let t := qset t q_idx (q <| q_next_ts := ts |>) in
  let! preds := find_preds fuel t ts SKIPLIST_LEVELS IDXLIST_INVAL in
  let '(level, t) := queue_level t in
  let t := skip_insert t q_idx preds level SKIPLIST_LEVELS in
  let q := qget t q_idx in
  Ok (qset t q_idx (q <| q_flags := Z.lor (q_flags q) FLAG_INSKIPLIST |>)).

Definition queue_activate (fuel : nat) (t : qman_thread) (idx : Z) : outcome qman_thread :=
  if q_rate (qget t idx) =? 0 then queue_activate_nolimit t idx
  else queue_activate_skiplist fuel t idx.

(** ** Firing and polling *)

Definition queue_fire (fuel : nat) (t : qman_thread) (idx : Z)
    : outcome (qman_thread * fired) :=
  let q := qget t idx in
  let! _ := assert_ (0 <? q_avail q) in
  let bytes := if q_avail q <=? q_max_chunk q then q_avail q else q_max_chunk q in
  let q := q <| q_avail := u32 (q_avail q - bytes) |> in
  let q := if 0 <? q_rate q then q <| q_next_ts := queue_new_ts t q bytes |> else q in
  let t := qset t idx q in
  let! t := if 0 <? q_avail q then queue_activate fuel t idx else Ok t in
  Ok (t, mk_fired idx (u16 bytes) (q_opaque (qget t idx))).

(** The head of the no-limit list is taken off it. *)
Definition nolimit_pop (t : qman_thread) : qman_thread :=
  let idx := qt_nolimit_head t in
  let q := qget t idx in
  let next := nidx (q_next_idxs q) 0 in
  let t := t <| qt_nolimit_head := next |> in
  let t := if next =? IDXLIST_INVAL then t <| qt_nolimit_tail := IDXLIST_INVAL |> else t in
  qset t idx (q <| q_flags := Z.land (q_flags q) (Z.lnot FLAG_INNOLIMITL) |>).

Fixpoint poll_nolimit (fuel : nat) (t : qman_thread) (num : nat)
    : outcome (qman_thread * list fired) :=
  match fuel with
  | O => Spin
  | S fuel' =>
    match num with
    | O => Ok (t, [])
    | S num' =>
      if qt_nolimit_head t =? IDXLIST_INVAL then Ok (t, [])
      else
        let idx := qt_nolimit_head t in
        let t := nolimit_pop t in
        if 0 <? q_avail (qget t idx) then
          let! (t, f) := queue_fire fuel t idx in
          let! (t, fs) := poll_nolimit fuel' t num' in
          Ok (t, f :: fs)
        else poll_nolimit fuel' t num
    end
  end.

(** [for (l = 0; l < SKIPLIST_LEVELS && t->head_idx[l] == idx; l++)] *)
Fixpoint skip_unlink (t : qman_thread) (q : queue) (idx : Z) (l n : nat) : qman_thread :=
  match n with
  | O => t
  | S n' =>
    if nidx (qt_head_idx t) l =? idx
    then skip_unlink (t <| qt_head_idx := <[l := nidx (q_next_idxs q) l]> (qt_head_idx t) |>)
           q idx (S l) n'
    else t
  end.

(** The loop of [poll_skiplist]; the boolean says whether it left through one
    of the two [break]s. *)
Fixpoint poll_skiplist_loop (fuel : nat) (t : qman_thread) (max_vts : Z) (num : nat)
    : outcome (qman_thread * list fired) :=
  match fuel with
  | O => Spin
  | S fuel' =>
    match num with
    | O => Ok (t, [])
    | S num' =>
      let idx := nidx (qt_head_idx t) 0 in
      if idx =? IDXLIST_INVAL then Ok (t <| qt_ts_virtual := max_vts |>, [])
      else
        let q := qget t idx in
        if negb (timestamp_lessthaneq t (q_next_ts q) max_vts)
        then Ok (t <| qt_ts_virtual := max_vts |>, [])
        else
          let t := skip_unlink t q idx 0 SKIPLIST_LEVELS in
          let! _ := assert_ (negb (Z.land (q_flags q) FLAG_INSKIPLIST =? 0)) in
          let t := qset t idx (q <| q_flags := Z.land (q_flags q) (Z.lnot FLAG_INSKIPLIST) |>) in
          let t := t <| qt_ts_virtual := q_next_ts q |> in
          if 0 <? q_avail q then
            let! (t, f) := queue_fire fuel t idx in
            let! (t, fs) := poll_skiplist_loop fuel' t max_vts num' in
            Ok (t, f :: fs)
          else poll_skiplist_loop fuel' t max_vts num
    end
  end.

Definition poll_skiplist (fuel : nat) (t : qman_thread) (cur_ts : Z) (num : nat)
    : outcome (qman_thread * list fired) :=
  let max_vts := u32 (qt_ts_virtual t + u32 (cur_ts - qt_ts_real t)) in
  let! (t, fs) := poll_skiplist_loop fuel t max_vts num in
  let t :=
    if (length fs =? num)%nat then
      let idx := nidx (qt_head_idx t) 0 in
      if negb (idx =? IDXLIST_INVAL) &&
         timestamp_lessthaneq t (q_next_ts (qget t idx)) max_vts
      then t <| qt_ts_virtual := q_next_ts (qget t idx) |>
      else t <| qt_ts_virtual := max_vts |>
    else t in
  Ok (t <| qt_ts_real := cur_ts |>, fs).

(** ** Interface *)

(** [qman_thread_init] once its allocations succeeded; [ts] is [timestamp()].
    Core ids are below 8, so the seed expression does not overflow an int. *)
Definition qman_thread_init (id ts : Z) : qman_thread :=
  mk_qman_thread ∅ [IDXLIST_INVAL; IDXLIST_INVAL; IDXLIST_INVAL; IDXLIST_INVAL]
    IDXLIST_INVAL IDXLIST_INVAL ts 0 (utils_rng_init (RNG_SEED * id + id)) false.

Definition set_impl (fuel : nat) (t : qman_thread) (idx rate avail max_chunk opaque flags : Z)
    : outcome qman_thread :=
  let q := qget t idx in
  let has f := negb (Z.land flags f =? 0) in
  let q := if has QMAN_SET_RATE then q <| q_rate := rate |> else q in
  let q := if has QMAN_SET_MAXCHUNK then q <| q_max_chunk := max_chunk |> else q in
  let q := if has QMAN_SET_OPAQUE then q <| q_opaque := opaque |> else q in
  let '(q, new_avail) :=
    if has QMAN_SET_AVAIL then (q <| q_avail := avail |>, true)
    else if has QMAN_ADD_AVAIL then (q <| q_avail := u32 (q_avail q + avail) |>, true)
    else (q, false) in
  let t := qset t idx q in
  if new_avail && (0 <? q_avail q) && in_no_list q then queue_activate fuel t idx else Ok t.

(** [qman_set]: the return value and the new state. *)
Definition qman_set (fuel : nat) (t : qman_thread) (id rate avail max_chunk opaque flags : Z)
    : outcome (Z * qman_thread) :=
  if FLEXNIC_NUM_QMQUEUES <=? id then Ok (-1, t)
  else let! t := set_impl fuel t id rate avail max_chunk opaque flags in Ok (0, t).

Definition qman_poll (fuel : nat) (t : qman_thread) (ts : Z) (num : nat)
    : outcome (qman_thread * list fired) :=
  let! (t, fs) :=
    if qt_nolimit_first t then
      let! (t, x) := poll_nolimit fuel t num in
      let! (t, y) := poll_skiplist fuel t ts (num - length x) in
      Ok (t, x ++ y)
    else
      let! (t, x) := poll_skiplist fuel t ts num in
      let! (t, y) := poll_nolimit fuel t (num - length x) in
      Ok (t, x ++ y) in
  Ok (t <| qt_nolimit_first := negb (qt_nolimit_first t) |>, fs).

(** [qman_next_ts]: microseconds until the next queue may fire; [ts] is
    [timestamp()]. *)
Definition qman_next_ts (t : qman_thread) (ts : Z) : Z :=
  let ret_ts := u32 (qt_ts_virtual t + u32 (ts - qt_ts_real t)) in
  if negb (qt_nolimit_head t =? IDXLIST_INVAL) then 0
  else
    let idx := nidx (qt_head_idx t) 0 in
    if negb (idx =? IDXLIST_INVAL) then
      let q := qget t idx in
      if timestamp_lessthaneq t (q_next_ts q) ret_ts then 0
      else u32 (Z.quot (rel_time ret_ts (q_next_ts q)) 1000)
    else u32 (-1).

(** [qman_timestamp]: TSC cycles to microseconds at frequency [freq]. *)
Definition qman_timestamp (freq cycles : Z) : Z := u32 (u64 (cycles * 1000000) / freq).

(** ** Basic lemmas *)

Lemma qget_qset_eq t i q : qget (qset t i q) i = q.
Proof. unfold qget, qset; qm_cbn. apply lookup_total_insert_eq. Qed.

Lemma qget_qset_ne t i j q : i <> j -> qget (qset t i q) j = qget t j.
Proof. intros. unfold qget, qset; qm_cbn. apply lookup_total_insert_ne; auto. Qed.

Lemma qget_qset t i j q : qget (qset t i q) j = if decide (i = j) then q else qget t j.
Proof.
  destruct (decide (i = j)) as [<-|]; [apply qget_qset_eq | apply qget_qset_ne; auto].
Qed.

Lemma in_no_list_bits q :
  in_no_list q = true <-> Z.testbit (q_flags q) 0 = false /\ Z.testbit (q_flags q) 1 = false.
Proof.
  unfold in_no_list. rewrite Z.eqb_eq. change (Z.lor _ _) with 3. split.
  - intros E. split.
    + apply (f_equal (fun x => Z.testbit x 0)) in E. rewrite Z.land_spec in E.
      change (Z.testbit 3 0) with true in E. rewrite andb_true_r in E. exact E.
    + apply (f_equal (fun x => Z.testbit x 1)) in E. rewrite Z.land_spec in E.
      change (Z.testbit 3 1) with true in E. rewrite andb_true_r in E. exact E.
  - intros [E0 E1]. apply Z.bits_inj'. intros n Hn. rewrite Z.land_spec, Z.bits_0.
    destruct (Z.eq_dec n 0) as [->|]; [rewrite E0; auto|].
    destruct (Z.eq_dec n 1) as [->|]; [rewrite E1; auto|].
    change 3 with (Z.ones 2). rewrite Z.ones_spec_high by lia. apply andb_false_r.
Qed.

(** The fields of a queue that scheduling never changes behind the caller's
    back. *)
Definition cfg (q : queue) : Z * Z * Z * Z := (q_avail q, q_rate q, q_max_chunk q, q_opaque q).
Definition same_cfg (t t' : qman_thread) : Prop := forall i, cfg (qget t' i) = cfg (qget t i).

#[export] Instance same_cfg_preorder : PreOrder same_cfg.
Proof. split; [intros t i; reflexivity | intros a b c H1 H2 i; rewrite H2; apply H1]. Qed.

Lemma same_cfg_qset t i q : cfg q = cfg (qget t i) -> same_cfg t (qset t i q).
Proof. intros E j. rewrite qget_qset. destruct (decide (i = j)) as [<-|]; auto. Qed.

Lemma same_cfg_queues t t' : qt_queues t' = qt_queues t -> same_cfg t t'.
Proof. intros E i. unfold qget. rewrite E. reflexivity. Qed.

Lemma same_cfg_ins t t' i q :
  qt_queues t' = <[i := q]> (qt_queues t) -> cfg q = cfg (qget t i) -> same_cfg t t'.
Proof.
  intros E Hq. etransitivity; [apply (same_cfg_qset t i q Hq) | apply same_cfg_queues, E].
Qed.

Lemma activate_nolimit_cfg t idx t' :
  queue_activate_nolimit t idx = Ok t' -> same_cfg t t'.
Proof.
  unfold queue_activate_nolimit. destruct (in_no_list _); cbn [assert_ obind]; [|discriminate].
  set (q := upd _ (upd _ (qget t idx))). set (t1 := qset t idx q).
  assert (H1 : same_cfg t t1) by (apply same_cfg_qset; reflexivity).
  destruct (qt_nolimit_tail t1 =? IDXLIST_INVAL); intros E; injection E as <-.
  - etransitivity; [apply H1 | apply same_cfg_queues; reflexivity].
  - etransitivity; [apply H1|].
    eapply same_cfg_ins; [reflexivity | reflexivity].
Qed.

Lemma skip_insert_cfg t q_idx preds level l : same_cfg t (skip_insert t q_idx preds level l).
Proof.
  revert t. induction l as [|l IH]; intros t; cbn [skip_insert]; [reflexivity|].
  etransitivity; [|apply IH].
  destruct (level <? l)%nat; [apply same_cfg_qset; reflexivity|].
  destruct (negb (nidx preds l =? IDXLIST_INVAL)).
  - set (t1 := qset t q_idx (upd _ (qget t q_idx))). transitivity t1;
      eapply same_cfg_ins; reflexivity.
  - eapply same_cfg_ins; [reflexivity | reflexivity].
Qed.

Lemma activate_cfg fuel t idx t' : queue_activate fuel t idx = Ok t' -> same_cfg t t'.
Proof.
  unfold queue_activate. destruct (_ =? 0); [apply activate_nolimit_cfg|].
  unfold queue_activate_skiplist. intros E. bind_inv E.
  match type of E with context [queue_level ?x] => set (t1 := x) in * end.
  assert (H1 : same_cfg t t1) by (apply same_cfg_qset; reflexivity). clearbody t1.
  destruct (queue_level t1) as [level t2] eqn:EL.
  assert (H2 : same_cfg t1 t2).
  { unfold queue_level in EL. destruct (utils_rng_gen32 _). injection EL as _ <-.
    apply same_cfg_queues; reflexivity. }
  pose proof (skip_insert_cfg t2 idx a0 level SKIPLIST_LEVELS) as H3.
  revert E H3. generalize (skip_insert t2 idx a0 level SKIPLIST_LEVELS). intros t3 E H3.
  injection E as <-.
  transitivity t1; [auto|]. transitivity t2; [auto|]. transitivity t3; [auto|].
  eapply same_cfg_ins; reflexivity.
Qed.

(** ** Time stamps *)

(** [rel_time] is the signed distance between two 32-bit time stamps: it
    is congruent to their difference and lies within half the range. *)
Theorem rel_time_spec cur ts :
  is_u32 cur -> is_u32 ts ->
  -2147483648 <= rel_time cur ts <= 2147483648 /\
  (rel_time cur ts - (ts - cur)) mod 4294967296 = 0 /\
  (ts = u32 (cur + rel_time cur ts)).
Proof.
  intros Hc Ht. unfold rel_time, is_u32 in *.
  change 4294967295 with (Z.ones 32). rewrite !Z.land_ones by lia.
  change (2 ^ 32) with 4294967296.
  assert (S : forall x k, -9223372036854775808 <= x - k * 18446744073709551616 < 9223372036854775808 ->
            s64 (u64 x) = x - k * 18446744073709551616).
  { intros x k Hx. unfold s64. rewrite (u64_small (u64 x)) by apply u64_range.
    assert (E : u64 x = x - k * 18446744073709551616 \/
                u64 x = x - (k - 1) * 18446744073709551616).
    { destruct (Z.ltb_spec (x - k * 18446744073709551616) 0); [right|left];
        symmetry; [apply (Z.mod_unique_pos _ _ (k - 1)) | apply (Z.mod_unique_pos _ _ k)]; lia. }
    pose proof (u64_range x). destruct (Z.ltb_spec (u64 x) 9223372036854775808); lia. }
  assert (K : forall a b c, -4294967296 <= a - b - c <= 4294967296 ->
            s64 (u64 (u64 (a - b) - c)) = a - b - c).
  { intros a b c Hx. replace (u64 (u64 (a - b) - c)) with (u64 (a - b - c)).
    - rewrite (S _ 0); lia.
    - unfold u64. rewrite Zminus_mod_idemp_l. reflexivity. }
  assert (E1 : forall r, (exists k, r = ts - cur + k * 4294967296) ->
    -2147483648 <= r <= 2147483648 ->
    -2147483648 <= r <= 2147483648 /\ (r - (ts - cur)) mod 4294967296 = 0 /\ ts = u32 (cur + r)).
  { intros r [k Hk] Hr. repeat split; try lia.
    - subst r. replace (ts - cur + k * 4294967296 - (ts - cur)) with (k * 4294967296) by lia.
      apply Z.mod_mul; lia.
    - unfold u32. apply (Z.mod_unique_pos _ _ k); lia. }
  destruct (Z.ltb_spec cur 2147483648) as [H|H].
  - assert (E : u64 (cur - 2147483648) mod 4294967296 = cur + 2147483648).
    { unfold u64. rewrite Z.mod_mod_divide by (exists 4294967296; reflexivity).
      symmetry. apply (Z.mod_unique_pos _ _ (-1)); lia. }
    rewrite E. destruct (Z.leb_spec (cur + 2147483648) ts); cbn [andb].
    + rewrite (proj2 (Z.ltb_lt _ _)) by lia. rewrite K by lia. apply E1; [exists (-1); lia | lia].
    + rewrite (S _ 0) by lia. apply E1; [exists 0; lia | lia].
  - destruct (Z.eqb_spec cur 2147483648) as [->|].
    + rewrite (S _ 0) by lia. apply E1; [exists 0; lia | lia].
    + rewrite (u64_small (cur + 2147483648)) by lia.
      assert (E : (cur + 2147483648) mod 4294967296 = cur - 2147483648)
        by (symmetry; apply (Z.mod_unique_pos _ _ 1); lia).
      rewrite E, (u64_small (cur - 2147483648 + 1)), (proj2 (Z.leb_le 0 cur)) by lia. cbn [andb].
      destruct (Z.ltb_spec ts (cur - 2147483648 + 1)).
      * rewrite (u64_small (4294967296 - cur)) by lia. rewrite (S _ 0) by lia.
        apply E1; [exists 1; lia | lia].
      * rewrite (S _ 0) by lia. apply E1; [exists 0; lia | lia].
Qed.

(** ** Firing *)

Lemma queue_fire_effect fuel t idx t' f :
  is_u32 (q_avail (qget t idx)) -> is_u16 (q_max_chunk (qget t idx)) ->
  queue_fire fuel t idx = Ok (t', f) ->
  f_id f = idx /\ f_opaque f = q_opaque (qget t idx) /\
  f_bytes f = Z.min (q_avail (qget t idx)) (q_max_chunk (qget t idx)) /\
  q_avail (qget t' idx) + f_bytes f = q_avail (qget t idx) /\
  (forall j, j <> idx -> cfg (qget t' j) = cfg (qget t j)).
Proof.
  intros Ha Hm. unfold queue_fire. set (q := qget t idx) in *.
  destruct (Z.ltb_spec 0 (q_avail q)) as [Hp|]; cbn [assert_ obind]; [|discriminate].
  set (bytes := if q_avail q <=? q_max_chunk q then q_avail q else q_max_chunk q).
  assert (Hb : bytes = Z.min (q_avail q) (q_max_chunk q)) by (subst bytes; bsplit; lia).
  clearbody bytes.
  set (q1 := upd _ q). set (q2 := if 0 <? q_rate q1 then _ else q1).
  assert (Eq2 : cfg q2 = (q_avail q - bytes, q_rate q, q_max_chunk q, q_opaque q)).
  { subst q2. assert (E1 : cfg q1 = (q_avail q - bytes, q_rate q, q_max_chunk q, q_opaque q)).
    { unfold cfg; subst q1; qm_cbn. rewrite u32_small by mlia. reflexivity. }
    destruct (0 <? q_rate q1); [rewrite <- E1; reflexivity | exact E1]. }
  clearbody q2. clear q1. unfold cfg in Eq2. injection Eq2 as EA ER EM EO.
  intros E. bind_inv E. injection E as <- <-. cbn [f_id f_opaque f_bytes].
  assert (HC : same_cfg (qset t idx q2) a).
  { destruct (0 <? q_avail q2); [eapply activate_cfg; eauto | injection E0 as <-; reflexivity]. }
  pose proof (HC idx) as HCi. rewrite qget_qset_eq in HCi. unfold cfg in HCi.
  injection HCi as CA CR CM CO. rewrite CO, CA, EO, EA, u16_small by mlia.
  repeat split; try lia.
  intros j Hj. rewrite HC, qget_qset_ne; auto.
Qed.

(** A firing queue hands out the smaller of its backlog and its chunk
    size, exactly these bytes leave its backlog, and no other queue's backlog,
    rate or chunk size changes. *)
Theorem queue_fire_conserves fuel t idx t' f :
  is_u32 (q_avail (qget t idx)) -> is_u16 (q_max_chunk (qget t idx)) ->
  queue_fire fuel t idx = Ok (t', f) ->
  f_id f = idx /\ f_opaque f = q_opaque (qget t idx) /\
  f_bytes f = Z.min (q_avail (qget t idx)) (q_max_chunk (qget t idx)) /\
  q_avail (qget t' idx) + f_bytes f = q_avail (qget t idx) /\
  (forall j, j <> idx -> cfg (qget t' j) = cfg (qget t j)).
Proof. exact (queue_fire_effect fuel t idx t' f). Qed.

(** ** The list of queues without a rate *)

Definition ptr (i : Z) : option Z := if i =? IDXLIST_INVAL then None else Some i.
Definition next0 (t : qman_thread) (i : Z) : option Z :=
  ptr (nidx (q_next_idxs (qget t i)) 0).
Definition in_nolimit (q : queue) : bool := Z.testbit (q_flags q) 1.
Definition in_skiplist (q : queue) : bool := Z.testbit (q_flags q) 0.

(** The no-limit list holds exactly the queues [l], in this order. *)
Record nolimit_rep (t : qman_thread) (l : list Z) : Prop := mk_nolimit_rep
  { nl_chain : chain (next0 t) (ptr (qt_nolimit_head t)) l None;
    nl_tail : qt_nolimit_tail t = default IDXLIST_INVAL (last l);
    nl_nodup : NoDup l;
    nl_flag : forall i, i ∈ l <-> in_nolimit (qget t i) = true;
    nl_skip : forall i, i ∈ l -> in_skiplist (qget t i) = false;
    nl_valid : forall i, i ∈ l -> i <> IDXLIST_INVAL;
    nl_levels : forall i, length (q_next_idxs (qget t i)) = SKIPLIST_LEVELS }.

Lemma ptr_valid i : i <> IDXLIST_INVAL -> ptr i = Some i.
Proof. intros. unfold ptr. rewrite (proj2 (Z.eqb_neq _ _)); auto. Qed.

Lemma nidx_insert_0 l x : length l = SKIPLIST_LEVELS -> nidx (<[0%nat := x]> l) 0 = x.
Proof. destruct l; cbn; [discriminate | reflexivity]. Qed.

Lemma last_default_inval l (d : Z) :
  (forall i, i ∈ l -> i <> d) -> default d (last l) = d -> l = [].
Proof.
  destruct l as [|x l] using rev_ind; auto. rewrite last_snoc. cbn.
  intros H E. exfalso. apply (H x); auto. set_solver.
Qed.

Lemma set_nolimit_bits f :
  Z.testbit (Z.lor f FLAG_INNOLIMITL) 1 = true /\
  Z.testbit (Z.lor f FLAG_INNOLIMITL) 0 = Z.testbit f 0.
Proof. rewrite !Z.lor_spec. cbn. rewrite orb_true_r, orb_false_r. auto. Qed.

Lemma clear_nolimit_bits f :
  Z.testbit (Z.land f (Z.lnot FLAG_INNOLIMITL)) 1 = false /\
  Z.testbit (Z.land f (Z.lnot FLAG_INNOLIMITL)) 0 = Z.testbit f 0.
Proof. rewrite !Z.land_spec. cbn. rewrite andb_false_r, andb_true_r. auto. Qed.

(** Activating an idle queue without a rate appends it to the no-limit
    list. *)
Lemma activate_nolimit_appends t l idx :
  nolimit_rep t l -> in_no_list (qget t idx) = true -> idx <> IDXLIST_INVAL ->
  exists t', queue_activate_nolimit t idx = Ok t' /\ nolimit_rep t' (l ++ [idx]).
Proof.
  intros R Hin Hv. pose proof Hin as Hb. apply in_no_list_bits in Hb as [Hb0 Hb1].
  assert (Hl : idx ∉ l) by (rewrite (nl_flag t l R); unfold in_nolimit; congruence).
  unfold queue_activate_nolimit. rewrite Hin. cbn [assert_ obind].
  set (q := upd _ (upd _ (qget t idx))). set (t1 := qset t idx q).
  assert (Eq : nidx (q_next_idxs q) 0 = IDXLIST_INVAL)
    by (subst q; qm_cbn; apply nidx_insert_0, (nl_levels t l R)).
  assert (Fq : in_nolimit q = true /\ in_skiplist q = false).
  { subst q; unfold in_nolimit, in_skiplist; qm_cbn.
    destruct (set_nolimit_bits (q_flags (qget t idx))) as [-> ->]. auto. }
  assert (Lq : length (q_next_idxs q) = SKIPLIST_LEVELS)
    by (subst q; qm_cbn; rewrite length_insert; apply (nl_levels t l R)).
  assert (Et : qt_nolimit_tail t = default IDXLIST_INVAL (last l)) by apply (nl_tail t l R).
  change (qt_nolimit_tail t1) with (qt_nolimit_tail t).
  destruct (Z.eqb_spec (qt_nolimit_tail t) IDXLIST_INVAL) as [Hnil|Hnil].
  - rewrite Et in Hnil. apply last_default_inval in Hnil; [|apply (nl_valid t l R)]. subst l.
    eexists; split; [reflexivity|]. split; cbn [app last].
    + qm_cbn. rewrite ptr_valid by auto. constructor.
      unfold next0. change (qget _ idx) with (qget t1 idx). subst t1.
      rewrite qget_qset_eq, Eq. constructor.
    + reflexivity.
    + apply NoDup_singleton.
    + intros i. change (qget _ i) with (qget t1 i). subst t1. rewrite qget_qset, list_elem_of_singleton.
      destruct (decide (idx = i)) as [<-|]; [tauto|]. rewrite <- (nl_flag t [] R). set_solver.
    + intros i Hi%list_elem_of_singleton. subst i. change (qget _ idx) with (qget t1 idx).
      subst t1. rewrite qget_qset_eq. tauto.
    + intros i Hi%list_elem_of_singleton. congruence.
    + intros i. change (qget _ i) with (qget t1 i). subst t1. rewrite qget_qset.
      destruct (decide (idx = i)); auto. apply (nl_levels t [] R).
  - destruct l as [|z l'] using rev_ind; [exfalso; apply Hnil; rewrite Et; reflexivity|]. clear IHl'.
    rewrite last_snoc in Et. cbn in Et. rewrite Et.
    assert (Hz : idx <> z) by set_solver.
    set (qz := upd _ (qget t1 z)). set (t2 := qset t1 z qz).
    assert (G : forall i, qget t2 i = if decide (z = i) then qz
                                       else if decide (idx = i) then q else qget t i).
    { intros i. subst t2. rewrite qget_qset. destruct (decide (z = i)); auto.
      subst t1. rewrite qget_qset. auto. }
    assert (Gz : qget t1 z = qget t z) by (apply qget_qset_ne; auto).
    assert (Lz : idx ∉ l') by set_solver.
    assert (Nz : z ∉ l') by (pose proof (nl_nodup _ _ R) as N; apply NoDup_app in N; set_solver).
    eexists; split; [reflexivity|]. split.
    + change (chain (next0 t2) (ptr (qt_nolimit_head t)) ((l' ++ [z]) ++ [idx]) None).
      apply chain_snoc. split.
      * eapply (chain_redirect (next0 t)); [apply (nl_chain _ _ R) | |].
        -- intros y Hy. unfold next0. rewrite G, !decide_False; auto; intros ->; auto.
        -- unfold next0. rewrite G, decide_True by auto. subst qz. qm_cbn.
           rewrite nidx_insert_0 by (rewrite Gz; apply (nl_levels _ _ R)). apply ptr_valid; auto.
      * unfold next0. rewrite G, decide_False, decide_True by auto. rewrite Eq. reflexivity.
    + rewrite last_snoc. reflexivity.
    + apply NoDup_app; split; [apply (nl_nodup _ _ R)|]. split; [set_solver | apply NoDup_singleton].
    + intros i. change (qget _ i) with (qget t2 i). rewrite G, elem_of_app, list_elem_of_singleton.
      rewrite (nl_flag _ _ R i). destruct (decide (z = i)) as [<-|].
      { change (in_nolimit qz) with (in_nolimit (qget t1 z)). rewrite Gz. intuition congruence. }
      destruct (decide (idx = i)) as [<-|]; [tauto | intuition congruence].
    + intros i. change (qget _ i) with (qget t2 i). rewrite G, elem_of_app, list_elem_of_singleton.
      intros Hi. destruct (decide (z = i)) as [<-|].
      { change (in_skiplist qz) with (in_skiplist (qget t1 z)). rewrite Gz. apply (nl_skip _ _ R). set_solver. }
      destruct (decide (idx = i)) as [<-|]; [tauto|]. destruct Hi; [apply (nl_skip _ _ R); auto | congruence].
    + intros i Hi%elem_of_app. destruct Hi as [Hi|Hi%list_elem_of_singleton]; [|congruence].
      apply (nl_valid _ _ R); auto.
    + intros i. change (qget _ i) with (qget t2 i). rewrite G.
      destruct (decide (z = i)) as [<-|]; [subst qz; qm_cbn; rewrite length_insert, Gz; apply (nl_levels _ _ R)|].
      destruct (decide (idx = i)); auto. apply (nl_levels _ _ R).
Qed.

Lemma nolimit_rep_ext t t' l :
  nolimit_rep t l ->
  qt_nolimit_head t' = qt_nolimit_head t -> qt_nolimit_tail t' = qt_nolimit_tail t ->
  (forall i, q_flags (qget t' i) = q_flags (qget t i) /\
             q_next_idxs (qget t' i) = q_next_idxs (qget t i)) ->
  nolimit_rep t' l.
Proof.
  intros [C T N F S V L] Eh Et E. split; auto.
  - rewrite Eh. eapply chain_ext; [|apply C]. intros x _. unfold next0. destruct (E x) as [_ ->]; auto.
  - congruence.
  - intros i. rewrite F. unfold in_nolimit. destruct (E i) as [-> _]; auto.
  - intros i Hi. unfold in_skiplist. destruct (E i) as [-> _]. apply S; auto.
  - intros i. destruct (E i) as [_ ->]. auto.
Qed.

Lemma nolimit_pop_rep t i l :
  nolimit_rep t (i :: l) ->
  qt_nolimit_head t = i /\ nolimit_rep (nolimit_pop t) l /\
  in_no_list (qget (nolimit_pop t) i) = true /\ same_cfg t (nolimit_pop t).
Proof.
  intros R. pose proof (nl_chain _ _ R) as C. apply chain_cons_inv in C as [Eh C].
  assert (Hi : qt_nolimit_head t = i).
  { unfold ptr in Eh. destruct (_ =? _); congruence. }
  assert (Hn : i ∉ l) by (pose proof (nl_nodup _ _ R) as N; apply NoDup_cons in N; tauto).
  unfold nolimit_pop. rewrite Hi. set (q := upd _ (qget t i)).
  set (t1 := if _ =? _ then _ else _).
  assert (Eq : forall j, qget t1 j = qget t j).
  { intros j. subst t1. destruct (_ =? _); reflexivity. }
  assert (G : forall j, qget (qset t1 i q) j = if decide (i = j) then q else qget t j).
  { intros j. rewrite qget_qset. destruct (decide (i = j)); auto. }
  destruct (clear_nolimit_bits (q_flags (qget t i))) as [B1 B0].
  assert (S0 : in_skiplist (qget t i) = false) by (apply (nl_skip _ _ R); left).
  split; auto. split; [|split].
  - split.
    + replace (qt_nolimit_head (qset t1 i q)) with (nidx (q_next_idxs (qget t i)) 0)
        by (subst t1; destruct (_ =? _); reflexivity).
      eapply chain_ext; [|apply C]. intros x Hx. unfold next0. rewrite G, decide_False; auto. congruence.
    + change (qt_nolimit_tail (qset t1 i q)) with (qt_nolimit_tail t1). subst t1.
      pose proof (nl_tail _ _ R) as T. unfold next0, ptr in C. destruct l as [|z l].
      * apply chain_nil_inv in C. destruct (_ =? _); [reflexivity | discriminate].
      * apply chain_cons_inv in C as [C _]. destruct (_ =? _); [discriminate|].
        change (qt_nolimit_tail t = default IDXLIST_INVAL (last (z :: l))). rewrite T. reflexivity.
    + pose proof (nl_nodup _ _ R) as N. apply NoDup_cons in N. tauto.
    + intros j. rewrite G. destruct (decide (i = j)) as [<-|].
      * unfold in_nolimit. subst q; qm_cbn. rewrite B1. intuition congruence.
      * rewrite <- (nl_flag _ _ R). set_solver.
    + intros j Hj. rewrite G, decide_False by congruence. apply (nl_skip _ _ R). right; auto.
    + intros j Hj. apply (nl_valid _ _ R). right; auto.
    + intros j. rewrite G. destruct (decide (i = j)) as [<-|]; apply (nl_levels _ _ R).
  - rewrite G, decide_True by auto. apply in_no_list_bits. subst q; qm_cbn.
    unfold in_skiplist in S0. rewrite B0, B1, S0. auto.
  - intros j. rewrite G. destruct (decide (i = j)) as [<-|]; reflexivity.
Qed.

(** A queue without a rate that fires goes to the back of the list if it still
    has a backlog. *)
Lemma queue_fire_nolimit fuel t l i :
  nolimit_rep t l -> in_no_list (qget t i) = true -> i <> IDXLIST_INVAL ->
  0 < q_avail (qget t i) -> is_u32 (q_avail (qget t i)) -> q_rate (qget t i) = 0 ->
  is_u16 (q_max_chunk (qget t i)) ->
  exists t' f, queue_fire fuel t i = Ok (t', f) /\
    nolimit_rep t' (if q_max_chunk (qget t i) <? q_avail (qget t i) then l ++ [i] else l).
Proof.
  intros R Hin Hv Hp Ha Hr Hm. unfold queue_fire. rewrite (proj2 (Z.ltb_lt 0 _)) by auto.
  cbn [assert_ obind]. set (bytes := if _ <=? _ then _ else _).
  qm_cbn. rewrite Hr. cbn [Z.ltb Z.compare].
  set (q := upd _ (qget t i)). set (t1 := qset t i q).
  assert (R1 : nolimit_rep t1 l).
  { eapply nolimit_rep_ext; eauto. intros j. subst t1. rewrite qget_qset.
    destruct (decide (i = j)) as [<-|]; auto. }
  assert (Gi : qget t1 i = q) by apply qget_qset_eq.
  assert (E : (0 <? u32 (q_avail (qget t i) - bytes)) =
              (q_max_chunk (qget t i) <? q_avail (qget t i))).
  { subst bytes. destruct (Z.leb_spec (q_avail (qget t i)) (q_max_chunk (qget t i)));
      rewrite u32_small by mlia; bsplit; lia. }
  change (q_avail q) with (u32 (q_avail (qget t i) - bytes)).
  rewrite E. destruct (q_max_chunk (qget t i) <? q_avail (qget t i)).
  - destruct (activate_nolimit_appends t1 l i R1) as (t' & A & R'); auto.
    { rewrite Gi. exact Hin. }
    unfold queue_activate. rewrite Gi. change (q_rate q) with (q_rate (qget t i)). rewrite Hr.
    cbn [Z.eqb]. rewrite A. cbn [obind]. eauto.
  - cbn [obind]. eauto.
Qed.

(** Scheduling order on the no-limit list: the queues at the front fire in
    order, those with a backlog beyond one chunk queue up again at the back. *)
Definition chunk_left (t : qman_thread) (i : Z) : bool :=
  q_max_chunk (qget t i) <? q_avail (qget t i).

(** C33.  Polling the no-limit list serves its queues first-in first-out: with
    [num] backlogged queues in front, exactly these fire, in list order, and
    the ones with backlog left re-enter at the back in the same order. *)
Theorem poll_nolimit_fifo fuel t l num :
  nolimit_rep t l -> (num <= length l)%nat -> (num < fuel)%nat ->
  (forall i, i ∈ take num l -> 0 < q_avail (qget t i) /\ is_u32 (q_avail (qget t i)) /\
     q_rate (qget t i) = 0 /\ is_u16 (q_max_chunk (qget t i))) ->
  exists t' fs, poll_nolimit fuel t num = Ok (t', fs) /\
    map f_id fs = take num l /\
    nolimit_rep t' (drop num l ++ filter (fun i => chunk_left t i = true) (take num l)).
Proof.
  intros R Hlen Hf H. revert fuel t l R Hlen Hf H.
  induction num as [|num IH]; intros fuel t l R Hlen Hf H.
  { destruct fuel; [lia|]. exists t, []. rewrite take_0, drop_0, filter_nil, app_nil_r. auto. }
  destruct fuel as [|fuel]; [lia|]. destruct l as [|i l]; [cbn in Hlen; lia|].
  pose proof (nolimit_pop_rep t i l R) as (Eh & R1 & Hin & SC).
  assert (Hv : i <> IDXLIST_INVAL) by (apply (nl_valid _ _ R); left).
  assert (Hni : i ∉ l) by (pose proof (nl_nodup _ _ R) as N; apply NoDup_cons in N; tauto).
  destruct (H i) as (Ha & Hu & Hr & Hm); [left|].
  pose proof (SC i) as SCi. unfold cfg in SCi. injection SCi as Ea Er Em Eo.
  set (t1 := nolimit_pop t) in *.
  destruct (queue_fire_nolimit (S fuel) t1 l i) as (t2 & f & EF & R2); rewrite ?Ea, ?Er, ?Em; auto.
  destruct (queue_fire_effect (S fuel) t1 i t2 f) as (Fi & _ & _ & _ & FO);
    rewrite ?Ea, ?Em; auto.
  assert (SO : forall j, j <> i -> cfg (qget t2 j) = cfg (qget t j)).
  { intros j Hj. rewrite FO, SC; auto. }
  rewrite Ea, Em in R2. change (q_max_chunk (qget t i) <? q_avail (qget t i)) with (chunk_left t i) in R2.
  set (l2 := if chunk_left t i then l ++ [i] else l) in *.
  cbn [length] in Hlen.
  assert (Et : take num l2 = take num l).
  { subst l2. destruct (chunk_left t i); auto. rewrite take_app_le by lia. auto. }
  destruct (IH fuel t2 l2 R2) as (t3 & fs & EP & Eid & R3); [| lia | |].
  { subst l2. destruct (chunk_left t i); rewrite ?length_app; cbn; lia. }
  { intros j Hj. rewrite Et in Hj.
    assert (Hj' : j ∈ l) by (eapply elem_of_take_in; eauto).
    assert (j <> i) by congruence.
    specialize (SO j ltac:(auto)). unfold cfg in SO. injection SO as -> -> -> _.
    apply H. cbn [take]. right; auto. }
  exists t3, (f :: fs). split; [|split].
  - cbn [poll_nolimit]. rewrite Eh, (proj2 (Z.eqb_neq _ _)) by auto. fold t1.
    rewrite Ea, (proj2 (Z.ltb_lt _ _)) by auto.
    change (queue_fire (S fuel) t1 i) with (queue_fire (S fuel) t1 i). rewrite EF. cbn [obind]. rewrite EP. reflexivity.
  - cbn. rewrite Fi, Eid, Et. auto.
  - rewrite Et in R3. cbn [drop take]. rewrite filter_cons.
    rewrite (filter_ext_in (fun j => chunk_left t2 j = true) (fun j => chunk_left t j = true)) in R3.
    2:{ intros j Hj. apply elem_of_take_in in Hj. specialize (SO j ltac:(congruence)).
        unfold cfg in SO. injection SO as A _ M _. unfold chunk_left. rewrite A, M. tauto. }
    subst l2. destruct (chunk_left t i).
    + rewrite decide_True by auto. rewrite drop_app_le in R3 by lia.
      rewrite <- app_assoc in R3. exact R3.
    + rewrite decide_False by discriminate. exact R3.
Qed.

(** ** Polls respect the caller's limit *)

Lemma poll_nolimit_length fuel t num t' l :
  poll_nolimit fuel t num = Ok (t', l) -> (length l <= num)%nat.
Proof.
  revert t num t' l. induction fuel as [|fuel IH]; intros t num t' l; cbn [poll_nolimit]; [discriminate|].
  destruct num as [|num]; [intros [= <- <-]; cbn; lia|].
  destruct (_ =? _); [intros [= <- <-]; cbn; lia|].
  destruct (0 <? _); [|apply IH].
  intros E. apply obind_ok in E as ([t1 f] & _ & E). apply obind_ok in E as ([t2 fs] & E2 & E).
  apply IH in E2. injection E as <- <-. cbn. lia.
Qed.

Lemma poll_skiplist_length fuel t ts num t' l :
  poll_skiplist fuel t ts num = Ok (t', l) -> (length l <= num)%nat.
Proof.
  assert (L : forall fuel t m num t' l, poll_skiplist_loop fuel t m num = Ok (t', l) -> (length l <= num)%nat).
  { clear. induction fuel as [|fuel IH]; intros t m num t' l; cbn [poll_skiplist_loop]; [discriminate|].
    destruct num as [|num]; [intros [= <- <-]; cbn; lia|].
    destruct (_ =? _); [intros [= <- <-]; cbn; lia|].
    destruct (negb _); [intros [= <- <-]; cbn; lia|]. intros E.
    apply obind_ok in E as (_ & _ & E). destruct (0 <? _); [|eapply IH; exact E].
    apply obind_ok in E as ([t1 f] & _ & E). apply obind_ok in E as ([t2 fs] & E2 & E).
    apply IH in E2. injection E as <- <-. cbn. lia. }
  unfold poll_skiplist. intros E. apply obind_ok in E as ([t1 fs] & E1 & E).
  injection E as _ <-. eauto.
Qed.

Lemma qman_poll_length fuel t ts num t' l :
  qman_poll fuel t ts num = Ok (t', l) -> (length l <= num)%nat.
Proof.
  unfold qman_poll. intros E. apply obind_ok in E as ([t1 fs] & E1 & E). injection E as _ <-.
  destruct (qt_nolimit_first t); apply obind_ok in E1 as ([t2 x] & E2 & E1);
    apply obind_ok in E1 as ([t3 y] & E3 & E1); injection E1 as _ <-; rewrite length_app.
  - apply poll_nolimit_length in E2. apply poll_skiplist_length in E3. lia.
  - apply poll_skiplist_length in E2. apply poll_nolimit_length in E3. lia.
Qed.
