(* ===== verification/Dma.v ===== *)
(** DMA memory: flexnic/dma.c (validated accesses to the shared region).

    The region is a map from offsets to bytes; bytes never written are the
    zeroes [util_create_shmsiszed] fills it with. *)
From stdpp Require Import base numbers list gmap.
From Stdlib Require Import ZArith Lia.
From S2P Require Import Prelude.

Definition FLEXNIC_DMA_MEM_SIZE : Z := 1073741824.

Abbreviation mem := (gmap Z Z).

Definition mem_byte (m : mem) (a : Z) : Z := default 0 (m !! a).

Fixpoint mem_read (m : mem) (a : Z) (n : nat) : list Z :=
  match n with
  | O => []
  | S n' => mem_byte m a :: mem_read m (a + 1) n'
  end.

Fixpoint mem_write (m : mem) (a : Z) (bs : list Z) : mem :=
  match bs with
  | [] => m
  | b :: bs' => <[a := b]> (mem_write m (a + 1) bs')
  end.

(** The bounds check shared by [dma_read], [dma_write] and [dma_pointer]:
    64-bit addition, both for the overflow test and the range test. *)
Definition dma_valid (addr len : Z) : bool :=
  negb ((u64 (addr + len) <? addr) || (FLEXNIC_DMA_MEM_SIZE <? u64 (addr + len))).

Definition dma_read (m : mem) (addr len : Z) : option (list Z) :=
  if dma_valid addr len then Some (mem_read m addr (Z.to_nat len)) else None.

Definition dma_write (m : mem) (addr : Z) (bs : list Z) : option mem :=
  if dma_valid addr (Z.of_nat (length bs)) then Some (mem_write m addr bs) else None.

Definition dma_pointer (addr len : Z) : option Z :=
  if dma_valid addr len then Some addr else None.

(** Little-endian words in memory. *)
Definition le_bytes (n : nat) (x : Z) : list Z :=
  map (fun i => (x / 256 ^ Z.of_nat i) mod 256) (seq 0 n).
Definition le32_at (m : mem) (a : Z) : Z :=
  mem_byte m a + mem_byte m (a + 1) * 256 + mem_byte m (a + 2) * 65536 +
  mem_byte m (a + 3) * 16777216.

(** [n] bytes of a packet buffer from offset [off] on. *)
Definition bytes_at (l : list Z) (off n : Z) : list Z :=
  map (fun i => byte_at l (off + Z.of_nat i)) (seq 0 (Z.to_nat n)).

(** ** Lemmas *)

Lemma length_mem_read m a n : length (mem_read m a n) = n.
Proof. revert a; induction n; cbn; auto. Qed.

Lemma length_bytes_at l off n : 0 <= n -> Z.of_nat (length (bytes_at l off n)) = n.
Proof. intros. unfold bytes_at. rewrite length_map, length_seq. lia. Qed.

Lemma mem_write_out m a bs x :
  x < a \/ a + Z.of_nat (length bs) <= x -> mem_byte (mem_write m a bs) x = mem_byte m x.
Proof.
  revert a. induction bs as [|b bs IH]; intros a Hx; cbn in *; auto.
  unfold mem_byte. rewrite lookup_insert_ne by lia. apply IH. lia.
Qed.

Lemma mem_write_in m a bs k b :
  bs !! k = Some b -> mem_byte (mem_write m a bs) (a + Z.of_nat k) = b.
Proof.
  revert a k. induction bs as [|c bs IH]; intros a k Hk; [discriminate|].
  destruct k as [|k]; cbn in *.
  - unfold mem_byte. rewrite Z.add_0_r, lookup_insert_eq. cbn. congruence.
  - unfold mem_byte. rewrite lookup_insert_ne by lia.
    replace (a + Z.of_nat (S k)) with ((a + 1) + Z.of_nat k) by lia. apply IH; auto.
Qed.

Lemma mem_read_lookup m a n k : (k < n)%nat -> mem_read m a n !! k = Some (mem_byte m (a + Z.of_nat k)).
Proof.
  revert a k. induction n as [|n IH]; intros a k Hk; [lia|].
  destruct k as [|k]; cbn; [f_equal; f_equal; lia|].
  rewrite IH by lia. f_equal. f_equal. lia.
Qed.

Lemma mem_read_write m a bs : mem_read (mem_write m a bs) a (length bs) = bs.
Proof.
  apply list_eq. intros k. destruct (decide (k < length bs)%nat) as [Hk|Hk].
  - rewrite mem_read_lookup by auto. destruct (bs !! k) as [b|] eqn:E.
    + f_equal. apply mem_write_in; auto.
    + apply lookup_ge_None_1 in E. lia.
  - rewrite (lookup_ge_None_2 bs) by lia.
    apply lookup_ge_None_2. rewrite length_mem_read. lia.
Qed.

Lemma mem_read_ext m m' a n :
  (forall x, a <= x < a + Z.of_nat n -> mem_byte m x = mem_byte m' x) ->
  mem_read m a n = mem_read m' a n.
Proof.
  revert a. induction n as [|n IH]; intros a E; cbn; auto.
  f_equal; [apply E; lia | apply IH; intros; apply E; lia].
Qed.

Lemma mem_read_app m a n1 n2 :
  mem_read m a (n1 + n2) = mem_read m a n1 ++ mem_read m (a + Z.of_nat n1) n2.
Proof.
  revert a. induction n1 as [|n1 IH]; intros a; cbn; [f_equal; lia|].
  rewrite IH. replace (a + 1 + Z.of_nat n1) with (a + Z.of_nat (S n1)) by lia. reflexivity.
Qed.

(** An access inside the region is valid, and a valid access stays inside. *)
Lemma dma_valid_iff addr len :
  0 <= addr < 18446744073709551616 -> 0 <= len < 18446744073709551616 ->
  dma_valid addr len = true <-> addr + len <= FLEXNIC_DMA_MEM_SIZE.
Proof.
  intros Ha Hl. unfold dma_valid, FLEXNIC_DMA_MEM_SIZE.
  destruct (Z.ltb_spec (addr + len) 18446744073709551616).
  - rewrite u64_small by lia. bsplit; intuition (try lia; discriminate).
  - assert (E : u64 (addr + len) = addr + len - 18446744073709551616)
      by (symmetry; apply (Z.mod_unique_pos _ _ 1); lia).
    rewrite E. bsplit; intuition (try lia; discriminate).
Qed.

(** ** Memory and buffers that hold bytes *)

Definition bytes (l : list Z) : Prop := Forall (fun b => 0 <= b < 256) l.

Definition bytes_ok (m : mem) : Prop := forall a, 0 <= mem_byte m a < 256.

Lemma mem_write_bytes_ok bs m a : bytes_ok m -> Forall (fun b => 0 <= b < 256) bs -> bytes_ok (mem_write m a bs).
Proof.
  revert a. induction bs as [|b bs IH]; intros a B F x; [apply B|]. apply Forall_cons in F as [Hb F].
  cbn [mem_write]. unfold mem_byte. destruct (decide (x = a)) as [->|N].
  - rewrite lookup_insert_eq. exact Hb.
  - rewrite lookup_insert_ne by congruence. apply (IH (a + 1) B F).
Qed.
