(* ===== verification/Circ.v ===== *)
(** Circular buffers: include/utils_circ.h. *)
From stdpp Require Import base numbers list gmap.
From Stdlib Require Import ZArith Lia.
From S2P Require Import Prelude Dma.

(** [circ_range]: the first range and, after a wrap-around, the length left for
    the second one, which starts at the buffer's base ([None]: no second
    range). *)
Definition circ_range (b_base b_len pos len : Z) : (Z * Z) * option Z :=
  if u64 (pos + len) <=? b_len then ((b_base + pos, len), None)
  else ((b_base + pos, u64 (b_len - pos)), Some b_base).

Definition circ_offset (pos len off : Z) : Z :=
  let pos := u64 (pos + off) in
  if len <=? pos then u64 (pos - len) else pos.

Definition circ_in_interval (start end_ len pos : Z) : bool :=
  if start <? end_ then (start <=? pos) && (pos <=? end_)
  else (start <=? pos) || (pos <=? end_).

Definition circ_read (m : mem) (b_base b_len pos len : Z) : list Z :=
  match circ_range b_base b_len pos len with
  | ((b1, l), None) => mem_read m b1 (Z.to_nat l)
  | ((b1, l), Some b2) =>
      mem_read m b1 (Z.to_nat l) ++ mem_read m b2 (Z.to_nat (u64 (len - l)))
  end.

Definition circ_write (m : mem) (src : list Z) (b_base b_len pos : Z) : mem :=
  let len := Z.of_nat (length src) in
  match circ_range b_base b_len pos len with
  | ((b1, l), None) => mem_write m b1 (take (Z.to_nat l) src)
  | ((b1, l), Some b2) =>
      mem_write (mem_write m b1 (take (Z.to_nat l) src)) b2
        (take (Z.to_nat (u64 (len - l))) (drop (Z.to_nat l) src))
  end.

(** [split_write]/[split_read]: a write of [src] at offset [off] of the
    concatenation of two buffers. *)
Definition split_write (m : mem) (src : list Z) (buf_1 len_1 buf_2 len_2 off : Z)
    : outcome mem :=
  let len := Z.of_nat (length src) in
  let! _ := assert_ (len + off <=? len_1 + len_2) in
  if off + len <=? len_1 then Ok (mem_write m (buf_1 + off) src)
  else if len_1 <=? off then Ok (mem_write m (buf_2 + (off - len_1)) src)
  else
    let l := Z.to_nat (len_1 - off) in
    Ok (mem_write (mem_write m (buf_1 + off) (take l src)) buf_2 (drop l src)).

Definition split_read (m : mem) (len buf_1 len_1 buf_2 len_2 off : Z) : outcome (list Z) :=
  let! _ := assert_ (len + off <=? len_1 + len_2) in
  if off + len <=? len_1 then Ok (mem_read m (buf_1 + off) (Z.to_nat len))
  else if len_1 <=? off then Ok (mem_read m (buf_2 + (off - len_1)) (Z.to_nat len))
  else
    let l := len_1 - off in
    Ok (mem_read m (buf_1 + off) (Z.to_nat l) ++ mem_read m buf_2 (Z.to_nat (len - l))).

(** ** Lemmas *)

Section CircBuffer.
Context (b_base b_len : Z).
Hypothesis Hlen : 0 < b_len < 4294967296.

Lemma circ_offset_mod pos off :
  0 <= pos < b_len -> 0 <= off <= b_len -> circ_offset pos b_len off = (pos + off) mod b_len.
Proof.
  intros Hp Ho. unfold circ_offset. rewrite (u64_small (pos + off)) by lia.
  destruct (Z.leb_spec b_len (pos + off)).
  - rewrite u64_small by lia. apply (Z.mod_unique_pos _ _ 1); lia.
  - symmetry; apply Z.mod_small; lia.
Qed.

(** Element [k] of what is read at [pos] is byte [(pos + k) mod b_len]. *)
Lemma circ_read_lookup m pos len k :
  0 <= pos < b_len -> 0 <= len <= b_len -> 0 <= k < len ->
  circ_read m b_base b_len pos len !! Z.to_nat k =
    Some (mem_byte m (b_base + (pos + k) mod b_len)).
Proof.
  intros Hp Hl Hk. unfold circ_read, circ_range.
  rewrite (u64_small (pos + len)) by lia. destruct (Z.leb_spec (pos + len) b_len).
  - rewrite mem_read_lookup by lia. rewrite Z.mod_small by lia. do 2 f_equal. lia.
  - rewrite !u64_small by lia. destruct (Z.ltb_spec k (b_len - pos)).
    + rewrite lookup_app_l by (rewrite length_mem_read; lia).
      rewrite mem_read_lookup by lia. rewrite Z.mod_small by lia. do 2 f_equal. lia.
    + rewrite lookup_app_r by (rewrite length_mem_read; lia).
      rewrite length_mem_read, mem_read_lookup by lia.
      rewrite <- (Z.mod_unique_pos (pos + k) b_len 1 (pos + k - b_len)) by lia.
      do 2 f_equal. lia.
Qed.

Lemma length_circ_read m pos len :
  0 <= pos < b_len -> 0 <= len <= b_len ->
  length (circ_read m b_base b_len pos len) = Z.to_nat len.
Proof.
  intros Hp Hl. unfold circ_read, circ_range. rewrite (u64_small (pos + len)) by lia.
  destruct (Z.leb_spec (pos + len) b_len).
  - apply length_mem_read.
  - rewrite !u64_small by lia. rewrite length_app, !length_mem_read. lia.
Qed.

Lemma circ_write_byte m src pos x :
  0 <= pos < b_len -> Z.of_nat (length src) <= b_len -> 0 <= x < b_len ->
  mem_byte (circ_write m src b_base b_len pos) (b_base + x) =
    default (mem_byte m (b_base + x)) (src !! Z.to_nat ((x - pos) mod b_len)).
Proof.
  intros Hp Hl Hx. unfold circ_write, circ_range. set (n := Z.of_nat (length src)) in *.
  rewrite (u64_small (pos + n)) by lia.
  destruct (Z.leb_spec (pos + n) b_len) as [Hw|Hw].
  - rewrite take_ge by lia. destruct (Z.ltb_spec x pos).
    + rewrite mem_write_out by lia.
      rewrite <- (Z.mod_unique_pos (x - pos) b_len (-1) (x - pos + b_len)) by lia.
      rewrite lookup_ge_None_2 by lia. reflexivity.
    + rewrite Z.mod_small by lia. destruct (src !! Z.to_nat (x - pos)) as [b|] eqn:E.
      * replace (b_base + x) with (b_base + pos + Z.of_nat (Z.to_nat (x - pos))) by lia.
        rewrite (mem_write_in _ _ _ _ b) by auto. reflexivity.
      * apply lookup_ge_None in E. rewrite mem_write_out by lia. reflexivity.
  - rewrite !u64_small by lia. set (l := Z.to_nat (b_len - pos)).
    rewrite (take_ge (drop l src)) by (rewrite length_drop; lia).
    assert (L1 : length (take l src) = l) by (rewrite length_take; lia).
    destruct (Z.ltb_spec x pos).
    + rewrite <- (Z.mod_unique_pos (x - pos) b_len (-1) (x - pos + b_len)) by lia.
      destruct (drop l src !! Z.to_nat x) as [b|] eqn:E.
      * replace (b_base + x) with (b_base + Z.of_nat (Z.to_nat x)) by lia.
        rewrite (mem_write_in _ _ _ _ b) by auto. rewrite lookup_drop in E.
        replace (Z.to_nat (x - pos + b_len)) with (l + Z.to_nat x)%nat by lia. rewrite E. reflexivity.
      * apply lookup_ge_None in E. rewrite length_drop in E.
        rewrite mem_write_out by (rewrite length_drop; lia). rewrite mem_write_out by lia.
        rewrite lookup_ge_None_2 by lia. reflexivity.
    + rewrite Z.mod_small by lia. rewrite mem_write_out by (rewrite length_drop; lia).
      destruct (lookup_lt_is_Some_2 src (Z.to_nat (x - pos))) as [b E]; [lia|].
      replace (b_base + x) with (b_base + pos + Z.of_nat (Z.to_nat (x - pos))) by lia.
      rewrite (mem_write_in _ _ _ _ b) by (rewrite lookup_take_lt by lia; auto).
      rewrite E. reflexivity.
Qed.
End CircBuffer.

(** What [circ_write] stores at a position of a circular buffer,
    [circ_read] of the same range returns, whether or not the range wraps
    around; a later [circ_write] of a disjoint range leaves it alone. *)
Theorem circ_read_write m src src' b_base b_len pos pos' :
  0 < b_len < 4294967296 -> 0 <= pos < b_len -> 0 <= pos' < b_len ->
  Z.of_nat (length src) <= b_len -> Z.of_nat (length src') <= b_len ->
  Z.of_nat (length src) <= (pos' - pos) mod b_len ->
  (pos' - pos) mod b_len + Z.of_nat (length src') <= b_len ->
  circ_read (circ_write (circ_write m src b_base b_len pos) src' b_base b_len pos')
    b_base b_len pos (Z.of_nat (length src)) = src.
Proof.
  intros HL Hp Hp' Hs Hs' Hd Hd'. apply list_eq. intros k.
  set (d := (pos' - pos) mod b_len) in *.
  destruct (decide (k < length src)%nat) as [Hk|Hk].
  - replace k with (Z.to_nat (Z.of_nat k)) at 1 by lia.
    rewrite circ_read_lookup by lia.
    rewrite circ_write_byte by (auto; apply Z.mod_pos_bound; lia).
    rewrite (lookup_ge_None_2 src').
    2:{ assert (E : ((pos + Z.of_nat k) mod b_len - pos') mod b_len = Z.of_nat k - d + b_len).
        { rewrite Zminus_mod_idemp_l.
          replace (pos + Z.of_nat k - pos') with (Z.of_nat k - (pos' - pos)) by lia.
          rewrite <- Zminus_mod_idemp_r. fold d.
          symmetry; apply (Z.mod_unique_pos _ _ (-1)); lia. }
        rewrite E. lia. }
    cbn [default]. rewrite circ_write_byte by (auto; apply Z.mod_pos_bound; lia).
    rewrite Zminus_mod_idemp_l. replace (pos + Z.of_nat k - pos) with (Z.of_nat k) by lia.
    rewrite (Z.mod_small (Z.of_nat k)), Nat2Z.id by lia.
    destruct (lookup_lt_is_Some_2 src k Hk) as [b ->]. reflexivity.
  - rewrite (lookup_ge_None_2 src) by lia. apply lookup_ge_None_2.
    rewrite length_circ_read; lia.
Qed.
