(* ===== verification/FastPath.v ===== *)
(** The fast path's per-flow processing: flexnic/fast_flows.c, and the helpers
    of flexnic/fastemu.h and flexnic/fast_appctx.c it calls.

    One core's view of the machine is [fp]; a handler runs with the flow's spin
    lock held and maps a machine to its outcome.  [abort()], failed asserts and
    failed DMA accesses are [Crash]; taking a lock that is already held is
    [Spin]. *)
From stdpp Require Import base numbers list gmap.
From Stdlib Require Import ZArith Lia.
From S2P Require Import Prelude Packet FlowState TcpCommon Qman LinkedList Dma.

(** ** The machine *)

Definition TCP_MSS : Z := 1448.
Definition TXBUF_SIZE : Z := 64.
Definition APP_QMAN_FLOW : Z := 1.

(** A packet handed to the NIC: the handle of the buffer it occupies, offset and
    length in it, and the buffer's contents from that offset on. *)
Record txpkt := mk_txpkt { tx_nbh : Z; tx_off : Z; tx_len : Z; tx_pkt : pkt_tcp }.

(** The bit that marks the handle of a buffer from the transmit cache. *)
Definition NBH_TX_BIT : Z := 9223372036854775808.

Record fp := mk_fp
  { fp_id : Z;                           (* ctx->id *)
    fp_flowst : gmap Z flowst;           (* pl_memory->flowst *)
    fp_flowht : gmap Z flowhte;          (* pl_memory->flowht *)
    fp_qmant : gmap Z Z;                 (* pl_memory->qmant[].id *)
    fp_appctx : gmap Z appctx;           (* pl_memory->appctx[ctx->id] *)
    fp_kctx : gmap Z appctx;             (* pl_memory->kctx *)
    fp_appst : gmap Z appst;             (* pl_memory->appst *)
    fp_steering : gmap Z Z;              (* pl_memory->flow_group_steering *)
    fp_mem : mem;                        (* DMA memory *)
    fp_qman : qman_thread;               (* ctx->qman_t *)
    fp_fwd : list (Z * Z);               (* forwarding rings: core, flow id *)
    fp_kicks : list Z;                   (* event descriptors written to *)
    fp_tx : list txpkt }.                (* ctx->tx_*, tx_num is its length *)
#[export] Instance eta_fp : Eta fp := fun w => mk_fp
  (fp_id w) (fp_flowst w) (fp_flowht w) (fp_qmant w) (fp_appctx w) (fp_kctx w)
  (fp_appst w) (fp_steering w) (fp_mem w) (fp_qman w) (fp_fwd w) (fp_kicks w) (fp_tx w).

Ltac fp_cbn :=
  cbn [fp_id fp_flowst fp_flowht fp_qmant fp_appctx fp_kctx fp_appst fp_steering
    fp_mem fp_qman fp_fwd fp_kicks fp_tx upd] in *.

(** What the code gets from DPDK, the compiler and the clock. *)
Class Platform := mk_platform
  { rte_hash_crc : list Z -> Z;             (* CRC of a byte string, init 0 *)
    network_buf_tcpxsums : ip_hdr -> Z;     (* pseudo-header checksum *)
    fwd_ring_room : list (Z * Z) -> Z -> bool;  (* rte_ring_enqueue succeeds *)
    eth_addr : list Z;                      (* MAC address of the port *)
    now_us : Z;                             (* util_timeout_time_us() *)
    arx_junk : nat -> Z;                    (* uninitialised bytes of an arx on the stack *)
    qfuel : nat }.                          (* iteration budget of queue manager loops *)

(** ** Queue manager and transmit buffer *)

Definition POLL_CYCLE : Z := 10000.

(** [util_flexnic_kick] of utils/utils.c. *)
Definition util_flexnic_kick `{Platform} (ctx : appctx) : appctx * list Z :=
  let kick := if POLL_CYCLE <? u32 (now_us - ac_last_ts ctx) then [ac_evfd ctx] else [] in
  (ctx <| ac_last_ts := now_us |>, kick).

(** [qman_set] on the core's queue manager; every caller aborts when it fails. *)
Definition fp_qman_set `{Platform} (w : fp) (qid rate avail max_chunk flags : Z) : outcome fp :=
  let! (ret, t) := qman_set qfuel (fp_qman w) qid rate avail max_chunk APP_QMAN_FLOW flags in
  if ret =? 0 then Ok (w <| fp_qman := t |>) else Crash.

Definition QSET_ADD : Z := 1 + 2 + 16 + 4.  (* RATE | MAXCHUNK | ADD_AVAIL | OPAQUE *)
Definition QSET_SET : Z := 1 + 2 + 8 + 4.   (* RATE | MAXCHUNK | SET_AVAIL | OPAQUE *)

(** [tx_send] of flexnic/fastemu.h: the handle is stored without its mark. *)
Definition tx_handle (nbh : Z) : Z := Z.land nbh (Z.lnot NBH_TX_BIT).

Definition tx_send (w : fp) (nbh : Z) (off len : Z) (p : pkt_tcp) : outcome fp :=
  if TXBUF_SIZE <=? Z.of_nat (length (fp_tx w)) then Crash
  else Ok (w <| fp_tx := fp_tx w ++ [mk_txpkt (tx_handle nbh) off len p] |>).

(** ** Payload buffers *)

(** [flow_tx_read] *)
Definition flow_tx_read (m : mem) (fs : flowst) (pos len : Z) : outcome (list Z) :=
  let rd addr n := match dma_read m addr n with Some l => Ok l | None => Crash end in
  if u32 (pos + len) <=? fs_tx_len fs then rd (u64 (fs_tx_base fs + pos)) len
  else
    let part := u32 (fs_tx_len fs - pos) in
    let! a := rd (u64 (fs_tx_base fs + pos)) part in
    let! b := rd (fs_tx_base fs) (u32 (len - part)) in
    Ok (a ++ b).

(** [flow_rx_write] of [len] (16 bit) bytes at offset [off] of [src]. *)
Definition flow_rx_write (m : mem) (fs : flowst) (pos len : Z) (src : list Z) (off : Z)
    : outcome mem :=
  let len := u16 len in
  let rx_base := Z.land (fs_rx_base_sp fs) FLEXNIC_PL_FLOWST_RX_MASK in
  let wr m addr o n :=
    match dma_write m addr (bytes_at src o n) with Some m => Ok m | None => Crash end in
  if u32 (pos + len) <=? fs_rx_len fs then wr m (u64 (rx_base + pos)) off len
  else
    let part := u32 (fs_rx_len fs - pos) in
    let! m := wr m (u64 (rx_base + pos)) off part in
    wr m rx_base (off + part) (u32 (len - part)).

(** [flow_rx_seq_write] *)
Definition flow_rx_seq_write (m : mem) (fs : flowst) (seq len : Z) (src : list Z) (off : Z)
    : outcome mem :=
  let diff := u32 (seq - fs_rx_next_seq fs) in
  let pos := u32 (fs_rx_next_pos fs + diff) in
  let pos := if fs_rx_len fs <=? pos then u32 (pos - fs_rx_len fs) else pos in
  let! _ := assert_ (pos <? fs_rx_len fs) in
  flow_rx_write m fs pos len src off.

(** ** Building packets *)

(** [tcp_checksums] with [HWXSUM_EN]. *)
Definition tcp_checksums `{Platform} (p : pkt_tcp) : pkt_tcp :=
  let ip := p_ip p <| ip_chksum := 0 |> in
  p <| p_ip := ip |> <| p_tcp := p_tcp p <| tcp_chksum := network_buf_tcpxsums ip |> |>.

(** [flow_tx_segment] *)
Definition flow_tx_segment `{Platform} (w : fp) (nbh : Z) (fs : flowst)
    (seq ack rxwnd payload payload_pos ts_echo ts_my : Z) : outcome fp :=
  let payload := u16 payload in
  let optlen := Z.land (SZ_TS_OPT + 3) (Z.lnot 3) in
  let hdrs_len := SZ_PKT_TCP + optlen in
  let eth := mk_eth_hdr (fs_remote_mac fs) eth_addr (t_beui16 ETH_TYPE_IP) in
  let ip := mk_ip_hdr (IPH_VHL 4 5) 0 (t_beui16 (hdrs_len - SZ_ETH + payload)) (t_beui16 3)
    (t_beui16 0) 255 IP_PROTO_TCP 0 (fs_local_ip fs) (fs_remote_ip fs) in
  let ip :=
    if Z.land (fs_rx_base_sp fs) FLEXNIC_PL_FLOWST_ECN =? FLEXNIC_PL_FLOWST_ECN
    then IPH_ECN_SET ip IP_ECN_ECT0 else ip in
  let tcp := mk_tcp_hdr (fs_local_port fs) (fs_remote_port fs) (t_beui32 seq) (t_beui32 ack)
    (TCPH_HDRLEN_FLAGS (5 + optlen / 4) (Z.lor TCP_PSH TCP_ACK))
    (t_beui16 (MIN 65535 rxwnd)) 0 (t_beui16 0) in
  let opts := [TCP_OPT_TIMESTAMP; SZ_TS_OPT] ++ be32_bytes ts_my ++ be32_bytes ts_echo ++ [0; 0] in
  let! data := if 0 <? payload then flow_tx_read (fp_mem w) fs payload_pos payload else Ok [] in
  tx_send w nbh 0 (u16 (hdrs_len + payload)) (tcp_checksums (mk_pkt_tcp eth ip tcp (opts ++ data))).

(** Overwrite bytes of a packet buffer. *)
Fixpoint put_bytes (l : list Z) (i : nat) (bs : list Z) : list Z :=
  match bs with
  | [] => l
  | b :: bs' => <[i := b]> (put_bytes l (S i) bs')
  end.

(** [flow_tx_ack]: turns a received packet into its acknowledgement; [tso] is
    the offset of its timestamp option. *)
Definition flow_tx_ack `{Platform} (w : fp) (nbh : Z) (seq ack rxwnd echots myts : Z)
    (off : Z) (p : pkt_tcp) (tso : Z) : outcome (fp * pkt_tcp) :=
  let eth := mk_eth_hdr (eth_src (p_eth p)) (eth_dest (p_eth p)) (eth_type (p_eth p)) in
  let ip := p_ip p <| ip_src := ip_dest (p_ip p) |> <| ip_dest := ip_src (p_ip p) |> in
  let tcp := p_tcp p <| tcp_src := tcp_dest (p_tcp p) |> <| tcp_dest := tcp_src (p_tcp p) |> in
  let hdrlen := SZ_PKT_TCP + (TCPH_HDRLEN tcp - 5) * 4 in
  let ecn_flags := if IPH_ECN ip =? IP_ECN_CE then TCP_ECE else 0 in
  let ip := IPH_ECN_SET ip IP_ECN_NONE in
  let tcp := tcp <| tcp_seqno := t_beui32 seq |> <| tcp_ackno := t_beui32 ack |>
    <| tcp_hdrlen_rsvd_flags := TCPH_HDRLEN_FLAGS (TCPH_HDRLEN tcp) (Z.lor TCP_ACK ecn_flags) |>
    <| tcp_wnd := t_beui16 (MIN 65535 rxwnd) |> <| tcp_urgp := t_beui16 0 |> in
  let data := put_bytes (p_data p) (Z.to_nat (tso + 2)) (be32_bytes myts ++ be32_bytes echots) in
  let ip := ip <| ip_len := t_beui16 (hdrlen - SZ_ETH) |> <| ip_ttl := 255 |> in
  let p := tcp_checksums (mk_pkt_tcp eth ip tcp data) in
  let! w := tx_send w nbh off (u16 hdrlen) p in
  Ok (w, p).

(** [flow_reset_retransmit] *)
Definition flow_reset_retransmit (fs : flowst) : flowst :=
  let fs := fs <| fs_rx_dupack_cnt := 0 |> in
  let fs := fs <| fs_tx_next_seq := u32 (fs_tx_next_seq fs - fs_tx_sent fs) |> in
  let fs :=
    if fs_tx_sent fs <=? fs_tx_next_pos fs
    then fs <| fs_tx_next_pos := fs_tx_next_pos fs - fs_tx_sent fs |>
    else
      let x := u32 (fs_tx_sent fs - fs_tx_next_pos fs) in
      fs <| fs_tx_next_pos := u32 (fs_tx_len fs - x) |> in
  let fs := fs <| fs_tx_sent := 0 |> in
  let fs :=
    if fs_cnt_tx_drops fs =? 0 then fs <| fs_tx_rate := fs_tx_rate fs / 2 |> else fs in
  fs <| fs_cnt_tx_drops := u32 (fs_cnt_tx_drops fs + 1) |>.

(** ** Application receive queue: [fast_actx_rxq_add] of fast_appctx.c *)

Definition SZ_ARX : Z := 64.
Definition arx_bytes `{Platform} (a : arx_entry) : list Z :=
  le_bytes 8 (arx_opaque a) ++ le_bytes 4 (arx_rx_bump a) ++ le_bytes 4 (arx_rx_pos a) ++
  le_bytes 4 (arx_tx_bump a) ++ map arx_junk (seq 0 39) ++ le_bytes 4 (arx_tx_head a) ++ [u8 (arx_type a)].

(** The boolean is true when the entry was queued, false when the queue is
    full. *)
Definition fast_actx_rxq_add `{Platform} (w : fp) (db : Z) (arx : arx_entry)
    : outcome (bool * fp) :=
  let actx := fp_appctx w !!! db in
  let txhead := ac_tx_head actx in
  let rxhead := ac_rx_head actx in
  let rxnhead := u32 (rxhead + SZ_ARX) in
  let rxnhead := if ac_rx_len actx <=? rxnhead then u32 (rxnhead - ac_rx_len actx) else rxnhead in
  match dma_pointer (u64 (ac_rx_base actx + rxhead)) SZ_ARX with
  | None => Crash
  | Some parx =>
    if negb (mem_byte (fp_mem w) (parx + 63) =? 0) then Ok (false, w)
    else
      let arx := arx <| arx_tx_head := txhead |> in
      let m := mem_write (fp_mem w) parx (arx_bytes arx) in
      let '(actx, k) := util_flexnic_kick (actx <| ac_rx_head := rxnhead |>) in
      Ok (true, w <| fp_appctx := <[db := actx]> (fp_appctx w) |> <| fp_mem := m |>
                  <| fp_kicks := fp_kicks w ++ k |>)
  end.

(** ** Flow lookup *)

Definition flow_key_bytes (l_ip r_ip : beui32) (l_p r_p : beui16) : list Z :=
  le_bytes 4 (be32_x l_ip) ++ le_bytes 4 (be32_x r_ip) ++
  le_bytes 2 (be16_x l_p) ++ le_bytes 2 (be16_x r_p).
Definition flow_hash `{Platform} (l_ip r_ip : beui32) (l_p r_p : beui16) : Z :=
  rte_hash_crc (flow_key_bytes l_ip r_ip l_p r_p).

Definition fs_matches (fs : flowst) (l_ip r_ip : beui32) (l_p r_p : beui16) : bool :=
  (be32_x (fs_local_ip fs) =? be32_x l_ip) && (be32_x (fs_remote_ip fs) =? be32_x r_ip) &&
  (be16_x (fs_local_port fs) =? be16_x l_p) && (be16_x (fs_remote_port fs) =? be16_x r_p).

(** Entries [j .. j + n - 1] of the bucket of hash [h]. *)
Fixpoint flow_probe (w : fp) (l_ip r_ip : beui32) (l_p r_p : beui16) (h j : Z) (n : nat)
    : option Z :=
  match n with
  | O => None
  | S n' =>
    let e := fp_flowht w !!! (u32 (h + j) mod FLEXNIC_PL_FLOWHT_ENTRIES) in
    let ffid := hte_flow_id e in
    let fid := Z.land ffid (Z.ones FLEXNIC_PL_FLOWHTE_POSSHIFT) in
    if (Z.land ffid FLEXNIC_PL_FLOWHTE_VALID =? 0) || negb (hte_flow_hash e =? h)
    then flow_probe w l_ip r_ip l_p r_p h (j + 1) n'
    else if fs_matches (fp_flowst w !!! fid) l_ip r_ip l_p r_p then Some fid
    else flow_probe w l_ip r_ip l_p r_p h (j + 1) n'
  end.

Definition fast_flow_lookup `{Platform} (w : fp) (l_ip r_ip : beui32) (l_p r_p : beui16)
    : option Z :=
  flow_probe w l_ip r_ip l_p r_p (flow_hash l_ip r_ip l_p r_p) 0 (Z.to_nat FLEXNIC_PL_FLOWHT_NBSZ).

(** [fast_flows_packet_fss]: the flow of every packet of a batch. *)
Definition fast_flows_packet_fss `{Platform} (w : fp) (ps : list pkt_tcp) : list (option Z) :=
  map (fun p => fast_flow_lookup w (ip_dest (p_ip p)) (ip_src (p_ip p))
                  (tcp_dest (p_tcp p)) (tcp_src (p_tcp p))) ps.

(** ** Locking and flow access *)

Definition get_flow (w : fp) (id : Z) : flowst := fp_flowst w !!! id.
Definition put_flow (w : fp) (id : Z) (fs : flowst) : fp :=
  w <| fp_flowst := <[id := fs]> (fp_flowst w) |>.

(** [util_spin_lock] on a flow; the holder sees the flow with the lock taken. *)
Definition flow_lock (w : fp) (id : Z) : outcome flowst :=
  let fs := get_flow w id in
  if fs_lock fs =? 0 then Ok (fs <| fs_lock := 1 |>) else Spin.
(** Store the flow back and release its lock. *)
Definition flow_unlock (w : fp) (id : Z) (fs : flowst) : fp :=
  put_flow w id (fs <| fs_lock := 0 |>).

(** ** Transmission: [fast_flows_qman], [fast_flows_qman_fwd] *)

Definition qmant_flow (w : fp) (queue : Z) : Z :=
  Z.land (fp_qmant w !!! queue) (Z.land (Z.lnot FLEXNIC_PL_QMANTE_TYPEMASK) UINT32_MAX).

(** Object framing: the segment length [len] is cropped to the object; the
    result is the new flow state, the length, and whether the queue has to be
    re-armed. *)
Definition qman_objcrop (w : fp) (fs : flowst) (avail len : Z) : outcome (flowst * Z * bool) :=
  let! fs :=
    if fs_tx_objrem fs =? 0 then
      if len <? SZ_OBJ_HDR then Crash
      else
        let! oh := flow_tx_read (fp_mem w) fs (fs_tx_next_pos fs) SZ_OBJ_HDR in
        let hdrlen := SZ_OBJ_HDR + byte_at oh 7 in
        let objlen := u32 (hdrlen + be32_at oh 0) in
        if len <? hdrlen then Crash else Ok (fs <| fs_tx_objrem := objlen |>)
    else Ok fs in
  let len := MIN len (fs_tx_objrem fs) in
  Ok (fs <| fs_tx_objrem := fs_tx_objrem fs - len |>, len, len <? avail).

(** The transmit pointers after sending [len] bytes. *)
Definition tx_advance (fs : flowst) (len : Z) : flowst :=
  let fs := fs <| fs_tx_next_seq := u32 (fs_tx_next_seq fs + len) |> in
  let fs := fs <| fs_tx_next_pos := u32 (fs_tx_next_pos fs + len) |> in
  let fs := if fs_tx_len fs <=? fs_tx_next_pos fs
            then fs <| fs_tx_next_pos := fs_tx_next_pos fs - fs_tx_len fs |> else fs in
  fs <| fs_tx_sent := u32 (fs_tx_sent fs + len) |>.

Definition fast_flows_qman `{Platform} (w : fp) (nbh : Z) (queue ts : Z) : outcome (Z * fp) :=
  let flow_id := qmant_flow w queue in
  let! fs := flow_lock w flow_id in
  let new_core := fp_steering w !!! fs_flow_group fs in
  if negb (new_core =? fp_id w) then
    if fwd_ring_room (fp_fwd w) new_core then
      let w := w <| fp_fwd := fp_fwd w ++ [(new_core, flow_id)] |> in
      let! w := fp_qman_set w (fs_qman_qid fs) 0 0 0 QSET_SET in
      let '(kctx, k) := util_flexnic_kick (fp_kctx w !!! new_core) in
      let w := w <| fp_kctx := <[new_core := kctx]> (fp_kctx w) |>
                 <| fp_kicks := fp_kicks w ++ k |> in
      Ok (-1, flow_unlock w flow_id fs)
    else Crash
  else
    let avail := tcp_txavail fs None in
    if avail =? 0 then Ok (-1, flow_unlock w flow_id fs)
    else
      let len := MIN avail TCP_MSS in
      let! (fs, len, w) :=
        if fs_objconn fs then
          let! (fs, len, rearm) := qman_objcrop w fs avail len in
          let! w := if rearm then fp_qman_set w (fs_qman_qid fs) 0 1 1 QSET_ADD else Ok w in
          Ok (fs, len, w)
        else Ok (fs, len, w) in
      let tx_seq := fs_tx_next_seq fs in
      let tx_pos := fs_tx_next_pos fs in
      let rx_wnd := fs_rx_avail fs in
      let ack := fs_rx_next_seq fs in
      let fs := tx_advance fs len in
      let! w := flow_tx_segment w nbh fs tx_seq ack rx_wnd len tx_pos (fs_tx_next_ts fs) ts in
      Ok (0, flow_unlock w flow_id fs).

Definition fast_flows_qman_fwd `{Platform} (w : fp) (flow_id : Z) : outcome (Z * fp) :=
  let! fs := flow_lock w flow_id in
  let avail := tcp_txavail fs None in
  let! w := fp_qman_set w (fs_qman_qid fs) (fs_tx_rate fs) avail TCP_MSS QSET_SET in
  Ok (0, flow_unlock w flow_id fs).

(** ** Application bumps: [flast_flows_bump] *)

(** Out-of-order bump numbers are ignored. *)
Definition bump_stale (bump_seq cur : Z) : bool :=
  ((cur <=? bump_seq) && (UINT32_MAX / 2 <? u32 (bump_seq - cur))) ||
  ((bump_seq <? cur) && ((cur <? UINT32_MAX / 4 * 3) || (UINT32_MAX / 4 <? bump_seq))).

(** The receive window grows by what the application consumed. *)
Definition bump_rx (fs : flowst) (rx_tail : Z) : flowst :=
  let tail := u32 (fs_rx_next_pos fs + fs_rx_avail fs) in
  let tail := if fs_rx_len fs <=? tail then tail - fs_rx_len fs else tail in
  if tail <=? rx_tail
  then fs <| fs_rx_avail := u32 (fs_rx_avail fs + u32 (rx_tail - tail)) |>
  else fs <| fs_rx_avail := u32 (fs_rx_avail fs + u32 (u32 (fs_rx_len fs - tail) + rx_tail)) |>.

Definition flast_flows_bump `{Platform} (w : fp) (nbh : Z) (flow_id bump_seq rx_tail tx_head ts : Z)
    : outcome (Z * fp) :=
  let! fs := flow_lock w flow_id in
  if bump_stale bump_seq (fs_bump_seq fs) then Ok (-1, flow_unlock w flow_id fs)
  else
    let fs := fs <| fs_bump_seq := bump_seq |> in
    let old_avail := tcp_txavail fs None in
    let new_avail := tcp_txavail fs (Some tx_head) in
    let! w :=
      if negb (fs_objconn fs) then
        if old_avail <? new_avail
        then fp_qman_set w (fs_qman_qid fs) (fs_tx_rate fs) (new_avail - old_avail) TCP_MSS QSET_ADD
        else Ok w
      else
        if (old_avail =? 0) && negb (new_avail =? 0)
        then fp_qman_set w (fs_qman_qid fs) 0 1 1 QSET_ADD else Ok w in
    let rx_avail_prev := fs_rx_avail fs in
    let fs := bump_rx (fs <| fs_tx_head := tx_head |>) rx_tail in
    if (new_avail =? 0) && (rx_avail_prev =? 0) && negb (fs_rx_avail fs =? 0) then
      let! w := flow_tx_segment w nbh fs (fs_tx_next_seq fs) (fs_rx_next_seq fs) (fs_rx_avail fs)
                  0 0 (fs_tx_next_ts fs) ts in
      Ok (0, flow_unlock w flow_id fs)
    else Ok (-1, flow_unlock w flow_id fs).

(** ** Retransmission requests of the kernel: [fast_flows_retransmit] *)

Definition fast_flows_retransmit `{Platform} (w : fp) (flow_id : Z) : outcome fp :=
  let! fs := flow_lock w flow_id in
  let old_avail := tcp_txavail fs None in
  if fs_tx_sent fs =? 0 then Ok (flow_unlock w flow_id fs)
  else
    let fs := flow_reset_retransmit fs in
    let new_avail := tcp_txavail fs None in
    let! w :=
      if old_avail <? new_avail
      then fp_qman_set w (fs_qman_qid fs) (fs_tx_rate fs) (new_avail - old_avail) TCP_MSS QSET_ADD
      else Ok w in
    Ok (flow_unlock w flow_id fs).
