(* ===== verification/FastRx.v ===== *)
(** Receive processing of the fast path: [fast_flows_packet] of
    flexnic/fast_flows.c.

    The handler is one long C function; it is modelled as the composition of
    its blocks, in the order of the code.  [goto unlock] and [goto slowpath]
    are the two constructors of [rx_step]. *)
From stdpp Require Import base numbers list gmap.
From Stdlib Require Import ZArith Lia.
From S2P Require Import Prelude Packet FlowState TcpCommon Qman LinkedList Dma FastPath.

(** ** Validation and lengths *)

(** The packet is a TCP packet the fast path can look at. *)
Definition rx_valid (p : pkt_tcp) (len : Z) : bool :=
  negb ((len <? SZ_PKT_TCP) || negb (f_beui16 (eth_type (p_eth p)) =? ETH_TYPE_IP) ||
        negb (ip_proto (p_ip p) =? IP_PROTO_TCP) || negb (IPH_V (p_ip p) =? 4) ||
        negb (IPH_HL (p_ip p) =? 5) || (TCPH_HDRLEN (p_tcp p) <? 5) ||
        (len <? f_beui16 (ip_len (p_ip p)) + SZ_ETH)).

Definition tcp_extra_hlen (p : pkt_tcp) : Z := u16 ((TCPH_HDRLEN (p_tcp p) - 5) * 4).
Definition rx_payload_bytes (p : pkt_tcp) : Z :=
  u32 (f_beui16 (ip_len (p_ip p)) - (SZ_IP + SZ_TCP + tcp_extra_hlen p)).

Definition tcp_flag (p : pkt_tcp) (f : Z) : bool := Z.land (TCPH_FLAGS (p_tcp p)) f =? f.
(** Any flag besides ACK, PSH, ECE and CWR. *)
Definition weird_flags (p : pkt_tcp) : bool :=
  negb (Z.land (TCPH_FLAGS (p_tcp p))
          (Z.lnot (Z.lor TCP_ACK (Z.lor TCP_PSH (Z.lor TCP_ECE TCP_CWR)))) =? 0).

(** ** Acknowledgements *)

(** Statistics for congestion control. *)
Definition rx_cc_stats (fs : flowst) (p : pkt_tcp) : flowst :=
  if tcp_flag p TCP_ACK then
    let fs := fs <| fs_cnt_rx_acks := u32 (fs_cnt_rx_acks fs + 1) |> in
    if tcp_flag p TCP_ECE then fs <| fs_cnt_rx_ecn := u32 (fs_cnt_rx_ecn fs + 1) |> else fs
  else fs.

(** The transmit pointers after [tx_bump] bytes were acknowledged; with
    [ALLOW_FUTURE_ACKS], bytes beyond what was sent count as sent. *)
Definition rx_ack_advance (fs : flowst) (tx_bump : Z) : flowst :=
  let fs := fs <| fs_cnt_rx_ack_bytes := u32 (fs_cnt_rx_ack_bytes fs + tx_bump) |> in
  if tx_bump <=? fs_tx_sent fs then fs <| fs_tx_sent := fs_tx_sent fs - tx_bump |>
  else
    let d := u32 (tx_bump - fs_tx_sent fs) in
    let fs := fs <| fs_tx_next_seq := u32 (fs_tx_next_seq fs + d) |> in
    let fs := fs <| fs_tx_next_pos := u32 (fs_tx_next_pos fs + d) |> in
    let fs := if fs_tx_len fs <=? fs_tx_next_pos fs
              then fs <| fs_tx_next_pos := fs_tx_next_pos fs - fs_tx_len fs |> else fs in
    fs <| fs_tx_sent := 0 |>.

(** The new flow state, the acknowledged bytes, and whether a third duplicate
    acknowledgement reset transmission ([goto unlock]). *)
Definition rx_ack (fs : flowst) (p : pkt_tcp) (orig_payload : Z) : flowst * Z * bool :=
  if tcp_flag p TCP_ACK then
    match tcp_valid_rxack fs (f_beui32 (tcp_ackno (p_tcp p))) with
    | None => (fs, 0, false)
    | Some tx_bump =>
      let fs := rx_ack_advance fs tx_bump in
      if negb (tx_bump =? 0) then (fs <| fs_rx_dupack_cnt := 0 |>, tx_bump, false)
      else if orig_payload =? 0 then
        let fs := fs <| fs_rx_dupack_cnt := u32 (fs_rx_dupack_cnt fs + 1) |> in
        if 3 <=? fs_rx_dupack_cnt fs then (flow_reset_retransmit fs, tx_bump, true)
        else (fs, tx_bump, false)
      else (fs, tx_bump, false)
    end
  else (fs, 0, false).

(** ** Out-of-order segments *)

(** [n] payload bytes at offset [off] of [src], whose first byte has sequence
    number [seq], are not next in order. *)
Definition rx_ooo (fs : flowst) (m : mem) (seq n : Z) (src : list Z) (off : Z)
    : outcome (flowst * mem) :=
  if n =? 0 then Ok (fs, m)
  else
    let store fs := let! m := flow_rx_seq_write m fs seq n src off in Ok (fs, m) in
    if fs_rx_ooo_len fs =? 0 then
      store (fs <| fs_rx_ooo_start := seq |> <| fs_rx_ooo_len := n |>)
    else if u32 (seq + n) =? fs_rx_ooo_start fs then
      store (fs <| fs_rx_ooo_start := seq |> <| fs_rx_ooo_len := u32 (fs_rx_ooo_len fs + n) |>)
    else if u32 (fs_rx_ooo_start fs + fs_rx_ooo_len fs) =? seq then
      store (fs <| fs_rx_ooo_len := u32 (fs_rx_ooo_len fs + n) |>)
    else Ok (fs, m).

(** ** In-order segments *)

(** Round trip time estimate, window and timestamp of the sender. *)
Definition rx_rtt (fs : flowst) (p : pkt_tcp) (tso ts : Z) : flowst :=
  let ts_val := be32_at (p_data p) (tso + 2) in
  let ts_ecr := be32_at (p_data p) (tso + 6) in
  let fs := fs <| fs_tx_next_ts := ts_val |> in
  let fs :=
    if tcp_flag p TCP_ACK && negb (ts_ecr =? 0) then
      let rtt := u32 (ts - ts_ecr) in
      if negb (fs_rtt_est fs =? 0)
      then fs <| fs_rtt_est := u32 (fs_rtt_est fs * 7 + rtt) / 8 |>
      else fs <| fs_rtt_est := rtt |>
    else fs in
  fs <| fs_rx_remote_avail := f_beui16 (tcp_wnd (p_tcp p)) |>.

Fixpoint le_value (bs : list Z) : Z :=
  match bs with [] => 0 | b :: bs' => b + 256 * le_value bs' end.

(** An object starts at offset [off] of the packet: choose the context that
    gets it.  [None] in the result is [goto slowpath]. *)
Definition rx_steer `{Platform} (w : fp) (fs : flowst) (p : pkt_tcp) (n off : Z)
    : outcome (option flowst * pkt_tcp) :=
  let src := p_data p in
  let dstlen := byte_at src (off + 7) in
  if (n <? SZ_OBJ_HDR) || (n <? SZ_OBJ_HDR + dstlen) then Ok (None, p)
  else
    let objlen := be32_at src off in
    let dst := bytes_at src (off + 8) dstlen in
    let p := p <| p_data := put_bytes src (Z.to_nat (off + 4)) [0; 0] |> in
    let! _ := assert_ (fs_db_id fs <? FLEXNIC_PL_APPCTX_NUM) in
    let i := ac_appst_id (fp_appctx w !!! fs_db_id fs) in
    let! _ := assert_ (i <? FLEXNIC_PL_APPST_NUM) in
    let st := fp_appst w !!! i in
    let! _ := assert_ (0 <? as_ctx_num st) in
    let! _ := assert_ (as_ctx_num st <=? FLEXNIC_PL_APPST_CTX_NUM) in
    let choose (i : Z) :=
      let i := default 0 (as_ctx_ids st !! Z.to_nat i) in
      let! _ := assert_ (i <? FLEXNIC_PL_APPCTX_NUM) in
      Ok (Some (fs <| fs_db_id := i |>
                   <| fs_rx_objrem := u32 (SZ_OBJ_HDR + dstlen + objlen) |>), p) in
    if negb (has_flag (fs_rx_base_sp fs) FLEXNIC_PL_FLOWST_OBJNOHASH) then
      choose (rte_hash_crc dst mod as_ctx_num st)
    else if 8 <? dstlen then Ok (None, p)
    else if as_ctx_num st <=? le_value dst then Ok (None, p)
    else choose (le_value dst).

(** Object connections; the flow state is [None] for [goto slowpath], which
    leaves the flow as [rx_steer] left it. *)
Definition rx_object `{Platform} (w : fp) (fs : flowst) (p : pkt_tcp) (n off : Z)
    : outcome (bool * flowst * pkt_tcp) :=
  if fs_objconn fs then
    let! (fs', p) :=
      if (fs_rx_objrem fs =? 0) && (0 <? n) then rx_steer w fs p n off
      else Ok (Some fs, p) in
    match fs' with
    | None => Ok (false, fs, p)
    | Some fs =>
      if fs_rx_objrem fs <? n then Ok (false, fs, p)
      else Ok (true, fs <| fs_rx_objrem := fs_rx_objrem fs - n |>, p)
    end
  else Ok (true, fs, p).

(** [n] bytes became available in order. *)
Definition rx_advance (fs : flowst) (n : Z) : outcome flowst :=
  let fs := fs <| fs_rx_avail := u32 (fs_rx_avail fs - n) |> in
  let fs := fs <| fs_rx_next_pos := u32 (fs_rx_next_pos fs + n) |> in
  let fs := if fs_rx_len fs <=? fs_rx_next_pos fs
            then fs <| fs_rx_next_pos := fs_rx_next_pos fs - fs_rx_len fs |> else fs in
  let! _ := assert_ (fs_rx_next_pos fs <? fs_rx_len fs) in
  Ok (fs <| fs_rx_next_seq := u32 (fs_rx_next_seq fs + n) |>).

(** The out-of-order interval after the window moved: dropped, trimmed, or
    delivered when the gap in front of it is closed.  The second result is the
    number of bytes delivered. *)
Definition rx_ooo_merge (fs : flowst) : outcome (flowst * Z) :=
  if fs_rx_ooo_len fs =? 0 then Ok (fs, 0)
  else
    match tcp_trim_rxbuf fs (fs_rx_ooo_start fs) (fs_rx_ooo_len fs) with
    | None => Ok (fs <| fs_rx_ooo_len := 0 |>, 0)
    | Some (trim_start, trim_end) =>
      let fs := fs <| fs_rx_ooo_start := u32 (fs_rx_ooo_start fs + trim_start) |>
                   <| fs_rx_ooo_len := u32 (fs_rx_ooo_len fs - (trim_start + trim_end)) |> in
      if (0 <? fs_rx_ooo_len fs) && (fs_rx_ooo_start fs =? fs_rx_next_seq fs) then
        let n := fs_rx_ooo_len fs in
        let! fs := rx_advance fs n in
        Ok (fs <| fs_rx_ooo_len := 0 |>, n)
      else Ok (fs, 0)
    end.

(** In-order payload: copied to the receive buffer, pointers advanced. *)
Definition rx_data (fs : flowst) (m : mem) (n : Z) (src : list Z) (off : Z)
    : outcome (flowst * mem * Z) :=
  if 0 <? n then
    let! m := flow_rx_write m fs (fs_rx_next_pos fs) n src off in
    let! fs := rx_advance fs n in
    let! (fs, k) := rx_ooo_merge fs in
    Ok (fs, m, u32 (n + k))
  else Ok (fs, m, 0).

(** ** The handler *)

Inductive rx_step :=
| rx_slowpath (no_permanent_sp : bool) (fs : flowst) (p : pkt_tcp)
| rx_unlock (fs : flowst) (m : mem) (p : pkt_tcp) (rx_bump tx_bump : Z) (trigger_ack : bool).

(** From the state checks to the [unlock] or [slowpath] label; the flow's lock
    is held. *)
Definition rx_process `{Platform} (w : fp) (fs : flowst) (p : pkt_tcp) (tso ts : Z)
    : outcome rx_step :=
  if has_flag (fs_rx_base_sp fs) FLEXNIC_PL_FLOWST_SLOWPATH then Ok (rx_slowpath false fs p)
  else if weird_flags p then
    Ok (rx_slowpath (negb (Z.land (TCPH_FLAGS (p_tcp p)) TCP_SYN =? 0)) fs p)
  else
    let m := fp_mem w in
    let payload_bytes := rx_payload_bytes p in
    let payload_off := tcp_extra_hlen p in      (* relative to [p_data] *)
    let seq := f_beui32 (tcp_seqno (p_tcp p)) in
    let trigger_ack := 0 <? payload_bytes in
    let '(fs, tx_bump, reset) := rx_ack (rx_cc_stats fs p) p payload_bytes in
    if reset then Ok (rx_unlock fs m p 0 tx_bump trigger_ack)
    else
      match tcp_trim_rxbuf fs seq payload_bytes with
      | None => Ok (rx_unlock fs m p 0 tx_bump trigger_ack)
      | Some (trim_start, trim_end) =>
        let payload_bytes := u32 (payload_bytes - (trim_start + trim_end)) in
        let off := payload_off + trim_start in
        let seq := u32 (seq + trim_start) in
        if negb (seq =? fs_rx_next_seq fs) then
          let! (fs, m) := rx_ooo fs m seq payload_bytes (p_data p) off in
          Ok (rx_unlock fs m p 0 tx_bump trigger_ack)
        else
          let fs := rx_rtt fs p tso ts in
          let! (go_on, fs, p) := rx_object w fs p payload_bytes off in
          if negb go_on then Ok (rx_slowpath false fs p)
          else
            let! (fs, m, rx_bump) := rx_data fs m payload_bytes (p_data p) off in
            Ok (rx_unlock fs m p rx_bump tx_bump (trigger_ack || (0 <? payload_bytes)))
      end.

(** The [unlock] label up to the spin lock release: notification of the
    application, queue manager, acknowledgement. *)
Definition rx_finish `{Platform} (w : fp) (nbh : Z) (fs : flowst) (db rx_pos old_avail : Z)
    (off : Z) (p : pkt_tcp) (tso ts rx_bump tx_bump : Z) (trigger_ack : bool)
    : outcome (fp * pkt_tcp) :=
  let! w :=
    if negb (rx_bump =? 0) || negb (tx_bump =? 0) then
      let ty := if fs_objconn fs then FLEXTCP_PL_ARX_OBJUPDATE else FLEXTCP_PL_ARX_CONNUPDATE in
      let! (_, w) := fast_actx_rxq_add w db (mk_arx (fs_opaque fs) rx_bump rx_pos tx_bump 0 ty) in
      Ok w
    else Ok w in
  let new_avail := tcp_txavail fs None in
  let! w :=
    if old_avail <? new_avail then
      if negb (fs_objconn fs)
      then fp_qman_set w (fs_qman_qid fs) (fs_tx_rate fs) (new_avail - old_avail) TCP_MSS QSET_ADD
      else if old_avail =? 0 then fp_qman_set w (fs_qman_qid fs) 0 1 1 QSET_ADD else Ok w
    else Ok w in
  if trigger_ack
  then flow_tx_ack w nbh (fs_tx_next_seq fs) (fs_rx_next_seq fs) (fs_rx_avail fs)
         (fs_tx_next_ts fs) ts off p tso
  else Ok (w, p).

(** The result is the return value, the machine, and the packet buffer's
    contents: for -1 the packet goes on to the kernel, for 1 its buffer now
    holds the acknowledgement. *)
Definition fast_flows_packet `{Platform} (w : fp) (nbh : Z) (off len : Z) (p : pkt_tcp)
    (flow_id ts : Z) : outcome (Z * fp * pkt_tcp) :=
  if negb (rx_valid p len) then Ok (-1, w, p)
  else
    let! opts := tcp_parse_options opts_fuel p len in
    match opts with
    | None | Some None => Ok (-1, w, p)
    | Some (Some tso) =>
      let db := fs_db_id (get_flow w flow_id) in
      let actx := fp_appctx w !!! db in
      let! _ := assert_ (dma_valid (u64 (ac_rx_base actx + ac_rx_head actx)) SZ_ARX) in
      let! fs0 := flow_lock w flow_id in
      let! r := rx_process w fs0 p tso ts in
      match r with
      | rx_slowpath no_permanent_sp fs p =>
        let fs := if no_permanent_sp then fs
                  else fs <| fs_rx_base_sp :=
                         Z.lor (fs_rx_base_sp fs) FLEXNIC_PL_FLOWST_SLOWPATH |> in
        Ok (-1, flow_unlock w flow_id fs, p)
      | rx_unlock fs m p rx_bump tx_bump trigger_ack =>
        let! (w, p) := rx_finish (w <| fp_mem := m |>) nbh fs db (fs_rx_next_pos fs0)
                         (tcp_txavail fs0 None) off p tso ts rx_bump tx_bump trigger_ack in
        Ok (if trigger_ack then 1 else 0, flow_unlock w flow_id fs, p)
      end
    end.
