(* ===== verification/Stream.v ===== *)
(** The byte streams of a flow: abstract specification of the fast path's
    transmit and receive state.

    Positions of a stream are unbounded integers.  A flow state represents a
    position [n] of the transmit stream by the sequence number [u32 (isn + n)]
    and by the buffer offset [n mod tx_len]; likewise for the receive stream.
    [tx_step] is what may happen to the transmit stream; the theorems say that
    the pointer updates of flexnic/fast_flows.c are such steps. *)
From stdpp Require Import base numbers list gmap relations.
From Stdlib Require Import ZArith Lia.
From S2P Require Import Prelude Packet FlowState TcpCommon Qman LinkedList Dma Circ FastPath FastRx.

(** ** Ring positions *)

Lemma ring_advance n k len :
  0 < len -> 0 <= k <= len ->
  (if len <=? n mod len + k then n mod len + k - len else n mod len + k) = (n + k) mod len.
Proof.
  intros HL Hk. pose proof (Z.mod_pos_bound n len HL). bsplit.
  - rewrite <- Zplus_mod_idemp_l. apply (Z.mod_unique_pos _ _ 1); lia.
  - rewrite <- Zplus_mod_idemp_l. symmetry; apply Z.mod_small; lia.
Qed.

Lemma ring_retreat n k len :
  0 < len -> 0 <= k <= len ->
  (if k <=? n mod len then n mod len - k else len - (k - n mod len)) = (n - k) mod len.
Proof.
  intros HL Hk. pose proof (Z.mod_pos_bound n len HL). bsplit.
  - rewrite <- Zminus_mod_idemp_l. symmetry; apply Z.mod_small; lia.
  - rewrite <- Zminus_mod_idemp_l. apply (Z.mod_unique_pos _ _ (-1)); lia.
Qed.

(** The distance between two positions less than a buffer apart. *)
Lemma ring_distance n h len :
  0 < len -> n <= h < n + len ->
  (if n mod len <=? h mod len then h mod len - n mod len else len - n mod len + h mod len) = h - n.
Proof.
  intros HL Hh. pose proof (Z.mod_pos_bound n len HL).
  replace (h mod len) with ((n + (h - n)) mod len) by (f_equal; lia).
  rewrite <- ring_advance by lia. bsplit; lia.
Qed.

Lemma u32_congr a b : u32 a = u32 b -> -4294967296 < a - b < 4294967296 -> a = b \/ a = b + 4294967296 \/ a = b - 4294967296.
Proof. mlia. Qed.

(** ** The transmit stream *)

Record tx_stream := mk_tx_stream { txs_acked : Z; txs_next : Z; txs_head : Z }.

Ltac txs_cbn := cbn [txs_acked txs_next txs_head] in *.

Record TxRep (isn : Z) (fs : flowst) (s : tx_stream) : Prop := mk_TxRep
  { txr_len : 0 < fs_tx_len fs < 2147483648;
    txr_order : txs_acked s <= txs_next s <= txs_head s;
    txr_fits : txs_head s - txs_acked s < fs_tx_len fs;
    txr_seq : fs_tx_next_seq fs = u32 (isn + txs_next s);
    txr_pos : fs_tx_next_pos fs = txs_next s mod fs_tx_len fs;
    txr_sent : fs_tx_sent fs = txs_next s - txs_acked s;
    txr_head : fs_tx_head fs = txs_head s mod fs_tx_len fs;
    txr_win : is_u32 (fs_rx_remote_avail fs) }.

(** What may happen to a transmit stream: bytes are sent, acknowledged (sent or
    not), sent again from the last acknowledged one, or appended. *)
Inductive tx_step : tx_stream -> tx_stream -> Prop :=
| txs_send a n h k : 0 <= k <= h - n -> tx_step (mk_tx_stream a n h) (mk_tx_stream a (n + k) h)
| txs_ack a n h a' : a <= a' <= h ->
    tx_step (mk_tx_stream a n h) (mk_tx_stream a' (Z.max n a') h)
| txs_reset a n h : tx_step (mk_tx_stream a n h) (mk_tx_stream a a h)
| txs_append a n h h' : h <= h' -> tx_step (mk_tx_stream a n h) (mk_tx_stream a n h').

(** The fields [TxRep] speaks about. *)
Definition tx_view (fs : flowst) : Z * Z * Z * Z * Z :=
  (fs_tx_len fs, fs_tx_next_seq fs, fs_tx_next_pos fs, fs_tx_sent fs, fs_tx_head fs).

Lemma TxRep_view isn fs fs' s :
  tx_view fs' = tx_view fs -> is_u32 (fs_rx_remote_avail fs') -> TxRep isn fs s -> TxRep isn fs' s.
Proof.
  unfold tx_view. intros E Hw []. simplify_eq.
  split; rewrite ?E; congruence || auto; congruence.
Qed.

Lemma TxRep_lock isn fs s x : TxRep isn fs s -> TxRep isn (fs <| fs_lock := x |>) s.
Proof. intros R. eapply TxRep_view; [| |exact R]; [reflexivity | apply R]. Qed.

Section Tx.
Context (isn : Z).

Lemma TxRep_txbuf_ok fs s : TxRep isn fs s -> txbuf_ok fs.
Proof.
  intros []. unfold txbuf_ok. rewrite txr_pos0, txr_head0, txr_seq0.
  repeat split; auto; try apply Z.mod_pos_bound; try apply u32_range; try apply txr_win0; lia.
Qed.

Lemma TxRep_unsent fs s : TxRep isn fs s -> tx_unsent fs (fs_tx_head fs) = txs_head s - txs_next s.
Proof.
  intros []. unfold tx_unsent. rewrite txr_pos0, txr_head0. apply ring_distance; lia.
Qed.

Lemma tx_advance_rep fs a n h k :
  TxRep isn fs (mk_tx_stream a n h) -> 0 <= k <= h - n ->
  TxRep isn (tx_advance fs k) (mk_tx_stream a (n + k) h).
Proof.
  intros [HL HO HF Hq Hp Hs Hh Hw] Hk. cbn in *.
  pose proof (Z.mod_pos_bound n (fs_tx_len fs)).
  unfold tx_advance. fs_cbn. rewrite Hp.
  rewrite (u32_small (n mod _ + k)) by mlia.
  pose proof (ring_advance n k (fs_tx_len fs) ltac:(lia) ltac:(lia)) as R.
  bsplit; split; fs_cbn; txs_cbn; rewrite ?Hq, ?Hs, ?u32_add_l; auto; try lia;
    try (f_equal; lia); rewrite u32_small by mlia; lia.
Qed.

Lemma rx_ack_advance_rep fs a n h a' :
  TxRep isn fs (mk_tx_stream a n h) -> a <= a' <= h ->
  TxRep isn (rx_ack_advance fs (a' - a)) (mk_tx_stream a' (Z.max n a') h).
Proof.
  intros [HL HO HF Hq Hp Hs Hh Hw] Ha. cbn in *.
  pose proof (Z.mod_pos_bound n (fs_tx_len fs)).
  unfold rx_ack_advance. fs_cbn. rewrite Hs. destruct (Z.leb_spec (a' - a) (n - a)).
  - rewrite Z.max_l by lia. split; fs_cbn; cbn; auto; lia.
  - rewrite Z.max_r by lia. rewrite Hp, (u32_small (a' - a - (n - a))) by mlia.
    replace (a' - a - (n - a)) with (a' - n) by lia.
    rewrite (u32_small (n mod _ + _)) by mlia.
    pose proof (ring_advance n (a' - n) (fs_tx_len fs) ltac:(lia) ltac:(lia)) as R.
    replace (n + (a' - n)) with a' in R by lia.
    bsplit; split; fs_cbn; txs_cbn; rewrite ?Hq, ?u32_add_l; auto; try lia; f_equal; lia.
Qed.

Lemma flow_reset_retransmit_rep fs a n h :
  TxRep isn fs (mk_tx_stream a n h) ->
  TxRep isn (flow_reset_retransmit fs) (mk_tx_stream a a h).
Proof.
  intros [HL HO HF Hq Hp Hs Hh Hw]. cbn in *.
  pose proof (Z.mod_pos_bound n (fs_tx_len fs)).
  unfold flow_reset_retransmit. fs_cbn. rewrite Hq, Hp, Hs, u32_sub_l.
  pose proof (ring_retreat n (n - a) (fs_tx_len fs) ltac:(lia) ltac:(lia)) as R.
  replace (n - (n - a)) with a in R by lia.
  destruct (Z.leb_spec (n - a) (n mod fs_tx_len fs));
    [|rewrite (u32_small (n - a - _)) by mlia; rewrite (u32_small (fs_tx_len fs - _)) by mlia];
    fs_cbn; destruct (fs_cnt_tx_drops fs =? 0); split; fs_cbn; cbn; auto; try lia; f_equal; lia.
Qed.

Lemma tx_append_rep fs a n h h' :
  TxRep isn fs (mk_tx_stream a n h) -> h <= h' -> h' - a < fs_tx_len fs ->
  TxRep isn (fs <| fs_tx_head := h' mod fs_tx_len fs |>) (mk_tx_stream a n h').
Proof. intros [] Hh Hf. cbn in *. split; fs_cbn; cbn; auto; lia. Qed.

(** Acknowledgement numbers name stream positions: [tcp_valid_rxack] accepts
    exactly those of the positions between the acknowledged one and the
    head, and its result is the distance. *)
Lemma tcp_valid_rxack_rep fs a n h ack :
  TxRep isn fs (mk_tx_stream a n h) -> is_u32 ack ->
  match tcp_valid_rxack fs ack with
  | Some bump => a <= a + bump <= h /\ u32 (isn + (a + bump)) = ack
  | None => forall a', a <= a' <= h -> u32 (isn + a') <> ack
  end.
Proof.
  intros R Hack. rewrite valid_rxack_eq by eauto using TxRep_txbuf_ok.
  rewrite (TxRep_unsent _ _ R). destruct R as [HL HO HF Hq Hp Hs Hh Hw]. cbn in *.
  rewrite Hq, Hs, u32_sub_l. replace (isn + n - (n - a)) with (isn + a) by lia.
  pose proof (u32_range (ack - u32 (isn + a))).
  destruct (Z.leb_spec (u32 (ack - u32 (isn + a))) (n - a + (h - n))).
  - split; [mlia|]. revert Hack. clear. intros. mlia.
  - intros a' Ha E. assert (u32 (ack - u32 (isn + a)) = a' - a); [|lia].
    rewrite <- E, u32_sub_l. clear -Ha HF HL. mlia.
Qed.

Lemma rx_ack_rep fs s p orig_payload fs' bump reset :
  TxRep isn fs s -> rx_ack fs p orig_payload = (fs', bump, reset) ->
  exists s', rtc tx_step s s' /\ TxRep isn fs' s' /\
    txs_acked s' = txs_acked s + bump /\ txs_head s' = txs_head s /\
    (reset = true -> bump = 0 /\ txs_next s' = txs_acked s').
Proof.
  destruct s as [a n h]. intros R. unfold rx_ack.
  assert (Hno : exists s', rtc tx_step (mk_tx_stream a n h) s' /\ TxRep isn fs s' /\
    txs_acked s' = a + 0 /\ txs_head s' = h /\ (false = true -> 0 = 0 /\ txs_next s' = txs_acked s'))
    by (exists (mk_tx_stream a n h); split_and!; auto using rtc_refl; txs_cbn; try lia; intros; congruence).
  destruct (tcp_flag p TCP_ACK); [|intros [= <- <- <-]; exact Hno].
  pose proof (tcp_valid_rxack_rep fs a n h (f_beui32 (tcp_ackno (p_tcp p))) R) as V.
  destruct (tcp_valid_rxack fs _) as [b|]; [|intros [= <- <- <-]; exact Hno].
  destruct V as [Hb _]; [unfold f_beui32, bswap32; mlia|].
  assert (R' := rx_ack_advance_rep fs a n h (a + b) R Hb).
  replace (a + b - a) with b in R' by lia.
  assert (St : tx_step (mk_tx_stream a n h) (mk_tx_stream (a + b) (Z.max n (a + b)) h))
    by (constructor; lia).
  assert (V' : forall f, tx_view f = tx_view (rx_ack_advance fs b) ->
    fs_rx_remote_avail f = fs_rx_remote_avail (rx_ack_advance fs b) ->
    TxRep isn f (mk_tx_stream (a + b) (Z.max n (a + b)) h)).
  { intros f E1 E2. eapply TxRep_view; [exact E1 | rewrite E2; apply R' | exact R']. }
  assert (One : forall f, TxRep isn f (mk_tx_stream (a + b) (Z.max n (a + b)) h) ->
    exists s', rtc tx_step (mk_tx_stream a n h) s' /\ TxRep isn f s' /\
    txs_acked s' = a + b /\ txs_head s' = h /\ (false = true -> b = 0 /\ txs_next s' = txs_acked s')).
  { intros f Hf. exists (mk_tx_stream (a + b) (Z.max n (a + b)) h).
    split_and!; auto using rtc_once; intros; congruence. }
  destruct (Z.eqb_spec b 0) as [->|Hb0]; cbn [negb].
  2:{ intros [= <- <- <-]. apply One, V'; reflexivity. }
  destruct (orig_payload =? 0); [|intros [= <- <- <-]; apply One, V'; reflexivity].
  destruct (3 <=? _); intros [= <- <- <-]; [|apply One, V'; reflexivity].
  exists (mk_tx_stream (a + 0) (a + 0) h). split_and!; auto.
  - eapply rtc_l; [exact St|]. apply rtc_once, txs_reset.
  - eapply flow_reset_retransmit_rep. apply V'; reflexivity.
Qed.

(** Processing the acknowledgement of a received packet moves the
    transmit stream along: an acceptable number moves the acknowledged
    position to the one it names, sending resumes there if it was not sent
    yet, and a third duplicate restarts sending at the acknowledged
    position; the number of bytes reported to the application is the
    progress of the acknowledged position. *)
Theorem rx_ack_refines fs s p orig_payload fs' bump reset :
  TxRep isn fs s -> rx_ack fs p orig_payload = (fs', bump, reset) ->
  exists s', rtc tx_step s s' /\ TxRep isn fs' s' /\
    txs_acked s' = txs_acked s + bump /\ txs_head s' = txs_head s /\
    (reset = true -> bump = 0 /\ txs_next s' = txs_acked s').
Proof. exact (rx_ack_rep fs s p orig_payload fs' bump reset). Qed.
End Tx.

(** ** Payload buffers are rings of DMA memory *)

Definition tx_region_ok (fs : flowst) : Prop :=
  0 <= fs_tx_base fs /\ 0 < fs_tx_len fs < 2147483648 /\
  fs_tx_base fs + fs_tx_len fs <= FLEXNIC_DMA_MEM_SIZE.

Definition rx_base (fs : flowst) : Z := Z.land (fs_rx_base_sp fs) FLEXNIC_PL_FLOWST_RX_MASK.
Definition rx_region_ok (fs : flowst) : Prop :=
  0 <= rx_base fs /\ 0 < fs_rx_len fs < 2147483648 /\
  rx_base fs + fs_rx_len fs <= FLEXNIC_DMA_MEM_SIZE.

Lemma dma_read_ok m a n :
  0 <= a -> 0 <= n -> a + n <= FLEXNIC_DMA_MEM_SIZE -> dma_read m a n = Some (mem_read m a (Z.to_nat n)).
Proof.
  intros. unfold dma_read. unfold FLEXNIC_DMA_MEM_SIZE in *.
  rewrite (proj2 (dma_valid_iff a n ltac:(lia) ltac:(lia))); auto.
Qed.

Lemma dma_write_ok m a bs :
  0 <= a -> a + Z.of_nat (length bs) <= FLEXNIC_DMA_MEM_SIZE -> dma_write m a bs = Some (mem_write m a bs).
Proof.
  intros. unfold dma_write. unfold FLEXNIC_DMA_MEM_SIZE in *.
  rewrite (proj2 (dma_valid_iff a (Z.of_nat (length bs)) ltac:(lia) ltac:(lia))); auto.
Qed.

Lemma flow_tx_read_circ m fs pos len :
  tx_region_ok fs -> 0 <= pos < fs_tx_len fs -> 0 <= len <= fs_tx_len fs ->
  flow_tx_read m fs pos len = Ok (circ_read m (fs_tx_base fs) (fs_tx_len fs) pos len).
Proof.
  intros (Hb & HL & Hm) Hp Hl. unfold flow_tx_read, circ_read, circ_range.
  unfold FLEXNIC_DMA_MEM_SIZE in *.
  rewrite (u32_small (pos + len)), (u64_small (pos + len)), (u64_small (fs_tx_base fs + pos)) by mlia.
  destruct (Z.leb_spec (pos + len) (fs_tx_len fs)).
  - rewrite dma_read_ok by (unfold FLEXNIC_DMA_MEM_SIZE; lia). reflexivity.
  - rewrite (u32_small (fs_tx_len fs - pos)), (u64_small (fs_tx_len fs - pos)) by mlia.
    rewrite (u32_small (len - _)), (u64_small (len - _)) by mlia.
    rewrite !dma_read_ok by (unfold FLEXNIC_DMA_MEM_SIZE; lia). reflexivity.
Qed.

Lemma take_bytes_at l off n k : 0 <= k <= n ->
  take (Z.to_nat k) (bytes_at l off n) = bytes_at l off k.
Proof.
  intros. unfold bytes_at. rewrite firstn_map, take_seq. do 2 f_equal. lia.
Qed.

Lemma drop_bytes_at l off n k : 0 <= k <= n ->
  drop (Z.to_nat k) (bytes_at l off n) = bytes_at l (off + k) (n - k).
Proof.
  intros. apply list_eq. intros i. rewrite lookup_drop. unfold bytes_at.
  rewrite !list_lookup_fmap.
  destruct (decide (i < Z.to_nat (n - k))%nat).
  - rewrite !lookup_seq_lt by lia. cbn. do 2 f_equal. lia.
  - rewrite !lookup_seq_ge by lia. reflexivity.
Qed.

Lemma flow_rx_write_circ m fs pos len src off :
  rx_region_ok fs -> 0 <= pos < fs_rx_len fs -> 0 <= len <= fs_rx_len fs -> len < 65536 ->
  flow_rx_write m fs pos len src off =
    Ok (circ_write m (bytes_at src off len) (rx_base fs) (fs_rx_len fs) pos).
Proof.
  intros (Hb & HL & Hm) Hp Hl Hu. unfold flow_rx_write, circ_write, circ_range.
  fold (rx_base fs). unfold FLEXNIC_DMA_MEM_SIZE in *. rewrite (u16_small len) by mlia.
  rewrite length_bytes_at by lia.
  rewrite (u32_small (pos + len)), (u64_small (pos + len)), (u64_small (rx_base fs + pos)) by mlia.
  destruct (Z.leb_spec (pos + len) (fs_rx_len fs)).
  - rewrite dma_write_ok by (rewrite ?length_bytes_at; unfold FLEXNIC_DMA_MEM_SIZE; lia).
    rewrite take_bytes_at by lia. reflexivity.
  - rewrite (u32_small (fs_rx_len fs - pos)), (u64_small (fs_rx_len fs - pos)) by mlia.
    rewrite (u32_small (len - _)), (u64_small (len - _)) by mlia.
    rewrite drop_bytes_at, !take_bytes_at by lia.
    rewrite dma_write_ok by (rewrite ?length_bytes_at; unfold FLEXNIC_DMA_MEM_SIZE; lia).
    cbn [obind].
    rewrite dma_write_ok by (rewrite ?length_bytes_at; unfold FLEXNIC_DMA_MEM_SIZE; lia).
    reflexivity.
Qed.
