(* ===== verification/TxPath.v ===== *)
(** Theorems on transmission: what [flow_tx_segment] puts on the wire, and that
    [fast_flows_qman] sends the next bytes of the stream.  flexnic/fast_flows.c *)
From stdpp Require Import base numbers list gmap relations.
From Stdlib Require Import ZArith Lia.
From S2P Require Import Prelude Packet FlowState TcpCommon Qman LinkedList Dma Circ FastPath FastRx Stream.

(** The data a segment carries in front of its payload: the timestamp option,
    padded to 12 bytes. *)
Definition ts_opt_bytes (ts_my ts_echo : Z) : list Z :=
  [TCP_OPT_TIMESTAMP; SZ_TS_OPT] ++ be32_bytes ts_my ++ be32_bytes ts_echo ++ [0; 0].

(** A packet the fast path's receiver takes as a plain segment of [n] payload
    bytes with the given header fields. *)
Record segment_is (k : txpkt) (seq ack wnd ts_my ts_echo : Z) (payload : list Z) : Prop := mk_segment_is
  { sg_off : tx_off k = 0;
    sg_len : tx_len k = SZ_PKT_TCP + 12 + Z.of_nat (length payload);
    sg_valid : rx_valid (tx_pkt k) (tx_len k) = true;
    sg_flags : weird_flags (tx_pkt k) = false;
    sg_ack : tcp_flag (tx_pkt k) TCP_ACK = true;
    sg_opts : tcp_parse_options opts_fuel (tx_pkt k) (tx_len k) = Ok (Some (Some 0));
    sg_ts : be32_at (p_data (tx_pkt k)) 2 = u32 ts_my;
    sg_echo : be32_at (p_data (tx_pkt k)) 6 = u32 ts_echo;
    sg_seq : f_beui32 (tcp_seqno (p_tcp (tx_pkt k))) = u32 seq;
    sg_ackno : f_beui32 (tcp_ackno (p_tcp (tx_pkt k))) = u32 ack;
    sg_wnd : f_beui16 (tcp_wnd (p_tcp (tx_pkt k))) = Z.min 65535 wnd;
    sg_paylen : rx_payload_bytes (tx_pkt k) = Z.of_nat (length payload);
    sg_payload : drop (Z.to_nat (tcp_extra_hlen (tx_pkt k))) (p_data (tx_pkt k)) = payload }.

Lemma segment_is_seq k seq seq' ack wnd my echo d :
  u32 seq = u32 seq' -> segment_is k seq ack wnd my echo d -> segment_is k seq' ack wnd my echo d.
Proof. intros E []. split; congruence. Qed.

(** [SZ_PKT_TCP + 12 + n] as the code computes it. *)
Lemma seg_hdr_len : SZ_PKT_TCP + Z.land (SZ_TS_OPT + 3) (Z.lnot 3) = 66.
Proof. reflexivity. Qed.

Section Segment.
Context `{Platform} {nbh : Z}.

(** The packet [flow_tx_segment] builds. *)
Definition segment (fs : flowst) (seq ack rxwnd ts_echo ts_my : Z) (data : list Z) : pkt_tcp :=
  let n := Z.of_nat (length data) in
  let ip := mk_ip_hdr 69 0 (t_beui16 (52 + n)) (t_beui16 3) (t_beui16 0) 255 IP_PROTO_TCP 0
    (fs_local_ip fs) (fs_remote_ip fs) in
  let ip := if Z.land (fs_rx_base_sp fs) FLEXNIC_PL_FLOWST_ECN =? FLEXNIC_PL_FLOWST_ECN
            then IPH_ECN_SET ip IP_ECN_ECT0 else ip in
  tcp_checksums (mk_pkt_tcp
    (mk_eth_hdr (fs_remote_mac fs) eth_addr (t_beui16 ETH_TYPE_IP)) ip
    (mk_tcp_hdr (fs_local_port fs) (fs_remote_port fs) (t_beui32 seq) (t_beui32 ack)
       (TCPH_HDRLEN_FLAGS 8 24) (t_beui16 (MIN 65535 rxwnd)) 0 (t_beui16 0))
    (ts_opt_bytes ts_my ts_echo ++ data)).

Lemma segment_ip_len fs seq ack rxwnd te tm data :
  ip_len (p_ip (segment fs seq ack rxwnd te tm data)) = t_beui16 (52 + Z.of_nat (length data)).
Proof. unfold segment. destruct (_ =? FLEXNIC_PL_FLOWST_ECN); reflexivity. Qed.

Lemma segment_ip_fixed fs seq ack rxwnd te tm data :
  IPH_V (p_ip (segment fs seq ack rxwnd te tm data)) = 4 /\
  IPH_HL (p_ip (segment fs seq ack rxwnd te tm data)) = 5 /\
  ip_proto (p_ip (segment fs seq ack rxwnd te tm data)) = IP_PROTO_TCP.
Proof. unfold segment. destruct (_ =? FLEXNIC_PL_FLOWST_ECN); repeat split; reflexivity. Qed.

Lemma segment_parses fs seq ack rxwnd te tm data :
  Z.of_nat (length data) < 65000 -> 0 <= rxwnd ->
  segment_is (mk_txpkt (tx_handle nbh) 0 (66 + Z.of_nat (length data)) (segment fs seq ack rxwnd te tm data))
    seq ack rxwnd tm te data.
Proof.
  intros Hn Hw. set (n := Z.of_nat (length data)) in *.
  destruct (segment_ip_fixed fs seq ack rxwnd te tm data) as (V & L & P).
  pose proof (segment_ip_len fs seq ack rxwnd te tm data) as E. fold n in E.
  assert (El : f_beui16 (ip_len (p_ip (segment fs seq ack rxwnd te tm data))) = 52 + n)
    by (rewrite E, f_t_beui16, u16_small by mlia; reflexivity).
  assert (Ex : tcp_extra_hlen (segment fs seq ack rxwnd te tm data) = 12)
    by (unfold segment; destruct (_ =? FLEXNIC_PL_FLOWST_ECN); reflexivity).
  assert (Hh : TCPH_HDRLEN (p_tcp (segment fs seq ack rxwnd te tm data)) = 8)
    by (unfold segment; destruct (_ =? FLEXNIC_PL_FLOWST_ECN); reflexivity).
  assert (Ed : p_data (segment fs seq ack rxwnd te tm data) = ts_opt_bytes tm te ++ data)
    by (unfold segment; destruct (_ =? FLEXNIC_PL_FLOWST_ECN); reflexivity).
  split; cbn [tx_off tx_len tx_pkt].
  - reflexivity.
  - unfold SZ_PKT_TCP. lia.
  - unfold rx_valid. rewrite El, V, L, P, Hh.
    change (f_beui16 (eth_type (p_eth (segment fs seq ack rxwnd te tm data)))) with ETH_TYPE_IP.
    unfold SZ_PKT_TCP, SZ_ETH. rewrite !Z.eqb_refl.
    rewrite (proj2 (Z.ltb_ge (66 + n) 54)), (proj2 (Z.ltb_ge (66 + n) (52 + n + 14))) by lia.
    reflexivity.
  - unfold segment; destruct (_ =? FLEXNIC_PL_FLOWST_ECN); reflexivity.
  - unfold segment; destruct (_ =? FLEXNIC_PL_FLOWST_ECN); reflexivity.
  - unfold tcp_parse_options, tcp_opts_len. rewrite Ed, Hh.
    unfold SZ_PKT_TCP. rewrite (u64_small (66 + n - 54)) by lia.
    change (u16 (8 * 4 - 20)) with 12. rewrite (proj2 (Z.ltb_ge _ 12)) by lia. reflexivity.
  - rewrite Ed. unfold ts_opt_bytes. rewrite <- !app_assoc.
    apply (be32_at_bytes [_; _]); [reflexivity | lia].
  - rewrite Ed. unfold ts_opt_bytes. rewrite <- !app_assoc, (app_assoc [_; _]).
    apply (be32_at_bytes ([_; _] ++ be32_bytes tm)); [reflexivity | lia].
  - apply f_t_beui32.
  - apply f_t_beui32.
  - transitivity (f_beui16 (t_beui16 (MIN 65535 rxwnd)));
      [unfold segment; destruct (_ =? FLEXNIC_PL_FLOWST_ECN); reflexivity|].
    rewrite f_t_beui16, MIN_spec. apply u16_small. mlia.
  - unfold rx_payload_bytes. rewrite El, Ex. unfold SZ_IP, SZ_TCP.
    rewrite u32_small by mlia. fold n. lia.
  - rewrite Ed, Ex. apply drop_app_length'. reflexivity.
Qed.

Lemma flow_tx_segment_eq w fs seq ack rxwnd n pos te tm data :
  0 <= n < 65000 ->
  (if 0 <? n then flow_tx_read (fp_mem w) fs pos n else Ok []) = Ok data ->
  Z.of_nat (length data) = n ->
  flow_tx_segment w nbh fs seq ack rxwnd n pos te tm =
    tx_send w nbh 0 (66 + n) (segment fs seq ack rxwnd te tm data).
Proof.
  intros Hn Hr Hl. unfold flow_tx_segment. rewrite seg_hdr_len, (u16_small n) by mlia.
  rewrite Hr. cbn [obind]. unfold segment. rewrite Hl, (u16_small (66 + n)) by mlia.
  replace (66 - SZ_ETH + n) with (52 + n) by (unfold SZ_ETH; lia). reflexivity.
Qed.
End Segment.

(** ** Sending *)

(** The send buffer holds the bytes of [stream] between the acknowledged
    position and the head. *)
Definition tx_holds (stream : Z -> Z) (m : mem) (fs : flowst) (s : tx_stream) : Prop :=
  forall i, txs_acked s <= i < txs_head s ->
    mem_byte m (fs_tx_base fs + i mod fs_tx_len fs) = stream i.

Lemma tx_holds_read isn stream m fs s k :
  TxRep isn fs s -> tx_region_ok fs -> tx_holds stream m fs s ->
  0 <= k <= txs_head s - txs_next s ->
  flow_tx_read m fs (fs_tx_next_pos fs) k = Ok (map stream (seqZ (txs_next s) k)).
Proof.
  intros R Hr Hc Hk. pose proof Hr as (Hb & HL & Hm). destruct R as [HL' HO HF Hq Hp Hs Hh Hw].
  assert (Hpos : 0 <= fs_tx_next_pos fs < fs_tx_len fs) by (rewrite Hp; apply Z.mod_pos_bound; lia).
  rewrite flow_tx_read_circ by (auto; lia). f_equal. apply list_eq. intros i.
  destruct (decide (i < Z.to_nat k)%nat) as [Hi|Hi].
  - replace i with (Z.to_nat (Z.of_nat i)) at 1 by lia.
    rewrite circ_read_lookup by lia. rewrite list_lookup_fmap, lookup_seqZ_lt by lia.
    rewrite Hp, Zplus_mod_idemp_l. cbn. f_equal. apply Hc. lia.
  - rewrite !lookup_ge_None_2; auto; rewrite ?length_map, ?length_seqZ, ?length_circ_read; lia.
Qed.

Lemma lock_free w id : fs_lock (get_flow w id) = 0 ->
  flow_lock w id = Ok (get_flow w id <| fs_lock := 1 |>).
Proof. unfold flow_lock. intros ->. reflexivity. Qed.

Lemma get_flow_unlock w id fs : get_flow (flow_unlock w id fs) id = fs <| fs_lock := 0 |>.
Proof. unfold get_flow, flow_unlock, put_flow. cbn. apply lookup_total_insert_eq. Qed.

Lemma get_flow_unlock_ne w id id' fs : id <> id' -> get_flow (flow_unlock w id fs) id' = get_flow w id'.
Proof. intros. unfold get_flow, flow_unlock, put_flow. cbn. apply lookup_total_insert_ne; auto. Qed.

Lemma tx_send_ok {nbh} w off len p : Z.of_nat (length (fp_tx w)) < TXBUF_SIZE ->
  tx_send w nbh off len p = Ok (w <| fp_tx := fp_tx w ++ [mk_txpkt (tx_handle nbh) off len p] |>).
Proof. intros. unfold tx_send. rewrite (proj2 (Z.leb_gt _ _)) by lia. reflexivity. Qed.

(** C31.  When the queue manager fires a queue of a flow with data to send,
    [fast_flows_qman] sends the next bytes of the stream: at most one MSS, never
    beyond the head, within the receiver's window if the bytes in flight are,
    in a packet that parses back to the stream's sequence number; the transmit
    state represents the stream with the sent position advanced, the lock is
    free again and no other flow is touched. *)
Theorem fast_flows_qman_sends `{Platform} {nbh} w queue ts isn stream s :
  let id := qmant_flow w queue in
  let fs := get_flow w id in
  fs_lock fs = 0 -> fp_steering w !!! fs_flow_group fs = fp_id w -> fs_objconn fs = false ->
  Z.of_nat (length (fp_tx w)) < TXBUF_SIZE -> 0 <= fs_rx_avail fs ->
  TxRep isn fs s -> tx_region_ok fs -> tx_holds stream (fp_mem w) fs s ->
  tcp_txavail fs None <> 0 ->
  exists k w' pk,
    fast_flows_qman w nbh queue ts = Ok (0, w') /\
    0 < k <= TCP_MSS /\ txs_next s + k <= txs_head s /\
    (fs_tx_sent fs <= fs_rx_remote_avail fs ->
     txs_next s + k - txs_acked s <= fs_rx_remote_avail fs) /\
    fp_tx w' = fp_tx w ++ [pk] /\
    tx_nbh pk = tx_handle nbh /\
    segment_is pk (isn + txs_next s) (fs_rx_next_seq fs) (fs_rx_avail fs) ts (fs_tx_next_ts fs)
      (map stream (seqZ (txs_next s) k)) /\
    TxRep isn (get_flow w' id) (mk_tx_stream (txs_acked s) (txs_next s + k) (txs_head s)) /\
    fs_lock (get_flow w' id) = 0 /\
    (forall id', id' <> id -> get_flow w' id' = get_flow w id') /\ fp_mem w' = fp_mem w.
Proof.
  intros id fs Hl Hst Ho Htx Hra R Hreg Hc Hav.
  set (k := MIN (tcp_txavail fs None) TCP_MSS).
  pose proof (TxRep_txbuf_ok _ _ _ R) as Hok.
  assert (Hh : 0 <= default (fs_tx_head fs) None < fs_tx_len fs) by apply Hok.
  pose proof (tcp_txavail_le_unsent fs None Hok Hh) as Hun.
  pose proof (txavail_eq fs None Hok Hh) as Hsp. cbv zeta in Hsp.
  cbn [default] in Hun, Hsp. rewrite (TxRep_unsent _ _ _ R) in Hun, Hsp.
  assert (Hk : 0 < k <= TCP_MSS /\ k <= tcp_txavail fs None)
    by (unfold k; rewrite MIN_spec; unfold TCP_MSS; lia).
  assert (Hkh : 0 <= k <= txs_head s - txs_next s) by lia.
  set (pk := mk_txpkt (tx_handle nbh) 0 (66 + k) (segment fs (fs_tx_next_seq fs) (fs_rx_next_seq fs)
               (fs_rx_avail fs) (fs_tx_next_ts fs) ts (map stream (seqZ (txs_next s) k)))).
  assert (Hlen : Z.of_nat (length (map stream (seqZ (txs_next s) k))) = k)
    by (rewrite length_map, length_seqZ; lia).
  exists k, (flow_unlock (w <| fp_tx := fp_tx w ++ [pk] |>) id (tx_advance (fs <| fs_lock := 1 |>) k)), pk.
  assert (Run : fast_flows_qman w nbh queue ts =
    Ok (0, flow_unlock (w <| fp_tx := fp_tx w ++ [pk] |>) id (tx_advance (fs <| fs_lock := 1 |>) k))).
  { unfold fast_flows_qman. fold id. rewrite lock_free by auto. fold fs. cbn [obind]. fs_cbn.
    rewrite Hst, Z.eqb_refl. cbn [negb].
    change (tcp_txavail (fs <| fs_lock := 1 |>) None) with (tcp_txavail fs None).
    rewrite (proj2 (Z.eqb_neq _ _) Hav). fold k.
    change (fs_objconn (fs <| fs_lock := 1 |>)) with (fs_objconn fs). rewrite Ho. cbn [obind].
    rewrite (flow_tx_segment_eq _ _ _ _ _ _ _ _ _ (map stream (seqZ (txs_next s) k)));
      [|unfold TCP_MSS in Hk; lia | | exact Hlen].
    2:{ rewrite (proj2 (Z.ltb_lt 0 k)) by lia.
        rewrite <- (tx_holds_read isn stream (fp_mem w) fs s k) by auto.
        unfold tx_advance. fs_cbn.
        destruct (fs_tx_len fs <=? u32 (fs_tx_next_pos fs + k)); reflexivity. }
    rewrite tx_send_ok by auto. cbn [obind]. unfold pk.
    unfold segment, tx_advance. fs_cbn.
    destruct (fs_tx_len fs <=? u32 (fs_tx_next_pos fs + k)); reflexivity. }
  destruct s as [a n h]; txs_cbn.
  assert (R' : TxRep isn (tx_advance (fs <| fs_lock := 1 |>) k) (mk_tx_stream a (n + k) h))
    by (apply tx_advance_rep; [apply TxRep_lock, R | lia]).
  split_and!; auto; try lia.
  - intros Hs. rewrite (proj2 (Z.leb_le _ _)) in Hsp by lia.
    destruct R as [_ _ _ _ _ Es _ _]. txs_cbn. lia.
  - pose proof (segment_parses (nbh := nbh) fs (fs_tx_next_seq fs) (fs_rx_next_seq fs) (fs_rx_avail fs)
      (fs_tx_next_ts fs) ts (map stream (seqZ n k))) as P.
    rewrite Hlen in P. unfold TCP_MSS in Hk. specialize (P ltac:(lia) Hra). fold pk in P.
    eapply segment_is_seq; [|exact P].
    destruct R as [_ _ _ Eq _ _ _ _]. rewrite Eq. apply u32_small, u32_range.
  - rewrite get_flow_unlock. apply TxRep_lock, R'.
  - rewrite get_flow_unlock. reflexivity.
  - intros id' Hne. rewrite get_flow_unlock_ne by auto. reflexivity.
Qed.
