(* ===== verification/RxPath.v ===== *)
(** Theorems on reception: [fast_flows_packet] delivers the peer's byte stream
    in order into the receive buffer.  flexnic/fast_flows.c *)
From stdpp Require Import base numbers list gmap relations.
From Stdlib Require Import ZArith Lia.
From S2P Require Import Prelude Packet FlowState TcpCommon Qman LinkedList Dma Circ FastPath FastRx Stream.

(** ** Rings that hold a range of a stream *)

(** The ring of [len] bytes at [base] holds bytes [lo .. hi - 1] of [stream]. *)
Definition ring_holds (stream : Z -> Z) (m : mem) (base len lo hi : Z) : Prop :=
  forall i, lo <= i < hi -> mem_byte m (base + i mod len) = stream i.

Definition mem_same_outside (m m' : mem) (base len : Z) : Prop :=
  forall x, x < base \/ base + len <= x -> mem_byte m' x = mem_byte m x.

Lemma ring_holds_app stream m base len lo mid hi :
  ring_holds stream m base len lo mid -> ring_holds stream m base len mid hi ->
  ring_holds stream m base len lo hi.
Proof.
  intros H1 H2 i Hi. destruct (Z.lt_ge_cases i mid); [apply H1 | apply H2]; lia.
Qed.

Lemma ring_holds_sub stream m base len lo hi lo' hi' :
  ring_holds stream m base len lo hi -> lo <= lo' -> hi' <= hi ->
  ring_holds stream m base len lo' hi'.
Proof. intros H1 Hlo Hhi i Hi. apply H1. lia. Qed.

Lemma bytes_at_lookup l off n k : 0 <= k < n ->
  bytes_at l off n !! Z.to_nat k = Some (byte_at l (off + k)).
Proof.
  intros. unfold bytes_at. rewrite list_lookup_fmap, lookup_seq_lt by lia. cbn. do 3 f_equal. lia.
Qed.

Section RingWrite.
Context (stream : Z -> Z) (m : mem) (base len s k : Z) (src : list Z) (off : Z).
Hypothesis Hlen : 0 < len < 4294967296.
Hypothesis Hk : 0 <= k <= len.
Hypothesis Hsrc : forall j, 0 <= j < k -> byte_at src (off + j) = stream (s + j).
Let m' := circ_write m (bytes_at src off k) base len (s mod len).

Lemma ring_write_byte i : s + k - len <= i < s + len ->
  mem_byte m' (base + i mod len) =
    if decide (s <= i < s + k) then stream i else mem_byte m (base + i mod len).
Proof.
  intros Hi. unfold m'. pose proof (Z.mod_pos_bound i len ltac:(lia)).
  pose proof (Z.mod_pos_bound s len ltac:(lia)).
  rewrite circ_write_byte by (auto; rewrite ?length_bytes_at; lia).
  rewrite Zminus_mod_idemp_l, Zminus_mod_idemp_r.
  destruct (decide _).
  - rewrite (Z.mod_small (i - s)), bytes_at_lookup, Hsrc by lia. cbn. f_equal. lia.
  - rewrite lookup_ge_None_2; auto.
    enough (k <= (i - s) mod len) by (pose proof (length_bytes_at src off k ltac:(lia)); lia).
    destruct (Z.lt_ge_cases i s).
    + rewrite <- (Z.mod_unique_pos (i - s) len (-1) (i - s + len)); lia.
    + rewrite (Z.mod_small (i - s)); lia.
Qed.

(** What the ring held within one buffer length of the written range it
    still holds, and the written range holds the stream. *)
Lemma ring_write_holds lo hi :
  ring_holds stream m base len lo hi -> s + k - len <= lo -> hi <= s + len ->
  ring_holds stream m' base len lo hi.
Proof.
  intros H Hlo Hhi i Hi. rewrite ring_write_byte by lia. destruct (decide _); auto.
Qed.

Lemma ring_write_holds_new : ring_holds stream m' base len s (s + k).
Proof. intros i Hi. rewrite ring_write_byte by lia. rewrite decide_True by lia. reflexivity. Qed.

Lemma ring_write_outside : mem_same_outside m m' base len.
Proof.
  intros x Hx. unfold m', circ_write, circ_range. rewrite length_bytes_at by lia.
  pose proof (Z.mod_pos_bound s len ltac:(lia)).
  rewrite (u64_small (s mod len + k)) by lia. destruct (Z.leb_spec (s mod len + k) len).
  - rewrite take_bytes_at by lia. apply mem_write_out. rewrite length_bytes_at by lia. lia.
  - rewrite (u64_small (len - _)), (u64_small (k - _)) by lia.
    rewrite drop_bytes_at, !take_bytes_at by lia.
    rewrite !mem_write_out; auto; rewrite length_bytes_at by lia; lia.
Qed.
End RingWrite.

(** ** The receive stream *)

(** Next position expected, end of the window, and the interval received out
    of order (start and length). *)
Record rx_stream := mk_rx_stream { rxs_next : Z; rxs_wend : Z; rxs_ooo : option (Z * Z) }.

Record RxCore (irs : Z) (stream : Z -> Z) (m : mem) (fs : flowst) (next wend : Z) : Prop := mk_RxCore
  { rxc_region : rx_region_ok fs;
    rxc_order : next <= wend <= next + fs_rx_len fs;
    rxc_seq : fs_rx_next_seq fs = u32 (irs + next);
    rxc_pos : fs_rx_next_pos fs = next mod fs_rx_len fs;
    rxc_avail : fs_rx_avail fs = wend - next;
    rxc_data : ring_holds stream m (rx_base fs) (fs_rx_len fs) (wend - fs_rx_len fs) next }.

(** The out-of-order interval [(o, l)], which lies after [lo]. *)
Definition RxOoo (irs : Z) (stream : Z -> Z) (m : mem) (fs : flowst) (lo wend : Z)
    (ooo : option (Z * Z)) : Prop :=
  match ooo with
  | None => fs_rx_ooo_len fs = 0
  | Some (o, l) =>
      0 < l /\ lo < o /\ o + l <= wend /\ fs_rx_ooo_start fs = u32 (irs + o) /\
      fs_rx_ooo_len fs = l /\ ring_holds stream m (rx_base fs) (fs_rx_len fs) o (o + l)
  end.

Definition RxRep irs stream m fs (s : rx_stream) : Prop :=
  RxCore irs stream m fs (rxs_next s) (rxs_wend s) /\
  RxOoo irs stream m fs (rxs_next s) (rxs_wend s) (rxs_ooo s).

Definition rx_view (fs : flowst) : Z * Z * Z * Z * Z * Z * Z :=
  (fs_rx_base_sp fs, fs_rx_len fs, fs_rx_avail fs, fs_rx_next_pos fs, fs_rx_next_seq fs,
   fs_rx_ooo_start fs, fs_rx_ooo_len fs).

Lemma rx_base_view fs fs' : rx_view fs' = rx_view fs -> rx_base fs' = rx_base fs.
Proof. unfold rx_view, rx_base. intros E. simplify_eq. congruence. Qed.

Lemma RxCore_view irs stream m fs fs' n w :
  rx_view fs' = rx_view fs -> RxCore irs stream m fs n w -> RxCore irs stream m fs' n w.
Proof.
  intros E []. pose proof (rx_base_view _ _ E) as B. unfold rx_view, rx_region_ok in *. simplify_eq.
  split; unfold rx_region_ok; rewrite ?B; congruence || (repeat match goal with H : _ fs' = _ |- _ => rewrite H end; auto).
Qed.

Lemma RxOoo_view irs stream m fs fs' lo w o :
  rx_view fs' = rx_view fs -> RxOoo irs stream m fs lo w o -> RxOoo irs stream m fs' lo w o.
Proof.
  intros E. pose proof (rx_base_view _ _ E) as B. unfold rx_view, RxOoo in *. simplify_eq.
  rewrite B. repeat match goal with H : _ fs' = _ |- _ => rewrite H end. auto.
Qed.

Lemma RxRep_view irs stream m fs fs' s :
  rx_view fs' = rx_view fs -> RxRep irs stream m fs s -> RxRep irs stream m fs' s.
Proof. intros E [H1 H2]. split; eauto using RxCore_view, RxOoo_view. Qed.

Section Rx.
Context (irs : Z) (stream : Z -> Z).

Lemma RxCore_rxwin m fs next wend : RxCore irs stream m fs next wend -> rxwin_ok fs.
Proof.
  intros [(?&?&?) ?]. unfold rxwin_ok. rewrite rxc_seq0, rxc_avail0.
  split; [apply u32_range | lia].
Qed.

(** What receiving data leaves alone. *)
Definition rx_frame (fs : flowst) : Z * Z * (Z * Z * Z * Z * Z) * Z :=
  (fs_rx_base_sp fs, fs_rx_len fs, tx_view fs, fs_rx_remote_avail fs).

Lemma rx_advance_core m fs next wend n :
  RxCore irs stream m fs next wend -> 0 <= n <= wend - next ->
  ring_holds stream m (rx_base fs) (fs_rx_len fs) next (next + n) ->
  exists fs', rx_advance fs n = Ok fs' /\ RxCore irs stream m fs' (next + n) wend /\
    rx_frame fs' = rx_frame fs /\
    fs_rx_ooo_start fs' = fs_rx_ooo_start fs /\ fs_rx_ooo_len fs' = fs_rx_ooo_len fs.
Proof.
  intros [Hr HO Hq Hp Ha Hd] Hn Hnew. pose proof Hr as (Hb & HL & Hm).
  pose proof (Z.mod_pos_bound next (fs_rx_len fs)).
  pose proof (Z.mod_pos_bound (next + n) (fs_rx_len fs)).
  pose proof (ring_advance next n (fs_rx_len fs) ltac:(lia) ltac:(lia)) as R.
  unfold rx_advance. fs_cbn. rewrite Hp, (u32_small (next mod _ + n)) by mlia.
  destruct (Z.leb_spec (fs_rx_len fs) (next mod fs_rx_len fs + n)); fs_cbn;
    rewrite R, (proj2 (Z.ltb_lt _ _)) by lia; eexists; (split; [reflexivity|]).
  all: split; [|repeat split; reflexivity].
  all: split; unfold rx_region_ok, rx_base in *; fs_cbn; auto; try lia.
  all: try (rewrite Hq, u32_add_l; f_equal; lia).
  all: try (rewrite Ha, u32_small by mlia; lia).
  all: eapply ring_holds_app; eauto.
Qed.

Lemma RxCore_ooo m fs next wend start k :
  RxCore irs stream m fs next wend ->
  RxCore irs stream m (fs <| fs_rx_ooo_start := start |> <| fs_rx_ooo_len := k |>) next wend.
Proof. intros []. split; unfold rx_region_ok, rx_base in *; fs_cbn; auto. Qed.

Lemma ooo_start_eta fs : fs <| fs_rx_ooo_start := fs_rx_ooo_start fs |> = fs.
Proof. destruct fs; reflexivity. Qed.

Lemma rx_frame_ooo fs start k :
  rx_frame (fs <| fs_rx_ooo_start := start |> <| fs_rx_ooo_len := k |>) = rx_frame fs.
Proof. reflexivity. Qed.

Lemma trim_u16 fs seq n : tcp_trim_rxbuf fs seq (u16 n) = tcp_trim_rxbuf fs seq n.
Proof.
  unfold tcp_trim_rxbuf. rewrite (u16_small (u16 n)) by apply u16_range. reflexivity.
Qed.

(** The out-of-order interval never falls into the gap of
    [tcp_trim_rxbuf]. *)
Lemma trim_ooo fs next wend o l :
  rxwin_ok fs -> fs_rx_next_seq fs = u32 (irs + next) -> fs_rx_avail fs = wend - next ->
  wend - next < 2147483648 -> 0 < l < 2147483648 -> next - o < 2147483648 -> o + l <= wend ->
  tcp_trim_rxbuf fs (u32 (irs + o)) l =
    if next <=? o then Some (0, 0)
    else if next - o <=? u16 l then Some (next - o, 0) else None.
Proof.
  intros Hw Hq Ha Hs Hl Hd Ho. rewrite <- trim_u16, trim_rxbuf_eq
    by (auto using u16_range, u32_range).
  pose proof (u16_range l) as Hu. assert (u16 l <= l) by mlia.
  assert (Hoff : u32 (u32 (irs + o) - fs_rx_next_seq fs) =
            if next <=? o then o - next else o - next + 4294967296).
  { rewrite Hq. clear -Hs Hl Hd Ho. bsplit; mlia. }
  assert (Hdd : o < next -> u32 (fs_rx_next_seq fs - u32 (irs + o)) = next - o)
    by (rewrite Hq; clear -Hs Hl Hd Ho; mlia).
  destruct Hw as [Hw1 Hw2].
  assert (G : trim_gap fs (u32 (irs + o)) (u16 l) = false).
  { unfold trim_gap, pkt_wraps, buf_wraps. unfold is_u16, is_u32 in *.
    pose proof (u32_range (irs + o)) as Hr. unfold is_u32 in Hr.
    revert Hoff. destruct (Z.leb_spec next o); intros Hoff;
      revert Hoff; u32_split; intros Hoff; bprune; reflexivity. }
  rewrite G. unfold rxbuf_ref. rewrite Hoff, Ha. unfold is_u16 in *.
  destruct (Z.leb_spec next o).
  - rewrite (proj2 (Z.leb_le _ _)) by lia. rewrite Z.max_l by lia. reflexivity.
  - rewrite (proj2 (Z.leb_gt _ _)), Hdd by lia. destruct (_ <=? u16 l); auto.
    rewrite Z.max_l by lia. reflexivity.
Qed.

(** Delivery of [k] bytes received out of order, the gap being closed. *)
Lemma rx_deliver m fs next wend start k :
  RxCore irs stream m fs next wend -> 0 <= k <= wend - next ->
  ring_holds stream m (rx_base fs) (fs_rx_len fs) next (next + k) ->
  exists fs',
    obind (rx_advance (fs <| fs_rx_ooo_start := start |> <| fs_rx_ooo_len := k |>) k)
      (fun fs => Ok (fs <| fs_rx_ooo_len := 0 |>, k)) = Ok (fs', k) /\
    RxRep irs stream m fs' (mk_rx_stream (next + k) wend None) /\ rx_frame fs' = rx_frame fs.
Proof.
  intros C Hk Hh. pose proof (RxCore_ooo _ _ _ _ start k C) as C'.
  destruct (rx_advance_core m _ next wend k C' Hk) as (fs' & -> & C2 & F & _ & _); [exact Hh|].
  exists (fs' <| fs_rx_ooo_len := 0 |>). split; [reflexivity|]. split; [|exact F].
  split; [|reflexivity]. destruct C2. split; unfold rx_region_ok, rx_base in *; fs_cbn; auto.
Qed.

Lemma rx_drop_ooo m fs next wend :
  RxCore irs stream m fs next wend -> fs_rx_ooo_len fs = 0 ->
  RxRep irs stream m fs (mk_rx_stream next wend None).
Proof. intros. split; auto. Qed.

(** [rx_ooo_merge] after the window moved from [lo] to [next]. *)
Lemma rx_ooo_merge_rep m fs lo next wend ooo :
  RxCore irs stream m fs next wend -> RxOoo irs stream m fs lo wend ooo ->
  lo <= next -> wend <= lo + fs_rx_len fs ->
  exists fs' k ooo', rx_ooo_merge fs = Ok (fs', k) /\ 0 <= k <= wend - next /\
    RxRep irs stream m fs' (mk_rx_stream (next + k) wend ooo') /\ rx_frame fs' = rx_frame fs.
Proof.
  intros C O Hlo Hwl. pose proof C as [(Hb & HL & Hm) HO Hq Hp Ha Hd].
  assert (None0 : forall f, RxCore irs stream m f next wend -> fs_rx_ooo_len f = 0 ->
    rx_frame f = rx_frame fs ->
    exists fs' k ooo', Ok (f, 0) = Ok (fs', k) /\ 0 <= k <= wend - next /\
    RxRep irs stream m fs' (mk_rx_stream (next + k) wend ooo') /\ rx_frame fs' = rx_frame fs).
  { intros f Cf Z0 Ff. exists f, 0, None. rewrite Z.add_0_r. split_and!; auto using rx_drop_ooo; lia. }
  unfold rx_ooo_merge. destruct ooo as [[o l]|]; cbn in O.
  2:{ rewrite O. apply None0; auto. }
  destruct O as (Hl & Ho & Hend & Es & El & Hold).
  rewrite El, Es, (proj2 (Z.eqb_neq l 0)) by lia.
  rewrite (trim_ooo fs next wend o l) by (eauto using RxCore_rxwin; lia).
  destruct (Z.leb_spec next o) as [Hno|Hno];
    [|pose proof (u16_range l); assert (u16 l <= l) by mlia; unfold is_u16 in *;
      destruct (Z.leb_spec (next - o) (u16 l)) as [Hc|Hc];
        [|apply None0; auto; destruct C; split; unfold rx_region_ok, rx_base in *; fs_cbn; auto]].
  - rewrite !Z.add_0_r, Z.sub_0_r, (u32_small (u32 _)), (u32_small l)
      by (apply u32_range || mlia). fs_cbn.
    rewrite (proj2 (Z.ltb_lt 0 l)), Hq by lia. cbn [andb].
    destruct (Z.eqb_spec (u32 (irs + o)) (u32 (irs + next))) as [E|E].
    + assert (o = next) as -> by (clear -E Hno Hend HO HL Hl; mlia).
      destruct (rx_deliver m fs next wend (u32 (irs + next)) l C) as (fs' & -> & R & F); [lia | auto |].
      exists fs', l, None. split_and!; auto; lia.
    + assert (o <> next) by congruence. eexists _, 0, (Some (o, l)).
      rewrite Z.add_0_r. split_and!; try reflexivity; try lia.
      split; [apply RxCore_ooo, C|]. cbn. fs_cbn. split_and!; auto; lia.
  - rewrite u32_add_l, Z.add_0_r, (u32_small (l - (next - o))) by mlia.
    replace (irs + o + (next - o)) with (irs + next) by lia. fs_cbn.
    rewrite Hq, Z.eqb_refl, andb_true_r.
    destruct (Z.ltb_spec 0 (l - (next - o))) as [Hk|Hk].
    + destruct (rx_deliver m fs next wend (u32 (irs + next)) (l - (next - o)) C) as (fs' & -> & R & F);
        [lia | eapply ring_holds_sub; [exact Hold | lia | lia] |].
      exists fs', (l - (next - o)), None. split_and!; auto; lia.
    + apply None0; [apply RxCore_ooo, C | fs_cbn; lia | reflexivity].
Qed.

(** ** Payload *)

(** A write that starts in the window and is not longer than the buffer. *)
Lemma seq_write_in_window m fs next wend s k src off start len :
  RxCore irs stream m fs next wend -> next <= s <= wend -> 0 < k <= fs_rx_len fs -> k < 65536 ->
  flow_rx_seq_write m (fs <| fs_rx_ooo_start := start |> <| fs_rx_ooo_len := len |>)
    (u32 (irs + s)) k src off =
    Ok (circ_write m (bytes_at src off k) (rx_base fs) (fs_rx_len fs) (s mod fs_rx_len fs)).
Proof.
  intros [Hr HO Hq Hp Ha Hd] Hs Hk Hk16. pose proof Hr as (Hb & HL & Hm).
  unfold flow_rx_seq_write. fs_cbn. rewrite Hq, Hp.
  assert (E : u32 (u32 (irs + s) - u32 (irs + next)) = s - next) by (clear -Hs HO HL; mlia).
  pose proof (Z.mod_pos_bound next (fs_rx_len fs)). pose proof (Z.mod_pos_bound s (fs_rx_len fs)).
  rewrite E, (u32_small (next mod _ + _)) by mlia.
  pose proof (ring_advance next (s - next) (fs_rx_len fs) ltac:(lia) ltac:(lia)) as R.
  replace (next + (s - next)) with s in R by lia.
  assert (R' : (if fs_rx_len fs <=? next mod fs_rx_len fs + (s - next)
    then u32 (next mod fs_rx_len fs + (s - next) - fs_rx_len fs)
    else next mod fs_rx_len fs + (s - next)) = s mod fs_rx_len fs)
    by (rewrite <- R; bsplit; auto; apply u32_small; mlia).
  rewrite R', (proj2 (Z.ltb_lt _ _)) by lia. cbn [obind assert_].
  set (f := fs <| fs_rx_ooo_start := start |> <| fs_rx_ooo_len := len |>).
  change (rx_region_ok f) in Hr. change (fs_rx_len fs) with (fs_rx_len f) in *.
  exact (flow_rx_write_circ m f (s mod fs_rx_len f) k src off Hr ltac:(lia) ltac:(lia) Hk16).
Qed.

(** A write of stream bytes into the unused part of the window. *)
Section Payload.
Context (m : mem) (fs : flowst) (next wend s k : Z) (src : list Z) (off : Z).
Hypothesis C : RxCore irs stream m fs next wend.
Hypothesis Hs : next <= s /\ s + k <= wend.
Hypothesis Hk : 0 <= k < 65536.
Hypothesis Hsrc : forall j, 0 <= j < k -> byte_at src (off + j) = stream (s + j).
Let m' := circ_write m (bytes_at src off k) (rx_base fs) (fs_rx_len fs) (s mod fs_rx_len fs).

Lemma write_core fs' :
  rx_base fs' = rx_base fs -> fs_rx_len fs' = fs_rx_len fs ->
  RxCore irs stream m fs' next wend -> RxCore irs stream m' fs' next wend.
Proof.
  intros EB EL [Hr HO Hq Hp Ha Hd]. split; auto. rewrite EB, EL in *.
  pose proof C as [(Hb & HL & Hm) _ _ _ _ _].
  apply ring_write_holds; auto; lia.
Qed.

Lemma write_holds lo hi : next <= lo -> hi <= wend ->
  ring_holds stream m (rx_base fs) (fs_rx_len fs) lo hi ->
  ring_holds stream m' (rx_base fs) (fs_rx_len fs) lo hi.
Proof.
  intros Hlo Hhi Hh. pose proof C as [(Hb & HL & Hm) HO _ _ _ _].
  apply ring_write_holds; auto; lia.
Qed.

Lemma write_holds_new : ring_holds stream m' (rx_base fs) (fs_rx_len fs) s (s + k).
Proof. pose proof C as [(Hb & HL & Hm) HO _ _ _ _]. apply ring_write_holds_new; auto; lia. Qed.

Lemma write_outside : mem_same_outside m m' (rx_base fs) (fs_rx_len fs).
Proof. pose proof C as [(Hb & HL & Hm) HO _ _ _ _]. apply ring_write_outside; auto; lia. Qed.

Lemma flow_rx_seq_write_ok start len : 0 < k ->
  flow_rx_seq_write m (fs <| fs_rx_ooo_start := start |> <| fs_rx_ooo_len := len |>)
    (u32 (irs + s)) k src off = Ok m'.
Proof. intros Hk0. pose proof C as [_ HO _ _ _ _]. apply (seq_write_in_window m fs next wend); auto; lia. Qed.
End Payload.

Lemma rx_ooo_rep m fs next wend ooo s n src off :
  RxRep irs stream m fs (mk_rx_stream next wend ooo) ->
  (n = 0 \/ next < s /\ s + n <= wend) -> 0 <= n < 65536 ->
  (forall j, 0 <= j < n -> byte_at src (off + j) = stream (s + j)) ->
  exists fs' m' ooo', rx_ooo fs m (u32 (irs + s)) n src off = Ok (fs', m') /\
    RxRep irs stream m' fs' (mk_rx_stream next wend ooo') /\ rx_frame fs' = rx_frame fs /\
    mem_same_outside m m' (rx_base fs) (fs_rx_len fs).
Proof.
  intros [C O] Hs Hn Hsrc. cbn in C, O. unfold rx_ooo.
  assert (Same : exists fs' m' ooo', Ok (fs, m) = Ok (fs', m') /\
    RxRep irs stream m' fs' (mk_rx_stream next wend ooo') /\ rx_frame fs' = rx_frame fs /\
    mem_same_outside m m' (rx_base fs) (fs_rx_len fs))
    by (exists fs, m, ooo; split_and!; auto; [split; auto | intros x _; reflexivity]).
  destruct (Z.eqb_spec n 0) as [|Hn0]; [exact Same|]. destruct Hs as [|[Hs Hsn]]; [lia|].
  pose proof C as [(Hb & HL & Hm) HO _ _ _ _].
  (* the three cases that store the payload: the new interval is [o', l'] *)
  assert (Store : forall o' l', next < o' -> o' + l' <= wend -> 0 < l' ->
    ring_holds stream (circ_write m (bytes_at src off n) (rx_base fs) (fs_rx_len fs)
      (s mod fs_rx_len fs)) (rx_base fs) (fs_rx_len fs) o' (o' + l') ->
    exists fs' m' ooo',
      obind (flow_rx_seq_write m (fs <| fs_rx_ooo_start := u32 (irs + o') |> <| fs_rx_ooo_len := l' |>)
               (u32 (irs + s)) n src off)
        (fun m => Ok (fs <| fs_rx_ooo_start := u32 (irs + o') |> <| fs_rx_ooo_len := l' |>, m)) =
        Ok (fs', m') /\
      RxRep irs stream m' fs' (mk_rx_stream next wend ooo') /\ rx_frame fs' = rx_frame fs /\
      mem_same_outside m m' (rx_base fs) (fs_rx_len fs)).
  { intros o' l' H1 H2 H3 Hh. rewrite (flow_rx_seq_write_ok m fs next wend) by (auto; lia).
    eexists _, _, (Some (o', l')). split; [reflexivity|]. split; [|split; [reflexivity|]].
    - split; cbn.
      + eapply (write_core m fs next wend); eauto; try reflexivity; try lia. apply RxCore_ooo, C.
      + fs_cbn. split_and!; auto.
    - eapply write_outside; eauto; lia. }
  assert (New : ring_holds stream (circ_write m (bytes_at src off n) (rx_base fs) (fs_rx_len fs)
      (s mod fs_rx_len fs)) (rx_base fs) (fs_rx_len fs) s (s + n))
    by (eapply write_holds_new; eauto; lia).
  destruct ooo as [[o l]|]; cbn in O.
  2:{ rewrite O. cbn [Z.eqb]. apply (Store s n); auto; lia. }
  destruct O as (Hl & Ho & Hend & Es & El & Hold).
  assert (Old : ring_holds stream (circ_write m (bytes_at src off n) (rx_base fs) (fs_rx_len fs)
      (s mod fs_rx_len fs)) (rx_base fs) (fs_rx_len fs) o (o + l))
    by (eapply write_holds; eauto; lia).
  rewrite El, Es, (proj2 (Z.eqb_neq l 0)), !u32_add_l by lia.
  destruct (Z.eqb_spec (u32 (irs + s + n)) (u32 (irs + o))) as [E|_];
    [|destruct (Z.eqb_spec (u32 (irs + o + l)) (u32 (irs + s))) as [E|_]; [|exact Same]].
  - assert (o = s + n) as -> by (clear -E Hs Hsn Ho Hend HO HL Hl Hn; mlia).
    rewrite (u32_small (l + n)) by mlia. apply (Store s (l + n)); try lia.
    replace (s + (l + n)) with (s + n + l) by lia. eapply ring_holds_app; eauto.
  - assert (s = o + l) as -> by (clear -E Hs Hsn Ho Hend HO HL Hl Hn; mlia).
    rewrite (u32_small (l + n)) by mlia.
    pose proof (Store o (l + n)) as St. rewrite <- Es, ooo_start_eta in St.
    apply St; try lia.
    replace (o + (l + n)) with (o + l + n) by lia. eapply ring_holds_app; eauto.
Qed.

Lemma rx_data_rep m fs next wend ooo n src off :
  RxRep irs stream m fs (mk_rx_stream next wend ooo) ->
  0 <= n <= wend - next -> n < 65536 ->
  (forall j, 0 <= j < n -> byte_at src (off + j) = stream (next + j)) ->
  exists fs' m' k ooo', rx_data fs m n src off = Ok (fs', m', k) /\ n <= k <= wend - next /\
    RxRep irs stream m' fs' (mk_rx_stream (next + k) wend ooo') /\ rx_frame fs' = rx_frame fs /\
    mem_same_outside m m' (rx_base fs) (fs_rx_len fs).
Proof.
  intros [C O] Hn Hn16 Hsrc. cbn in C, O. unfold rx_data.
  destruct (Z.ltb_spec 0 n).
  2:{ exists fs, m, 0, ooo. rewrite Z.add_0_r. split_and!; auto; try lia;
        [split; auto | intros x _; reflexivity]. }
  pose proof C as [Hr HO Hq Hp Ha Hd]. pose proof Hr as (Hb & HL & Hm).
  pose proof (Z.mod_pos_bound next (fs_rx_len fs)).
  rewrite Hp, flow_rx_write_circ by (auto; lia). cbn [obind].
  set (m' := circ_write _ _ _ _ _).
  assert (C' : RxCore irs stream m' fs next wend) by (eapply (write_core m fs next wend); eauto; lia).
  assert (N : ring_holds stream m' (rx_base fs) (fs_rx_len fs) next (next + n))
    by (eapply write_holds_new; eauto; lia).
  destruct (rx_advance_core m' fs next wend n C' Hn N) as (fs1 & -> & C1 & F1 & Eo & El). cbn [obind].
  assert (EB : rx_base fs1 = rx_base fs /\ fs_rx_len fs1 = fs_rx_len fs)
    by (unfold rx_frame in F1; unfold rx_base; simplify_eq; split; congruence).
  destruct EB as [EB EL].
  assert (O1 : RxOoo irs stream m' fs1 next wend ooo).
  { unfold RxOoo in *. rewrite EB, EL, Eo, El. destruct ooo as [[o l]|]; auto.
    destruct O as (?&?&?&?&?&?). split_and!; auto. eapply write_holds; eauto; lia. }
  destruct (rx_ooo_merge_rep m' fs1 next (next + n) wend ooo C1 O1) as (fs2 & k & ooo' & -> & Hk & R & F2);
    [lia | lia |].
  cbn [obind]. rewrite u32_small by mlia. exists fs2, m', (n + k), ooo'.
  rewrite Z.add_assoc. split_and!; auto; try lia; [congruence|].
  eapply write_outside; eauto; lia.
Qed.
End Rx.

(** ** The handler *)

Lemma rx_cc_stats_views fs p :
  rx_view (rx_cc_stats fs p) = rx_view fs /\ tx_view (rx_cc_stats fs p) = tx_view fs /\
  fs_rx_remote_avail (rx_cc_stats fs p) = fs_rx_remote_avail fs.
Proof.
  unfold rx_cc_stats. destruct (tcp_flag p TCP_ACK); [destruct (tcp_flag p TCP_ECE)|];
    repeat split; reflexivity.
Qed.

Lemma rx_ack_advance_view fs b : rx_view (rx_ack_advance fs b) = rx_view fs.
Proof.
  unfold rx_ack_advance. fs_cbn. destruct (b <=? fs_tx_sent fs); [reflexivity|].
  destruct (fs_tx_len fs <=? _); reflexivity.
Qed.

Lemma flow_reset_retransmit_view fs : rx_view (flow_reset_retransmit fs) = rx_view fs.
Proof.
  unfold flow_reset_retransmit. fs_cbn. destruct (fs_tx_sent fs <=? fs_tx_next_pos fs); fs_cbn;
    destruct (fs_cnt_tx_drops fs =? 0); reflexivity.
Qed.

Lemma rx_ack_view fs p n fs' b r : rx_ack fs p n = (fs', b, r) -> rx_view fs' = rx_view fs.
Proof.
  unfold rx_ack. destruct (tcp_flag p TCP_ACK); [|intros [= <- _ _]; reflexivity].
  destruct (tcp_valid_rxack fs _) as [k|]; [|intros [= <- _ _]; reflexivity].
  pose proof (rx_ack_advance_view fs k) as V. revert V. generalize (rx_ack_advance fs k). intros f V.
  destruct (negb (k =? 0)); [intros [= <- _ _]; exact V|].
  destruct (n =? 0); [|intros [= <- _ _]; exact V].
  destruct (3 <=? _); intros [= <- _ _]; [|exact V].
  rewrite flow_reset_retransmit_view. exact V.
Qed.

Lemma rx_rtt_views fs p tso ts :
  rx_view (rx_rtt fs p tso ts) = rx_view fs /\ tx_view (rx_rtt fs p tso ts) = tx_view fs /\
  is_u32 (fs_rx_remote_avail (rx_rtt fs p tso ts)).
Proof.
  unfold rx_rtt. fs_cbn.
  assert (is_u32 (f_beui16 (tcp_wnd (p_tcp p)))) by (unfold f_beui16, bswap16; mlia).
  destruct (tcp_flag p TCP_ACK && _); [destruct (negb (fs_rtt_est fs =? 0))|];
    (split; [reflexivity | split; [reflexivity | fs_cbn; auto]]).
Qed.

Lemma trim_gap_view fs fs' seq n : rx_view fs' = rx_view fs -> trim_gap fs' seq n = trim_gap fs seq n.
Proof.
  unfold rx_view, trim_gap, buf_wraps. intros E. simplify_eq.
  repeat match goal with H : _ fs' = _ |- _ => rewrite H end. reflexivity.
Qed.

Lemma objconn_view fs' fs : rx_view fs' = rx_view fs -> fs_objconn fs' = fs_objconn fs.
Proof. unfold rx_view, fs_objconn. intros E. simplify_eq. congruence. Qed.

(** The payload of [p] is a piece of the stream, not far from position
    [next]. *)
Definition segment_of (irs : Z) (stream : Z -> Z) (next : Z) (p : pkt_tcp) : Prop :=
  exists s0, f_beui32 (tcp_seqno (p_tcp p)) = u32 (irs + s0) /\
    -1073741824 < s0 - next < 1073741824 /\ rx_payload_bytes p < 65536 /\
    forall j, 0 <= j < rx_payload_bytes p ->
      byte_at (p_data p) (tcp_extra_hlen p + j) = stream (s0 + j).

(** Where the trimmed payload lies in the stream. *)
Lemma trim_position irs fs next wend s0 n ts te :
  rxwin_ok fs -> fs_rx_next_seq fs = u32 (irs + next) -> fs_rx_avail fs = wend - next ->
  wend - next < 2147483648 -> -1073741824 < s0 - next < 1073741824 -> is_u16 n ->
  rxbuf_ref fs (u32 (irs + s0)) n = Some (ts, te) ->
  0 <= ts /\ 0 <= te /\ ts + te <= n /\
  (n - ts - te = 0 \/ next <= s0 + ts /\ s0 + ts + (n - ts - te) <= wend).
Proof.
  intros Hw Hq Ha Hs H0 Hn E. unfold is_u16 in *.
  destruct (rxbuf_ref_fits fs (u32 (irs + s0)) n ts te) as (H1 & H2 & H3 & H4); auto using u32_range.
  split_and!; auto. destruct H4 as [|H4]; [auto|]. rewrite Hq, Ha in H4.
  destruct (Z.eq_dec (n - ts - te) 0); [auto|]. right. clear -H1 H2 H3 H4 H0 Hs Hn n0. mlia.
Qed.

Section Process.
Context `{Platform} (irs isn : Z) (stream : Z -> Z).

(** The receive stream after [rx_process] and what happened to the transmit
    stream. *)
Definition delivered (fs0 : flowst) (m0 : mem) (s : rx_stream) (t : tx_stream)
    (fs : flowst) (m : mem) (rx_bump tx_bump : Z) : Prop :=
  (exists ooo, RxRep irs stream m fs (mk_rx_stream (rxs_next s + rx_bump) (rxs_wend s) ooo)) /\
  0 <= rx_bump /\
  (exists t', rtc tx_step t t' /\ TxRep isn fs t' /\
     txs_acked t' = txs_acked t + tx_bump /\ txs_head t' = txs_head t) /\
  mem_same_outside m0 m (rx_base fs0) (fs_rx_len fs0).

Lemma delivered_intro fs0 m0 s t fs1 fs m k tx_bump t' ooo :
  rx_view fs1 = rx_view fs0 -> rx_frame fs = rx_frame fs1 ->
  rtc tx_step t t' -> TxRep isn fs1 t' -> txs_acked t' = txs_acked t + tx_bump ->
  txs_head t' = txs_head t -> 0 <= k ->
  RxRep irs stream m fs (mk_rx_stream (rxs_next s + k) (rxs_wend s) ooo) ->
  mem_same_outside m0 m (rx_base fs1) (fs_rx_len fs1) ->
  delivered fs0 m0 s t fs m k tx_bump.
Proof.
  intros V F St T Ea Eh Hk R M. assert (EB := rx_base_view _ _ V).
  assert (EV : tx_view fs = tx_view fs1) by exact (f_equal (fun x => x.1.2) F).
  assert (EW : fs_rx_remote_avail fs = fs_rx_remote_avail fs1) by exact (f_equal snd F).
  injection V as _ EL _ _ _ _ _.
  split_and!; [eauto | lia | | rewrite <- EB, <- EL; exact M].
  exists t'. split_and!; auto. eapply TxRep_view; [exact EV | rewrite EW; apply T | exact T].
Qed.

Lemma rx_process_rep w fs p tso ts s t :
  RxRep irs stream (fp_mem w) fs s -> TxRep isn fs t -> fs_objconn fs = false ->
  segment_of irs stream (rxs_next s) p ->
  trim_gap fs (f_beui32 (tcp_seqno (p_tcp p))) (rx_payload_bytes p) = false ->
  match rx_process w fs p tso ts with
  | Ok (rx_slowpath _ fs' p') => fs' = fs /\ p' = p
  | Ok (rx_unlock fs' m p' rx_bump tx_bump ack) =>
      delivered fs (fp_mem w) s t fs' m rx_bump tx_bump /\
      p' = p /\ ack = (0 <? rx_payload_bytes p)
  | _ => False
  end.
Proof.
  destruct s as [next wend ooo]. cbn [rxs_next].
  intros R T Ho (s0 & Eseq & Hs0 & Hn & Hsrc) Hgap. unfold rx_process.
  destruct (has_flag _ _); [auto|]. destruct (weird_flags p); [auto|].
  set (n := rx_payload_bytes p) in *. assert (0 <= n) by (unfold n, rx_payload_bytes; mlia).
  destruct (rx_cc_stats_views fs p) as (V0 & W0 & A0).
  destruct (rx_ack (rx_cc_stats fs p) p n) as [[fs1 tx_bump] reset] eqn:EA.
  assert (V1 : rx_view fs1 = rx_view fs) by (rewrite (rx_ack_view _ _ _ _ _ _ EA); exact V0).
  assert (T0 : TxRep isn (rx_cc_stats fs p) t)
    by (eapply TxRep_view; [exact W0 | rewrite A0; apply T | exact T]).
  destruct (rx_ack_rep isn _ t p n fs1 tx_bump reset T0 EA) as (t1 & St & T1 & Ea & Eh & _).
  apply (RxRep_view _ _ _ fs fs1) in R; [|exact V1].
  assert (Ret : forall f m k ooo', rx_frame f = rx_frame fs1 -> 0 <= k ->
    RxRep irs stream m f (mk_rx_stream (next + k) wend ooo') ->
    mem_same_outside (fp_mem w) m (rx_base fs1) (fs_rx_len fs1) ->
    delivered fs (fp_mem w) (mk_rx_stream next wend ooo) t f m k tx_bump)
    by (intros; eapply delivered_intro; eauto).
  assert (Stay : delivered fs (fp_mem w) (mk_rx_stream next wend ooo) t fs1 (fp_mem w) 0 tx_bump)
    by (eapply Ret; [reflexivity | lia | rewrite Z.add_0_r; exact R | intros x _; reflexivity]).
  destruct reset; [auto|].
  pose proof R as [C O]. cbn in C, O. pose proof C as [(Hb & HL & Hm) HO Hq Hp Ha Hd].
  assert (Hu : is_u16 n) by mlia.
  rewrite trim_rxbuf_eq by (rewrite ?Eseq; eauto using RxCore_rxwin, u32_range).
  rewrite (trim_gap_view _ _ _ _ V1), Hgap, Eseq.
  destruct (rxbuf_ref fs1 (u32 (irs + s0)) n) as [[trs tre]|] eqn:EB; [|auto].
  destruct (trim_position irs fs1 next wend s0 n trs tre) as (H1 & H2 & H3 & H4);
    eauto using RxCore_rxwin; try lia.
  rewrite u32_add_l, (u32_small (n - (trs + tre))) by mlia.
  assert (Hsrc' : forall j, 0 <= j < n - (trs + tre) ->
    byte_at (p_data p) (tcp_extra_hlen p + trs + j) = stream (s0 + trs + j))
    by (intros j Hj; rewrite <- Z.add_assoc, Hsrc by lia; f_equal; lia).
  replace (irs + s0 + trs) with (irs + (s0 + trs)) by lia. rewrite Hq.
  destruct (Z.eqb_spec (u32 (irs + (s0 + trs))) (u32 (irs + next))) as [E|E]; cbn [negb].
  - (* in order *)
    assert (E' : n - (trs + tre) = 0 \/ s0 + trs = next).
    { destruct H4 as [|H4]; [left; lia|]. right. clear -E H4 H1 H2 H3 Hs0 HO HL Hu. mlia. }
    destruct (rx_rtt_views fs1 p tso ts) as (V2 & W2 & A2).
    set (fs2 := rx_rtt fs1 p tso ts) in *.
    assert (F2 : fs_objconn fs2 = false).
    { rewrite (objconn_view fs2 fs1 V2), (objconn_view fs1 fs V1). exact Ho. }
    unfold rx_object. rewrite F2. cbn [obind negb].
    apply (RxRep_view _ _ _ fs1 fs2) in R; [|exact V2].
    destruct (rx_data_rep irs stream (fp_mem w) fs2 next wend ooo (n - (trs + tre)) (p_data p)
                (tcp_extra_hlen p + trs) R) as (f & m & k & ooo' & -> & Hk & R' & F' & M);
      [destruct H4; lia | lia | |].
    { intros j Hj. destruct E' as [|E']; [lia|]. rewrite <- E'. auto. }
    cbn [obind]. split_and!; auto.
    + eapply (delivered_intro fs (fp_mem w) _ _ fs2 f m k tx_bump t1 ooo'); eauto; try congruence; try lia.
      eapply TxRep_view; eauto.
    + bsplit; auto; lia.
  - destruct (rx_ooo_rep irs stream (fp_mem w) fs1 next wend ooo (s0 + trs) (n - (trs + tre))
                (p_data p) (tcp_extra_hlen p + trs) R) as (f & m & ooo' & -> & R' & F' & M);
      [destruct H4 as [|H4]; [left; lia|right] | lia | exact Hsrc' |].
    { assert (s0 + trs <> next) by congruence. lia. }
    cbn [obind]. split_and!; auto. eapply Ret; eauto; [lia|]. rewrite Z.add_0_r. exact R'.
Qed.

(** C30.  Receiving a segment of the peer's stream never fails and keeps the
    flow's state a representation of both streams: the next expected
    position advances by exactly the number of bytes reported to the
    application, the receive buffer holds the peer's bytes up to that
    position (and those of the out-of-order interval), the end of the window
    does not move, nothing outside the receive buffer is written, and the
    transmit stream moves by the acknowledgement.  Excluded are the segments
    in the gap of [tcp_trim_rxbuf]. *)
Theorem rx_process_delivers w fs p tso ts s t :
  RxRep irs stream (fp_mem w) fs s -> TxRep isn fs t -> fs_objconn fs = false ->
  segment_of irs stream (rxs_next s) p ->
  trim_gap fs (f_beui32 (tcp_seqno (p_tcp p))) (rx_payload_bytes p) = false ->
  match rx_process w fs p tso ts with
  | Ok (rx_slowpath _ fs' p') => fs' = fs /\ p' = p
  | Ok (rx_unlock fs' m p' rx_bump tx_bump ack) =>
      delivered fs (fp_mem w) s t fs' m rx_bump tx_bump /\
      p' = p /\ ack = (0 <? rx_payload_bytes p)
  | _ => False
  end.
Proof. exact (rx_process_rep w fs p tso ts s t). Qed.

(** ** The gap of [tcp_trim_rxbuf] *)

(** A segment in the gap carries payload and ends behind the window. *)
Lemma trim_gap_position fs m next wend s0 n :
  RxCore irs stream m fs next wend -> -1073741824 < s0 - next < 1073741824 -> 0 <= n ->
  trim_gap fs (u32 (irs + s0)) n = true ->
  0 < n /\ next < s0 <= wend /\ wend < s0 + n /\ u32 (irs + s0) - fs_rx_next_seq fs = s0 - next /\
  fs_rx_next_seq fs + fs_rx_avail fs < 4294967296 <= u32 (irs + s0) + n.
Proof.
  intros [(Hb & HL & Hm) HO Hq _ Ha _] Hs Hn. unfold trim_gap, pkt_wraps, buf_wraps.
  rewrite !andb_true_iff, negb_true_iff, Z.leb_gt, !Z.leb_le, Z.ltb_lt. intros [[[G1 G2] G3] G4].
  pose proof (u32_range (irs + s0)) as Hr. unfold is_u32 in Hr.
  assert (E : u32 (irs + s0) - fs_rx_next_seq fs = s0 - next) by (rewrite Ha in G4; rewrite Hq in G3, G4 |- *; clear -Hs HO HL G3 G4; mlia).
  lia.
Qed.

(** No stream positions give these fields a meaning. *)
Lemma overrun_no_rep m fs s seq n :
  RxRep irs stream m fs s -> fs_rx_ooo_start fs = seq -> fs_rx_ooo_len fs = n -> 0 < n -> is_u32 seq ->
  fs_rx_next_seq fs < seq -> fs_rx_next_seq fs + fs_rx_avail fs < 4294967296 <= seq + n -> False.
Proof.
  intros [[(Hb & HL & Hm) HO Hq _ Ha _] O] Es En Hn Hr Hlt Hgap. unfold RxOoo in O.
  destruct (rxs_ooo s) as [[o l]|]; [|lia]. destruct O as (Hl & Ho & Hend & Eo & El & _).
  assert (o - rxs_next s = seq - fs_rx_next_seq fs); [|lia].
  rewrite Es in Eo. rewrite Hq, Eo in Hlt |- *. clear -Hl Ho Hend HO HL Hlt. mlia.
Qed.

(** With payload an acknowledgement never ends the processing. *)
Lemma rx_ack_payload fs p n : n <> 0 -> (rx_ack fs p n).2 = false.
Proof.
  intros N. unfold rx_ack. destruct (tcp_flag p TCP_ACK); [|reflexivity].
  destruct (tcp_valid_rxack fs _) as [k|]; [|reflexivity].
  destruct (negb (k =? 0)); [reflexivity|]. now rewrite (proj2 (Z.eqb_neq n 0)).
Qed.

End Process.
