(* ===== verification/Handlers.v ===== *)
(** What every handler of flexnic/fast_flows.c guarantees to its caller: the
    flow's spin lock is released, no other flow is touched, and the transmit
    buffer grows exactly when the return value says so.  Then the effect of an
    application's queue pointer update. *)
From stdpp Require Import base numbers list gmap relations.
From Stdlib Require Import ZArith Lia.
From S2P Require Import Prelude Packet FlowState TcpCommon Qman LinkedList Dma Circ FastPath FastRx Stream TxPath RxPath.

(** ** Frames of the operations a handler calls *)

(** [w'] differs from [w] at most in the queue manager, the queues, the DMA
    memory and the wake-ups. *)
Definition same_flows_tx (w w' : fp) : Prop :=
  fp_flowst w' = fp_flowst w /\ fp_tx w' = fp_tx w /\ fp_id w' = fp_id w.

Lemma same_flows_tx_refl w : same_flows_tx w w.
Proof. repeat split. Qed.
Lemma same_flows_tx_trans w1 w2 w3 : same_flows_tx w1 w2 -> same_flows_tx w2 w3 -> same_flows_tx w1 w3.
Proof. intros (?&?&?) (?&?&?). repeat split; congruence. Qed.

Create HintDb frames discriminated.
#[export] Hint Resolve same_flows_tx_refl : frames.

Section Frames.
Context `{Platform} {nbh : Z}.
Lemma fp_qman_set_frame w q r a m f w' : fp_qman_set w q r a m f = Ok w' -> same_flows_tx w w'.
Proof.
  unfold fp_qman_set. intros E. apply obind_ok in E as ([ret t] & _ & E).
  destruct (ret =? 0); [|discriminate]. injection E as <-. repeat split.
Qed.

Lemma fast_actx_rxq_add_frame w db a b w' : fast_actx_rxq_add w db a = Ok (b, w') -> same_flows_tx w w'.
Proof.
  unfold fast_actx_rxq_add. cbv zeta. destruct (dma_pointer _ _); [|discriminate].
  destruct (negb _); [intros [= _ <-]; repeat split|].
  destruct (util_flexnic_kick _) as [c k].
  generalize (mem_write (fp_mem w) z (arx_bytes (a <| arx_tx_head := ac_tx_head (fp_appctx w !!! db) |>))).
  intros m [= _ <-]. repeat split.
Qed.

Lemma tx_send_frame w off len p w' : tx_send w nbh off len p = Ok w' ->
  w' = w <| fp_tx := fp_tx w ++ [mk_txpkt (tx_handle nbh) off len p] |> /\ Z.of_nat (length (fp_tx w)) < TXBUF_SIZE.
Proof. unfold tx_send. destruct (Z.leb_spec TXBUF_SIZE (Z.of_nat (length (fp_tx w)))); [discriminate|]. intros [= <-]. auto. Qed.

(** One packet, in buffer [b], was added to the transmit buffer. *)
Definition queued (b : Z) (w w' : fp) : Prop :=
  exists k, fp_tx w' = fp_tx w ++ [k] /\ tx_nbh k = tx_handle b.

Definition sent_one (b : Z) (w w' : fp) : Prop :=
  fp_flowst w' = fp_flowst w /\ fp_id w' = fp_id w /\ queued b w w'.

Lemma flow_tx_segment_frame w fs seq ack wnd n pos te tm w' :
  flow_tx_segment w nbh fs seq ack wnd n pos te tm = Ok w' -> sent_one nbh w w'.
Proof.
  unfold flow_tx_segment. intros E. apply obind_ok in E as (d & _ & E).
  apply tx_send_frame in E as [-> _]. repeat split. eexists. split; reflexivity.
Qed.

Lemma flow_tx_ack_frame w seq ack wnd et my off p tso w' p' :
  flow_tx_ack w nbh seq ack wnd et my off p tso = Ok (w', p') -> sent_one nbh w w'.
Proof.
  unfold flow_tx_ack. intros E. apply obind_ok in E as (w1 & E1 & E).
  apply tx_send_frame in E1 as [-> _]. injection E as <- _. repeat split. eexists. split; reflexivity.
Qed.
End Frames.
#[export] Hint Resolve fp_qman_set_frame fast_actx_rxq_add_frame : frames.

(** ** Lock discipline *)

Definition released (w w' : fp) (id : Z) : Prop :=
  fs_lock (get_flow w' id) = 0 /\ forall id', id' <> id -> get_flow w' id' = get_flow w id'.

Lemma released_unlock w w1 id fs :
  fp_flowst w1 = fp_flowst w -> released w (flow_unlock w1 id fs) id.
Proof.
  intros E. split; [rewrite get_flow_unlock; reflexivity|].
  intros id' Hne. rewrite get_flow_unlock_ne by auto. unfold get_flow. congruence.
Qed.

(** Case analysis on the condition a run branches on. *)
Ltac run_if E := match type of E with (if ?c then _ else _) = _ => destruct c end.

Section Locks.
Context `{Platform} {nbh : Z}.

(** Frame of [if b then fp_qman_set ... else Ok w] and of nests of it. *)
Ltac arm_frame F :=
  repeat match type of F with
  | (if ?b then _ else _) = Ok _ => destruct b
  | Ok _ = Ok _ => injection F as <-
  end; eauto with frames.

Lemma rx_finish_frame w fs db rp oa off p tso ts rb tb ack w' p' :
  rx_finish w nbh fs db rp oa off p tso ts rb tb ack = Ok (w', p') ->
  fp_flowst w' = fp_flowst w /\
  if ack then queued nbh w w' else fp_tx w' = fp_tx w.
Proof.
  unfold rx_finish. intros E. apply obind_ok in E as (w1 & E1 & E). apply obind_ok in E as (w2 & E2 & E).
  assert (S1 : same_flows_tx w w1).
  { destruct (negb (rb =? 0) || negb (tb =? 0)); [|injection E1 as <-; auto with frames].
    apply obind_ok in E1 as ([b w1'] & E1 & [= <-]). eauto with frames. }
  assert (S2 : same_flows_tx w1 w2) by arm_frame E2.
  destruct (same_flows_tx_trans _ _ _ S1 S2) as (A & B & _). destruct ack.
  - apply flow_tx_ack_frame in E as (Ef & _ & Q). unfold queued in *. rewrite Ef, A, <- B. auto.
  - injection E as <- <-. auto.
Qed.

(** The return value of [fast_flows_packet] tells the caller who owns the packet
    buffer: it is 1 exactly when the buffer was put into the transmit buffer. *)
Lemma fast_flows_packet_used w off len p id ts r w' p' :
  fast_flows_packet w nbh off len p id ts = Ok (r, w', p') ->
  r = 1 /\ queued nbh w w' \/ (r = 0 \/ r = -1) /\ fp_tx w' = fp_tx w.
Proof.
  unfold fast_flows_packet. destruct (negb (rx_valid p len)); [intros [= <- <- <-]; auto|].
  intros E. apply obind_ok in E as (o & _ & E). destruct o as [[tso|]|]; [|injection E as <- <- <-; auto..].
  cbv zeta in E. apply obind_ok in E as ([] & _ & E). apply obind_ok in E as (fs0 & _ & E).
  apply obind_ok in E as (st & _ & E). destruct st as [sp fs q|fs m q rb tb ack]; [injection E as <- <- <-; auto|].
  apply obind_ok in E as ([w1 p1] & E1 & E). injection E as <- <- <-.
  apply rx_finish_frame in E1 as [_ B]. destruct ack; [left | right]; auto.
Qed.

(** [fast_flows_packet] never leaves a flow locked and touches no flow but
    the packet's; its return value is 1 exactly when the packet's buffer was put
    into the transmit buffer as the acknowledgement, otherwise (0: done, -1: for
    the kernel) nothing was queued for transmission. *)
Theorem fast_flows_packet_result w off len p id ts r w' p' :
  fs_lock (get_flow w id) = 0 ->
  fast_flows_packet w nbh off len p id ts = Ok (r, w', p') ->
  released w w' id /\
  (r = 1 /\ queued nbh w w' \/ (r = 0 \/ r = -1) /\ fp_tx w' = fp_tx w).
Proof.
  intros Hl E. split; [|exact (fast_flows_packet_used _ _ _ _ _ _ _ _ _ E)]. revert E. unfold fast_flows_packet.
  destruct (negb (rx_valid p len)); [intros [= <- <- <-]; split; auto|].
  intros E. apply obind_ok in E as (o & _ & E). destruct o as [[tso|]|]; [|injection E as <- <- <-; split; auto..].
  cbv zeta in E. apply obind_ok in E as ([] & _ & E). rewrite lock_free in E by auto.
  cbn [obind] in E. apply obind_ok in E as (st & _ & E). destruct st as [sp fs q|fs m q rb tb ack].
  - injection E as <- <- <-. apply released_unlock; reflexivity.
  - apply obind_ok in E as ([w1 p1] & E1 & E). injection E as <- <- <-.
    apply rx_finish_frame in E1 as [A _]. apply released_unlock; exact A.
Qed.

(** The queue manager's handlers, the application's pointer updates and
    the kernel's retransmission requests release the flow's lock on every
    path and touch no other flow. *)
Theorem handlers_release_lock w id :
  (forall queue ts r w', qmant_flow w queue = id ->
     fast_flows_qman w nbh queue ts = Ok (r, w') -> released w w' id) /\
  (forall r w', fast_flows_qman_fwd w id = Ok (r, w') -> released w w' id) /\
  (forall bs rt th ts r w', flast_flows_bump w nbh id bs rt th ts = Ok (r, w') -> released w w' id) /\
  (forall w', fast_flows_retransmit w id = Ok w' -> released w w' id).
Proof.
  split_and!.
  - intros queue ts r w' Hid E. unfold fast_flows_qman in E. rewrite Hid in E. cbv zeta in E.
    apply obind_ok in E as (fs & _ & E). destruct (negb _).
    { destruct (fwd_ring_room _ _); [|discriminate]. apply obind_ok in E as (w1 & E1 & E).
      apply fp_qman_set_frame in E1 as (A & _). destruct (util_flexnic_kick _).
      injection E as _ <-. apply released_unlock. exact A. }
    destruct (_ =? 0); [injection E as _ <-; apply released_unlock; reflexivity|].
    apply obind_ok in E as ([[fs1 n] w1] & E1 & E). apply obind_ok in E as (w2 & E2 & E).
    injection E as _ <-. apply released_unlock.
    apply flow_tx_segment_frame in E2 as (A & _). rewrite A.
    destruct (fs_objconn fs); [|injection E1 as <- <- <-; reflexivity].
    apply obind_ok in E1 as ([[f1 n1] b] & _ & E1). apply obind_ok in E1 as (w3 & E3 & E1).
    injection E1 as <- <- <-. assert (S : same_flows_tx w w3) by arm_frame E3. apply S.
  - intros r w' E. unfold fast_flows_qman_fwd in E. apply obind_ok in E as (fs & _ & E).
    cbv zeta in E. apply obind_ok in E as (w1 & E1 & E). injection E as _ <-.
    apply fp_qman_set_frame in E1. apply released_unlock, E1.
  - intros bs rt th ts r w' E. unfold flast_flows_bump in E. apply obind_ok in E as (fs & _ & E).
    destruct (bump_stale _ _); [injection E as _ <-; apply released_unlock; reflexivity|].
    cbv zeta in E. apply obind_ok in E as (w1 & E1 & E).
    assert (S : same_flows_tx w w1) by arm_frame E1. run_if E.
    + apply obind_ok in E as (w2 & E2 & E). injection E as _ <-. apply released_unlock.
      apply flow_tx_segment_frame in E2 as (A & _). rewrite A. apply S.
    + injection E as _ <-. apply released_unlock, S.
  - intros w' E. unfold fast_flows_retransmit in E. apply obind_ok in E as (fs & _ & E).
    cbv zeta in E. run_if E; [injection E as <-; apply released_unlock; reflexivity|].
    apply obind_ok in E as (w1 & E1 & E). injection E as <-. apply released_unlock.
    assert (S : same_flows_tx w w1) by arm_frame E1. apply S.
Qed.
End Locks.

(** ** Queue pointer updates of the application *)

(** A buffer the application emptied completely in one update: the new tail
    equals the old one. *)
Lemma bump_rx_rep irs stream m fs next wend ooo wend' :
  RxRep irs stream m fs (mk_rx_stream next wend ooo) ->
  wend <= wend' < wend + fs_rx_len fs -> wend' <= next + fs_rx_len fs ->
  RxRep irs stream m (bump_rx fs (wend' mod fs_rx_len fs)) (mk_rx_stream next wend' ooo) /\
  tx_view (bump_rx fs (wend' mod fs_rx_len fs)) = tx_view fs /\
  fs_rx_remote_avail (bump_rx fs (wend' mod fs_rx_len fs)) = fs_rx_remote_avail fs /\
  fs_bump_seq (bump_rx fs (wend' mod fs_rx_len fs)) = fs_bump_seq fs.
Proof.
  intros [C O] Hw Hn. cbn in C, O. pose proof C as [Hr HO Hq Hp Ha Hd]. pose proof Hr as (Hb & HL & Hm).
  pose proof (Z.mod_pos_bound next (fs_rx_len fs)). pose proof (Z.mod_pos_bound wend' (fs_rx_len fs)).
  pose proof (ring_advance next (wend - next) (fs_rx_len fs) ltac:(lia) ltac:(lia)) as R.
  replace (next + (wend - next)) with wend in R by lia.
  pose proof (ring_distance wend wend' (fs_rx_len fs) ltac:(lia) ltac:(lia)) as D.
  set (L := fs_rx_len fs) in *. set (t := wend mod L) in *. set (t' := wend' mod L) in *.
  pose proof (Z.mod_pos_bound wend L ltac:(lia)) as Ht. fold t in Ht.
  set (f := fs <| fs_rx_avail := wend' - next |>).
  assert (E : bump_rx fs t' = f).
  { unfold bump_rx. rewrite Hp, Ha. fold L. rewrite (u32_small (next mod L + (wend - next))) by mlia.
    rewrite R. destruct (Z.leb_spec t t').
    - rewrite (u32_small (t' - t)), u32_small by mlia.
      replace (wend - next + (t' - t)) with (wend' - next) by lia. reflexivity.
    - rewrite (u32_small (L - t)), (u32_small (L - t + t')), u32_small by mlia.
      replace (wend - next + (L - t + t')) with (wend' - next) by lia. reflexivity. }
  rewrite E. split; [|repeat split; reflexivity]. split; cbn.
  - subst f. split; unfold rx_region_ok, rx_base in *; fs_cbn; fold L; auto; try lia.
    eapply ring_holds_sub; [exact Hd | fold L; lia | lia].
  - subst f. unfold RxOoo, rx_base in *. fs_cbn. destruct ooo as [[o l]|]; auto.
    destruct O as (?&?&?&?&?&?). split_and!; auto; lia.
Qed.

(** Arming the queue manager for bytes just appended. *)
Lemma bump_arm `{Platform} w fs old new :
  fs_objconn fs = false ->
  (old < new -> exists t, qman_set qfuel (fp_qman w) (fs_qman_qid fs) (fs_tx_rate fs) (new - old)
                            TCP_MSS APP_QMAN_FLOW QSET_ADD = Ok (0, t)) ->
  exists w1, (if negb (fs_objconn fs) then
      if old <? new then fp_qman_set w (fs_qman_qid fs) (fs_tx_rate fs) (new - old) TCP_MSS QSET_ADD
      else Ok w else if (old =? 0) && negb (new =? 0)
      then fp_qman_set w (fs_qman_qid fs) 0 1 1 QSET_ADD else Ok w) = Ok w1 /\
      same_flows_tx w w1 /\ fp_mem w1 = fp_mem w.
Proof.
  intros Ho Hq. rewrite Ho. cbn [negb]. destruct (Z.ltb_spec old new); [|eauto using same_flows_tx_refl].
  destruct (Hq ltac:(auto)) as [t Et]. unfold fp_qman_set. rewrite Et. cbn.
  eexists. split; [reflexivity|]. repeat split.
Qed.

Lemma flast_flows_bump_rep `{Platform} {nbh} w id bump_seq ts isn irs stream a n h next wend ooo h' wend' :
  let fs := get_flow w id in
  let rx_tail := wend' mod fs_rx_len fs in
  let tx_head := h' mod fs_tx_len fs in
  let old := tcp_txavail fs None in
  let new := tcp_txavail fs (Some tx_head) in
  let update := (new =? 0) && (wend =? next) && negb (wend' =? next) in
  fs_lock fs = 0 -> bump_stale bump_seq (fs_bump_seq fs) = false -> fs_objconn fs = false ->
  Z.of_nat (length (fp_tx w)) < TXBUF_SIZE ->
  (old < new -> exists t, qman_set qfuel (fp_qman w) (fs_qman_qid fs) (fs_tx_rate fs) (new - old)
                            TCP_MSS APP_QMAN_FLOW QSET_ADD = Ok (0, t)) ->
  TxRep isn fs (mk_tx_stream a n h) ->
  RxRep irs stream (fp_mem w) fs (mk_rx_stream next wend ooo) ->
  h <= h' -> h' - a < fs_tx_len fs ->
  wend <= wend' < wend + fs_rx_len fs -> wend' <= next + fs_rx_len fs ->
  exists w', flast_flows_bump w nbh id bump_seq rx_tail tx_head ts = Ok (if update then 0 else -1, w') /\
    TxRep isn (get_flow w' id) (mk_tx_stream a n h') /\
    RxRep irs stream (fp_mem w') (get_flow w' id) (mk_rx_stream next wend' ooo) /\
    fs_bump_seq (get_flow w' id) = bump_seq /\ fs_lock (get_flow w' id) = 0 /\
    if update
    then exists k, fp_tx w' = fp_tx w ++ [k] /\
           segment_is k (isn + n) (fs_rx_next_seq fs) (wend' - next) ts (fs_tx_next_ts fs) []
    else fp_tx w' = fp_tx w.
Proof.
  intros fs rx_tail tx_head old new update Hl Hst Ho Htx Hq T R Hh Hfit Hw1 Hw2.
  set (fs1 := fs <| fs_lock := 1 |> <| fs_bump_seq := bump_seq |> <| fs_tx_head := tx_head |>).
  assert (T1 : TxRep isn fs1 (mk_tx_stream a n h')).
  { eapply TxRep_view; [| |eapply (tx_append_rep isn fs a n h h'); eauto]; [reflexivity | apply T]. }
  assert (R1 : RxRep irs stream (fp_mem w) fs1 (mk_rx_stream next wend ooo))
    by (eapply RxRep_view; [|exact R]; reflexivity).
  destruct (bump_rx_rep irs stream (fp_mem w) fs1 next wend ooo wend' R1 Hw1 Hw2) as (R2 & V2 & A2 & B2).
  change (wend' mod fs_rx_len fs1) with rx_tail in R2, V2, A2, B2.
  set (fs2 := bump_rx fs1 rx_tail) in *.
  assert (T2 : TxRep isn fs2 (mk_tx_stream a n h'))
    by (eapply TxRep_view; [exact V2 | rewrite A2; apply T | exact T1]).
  assert (Eav : fs_rx_avail fs2 = wend' - next) by apply R2.
  assert (Eav0 : fs_rx_avail fs = wend - next) by apply R.
  pose proof (rxc_order _ _ _ _ _ _ (proj1 R)) as Ord. cbn in Ord.
  pose proof (bump_arm w fs old new Ho Hq) as Arm.
  destruct Arm as (w1 & E1 & (S1 & S2 & S3) & M1).
  assert (Run : flast_flows_bump w nbh id bump_seq rx_tail tx_head ts =
    if update
    then obind (flow_tx_segment w1 nbh fs2 (fs_tx_next_seq fs2) (fs_rx_next_seq fs2) (fs_rx_avail fs2) 0 0
                  (fs_tx_next_ts fs2) ts) (fun w2 => Ok (0, flow_unlock w2 id fs2))
    else Ok (-1, flow_unlock w1 id fs2)).
  { unfold flast_flows_bump. rewrite lock_free by auto. fold fs. cbn [obind].
    change (fs_bump_seq (fs <| fs_lock := 1 |>)) with (fs_bump_seq fs). rewrite Hst.
    etransitivity; [exact (f_equal (fun m => obind m _) E1)|]. cbn [obind].
    change (bump_rx (fs <| fs_lock := 1 |> <| fs_bump_seq := bump_seq |> <| fs_tx_head := tx_head |>) rx_tail) with fs2.
    change (fs_rx_avail (fs <| fs_lock := 1 |> <| fs_bump_seq := bump_seq |>)) with (fs_rx_avail fs).
    change (tcp_txavail (fs <| fs_lock := 1 |> <| fs_bump_seq := bump_seq |>) (Some tx_head)) with new.
    unfold update. rewrite Eav, Eav0.
    replace (wend - next =? 0) with (wend =? next) by (bsplit; auto; lia).
    replace (wend' - next =? 0) with (wend' =? next) by (bsplit; auto; lia). reflexivity. }
  rewrite Run. destruct update.
  - rewrite (flow_tx_segment_eq _ _ _ _ _ _ _ _ _ []) by (auto; lia).
    rewrite tx_send_ok by (rewrite S2; auto). cbn [obind]. eexists. split; [reflexivity|].
    rewrite get_flow_unlock. split_and!; auto using TxRep_lock; fs_cbn; auto.
    + eapply RxRep_view; [|cbn; rewrite M1; exact R2]. reflexivity.
    + eexists. cbn [fp_tx flow_unlock put_flow upd eta_fp]. split; [cbn; rewrite S2; reflexivity|].
      pose proof (segment_parses (nbh := nbh) fs2 (fs_tx_next_seq fs2) (fs_rx_next_seq fs2) (fs_rx_avail fs2)
        (fs_tx_next_ts fs2) ts [] ltac:(cbn; lia) ltac:(lia)) as P.
      assert (Eq : fs_tx_next_seq fs2 = u32 (isn + n)) by apply T2.
      assert (Eq2 : fs_rx_next_seq fs2 = fs_rx_next_seq fs)
        by (rewrite (rxc_seq _ _ _ _ _ _ (proj1 R2)); symmetry; apply R).
      assert (Ets : fs_tx_next_ts fs2 = fs_tx_next_ts fs)
        by (unfold fs2, bump_rx; destruct (_ <=? rx_tail); reflexivity).
      rewrite <- Eav, <- Eq2, <- Ets.
      eapply segment_is_seq; [|exact P]. rewrite Eq. apply u32_small, u32_range.
  - eexists. split; [reflexivity|].
    rewrite get_flow_unlock. split_and!; auto using TxRep_lock; fs_cbn; auto.
    eapply RxRep_view; [|cbn; rewrite M1; exact R2]. reflexivity.
Qed.

(** An application's update that is not out of date appends to the
    transmit stream what the application queued (up to [h']) and moves the end
    of the receive window to [wend']; both buffers keep representing their
    streams.  When a closed window reopens while there is nothing to send, and
    only then, a window update is sent, announcing the new window; the return
    value 0 says so. *)
Theorem flast_flows_bump_refines `{Platform} {nbh} w id bump_seq ts isn irs stream a n h next wend ooo h' wend' :
  let fs := get_flow w id in
  let rx_tail := wend' mod fs_rx_len fs in
  let tx_head := h' mod fs_tx_len fs in
  let old := tcp_txavail fs None in
  let new := tcp_txavail fs (Some tx_head) in
  let update := (new =? 0) && (wend =? next) && negb (wend' =? next) in
  fs_lock fs = 0 -> bump_stale bump_seq (fs_bump_seq fs) = false -> fs_objconn fs = false ->
  Z.of_nat (length (fp_tx w)) < TXBUF_SIZE ->
  (old < new -> exists t, qman_set qfuel (fp_qman w) (fs_qman_qid fs) (fs_tx_rate fs) (new - old)
                            TCP_MSS APP_QMAN_FLOW QSET_ADD = Ok (0, t)) ->
  TxRep isn fs (mk_tx_stream a n h) ->
  RxRep irs stream (fp_mem w) fs (mk_rx_stream next wend ooo) ->
  h <= h' -> h' - a < fs_tx_len fs ->
  wend <= wend' < wend + fs_rx_len fs -> wend' <= next + fs_rx_len fs ->
  exists w', flast_flows_bump w nbh id bump_seq rx_tail tx_head ts = Ok (if update then 0 else -1, w') /\
    TxRep isn (get_flow w' id) (mk_tx_stream a n h') /\
    RxRep irs stream (fp_mem w') (get_flow w' id) (mk_rx_stream next wend' ooo) /\
    fs_bump_seq (get_flow w' id) = bump_seq /\ fs_lock (get_flow w' id) = 0 /\
    if update
    then exists k, fp_tx w' = fp_tx w ++ [k] /\
           segment_is k (isn + n) (fs_rx_next_seq fs) (wend' - next) ts (fs_tx_next_ts fs) []
    else fp_tx w' = fp_tx w.
Proof. apply flast_flows_bump_rep. Qed.
