(* ===== verification/Queues.v ===== *)
(** The queues between the fast path and its clients: flexnic/fast_appctx.c
    (application contexts) and flexnic/fast_kernel.c (the kernel), and the
    memory image of a packet that crosses them. *)
From stdpp Require Import base numbers list gmap relations.
From Stdlib Require Import ZArith Lia.
From S2P Require Import Prelude Packet FlowState TcpCommon Qman LinkedList Dma Circ FastPath FastRx Stream TxPath RxPath Handlers.

(** ** Memory images of packets *)

(** A packed struct on a little-endian host: every scalar is stored as
    [le_bytes]; big-endian fields keep their stored value. *)
Definition pkt_bytes (p : pkt_tcp) : list Z :=
  let e := p_eth p in let i := p_ip p in let t := p_tcp p in
  eth_dest e ++ eth_src e ++ le_bytes 2 (be16_x (eth_type e)) ++
  le_bytes 1 (ip_v_hl i) ++ le_bytes 1 (ip_tos i) ++ le_bytes 2 (be16_x (ip_len i)) ++
  le_bytes 2 (be16_x (ip_id i)) ++ le_bytes 2 (be16_x (ip_offset i)) ++ le_bytes 1 (ip_ttl i) ++
  le_bytes 1 (ip_proto i) ++ le_bytes 2 (ip_chksum i) ++ le_bytes 4 (be32_x (ip_src i)) ++
  le_bytes 4 (be32_x (ip_dest i)) ++
  le_bytes 2 (be16_x (tcp_src t)) ++ le_bytes 2 (be16_x (tcp_dest t)) ++
  le_bytes 4 (be32_x (tcp_seqno t)) ++ le_bytes 4 (be32_x (tcp_ackno t)) ++
  le_bytes 2 (tcp_hdrlen_rsvd_flags t) ++ le_bytes 2 (be16_x (tcp_wnd t)) ++
  le_bytes 2 (tcp_chksum t) ++ le_bytes 2 (be16_x (tcp_urgp t)) ++ p_data p.

(** The cast [(struct pkt_tcp * ) buf]. *)
Definition bytes_pkt (l : list Z) : pkt_tcp :=
  let f off n := le_value (slice l off n) in
  mk_pkt_tcp
    (mk_eth_hdr (slice l 0 6) (slice l 6 6) (mk_beui16 (f 12 2)))
    (mk_ip_hdr (f 14 1) (f 15 1) (mk_beui16 (f 16 2)) (mk_beui16 (f 18 2)) (mk_beui16 (f 20 2))
       (f 22 1) (f 23 1) (f 24 2) (mk_beui32 (f 26 4)) (mk_beui32 (f 30 4)))
    (mk_tcp_hdr (mk_beui16 (f 34 2)) (mk_beui16 (f 36 2)) (mk_beui32 (f 38 4)) (mk_beui32 (f 42 4))
       (f 46 2) (mk_beui16 (f 48 2)) (f 50 2) (mk_beui16 (f 52 2)))
    (drop 54 l).

(** ** Application contexts *)

Definition mem_le (m : mem) (a : Z) (n : nat) : Z := le_value (mem_read m a n).

(** Advance a queue's head register by one entry. *)
Definition ring_next (head sz len : Z) : Z :=
  let h := u32 (head + sz) in if len <=? h then u32 (h - len) else h.

Section Operations.
Context `{Platform}.

(** [fast_appctx_poll] *)
Definition fast_appctx_poll (w : fp) (nbh : Z) (id ts : Z) : outcome (Z * fp) :=
  let actx := fp_appctx w !!! id in
  if ac_tx_len actx =? 0 then Ok (-1, w)
  else
    match dma_pointer (u64 (ac_tx_base actx + ac_tx_head actx)) 64 with
    | None => Crash
    | Some atx =>
      let m := fp_mem w in
      let type := mem_byte m (atx + 63) in
      if type =? 0 then Ok (-1, w)
      else if type =? FLEXTCP_PL_ATX_CONNUPDATE then
        let rx_tail := mem_le m atx 4 in
        let tx_head := mem_le m (atx + 4) 4 in
        let flow_id := mem_le m (atx + 8) 4 in
        let bump_seq := mem_le m (atx + 12) 4 in
        if FLEXNIC_PL_FLOWST_NUM <=? flow_id then Crash
        else
          let! (ret, w) := flast_flows_bump w nbh flow_id bump_seq rx_tail tx_head ts in
          let ret := if negb (ret =? 0) then 1 else ret in
          let w := w <| fp_mem := mem_write (fp_mem w) (atx + 63) [0] |> in
          let actx := fp_appctx w !!! id in
          let actx := actx <| ac_tx_head := ring_next (ac_tx_head actx) 64 (ac_tx_len actx) |> in
          Ok (ret, w <| fp_appctx := <[id := actx]> (fp_appctx w) |>)
      else Crash
    end.

(** ** The kernel's queues *)

(** [inject_tcp_ts] *)
Definition inject_tcp_ts (buf : list Z) (len ts : Z) : outcome (list Z) :=
  let len := u16 len in
  let p := bytes_pkt buf in
  if (len <? SZ_PKT_TCP) || negb (f_beui16 (eth_type (p_eth p)) =? ETH_TYPE_IP) ||
     negb (ip_proto (p_ip p) =? IP_PROTO_TCP)
  then Ok buf
  else
    let! opts := tcp_parse_options opts_fuel p len in
    match opts with
    | Some (Some tso) =>
        let p := p <| p_data := put_bytes (p_data p) (Z.to_nat (tso + 2)) (be32_bytes ts) |> in
        Ok (pkt_bytes (tcp_checksums p))
    | _ => Ok buf
    end.

(** [fast_kernel_poll] *)
Definition fast_kernel_poll (w : fp) (nbh : Z) (ts : Z) : outcome (Z * fp) :=
  let kctx := fp_kctx w !!! fp_id w in
  if ac_tx_len kctx =? 0 then Ok (-1, w)
  else
    match dma_pointer (u64 (ac_tx_base kctx + ac_tx_head kctx)) 64 with
    | None => Crash
    | Some ktx =>
      let m := fp_mem w in
      let type := mem_byte m (ktx + 63) in
      if type =? 0 then Ok (-1, w)
      else
        let! (ret, w) :=
          if type =? FLEXTCP_PL_KTX_PACKET then
            let addr := mem_le m ktx 8 in
            let len := mem_le m (ktx + 8) 2 in
            match dma_read m addr len with
            | None => Crash
            | Some buf =>
                let! buf := inject_tcp_ts buf len ts in
                let! w := tx_send w nbh 0 len (bytes_pkt buf) in
                Ok (0, w)
            end
          else if type =? FLEXTCP_PL_KTX_CONNRETRAN then
            let flow_id := mem_le m ktx 4 in
            if FLEXNIC_PL_FLOWST_NUM <=? flow_id then Crash
            else let! w := fast_flows_retransmit w flow_id in Ok (1, w)
          else Crash in
        let w := w <| fp_mem := mem_write (fp_mem w) (ktx + 63) [0] |> in
        let kctx := fp_kctx w !!! fp_id w in
        let kctx := kctx <| ac_tx_head := ring_next (ac_tx_head kctx) 64 (ac_tx_len kctx) |> in
        Ok (ret, w <| fp_kctx := <[fp_id w := kctx]> (fp_kctx w) |>)
    end.

(** [fast_kernel_kick]: the thread-local timestamp of the last kick, and
    whether the kernel is woken up. *)
Definition fast_kernel_kick (last_ts : Z) : Z * bool :=
  (now_us, POLL_CYCLE <? u32 (now_us - last_ts)).

Definition SZ_KRX : Z := 72.

(** [fast_kernel_packet]; [fg] is the flow group the NIC reports for the
    buffer.  The booleans: the packet was queued; the kernel was woken up. *)
Definition fast_kernel_packet (w : fp) (last_ts : Z) (buf : list Z) (len : Z) (fg : option Z)
    : outcome (fp * Z * bool * bool) :=
  let kctx := fp_kctx w !!! fp_id w in
  if ac_rx_len kctx =? 0 then Ok (w, last_ts, false, false)
  else
    match dma_pointer (u64 (ac_rx_base kctx + ac_rx_head kctx)) SZ_KRX with
    | None => Crash
    | Some krx =>
      let m := fp_mem w in
      if negb (mem_byte m (krx + 71) =? 0) then Ok (w, last_ts, false, false)
      else
        let kctx := kctx <| ac_rx_head := ring_next (ac_rx_head kctx) SZ_KRX (ac_rx_len kctx) |> in
        match dma_write m (mem_le m krx 8) (bytes_at buf 0 len), fg with
        | Some m, Some fg =>
            let m := mem_write m (krx + 12) (le_bytes 2 fg) in
            let m := mem_write m (krx + 8) (le_bytes 2 len) in
            let m := mem_write m (krx + 10) (le_bytes 2 (fp_id w)) in
            let m := mem_write m (krx + 71) [FLEXTCP_PL_KRX_PACKET] in
            let '(last_ts, kick) := fast_kernel_kick last_ts in
            Ok (w <| fp_kctx := <[fp_id w := kctx]> (fp_kctx w) |> <| fp_mem := m |>,
                last_ts, true, kick)
        | _, _ => Crash
        end
    end.
End Operations.

(** ** The image of a packet determines it *)

Lemma le_value_bytes n x : le_value (le_bytes n x) = x mod 256 ^ Z.of_nat n.
Proof.
  unfold le_bytes.
  assert (G : forall k, le_value (map (fun i => (x / 256 ^ Z.of_nat i) mod 256) (seq k n)) =
    (x / 256 ^ Z.of_nat k) mod 256 ^ Z.of_nat n).
  { induction n as [|n IH]; intros k; cbn [seq map le_value].
    - change (256 ^ Z.of_nat 0) with 1. rewrite Z.mod_1_r. reflexivity.
    - rewrite IH, !Nat2Z.inj_succ, !Z.pow_succ_r by lia.
      rewrite Z.rem_mul_r by (try apply Z.pow_pos_nonneg; lia).
      rewrite Z.div_div by (try apply Z.pow_nonzero; lia).
      do 3 f_equal. rewrite (Z.mul_comm 256). reflexivity. }
  rewrite (G 0%nat). change (256 ^ Z.of_nat 0) with 1. rewrite Z.div_1_r. reflexivity.
Qed.

Lemma le_bytes_value l : Forall (fun b => 0 <= b < 256) l -> le_bytes (length l) (le_value l) = l.
Proof.
  induction 1 as [|b l Hb Hl IH]; [reflexivity|].
  assert (S : forall n x, le_bytes (S n) x = x mod 256 :: le_bytes n (x / 256)).
  { intros n x. unfold le_bytes. cbn [seq map]. change (256 ^ Z.of_nat 0) with 1. rewrite Z.div_1_r.
    f_equal. rewrite <- fmap_S_seq, <- list_fmap_compose. apply list_fmap_ext. intros _ i _. cbn.
    f_equal. rewrite Z.div_div, <- Z.pow_succ_r by (try apply Z.pow_pos_nonneg; lia).
    do 2 f_equal. lia. }
  cbn [length le_value]. rewrite S.
  rewrite <- (Z.mod_unique_pos (b + 256 * le_value l) 256 (le_value l) b) by lia.
  rewrite <- (Z.div_unique_pos (b + 256 * le_value l) 256 (le_value l) b) by lia.
  f_equal. exact IH.
Qed.

Lemma length_slice l i n : 0 <= i -> 0 <= n -> i + n <= Z.of_nat (length l) ->
  length (slice l i n) = Z.to_nat n.
Proof. intros. unfold slice. rewrite length_take, length_drop. lia. Qed.

Lemma le_image l i n : Forall (fun b => 0 <= b < 256) l -> 0 <= i -> 0 <= n ->
  i + n <= Z.of_nat (length l) -> le_bytes (Z.to_nat n) (le_value (slice l i n)) = slice l i n.
Proof.
  intros Hl H1 H2 H3. rewrite <- (length_slice l i n) at 1 by auto. apply le_bytes_value.
  apply Forall_take, Forall_drop, Hl.
Qed.

Lemma slice_drop l i n j : 0 <= i -> 0 <= n -> j = Z.to_nat (i + n) ->
  slice l i n ++ drop j l = drop (Z.to_nat i) l.
Proof.
  intros H1 H2 ->. unfold slice. rewrite Z2Nat.inj_add, <- drop_drop by lia. apply take_drop.
Qed.

(** Casting a buffer to a packet structure loses nothing: the memory image
    of the structure and the bytes behind it is the buffer. *)
Theorem pkt_image_roundtrip l :
  SZ_PKT_TCP <= Z.of_nat (length l) -> Forall (fun b => 0 <= b < 256) l ->
  pkt_bytes (bytes_pkt l) = l.
Proof.
  unfold SZ_PKT_TCP. intros Hlen Hl.
  assert (I : forall i n k, k = Z.to_nat n -> 0 <= i -> 0 <= n -> i + n <= 54 ->
    le_bytes k (le_value (slice l i n)) = slice l i n)
    by (intros i n k -> **; apply le_image; auto; lia).
  unfold pkt_bytes, bytes_pkt. cbn [p_eth p_ip p_tcp p_data eth_dest eth_src eth_type be16_x be32_x
    ip_v_hl ip_tos ip_len ip_id ip_offset ip_ttl ip_proto ip_chksum ip_src ip_dest
    tcp_src tcp_dest tcp_seqno tcp_ackno tcp_hdrlen_rsvd_flags tcp_wnd tcp_chksum tcp_urgp].
  rewrite !I by (reflexivity || lia).
  repeat (rewrite slice_drop by (reflexivity || lia)). reflexivity.
Qed.

(** ** Notifications of the application *)

Lemma length_le_bytes n x : length (le_bytes n x) = n.
Proof. unfold le_bytes. rewrite length_map, length_seq. reflexivity. Qed.

(** A field between others. *)
Lemma slice_mid (a b c : list Z) i n : i = Z.of_nat (length a) -> n = Z.of_nat (length b) -> slice (a ++ b ++ c) i n = b.
Proof. intros -> ->. unfold slice. rewrite !Nat2Z.id, drop_app_length. apply take_app_length. Qed.

Lemma le_field a n x c i k : i = Z.of_nat (length a) -> k = Z.of_nat n -> 0 <= x < 256 ^ k ->
  le_value (slice (a ++ le_bytes n x ++ c) i k) = x.
Proof.
  intros Ei -> Hx. rewrite slice_mid by (rewrite ?length_le_bytes; auto). rewrite le_value_bytes. now apply Z.mod_small.
Qed.
Lemma slice_skip (a l : list Z) i n : Z.of_nat (length a) <= i -> slice (a ++ l) i n = slice l (i - Z.of_nat (length a)) n.
Proof. intros L. unfold slice. f_equal. rewrite drop_app_ge by lia. f_equal. lia. Qed.

Lemma le_first n x c k : k = Z.of_nat n -> 0 <= x < 256 ^ k -> le_value (slice (le_bytes n x ++ c) 0 k) = x.
Proof. intros E Hx. exact (le_field [] n x c 0 k eq_refl E Hx). Qed.

Lemma mem_read_mid m a l1 l2 l3 :
  mem_read (mem_write m a (l1 ++ l2 ++ l3)) (a + Z.of_nat (length l1)) (length l2) = l2.
Proof.
  pose proof (mem_read_write m a (l1 ++ l2 ++ l3)) as E.
  rewrite !length_app, mem_read_app in E.
  apply app_inj_1 in E as [_ E]; [|rewrite length_mem_read; reflexivity].
  rewrite mem_read_app in E. apply app_inj_1 in E as [E _]; [exact E | rewrite length_mem_read; reflexivity].
Qed.

(** A field of an entry just written. *)
Lemma mem_le_mid m a l1 n x l3 off :
  off = a + Z.of_nat (length l1) -> 0 <= x < 256 ^ Z.of_nat n ->
  mem_le (mem_write m a (l1 ++ le_bytes n x ++ l3)) off n = x.
Proof.
  intros -> Hx. unfold mem_le.
  pose proof (mem_read_mid m a l1 (le_bytes n x) l3) as E. rewrite length_le_bytes in E.
  rewrite E, le_value_bytes. apply Z.mod_small. lia.
Qed.

Section Notify.
Context `{Platform}.

Definition arx_ok (a : arx_entry) : Prop :=
  0 <= arx_opaque a < 18446744073709551616 /\ is_u32 (arx_rx_bump a) /\ is_u32 (arx_rx_pos a) /\
  is_u32 (arx_tx_bump a) /\ 0 <= arx_type a < 256.

(** What the application's library reads from an entry at [slot]. *)
Definition arx_at (m : mem) (slot : Z) : arx_entry :=
  mk_arx (mem_le m slot 8) (mem_le m (slot + 8) 4) (mem_le m (slot + 12) 4)
    (mem_le m (slot + 16) 4) (mem_le m (slot + 59) 4) (mem_byte m (slot + 63)).

Lemma length_arx_bytes a : length (arx_bytes a) = 64%nat.
Proof.
  unfold arx_bytes. rewrite !length_app, !length_le_bytes, length_map, length_seq. reflexivity.
Qed.

Lemma arx_at_write m slot a : arx_ok a -> is_u32 (arx_tx_head a) ->
  arx_at (mem_write m slot (arx_bytes a)) slot = a.
Proof.
  unfold is_u32. intros (H1 & H2 & H3 & H4 & H5) H6. unfold is_u32 in *.
  destruct a as [op rb rp tb th ty]. cbn [arx_opaque arx_rx_bump arx_rx_pos arx_tx_bump arx_tx_head arx_type] in *.
  unfold arx_at, arx_bytes. cbn [arx_opaque arx_rx_bump arx_rx_pos arx_tx_bump arx_tx_head arx_type].
  assert (Hj : length (map arx_junk (seq 0 39)) = 39%nat) by (rewrite length_map, length_seq; reflexivity).
  set (junk := map arx_junk (seq 0 39)) in *. f_equal.
  - apply (mem_le_mid _ _ []); [cbn; lia | lia].
  - apply (mem_le_mid _ _ (le_bytes 8 op)); [rewrite length_le_bytes; lia | lia].
  - rewrite (app_assoc (le_bytes 8 op)).
    apply (mem_le_mid _ _ (le_bytes 8 op ++ le_bytes 4 rb));
      [rewrite length_app, !length_le_bytes; lia | lia].
  - rewrite (app_assoc (le_bytes 8 op)), (app_assoc (_ ++ _)).
    apply (mem_le_mid _ _ ((le_bytes 8 op ++ le_bytes 4 rb) ++ le_bytes 4 rp));
      [rewrite !length_app, !length_le_bytes; lia | lia].
  - rewrite (app_assoc (le_bytes 8 op)), (app_assoc (le_bytes 8 op ++ _)),
      (app_assoc ((le_bytes 8 op ++ _) ++ _)), (app_assoc (((le_bytes 8 op ++ _) ++ _) ++ _)).
    apply mem_le_mid; [rewrite !length_app, !length_le_bytes, Hj; lia | lia].
  - replace (slot + 63) with (slot + Z.of_nat 63) by lia.
    rewrite (mem_write_in _ _ _ _ (u8 ty)).
    + apply Z.mod_small. lia.
    + rewrite !app_assoc, lookup_app_r; rewrite !length_app, !length_le_bytes, Hj; [reflexivity | lia].
Qed.

(** A notification for an application goes into the entry its queue's
    head register points at, if the application has released that entry
    (type 0): then the application reads exactly the notification there,
    stamped with the transmit queue's head, nothing else in memory changes
    and the head register moves to the next entry of the ring.  If the
    application has not released the entry, nothing is written. *)
Theorem fast_actx_rxq_add_spec w db arx :
  let actx := fp_appctx w !!! db in
  let slot := ac_rx_base actx + ac_rx_head actx in
  0 <= ac_rx_base actx -> 0 <= ac_rx_head actx -> 64 <= ac_rx_len actx < 2147483648 ->
  (64 | ac_rx_len actx) -> (64 | ac_rx_head actx) -> ac_rx_head actx < ac_rx_len actx ->
  ac_rx_base actx + ac_rx_len actx <= FLEXNIC_DMA_MEM_SIZE ->
  is_u32 (ac_tx_head actx) -> arx_ok arx ->
  if mem_byte (fp_mem w) (slot + 63) =? 0 then
    exists w', fast_actx_rxq_add w db arx = Ok (true, w') /\
      arx_at (fp_mem w') slot = arx <| arx_tx_head := ac_tx_head actx |> /\
      (forall x, x < slot \/ slot + 64 <= x -> mem_byte (fp_mem w') x = mem_byte (fp_mem w) x) /\
      ac_rx_head (fp_appctx w' !!! db) = (ac_rx_head actx + 64) mod ac_rx_len actx /\
      same_flows_tx w w'
  else fast_actx_rxq_add w db arx = Ok (false, w).
Proof.
  intros actx slot Hb Hh HL [q Hq] [k Hk] Hlt Hm Htx Ha. unfold fast_actx_rxq_add. fold actx.
  unfold FLEXNIC_DMA_MEM_SIZE in *.
  assert (k + 1 <= q) by nia.
  rewrite (u64_small (ac_rx_base actx + _)) by lia. fold slot.
  unfold dma_pointer. rewrite (proj2 (dma_valid_iff slot SZ_ARX ltac:(unfold slot; lia) ltac:(unfold SZ_ARX; lia)))
    by (unfold FLEXNIC_DMA_MEM_SIZE, SZ_ARX, slot; lia).
  destruct (Z.eqb_spec (mem_byte (fp_mem w) (slot + 63)) 0) as [E|E]; [|reflexivity]. cbn [negb].
  destruct (util_flexnic_kick _) as [c kk] eqn:EK. eexists. split; [reflexivity|].
  unfold util_flexnic_kick in EK. injection EK as <- <-. cbn [fp_mem fp_appctx upd eta_fp].
  split; [|split; [|split]].
  - apply arx_at_write; [exact Ha | exact Htx].
  - intros x Hx. apply mem_write_out. rewrite length_arx_bytes. lia.
  - rewrite lookup_total_insert_eq. cbn [ac_rx_head upd eta_appctx].
    unfold SZ_ARX. rewrite (u32_small (ac_rx_head actx + 64)) by mlia.
    destruct (Z.leb_spec (ac_rx_len actx) (ac_rx_head actx + 64)).
    + rewrite u32_small by mlia. apply (Z.mod_unique_pos _ _ 1); lia.
    + symmetry. apply Z.mod_small. lia.
  - repeat split.
Qed.
End Notify.
