(* ===== verification/Dataplane.v ===== *)
(** The fast path's main loop: the polling functions, the cache of network
    buffers and the transmit buffer of flexnic/fastemu.c. *)
From stdpp Require Import base numbers list gmap relations.
From Stdlib Require Import ZArith Lia.
From S2P Require Import Prelude Packet FlowState TcpCommon Qman LinkedList Dma Circ FastPath FastRx Stream TxPath RxPath Handlers Queues.

Definition BATCH_SIZE : Z := 32.
Definition BUFCACHE_SIZE : Z := 128.
Definition APP_QMAN_CTX : Z := 0.

(** ** The buffer cache

    A ring of [BUFCACHE_SIZE] buffer handles, of which [bc_num] from [bc_head]
    on are cached. *)
Record bufcache := mk_bufcache { bc_handles : list Z; bc_num : Z; bc_head : Z }.

(** Write [hs] at slots [i], [i + 1], ... (as [network_buf_alloc] does). *)
Definition bc_store (b : bufcache) (i : Z) (hs : list Z) : bufcache :=
  mk_bufcache (put_bytes (bc_handles b) (Z.to_nat i) hs) (bc_num b) (bc_head b).

(** The array [bufcache_prealloc] hands out: the handles from the head on. *)
Definition bc_from (b : bufcache) : list Z := drop (Z.to_nat (bc_head b)) (bc_handles b).

(** Set [NBH_TX_BIT] in [n] slots from [i] on. *)
Fixpoint bc_mark (l : list Z) (i : Z) (n : nat) : list Z :=
  match n with
  | O => l
  | S n' =>
    let g := Z.to_nat (Z.land i (BUFCACHE_SIZE - 1)) in
    bc_mark (<[g := Z.lor (default 0 (l !! g)) NBH_TX_BIT]> l) (i + 1) n'
  end.

(** [bufcache_prealloc]: [alloc n] are the handles [network_buf_alloc] returns
    when asked for [n] buffers the first time, [alloc'] the second.  The result
    is the cache and the number of buffers available from [bc_head] on without
    wrapping around. *)
Definition bufcache_prealloc (alloc alloc' : Z -> list Z) (b : bufcache) (num : Z) : bufcache * Z :=
  let b :=
    if bc_num b <? num then
      let grow := BUFCACHE_SIZE - bc_num b in
      let head := Z.land (bc_head b + bc_num b) (BUFCACHE_SIZE - 1) in
      let '(b, res) :=
        if head + grow <=? BUFCACHE_SIZE then
          let hs := alloc grow in (bc_store b head hs, Z.of_nat (length hs))
        else
          let g := BUFCACHE_SIZE - head in
          let hs := alloc g in
          let b := bc_store b head hs in
          if Z.of_nat (length hs) =? g then
            let hs' := alloc' (grow - g) in
            (bc_store b 0 hs', Z.of_nat (length hs) + Z.of_nat (length hs'))
          else (b, Z.of_nat (length hs)) in
      mk_bufcache (bc_mark (bc_handles b) head (Z.to_nat res)) (bc_num b + res) (bc_head b)
    else b in
  (b, MIN num (if bc_head b + bc_num b <=? BUFCACHE_SIZE then bc_num b
               else BUFCACHE_SIZE - bc_head b)).

Definition bufcache_alloc (b : bufcache) (num : Z) : outcome bufcache :=
  let! _ := assert_ (num <=? bc_num b) in
  Ok (mk_bufcache (bc_handles b) (bc_num b - num) (Z.land (bc_head b + num) (BUFCACHE_SIZE - 1))).

(** [bufcache_free]: the second result are the handles given back to the
    network driver. *)
Definition bufcache_free (b : bufcache) (handle : Z) : bufcache * list Z :=
  if (Z.land handle NBH_TX_BIT =? NBH_TX_BIT) && (bc_num b <? BUFCACHE_SIZE) then
    let head := Z.land (bc_head b + bc_num b) (BUFCACHE_SIZE - 1) in
    (mk_bufcache (<[Z.to_nat head := handle]> (bc_handles b)) (bc_num b + 1) (bc_head b), [])
  else (b, [Z.land handle (Z.lnot NBH_TX_BIT)]).

(** ** A dataplane context *)

Record dp := mk_dp
  { dp_fp : fp;
    dp_kick_ts : Z;               (* last_ts of fast_kernel_kick *)
    dp_kernel_kicks : nat;        (* writes to kernel_notifyfd *)
    dp_next_ctx : Z;              (* poll_next_ctx *)
    dp_cache : bufcache }.
#[export] Instance eta_dp : Eta dp := fun d =>
  mk_dp (dp_fp d) (dp_kick_ts d) (dp_kernel_kicks d) (dp_next_ctx d) (dp_cache d).

(** A received packet: its buffer's handle, the NIC's flow group for it. *)
Record rxpkt := mk_rxpkt { rp_bh : Z; rp_off : Z; rp_len : Z; rp_pkt : pkt_tcp; rp_fg : option Z }.

Definition tx_room (d : dp) : Z :=
  let r := TXBUF_SIZE - Z.of_nat (length (fp_tx (dp_fp d))) in
  if r <? BATCH_SIZE then r else BATCH_SIZE.

Section Polling.
Context `{Platform}.

(** *** [poll_rx] *)

(** One packet with the flow found for it; the boolean is [freebuf]. *)
Definition rx_one (d : dp) (r : rxpkt) (fl : option Z) (ts : Z) : outcome (dp * bool) :=
  let! (ret, w, p) :=
    match fl with
    | Some id => fast_flows_packet (dp_fp d) (rp_bh r) (rp_off r) (rp_len r) (rp_pkt r) id ts
    | None => Ok (-1, dp_fp d, rp_pkt r)
    end in
  if 0 <? ret then Ok (d <| dp_fp := w |>, true)
  else if ret <? 0 then
    let! (w, kts, _, kick) := fast_kernel_packet w (dp_kick_ts d) (pkt_bytes p) (rp_len r) (rp_fg r) in
    Ok (d <| dp_fp := w |> <| dp_kick_ts := kts |>
          <| dp_kernel_kicks := (dp_kernel_kicks d + if kick then 1 else 0)%nat |>, false)
  else Ok (d <| dp_fp := w |>, false).

Fixpoint rx_batch (d : dp) (l : list (rxpkt * option Z)) (ts : Z) : outcome (dp * list bool) :=
  match l with
  | [] => Ok (d, [])
  | (r, fl) :: l' =>
    let! (d, b) := rx_one d r fl ts in
    let! (d, bs) := rx_batch d l' ts in
    Ok (d, b :: bs)
  end.

(** Free the buffers that were not handed on. *)
Fixpoint rx_free (b : bufcache) (l : list (rxpkt * bool)) : bufcache * list Z :=
  match l with
  | [] => (b, [])
  | (r, kept) :: l' =>
    if kept : bool then rx_free b l'
    else
      let '(b, f) := bufcache_free b (rp_bh r) in
      let '(b, f') := rx_free b l' in (b, f ++ f')
  end.

(** [recv n] are the packets [network_poll] delivers when asked for [n]. *)
Definition poll_rx (recv : Z -> list rxpkt) (d : dp) (ts : Z) : outcome (dp * list bool * list Z * Z) :=
  let rs := recv (tx_room d) in
  match rs with
  | [] => Ok (d, [], [], 0)
  | _ =>
    let fss := fast_flows_packet_fss (dp_fp d) (map rp_pkt rs) in
    let! (d, kept) := rx_batch d (zip rs fss) ts in
    let '(b, freed) := rx_free (dp_cache d) (zip rs kept) in
    Ok (d <| dp_cache := b |>, kept, freed, Z.of_nat (length rs))
  end.

(** *** [poll_queues] *)

(** The inner loop: context [id] for at most [i] entries; [hs] are the handles
    from the head of the cache on, [k] of them used so far, [total] entries
    handled. *)
Fixpoint appctx_loop (hs : list Z) (i : nat) (w : fp) (id max k total ts : Z) : outcome (fp * Z * Z) :=
  match i with
  | O => Ok (w, k, total)
  | S i' =>
    if negb (k <? max) then Ok (w, k, total)
    else
      let! (ret, w) := fast_appctx_poll w (byte_at hs k) id ts in
      if ret =? 0 then appctx_loop hs i' w id max (k + 1) (total + 1) ts
      else if ret <? 0 then Ok (w, k, total)
      else appctx_loop hs i' w id max k (total + 1) ts
  end.

Fixpoint queues_loop (hs : list Z) (n : nat) (w : fp) (next max k total ts : Z) : outcome (fp * Z * Z * Z) :=
  match n with
  | O => Ok (w, next, k, total)
  | S n' =>
    if negb (k <? max) then Ok (w, next, k, total)
    else
      let! (w, k, total) := appctx_loop hs (Z.to_nat BATCH_SIZE) w next max k total ts in
      queues_loop hs n' w ((next + 1) mod FLEXNIC_PL_APPCTX_NUM) max k total ts
  end.

Definition poll_queues (alloc alloc' : Z -> list Z) (d : dp) (ts : Z) : outcome (dp * Z) :=
  let '(b, max) := bufcache_prealloc alloc alloc' (dp_cache d) (tx_room d) in
  let! (w, next, k, total) :=
    queues_loop (bc_from b) (Z.to_nat FLEXNIC_PL_APPCTX_NUM) (dp_fp d) (dp_next_ctx d) max 0 0 ts in
  let! b := bufcache_alloc b k in
  Ok (d <| dp_fp := w |> <| dp_next_ctx := next |> <| dp_cache := b |>, total).

(** *** [poll_kernel] *)

(** The loop runs until the queue is empty or [max] buffers are used; [fuel]
    bounds the entries handled. *)
Fixpoint kernel_loop (hs : list Z) (fuel : nat) (w : fp) (max k total ts : Z) : outcome (fp * Z * Z) :=
  if negb (k <? max) then Ok (w, k, total)
  else
    match fuel with
    | O => Spin
    | S fuel' =>
      let! (ret, w) := fast_kernel_poll w (byte_at hs k) ts in
      if ret =? 0 then kernel_loop hs fuel' w max (k + 1) (total + 1) ts
      else if ret <? 0 then Ok (w, k, total)
      else kernel_loop hs fuel' w max k (total + 1) ts
    end.

Definition poll_kernel (fuel : nat) (alloc alloc' : Z -> list Z) (d : dp) (ts : Z) : outcome (dp * Z) :=
  let max := tx_room d in
  let max := if 8 <? max then 8 else max in
  let '(b, max) := bufcache_prealloc alloc alloc' (dp_cache d) max in
  let! (w, k, total) := kernel_loop (bc_from b) fuel (dp_fp d) max 0 0 ts in
  let! b := bufcache_alloc b k in
  Ok (d <| dp_fp := w |> <| dp_cache := b |>, total).

(** *** [poll_qman], [poll_qman_fwd] *)

(** One queue the queue manager fired. *)
Definition qman_one (w : fp) (nbh : Z) (f : fired) (ts : Z) : outcome (Z * fp) :=
  if f_id f =? 0 then Crash
  else if f_opaque f =? APP_QMAN_CTX then Crash
  else fast_flows_qman w nbh (f_id f) ts.

Fixpoint qman_loop (hs : list Z) (w : fp) (l : list fired) (off ts : Z) : outcome (fp * Z) :=
  match l with
  | [] => Ok (w, off)
  | f :: l' =>
    let! (use, w) := qman_one w (byte_at hs off) f ts in
    qman_loop hs w l' (if use =? 0 then off + 1 else off) ts
  end.

(** [qts] is the queue manager's own clock reading. *)
Definition poll_qman (alloc alloc' : Z -> list Z) (d : dp) (qts ts : Z) : outcome (dp * Z) :=
  let '(b, max) := bufcache_prealloc alloc alloc' (dp_cache d) (tx_room d) in
  let! (t, l) := qman_poll qfuel (fp_qman (dp_fp d)) qts (Z.to_nat max) in
  let d := d <| dp_fp := dp_fp d <| fp_qman := t |> |> <| dp_cache := b |> in
  match l with
  | [] => Ok (d, 0)
  | _ =>
    let! (w, off) := qman_loop (bc_from b) (dp_fp d) l 0 ts in
    let! b := bufcache_alloc b off in
    Ok (d <| dp_fp := w |> <| dp_cache := b |>, Z.of_nat (length l))
  end.

(** [rte_ring_dequeue_burst] from the ring of core [id]. *)
Fixpoint fwd_dequeue (n : nat) (id : Z) (l : list (Z * Z)) : list Z * list (Z * Z) :=
  match n, l with
  | O, _ | _, [] => ([], l)
  | S n', (c, fl) :: l' =>
    if c =? id then let '(got, rest) := fwd_dequeue n' id l' in (fl :: got, rest)
    else let '(got, rest) := fwd_dequeue n id l' in (got, (c, fl) :: rest)
  end.

Fixpoint fwd_loop (w : fp) (l : list Z) : outcome fp :=
  match l with
  | [] => Ok w
  | fl :: l' => let! (_, w) := fast_flows_qman_fwd w fl in fwd_loop w l'
  end.

Definition poll_qman_fwd (d : dp) : outcome (dp * Z) :=
  let w := dp_fp d in
  let '(got, rest) := fwd_dequeue (Z.to_nat BATCH_SIZE) (fp_id w) (fp_fwd w) in
  let! w := fwd_loop (w <| fp_fwd := rest |>) got in
  Ok (d <| dp_fp := w |>, Z.of_nat (length got)).

(** *** [tx_flush]; [sent] is what [network_send] returns *)
Definition tx_flush (sent : Z) (d : dp) : dp :=
  let tx := fp_tx (dp_fp d) in
  let num := Z.of_nat (length tx) in
  if num =? 0 then d
  else if sent =? num then d <| dp_fp := dp_fp d <| fp_tx := [] |> |>
  else if 0 <? sent then d <| dp_fp := dp_fp d <| fp_tx := drop (Z.to_nat sent) tx |> |>
  else d.
End Polling.

(** ** Transmit buffer accounting *)

(** A handler's return value 0 says that it used the buffer it was given. *)
Definition used_if_0 (b ret : Z) (w w' : fp) : Prop :=
  if ret =? 0 then queued b w w' else fp_tx w' = fp_tx w.

Lemma queued_tx b w1 w w' : fp_tx w1 = fp_tx w -> queued b w1 w' -> queued b w w'.
Proof. unfold queued. intros ->. auto. Qed.

Section Accounting.
Context `{Platform} {nbh : Z}.

Lemma flast_flows_bump_used w id bs rt th ts r w' :
  flast_flows_bump w nbh id bs rt th ts = Ok (r, w') -> (r = 0 \/ r = -1) /\ used_if_0 nbh r w w'.
Proof.
  unfold flast_flows_bump. intros E. apply obind_ok in E as (fs & _ & E).
  destruct (bump_stale _ _); [injection E as <- <-; split; [auto | reflexivity]|].
  cbv zeta in E. apply obind_ok in E as (w1 & E1 & E).
  assert (S : same_flows_tx w w1).
  { repeat match type of E1 with
    | (if ?b then _ else _) = Ok _ => destruct b
    | Ok _ = Ok _ => injection E1 as <-
    end; eauto with frames. }
  destruct S as (_ & S & _). run_if E.
  - apply obind_ok in E as (w2 & E2 & E). injection E as <- <-. split; [auto|].
    apply flow_tx_segment_frame in E2 as (_ & _ & Q). exact (queued_tx _ _ _ _ S Q).
  - injection E as <- <-. split; [auto | exact S].
Qed.

Lemma fast_flows_retransmit_tx w id w' : fast_flows_retransmit w id = Ok w' -> fp_tx w' = fp_tx w.
Proof.
  unfold fast_flows_retransmit. intros E. apply obind_ok in E as (fs & _ & E). cbv zeta in E.
  run_if E; [injection E as <-; reflexivity|]. apply obind_ok in E as (w1 & E1 & E). injection E as <-.
  run_if E1; [|injection E1 as <-; reflexivity]. apply fp_qman_set_frame in E1. apply E1.
Qed.

Lemma fast_flows_qman_used w q ts r w' :
  fast_flows_qman w nbh q ts = Ok (r, w') -> used_if_0 nbh r w w'.
Proof.
  unfold fast_flows_qman. intros E. cbv zeta in E. apply obind_ok in E as (fs & _ & E).
  run_if E.
  { run_if E; [|discriminate]. apply obind_ok in E as (w1 & E1 & E).
    apply fp_qman_set_frame in E1 as (_ & A & _). destruct (util_flexnic_kick _).
    injection E as <- <-. exact A. }
  run_if E; [injection E as <- <-; reflexivity|].
  apply obind_ok in E as ([[fs1 n] w1] & E1 & E). apply obind_ok in E as (w2 & E2 & E).
  injection E as <- <-. apply flow_tx_segment_frame in E2 as (_ & _ & Q).
  refine (queued_tx _ _ _ _ _ Q).
  destruct (fs_objconn fs); [|injection E1 as <- <- <-; reflexivity].
  apply obind_ok in E1 as ([[f1 n1] b] & _ & E1). apply obind_ok in E1 as (w3 & E3 & E1).
  injection E1 as <- <- <-. destruct b; [|injection E3 as <-; reflexivity].
  apply fp_qman_set_frame in E3. apply E3.
Qed.

Lemma qman_one_used w f ts r w' : qman_one w nbh f ts = Ok (r, w') -> used_if_0 nbh r w w'.
Proof. unfold qman_one. intros E. run_if E; [discriminate|]. run_if E; [discriminate|]. eapply fast_flows_qman_used, E. Qed.

Lemma fast_appctx_poll_used w id ts r w' :
  fast_appctx_poll w nbh id ts = Ok (r, w') -> used_if_0 nbh r w w'.
Proof.
  unfold fast_appctx_poll. intros E. cbv zeta in E. run_if E; [injection E as <- <-; reflexivity|].
  destruct (dma_pointer _ _) as [atx|]; [|discriminate].
  run_if E; [injection E as <- <-; reflexivity|].
  run_if E; [|discriminate]. run_if E; [discriminate|].
  apply obind_ok in E as ([r1 w1] & E1 & E). injection E as <- <-.
  destruct (flast_flows_bump_used _ _ _ _ _ _ _ _ E1) as [[-> | ->] U]; exact U.
Qed.

Lemma fast_kernel_poll_used w ts r w' : fast_kernel_poll w nbh ts = Ok (r, w') -> used_if_0 nbh r w w'.
Proof.
  unfold fast_kernel_poll. intros E. cbv zeta in E. run_if E; [injection E as <- <-; reflexivity|].
  destruct (dma_pointer _ _) as [ktx|]; [|discriminate].
  run_if E; [injection E as <- <-; reflexivity|].
  apply obind_ok in E as ([r1 w1] & E1 & E). injection E as <- <-. run_if E1.
  - destruct (dma_read _ _ _); [|discriminate]. apply obind_ok in E1 as (b & _ & E1).
    apply obind_ok in E1 as (w2 & E2 & E1). injection E1 as <- <-.
    apply tx_send_frame in E2 as [-> _]. eexists. split; reflexivity.
  - run_if E1; [|discriminate]. run_if E1; [discriminate|]. apply obind_ok in E1 as (w2 & E2 & E1).
    injection E1 as <- <-. exact (fast_flows_retransmit_tx _ _ _ E2).
Qed.
End Accounting.

(** ** Runs of handler calls

    A poll is a run of calls.  [call h w o] says that a call the poll may make,
    with the buffer [h] in machine [w], has the outcome [o]; [polled hs w hs' w']
    that a sequence of such calls, each given the first buffer left over, leads
    from [w] with the buffers [hs] left to [w'] with [hs'] left. *)
Inductive polled (call : Z -> fp -> outcome (Z * fp) -> Prop) : list Z -> fp -> list Z -> fp -> Prop :=
| polled_here hs w : polled call hs w hs w
| polled_call h hs w ret w1 hs' w' :
    call h w (Ok (ret, w1)) -> polled call (if ret =? 0 then hs else h :: hs) w1 hs' w' ->
    polled call (h :: hs) w hs' w'.

(** A call that may be made next has the outcome [Crash]. *)
Definition call_crashes (call : Z -> fp -> outcome (Z * fp) -> Prop) (hs : list Z) (w : fp) : Prop :=
  exists h hs' w', polled call hs w (h :: hs') w' /\ call h w' Crash.

Definition queue_call `{Platform} (ts h : Z) (w : fp) (o : outcome (Z * fp)) : Prop :=
  exists id, fast_appctx_poll w h id ts = o.
Definition kernel_call `{Platform} (ts h : Z) (w : fp) (o : outcome (Z * fp)) : Prop :=
  fast_kernel_poll w h ts = o.
Definition qman_call `{Platform} (l : list fired) (ts h : Z) (w : fp) (o : outcome (Z * fp)) : Prop :=
  exists f, f ∈ l /\ qman_one w h f ts = o.

Section Runs.
Context (call : Z -> fp -> outcome (Z * fp) -> Prop).

Lemma polled_trans hs w hs1 w1 hs2 w2 :
  polled call hs w hs1 w1 -> polled call hs1 w1 hs2 w2 -> polled call hs w hs2 w2.
Proof. induction 1; eauto using polled. Qed.

Lemma polled_crash hs w hs1 w1 : polled call hs w hs1 w1 -> call_crashes call hs1 w1 -> call_crashes call hs w.
Proof. intros P (h & hs' & w' & P' & C). exists h, hs', w'. eauto using polled_trans. Qed.

(** The packets a run queues occupy the buffers it uses up, in order. *)
Lemma polled_queued hs w hs' w' :
  (forall h w ret w1, call h w (Ok (ret, w1)) -> used_if_0 h ret w w1) -> polled call hs w hs' w' ->
  exists used pks, hs = used ++ hs' /\ fp_tx w' = fp_tx w ++ pks /\ map tx_nbh pks = map tx_handle used.
Proof.
  intros U P. induction P as [hs w|h hs w ret w1 hs' w' C P (used & pks & E1 & E2 & E3)].
  { exists [], []. rewrite app_nil_r. auto. }
  apply U in C. unfold used_if_0 in C. destruct (ret =? 0).
  - destruct C as (p & E & Eh). exists (h :: used), (p :: pks). rewrite E2, E, <- app_assoc. subst hs. cbn.
    rewrite Eh, E3. auto.
  - exists used, pks. rewrite <- C. auto.
Qed.

(** A loop over the first [max] of the handles [hs], started at handle [k];
    [get] reads the machine and the number of handles used off the loop's result. *)
Definition loop_run {A} (get : A -> fp * Z) (hs : list Z) (max k : Z) (w : fp) (o : outcome A) : Prop :=
  let from i := drop (Z.to_nat i) (take (Z.to_nat max) hs) in
  match o with
  | Ok a => k <= snd (get a) <= max /\ polled call (from k) w (from (snd (get a))) (fst (get a))
  | Crash => call_crashes call (from k) w
  | Spin => True
  end.

Lemma loop_here {A} (get : A -> fp * Z) hs max k w a :
  get a = (w, k) -> k <= max -> loop_run get hs max k w (Ok a).
Proof. intros E Hk. cbn. rewrite E. cbn. split; [lia | constructor]. Qed.

Lemma loop_bind {A B} (get : A -> fp * Z) (get' : B -> fp * Z) hs max k w o (f : A -> outcome B) :
  loop_run get hs max k w o ->
  (forall a, k <= snd (get a) <= max -> loop_run get' hs max (snd (get a)) (fst (get a)) (f a)) ->
  loop_run get' hs max k w (obind o f).
Proof.
  intros R F. destruct o as [a| |]; [|exact R..]. destruct R as [L P]. specialize (F a L). cbn [obind].
  destruct (f a) as [c| |]; [|exact (polled_crash _ _ _ _ P F)|exact I].
  destruct F as [L' P']. split; [lia | eapply polled_trans; eauto].
Qed.

Lemma loop_call {A} (get : A -> fp * Z) hs max k w o (f : Z * fp -> outcome A) :
  0 <= k < max -> max <= Z.of_nat (length hs) -> call (byte_at hs k) w o ->
  (forall ret w1, loop_run get hs max (if ret =? 0 then k + 1 else k) w1 (f (ret, w1))) ->
  loop_run get hs max k w (obind o f).
Proof.
  intros Hk Hl C F.
  assert (D : drop (Z.to_nat k) (take (Z.to_nat max) hs) =
              byte_at hs k :: drop (Z.to_nat (k + 1)) (take (Z.to_nat max) hs)).
  { replace (Z.to_nat (k + 1)) with (S (Z.to_nat k)) by lia. apply drop_S. rewrite lookup_take_lt by lia.
    unfold byte_at. destruct (lookup_lt_is_Some_2 hs (Z.to_nat k) ltac:(lia)) as [x ->]. reflexivity. }
  destruct o as [[ret w1]| |]; [|exists (byte_at hs k); do 2 eexists; rewrite D; split; [constructor | exact C]|exact I].
  cbn [obind]. specialize (F ret w1). unfold loop_run in *. cbv zeta in *.
  assert (P : polled call (drop (Z.to_nat k) (take (Z.to_nat max) hs)) w
                (drop (Z.to_nat (if ret =? 0 then k + 1 else k)) (take (Z.to_nat max) hs)) w1).
  { rewrite D at 1. eapply polled_call; [exact C|]. destruct (ret =? 0); [|rewrite D]; constructor. }
  destruct (f (ret, w1)) as [a| |]; [|exact (polled_crash _ _ _ _ P F)|exact I].
  destruct F as [L P']. split; [destruct (ret =? 0); lia | eapply polled_trans; eauto].
Qed.
End Runs.

(** ** The loops are runs *)

Section Loops.
Context `{Platform} (hs : list Z) (max ts : Z).
Hypothesis Hmax : max <= Z.of_nat (length hs).

Definition got3 (a : fp * Z * Z) : fp * Z := fst a.
Definition got4 (a : fp * Z * Z * Z) : fp * Z := let '(w, _, k, _) := a in (w, k).

Lemma appctx_loop_run i w id k total : 0 <= k <= max ->
  loop_run (queue_call ts) got3 hs max k w (appctx_loop hs i w id max k total ts).
Proof.
  revert w k total. induction i as [|i IH]; intros w k total Hk; cbn [appctx_loop]; [apply loop_here; auto; lia|].
  destruct (Z.ltb_spec k max); cbn [negb]; [|apply loop_here; auto; lia].
  apply loop_call; [lia | exact Hmax | exists id; reflexivity|]. intros ret w1.
  destruct (ret =? 0); [apply IH; lia|]. destruct (ret <? 0); [apply loop_here; auto; lia | apply IH; lia].
Qed.

Lemma queues_loop_run n w next k total : 0 <= k <= max ->
  loop_run (queue_call ts) got4 hs max k w (queues_loop hs n w next max k total ts).
Proof.
  revert w next k total. induction n as [|n IH]; intros w next k total Hk; cbn [queues_loop];
    [apply loop_here; auto; lia|].
  destruct (Z.ltb_spec k max); cbn [negb]; [|apply loop_here; auto; lia].
  eapply loop_bind; [apply appctx_loop_run, Hk|]. intros [[w1 k1] t1] L. apply IH. cbn in L. lia.
Qed.

Lemma kernel_loop_run fuel w k total : 0 <= k <= max ->
  loop_run (kernel_call ts) got3 hs max k w (kernel_loop hs fuel w max k total ts).
Proof.
  revert w k total. induction fuel as [|fuel IH]; intros w k total Hk; cbn [kernel_loop];
    (destruct (Z.ltb_spec k max); cbn [negb]; [|apply loop_here; auto; lia]); [exact I|].
  apply loop_call; [lia | exact Hmax | reflexivity|]. intros ret w1.
  destruct (ret =? 0); [apply IH; lia|]. destruct (ret <? 0); [apply loop_here; auto; lia | apply IH; lia].
Qed.

Lemma qman_loop_run all l w off : incl l all -> 0 <= off -> off + Z.of_nat (length l) <= max ->
  loop_run (qman_call all ts) id hs max off w (qman_loop hs w l off ts).
Proof.
  revert w off. induction l as [|f l IH]; intros w off Hi H0 Hl; cbn [qman_loop length] in *;
    [apply loop_here; auto; lia|].
  apply loop_call; [lia | exact Hmax | exists f; split; [apply list_elem_of_In, Hi; left | ]; reflexivity|]. intros ret w1.
  apply IH; [intros x Hx; apply Hi; right; exact Hx | destruct (ret =? 0); lia..].
Qed.
End Loops.

(** ** The buffer cache is a queue *)

Lemma land_127 i : Z.land i (BUFCACHE_SIZE - 1) = i mod 128.
Proof. change (BUFCACHE_SIZE - 1) with (Z.ones 7). rewrite Z.land_ones by lia. reflexivity. Qed.

Lemma length_put_bytes l i bs : length (put_bytes l i bs) = length l.
Proof. revert i. induction bs as [|b bs IH]; intros i; cbn; auto. rewrite length_insert. auto. Qed.

Lemma byte_at_put l i bs j :
  0 <= i -> 0 <= j -> i + Z.of_nat (length bs) <= Z.of_nat (length l) ->
  byte_at (put_bytes l (Z.to_nat i) bs) j =
    if decide (i <= j < i + Z.of_nat (length bs)) then byte_at bs (j - i) else byte_at l j.
Proof.
  revert i. induction bs as [|b bs IH]; intros i Hi Hj Hl; cbn [put_bytes length] in *.
  { rewrite decide_False by lia. reflexivity. }
  replace (S (Z.to_nat i)) with (Z.to_nat (i + 1)) by lia. unfold byte_at.
  destruct (decide (j = i)) as [->|Hne].
  - rewrite list_lookup_insert_eq by (rewrite length_put_bytes; lia).
    rewrite decide_True by lia. rewrite Z.sub_diag. reflexivity.
  - rewrite list_lookup_insert_ne by lia.
    fold (byte_at (put_bytes l (Z.to_nat (i + 1)) bs) j). rewrite IH by lia.
    destruct (decide (i + 1 <= j < _)); [rewrite decide_True by lia|rewrite decide_False by lia; reflexivity].
    unfold byte_at. replace (Z.to_nat (j - i)) with (S (Z.to_nat (j - (i + 1)))) by lia. reflexivity.
Qed.

Lemma length_bc_mark l i n : length (bc_mark l i n) = length l.
Proof. revert l i. induction n as [|n IH]; intros l i; cbn [bc_mark]; auto. rewrite IH, length_insert. reflexivity. Qed.

Lemma byte_at_mark l i n j :
  length l = 128%nat -> 0 <= j < 128 -> (n <= 128)%nat ->
  byte_at (bc_mark l i n) j =
    if decide ((j - i) mod 128 < Z.of_nat n) then Z.lor (byte_at l j) NBH_TX_BIT else byte_at l j.
Proof.
  revert l i. induction n as [|n IH]; intros l i Hl Hj Hn; cbn [bc_mark].
  { rewrite decide_False by mlia. reflexivity. }
  pose proof (Z.mod_pos_bound i 128 ltac:(lia)) as Hi.
  rewrite land_127, IH by (rewrite ?length_insert; lia). unfold byte_at.
  destruct (decide (j = i mod 128)) as [->|Hne].
  - rewrite list_lookup_insert_eq by lia. rewrite decide_False by mlia. rewrite decide_True by mlia. reflexivity.
  - rewrite list_lookup_insert_ne by lia.
    destruct (decide ((j - (i + 1)) mod 128 < Z.of_nat n)).
    + rewrite decide_True by mlia. reflexivity.
    + rewrite decide_False by mlia. reflexivity.
Qed.

Record bc_wf (b : bufcache) : Prop := mk_bc_wf
  { bcw_len : length (bc_handles b) = 128%nat; bcw_num : 0 <= bc_num b <= 128;
    bcw_head : 0 <= bc_head b < 128 }.

(** The cached handles, oldest first. *)
Definition cached (b : bufcache) : list Z :=
  map (fun i => byte_at (bc_handles b) ((bc_head b + i) mod 128)) (seqZ 0 (bc_num b)).

Lemma length_cached b : bc_wf b -> Z.of_nat (length (cached b)) = bc_num b.
Proof. intros []. unfold cached. rewrite length_map, length_seqZ. lia. Qed.

Lemma cached_lookup b i : 0 <= i < bc_num b ->
  cached b !! Z.to_nat i = Some (byte_at (bc_handles b) ((bc_head b + i) mod 128)).
Proof.
  intros. unfold cached. rewrite list_lookup_fmap, lookup_seqZ_lt by lia. cbn. do 3 f_equal. lia.
Qed.

(** Two queues with the same length and elements are equal. *)
Lemma list_eq_Z {A} (l k : list A) :
  length l = length k -> (forall i, 0 <= i < Z.of_nat (length l) -> l !! Z.to_nat i = k !! Z.to_nat i) -> l = k.
Proof.
  intros Hl E. apply list_eq. intros i. destruct (decide (i < length l)%nat).
  - replace i with (Z.to_nat (Z.of_nat i)) by lia. apply E. lia.
  - rewrite !lookup_ge_None_2 by lia. reflexivity.
Qed.

(** The slots after [new] was stored and marked from [head] on. *)
Definition refilled (l : list Z) (head : Z) (new : list Z) (l' : list Z) : Prop :=
  length l' = 128%nat /\
  forall j, 0 <= j < 128 ->
    byte_at l' j = if decide ((j - head) mod 128 < Z.of_nat (length new))
                   then byte_at new ((j - head) mod 128) else byte_at l j.

(** A handle marked as a transmit buffer's. *)
Definition bc_marked (h : Z) : Z := Z.lor h NBH_TX_BIT.

(** What the one or two calls of the driver allocated. *)
Definition refill (alloc alloc' : Z -> list Z) (new : list Z) : Prop :=
  new = [] \/ (exists n, new = alloc n) \/ exists n n', new = alloc n ++ alloc' n'.

Definition alloc_ok (alloc : Z -> list Z) : Prop :=
  forall n, 0 <= n -> Z.of_nat (length (alloc n)) <= n.

Section Cache.
Context (b : bufcache) (alloc alloc' : Z -> list Z).
Hypothesis W : bc_wf b.
Hypothesis A : alloc_ok alloc.
Hypothesis A' : alloc_ok alloc'.

Lemma bc_append new l' :
  refilled (bc_handles b) ((bc_head b + bc_num b) mod 128) new l' ->
  bc_num b + Z.of_nat (length new) <= 128 ->
  let b' := mk_bufcache l' (bc_num b + Z.of_nat (length new)) (bc_head b) in
  bc_wf b' /\ cached b' = cached b ++ new.
Proof.
  intros [Hl Hr] Hn b'. destruct W. assert (W' : bc_wf b') by (split; cbn; lia). split; [exact W'|].
  assert (Lb : Z.of_nat (length (cached b)) = bc_num b) by (apply length_cached; split; auto).
  assert (Lb' : Z.of_nat (length (cached b')) = bc_num b + Z.of_nat (length new)) by exact (length_cached b' W').
  apply list_eq_Z; [rewrite length_app; lia|]. intros i Hi. rewrite Lb' in Hi.
  rewrite cached_lookup by (cbn; lia). cbn [bc_handles bc_head b'].
  pose proof (Z.mod_pos_bound (bc_head b + i) 128 ltac:(lia)). rewrite Hr by lia.
  destruct (Z.ltb_spec i (bc_num b)).
  - rewrite decide_False by mlia. rewrite lookup_app_l by lia. rewrite cached_lookup by lia. reflexivity.
  - assert (E : ((bc_head b + i) mod 128 - (bc_head b + bc_num b) mod 128) mod 128 = i - bc_num b) by mlia.
    rewrite E, decide_True by lia. rewrite lookup_app_r by lia.
    replace (Z.to_nat i - length (cached b))%nat with (Z.to_nat (i - bc_num b)) by lia.
    unfold byte_at. destruct (lookup_lt_is_Some_2 new (Z.to_nat (i - bc_num b)) ltac:(lia)) as [x ->]. reflexivity.
Qed.

Lemma bufcache_free_spec h :
  let '(b', f) := bufcache_free b h in
  bc_wf b' /\
  if (Z.land h NBH_TX_BIT =? NBH_TX_BIT) && (bc_num b <? BUFCACHE_SIZE)
  then cached b' = cached b ++ [h] /\ f = []
  else b' = b /\ f = [Z.land h (Z.lnot NBH_TX_BIT)].
Proof.
  unfold bufcache_free. destruct (_ && _) eqn:E; [|auto]. apply andb_prop in E as [_ E].
  unfold BUFCACHE_SIZE in E. apply Z.ltb_lt in E. rewrite land_127. pose proof W as [].
  pose proof (Z.mod_pos_bound (bc_head b + bc_num b) 128 ltac:(lia)).
  destruct (bc_append [h] (<[Z.to_nat ((bc_head b + bc_num b) mod 128) := h]> (bc_handles b))) as [W1 C1];
    [|cbn; lia | auto].
  split; [rewrite length_insert; auto|]. intros j Hj. unfold byte_at. cbn [length].
  destruct (decide (j = (bc_head b + bc_num b) mod 128)) as [->|Hne].
  - rewrite list_lookup_insert_eq by lia. rewrite Z.sub_diag. reflexivity.
  - rewrite list_lookup_insert_ne by lia. rewrite decide_False; [reflexivity|].
    change (Z.of_nat 1) with 1. mlia.
Qed.

Lemma bufcache_alloc_spec k : 0 <= k <= bc_num b ->
  exists b', bufcache_alloc b k = Ok b' /\ bc_wf b' /\ cached b' = drop (Z.to_nat k) (cached b) /\
    bc_num b' = bc_num b - k.
Proof.
  intros Hk. pose proof W as []. unfold bufcache_alloc. rewrite (proj2 (Z.leb_le _ _)), land_127 by lia. cbn.
  eexists. split; [reflexivity|]. set (b' := mk_bufcache _ _ _).
  pose proof (Z.mod_pos_bound (bc_head b + k) 128 ltac:(lia)).
  assert (W' : bc_wf b') by (split; cbn; lia). split; [exact W'|]. split; [|reflexivity].
  pose proof (length_cached b W). pose proof (length_cached b' W') as L. cbn [bc_num b'] in L.
  apply list_eq_Z; [rewrite length_drop; lia|]. intros i Hi. rewrite L in Hi.
  rewrite lookup_drop, cached_lookup by (cbn; lia).
  rewrite <- Z2Nat.inj_add, cached_lookup by lia. cbn [bc_head bc_handles b'].
  rewrite Zplus_mod_idemp_l. do 3 f_equal. lia.
Qed.

(** The two ways [bufcache_prealloc] refills the ring. *)
Lemma refill_one hs head :
  0 <= head < 128 -> head + Z.of_nat (length hs) <= 128 ->
  refilled (bc_handles b) head hs (bc_handles (bc_store b head hs)).
Proof.
  intros Hh Hl. destruct W. unfold bc_store. cbn [bc_handles]. split; [rewrite length_put_bytes; auto|].
  intros j Hj. rewrite byte_at_put by lia.
  destruct (decide (head <= j < head + Z.of_nat (length hs))).
  - rewrite Z.mod_small, decide_True by lia. reflexivity.
  - rewrite decide_False; [reflexivity|]. mlia.
Qed.

Lemma refill_two hs hs' head :
  0 <= head < 128 -> head + Z.of_nat (length hs) = 128 -> Z.of_nat (length hs') <= head ->
  refilled (bc_handles b) head (hs ++ hs') (bc_handles (bc_store (bc_store b head hs) 0 hs')).
Proof.
  intros Hh Hl Hl'. destruct W. unfold bc_store. cbn [bc_handles].
  split; [rewrite !length_put_bytes; auto|].
  intros j Hj. rewrite length_app, !byte_at_put by (rewrite ?length_put_bytes; lia).
  destruct (decide (0 <= j < 0 + Z.of_nat (length hs'))).
  - assert (E : (j - head) mod 128 = j + Z.of_nat (length hs)) by mlia.
    rewrite E, decide_True by lia. unfold byte_at. rewrite lookup_app_r by lia. do 3 f_equal. lia.
  - destruct (decide (head <= j < head + Z.of_nat (length hs))).
    + rewrite Z.mod_small, decide_True by lia. unfold byte_at. rewrite lookup_app_l by lia. reflexivity.
    + rewrite decide_False; [reflexivity|]. mlia.
Qed.

Lemma refill_mark new head l' :
  refilled (bc_handles b) head new l' -> Z.of_nat (length new) <= 128 ->
  refilled (bc_handles b) head (map bc_marked new)
    (bc_mark l' head (length new)).
Proof.
  intros [Hl Hr] Hn. split; [rewrite length_bc_mark; auto|]. intros j Hj.
  rewrite byte_at_mark, length_map by (auto; lia). rewrite Hr by auto.
  destruct (decide _) as [d|d]; [|reflexivity]. unfold byte_at. rewrite list_lookup_fmap.
  destruct (lookup_lt_is_Some_2 new (Z.to_nat ((j - head) mod 128))) as [x ->]; [mlia | reflexivity].
Qed.

Lemma bufcache_prealloc_spec num : 0 <= num ->
  let '(b', k) := bufcache_prealloc alloc alloc' b num in
  bc_wf b' /\
  (exists new, refill alloc alloc' new /\ cached b' = cached b ++ map bc_marked new /\
               (num <= bc_num b -> new = [])) /\
  0 <= k <= num /\ k <= bc_num b' /\
  slice (bc_handles b') (bc_head b') k = take (Z.to_nat k) (cached b').
Proof.
  intros Hnum. unfold bufcache_prealloc.
  set (bb := if bc_num b <? num then _ else b). pose proof W as [].
  assert (R : bc_wf bb /\ exists new, refill alloc alloc' new /\ cached bb = cached b ++ map bc_marked new /\
               (num <= bc_num b -> new = [])).
  { subst bb. destruct (Z.ltb_spec (bc_num b) num).
    2:{ split; [exact W|]. exists []. rewrite app_nil_r. unfold refill. auto. }
    rewrite land_127. unfold BUFCACHE_SIZE. set (head := (bc_head b + bc_num b) mod 128).
    assert (Hh : 0 <= head < 128) by (apply Z.mod_pos_bound; lia).
    (* [new] are the handles of the one or two allocations *)
    assert (Fin : forall new l', refill alloc alloc' new -> refilled (bc_handles b) head new l' ->
      bc_num b + Z.of_nat (length new) <= 128 ->
      bc_wf (mk_bufcache (bc_mark l' head (length new)) (bc_num b + Z.of_nat (length new)) (bc_head b)) /\
      exists new', refill alloc alloc' new' /\ cached (mk_bufcache (bc_mark l' head (length new)) (bc_num b + Z.of_nat (length new)) (bc_head b)) =
        cached b ++ map bc_marked new' /\ (num <= bc_num b -> new' = [])).
    { intros new l' Rf Hr Hn. apply refill_mark in Hr; [|lia].
      destruct (bc_append _ _ Hr) as [W1 C1]; [rewrite length_map; lia|].
      rewrite length_map in W1, C1. split; [exact W1|]. exists new. split; [exact Rf | split; [exact C1 | lia]]. }
    pose proof (A (128 - bc_num b) ltac:(lia)). pose proof (A (128 - head) ltac:(lia)).
    destruct (Z.leb_spec (head + (128 - bc_num b)) 128).
    - cbn [fst snd]. rewrite Nat2Z.id. apply Fin; [unfold refill; eauto | | lia]. apply refill_one; lia.
    - pose proof (A' (128 - bc_num b - (128 - head)) ltac:(lia)).
      destruct (Z.eqb_spec (Z.of_nat (length (alloc (128 - head)))) (128 - head)).
      + rewrite <- Nat2Z.inj_add, Nat2Z.id, <- length_app. apply Fin; [unfold refill; eauto | | rewrite length_app; lia].
        apply refill_two; lia.
      + rewrite Nat2Z.id. apply Fin; [unfold refill; eauto | | lia]. apply refill_one; lia. }
  destruct R as [WB RB]. pose proof WB as [L1 N1 H1]. unfold BUFCACHE_SIZE. rewrite MIN_spec.
  set (k := Z.min num _).
  assert (Hk : 0 <= k <= num /\ k <= bc_num bb /\ bc_head bb + k <= 128)
    by (subst k; destruct (Z.leb_spec (bc_head bb + bc_num bb) 128); lia).
  pose proof (length_cached bb WB).
  split_and!; auto; try lia. apply list_eq_Z.
  - rewrite length_slice, length_take by lia. lia.
  - rewrite length_slice by lia. intros i Hi. unfold slice.
    rewrite !lookup_take_lt, lookup_drop, cached_lookup by lia. unfold byte_at.
    rewrite Z.mod_small, <- Z2Nat.inj_add by lia.
    destruct (lookup_lt_is_Some_2 (bc_handles bb) (Z.to_nat (bc_head bb + i)) ltac:(lia)) as [x ->]. reflexivity.
Qed.
End Cache.

(** The buffer cache is a first-in first-out queue of handles that loses
    and duplicates none: [bufcache_prealloc] appends what the driver allocated
    (marked as transmit buffers) and exposes the oldest [k] handles as a
    contiguous array, [bufcache_alloc] removes the oldest ones -- its assertion
    holds for any number that is cached --, and [bufcache_free] appends a
    transmit buffer while there is room and returns any other to the driver. *)
Theorem bufcache_fifo b alloc alloc' :
  bc_wf b -> alloc_ok alloc -> alloc_ok alloc' ->
  (forall num, 0 <= num ->
     let '(b', k) := bufcache_prealloc alloc alloc' b num in
     bc_wf b' /\
     (exists new, refill alloc alloc' new /\ cached b' = cached b ++ map bc_marked new /\
                  (num <= bc_num b -> new = [])) /\
     0 <= k <= num /\ k <= bc_num b' /\
     slice (bc_handles b') (bc_head b') k = take (Z.to_nat k) (cached b')) /\
  (forall k, 0 <= k <= bc_num b ->
     exists b', bufcache_alloc b k = Ok b' /\ bc_wf b' /\ cached b' = drop (Z.to_nat k) (cached b) /\
       bc_num b' = bc_num b - k) /\
  (forall h, let '(b', f) := bufcache_free b h in
     bc_wf b' /\
     if (Z.land h NBH_TX_BIT =? NBH_TX_BIT) && (bc_num b <? BUFCACHE_SIZE)
     then cached b' = cached b ++ [h] /\ f = []
     else b' = b /\ f = [Z.land h (Z.lnot NBH_TX_BIT)]).
Proof.
  intros W A A'. split_and!; intros.
  - apply bufcache_prealloc_spec; auto.
  - apply bufcache_alloc_spec; auto.
  - apply bufcache_free_spec; auto.
Qed.

(** ** What a poll does with buffers *)

Definition dp_ok (d : dp) : Prop :=
  bc_wf (dp_cache d) /\ Z.of_nat (length (fp_tx (dp_fp d))) <= TXBUF_SIZE.

(** The transmit buffer has room, so that [tx_send] does not abort. *)
Definition has_room (w : fp) : Prop := Z.of_nat (length (fp_tx w)) < TXBUF_SIZE.

Section Polls.
Context `{Platform} (alloc alloc' : Z -> list Z).
Hypothesis A : alloc_ok alloc.
Hypothesis A' : alloc_ok alloc'.

(** The packets the poll added to the transmit buffer occupy the oldest cached
    buffers (possibly after a refill), one each and in order; all others are
    still cached. *)
Definition buffers_used (d d' : dp) : Prop :=
  exists new used pks, refill alloc alloc' new /\
    cached (dp_cache d) ++ map bc_marked new = used ++ cached (dp_cache d') /\
    fp_tx (dp_fp d') = fp_tx (dp_fp d) ++ pks /\ map tx_nbh pks = map tx_handle used.

(** What a poll that makes calls [call], the first in machine [w], does: it
    accounts for all buffers, or a call it makes although there is room in the
    transmit buffer has the outcome [Crash]. *)
Definition accounts (call : Z -> fp -> outcome (Z * fp) -> Prop) (w : fp) (d : dp) (o : outcome (dp * Z)) : Prop :=
  match o with
  | Ok (d', _) => dp_ok d' /\ buffers_used d d'
  | Crash => exists new hs h hs' w', refill alloc alloc' new /\
      hs `prefix_of` cached (dp_cache d) ++ map bc_marked new /\
      polled call hs w (h :: hs') w' /\ has_room w' /\ call h w' Crash
  | Spin => True
  end.

Lemma tx_room_range d : dp_ok d ->
  0 <= tx_room d <= BATCH_SIZE /\ tx_room d <= TXBUF_SIZE - Z.of_nat (length (fp_tx (dp_fp d))).
Proof. intros [_ L]. unfold tx_room. unfold TXBUF_SIZE, BATCH_SIZE in *. bsplit; lia. Qed.

(** Polls that ask for [num] buffers and get [max], in [b]. *)
Section Poll.
Context (call : Z -> fp -> outcome (Z * fp) -> Prop) (d : dp) (w : fp) (num max : Z) (b : bufcache).
Hypothesis U : forall h w ret w1, call h w (Ok (ret, w1)) -> used_if_0 h ret w w1.
Hypothesis D : dp_ok d.
Hypothesis Hw : fp_tx w = fp_tx (dp_fp d).
Hypothesis Hn : 0 <= num <= TXBUF_SIZE - Z.of_nat (length (fp_tx (dp_fp d))).
Hypothesis EP : bufcache_prealloc alloc alloc' (dp_cache d) num = (b, max).

Lemma prealloc_got :
  bc_wf b /\ 0 <= max <= num /\ max <= bc_num b /\ max <= Z.of_nat (length (bc_from b)) /\
  take (Z.to_nat max) (bc_from b) = take (Z.to_nat max) (cached b) /\
  exists new, refill alloc alloc' new /\ cached b = cached (dp_cache d) ++ map bc_marked new.
Proof.
  pose proof (bufcache_prealloc_spec _ alloc alloc' (proj1 D) A A' num (proj1 Hn)) as S.
  rewrite EP in S. destruct S as (W1 & (new & R & C1 & _) & Hmax & Hk & Sl). unfold slice in Sl. fold (bc_from b) in Sl.
  pose proof (length_cached b W1). pose proof (f_equal length Sl) as L. rewrite !length_take in L.
  split_and!; auto; try lia. eauto.
Qed.

Lemma run_room hs h w' :
  polled call (take (Z.to_nat max) (bc_from b)) w (h :: hs) w' -> has_room w'.
Proof.
  destruct prealloc_got as (_ & Hm & _ & Hl & _). intros P.
  apply polled_queued in P as (used & pks & E1 & E2 & E3); [|exact U]. unfold has_room.
  apply (f_equal length) in E1, E3. rewrite !length_map in E3. rewrite length_take, length_app in E1. cbn [length] in E1.
  rewrite E2, length_app, Hw. lia.
Qed.

Lemma poll_crash {X} (get : X -> fp * Z) :
  loop_run call get (bc_from b) max 0 w Crash -> accounts call w d Crash.
Proof.
  destruct prealloc_got as (_ & _ & _ & _ & Sl & new & R & C). intros (h & hs' & w' & P & Cr). change (Z.to_nat 0) with O in P.
  rewrite drop_0 in P. exists new, (take (Z.to_nat max) (bc_from b)), h, hs', w'.
  split_and!; auto; [|eapply run_room, P]. rewrite Sl, <- C. apply prefix_take.
Qed.

Lemma poll_done {X} (get : X -> fp * Z) a :
  loop_run call get (bc_from b) max 0 w (Ok a) ->
  exists b', bufcache_alloc b (snd (get a)) = Ok b' /\
    forall d', dp_fp d' = fst (get a) -> dp_cache d' = b' -> dp_ok d' /\ buffers_used d d'.
Proof.
  destruct prealloc_got as (W1 & Hm & Hb & Hl & Sl & new & R & C). intros [Hk P]. change (Z.to_nat 0) with O in P.
  rewrite drop_0 in P. apply polled_queued in P as (used & pks & E1 & E2 & E3); [|exact U].
  destruct (bufcache_alloc_spec b W1 (snd (get a))) as (b' & EA & W2 & C2 & _); [lia|].
  exists b'. split; [exact EA|]. intros d' Ew Eb.
  pose proof (length_cached b W1) as Lc.
  assert (Eu : used = take (Z.to_nat (snd (get a))) (cached b)).
  { pose proof (take_drop (Z.to_nat (snd (get a))) (take (Z.to_nat max) (bc_from b))) as T. rewrite E1 in T at 3.
    apply app_inv_tail in T. rewrite Sl, take_take in T. rewrite <- T. f_equal. lia. }
  pose proof (f_equal length E3) as L3. rewrite !length_map, Eu, length_take in L3. split.
  - split; [rewrite Eb; exact W2|]. rewrite Ew, E2, Hw, length_app. lia.
  - exists new, used, pks. rewrite Eb, C2, Ew, E2, Hw, <- C, Eu, take_drop, <- Eu. auto.
Qed.
End Poll.

(** *** Received packets *)

(** The buffers of the packets whose flag is [k]. *)
Definition flagged (k : bool) (l : list (rxpkt * bool)) : list Z :=
  omap (fun '(r, k') => if Bool.eqb k' k then Some (rp_bh r) else None) l.

Lemma fast_kernel_packet_tx w kts p len fg w' a x k :
  fast_kernel_packet w kts p len fg = Ok (w', a, x, k) -> fp_tx w' = fp_tx w.
Proof.
  unfold fast_kernel_packet. intros E. cbv zeta in E. run_if E; [injection E as <- _ _ _; reflexivity|].
  destruct (dma_pointer _ _) as [krx|]; [|discriminate]. run_if E; [injection E as <- _ _ _; reflexivity|].
  destruct (dma_write _ _ _) as [m|]; [|discriminate]. destruct fg as [fg|]; [|discriminate].
  destruct (fast_kernel_kick _) as [t kk]. injection E as <- _ _ _. reflexivity.
Qed.

Lemma rx_one_used d r fl ts d' kept : rx_one d r fl ts = Ok (d', kept) ->
  dp_cache d' = dp_cache d /\
  if kept then queued (rp_bh r) (dp_fp d) (dp_fp d') else fp_tx (dp_fp d') = fp_tx (dp_fp d).
Proof.
  unfold rx_one. intros E. apply obind_ok in E as ([[ret w] p] & E1 & E).
  assert (U : ret = 1 /\ queued (rp_bh r) (dp_fp d) w \/ (ret = 0 \/ ret = -1) /\ fp_tx w = fp_tx (dp_fp d)).
  { destruct fl; [exact (fast_flows_packet_used _ _ _ _ _ _ _ _ _ E1) | injection E1 as <- <- _; auto]. }
  destruct U as [[-> Q] | [[-> | ->] Q]]; cbn in E; [injection E as <- <-; auto..|].
  apply obind_ok in E as ([[[w1 kts] a] k] & E2 & E). injection E as <- <-.
  apply fast_kernel_packet_tx in E2. split; [reflexivity|]. cbn. congruence.
Qed.

Lemma rx_batch_used l ts : forall d d' kept, rx_batch d l ts = Ok (d', kept) ->
  length kept = length l /\ dp_cache d' = dp_cache d /\
  exists pks, fp_tx (dp_fp d') = fp_tx (dp_fp d) ++ pks /\ (length pks <= length l)%nat /\
    map tx_nbh pks = map tx_handle (flagged true (zip (map fst l) kept)).
Proof.
  induction l as [|[r fl] l IH]; intros d d' kept; cbn [rx_batch].
  { intros [= <- <-]. split_and!; auto. exists []. rewrite app_nil_r. auto. }
  intros E. apply obind_ok in E as ([d1 b] & E1 & E). apply obind_ok in E as ([d2 bs] & E2 & E). injection E as <- <-.
  apply rx_one_used in E1 as [C1 U]. apply IH in E2 as (L & C2 & pks & T & Lp & M). cbn [length map fst].
  split_and!; [congruence | congruence|]. destruct b.
  - destruct U as (p & Tp & Hp). exists (p :: pks). rewrite T, Tp, <- app_assoc. cbn. rewrite Hp, M. auto with lia.
  - exists pks. rewrite T, U. cbn. auto.
Qed.

(** A batch that fails does so at some packet. *)
Lemma rx_batch_crash l ts : forall d, rx_batch d l ts = Crash ->
  exists pre r fl d1 kept, pre ++ [(r, fl)] `prefix_of` l /\ rx_batch d pre ts = Ok (d1, kept) /\
    rx_one d1 r fl ts = Crash.
Proof.
  induction l as [|[r fl] l IH]; intros d; cbn [rx_batch]; [discriminate|].
  destruct (rx_one d r fl ts) as [[d1 b]| |] eqn:E1; cbn [obind]; [|intros _|discriminate].
  - destruct (rx_batch d1 l ts) as [[d2 bs]| |] eqn:E2; cbn [obind]; [discriminate|intros _|discriminate].
    destruct (IH _ E2) as (pre & r' & fl' & d3 & kept & Hp & Eb & Er). exists ((r, fl) :: pre), r', fl', d3, (b :: kept).
    cbn [app rx_batch]. rewrite E1. cbn [obind]. rewrite Eb. split_and!; auto. apply prefix_cons. exact Hp.
  - exists [], r, fl, d, []. split_and!; auto. exists l. reflexivity.
Qed.

Lemma rx_free_spec l : forall b b' f, bc_wf b -> rx_free b l = (b', f) ->
  bc_wf b' /\ exists back, cached b' = cached b ++ back /\
    map tx_handle back ++ f ≡ₚ map tx_handle (flagged false l).
Proof.
  induction l as [|[r [|]] l IH]; intros b b' f W; cbn [rx_free].
  - intros [= <- <-]. split; [exact W|]. exists []. rewrite app_nil_r. auto.
  - apply IH, W.
  - pose proof (bufcache_free_spec b W (rp_bh r)) as S. destruct (bufcache_free b (rp_bh r)) as [b1 f1].
    destruct S as [W1 S]. destruct (rx_free b1 l) as [b2 f2] eqn:E. intros [= <- <-].
    destruct (IH _ _ _ W1 E) as (W2 & back & C & P). split; [exact W2|].
    change (flagged false ((r, false) :: l)) with (rp_bh r :: flagged false l). cbn [map].
    destruct (_ && _).
    + destruct S as [C1 ->]. exists (rp_bh r :: back). rewrite C, C1, <- app_assoc. split; [reflexivity|].
      cbn. rewrite P. reflexivity.
    + destruct S as [-> ->]. exists back. split; [exact C|]. cbn. fold (tx_handle (rp_bh r)).
      rewrite <- Permutation_middle, P. reflexivity.
Qed.

(** The packets [poll_rx] adds to the transmit buffer are in the buffers of the
    received packets it keeps, all others went to the cache or were freed; or
    processing one of them fails although there is room. *)
Definition rx_accounts (rs : list rxpkt) (d : dp) (ts : Z) (o : outcome (dp * list bool * list Z * Z)) : Prop :=
  match o with
  | Ok (d', kept, freed, n) =>
      dp_ok d' /\ n = Z.of_nat (length rs) /\ length kept = length rs /\
      exists pks back,
        fp_tx (dp_fp d') = fp_tx (dp_fp d) ++ pks /\
        map tx_nbh pks = map tx_handle (flagged true (zip rs kept)) /\
        cached (dp_cache d') = cached (dp_cache d) ++ back /\
        map tx_handle back ++ freed ≡ₚ map tx_handle (flagged false (zip rs kept))
  | Crash => exists pre r fl d1 kept,
      pre ++ [(r, fl)] `prefix_of` zip rs (fast_flows_packet_fss (dp_fp d) (map rp_pkt rs)) /\
      rx_batch d pre ts = Ok (d1, kept) /\ has_room (dp_fp d1) /\ rx_one d1 r fl ts = Crash
  | Spin => True
  end.

Lemma poll_queues_accounts d ts : dp_ok d ->
  accounts (queue_call ts) (dp_fp d) d (poll_queues alloc alloc' d ts).
Proof.
  intros D. destruct (tx_room_range d D) as [R1 R2]. unfold poll_queues.
  destruct (bufcache_prealloc alloc alloc' (dp_cache d) (tx_room d)) as [b max] eqn:EP.
  assert (U : forall h w ret w1, queue_call ts h w (Ok (ret, w1)) -> used_if_0 h ret w w1)
    by (intros h w ret w1 [id E]; eapply fast_appctx_poll_used, E).
  destruct (prealloc_got d (tx_room d) max b D (conj (proj1 R1) R2) EP) as (_ & Hm & _ & Hl & _).
  pose proof (queues_loop_run (bc_from b) max ts Hl (Z.to_nat FLEXNIC_PL_APPCTX_NUM) (dp_fp d) (dp_next_ctx d) 0 0 ltac:(lia)) as P.
  destruct (queues_loop _ _ _ _ _ _ _ _) as [a| |]; cbn [obind]; [|eapply poll_crash; eauto; lia|exact I].
  eapply poll_done in P as (b' & EA & F); eauto; [|lia]. destruct a as [[[w nx] k] tot]. cbn [got4 snd] in EA.
  rewrite EA. cbn [obind accounts]. apply F; reflexivity.
Qed.

Lemma poll_kernel_accounts fuel d ts : dp_ok d ->
  accounts (kernel_call ts) (dp_fp d) d (poll_kernel fuel alloc alloc' d ts).
Proof.
  intros D. destruct (tx_room_range d D) as [R1 R2]. unfold poll_kernel.
  set (num := if 8 <? tx_room d then 8 else tx_room d).
  assert (Hn : 0 <= num <= TXBUF_SIZE - Z.of_nat (length (fp_tx (dp_fp d)))) by (subst num; bsplit; lia).
  destruct (bufcache_prealloc alloc alloc' (dp_cache d) num) as [b max] eqn:EP.
  assert (U : forall h w ret w1, kernel_call ts h w (Ok (ret, w1)) -> used_if_0 h ret w w1)
    by (intros h w ret w1 E; eapply fast_kernel_poll_used, E).
  destruct (prealloc_got d num max b D Hn EP) as (_ & Hm & _ & Hl & _).
  pose proof (kernel_loop_run (bc_from b) max ts Hl fuel (dp_fp d) 0 0 ltac:(lia)) as P.
  destruct (kernel_loop _ _ _ _ _ _ _) as [a| |]; cbn [obind]; [|eapply poll_crash; eauto|exact I].
  eapply poll_done in P as (b' & EA & F); eauto. destruct a as [[w k] tot]. cbn [got3 fst snd] in EA.
  rewrite EA. cbn [obind accounts]. apply F; reflexivity.
Qed.

Lemma poll_qman_accounts qts t l d ts : dp_ok d ->
  qman_poll qfuel (fp_qman (dp_fp d)) qts
    (Z.to_nat (snd (bufcache_prealloc alloc alloc' (dp_cache d) (tx_room d)))) = Ok (t, l) ->
  accounts (qman_call l ts) (dp_fp d <| fp_qman := t |>) d (poll_qman alloc alloc' d qts ts).
Proof.
  intros D EQ. destruct (tx_room_range d D) as [R1 R2]. unfold poll_qman.
  destruct (bufcache_prealloc alloc alloc' (dp_cache d) (tx_room d)) as [b max] eqn:EP. cbn [snd] in EQ.
  rewrite EQ. cbn [obind].
  assert (U : forall h w ret w1, qman_call l ts h w (Ok (ret, w1)) -> used_if_0 h ret w w1)
    by (intros h w ret w1 (f & _ & E); eapply qman_one_used, E).
  destruct (prealloc_got d (tx_room d) max b D (conj (proj1 R1) R2) EP) as (Wb & Hm & _ & Hl & _ & new & R & C).
  destruct l as [|f l'] eqn:El.
  { split; [split; [exact Wb | apply D]|]. exists new, [], []. cbn. rewrite app_nil_r. auto. }
  rewrite <- El in *. cbv zeta. pose proof (qman_poll_length _ _ _ _ _ _ EQ) as Lq.
  pose proof (qman_loop_run (bc_from b) max ts Hl l l (dp_fp d <| fp_qman := t |>) 0 ltac:(apply incl_refl) ltac:(lia) ltac:(lia)) as P.
  change (dp_fp (d <| dp_fp := dp_fp d <| fp_qman := t |> |> <| dp_cache := b |>)) with (dp_fp d <| fp_qman := t |>).
  destruct (qman_loop _ _ _ _ _) as [a| |]; cbn [obind]; [|eapply poll_crash; eauto; lia|exact I].
  eapply poll_done in P as (b' & EA & F); eauto; [|lia]. destruct a as [w k]. cbn [id snd] in EA.
  rewrite EA. cbn [obind accounts]. apply F; reflexivity.
Qed.

Lemma poll_rx_accounts recv d ts :
  dp_ok d -> (forall n, 0 <= n -> Z.of_nat (length (recv n)) <= n) ->
  rx_accounts (recv (tx_room d)) d ts (poll_rx recv d ts).
Proof.
  intros D R. destruct (tx_room_range d D) as [R1 R2]. specialize (R _ (proj1 R1)). unfold poll_rx.
  set (rs := recv (tx_room d)) in *. set (l := zip rs (fast_flows_packet_fss (dp_fp d) (map rp_pkt rs))).
  assert (L : length (fast_flows_packet_fss (dp_fp d) (map rp_pkt rs)) = length rs)
    by (unfold fast_flows_packet_fss; rewrite !length_map; reflexivity).
  assert (Ll : length l = length rs) by (unfold l; rewrite length_zip_with; lia).
  assert (Hl : map fst l = rs) by (apply fst_zip; lia).
  assert (G : rx_accounts rs d ts
    (let! (d, kept) := rx_batch d l ts in
     let '(b, freed) := rx_free (dp_cache d) (zip rs kept) in
     Ok (d <| dp_cache := b |>, kept, freed, Z.of_nat (length rs)))).
  { destruct (rx_batch d l ts) as [[d1 kept]| |] eqn:E; cbn [obind]; [| |exact I].
    - apply rx_batch_used in E as (Lk & C & pks & T & Lp & M). rewrite Hl in M.
      destruct (rx_free (dp_cache d1) (zip rs kept)) as [b freed] eqn:EF.
      apply rx_free_spec in EF as (W & back & Cb & P); [|rewrite C; apply D].
      split_and!; [split; [exact W|]| reflexivity | congruence|].
      + cbn. rewrite T, length_app. lia.
      + exists pks, back. rewrite C in Cb. auto.
    - apply rx_batch_crash in E as (pre & r & fl & d1 & kept & Hp & Eb & Er).
      exists pre, r, fl, d1, kept. split_and!; auto.
      apply rx_batch_used in Eb as (_ & _ & pks & T & Lp & _). apply prefix_length in Hp.
      rewrite length_app in Hp. cbn [length] in Hp. unfold has_room. rewrite T, length_app. lia. }
  destruct rs; [|exact G]. split_and!; auto. exists [], []. rewrite !app_nil_r. auto.
Qed.

End Polls.
