(* ===== verification/NicIf.v ===== *)
(** The kernel's side of the fast path's shared memory: kernel/nicif.c.

    Flow registration (with the flow lookup table's slot allocator), queue
    manager queue allocation, per-flow statistics and rates, and the admin
    queues to and from the fast path cores. *)
From stdpp Require Import base numbers list gmap.
From Stdlib Require Import ZArith Lia.
From S2P Require Import Prelude Packet FlowState TcpCommon Qman LinkedList Dma Circ FastPath FastRx Stream TxPath RxPath Handlers Queues.

Definition NICIF_CONN_OBJCONN : Z := 1.
Definition NICIF_CONN_OBJNOHASH : Z := 2.
Definition NICIF_CONN_ECN : Z := 4.
Definition FLEXNIC_PL_QMANTE_TYPEACTX : Z := 0.
Definition FLEXNIC_PL_QMANTE_TYPEFLOW : Z := 1073741824.

(** [intmem] and the static variables of nicif.c; queues are identified by the
    offset of their first entry in packet memory. *)
Record nic := mk_nic
  { nc_flowst : gmap Z flowst; nc_flowht : gmap Z flowhte; nc_qmant : gmap Z Z;
    nc_appctx : gmap (Z * Z) appctx;          (* core, doorbell id *)
    nc_kctx : gmap Z appctx; nc_appst : gmap Z appst; nc_steering : gmap Z Z;
    nc_mem : mem; nc_kicks : list Z;
    nc_fn_cores : Z; nc_flow_id : Z;
    nc_qman_queues : gmap Z (list Z); nc_qman_ctx_core : Z;
    nc_rxq_len : Z; nc_txq_len : Z; nc_rxq_next : Z;
    nc_rxq_base : gmap Z Z; nc_txq_base : gmap Z Z;
    nc_rxq_bufs : gmap (Z * Z) Z; nc_txq_bufs : gmap (Z * Z) Z;   (* core, entry *)
    nc_rxq_tail : gmap Z Z; nc_txq_tail : gmap Z Z }.
#[export] Instance eta_nic : Eta nic := fun s => mk_nic
  (nc_flowst s) (nc_flowht s) (nc_qmant s) (nc_appctx s) (nc_kctx s) (nc_appst s) (nc_steering s)
  (nc_mem s) (nc_kicks s) (nc_fn_cores s) (nc_flow_id s) (nc_qman_queues s) (nc_qman_ctx_core s)
  (nc_rxq_len s) (nc_txq_len s) (nc_rxq_next s) (nc_rxq_base s) (nc_txq_base s)
  (nc_rxq_bufs s) (nc_txq_bufs s) (nc_rxq_tail s) (nc_txq_tail s).

(** ** The flow lookup table *)

Definition hte_valid (e : flowhte) : bool :=
  negb (Z.land (hte_flow_id e) FLEXNIC_PL_FLOWHTE_VALID =? 0).
(** The displacement stored in an entry. *)
Definition hte_dist (e : flowhte) : Z :=
  Z.land (Z.shiftr (hte_flow_id e) FLEXNIC_PL_FLOWHTE_POSSHIFT) (FLEXNIC_PL_FLOWHT_NBSZ - 1).
Definition hte_fid (e : flowhte) : Z :=
  Z.land (hte_flow_id e) (Z.ones FLEXNIC_PL_FLOWHTE_POSSHIFT).
Definition hte_make (d fid hash : Z) : flowhte :=
  mk_flowhte (Z.lor FLEXNIC_PL_FLOWHTE_VALID
                (Z.lor (Z.shiftl d FLEXNIC_PL_FLOWHTE_POSSHIFT) fid)) hash.
Definition slot (i : Z) : Z := i mod FLEXNIC_PL_FLOWHT_ENTRIES.

(** The first free slot of the [n] slots from [i] on. *)
Fixpoint slot_scan (ht : gmap Z flowhte) (i : Z) (n : nat) : option Z :=
  match n with
  | O => None
  | S n' => if hte_valid (ht !!! i) then slot_scan ht (slot (i + 1)) n' else Some i
  end.

(** Among the [n] slots from [i] up to the free slot [k], the first element
    that may move to [k] according to its stored displacement. *)
Fixpoint slot_victim (ht : gmap Z flowhte) (i k : Z) (n : nat) : outcome (option Z) :=
  match n with
  | O => Ok None
  | S n' =>
    let! _ := assert_ (hte_valid (ht !!! i)) in
    let d := FLEXNIC_PL_FLOWHT_NBSZ - 1 - hte_dist (ht !!! i) in
    if u32 (k - i) mod FLEXNIC_PL_FLOWHT_ENTRIES <=? d then Ok (Some i)
    else slot_victim ht (slot (i + 1)) k n'
  end.

(** The free slot [i] is outside the neighbourhood [j .. l - 1] (the condition
    of the [while] loop). *)
Definition slot_outside (j l i : Z) : bool :=
  ((l <? j) || ((i <? j) || (l <=? i))) && ((j <? l) || ((l <=? i) && (i <? j))).

(** Move the element in slot [i] to the free slot [k]. *)
Definition slot_move (ht : gmap Z flowhte) (i k : Z) : gmap Z flowhte :=
  let e := ht !!! i in
  let ht := <[k := hte_make (hte_dist e) (hte_fid e) (hte_flow_hash e)]> ht in
  <[i := mk_flowhte 0 (hte_flow_hash (ht !!! i))]> ht.

(** Move the free slot back until it is inside the neighbourhood; [None] when
    no element can be moved.  The table changes in both cases. *)
Fixpoint slot_pull (fuel : nat) (ht : gmap Z flowhte) (j l i : Z)
    : outcome (gmap Z flowhte * option Z) :=
  if slot_outside j l i then
    match fuel with
    | O => Spin
    | S fuel' =>
      let k := i in
      let! v := slot_victim ht (slot (u32 (k - FLEXNIC_PL_FLOWHT_NBSZ))) k
                  (Z.to_nat FLEXNIC_PL_FLOWHT_NBSZ) in
      match v with
      | None => Ok (ht, None)
      | Some i =>
        let! _ := assert_ (negb (hte_valid (ht !!! k))) in
        slot_pull fuel' (slot_move ht i k) j l i
      end
    end
  else Ok (ht, Some i).

Definition pull_fuel : nat := 20.

(** [flow_slot_alloc]: the table, and the slot with its displacement. *)
Definition flow_slot_alloc (ht : gmap Z flowhte) (h : Z)
    : outcome (gmap Z flowhte * option (Z * Z)) :=
  let j := slot h in
  let l := slot (j + FLEXNIC_PL_FLOWHT_NBSZ) in
  match slot_scan ht j (Z.to_nat FLEXNIC_PL_FLOWHT_NBSZ) with
  | Some i => Ok (ht, Some (i, u32 (i - j) mod FLEXNIC_PL_FLOWHT_ENTRIES))
  | None =>
    match slot_scan ht l (Z.to_nat (4 * FLEXNIC_PL_FLOWHT_NBSZ)) with
    | None => Ok (ht, None)
    | Some i =>
      let! (ht, r) := slot_pull pull_fuel ht j l i in
      match r with
      | None => Ok (ht, None)
      | Some i => Ok (ht, Some (i, u32 (i - j) mod FLEXNIC_PL_FLOWHT_ENTRIES))
      end
    end
  end.

(** ** Queue manager queues *)

(** The loop of [nicif_init] that distributes queue ids over the cores:
    [i] counts down to 1. *)
Fixpoint qman_queues_init (fn_cores : Z) (i : nat) (q : gmap Z (list Z)) : gmap Z (list Z) :=
  match i with
  | O => q
  | S i' =>
    let c := Z.of_nat i mod fn_cores in
    qman_queues_init fn_cores i' (<[c := Z.of_nat i :: (q !!! c)]> q)
  end.

Definition qman_alloc_flow (s : nic) (core : Z) : outcome (nic * option Z) :=
  let! _ := assert_ (core <? nc_fn_cores s) in
  match nc_qman_queues s !!! core with
  | [] => Ok (s, None)
  | q :: l => Ok (s <| nc_qman_queues := <[core := l]> (nc_qman_queues s) |>, Some q)
  end.

Fixpoint qman_alloc_ctx (n : nat) (s : nic) : nic * option Z :=
  match n with
  | O => (s, None)
  | S n' =>
    let c := nc_qman_ctx_core s in
    let s := s <| nc_qman_ctx_core := (c + 1) mod nc_fn_cores s |> in
    match nc_qman_queues s !!! c with
    | q :: l => (s <| nc_qman_queues := <[c := l]> (nc_qman_queues s) |>, Some q)
    | [] => qman_alloc_ctx n' s
    end
  end.

(** ** Registering contexts and flows *)

(** The writes of [nicif_appctx_add] to one core's registers. *)
Definition appctx_bases (qid appid rxq txq evfd : Z) (a : appctx) : appctx :=
  mk_appctx rxq txq (ac_rx_len a) (ac_tx_len a) qid appid evfd
    (ac_rx_head a) (ac_tx_head a) (ac_last_ts a).
Definition appctx_lens (rxq_len txq_len : Z) (a : appctx) : appctx :=
  mk_appctx (ac_rx_base a) (ac_tx_base a) rxq_len txq_len (ac_qman_qid a) (ac_appst_id a)
    (ac_evfd a) (ac_rx_head a) (ac_tx_head a) (ac_last_ts a).

(** For every core [i] below [n]. *)
Fixpoint for_cores (n : nat) (f : Z -> appctx -> appctx) (db : Z) (m : gmap (Z * Z) appctx)
    : gmap (Z * Z) appctx :=
  match n with
  | O => m
  | S n' =>
    let m := for_cores n' f db m in
    let i := Z.of_nat n' in <[(i, db) := f i (m !!! (i, db))]> m
  end.

Definition nicif_appctx_add (s : nic) (appid db : Z) (rxq_base txq_base : list Z)
    (rxq_len txq_len evfd : Z) : nic * Z :=
  if FLEXNIC_PL_APPST_NUM <=? appid then (s, -1)
  else
    let ast := nc_appst s !!! appid in
    if FLEXNIC_PL_APPST_CTX_NUM <=? as_ctx_num ast + 1 then (s, -1)
    else
      match qman_alloc_ctx (Z.to_nat (nc_fn_cores s)) s with
      | (s, None) => (s, -1)
      | (s, Some qid) =>
        let n := Z.to_nat (nc_fn_cores s) in
        let m := for_cores n (fun i => appctx_bases qid appid (byte_at rxq_base i) (byte_at txq_base i) evfd)
                   db (nc_appctx s) in
        let m := for_cores n (fun _ => appctx_lens rxq_len txq_len) db m in
        let ids := take (Z.to_nat (as_ctx_num ast)) (as_ctx_ids ast) ++ [db] ++
                   drop (S (Z.to_nat (as_ctx_num ast))) (as_ctx_ids ast) in
        (s <| nc_qmant := <[qid := Z.lor db FLEXNIC_PL_QMANTE_TYPEACTX]> (nc_qmant s) |>
           <| nc_appctx := m |>
           <| nc_appst := <[appid := mk_appst (as_ctx_num ast + 1) ids]> (nc_appst s) |>, 0)
      end.

(** What a connection is registered with. *)
Record flow_params := mk_flow_params
  { pm_db : Z; pm_mac_remote : Z; pm_ip_local : Z; pm_port_local : Z; pm_ip_remote : Z;
    pm_port_remote : Z; pm_rx_base : Z; pm_rx_len : Z; pm_tx_base : Z; pm_tx_len : Z;
    pm_remote_seq : Z; pm_local_seq : Z; pm_opaque : Z; pm_flags : Z; pm_rate : Z;
    pm_fn_core : Z; pm_flow_group : Z }.

Definition flag_set (flags f : Z) : bool := Z.land flags f =? f.

(** [rx_base] with the flow's flags in its low bits. *)
Definition flow_rx_base_sp (q : flow_params) : Z :=
  let b := pm_rx_base q in
  let b :=
    if flag_set (pm_flags q) NICIF_CONN_OBJCONN then
      let b := Z.lor b FLEXNIC_PL_FLOWST_OBJCONN in
      if flag_set (pm_flags q) NICIF_CONN_OBJNOHASH then Z.lor b FLEXNIC_PL_FLOWST_OBJNOHASH else b
    else b in
  if flag_set (pm_flags q) NICIF_CONN_ECN then Z.lor b FLEXNIC_PL_FLOWST_ECN else b.

(** The members [nicif_connection_add] writes; the others keep their value. *)
Definition flow_init (fs : flowst) (q : flow_params) (qid : Z) : flowst :=
  fs <| fs_opaque := pm_opaque q |> <| fs_rx_base_sp := flow_rx_base_sp q |>
     <| fs_tx_base := pm_tx_base q |> <| fs_rx_len := pm_rx_len q |> <| fs_tx_len := pm_tx_len q |>
     <| fs_qman_qid := qid |> <| fs_remote_mac := le_bytes 6 (pm_mac_remote q) |>
     <| fs_db_id := u16 (pm_db q) |>
     <| fs_local_ip := t_beui32 (pm_ip_local q) |> <| fs_remote_ip := t_beui32 (pm_ip_remote q) |>
     <| fs_local_port := t_beui16 (pm_port_local q) |> <| fs_remote_port := t_beui16 (pm_port_remote q) |>
     <| fs_flow_group := pm_flow_group q |> <| fs_lock := 0 |>
     <| fs_rx_avail := pm_rx_len q |> <| fs_rx_next_pos := 0 |> <| fs_rx_next_seq := pm_remote_seq q |>
     <| fs_rx_remote_avail := pm_rx_len q |>
     <| fs_tx_sent := 0 |> <| fs_tx_next_pos := 0 |> <| fs_tx_next_seq := pm_local_seq q |>
     <| fs_tx_head := 0 |> <| fs_tx_objrem := 0 |> <| fs_tx_next_ts := 0 |>
     <| fs_tx_rate := pm_rate q |> <| fs_rtt_est := 0 |>.

Section Nic.
Context `{Platform}.

(** [nicif_connection_add]: the flow id, or [None] for -1. *)
Definition nicif_connection_add (s : nic) (q : flow_params) : outcome (nic * option Z) :=
  if FLEXNIC_PL_FLOWST_NUM <=? nc_flow_id s then Ok (s, None)
  else
    let hash := flow_hash (t_beui32 (pm_ip_local q)) (t_beui32 (pm_ip_remote q))
                  (t_beui16 (pm_port_local q)) (t_beui16 (pm_port_remote q)) in
    let! (ht, r) := flow_slot_alloc (nc_flowht s) hash in
    let s := s <| nc_flowht := ht |> in
    match r with
    | None => Ok (s, None)
    | Some (i, d) =>
      let! _ := assert_ (i <? FLEXNIC_PL_FLOWHT_ENTRIES) in
      let! _ := assert_ (d <? FLEXNIC_PL_FLOWHT_NBSZ) in
      let! (s, qq) := qman_alloc_flow s (pm_fn_core q) in
      match qq with
      | None => Ok (s, None)
      | Some qid =>
        let f_id := nc_flow_id s in
        let fs := flow_init (nc_flowst s !!! f_id) q qid in
        Ok (s <| nc_flow_id := f_id + 1 |>
              <| nc_flowst := <[f_id := fs]> (nc_flowst s) |>
              <| nc_qmant := <[qid := Z.lor f_id FLEXNIC_PL_QMANTE_TYPEFLOW]> (nc_qmant s) |>
              <| nc_flowht := <[i := hte_make d f_id hash]> (nc_flowht s) |>, Some f_id)
      end
    end.
End Nic.

(** ** Per-flow control *)

(** [struct nicif_connection_stats] *)
Record cc_stats := mk_cc_stats
  { st_drops : Z; st_acks : Z; st_ackb : Z; st_ecn : Z; st_txp : bool; st_rtt : Z }.

(** [nicif_connection_stats]: reads the counters and clears them. *)
Definition nicif_connection_stats (s : nic) (f_id : Z) : option (nic * cc_stats) :=
  if FLEXNIC_PL_FLOWST_NUM <=? f_id then None
  else
    let fs := nc_flowst s !!! f_id in
    let st := mk_cc_stats (fs_cnt_tx_drops fs) (fs_cnt_rx_acks fs) (fs_cnt_rx_ack_bytes fs)
                (fs_cnt_rx_ecn fs) (negb (fs_tx_sent fs =? 0)) (fs_rtt_est fs) in
    let fs := fs <| fs_cnt_tx_drops := 0 |> <| fs_cnt_rx_acks := 0 |>
                 <| fs_cnt_rx_ack_bytes := 0 |> <| fs_cnt_rx_ecn := 0 |> in
    Some (s <| nc_flowst := <[f_id := fs]> (nc_flowst s) |>, st).

Definition nicif_connection_setrate (s : nic) (f_id rate : Z) : nic * Z :=
  if FLEXNIC_PL_FLOWST_NUM <=? f_id then (s, -1)
  else (s <| nc_flowst := <[f_id := (nc_flowst s !!! f_id) <| fs_tx_rate := rate |>]> (nc_flowst s) |>, 0).

Definition nicif_connection_move (s : nic) (dst_db f_id : Z) : nic :=
  s <| nc_flowst := <[f_id := (nc_flowst s !!! f_id) <| fs_db_id := u16 dst_db |>]> (nc_flowst s) |>.

(** ** Admin queues *)

(** [ktx_try_alloc]: the entry's offset, its buffer, and the new tail; the wrap
    around is at [rxq_len]. *)
Definition ktx_try_alloc (s : nic) (core : Z) : option (Z * Z * Z) :=
  let tail := nc_txq_tail s !!! core in
  let ktx := nc_txq_base s !!! core + 64 * tail in
  if negb (mem_byte (nc_mem s) (ktx + 63) =? 0) then None
  else
    let tail' := u32 (tail + 1) in
    let tail' := if tail' =? nc_rxq_len s then 0 else tail' in
    Some (ktx, nc_txq_bufs s !!! (core, tail), tail').

(** What a received packet is handed to. *)
Inductive rx_dispatch := to_arp | to_tcp | to_none.
Definition ETH_TYPE_ARP : Z := 2054.
Definition SZ_PKT_ARP : Z := 42.

(** [process_packet] *)
Definition process_packet (buf : list Z) (len : Z) : rx_dispatch :=
  let p := bytes_pkt buf in
  if f_beui16 (eth_type (p_eth p)) =? ETH_TYPE_ARP then
    if len <? SZ_PKT_ARP then to_none else to_arp
  else if f_beui16 (eth_type (p_eth p)) =? ETH_TYPE_IP then
    if len <? SZ_ETH + SZ_IP then to_none
    else if ip_proto (p_ip p) =? IP_PROTO_TCP then
      if len <? SZ_ETH + SZ_IP + SZ_TCP then to_none else to_tcp
    else to_none
  else to_none.

(** [rxq_poll]: the entry handled -- the buffer's address, length, core, flow
    group and where the packet goes -- if there was one. *)
Definition rxq_poll (s : nic) : nic * option (Z * Z * Z * Z * rx_dispatch) :=
  let core := nc_rxq_next s in
  let tail := nc_rxq_tail s !!! core in
  let krx := nc_rxq_base s !!! core + SZ_KRX * tail in
  let buf := nc_rxq_bufs s !!! (core, tail) in
  let s := s <| nc_rxq_next := (core + 1) mod nc_fn_cores s |> in
  let m := nc_mem s in
  let type := mem_byte m (krx + 71) in
  if type =? 0 then (s, None)
  else
    let tail' := u32 (tail + 1) in
    let tail' := if tail' =? nc_rxq_len s then 0 else tail' in
    let len := mem_le m (krx + 8) 2 in
    let r := if type =? FLEXTCP_PL_KRX_PACKET
             then (buf, len, mem_le m (krx + 10) 2, mem_le m (krx + 12) 2,
                   process_packet (mem_read m buf (Z.to_nat len)) len)
             else (buf, len, 0, 0, to_none) in
    (s <| nc_mem := mem_write m (krx + 71) [0] |>
       <| nc_rxq_tail := <[core := tail']> (nc_rxq_tail s) |>, Some r).

Section AdminQueues.
Context `{Platform}.

Definition kick_core (s : nic) (core : Z) : nic :=
  let '(a, k) := util_flexnic_kick (nc_kctx s !!! core) in
  s <| nc_kctx := <[core := a]> (nc_kctx s) |> <| nc_kicks := nc_kicks s ++ k |>.

(** [nicif_connection_retransmit] *)
Definition nicif_connection_retransmit (s : nic) (f_id flow_group : Z) : nic * Z :=
  let core := nc_steering s !!! flow_group in
  match ktx_try_alloc s core with
  | None => (s, -1)
  | Some (ktx, _, tail) =>
    let s := s <| nc_txq_tail := <[core := tail]> (nc_txq_tail s) |> in
    let m := mem_write (nc_mem s) ktx (le_bytes 4 f_id) in
    let m := mem_write m (ktx + 63) [FLEXTCP_PL_KTX_CONNRETRAN] in
    (kick_core (s <| nc_mem := m |>) core, 0)
  end.

(** [nicif_tx_alloc]: the buffer's offset and the token for
    [nicif_tx_send]. *)
Definition nicif_tx_alloc (s : nic) (len : Z) : nic * option (Z * Z) :=
  match ktx_try_alloc s 0 with
  | None => (s, None)
  | Some (ktx, buf, opaque) =>
    let m := mem_write (nc_mem s) ktx (le_bytes 8 buf) in
    let m := mem_write m (ktx + 8) (le_bytes 2 len) in
    (s <| nc_mem := m |>, Some (buf, opaque))
  end.

(** [nicif_tx_send] *)
Definition nicif_tx_send (s : nic) (opaque : Z) : nic :=
  let tail := if opaque =? 0 then u32 (nc_txq_len s - 1) else opaque - 1 in
  let ktx := nc_txq_base s !!! 0 + 64 * tail in
  let s := s <| nc_mem := mem_write (nc_mem s) (ktx + 63) [FLEXTCP_PL_KTX_PACKET] |>
             <| nc_txq_tail := <[0 := opaque]> (nc_txq_tail s) |> in
  kick_core s 0.
End AdminQueues.
