(* ===== verification/FlowTable.v ===== *)
(** Theorems on the flow lookup table shared by kernel/nicif.c (which fills it)
    and flexnic/fast_flows.c (which searches it), and on the registration of
    flows. *)
From stdpp Require Import base numbers list gmap.
From Stdlib Require Import ZArith Lia.
From S2P Require Import Prelude Packet FlowState TcpCommon Qman LinkedList Dma Circ FastPath FastRx Stream TxPath RxPath Handlers Queues NicIf.

(** ** Entries *)

Lemma hte_make_value d fid hash : 0 <= d < 4 -> 0 <= fid < 536870912 ->
  hte_flow_id (hte_make d fid hash) = 2147483648 + (d * 536870912 + fid).
Proof.
  intros Hd Hf. unfold hte_make, FLEXNIC_PL_FLOWHTE_VALID, FLEXNIC_PL_FLOWHTE_POSSHIFT. cbn [hte_flow_id].
  rewrite (lor_shiftl_add d fid 29) by (change (2 ^ 29) with 536870912; lia).
  change 2147483648 with (Z.shiftl 1 31) at 1. change (2 ^ 29) with 536870912.
  rewrite lor_shiftl_add by (change (2 ^ 31) with 2147483648; lia). reflexivity.
Qed.

Lemma hte_make_valid d fid hash : 0 <= d < 4 -> 0 <= fid < 536870912 ->
  hte_valid (hte_make d fid hash) = true.
Proof.
  intros Hd Hf. unfold hte_valid. rewrite hte_make_value by auto. apply negb_true_iff, Z.eqb_neq. intros E.
  assert (T : Z.testbit (Z.land (2147483648 + (d * 536870912 + fid)) FLEXNIC_PL_FLOWHTE_VALID) 31 = false)
    by (rewrite E; apply Z.bits_0).
  rewrite Z.land_spec in T. change (Z.testbit FLEXNIC_PL_FLOWHTE_VALID 31) with true in T.
  rewrite andb_true_r, Z.testbit_odd, Z.shiftr_div_pow2 in T by lia. change (2 ^ 31) with 2147483648 in T.
  rewrite <- (Z.div_unique_pos _ 2147483648 1 (d * 536870912 + fid)) in T by lia. discriminate.
Qed.

Lemma hte_make_fid d fid hash : 0 <= d < 4 -> 0 <= fid < 536870912 ->
  hte_fid (hte_make d fid hash) = fid.
Proof.
  intros Hd Hf. unfold hte_fid. rewrite hte_make_value by auto.
  unfold FLEXNIC_PL_FLOWHTE_POSSHIFT. rewrite Z.land_ones by lia. change (2 ^ 29) with 536870912.
  symmetry. apply (Z.mod_unique_pos _ _ (4 + d)); lia.
Qed.

Lemma hte_fid_range e : 0 <= hte_fid e < 536870912.
Proof.
  unfold hte_fid, FLEXNIC_PL_FLOWHTE_POSSHIFT. rewrite Z.land_ones by lia. change (2 ^ 29) with 536870912.
  apply Z.mod_pos_bound. lia.
Qed.

Lemma hte_dist_range e : 0 <= hte_dist e < 4.
Proof.
  unfold hte_dist. change (FLEXNIC_PL_FLOWHT_NBSZ - 1) with (Z.ones 2). rewrite Z.land_ones by lia.
  change (2 ^ 2) with 4. apply Z.mod_pos_bound. lia.
Qed.

Lemma hte_zero_invalid h : hte_valid (mk_flowhte 0 h) = false.
Proof. reflexivity. Qed.

(** ** Slots relative to a home slot *)

Lemma slot_range i : 0 <= slot i < 262144.
Proof. unfold slot, FLEXNIC_PL_FLOWHT_ENTRIES. apply Z.mod_pos_bound. lia. Qed.

Lemma slot_slot_add a b : slot (slot a + b) = slot (a + b).
Proof. unfold slot. apply Zplus_mod_idemp_l. Qed.

Lemma slot_u32 x : slot (u32 x) = slot x.
Proof.
  unfold slot, u32, FLEXNIC_PL_FLOWHT_ENTRIES. change 4294967296 with (262144 * 16384).
  rewrite Z.rem_mul_r by lia. rewrite Z.mul_comm, Z.mod_add, Z.mod_mod by lia. reflexivity.
Qed.

Section Alloc.
Context (h : Z).
Let j := slot h.

Lemma slot_inj o o' : 0 <= o < 262144 -> 0 <= o' < 262144 -> slot (j + o) = slot (j + o') -> o = o'.
Proof. unfold slot, FLEXNIC_PL_FLOWHT_ENTRIES. intros. mlia. Qed.

Lemma slot_sub o o' : 0 <= o - o' < 262144 ->
  u32 (slot (j + o) - slot (j + o')) mod FLEXNIC_PL_FLOWHT_ENTRIES = o - o'.
Proof.
  intros. fold (slot (u32 (slot (j + o) - slot (j + o')))). rewrite slot_u32.
  unfold slot. rewrite Zminus_mod_idemp_l, Zminus_mod_idemp_r. unfold FLEXNIC_PL_FLOWHT_ENTRIES.
  replace (j + o - (j + o')) with (o - o') by lia. apply Z.mod_small. lia.
Qed.

Lemma slot_outside_iff o : 0 <= o < 1000 ->
  slot_outside j (slot (j + 4)) (slot (j + o)) = (4 <=? o).
Proof.
  intros Ho. pose proof (slot_range h) as Hj. fold j in Hj. unfold slot, FLEXNIC_PL_FLOWHT_ENTRIES, slot_outside.
  assert (E4 : (j + 4) mod 262144 = if j + 4 <? 262144 then j + 4 else j + 4 - 262144)
    by (destruct (Z.ltb_spec (j + 4) 262144); [apply Z.mod_small; lia | symmetry; apply (Z.mod_unique_pos _ _ 1); lia]).
  assert (Eo : (j + o) mod 262144 = if j + o <? 262144 then j + o else j + o - 262144)
    by (destruct (Z.ltb_spec (j + o) 262144); [apply Z.mod_small; lia | symmetry; apply (Z.mod_unique_pos _ _ 1); lia]).
  rewrite E4, Eo. clearbody j. clear E4 Eo. bsplit; try reflexivity; exfalso; lia.
Qed.

Definition valid_at (ht : gmap Z flowhte) (o : Z) : bool := hte_valid (ht !!! slot (j + o)).

Lemma slot_scan_spec ht a n : 0 <= a ->
  match slot_scan ht (slot (j + a)) n with
  | Some i => exists o, a <= o < a + Z.of_nat n /\ i = slot (j + o) /\ valid_at ht o = false /\
                forall o', a <= o' < o -> valid_at ht o' = true
  | None => forall o', a <= o' < a + Z.of_nat n -> valid_at ht o' = true
  end.
Proof.
  revert a. induction n as [|n IH]; intros a Ha; cbn [slot_scan]; [intros; lia|].
  destruct (hte_valid (ht !!! slot (j + a))) eqn:E.
  - rewrite slot_slot_add. replace (j + a + 1) with (j + (a + 1)) by lia.
    specialize (IH (a + 1) ltac:(lia)). destruct (slot_scan _ _ _) as [i|].
    + destruct IH as (o & Ho & -> & Hv & Hall). exists o. split_and!; auto; try lia.
      intros o' Ho'. destruct (Z.eq_dec o' a) as [->|]; [exact E | apply Hall; lia].
    + intros o' Ho'. destruct (Z.eq_dec o' a) as [->|]; [exact E | apply IH; lia].
  - exists a. split_and!; auto; intros; lia.
Qed.

(** The search for an element that may move to the free slot at distance
    [o]. *)
Lemma slot_victim_spec ht o a n :
  a + Z.of_nat n = o -> 0 <= a -> o < 1000 -> (forall o', a <= o' < o -> valid_at ht o' = true) ->
  exists v, slot_victim ht (slot (j + a)) (slot (j + o)) n = Ok v /\
    match v with
    | None => True
    | Some i => exists o', a <= o' < o /\ i = slot (j + o') /\
                  o - o' <= 3 - hte_dist (ht !!! i)
    end.
Proof.
  revert a. induction n as [|n IH]; intros a Hn Ha Ho Hall; cbn [slot_victim]; [exists None; auto|].
  pose proof (Hall a ltac:(lia)) as Ea. unfold valid_at in Ea. rewrite Ea. cbn [obind assert_].
  rewrite slot_sub by lia. unfold FLEXNIC_PL_FLOWHT_NBSZ.
  destruct (Z.leb_spec (o - a) (4 - 1 - hte_dist (ht !!! slot (j + a)))).
  - exists (Some (slot (j + a))). split; [reflexivity|]. exists a. split_and!; auto; lia.
  - rewrite slot_slot_add. replace (j + a + 1) with (j + (a + 1)) by lia.
    destruct (IH (a + 1)) as (v & -> & Hv); [lia | lia | lia | intros; apply Hall; lia |].
    exists v. split; [reflexivity|]. destruct v as [i|]; auto.
    destruct Hv as (o' & ? & ? & ?). exists o'. split_and!; auto; lia.
Qed.

(** A slot holds flow [fid] under hash [hash]. *)
Definition holds (ht : gmap Z flowhte) (i fid hash : Z) : Prop :=
  hte_valid (ht !!! i) = true /\ hte_fid (ht !!! i) = fid /\ hte_flow_hash (ht !!! i) = hash.
Definition same_flows (ht ht' : gmap Z flowhte) : Prop :=
  forall fid hash, (exists i, holds ht i fid hash) <-> (exists i, holds ht' i fid hash).

Lemma slot_move_lookup ht i k x : i <> k ->
  slot_move ht i k !!! x =
    if decide (x = i) then mk_flowhte 0 (hte_flow_hash (ht !!! i))
    else if decide (x = k) then hte_make (hte_dist (ht !!! i)) (hte_fid (ht !!! i)) (hte_flow_hash (ht !!! i))
    else ht !!! x.
Proof.
  intros Hne. unfold slot_move. destruct (decide (x = i)) as [->|Hi].
  - rewrite lookup_total_insert_eq. rewrite lookup_total_insert_ne by auto. reflexivity.
  - rewrite lookup_total_insert_ne by auto. destruct (decide (x = k)) as [->|Hk].
    + rewrite lookup_total_insert_eq. reflexivity.
    + rewrite lookup_total_insert_ne by auto. reflexivity.
Qed.

Lemma slot_move_same ht i k : i <> k -> hte_valid (ht !!! i) = true -> hte_valid (ht !!! k) = false ->
  same_flows ht (slot_move ht i k).
Proof.
  intros Hne Hi Hk fid hash. pose proof (hte_fid_range (ht !!! i)). pose proof (hte_dist_range (ht !!! i)).
  split; intros [x (V & F & S)].
  - destruct (decide (x = i)) as [->|Hxi].
    + exists k. unfold holds. rewrite slot_move_lookup, decide_False, decide_True by auto.
      rewrite hte_make_valid, hte_make_fid by auto. auto.
    + exists x. unfold holds. rewrite slot_move_lookup, decide_False, decide_False by congruence. auto.
  - unfold holds in *. rewrite slot_move_lookup in V, F, S by auto.
    destruct (decide (x = i)) as [->|Hxi]; [rewrite hte_zero_invalid in V; discriminate|].
    destruct (decide (x = k)) as [->|Hxk]; [|exists x; auto].
    exists i. rewrite hte_make_fid in F by auto. auto.
Qed.

Lemma slot_pull_spec fuel ht o :
  0 <= o < 1000 -> o < Z.of_nat fuel + 4 -> valid_at ht o = false ->
  (forall o', 0 <= o' < o -> valid_at ht o' = true) ->
  exists ht' r, slot_pull fuel ht j (slot (j + 4)) (slot (j + o)) = Ok (ht', r) /\ same_flows ht ht' /\
    match r with
    | None => True
    | Some i => exists o', 0 <= o' < 4 /\ i = slot (j + o') /\ hte_valid (ht' !!! i) = false
    end.
Proof.
  revert ht o. induction fuel as [|fuel IH]; intros ht o Ho Hf Hinv Hall; cbn [slot_pull];
    rewrite slot_outside_iff by lia; destruct (Z.leb_spec 4 o); try lia.
  1,3: exists ht, (Some (slot (j + o))); split; [reflexivity|]; split; [intros f x; reflexivity|];
       exists o; split_and!; auto; lia.
  rewrite slot_u32. unfold FLEXNIC_PL_FLOWHT_NBSZ. change (Z.to_nat 4) with 4%nat.
  replace (slot (slot (j + o) - 4)) with (slot (j + (o - 4)))
    by (replace (slot (j + o) - 4) with (slot (j + o) + -4) by lia; rewrite slot_slot_add; f_equal; lia).
  destruct (slot_victim_spec ht o (o - 4) 4) as (v & -> & Hv);
    [lia | lia | lia | intros; apply Hall; lia |]. cbn [obind].
  destruct v as [i|]; [|exists ht, None; split; [reflexivity|]; split; [intros f x; reflexivity | auto]].
  destruct Hv as (o' & Ho' & -> & Hd). unfold valid_at in Hinv. rewrite Hinv. cbn [negb obind assert_].
  assert (Hne : slot (j + o') <> slot (j + o)) by (intros E; apply slot_inj in E; lia).
  assert (Vo : hte_valid (ht !!! slot (j + o')) = true) by (apply Hall; lia).
  destruct (IH (slot_move ht (slot (j + o')) (slot (j + o))) o') as (ht' & r & -> & S & Hr);
    [lia | lia | | |].
  - unfold valid_at. rewrite slot_move_lookup, decide_True by auto. reflexivity.
  - intros o'' Ho''. unfold valid_at. rewrite slot_move_lookup by auto.
    rewrite !decide_False by (intros E; apply slot_inj in E; lia). apply Hall. lia.
  - exists ht', r. split; [reflexivity|]. split; [|exact Hr].
    intros f x. rewrite <- (S f x). apply slot_move_same; auto.
Qed.

(** [flow_slot_alloc] always returns and none of its assertions fails:
    its loop moves the free slot strictly closer in every iteration.  It
    neither drops nor duplicates an entry of the table, and the slot it
    returns is free and within the four slots a lookup of the hash
    searches. *)
Theorem flow_slot_alloc_total ht :
  exists ht' r, flow_slot_alloc ht h = Ok (ht', r) /\ same_flows ht ht' /\
    match r with
    | None => True
    | Some (i, d) => 0 <= d < FLEXNIC_PL_FLOWHT_NBSZ /\ i = slot (h + d) /\ hte_valid (ht' !!! i) = false
    end.
Proof.
  unfold flow_slot_alloc. fold j.
  assert (Hhd : forall d, slot (h + d) = slot (j + d)) by (intros; unfold j; rewrite slot_slot_add; reflexivity).
  assert (Res : forall (ht' : gmap Z flowhte) o, 0 <= o < 4 -> hte_valid (ht' !!! slot (j + o)) = false ->
    let d := u32 (slot (j + o) - j) mod FLEXNIC_PL_FLOWHT_ENTRIES in
    0 <= d < FLEXNIC_PL_FLOWHT_NBSZ /\ slot (j + o) = slot (h + d) /\ hte_valid (ht' !!! slot (j + o)) = false).
  { intros ht' o Ho Hv. cbv zeta.
    assert (E : u32 (slot (j + o) - j) mod FLEXNIC_PL_FLOWHT_ENTRIES = o).
    { pose proof (slot_sub o 0 ltac:(lia)) as E. rewrite Z.add_0_r, Z.sub_0_r in E.
      replace (slot j) with j in E by (unfold j, slot; rewrite Z.mod_mod by (unfold FLEXNIC_PL_FLOWHT_ENTRIES; lia); reflexivity).
      exact E. }
    rewrite E. unfold FLEXNIC_PL_FLOWHT_NBSZ. split_and!; auto; try lia. }
  pose proof (slot_scan_spec ht 0 4 ltac:(lia)) as S1.
  replace (slot (j + 0)) with j in S1
    by (rewrite Z.add_0_r; unfold j, slot; rewrite Z.mod_mod by (unfold FLEXNIC_PL_FLOWHT_ENTRIES; lia); reflexivity).
  change (Z.to_nat FLEXNIC_PL_FLOWHT_NBSZ) with 4%nat.
  destruct (slot_scan ht j 4) as [i|].
  { destruct S1 as (o & Ho & -> & Hv & _). eexists _, _. split; [reflexivity|].
    split; [intros f x; reflexivity | apply Res; [lia | exact Hv]]. }
  change (slot (j + FLEXNIC_PL_FLOWHT_NBSZ)) with (slot (j + 4)).
  pose proof (slot_scan_spec ht 4 16 ltac:(lia)) as S2.
  change (Z.to_nat (4 * FLEXNIC_PL_FLOWHT_NBSZ)) with 16%nat.
  destruct (slot_scan ht (slot (j + 4)) 16) as [i|].
  2:{ exists ht, None. split; [reflexivity|]. split; [intros f x; reflexivity | auto]. }
  destruct S2 as (o & Ho & -> & Hv & Hall).
  destruct (slot_pull_spec pull_fuel ht o) as (ht' & r & -> & S & Hr);
    [lia | unfold pull_fuel; lia | exact Hv | |].
  { intros o' Ho'. destruct (Z.lt_ge_cases o' 4); [apply S1; lia | apply Hall; lia]. }
  cbn [obind]. destruct r as [i|].
  - destruct Hr as (o' & Ho' & -> & Hv'). eexists _, _. split; [reflexivity|]. split; [exact S|].
    apply Res; auto.
  - exists ht', None. auto.
Qed.
End Alloc.

(** ** Registration and lookup *)

(** A fast path core's view of the table and the flows. *)
Definition sees (w : fp) (s : nic) : Prop :=
  fp_flowst w = nc_flowst s /\ fp_flowht w = nc_flowht s.

Record flow_key := mk_flow_key { k_lip : beui32; k_rip : beui32; k_lp : beui16; k_rp : beui16 }.

#[export] Instance beui16_eq_dec : EqDecision beui16.
Proof. solve_decision. Defined.
#[export] Instance beui32_eq_dec : EqDecision beui32.
Proof. solve_decision. Defined.
#[export] Instance flow_key_eq_dec : EqDecision flow_key.
Proof. solve_decision. Defined.

(** The key a flow is registered under. *)
Definition key_of (q : flow_params) : flow_key :=
  mk_flow_key (t_beui32 (pm_ip_local q)) (t_beui32 (pm_ip_remote q))
    (t_beui16 (pm_port_local q)) (t_beui16 (pm_port_remote q)).

Section Lookup.
Context `{Platform}.

Definition lookup_key (w : fp) (k : flow_key) : option Z :=
  fast_flow_lookup w (k_lip k) (k_rip k) (k_lp k) (k_rp k).
Definition hash_key (k : flow_key) : Z := flow_hash (k_lip k) (k_rip k) (k_lp k) (k_rp k).
Definition matches (fs : flowst) (k : flow_key) : bool :=
  fs_matches fs (k_lip k) (k_rip k) (k_lp k) (k_rp k).

(** The entry [e] answers a lookup of [k] with hash [h]. *)
Definition answers (w : fp) (e : flowhte) (k : flow_key) (h : Z) : bool :=
  hte_valid e && (hte_flow_hash e =? h) && matches (fp_flowst w !!! hte_fid e) k.

Definition probe (w : fp) (k : flow_key) (h j : Z) (n : nat) : option Z :=
  flow_probe w (k_lip k) (k_rip k) (k_lp k) (k_rp k) h j n.

Lemma probe_S w k h j n :
  probe w k h j (S n) =
    let e := fp_flowht w !!! slot (h + j) in
    if answers w e k h then Some (hte_fid e) else probe w k h (j + 1) n.
Proof.
  unfold probe, answers, matches. cbn [flow_probe].
  change (u32 (h + j) mod FLEXNIC_PL_FLOWHT_ENTRIES) with (slot (u32 (h + j))). rewrite slot_u32.
  set (e := fp_flowht w !!! slot (h + j)). unfold hte_valid.
  destruct (Z.land (hte_flow_id e) FLEXNIC_PL_FLOWHTE_VALID =? 0); cbn [negb orb andb]; [reflexivity|].
  destruct (hte_flow_hash e =? h); reflexivity.
Qed.

Lemma probe_none w k h j n o :
  probe w k h j n = None -> j <= o < j + Z.of_nat n -> answers w (fp_flowht w !!! slot (h + o)) k h = false.
Proof.
  revert j. induction n as [|n IH]; intros j Hp Ho; [lia|]. rewrite probe_S in Hp. cbv zeta in Hp.
  destruct (answers w (fp_flowht w !!! slot (h + j)) k h) eqn:E; [discriminate|].
  destruct (Z.eq_dec o j) as [->|]; [exact E | apply (IH (j + 1)); auto; lia].
Qed.

Lemma probe_found w k h j n o :
  j <= o < j + Z.of_nat n -> answers w (fp_flowht w !!! slot (h + o)) k h = true ->
  (forall o', j <= o' < o -> answers w (fp_flowht w !!! slot (h + o')) k h = false) ->
  probe w k h j n = Some (hte_fid (fp_flowht w !!! slot (h + o))).
Proof.
  revert j. induction n as [|n IH]; intros j Ho Ha Hn; [lia|]. rewrite probe_S. cbv zeta.
  destruct (Z.eq_dec o j) as [->|]; [rewrite Ha; reflexivity|].
  rewrite Hn by lia. apply IH; auto; [lia|]. intros; apply Hn; lia.
Qed.

Lemma probe_ext w w' k h j n :
  (forall o, let e := fp_flowht w !!! slot (h + o) in let e' := fp_flowht w' !!! slot (h + o) in
     answers w' e' k h = answers w e k h /\ (answers w e k h = true -> hte_fid e' = hte_fid e)) ->
  probe w' k h j n = probe w k h j n.
Proof.
  intros E. revert j. induction n as [|n IH]; intros j; [reflexivity|]. rewrite !probe_S. cbv zeta.
  destruct (E j) as [A F]. rewrite A. destruct (answers w _ k h) eqn:B; [rewrite F by auto; reflexivity | apply IH].
Qed.

Lemma matches_init fs q qid : matches (flow_init fs q qid) (key_of q) = true.
Proof. unfold matches, fs_matches, flow_init, key_of. fs_cbn. cbn [k_lip k_rip k_lp k_rp]. rewrite !Z.eqb_refl. reflexivity. Qed.

Lemma matches_init_ne fs q qid k : k <> key_of q -> matches (flow_init fs q qid) k = false.
Proof.
  intros Hne. destruct (matches _ k) eqn:E; [|reflexivity]. exfalso. apply Hne.
  unfold matches, fs_matches, flow_init in E. fs_cbn. rewrite !andb_true_iff, !Z.eqb_eq in E.
  destruct E as (((E1 & E2) & E3) & E4). unfold key_of.
  destruct k as [[a] [b] [c] [d]], (t_beui32 (pm_ip_local q)), (t_beui32 (pm_ip_remote q)),
    (t_beui16 (pm_port_local q)), (t_beui16 (pm_port_remote q)). cbn in *. subst. reflexivity.
Qed.

(** The table after a registration that did not move entries. *)
Lemma registered w w' s s' q f_id d qid k :
  sees w s -> sees w' s' -> 0 <= f_id < 536870912 -> 0 <= d < 4 ->
  (forall i fid hash, holds (nc_flowht s) i fid hash -> fid <> f_id) ->
  hte_valid (nc_flowht s !!! slot (hash_key (key_of q) + d)) = false ->
  nc_flowht s' = <[slot (hash_key (key_of q) + d) := hte_make d f_id (hash_key (key_of q))]> (nc_flowht s) ->
  nc_flowst s' = <[f_id := flow_init (nc_flowst s !!! f_id) q qid]> (nc_flowst s) ->
  lookup_key w (key_of q) = None ->
  lookup_key w' k = if decide (k = key_of q) then Some f_id else lookup_key w k.
Proof.
  intros [S1 S2] [S1' S2'] Hf Hd Hids Hfree Eht Efst Hnew. set (i := slot (hash_key (key_of q) + d)) in *.
  assert (Old : forall x, x <> i -> fp_flowht w' !!! x = fp_flowht w !!! x)
    by (intros x Hx; rewrite S2', S2, Eht, lookup_total_insert_ne; auto).
  assert (New : fp_flowht w' !!! i = hte_make d f_id (hash_key (key_of q)))
    by (rewrite S2', Eht; apply lookup_total_insert_eq).
  assert (OldA : forall x k h, x <> i -> answers w' (fp_flowht w' !!! x) k h = answers w (fp_flowht w !!! x) k h).
  { intros x k' h Hx. rewrite Old by auto. unfold answers.
    destruct (hte_valid (fp_flowht w !!! x)) eqn:V; [|reflexivity]. cbn [andb].
    destruct (hte_flow_hash _ =? h); [|reflexivity]. cbn [andb].
    rewrite S1', Efst, S1, lookup_total_insert_ne; [reflexivity|].
    intros E. apply (Hids x (hte_fid (fp_flowht w !!! x)) (hte_flow_hash (fp_flowht w !!! x))); [|auto].
    rewrite S2 in *. repeat split; auto. }
  assert (NewF : fp_flowst w' !!! f_id = flow_init (nc_flowst s !!! f_id) q qid)
    by (rewrite S1', Efst; apply lookup_total_insert_eq).
  destruct (decide (k = key_of q)) as [->|Hne].
  - unfold lookup_key, fast_flow_lookup. fold (hash_key (key_of q)). fold (probe w' (key_of q) (hash_key (key_of q)) 0 (Z.to_nat FLEXNIC_PL_FLOWHT_NBSZ)).
    change (Z.to_nat FLEXNIC_PL_FLOWHT_NBSZ) with 4%nat.
    rewrite (probe_found w' (key_of q) (hash_key (key_of q)) 0 4 d); [|cbn; lia | |].
    + fold i. rewrite New, hte_make_fid by auto. reflexivity.
    + fold i. rewrite New. unfold answers. rewrite hte_make_valid, hte_make_fid, NewF, matches_init by auto.
      cbn [hte_flow_hash hte_make]. rewrite Z.eqb_refl. reflexivity.
    + intros o Ho. rewrite OldA.
      * apply (probe_none w (key_of q) (hash_key (key_of q)) 0 4); [exact Hnew | cbn; lia].
      * unfold i, slot, FLEXNIC_PL_FLOWHT_ENTRIES. clear -Ho Hd. mlia.
  - unfold lookup_key, fast_flow_lookup. apply probe_ext. intros o. cbv zeta.
    fold (hash_key k). destruct (decide (slot (hash_key k + o) = i)) as [E|E].
    + rewrite E, New. assert (A0 : answers w (fp_flowht w !!! i) k (hash_key k) = false)
        by (unfold answers; rewrite S2, Hfree; reflexivity).
      rewrite A0. split; [|discriminate]. unfold answers.
      rewrite hte_make_valid, hte_make_fid, NewF, matches_init_ne by auto. apply andb_false_r.
    + rewrite OldA by auto. split; [reflexivity|]. rewrite Old by auto. auto.
Qed.
End Lookup.

(** The receive buffer's address is recovered from [rx_base_sp], whatever flags
    the flow has. *)
Lemma rx_base_flags b f : 0 <= b < 18446744073709551616 -> b mod 16 = 0 ->
  f ∈ [0; 2; 6; 8; 10; 14] -> Z.land (Z.lor b f) FLEXNIC_PL_FLOWST_RX_MASK = b.
Proof.
  intros Hb Ha Hf. set (c := b / 16). assert (Eb : b = Z.shiftl c 4)
    by (rewrite Z.shiftl_mul_pow2 by lia; change (2 ^ 4) with 16; mlia).
  assert (Ef : Z.land f FLEXNIC_PL_FLOWST_RX_MASK = 0).
  { rewrite !elem_of_cons in Hf. destruct Hf as [->|[->|[->|[->|[->|[->|Hf]]]]]]; try reflexivity.
    apply elem_of_nil in Hf as []. }
  rewrite Z.land_lor_distr_l, Ef, Z.lor_0_r, Eb.
  change FLEXNIC_PL_FLOWST_RX_MASK with (Z.shiftl (Z.ones 60) 4).
  rewrite <- Z.shiftl_land, Z.land_ones, Z.mod_small; [reflexivity | change (2 ^ 60) with 1152921504606846976; mlia | lia].
Qed.

Lemma flow_rx_base_sp_flags q : exists f, f ∈ [0; 2; 6; 8; 10; 14] /\
  flow_rx_base_sp q = Z.lor (pm_rx_base q) f.
Proof.
  unfold flow_rx_base_sp, FLEXNIC_PL_FLOWST_OBJCONN, FLEXNIC_PL_FLOWST_OBJNOHASH, FLEXNIC_PL_FLOWST_ECN.
  destruct (flag_set (pm_flags q) NICIF_CONN_OBJCONN), (flag_set (pm_flags q) NICIF_CONN_OBJNOHASH),
    (flag_set (pm_flags q) NICIF_CONN_ECN);
    rewrite <- ?Z.lor_assoc;
    first [exists 14; (split; [set_solver | reflexivity]) | exists 10; (split; [set_solver | reflexivity])
          | exists 8; (split; [set_solver | reflexivity]) | exists 6; (split; [set_solver | reflexivity])
          | exists 2; (split; [set_solver | reflexivity]) | exists 0; (split; [set_solver | symmetry; apply Z.lor_0_r])].
Qed.

(** Parameters of a connection the kernel may register. *)
Record params_ok (q : flow_params) : Prop := mk_params_ok
  { pok_rx : 0 <= pm_rx_base q /\ 0 < pm_rx_len q < 2147483648 /\
      pm_rx_base q + pm_rx_len q <= FLEXNIC_DMA_MEM_SIZE /\ pm_rx_base q mod 16 = 0;
    pok_tx : 0 < pm_tx_len q < 2147483648;
    pok_seq : is_u32 (pm_remote_seq q) /\ is_u32 (pm_local_seq q) }.

(** A flow as the kernel registers it represents an empty transmit stream
    that starts at the local sequence number, and a receive stream that starts
    at the peer's with a window of the whole receive buffer. *)
Lemma flow_init_rep q qid fs stream m :
  params_ok q -> fs_rx_ooo_len fs = 0 ->
  TxRep (pm_local_seq q) (flow_init fs q qid) (mk_tx_stream 0 0 0) /\
  RxRep (pm_remote_seq q) stream m (flow_init fs q qid) (mk_rx_stream 0 (pm_rx_len q) None).
Proof.
  intros [(Hb & HL & Hm & Ha) HT [Hr Hl]] Hooo. unfold is_u32 in *. unfold flow_init.
  assert (Eb : Z.land (flow_rx_base_sp q) FLEXNIC_PL_FLOWST_RX_MASK = pm_rx_base q).
  { destruct (flow_rx_base_sp_flags q) as (f & Hf & ->). apply rx_base_flags; auto.
    unfold FLEXNIC_DMA_MEM_SIZE in *. lia. }
  split; [|split; [|exact Hooo]].
  - split; fs_cbn; txs_cbn; rewrite ?Z.add_0_r, ?Z.mod_0_l, ?u32_small by (unfold is_u32; lia);
      unfold is_u32; try reflexivity; lia.
  - cbn [rxs_next rxs_wend]. split; unfold rx_region_ok, rx_base; fs_cbn;
      rewrite ?Eb, ?Z.add_0_r, ?Z.mod_0_l, ?u32_small by (unfold is_u32; lia); try reflexivity; try lia.
    intros i Hi. lia.
Qed.


Section Register.
Context `{Platform}.

(** Every entry of the table belongs to a flow that was registered. *)
Definition ids_ok (s : nic) : Prop :=
  0 <= nc_flow_id s /\ forall i fid hash, holds (nc_flowht s) i fid hash -> fid < nc_flow_id s.

Lemma connection_added s q w :
  sees w s -> ids_ok s -> nc_flow_id s < FLEXNIC_PL_FLOWST_NUM ->
  pm_fn_core q < nc_fn_cores s -> nc_qman_queues s !!! pm_fn_core q <> [] ->
  slot_scan (nc_flowht s) (slot (hash_key (key_of q))) 4 <> None ->
  lookup_key w (key_of q) = None ->
  let f_id := nc_flow_id s in
  exists s', nicif_connection_add s q = Ok (s', Some f_id) /\ ids_ok s' /\ nc_flow_id s' = f_id + 1 /\
    (forall w' k, sees w' s' ->
       lookup_key w' k = if decide (k = key_of q) then Some f_id else lookup_key w k) /\
    (exists qid, nc_flowst s' !!! f_id = flow_init (nc_flowst s !!! f_id) q qid /\
       forall w', fp_qmant w' = nc_qmant s' -> qmant_flow w' qid = f_id).
Proof.
  intros Hw [Hid Hids] Hnum Hcore Hqs Hscan Hnew f_id. subst f_id. unfold FLEXNIC_PL_FLOWST_NUM in Hnum.
  unfold nicif_connection_add. rewrite (proj2 (Z.leb_gt _ _)) by exact Hnum.
  change (flow_hash _ _ _ _) with (hash_key (key_of q)). set (h := hash_key (key_of q)) in *.
  assert (Hj : slot (slot h + 0) = slot h) by (rewrite slot_slot_add; f_equal; lia).
  pose proof (slot_scan_spec h (nc_flowht s) 0 4 ltac:(lia)) as S. rewrite Hj in S.
  unfold flow_slot_alloc. change (Z.to_nat FLEXNIC_PL_FLOWHT_NBSZ) with 4%nat.
  destruct (slot_scan (nc_flowht s) (slot h) 4) as [i|]; [|contradiction].
  destruct S as (d & Hd & -> & Hv & _). cbn [obind].
  assert (Ed : u32 (slot (slot h + d) - slot h) mod FLEXNIC_PL_FLOWHT_ENTRIES = d).
  { pose proof (slot_sub h d 0 ltac:(lia)) as E. rewrite Hj, Z.sub_0_r in E. exact E. }
  rewrite Ed. unfold valid_at in Hv. pose proof (slot_range (slot h + d)).
  rewrite (proj2 (Z.ltb_lt _ _)) by (unfold FLEXNIC_PL_FLOWHT_ENTRIES; lia).
  rewrite (proj2 (Z.ltb_lt d FLEXNIC_PL_FLOWHT_NBSZ)) by (unfold FLEXNIC_PL_FLOWHT_NBSZ; lia).
  cbn [obind assert_]. unfold qman_alloc_flow.
  change (nc_fn_cores (s <| nc_flowht := nc_flowht s |>)) with (nc_fn_cores s).
  change (nc_qman_queues (s <| nc_flowht := nc_flowht s |>)) with (nc_qman_queues s).
  rewrite (proj2 (Z.ltb_lt _ _) Hcore). cbn [obind assert_].
  destruct (nc_qman_queues s !!! pm_fn_core q) as [|qid ql]; [contradiction|]. cbn [obind].
  eexists. split; [reflexivity|].
  rewrite slot_slot_add in *.
  split_and!.
  - split; [cbn; lia|]. intros i fid hash [V [F X]]. cbn in V, F, X.
    destruct (decide (i = slot (h + d))) as [->|Hne].
    + rewrite lookup_total_insert_eq in F. rewrite hte_make_fid in F by (lia).
      cbn. lia.
    + rewrite lookup_total_insert_ne in V, F, X by auto. cbn.
      enough (fid < nc_flow_id s) by lia. apply (Hids i fid hash). repeat split; auto.
  - reflexivity.
  - intros w' k Hw'. eapply (registered w w' s _ q (nc_flow_id s) d qid k Hw Hw'); try reflexivity.
    + lia.
    + lia.
    + intros i fid hash Hh. apply Hids in Hh. lia.
    + exact Hv.
    + exact Hnew.
  - exists qid. split; [cbn; apply lookup_total_insert_eq|]. intros w' Hq. unfold qmant_flow. rewrite Hq.
    cbn [nc_qmant nc_flow_id upd eta_nic]. rewrite lookup_total_insert_eq.
    change (Z.land (Z.lnot FLEXNIC_PL_QMANTE_TYPEMASK) UINT32_MAX) with (Z.ones 30).
    rewrite Z.land_ones, Z.lor_comm by lia.
    change FLEXNIC_PL_QMANTE_TYPEFLOW with (Z.shiftl 1 30).
    rewrite lor_shiftl_add by (change (2 ^ 30) with 1073741824; lia).
    change (2 ^ 30) with 1073741824. symmetry. apply (Z.mod_unique_pos _ _ 1); lia.
Qed.

(** Registering a connection whose bucket has a free slot succeeds
    while flow ids and queues are left; afterwards the fast path finds the new
    flow under the connection's addresses and ports, every other lookup gives
    what it gave before, the flow's state is initialised, and its queue leads
    back to it. *)
Theorem nicif_connection_add_registers s q w :
  sees w s -> ids_ok s -> nc_flow_id s < FLEXNIC_PL_FLOWST_NUM ->
  pm_fn_core q < nc_fn_cores s -> nc_qman_queues s !!! pm_fn_core q <> [] ->
  slot_scan (nc_flowht s) (slot (hash_key (key_of q))) 4 <> None ->
  lookup_key w (key_of q) = None ->
  let f_id := nc_flow_id s in
  exists s', nicif_connection_add s q = Ok (s', Some f_id) /\ ids_ok s' /\ nc_flow_id s' = f_id + 1 /\
    (forall w' k, sees w' s' ->
       lookup_key w' k = if decide (k = key_of q) then Some f_id else lookup_key w k) /\
    (exists qid, nc_flowst s' !!! f_id = flow_init (nc_flowst s !!! f_id) q qid /\
       forall w', fp_qmant w' = nc_qmant s' -> qmant_flow w' qid = f_id).
Proof. exact (connection_added s q w). Qed.
End Register.

(** ** A registered flow can become unreachable

    When an element moves, [flow_slot_alloc] keeps its stored displacement, so
    a second move may carry it out of the four slots a lookup searches. *)
Section LostFlow.
(** A hash that depends on the local port only. *)
Local Instance port_hash : Platform :=
  mk_platform (fun key => byte_at key 9) (fun _ => 0) (fun _ _ => true) [0;0;0;0;0;0] 0 (fun _ => 0) 100.

Definition port_flow (lport rport : Z) : flow_params :=
  mk_flow_params 0 0 1 lport 2 rport 0 4096 4096 4096 0 0 0 0 0 0 0.

(** One core, an empty table, queues 1 to 20. *)
Definition empty_nic : nic :=
  mk_nic ∅ ∅ ∅ ∅ ∅ ∅ ∅ ∅ [] 1 0 {[ 0 := seqZ 1 20 ]} 0 0 0 0 ∅ ∅ ∅ ∅ ∅ ∅.

Fixpoint register_all (s : nic) (qs : list flow_params) : outcome (nic * list (option Z)) :=
  match qs with
  | [] => Ok (s, [])
  | q :: qs' =>
    let! (s, r) := nicif_connection_add s q in
    let! (s, rs) := register_all s qs' in
    Ok (s, r :: rs)
  end.

Definition core_view (s : nic) : fp :=
  mk_fp 0 (nc_flowst s) (nc_flowht s) (nc_qmant s) ∅ ∅ ∅ ∅ ∅ (qman_thread_init 0 0) [] [] [].

(**  Nine registrations succeed and the flow with local port 100 is
    found; the tenth registration succeeds too, and the flow is not found any
    more, although its entry is still in the table. *)
Theorem flow_table_loses_flow :
  let key := key_of (port_flow 100 1) in
  (let! (s9, ids) := register_all empty_nic
     [port_flow 97 1; port_flow 98 1; port_flow 99 1; port_flow 100 1; port_flow 101 1;
      port_flow 102 1; port_flow 97 2; port_flow 104 1; port_flow 105 1] in
   let! (s10, id) := nicif_connection_add s9 (port_flow 100 2) in
   Ok (ids, lookup_key (core_view s9) key, id, lookup_key (core_view s10) key,
       hte_fid (nc_flowht s10 !!! 106), hash_key key)) =
  Ok ([Some 0; Some 1; Some 2; Some 3; Some 4; Some 5; Some 6; Some 7; Some 8],
      Some 3, Some 9, None, 3, 100).
Proof. vm_compute. reflexivity. Qed.
End LostFlow.
