(* ===== verification/CC.v ===== *)
(** Congestion control in the kernel: kernel/cc.c.

    The control loop visits every open connection whose interval elapsed, reads
    the counters the fast path collected, and sets the flow's rate.  The four
    algorithms keep their data in a union, here the inductive [cc_data]. *)
From stdpp Require Import base numbers list gmap.
From Stdlib Require Import ZArith Lia.
From S2P Require Import Prelude Packet FlowState TcpCommon Qman LinkedList Dma Circ FastPath FastRx Stream TxPath RxPath Handlers Queues NicIf.

Definition CONF_MSS : Z := 1400.

(** ** Data *)

Inductive config_cc_algorithm :=
| CONFIG_CC_DCTCP_WIN | CONFIG_CC_DCTCP_RATE | CONFIG_CC_TIMELY | CONFIG_CC_CONST_RATE.

(** The members of [struct configuration] congestion control uses. *)
Record cc_config := mk_cc_config
  { cfg_algorithm : config_cc_algorithm; cfg_tcp_rtt_init : Z; cfg_tcp_link_bw : Z;
    cfg_granularity : Z; cfg_interval : Z; cfg_rexmit_ints : Z;
    cfg_dctcp_weight : Z; cfg_dctcp_init : Z; cfg_dctcp_step : Z; cfg_dctcp_mimd : Z;
    cfg_dctcp_min : Z; cfg_dctcp_minpkts : Z; cfg_const_rate : Z;
    cfg_timely_tlow : Z; cfg_timely_thigh : Z; cfg_timely_step : Z; cfg_timely_init : Z;
    cfg_timely_alpha : Z; cfg_timely_beta : Z; cfg_timely_min_rtt : Z; cfg_timely_min_rate : Z }.

Record dctcp_win := mk_dctcp_win { dw_ecn_rate : Z; dw_window : Z; dw_slowstart : bool }.
#[export] Instance eta_dctcp_win : Eta dctcp_win := fun c =>
  mk_dctcp_win (dw_ecn_rate c) (dw_window c) (dw_slowstart c).

Record dctcp_rate := mk_dctcp_rate
  { dr_unproc_acks : Z; dr_unproc_ackb : Z; dr_unproc_ecn : Z; dr_unproc_drops : Z;
    dr_ecn_rate : Z; dr_act_rate : Z; dr_slowstart : bool }.
#[export] Instance eta_dctcp_rate : Eta dctcp_rate := fun c =>
  mk_dctcp_rate (dr_unproc_acks c) (dr_unproc_ackb c) (dr_unproc_ecn c) (dr_unproc_drops c)
    (dr_ecn_rate c) (dr_act_rate c) (dr_slowstart c).

Record timely := mk_timely
  { tm_rtt_prev : Z; tm_rtt_diff : Z; tm_hai_cnt : Z; tm_act_rate : Z; tm_last_ts : Z;
    tm_slowstart : bool }.
#[export] Instance eta_timely : Eta timely := fun c =>
  mk_timely (tm_rtt_prev c) (tm_rtt_diff c) (tm_hai_cnt c) (tm_act_rate c) (tm_last_ts c)
    (tm_slowstart c).

Inductive cc_data :=
| cc_dctcp_win (d : dctcp_win) | cc_dctcp_rate (d : dctcp_rate) | cc_timely (d : timely) | cc_none.

(** The members of [struct connection] congestion control uses; [cn_open] is
    [status == CONN_OPEN]. *)
Record cc_conn := mk_cc_conn
  { cn_flow_id : Z; cn_flow_group : Z; cn_open : bool; cn_tx_len : Z;
    cn_cc_last_ts : Z; cn_cc_rtt : Z; cn_cc_rate : Z; cn_cc_rexmits : Z; cn_cc : cc_data;
    cn_cnt_tx_pending : Z; cn_ts_tx_pending : Z }.
#[export] Instance eta_cc_conn : Eta cc_conn := fun c =>
  mk_cc_conn (cn_flow_id c) (cn_flow_group c) (cn_open c) (cn_tx_len c) (cn_cc_last_ts c) (cn_cc_rtt c)
    (cn_cc_rate c) (cn_cc_rexmits c) (cn_cc c) (cn_cnt_tx_pending c) (cn_ts_tx_pending c).

(** C integer division; dividing by zero traps. *)
Definition udiv (a b : Z) : outcome Z := if b =? 0 then Crash else Ok (a / b).
Definition sdiv (a b : Z) : outcome Z := if b =? 0 then Crash else Ok (Z.quot a b).

(** ** Window-based DCTCP *)

Definition window_to_rate (cfg : cc_config) (window rtt : Z) : outcome Z :=
  let! t := udiv (window * 8 * 1000) (cfg_tcp_link_bw cfg) in
  let time := t / 1000 in
  let time := if time <? u32 (rtt * 1000) then u32 (rtt * 1000) else time in
  let! _ := assert_ (negb (time =? 0)) in
  let rate := (window * 8 * 1000000) / time in
  Ok (if UINT32_MAX <? rate then UINT32_MAX else rate).

Definition dctcp_win_init (cfg : cc_config) (c : cc_conn) : outcome cc_conn :=
  let! r := window_to_rate cfg (2 * CONF_MSS) (cfg_tcp_rtt_init cfg) in
  Ok (c <| cn_cc := cc_dctcp_win (mk_dctcp_win 0 (2 * CONF_MSS) true) |> <| cn_cc_rate := r |>).

(** The moving average of the fraction of marked acknowledgements, shared by
    both DCTCP variants; [ecn] is already clamped to [acks]. *)
Definition ecn_ewma (cfg : cc_config) (old ecn acks : Z) : Z :=
  let r := u64 (ecn * UINT32_MAX) / acks in
  u32 (u64 (r * cfg_dctcp_weight cfg + old * u32 (UINT32_MAX - cfg_dctcp_weight cfg)) / UINT32_MAX).

(** Congestion avoidance: the new window and ECN rate. *)
Definition dctcp_win_avoid (cfg : cc_config) (st : cc_stats) (rexmits win ecn_rate : Z)
    : outcome (Z * Z) :=
  if (0 <? st_drops st) || (0 <? rexmits) then Ok (win / 2, ecn_rate)
  else
    let '(ecn, ecn_rate) :=
      if 0 <? st_acks st then
        let ecn := if st_ecn st <=? st_acks st then st_ecn st else st_acks st in
        (ecn, ecn_ewma cfg ecn_rate ecn (st_acks st))
      else (st_ecn st, ecn_rate) in
    if 0 <? ecn then
      Ok (u32 (u64 (win * u32 (UINT32_MAX - ecn_rate / 2)) / UINT32_MAX), ecn_rate)
    else
      let! _ := assert_ (negb (win =? 0)) in
      let incr := u64 (st_ackb st * CONF_MSS) / win in
      Ok (if win <? u32 (win + incr) then u32 (win + incr) else win, ecn_rate).

Definition dctcp_win_update (cfg : cc_config) (c : cc_conn) (cc : dctcp_win) (st : cc_stats)
    : outcome cc_conn :=
  let win := dw_window cc in
  let! _ := assert_ (CONF_MSS <=? win) in
  let rtt := if st_rtt st =? 0 then cfg_tcp_rtt_init cfg else st_rtt st in
  let '(win, slow) :=
    if dw_slowstart cc then
      if (st_drops st =? 0) && (st_ecn st =? 0) && (cn_cc_rexmits c =? 0)
      then (if win <? u32 (win + st_ackb st) then u32 (win + st_ackb st) else win, true)
      else (win, false)
    else (win, false) in
  let! (win, ecn_rate) :=
    if negb slow then dctcp_win_avoid cfg st (cn_cc_rexmits c) win (dw_ecn_rate cc)
    else Ok (win, dw_ecn_rate cc) in
  let win := if win <? CONF_MSS then CONF_MSS else win in
  let win := if cn_tx_len c <? win then cn_tx_len c else win in
  let! r := window_to_rate cfg win rtt in
  let! _ := assert_ (CONF_MSS <=? win) in
  Ok (c <| cn_cc_rtt := rtt |> <| cn_cc_rate := r |>
        <| cn_cc := cc_dctcp_win (mk_dctcp_win ecn_rate win slow) |> <| cn_cc_rexmits := 0 |>).

(** ** Rate-based DCTCP *)

(** [init]; the members [dctcp_rate_init] does not set keep what the union
    held ([act_rate]). *)
Definition dctcp_rate_init (cfg : cc_config) (c : cc_conn) (act_rate : Z) : cc_conn :=
  c <| cn_cc_rate := cfg_dctcp_init cfg |>
    <| cn_cc := cc_dctcp_rate (mk_dctcp_rate 0 0 0 0 0 act_rate true) |>.

Definition dctcp_rate_avoid (cfg : cc_config) (c_drops c_ecn c_acks rexmits rate ecn_rate : Z)
    : Z * Z :=
  if (0 <? c_drops) || (0 <? rexmits) then (rate / 2, ecn_rate)
  else
    let '(c_ecn, ecn_rate) :=
      if 0 <? c_acks then
        let e := if c_ecn <=? c_acks then c_ecn else c_acks in
        (e, ecn_ewma cfg ecn_rate e c_acks)
      else (c_ecn, ecn_rate) in
    (if 0 <? c_ecn then u32 (u64 (rate * u32 (UINT32_MAX - ecn_rate / 2)) / UINT32_MAX)
     else if cfg_dctcp_mimd cfg =? 0 then u32 (rate + cfg_dctcp_step cfg)
     else u32 (rate + u64 (rate * cfg_dctcp_mimd cfg) / UINT32_MAX), ecn_rate).

Definition dctcp_rate_update (cfg : cc_config) (c : cc_conn) (cc : dctcp_rate) (st : cc_stats)
    (cur_ts : Z) : outcome cc_conn :=
  let rtt := if st_rtt st =? 0 then cfg_tcp_rtt_init cfg else st_rtt st in
  let c := c <| cn_cc_rtt := rtt |> in
  let c_ecn := u32 (dr_unproc_ecn cc + st_ecn st) in
  let c_acks := u32 (dr_unproc_acks cc + st_acks st) in
  let c_ackb := u32 (dr_unproc_ackb cc + st_ackb st) in
  let c_drops := u32 (dr_unproc_drops cc + st_drops st) in
  if c_acks <? cfg_dctcp_minpkts cfg then
    Ok (c <| cn_cc := cc_dctcp_rate (cc <| dr_unproc_ecn := c_ecn |> <| dr_unproc_acks := c_acks |>
                                        <| dr_unproc_ackb := c_ackb |> <| dr_unproc_drops := c_drops |>) |>)
  else
    let cc := cc <| dr_unproc_ecn := 0 |> <| dr_unproc_acks := 0 |>
                 <| dr_unproc_ackb := 0 |> <| dr_unproc_drops := 0 |> in
    let! act_rate :=
      if negb (cn_cc_last_ts c =? 0)
      then udiv (u32 (c_ackb * 8 * 1000)) (u32 (cur_ts - cn_cc_last_ts c)) else Ok 0 in
    let cc := cc <| dr_act_rate := u32 (u32 (7 * dr_act_rate cc) + act_rate) / 8 |> in
    let act_rate := if dr_act_rate cc <=? act_rate then act_rate else dr_act_rate cc in
    let rate := cn_cc_rate c in
    let rate := if act_rate * 12 / 10 <? rate then u32 (act_rate * 12 / 10) else rate in
    let '(rate, slow) :=
      if dr_slowstart cc then
        if (c_drops =? 0) && (c_ecn =? 0) && (cn_cc_rexmits c =? 0)
        then (if rate <=? u32 (rate * 2) then u32 (rate * 2) else UINT32_MAX, true)
        else (rate, false)
      else (rate, false) in
    let '(rate, ecn_rate) :=
      if negb slow then dctcp_rate_avoid cfg c_drops c_ecn c_acks (cn_cc_rexmits c) rate (dr_ecn_rate cc)
      else (rate, dr_ecn_rate cc) in
    let rate := if rate <? cfg_dctcp_min cfg then cfg_dctcp_min cfg else rate in
    Ok (c <| cn_cc_rate := rate |>
          <| cn_cc := cc_dctcp_rate (cc <| dr_ecn_rate := ecn_rate |> <| dr_slowstart := slow |>) |>
          <| cn_cc_rexmits := 0 |>).

(** ** TIMELY *)

Definition timely_init (cfg : cc_config) (c : cc_conn) (act_rate : Z) : cc_conn :=
  c <| cn_cc_rate := cfg_timely_init cfg |> <| cn_cc := cc_timely (mk_timely 0 0 0 act_rate 0 true) |>.

(** The moving average of the RTT difference and the normalized gradient. *)
Definition timely_gradient (cfg : cc_config) (cc : timely) (new_rtt : Z) : outcome (Z * Z) :=
  if negb (tm_rtt_prev cc =? 0) then
    let new_rtt_diff := s32 (new_rtt - tm_rtt_prev cc) in
    let factor := cfg_timely_alpha cfg / 2 in
    let x := s64 (u64 ((INT32_MAX - factor) * tm_rtt_diff cc) + u64 (factor * new_rtt_diff)) in
    let rtt_diff := s32 (Z.quot x INT32_MAX) in
    let! g := sdiv (rtt_diff * INT16_MAX) (cfg_timely_min_rtt cfg) in
    Ok (rtt_diff, g)
  else Ok (tm_rtt_diff cc, 0).

(** The rate step: new rate and HAI counter. *)
Definition timely_step (cfg : cc_config) (slow : bool) (rate hai new_rtt gradient : Z) : Z * Z :=
  if slow then (u32 (rate * 2), hai)
  else if new_rtt <? cfg_timely_tlow cfg then (u32 (rate + cfg_timely_step cfg), 0)
  else if cfg_timely_thigh cfg <? new_rtt then
    let d := u32 (u64 (UINT32_MAX * cfg_timely_thigh cfg) / new_rtt) in
    let b := u32 (UINT32_MAX - d) in
    let a := u32 (u64 (cfg_timely_beta cfg * b) / UINT32_MAX) in
    (u32 (u64 (rate * u32 (UINT32_MAX - a)) / UINT32_MAX), 0)
  else if gradient <=? 0 then
    let hai := u32 (hai + 1) in
    if 5 <=? hai then (u32 (rate + u32 (cfg_timely_step cfg * 5)), u32 (hai - 1))
    else (u32 (rate + cfg_timely_step cfg), hai)
  else
    let a := s64 (cfg_timely_beta cfg / 2 * gradient) in
    let b := Z.quot a INT16_MAX in
    let d := if b <=? INT32_MAX then INT32_MAX - b else 0 in
    let e := s64 (rate * d) in
    (u32 (Z.quot e INT32_MAX), 0).

Definition timely_update (cfg : cc_config) (c : cc_conn) (cc : timely) (st : cc_stats) (cur_ts : Z)
    : outcome cc_conn :=
  let new_rtt := st_rtt st in
  let! act_rate :=
    if negb (tm_last_ts cc =? 0)
    then udiv (u32 (st_ackb st * 8 * 1000)) (u32 (cur_ts - tm_last_ts cc)) else Ok 0 in
  let cc := cc <| tm_act_rate := u32 (u32 (7 * tm_act_rate cc) + act_rate) / 8 |> in
  let act_rate := if tm_act_rate cc <=? act_rate then act_rate else tm_act_rate cc in
  if new_rtt =? 0 then Ok (c <| cn_cc := cc_timely cc |>)
  else
    let slow := tm_slowstart cc &&
      negb (u32 (cfg_timely_tlow cfg + cfg_timely_thigh cfg) / 2 <? new_rtt) in
    let cc := cc <| tm_slowstart := slow |> in
    let rate := if negb slow && (act_rate * 12 / 10 <? cn_cc_rate c)
                then u32 (act_rate * 12 / 10) else cn_cc_rate c in
    let! (rtt_diff, gradient) := timely_gradient cfg cc new_rtt in
    let orig_rate := rate in
    let '(rate, hai) := timely_step cfg slow rate (tm_hai_cnt cc) new_rtt gradient in
    let rate := if rate <? orig_rate / 2 then orig_rate / 2 else rate in
    let rate := if rate <? cfg_timely_min_rate cfg then cfg_timely_min_rate cfg else rate in
    Ok (c <| cn_cc_rate := rate |> <| cn_cc_rtt := st_rtt st |> <| cn_cc_rexmits := 0 |>
          <| cn_cc := cc_timely (cc <| tm_rtt_prev := new_rtt |> <| tm_rtt_diff := rtt_diff |>
                                    <| tm_hai_cnt := hai |> <| tm_last_ts := cur_ts |>) |>).

(** ** Constant rate *)

Definition const_rate_update (cfg : cc_config) (c : cc_conn) (st : cc_stats) : cc_conn :=
  c <| cn_cc_rtt := if negb (st_rtt st =? 0) then st_rtt st else cfg_tcp_rtt_init cfg |>
    <| cn_cc_rexmits := 0 |>.

(** ** The control loop *)

(** [cc_conn_init] at time [cur_ts]; [junk] is what the union held. *)
Definition cc_conn_init (cfg : cc_config) (cur_ts junk : Z) (c : cc_conn) : outcome cc_conn :=
  let c := c <| cn_cc_last_ts := cur_ts |> <| cn_cc_rtt := cfg_tcp_rtt_init cfg |>
             <| cn_cc_rexmits := 0 |> in
  match cfg_algorithm cfg with
  | CONFIG_CC_DCTCP_WIN => dctcp_win_init cfg c
  | CONFIG_CC_DCTCP_RATE => Ok (dctcp_rate_init cfg c junk)
  | CONFIG_CC_TIMELY => Ok (timely_init cfg c junk)
  | CONFIG_CC_CONST_RATE => Ok (c <| cn_cc_rate := cfg_const_rate cfg |> <| cn_cc := cc_none |>)
  end.

(** The algorithm's update; the data matches the configured algorithm because
    the configuration does not change. *)
Definition cc_update (cfg : cc_config) (c : cc_conn) (st : cc_stats) (cur_ts : Z) : outcome cc_conn :=
  match cn_cc c with
  | cc_dctcp_win d => dctcp_win_update cfg c d st
  | cc_dctcp_rate d => dctcp_rate_update cfg c d st cur_ts
  | cc_timely d => timely_update cfg c d st cur_ts
  | cc_none => Ok (const_rate_update cfg c st)
  end.

Section Loop.
Context `{Platform}.

(** [issue_retransmits]; the last result counts [kstats.kernel_rexmit]. *)
Definition issue_retransmits (cfg : cc_config) (s : nic) (c : cc_conn) (st : cc_stats) (cur_ts : Z)
    : nic * cc_conn * bool :=
  let rtt := if negb (st_rtt st =? 0) then st_rtt st else cfg_tcp_rtt_init cfg in
  if st_txp st && (st_ackb st =? 0) then
    let cnt := cn_cnt_tx_pending c in
    let c := c <| cn_cnt_tx_pending := u32 (cnt + 1) |> in
    if cnt =? 0 then (s, c <| cn_ts_tx_pending := cur_ts |>, false)
    else if (cfg_rexmit_ints cfg <=? cn_cnt_tx_pending c) &&
            (u32 (2 * rtt) <=? u32 (cur_ts - cn_ts_tx_pending c)) then
      let '(s, r) := nicif_connection_retransmit s (cn_flow_id c) (cn_flow_group c) in
      if r =? 0
      then (s, c <| cn_cnt_tx_pending := 0 |> <| cn_cc_rexmits := u32 (cn_cc_rexmits c + 1) |>, true)
      else (s, c, false)
    else (s, c, false)
  else (s, c <| cn_cnt_tx_pending := 0 |>, false).

(** One connection of [cc_poll]'s loop; the boolean says it was processed. *)
Definition cc_poll_one (cfg : cc_config) (s : nic) (c : cc_conn) (cur_ts : Z)
    : outcome (nic * cc_conn * bool) :=
  if negb (cn_open c) then Ok (s, c, false)
  else if u32 (cur_ts - cn_cc_last_ts c) <? u32 (cn_cc_rtt c * cfg_interval cfg) then Ok (s, c, false)
  else
    match nicif_connection_stats s (cn_flow_id c) with
    | None => Crash
    | Some (s, st) =>
      let! c := cc_update cfg c st cur_ts in
      let '(s, c, _) := issue_retransmits cfg s c st cur_ts in
      let '(s, _) := nicif_connection_setrate s (cn_flow_id c) (cn_cc_rate c) in
      Ok (s, c <| cn_cc_last_ts := cur_ts |>, true)
    end.

Fixpoint cc_poll_list (cfg : cc_config) (s : nic) (l : list cc_conn) (cur_ts : Z)
    : outcome (nic * list cc_conn * Z) :=
  match l with
  | [] => Ok (s, [], 0)
  | c :: l' =>
    let! (s, c, b) := cc_poll_one cfg s c cur_ts in
    let! (s, l', n) := cc_poll_list cfg s l' cur_ts in
    Ok (s, c :: l', (if b : bool then 1 else 0) + n)
  end.

(** [cc_poll]: the connections, [last_ts] and the number processed. *)
Definition cc_poll (cfg : cc_config) (s : nic) (conns : list cc_conn) (last_ts cur_ts : Z)
    : outcome (nic * list cc_conn * Z * Z) :=
  if u32 (cur_ts - last_ts) <? cfg_granularity cfg then Ok (s, conns, last_ts, 0)
  else
    let! (s, conns, n) := cc_poll_list cfg s conns cur_ts in
    Ok (s, conns, cur_ts, n).
End Loop.

(** [cc_next_ts]: microseconds until a control interval elapses, [UINT32_MAX]
    when no connection is open. *)
Fixpoint cc_next_list (cfg : cc_config) (l : list cc_conn) (cur_ts ts : Z) : Z :=
  match l with
  | [] => ts
  | c :: l' =>
    if negb (cn_open c) then cc_next_list cfg l' cur_ts ts
    else
      let next := s32 (u32 (cn_cc_rtt c * cfg_interval cfg) - u32 (cur_ts - cn_cc_last_ts c)) in
      cc_next_list cfg l' cur_ts (if 0 <=? next then MIN ts next else 0)
  end.

Definition cc_next_ts (cfg : cc_config) (conns : list cc_conn) (last_ts cur_ts : Z) : outcome Z :=
  let! _ := assert_ (last_ts <=? cur_ts) in
  let ts := cc_next_list cfg conns cur_ts UINT32_MAX in
  Ok (if ts =? UINT32_MAX then UINT32_MAX
      else MAX ts (u32 (cfg_granularity cfg - u32 (cur_ts - last_ts)))).

(** ** Bounds of window-based DCTCP *)

Lemma window_to_rate_ok cfg win rtt :
  CONF_MSS <= win < 4294967296 -> 0 < cfg_tcp_link_bw cfg <= 11200 ->
  exists r, window_to_rate cfg win rtt = Ok r /\ 0 <= r <= UINT32_MAX.
Proof.
  intros Hw Hb. unfold window_to_rate, udiv, CONF_MSS in *.
  rewrite (proj2 (Z.eqb_neq _ _)) by lia. cbn [obind].
  set (time0 := win * 8 * 1000 / cfg_tcp_link_bw cfg / 1000).
  assert (H0 : 1 <= time0).
  { unfold time0. rewrite Z.div_div by lia. apply Z.div_le_lower_bound; nia. }
  set (time := if time0 <? u32 (rtt * 1000) then u32 (rtt * 1000) else time0).
  assert (1 <= time) by (unfold time; bsplit; lia).
  rewrite (proj2 (Z.eqb_neq time 0)) by lia. cbn [negb obind assert_].
  set (rate := win * 8 * 1000000 / time).
  assert (0 <= rate) by (apply Z.div_pos; lia).
  eexists. split; [reflexivity|]. unfold UINT32_MAX. bsplit; lia.
Qed.

Lemma ecn_ewma_range cfg old ecn acks :
  0 <= ecn <= acks -> 0 < acks < 4294967296 -> is_u32 old -> is_u32 (cfg_dctcp_weight cfg) ->
  is_u32 (ecn_ewma cfg old ecn acks).
Proof. intros. unfold ecn_ewma. apply u32_range. Qed.

(** Reducing a window by half of an ECN rate never takes more than half. *)
Lemma ecn_reduce win er : 0 <= win < 4294967296 -> is_u32 er ->
  win / 2 <= u32 (u64 (win * u32 (UINT32_MAX - er / 2)) / UINT32_MAX) <= win.
Proof.
  unfold is_u32, UINT32_MAX. intros Hw He.
  assert (He2 : 0 <= er / 2 <= 2147483647) by mlia.
  rewrite (u32_small (4294967295 - er / 2)) by (unfold is_u32; lia).
  assert (Hp : 0 <= win * (4294967295 - er / 2) <= 4294967295 * 4294967295) by nia.
  rewrite u64_small by lia.
  assert (L : win / 2 <= win * (4294967295 - er / 2) / 4294967295).
  { apply Z.div_le_lower_bound; [lia|]. assert (2 * (win / 2) <= win) by (apply Z.mul_div_le; lia). nia. }
  assert (U : win * (4294967295 - er / 2) / 4294967295 <= win)
    by (apply Z.div_le_upper_bound; nia).
  assert (0 <= win / 2) by (apply Z.div_pos; lia).
  rewrite u32_small by (unfold is_u32; lia). lia.
Qed.

Record stats_ok (st : cc_stats) : Prop := mk_stats_ok
  { sok_drops : is_u32 (st_drops st); sok_acks : is_u32 (st_acks st);
    sok_ackb : is_u32 (st_ackb st); sok_ecn : is_u32 (st_ecn st) }.

(** The congestion signals of an interval. *)
Definition lost (c : cc_conn) (st : cc_stats) : bool := (0 <? st_drops st) || (0 <? cn_cc_rexmits c).

Lemma dctcp_win_avoid_spec cfg st rexmits win er :
  stats_ok st -> CONF_MSS <= win < 4294967296 -> is_u32 er -> 0 <= rexmits ->
  exists win' er', dctcp_win_avoid cfg st rexmits win er = Ok (win', er') /\ is_u32 er' /\
    (if (0 <? st_drops st) || (0 <? rexmits) then win' = win / 2
     else if (0 <? st_ecn st) && (0 <? st_acks st) then win / 2 <= win' <= win
     else if st_ecn st =? 0 then win <= win' <= win + st_ackb st else win / 2 <= win' <= win).
Proof.
  intros [H1 H2 H3 H4] Hw He Hr. unfold is_u32, CONF_MSS in *. unfold dctcp_win_avoid.
  destruct (_ || _); [eexists _, _; split; [reflexivity|]; auto|].
  set (x := if 0 <? st_acks st then _ else _).
  assert (X : exists ecn er', x = (ecn, er') /\ 0 <= ecn /\ is_u32 er' /\
    (ecn = 0 <-> st_ecn st = 0)).
  { unfold x. destruct (Z.ltb_spec 0 (st_acks st)); [|eexists _, _; split; [reflexivity|]; unfold is_u32; lia].
    eexists _, _. split; [reflexivity|]. split; [bsplit; lia|]. split; [apply u32_range|]. bsplit; lia. }
  destruct X as (ecn & er' & -> & He0 & He' & Hiff).
  destruct (Z.ltb_spec 0 ecn).
  - eexists _, er'. split; [reflexivity|]. split; [exact He'|].
    pose proof (ecn_reduce win er' ltac:(lia) He'). rewrite (proj2 (Z.eqb_neq (st_ecn st) 0)) by lia.
    destruct (_ && _); lia.
  - rewrite (proj2 (Z.eqb_neq win 0)) by lia. cbn [negb obind assert_]. eexists _, er'.
    split; [reflexivity|]. split; [exact He'|].
    rewrite (proj2 (Z.ltb_ge 0 (st_ecn st))), (proj2 (Z.eqb_eq (st_ecn st) 0)) by lia. cbn [andb].
    change CONF_MSS with 1400. rewrite (u64_small (st_ackb st * 1400)) by lia.
    set (incr := st_ackb st * 1400 / win). assert (Hi : 0 <= incr <= st_ackb st).
    { split; [apply Z.div_pos; lia | apply Z.div_le_upper_bound; nia]. }
    destruct (Z.ltb_spec win (u32 (win + incr))); [|lia].
    split; [lia|]. destruct (Z.ltb_spec (win + incr) 4294967296);
      [rewrite u32_small by (unfold is_u32; lia); lia | mlia].
Qed.

(** C35.  With a send buffer of at least one segment, [dctcp_win_update] never
    fails and keeps the window between one segment and the send buffer's
    size.  After a loss the window is half of what it was (but at least one
    segment); when acknowledgements carried marks it loses at most half and
    never grows; without any sign of congestion it never shrinks and grows by
    no more than the acknowledged bytes. *)
Theorem dctcp_win_update_bounds cfg c cc st :
  stats_ok st -> 0 < cfg_tcp_link_bw cfg <= 11200 -> is_u32 (dw_ecn_rate cc) ->
  CONF_MSS <= dw_window cc <= cn_tx_len c -> cn_tx_len c < 4294967296 -> 0 <= cn_cc_rexmits c ->
  exists c' d, dctcp_win_update cfg c cc st = Ok c' /\ cn_cc c' = cc_dctcp_win d /\
    cn_cc_rexmits c' = 0 /\ 0 <= cn_cc_rate c' <= UINT32_MAX /\ is_u32 (dw_ecn_rate d) /\
    CONF_MSS <= dw_window d <= cn_tx_len c /\
    (if lost c st then dw_window d = Z.max CONF_MSS (dw_window cc / 2)
     else if 0 <? st_ecn st then dw_window cc / 2 <= dw_window d <= dw_window cc
     else dw_window cc <= dw_window d <= dw_window cc + st_ackb st).
Proof.
  intros Hst Hbw He Hw Ht Hrx. pose proof Hst as [H1 H2 H3 H4]. unfold dctcp_win_update, is_u32 in *.
  assert (Hmss : 0 < CONF_MSS) by reflexivity.
  rewrite (proj2 (Z.leb_le _ _)) by lia. cbn [obind assert_].
  set (rtt := if st_rtt st =? 0 then _ else _). set (win0 := dw_window cc) in *.
  set (x := if dw_slowstart cc then _ else _).
  (* the window after slow start, and whether slow start goes on *)
  assert (X : exists w1 slow, x = (w1, slow) /\
    (slow = true -> lost c st = false /\ st_ecn st = 0 /\ win0 <= w1 <= win0 + st_ackb st /\ w1 < 4294967296) /\
    (slow = false -> w1 = win0)).
  { unfold x, lost. destruct (dw_slowstart cc); [|eexists _, _; split; [reflexivity|]; split; [discriminate | auto]].
    destruct (_ && _) eqn:B; [|eexists _, _; split; [reflexivity|]; split; [discriminate | auto]].
    rewrite !andb_true_iff, !Z.eqb_eq in B. destruct B as ((B1 & B2) & B3).
    eexists _, _. split; [reflexivity|]. split; [intros _|discriminate]. rewrite B1, B2, B3.
    pose proof (u32_range (win0 + st_ackb st)) as R. unfold is_u32 in R.
    assert (u32 (win0 + st_ackb st) <= win0 + st_ackb st) by (apply Z.mod_le; lia).
    split_and!; auto; bsplit; lia. }
  destruct X as (w1 & slow & -> & Xs & Xa).
  assert (Y : exists w2 er, (if negb slow then dctcp_win_avoid cfg st (cn_cc_rexmits c) w1 (dw_ecn_rate cc)
      else Ok (w1, dw_ecn_rate cc)) = Ok (w2, er) /\ is_u32 er /\
    if lost c st then w2 = win0 / 2 else if 0 <? st_ecn st then win0 / 2 <= w2 <= win0
    else win0 <= w2 <= win0 + st_ackb st).
  { destruct slow; cbn [negb].
    - destruct (Xs eq_refl) as (-> & -> & B & _). eexists _, _. split; [reflexivity|]. auto.
    - rewrite (Xa eq_refl). destruct (dctcp_win_avoid_spec cfg st (cn_cc_rexmits c) win0 (dw_ecn_rate cc))
        as (w2 & er & -> & R & B); auto; [unfold CONF_MSS in *; lia|].
      exists w2, er. split; [reflexivity|]. split; [exact R|]. unfold lost. destruct (_ || _); [exact B|].
      destruct (Z.ltb_spec 0 (st_ecn st)); cbn [andb] in B.
      + destruct (0 <? st_acks st); [exact B|]. destruct (st_ecn st =? 0) eqn:Z0; [lia | exact B].
      + rewrite (proj2 (Z.eqb_eq (st_ecn st) 0)) in B by lia. exact B. }
  destruct Y as (w2 & er & -> & Rer & B). cbn [obind].
  set (w3 := if w2 <? CONF_MSS then CONF_MSS else w2).
  set (w4 := if cn_tx_len c <? w3 then cn_tx_len c else w3).
  assert (W4 : CONF_MSS <= w4 <= cn_tx_len c) by (unfold w4, w3; bsplit; lia).
  destruct (window_to_rate_ok cfg w4 rtt) as (r & -> & Hr); [lia | auto |]. cbn [obind].
  rewrite (proj2 (Z.leb_le _ _)) by lia. cbn [obind assert_].
  eexists _, (mk_dctcp_win er w4 slow). split; [reflexivity|].
  split_and!; try reflexivity; try apply Hr; try apply Rer; cbn [dw_window]; try lia.
  assert (0 <= win0 / 2 <= win0) by (unfold CONF_MSS in *; mlia).
  unfold w4, w3. destruct (lost c st); [|destruct (0 <? st_ecn st)]; bsplit; lia.
Qed.

(** A send buffer smaller than one segment makes the control loop abort
    at the first update of the connection. *)
Theorem dctcp_win_update_small_buffer cfg c cc st :
  cn_tx_len c < CONF_MSS -> forall c', dctcp_win_update cfg c cc st <> Ok c'.
Proof.
  intros Ht c' E. unfold dctcp_win_update in E. apply obind_ok in E as (_ & _ & E). cbv zeta in E.
  destruct (if dw_slowstart cc then _ else _) as [w1 slow]. apply obind_ok in E as ([w2 er] & _ & E).
  apply obind_ok in E as (r & _ & E). apply obind_ok in E as (u & A & _). revert A.
  rewrite (proj2 (Z.leb_gt _ _)); [discriminate|]. unfold CONF_MSS in *. bsplit; lia.
Qed.
