(* ===== verification/PacketMem.v ===== *)
(** The kernel's allocator for packet memory: kernel/packetmem.c.

    The free list is a singly linked list of handles nobody else points to, so
    it is a Coq list of blocks; a handle given out is the block itself.  At the
    end of the file the handles are structs in memory, and [packetmem_alloc] is
    cut between its search and its removal: what two threads can do to it that call it at
    the same time, since no lock is taken. *)
From stdpp Require Import base numbers list relations gmap.
From Stdlib Require Import ZArith Lia.
From S2P Require Import Prelude LinkedList.

(** ** Definitions *)

Record block := mk_block { pm_base : Z; pm_len : Z }.

Definition packetmem_init (size : Z) : list block := [mk_block 0 size].

(** [packetmem_alloc]: first fit; [None] is -1.  (A failing [malloc] for the
    handle also returns -1 and leaves the list alone.) *)
Fixpoint packetmem_alloc (l : list block) (length : Z) : option (list block * block) :=
  match l with
  | [] => None
  | ph :: l' =>
    if pm_len ph <? length then
      match packetmem_alloc l' length with
      | Some (l', h) => Some (ph :: l', h)
      | None => None
      end
    else if pm_len ph =? length then Some (l', ph)
    else Some (mk_block (u64 (pm_base ph + length)) (u64 (pm_len ph - length)) :: l',
               mk_block (pm_base ph) length)
  end.

(** The second half of [merge_items]: [ph] with its successor. *)
Definition merge_next (l : list block) : list block :=
  match l with
  | ph :: n :: l' =>
    if u64 (pm_base ph + pm_len ph) =? pm_base n
    then mk_block (pm_base ph) (u64 (pm_len ph + pm_len n)) :: l' else l
  | _ => l
  end.

(** [merge_items ph_prev] on the list from [ph_prev] on. *)
Definition merge_from (l : list block) : list block :=
  match l with
  | p :: ph :: l' =>
    if u64 (pm_base p + pm_len p) =? pm_base ph
    then merge_next (mk_block (pm_base p) (u64 (pm_len p + pm_len ph)) :: l')
    else p :: merge_next (ph :: l')
  | _ => l
  end.

(** The search loop of [packetmem_free], from [ph_prev = p], [ph] on: insert
    the handle behind [ph_prev] and merge. *)
Fixpoint free_after (p : block) (l : list block) (h : block) : list block :=
  match l with
  | ph :: ((n :: _) as l') =>
    if pm_base n <? pm_base h then p :: free_after ph l' h else merge_from (p :: h :: l)
  | _ => merge_from (p :: h :: l)
  end.

Definition packetmem_free (l : list block) (h : block) : list block :=
  match l with
  | ph :: ((n :: _) as l') =>
    if pm_base n <? pm_base h then free_after ph l' h else merge_next (h :: l)
  | _ => merge_next (h :: l)
  end.

(** ** Every byte has one owner *)

Definition block_ok (b : block) : Prop :=
  0 <= pm_base b /\ 0 <= pm_len b /\ pm_base b + pm_len b < 18446744073709551616.

(** How many of the blocks contain address [x]. *)
Definition in_block (b : block) (x : Z) : Z :=
  if (pm_base b <=? x) && (x <? pm_base b + pm_len b) then 1 else 0.
Fixpoint owners (l : list block) (x : Z) : Z :=
  match l with [] => 0 | b :: l' => in_block b x + owners l' x end.

Lemma in_block_split b n x : 0 <= n <= pm_len b ->
  in_block b x = in_block (mk_block (pm_base b) n) x + in_block (mk_block (pm_base b + n) (pm_len b - n)) x.
Proof. intros Hn. unfold in_block. cbn. bsplit; lia. Qed.

Lemma in_block_join a b x : 0 <= pm_len a -> 0 <= pm_len b -> pm_base a + pm_len a = pm_base b ->
  in_block (mk_block (pm_base a) (pm_len a + pm_len b)) x = in_block a x + in_block b x.
Proof. intros Ha Hb E. unfold in_block. cbn. bsplit; lia. Qed.

Lemma alloc_owners l n l' h :
  Forall block_ok l -> 0 <= n -> packetmem_alloc l n = Some (l', h) ->
  Forall block_ok l' /\ block_ok h /\ pm_len h = n /\ forall x, owners l x = owners l' x + in_block h x.
Proof.
  intros Hl Hn. revert l' h. induction Hl as [|b l [H1 [H2 H3]] Hl IH]; intros l' h; cbn [packetmem_alloc]; [discriminate|].
  destruct (Z.ltb_spec (pm_len b) n).
  - destruct (packetmem_alloc l n) as [[l1 h1]|]; [|discriminate]. intros [= <- <-].
    destruct (IH l1 h1 eq_refl) as (A & B & C & D). split_and!; auto.
    + constructor; auto. split_and!; auto.
    + intros x. cbn. rewrite D. lia.
  - destruct (Z.eqb_spec (pm_len b) n) as [E|E]; intros [= <- <-].
    + split_and!; auto; [split_and!; auto|]. intros x. cbn. lia.
    + rewrite !u64_small by lia. split_and!; auto.
      * constructor; auto. unfold block_ok. cbn. lia.
      * unfold block_ok. cbn. lia.
      * intros x. cbn [owners]. rewrite (in_block_split b n) by lia. lia.
Qed.

Lemma merge_next_owners l : Forall block_ok l ->
  Forall block_ok (merge_next l) /\ forall x, owners (merge_next l) x = owners l x.
Proof.
  intros Hl. destruct l as [|p [|n l]]; [split; auto..|]. cbn [merge_next].
  apply Forall_cons in Hl as [(P1 & P2 & P3) Hl]. apply Forall_cons in Hl as [(N1 & N2 & N3) Hl].
  rewrite (u64_small (pm_base p + pm_len p)) by lia.
  destruct (Z.eqb_spec (pm_base p + pm_len p) (pm_base n)) as [E|E].
  - rewrite u64_small by lia. split; [constructor; [unfold block_ok; cbn; lia | exact Hl]|].
    intros x. cbn [owners]. rewrite in_block_join by auto. lia.
  - split; [|reflexivity]. repeat constructor; auto.
Qed.

Lemma merge_from_owners l : Forall block_ok l ->
  Forall block_ok (merge_from l) /\ forall x, owners (merge_from l) x = owners l x.
Proof.
  intros Hl. destruct l as [|p [|n l]]; [split; auto..|]. cbn [merge_from].
  apply Forall_cons in Hl as [Hp Hl]. pose proof Hp as (P1 & P2 & P3).
  pose proof Hl as Hl0. apply Forall_cons in Hl0 as [(N1 & N2 & N3) Hl'].
  rewrite (u64_small (pm_base p + pm_len p)) by lia.
  destruct (Z.eqb_spec (pm_base p + pm_len p) (pm_base n)) as [E|E].
  - rewrite u64_small by lia.
    destruct (merge_next_owners (mk_block (pm_base p) (pm_len p + pm_len n) :: l)) as [A B];
      [constructor; [unfold block_ok; cbn; lia | exact Hl']|].
    split; [exact A|]. intros x. rewrite B. cbn [owners]. rewrite in_block_join by auto. lia.
  - destruct (merge_next_owners (n :: l) Hl) as [A B]. split; [constructor; auto|].
    intros x. cbn [owners] in *. rewrite B. lia.
Qed.

Lemma free_after_owners p l h : Forall block_ok (p :: l) -> block_ok h ->
  Forall block_ok (free_after p l h) /\
  forall x, owners (free_after p l h) x = owners (p :: l) x + in_block h x.
Proof.
  revert p. induction l as [|ph l IH]; intros p Hl Hh.
  - destruct (merge_from_owners [p; h]) as [A B]; [apply Forall_cons in Hl as [? _]; auto|].
    split; [exact A|]. intros x. cbn [free_after]. rewrite B. cbn [owners]. lia.
  - assert (Stop : Forall block_ok (merge_from (p :: h :: ph :: l)) /\
      forall x, owners (merge_from (p :: h :: ph :: l)) x = owners (p :: ph :: l) x + in_block h x).
    { apply Forall_cons in Hl as [Hp Hl].
      destruct (merge_from_owners (p :: h :: ph :: l)) as [A B]; [auto|].
      split; [exact A|]. intros x. rewrite B. cbn [owners]. lia. }
    destruct l as [|n l]; [exact Stop|].
    change (free_after p (ph :: n :: l) h) with
      (if pm_base n <? pm_base h then p :: free_after ph (n :: l) h else merge_from (p :: h :: ph :: n :: l)).
    destruct (pm_base n <? pm_base h); [|exact Stop].
    apply Forall_cons in Hl as [Hp Hl]. destruct (IH ph Hl Hh) as [A B]. split; [constructor; auto|].
    intros x. specialize (B x). cbn [owners] in *. lia.
Qed.

Lemma free_owners l h : Forall block_ok l -> block_ok h ->
  Forall block_ok (packetmem_free l h) /\ forall x, owners (packetmem_free l h) x = owners l x + in_block h x.
Proof.
  intros Hl Hh.
  assert (Head : Forall block_ok (merge_next (h :: l)) /\
    forall x, owners (merge_next (h :: l)) x = owners l x + in_block h x).
  { destruct (merge_next_owners (h :: l)) as [A B]; [auto|]. split; [exact A|].
    intros x. rewrite B. cbn [owners]. lia. }
  destruct l as [|ph [|n l]]; [exact Head..|]. cbn [packetmem_free].
  destruct (pm_base n <? pm_base h); [|exact Head].
  exact (free_after_owners ph (n :: l) h Hl Hh).
Qed.

(** ** Sequences of operations *)

(** The allocator with the handles that were given out and not returned. *)
Record pm_state := mk_pm_state { pms_free : list block; pms_used : list block }.

Inductive pm_step : pm_state -> pm_state -> Prop :=
| pm_step_alloc f u n f' h :
    0 <= n -> packetmem_alloc f n = Some (f', h) -> pm_step (mk_pm_state f u) (mk_pm_state f' (h :: u))
| pm_step_free f u1 h u2 :
    pm_step (mk_pm_state f (u1 ++ h :: u2)) (mk_pm_state (packetmem_free f h) (u1 ++ u2)).

Lemma owners_app l k x : owners (l ++ k) x = owners l x + owners k x.
Proof. induction l as [|b l IH]; cbn; lia. Qed.

Definition pm_ok (s : pm_state) : Prop := Forall block_ok (pms_free s) /\ Forall block_ok (pms_used s).

Lemma pm_step_owners s s' : pm_ok s -> pm_step s s' ->
  pm_ok s' /\ forall x, owners (pms_free s') x + owners (pms_used s') x = owners (pms_free s) x + owners (pms_used s) x.
Proof.
  intros [Hf Hu] St. destruct St as [f u n f' h Hn E|f u1 h u2]; cbn [pms_free pms_used] in *.
  - destruct (alloc_owners f n f' h Hf Hn E) as (A & B & _ & D). split; [split; cbn; auto|].
    intros x. specialize (D x). cbn [owners]. lia.
  - apply Forall_app in Hu as [Hu1 Hu2]. apply Forall_cons in Hu2 as [Hh Hu2].
    destruct (free_owners f h Hf Hh) as [A B]. split; [split; cbn; auto; apply Forall_app; auto|].
    intros x. specialize (B x). rewrite !owners_app in *. cbn [owners]. lia.
Qed.

Lemma pm_steps_owners s s' : rtc pm_step s s' -> pm_ok s ->
  pm_ok s' /\ forall x, owners (pms_free s') x + owners (pms_used s') x = owners (pms_free s) x + owners (pms_used s) x.
Proof.
  induction 1 as [s|s s1 s2 St _ IH]; intros O; [auto|].
  destruct (pm_step_owners _ _ O St) as [O1 D1]. destruct (IH O1) as [O2 D2].
  split; [exact O2|]. intros x. now rewrite D2.
Qed.

(** C36.  After any sequence of allocations and releases of outstanding handles,
    every byte of packet memory belongs to exactly one block, free or
    allocated: allocations never overlap, nothing outside the memory is handed
    out, and no byte is lost. *)
Theorem packetmem_partition size s x :
  0 <= size < 18446744073709551616 ->
  rtc pm_step (mk_pm_state (packetmem_init size) []) s ->
  owners (pms_free s) x + owners (pms_used s) x = if (0 <=? x) && (x <? size) then 1 else 0.
Proof.
  intros Hs R. destruct (pm_steps_owners _ _ R) as [_ D].
  { split; cbn; [|constructor]. constructor; [unfold block_ok; cbn; lia | constructor]. }
  rewrite D. cbn -[Z.leb Z.ltb]. unfold in_block. cbn [pm_base pm_len]. now rewrite !Z.add_0_r.
Qed.

(** The free list is not kept in the order of addresses, and blocks are
    not always merged: after two allocations and their release, all of the
    memory is free and yet cannot be allocated in one piece. *)
Theorem packetmem_not_merged :
  exists a b f1 f2,
    packetmem_alloc (packetmem_init 100) 40 = Some (f1, a) /\
    packetmem_alloc f1 60 = Some (f2, b) /\
    packetmem_free (packetmem_free f2 a) b = [mk_block 40 60; mk_block 0 40] /\
    packetmem_alloc (packetmem_free (packetmem_free f2 a) b) 100 = None.
Proof.
  exists (mk_block 0 40), (mk_block 40 60), [mk_block 40 60], []. repeat split; reflexivity.
Qed.

(** ** Handles in memory, and allocation in two steps *)

Record packetmem_handle := mk_packetmem_handle { ph_base : Z; ph_len : Z; ph_next : option Z }.
#[export] Instance eta_packetmem_handle : Eta packetmem_handle := fun h => mk_packetmem_handle (ph_base h) (ph_len h) (ph_next h).
#[export] Instance inhabited_packetmem_handle : Inhabited packetmem_handle := populate (mk_packetmem_handle 0 0 None).
Record pm_store := mk_pm_store { ps_handles : gmap Z packetmem_handle; ps_freelist : option Z }.
#[export] Instance eta_pm_store : Eta pm_store := fun s => mk_pm_store (ps_handles s) (ps_freelist s).
Definition phget (s : pm_store) (p : Z) : packetmem_handle := ps_handles s !!! p.
Definition ph_put (s : pm_store) (p : Z) (h : packetmem_handle) : pm_store := s <| ps_handles := <[p := h]> (ps_handles s) |>.

(** The search for the first fit: [ph_prev] and [ph]. *)
Fixpoint alloc_search (fuel : nat) (s : pm_store) (length : Z) (ph_prev ph : option Z) : outcome (option (option Z * Z)) :=
  match ph with
  | None => Ok None
  | Some p =>
      match fuel with
      | O => Spin
      | S fuel =>
          if ph_len (phget s p) <? length then alloc_search fuel s length (Some p) (ph_next (phget s p))
          else Ok (Some (ph_prev, p))
      end
  end.

(** What is done with its result; [ph_new] is what [ph_alloc] returns.  The second
    component is [handle]. *)
Definition alloc_take (s : pm_store) (length : Z) (ph_prev : option Z) (ph ph_new : Z) : pm_store * Z :=
  let h := phget s ph in
  if ph_len h =? length then
    (match ph_prev with
     | None => s <| ps_freelist := ph_next h |>
     | Some q => ph_put s q (phget s q <| ph_next := ph_next h |>)
     end, ph)
  else
    let s := ph_put s ph_new (mk_packetmem_handle (ph_base h) length None) in
    (ph_put s ph (mk_packetmem_handle (u64 (ph_base h + length)) (u64 (ph_len h - length)) (ph_next h)), ph_new).

(** The whole call. *)
Definition packetmem_alloc_mem (fuel : nat) (s : pm_store) (length ph_new : Z) : outcome (pm_store * option Z) :=
  let! r := alloc_search fuel s length None (ps_freelist s) in
  match r with
  | None => Ok (s, None)
  | Some (ph_prev, ph) => let '(s, h) := alloc_take s length ph_prev ph ph_new in Ok (s, Some h)
  end.

Definition blk (s : pm_store) (p : Z) : block := mk_block (ph_base (phget s p)) (ph_len (phget s p)).
(** The free list consists of the handles [ps], with the blocks [l]. *)
Record free_list (s : pm_store) (ps : list Z) (l : list block) : Prop := mk_free_list
  { fl_chain : chain (fun p => ph_next (phget s p)) (ps_freelist s) ps None; fl_once : NoDup ps; fl_blocks : map (blk s) ps = l }.

Lemma phget_put s p h q : phget (ph_put s p h) q = if decide (q = p) then h else phget s q.
Proof.
  unfold phget, ph_put. cbn. destruct (decide (q = p)) as [->|N]; [apply lookup_total_insert_eq|].
  now rewrite lookup_total_insert_ne by congruence.
Qed.

Lemma alloc_search_fit s n ps1 : forall fuel prev ph p ps2,
  chain (fun p => ph_next (phget s p)) ph (ps1 ++ p :: ps2) None ->
  Forall (fun q => ph_len (phget s q) < n) ps1 -> n <= ph_len (phget s p) -> (length ps1 < fuel)%nat ->
  alloc_search fuel s n prev ph = Ok (Some (match last ps1 with Some q => Some q | None => prev end, p)).
Proof.
  induction ps1 as [|q ps1 IH]; intros [|fuel] prev ph p ps2 C F L Hf; cbn [app length] in *; try lia;
    apply chain_cons_inv in C as [-> C]; cbn [alloc_search].
  - now rewrite (proj2 (Z.ltb_ge _ _)) by lia.
  - apply Forall_cons in F as [Fq F]. rewrite (proj2 (Z.ltb_lt _ _)) by exact Fq.
    rewrite (IH fuel (Some q) _ p ps2 C F L) by lia. destruct ps1 as [|q' ps1]; [reflexivity|].
    cbn [last]. now destruct (last (q' :: ps1)) eqn:E; [|apply last_None in E].
Qed.

Lemma alloc_search_none s n ps : forall fuel prev ph,
  chain (fun p => ph_next (phget s p)) ph ps None -> Forall (fun q => ph_len (phget s q) < n) ps -> (length ps <= fuel)%nat ->
  alloc_search fuel s n prev ph = Ok None.
Proof.
  induction ps as [|q ps IH]; intros fuel prev ph C F Hf.
  - apply chain_nil_inv in C as ->. now destruct fuel.
  - apply chain_cons_inv in C as [-> C]. apply Forall_cons in F as [Fq F]. destruct fuel as [|fuel]; [cbn in Hf; lia|].
    cbn [alloc_search]. rewrite (proj2 (Z.ltb_lt _ _)) by exact Fq. apply IH; auto. cbn in Hf. lia.
Qed.

(** Unlinking a handle of the right length. *)
Lemma alloc_take_exact s n ps1 p ps2 l new :
  free_list s (ps1 ++ p :: ps2) l -> ph_len (phget s p) = n ->
  let r := alloc_take s n (last ps1) p new in
  r.2 = p /\ blk r.1 p = blk s p /\ free_list r.1 (ps1 ++ ps2) (map (blk s) (ps1 ++ ps2)).
Proof.
  intros [C O B] E. unfold alloc_take. rewrite E, Z.eqb_refl. cbn [fst snd]. split; [reflexivity|].
  pose proof O as O'. apply NoDup_app in O' as (O1 & D & O2). apply NoDup_cons in O2 as [N2 O2].
  assert (O3 : NoDup (ps1 ++ ps2)).
  { apply NoDup_app. split; [exact O1|]. split; [|exact O2]. intros x Hx Hx2. apply (D x Hx). now right. }
  destruct (last ps1) as [q|] eqn:L.
  - apply last_Some in L as [ps0 ->]. set (s' := ph_put s q _).
    assert (G : forall x, x <> q -> phget s' x = phget s x) by (intros x N; unfold s'; now rewrite phget_put, decide_False).
    assert (Gq : phget s' q = phget s q <| ph_next := ph_next (phget s p) |>) by (unfold s'; now rewrite phget_put, decide_True).
    assert (K : forall x, blk s' x = blk s x).
    { intros x. unfold blk. destruct (decide (x = q)) as [->|N]; [now rewrite Gq|now rewrite G]. }
    apply NoDup_app in O1 as (_ & Dq & _).
    split; [apply K|]. split; [|exact O3|apply map_ext; exact K].
    rewrite <- app_assoc in C |- *. cbn [app] in C |- *. apply chain_app in C as (r & C1 & C2).
    apply chain_cons_inv in C2 as [-> C2]. apply chain_cons_inv in C2 as [_ C2].
    apply chain_app. exists (Some q). split.
    + eapply chain_ext; [|exact C1]. intros x Hx. cbn. rewrite G; [reflexivity|]. intros ->. apply (Dq q Hx). now left.
    + constructor. rewrite Gq. cbn [ph_next upd eta_packetmem_handle]. eapply chain_ext; [|exact C2].
      intros x Hx. cbn. rewrite G; [reflexivity|]. intros ->. apply (D q); [apply elem_of_app; right; now left|now right].
  - apply last_None in L as ->. cbn [app] in *. apply chain_cons_inv in C as [_ C].
    split; [reflexivity|]. split; [exact C|exact O2|reflexivity].
Qed.

(** Cutting a piece off a handle that is longer. *)
Lemma alloc_take_split s n prev ps1 p ps2 l new :
  free_list s (ps1 ++ p :: ps2) l -> new ∉ ps1 ++ p :: ps2 -> ph_len (phget s p) <> n ->
  let b := blk s p in let r := alloc_take s n prev p new in
  r.2 = new /\ blk r.1 new = mk_block (pm_base b) n /\
  free_list r.1 (ps1 ++ p :: ps2)
    (map (blk s) ps1 ++ mk_block (u64 (pm_base b + n)) (u64 (pm_len b - n)) :: map (blk s) ps2).
Proof.
  intros [C O B] Nn E. unfold alloc_take. rewrite (proj2 (Z.eqb_neq _ _) E). cbn [fst snd].
  set (s' := ph_put (ph_put s new _) p _). rewrite elem_of_app, elem_of_cons in Nn.
  assert (Np : p <> new) by intuition congruence.
  assert (G : forall x, x <> new -> x <> p -> phget s' x = phget s x)
    by (intros x N1 N2; unfold s'; now rewrite !phget_put, !decide_False).
  assert (Gp : phget s' p = mk_packetmem_handle (u64 (ph_base (phget s p) + n)) (u64 (ph_len (phget s p) - n)) (ph_next (phget s p)))
    by (unfold s'; now rewrite phget_put, decide_True).
  split; [reflexivity|]. split.
  { unfold blk at 1, s'. rewrite phget_put, decide_False, phget_put, decide_True by congruence. reflexivity. }
  apply NoDup_app in O as O'. destruct O' as (O1 & D & O2). apply NoDup_cons in O2 as [N2 O2].
  split; [|exact O|].
  - eapply chain_ext; [|exact C]. intros x Hx. cbn. destruct (decide (x = p)) as [->|N]; [now rewrite Gp|].
    rewrite G; [reflexivity| |exact N]. rewrite elem_of_app, elem_of_cons in Hx. intros ->. intuition.
  - assert (K : forall x, x <> new -> x <> p -> blk s' x = blk s x) by (intros x N1 N2'; unfold blk; now rewrite G).
    rewrite map_app. cbn [map]. f_equal; [|f_equal].
    + apply map_ext_in. intros x Hx%list_elem_of_In. apply K; [intros ->; tauto|]. intros ->. apply (D p Hx). now left.
    + unfold blk. now rewrite Gp.
    + apply map_ext_in. intros x Hx%list_elem_of_In. apply K; [intros ->; tauto|congruence].
Qed.

Lemma packetmem_alloc_none l n : Forall (fun b => pm_len b < n) l -> packetmem_alloc l n = None.
Proof. induction 1 as [|b l L F IH]; cbn [packetmem_alloc]; [reflexivity|]. now rewrite (proj2 (Z.ltb_lt _ _) L), IH. Qed.
Lemma packetmem_alloc_fit l1 b l2 n : Forall (fun b => pm_len b < n) l1 -> n <= pm_len b ->
  packetmem_alloc (l1 ++ b :: l2) n =
    if pm_len b =? n then Some (l1 ++ l2, b)
    else Some (l1 ++ mk_block (u64 (pm_base b + n)) (u64 (pm_len b - n)) :: l2, mk_block (pm_base b) n).
Proof.
  intros F L. induction F as [|c l1 Lc F IH]; cbn [app packetmem_alloc].
  - rewrite (proj2 (Z.ltb_ge _ _) L). now destruct (_ =? _).
  - rewrite (proj2 (Z.ltb_lt _ _) Lc), IH. now destruct (_ =? _).
Qed.
Lemma first_fit s n ps : Forall (fun q => ph_len (phget s q) < n) ps \/
  exists ps1 p ps2, ps = ps1 ++ p :: ps2 /\ Forall (fun q => ph_len (phget s q) < n) ps1 /\ n <= ph_len (phget s p).
Proof.
  induction ps as [|q ps IH]; [left; constructor|]. destruct (Z.lt_ge_cases (ph_len (phget s q)) n) as [L|L].
  - destruct IH as [F|(ps1 & p & ps2 & -> & F & L')]; [left; now constructor|right].
    exists (q :: ps1), p, ps2. split_and!; auto.
  - right. exists [], q, ps. split_and!; auto.
Qed.

(** On structs in memory the call does what [packetmem_alloc] does to the list of
    blocks, when nothing comes between its two steps. *)
Theorem packetmem_alloc_mem_refines fuel s ps l n new :
  free_list s ps l -> new ∉ ps -> (length ps < fuel)%nat ->
  match packetmem_alloc l n with
  | None => packetmem_alloc_mem fuel s n new = Ok (s, None)
  | Some (l', b) => exists s' h ps', packetmem_alloc_mem fuel s n new = Ok (s', Some h) /\ blk s' h = b /\ free_list s' ps' l'
  end.
Proof.
  intros R Nn Hf. pose proof R as [C O B]. unfold packetmem_alloc_mem.
  destruct (first_fit s n ps) as [F|(ps1 & p & ps2 & -> & F & L)].
  - rewrite (alloc_search_none s n ps) by (auto; lia). rewrite <- B, packetmem_alloc_none; [reflexivity|]. now apply Forall_map.
  - rewrite (alloc_search_fit s n ps1 fuel None _ p ps2 C F L) by (rewrite length_app in Hf; lia). cbn [obind].
    assert (El : match last ps1 with Some q => Some q | None => None end = last ps1) by now destruct (last ps1). rewrite El.
    rewrite <- B, map_app. cbn [map]. rewrite packetmem_alloc_fit by (now apply Forall_map || exact L).
    change (pm_len (blk s p)) with (ph_len (phget s p)). destruct (Z.eqb_spec (ph_len (phget s p)) n) as [E|E].
    + pose proof (alloc_take_exact s n ps1 p ps2 l new R E) as T. cbv zeta in T.
      destruct (alloc_take s n (last ps1) p new) as [s' h]. cbn [fst snd] in T. destruct T as (-> & Eb & R').
      exists s', p, (ps1 ++ ps2). rewrite <- map_app. auto.
    + pose proof (alloc_take_split s n (last ps1) ps1 p ps2 l new R Nn E) as T. cbv zeta in T.
      destruct (alloc_take s n (last ps1) p new) as [s' h]. cbn [fst snd] in T. destruct T as (-> & Eb & R').
      exists s', new, (ps1 ++ p :: ps2). auto.
Qed.

(** Without a lock the two steps of one call can come between those of another:
    when both threads have searched before either removes, and the first fit has the
    length asked for, both get the same handle, and every byte of it has two owners. *)
Theorem packetmem_alloc_overlaps fuel s ps1 p ps2 l n new1 new2 x :
  free_list s (ps1 ++ p :: ps2) l -> Forall (fun q => ph_len (phget s q) < n) ps1 -> ph_len (phget s p) = n ->
  (length (ps1 ++ p :: ps2) < fuel)%nat ->
  alloc_search fuel s n None (ps_freelist s) = Ok (Some (last ps1, p)) /\
  let (s1, h1) := alloc_take s n (last ps1) p new1 in
  let (s2, h2) := alloc_take s1 n (last ps1) p new2 in
  h1 = p /\ h2 = p /\ owners [blk s2 h1; blk s2 h2] x = 2 * in_block (blk s p) x.
Proof.
  intros R F E Hf. pose proof R as [C O B]. split.
  { rewrite (alloc_search_fit s n ps1 fuel None _ p ps2 C F) by (rewrite ?length_app in Hf; lia). now destruct (last ps1). }
  pose proof (alloc_take_exact s n ps1 p ps2 l new1 R E) as T. cbv zeta in T.
  destruct (alloc_take s n (last ps1) p new1) as [s1 h1]. cbn [fst snd] in T. destruct T as (-> & Eb & R1).
  assert (E1 : ph_len (phget s1 p) = n) by (change (pm_len (blk s1 p) = n); now rewrite Eb).
  unfold alloc_take. rewrite E1, Z.eqb_refl.
  assert (K : blk (match last ps1 with
     | Some q => ph_put s1 q (phget s1 q <| ph_next := ph_next (phget s1 p) |>)
     | None => s1 <| ps_freelist := ph_next (phget s1 p) |> end) p = blk s1 p).
  { destruct (last ps1) as [q|]; [|reflexivity]. unfold blk. rewrite phget_put. destruct (decide (p = q)) as [->|]; reflexivity. }
  split; [reflexivity|]. split; [reflexivity|]. cbn [owners]. rewrite K, Eb. lia.
Qed.
