(* ===== verification/KernelState.v ===== *)
(** State of the kernel process (kernel/internal.h, kernel/appif.h) and the
    helpers its modules share: connection structs, messages to applications
    (kernel/appif_ctx.c), control segments and option parsing (kernel/tcp.c).

    Structs are in finite maps indexed by their address; [malloc] is an
    argument: the address it returns, [None] when it fails.  A list threaded
    through the structs of one owner is a list of addresses. *)
From stdpp Require Import base numbers list gmap.
From Stdlib Require Import ZArith Lia.
From S2P Require Import Prelude LinkedList Timeout Qman Packet FlowState TcpCommon Dma FastPath FastRx Queues NicIf CC PacketMem.

(** ** Connections and listeners *)

Inductive connection_status :=
| CONN_SYN_WAIT | CONN_ARP_PENDING | CONN_SYN_SENT | CONN_REG_SYNACK | CONN_OPEN | CONN_FAILED.
#[export] Instance connection_status_eq_dec : EqDecision connection_status.
Proof. solve_decision. Defined.

(** [struct connection].  [kn_cc] are the members congestion control works on
    (it also holds [flow_id], [flow_group] and [tx_len]); buffers are offsets
    into the packet memory. *)
Record connection := mk_connection
  { kn_opaque : Z; kn_ctx : Z; kn_db_id : Z;
    kn_rx_handle : block; kn_tx_handle : block; kn_rx_buf : Z; kn_tx_buf : Z; kn_rx_len : Z;
    kn_remote_mac : Z; kn_remote_ip : Z; kn_local_ip : Z; kn_remote_port : Z; kn_local_port : Z;
    kn_status : connection_status; kn_remote_seq : Z; kn_local_seq : Z; kn_linux_seq : Z;
    kn_syn_ts : Z; kn_syn_ecr : Z;
    kn_timeout : Z; kn_to_attempts : Z; kn_to_armed : bool;
    kn_cc : cc_conn; kn_comp_status : Z; kn_fn_core : Z; kn_flags : Z }.
#[export] Instance eta_connection : Eta connection := fun c => mk_connection
  (kn_opaque c) (kn_ctx c) (kn_db_id c) (kn_rx_handle c) (kn_tx_handle c) (kn_rx_buf c) (kn_tx_buf c)
  (kn_rx_len c) (kn_remote_mac c) (kn_remote_ip c) (kn_local_ip c) (kn_remote_port c) (kn_local_port c)
  (kn_status c) (kn_remote_seq c) (kn_local_seq c) (kn_linux_seq c) (kn_syn_ts c) (kn_syn_ecr c)
  (kn_timeout c) (kn_to_attempts c) (kn_to_armed c) (kn_cc c) (kn_comp_status c) (kn_fn_core c) (kn_flags c).
#[export] Instance connection_inhabited : Inhabited connection := populate
  (mk_connection 0 0 0 (mk_block 0 0) (mk_block 0 0) 0 0 0 0 0 0 0 0 CONN_FAILED 0 0 0 0 0 0 0 false
     (mk_cc_conn 0 0 false 0 0 0 0 0 cc_none 0 0) 0 0 0).

Definition kn_flow_id (c : connection) : Z := cn_flow_id (kn_cc c).
Definition kn_flow_group (c : connection) : Z := cn_flow_group (kn_cc c).
Definition kn_tx_len (c : connection) : Z := cn_tx_len (kn_cc c).

(** [status] is read by congestion control as well. *)
Definition set_status (c : connection) (st : connection_status) : connection :=
  c <| kn_status := st |> <| kn_cc := kn_cc c <| cn_open := bool_decide (st = CONN_OPEN) |> |>.

(** [struct backlog_slot] and the arrays beside it: packet bytes, length, core
    and flow group. *)
Record backlog_slot := mk_backlog_slot { bl_buf : list Z; bl_len : Z; bl_core : Z; bl_fg : Z }.
#[export] Instance backlog_slot_inhabited : Inhabited backlog_slot := populate (mk_backlog_slot [] 0 0 0).

(** [struct listener]; [ln_backlog] are the backlog arrays by position. *)
Record listener := mk_listener
  { ln_opaque : Z; ln_ctx : Z; ln_backlog_len : Z; ln_backlog_pos : Z; ln_backlog_used : Z;
    ln_backlog : gmap Z backlog_slot; ln_wait_conns : list Z; ln_port : Z; ln_flags : Z }.
#[export] Instance eta_listener : Eta listener := fun l => mk_listener
  (ln_opaque l) (ln_ctx l) (ln_backlog_len l) (ln_backlog_pos l) (ln_backlog_used l) (ln_backlog l)
  (ln_wait_conns l) (ln_port l) (ln_flags l).
#[export] Instance listener_inhabited : Inhabited listener := populate (mk_listener 0 0 0 0 0 ∅ [] 0 0).

(** An entry of the port table: a pointer tagged in its low bits. *)
Inductive port_entry :=
| PORT_TYPE_UNUSED | PORT_TYPE_LISTEN (l : Z) | PORT_TYPE_LMULTI (lm : Z) | PORT_TYPE_CONN (c : Z).
#[export] Instance port_entry_inhabited : Inhabited port_entry := populate PORT_TYPE_UNUSED.

(** ** Applications *)

(** [struct kernel_appin]: the members an entry of its type uses; the
    parameters of a connection are only written when [status] is 0. *)
Record conn_info := mk_conn_info
  { ci_rx_off : Z; ci_tx_off : Z; ci_rx_len : Z; ci_tx_len : Z; ci_seq_rx : Z; ci_seq_tx : Z;
    ci_flow_id : Z; ci_local_ip : Z; ci_fn_core : Z }.

Inductive kernel_appin :=
| KERNEL_APPIN_INVALID
| KERNEL_APPIN_STATUS_CONN_MOVE (opaque status : Z)
| KERNEL_APPIN_STATUS_LISTEN_OPEN (opaque status : Z)
| KERNEL_APPIN_CONN_OPENED (opaque status : Z) (i : option (conn_info * Z))        (* local_port *)
| KERNEL_APPIN_LISTEN_NEWCONN (opaque remote_ip remote_port : Z)
| KERNEL_APPIN_ACCEPTED_CONN (opaque status : Z) (i : option (conn_info * Z * Z)). (* remote ip, port *)
#[export] Instance kernel_appin_inhabited : Inhabited kernel_appin := populate KERNEL_APPIN_INVALID.

Inductive kernel_appout :=
| KERNEL_APPOUT_INVALID
| KERNEL_APPOUT_CONN_OPEN (opaque remote_ip flags remote_port : Z)
| KERNEL_APPOUT_CONN_CLOSE
| KERNEL_APPOUT_CONN_MOVE (opaque remote_ip local_ip remote_port local_port db_id : Z)
| KERNEL_APPOUT_LISTEN_OPEN (opaque backlog local_port flags : Z)
| KERNEL_APPOUT_LISTEN_CLOSE
| KERNEL_APPOUT_ACCEPT_CONN (listen_opaque conn_opaque local_port : Z)
| KERNEL_APPOUT_REQ_SCALE (num_cores : Z).
#[export] Instance kernel_appout_inhabited : Inhabited kernel_appout := populate KERNEL_APPOUT_INVALID.

(** [struct app_context]: the two queues shared with the application. *)
Record app_context := mk_app_context
  { ax_app : Z; ax_kin : gmap Z kernel_appout; ax_kin_len : Z; ax_kin_pos : Z;
    ax_kout : gmap Z kernel_appin; ax_kout_len : Z; ax_kout_pos : Z;
    ax_doorbell_id : Z; ax_evfd : Z; ax_last_ts : Z }.
#[export] Instance eta_app_context : Eta app_context := fun a => mk_app_context
  (ax_app a) (ax_kin a) (ax_kin_len a) (ax_kin_pos a) (ax_kout a) (ax_kout_len a) (ax_kout_pos a)
  (ax_doorbell_id a) (ax_evfd a) (ax_last_ts a).
#[export] Instance app_context_inhabited : Inhabited app_context := populate
  (mk_app_context 0 ∅ 0 0 ∅ 0 0 0 0 0).

Record application := mk_application
  { ap_contexts : list Z; ap_conns : list Z; ap_listeners : list Z }.
#[export] Instance eta_application : Eta application := fun a =>
  mk_application (ap_contexts a) (ap_conns a) (ap_listeners a).
#[export] Instance application_inhabited : Inhabited application := populate (mk_application [] [] []).

(** ** ARP cache and routing table *)

(** [struct arp_entry]; [ae_compl] are the connections waiting for it. *)
Record arp_entry := mk_arp_entry
  { ae_status : Z; ae_ip : Z; ae_mac : Z; ae_compl : list Z; ae_timeout : Z }.
#[export] Instance eta_arp_entry : Eta arp_entry := fun a => mk_arp_entry
  (ae_status a) (ae_ip a) (ae_mac a) (ae_compl a) (ae_timeout a).
#[export] Instance arp_entry_inhabited : Inhabited arp_entry := populate (mk_arp_entry 0 0 0 [] 0).

Record routing_table_entry := mk_rte { rt_dest_ip : Z; rt_dest_mask : Z; rt_next_hop : Z }.

(** ** The process *)

(** The members of [struct configuration] used outside congestion control. *)
Record kconfig := mk_kconfig
  { cf_tcp_rxbuf_len : Z; cf_tcp_txbuf_len : Z; cf_tcp_handshake_to : Z; cf_tcp_handshake_retries : Z;
    cf_ip : Z; cf_ip_prefix : Z; cf_routes : list (Z * Z * Z);  (* ip, prefix length, next hop *)
    cf_arp_to : Z; cf_arp_to_max : Z; cf_cc : cc_config }.

(** What the kernel takes from its surroundings: the configuration, checksum
    functions of DPDK, the MAC addresses, and the contents of fresh memory. *)
Class KEnv := mk_kenv
  { config : kconfig;
    rte_ipv4_cksum : ip_hdr -> Z;
    rte_ipv4_udptcp_cksum : ip_hdr -> list Z -> Z;
    info_mac_addr : Z;                       (* flexnic_info->mac_addr *)
    TAP_MAC : list Z;
    cur_ts : Z;                              (* time of this round of the main loop *)
    conn_junk : connection; cc_junk : Z }.

Record kst := mk_kst
  { k_conns : gmap Z connection; k_listeners : gmap Z listener; k_lmulti : gmap Z (list Z);
    k_ports : gmap Z port_entry; k_port_eph_hint : Z;
    k_async : list Z;                        (* conn_async_q, oldest first *)
    k_tcp_conns : list Z; k_rng : Z;
    k_timers : timeout_manager; k_pm : list block; k_nic : nic;
    k_arp : gmap Z arp_entry; k_arp_table : list Z; k_routes : list routing_table_entry;
    k_ctx : gmap Z app_context; k_app : gmap Z application;
    k_tap : list (list Z); k_kicks : list Z }.
#[export] Instance eta_kst : Eta kst := fun s => mk_kst
  (k_conns s) (k_listeners s) (k_lmulti s) (k_ports s) (k_port_eph_hint s) (k_async s) (k_tcp_conns s)
  (k_rng s) (k_timers s) (k_pm s) (k_nic s) (k_arp s) (k_arp_table s) (k_routes s) (k_ctx s) (k_app s)
  (k_tap s) (k_kicks s).

(** The names of the timers embedded in a connection and in an ARP entry: the
    structs do not overlap, so their timers are apart. *)
Definition conn_timer (c : Z) : Z := 2 * c.
Definition arp_timer (e : Z) : Z := 2 * e + 1.
(** The struct a timer is embedded in ([offsetof]). *)
Definition timer_owner (to : Z) : Z := to / 2.

Definition kconn (s : kst) (c : Z) : connection := k_conns s !!! c.
Definition put_conn (s : kst) (c : Z) (x : connection) : kst :=
  s <| k_conns := <[c := x]> (k_conns s) |>.
Definition klisten (s : kst) (l : Z) : listener := k_listeners s !!! l.
Definition put_listen (s : kst) (l : Z) (x : listener) : kst :=
  s <| k_listeners := <[l := x]> (k_listeners s) |>.
Definition kctx (s : kst) (x : Z) : app_context := k_ctx s !!! x.
Definition put_ctx (s : kst) (i : Z) (x : app_context) : kst := s <| k_ctx := <[i := x]> (k_ctx s) |>.

(** [nbqueue_enq] and [nbqueue_deq] (include/utils_nbqueue.h), run to
    completion under the queue's lock: elements come out in the order they
    went in. *)
Definition nbqueue_enq (q : list Z) (el : Z) : list Z := q ++ [el].
Definition nbqueue_deq (q : list Z) : list Z * option Z :=
  match q with [] => ([], None) | el :: q => (q, Some el) end.

Definition TO_ARP_REQ : Z := 0.
Definition TO_TCP_HANDSHAKE : Z := 1.
Definition TO_TCP_RETRANSMIT : Z := 2.
Definition TCP_MSS : Z := 1460.
Definition PKTBUF_SIZE : Z := 1536.

Section Ops.
Context `{Platform} `{KEnv}.

(** ** Allocation of connections *)

(** [conn_alloc]; [mp] is what [malloc] returns. *)
Definition conn_alloc (s : kst) (mp : option Z) : kst * option Z :=
  match mp with
  | None => (s, None)
  | Some p =>
    let rxlen := cf_tcp_rxbuf_len config in
    let txlen := cf_tcp_txbuf_len config in
    match packetmem_alloc (k_pm s) rxlen with
    | None => (s, None)
    | Some (pm1, hrx) =>
      match packetmem_alloc pm1 txlen with
      | None => (s <| k_pm := packetmem_free pm1 hrx |>, None)
      | Some (pm2, htx) =>
        let c := conn_junk <| kn_rx_handle := hrx |> <| kn_tx_handle := htx |>
                   <| kn_rx_buf := pm_base hrx |> <| kn_rx_len := u32 rxlen |>
                   <| kn_tx_buf := pm_base htx |>
                   <| kn_cc := kn_cc conn_junk <| cn_tx_len := u32 txlen |> |>
                   <| kn_to_armed := false |> in
        (put_conn (s <| k_pm := pm2 |>) p c, Some p)
      end
    end
  end.

Definition conn_free (s : kst) (c : Z) : kst :=
  let x := kconn s c in
  let pm := packetmem_free (packetmem_free (k_pm s) (kn_tx_handle x)) (kn_rx_handle x) in
  s <| k_pm := pm |> <| k_conns := delete c (k_conns s) |>.

Definition tcp_destroy (s : kst) (c : Z) : outcome kst :=
  let! _ := assert_ (bool_decide (kn_status (kconn s c) = CONN_FAILED)) in
  Ok (conn_free s c).

(** ** Messages to applications *)

Definition appif_ctx_kick (s : kst) (x : Z) : outcome kst :=
  let a := kctx s x in
  let! _ := assert_ (negb (ax_evfd a =? 0)) in
  let s := if POLL_CYCLE <? u32 (now_us - ax_last_ts a)
           then s <| k_kicks := k_kicks s ++ [ax_evfd a] |> else s in
  Ok (put_ctx s x (a <| ax_last_ts := now_us |>)).

(** The next entry of the queue to the application is free. *)
Definition kout_room (a : app_context) : bool :=
  match ax_kout a !!! ax_kout_pos a with KERNEL_APPIN_INVALID => true | _ => false end.

(** Writing the entry, waking the application, advancing. *)
Definition kout_write (s : kst) (x : Z) (e : kernel_appin) : outcome kst :=
  let a := kctx s x in
  let s := put_ctx s x (a <| ax_kout := <[ax_kout_pos a := e]> (ax_kout a) |>) in
  appif_ctx_kick s x.
Definition kout_advance (s : kst) (x : Z) (inc : Z) : kst :=
  let a := kctx s x in
  let pos := u32 (ax_kout_pos a + inc) in
  put_ctx s x (a <| ax_kout_pos := if ax_kout_len a <=? pos then 0 else pos |>).

Definition conn_params (c : connection) : conn_info :=
  mk_conn_info (kn_rx_buf c) (kn_tx_buf c) (kn_rx_len c) (kn_tx_len c) (kn_remote_seq c) (kn_local_seq c)
    (kn_flow_id c) (cf_ip config) (u16 (kn_fn_core c)).

Definition appif_conn_opened (s : kst) (c : Z) (status : Z) : outcome kst :=
  let x := kconn s c in
  let ctx := kn_ctx x in
  if negb (kout_room (kctx s ctx)) then Ok s
  else
    let e := KERNEL_APPIN_CONN_OPENED (kn_opaque x) status
               (if status =? 0 then Some (conn_params x, kn_local_port x) else None) in
    let! s := if status =? 0 then Ok s else tcp_destroy s c in
    let! s := kout_write s ctx e in
    Ok (kout_advance s ctx 1).

Definition appif_listen_newconn (s : kst) (l remote_ip remote_port : Z) : outcome kst :=
  let ctx := ln_ctx (klisten s l) in
  if negb (kout_room (kctx s ctx)) then Ok s
  else
    let! s := kout_write s ctx (KERNEL_APPIN_LISTEN_NEWCONN (ln_opaque (klisten s l)) remote_ip remote_port) in
    Ok (kout_advance s ctx 1).

Definition appif_accept_conn (s : kst) (c : Z) (status : Z) : outcome kst :=
  let x := kconn s c in
  let ctx := kn_ctx x in
  let app := ax_app (kctx s ctx) in
  if negb (kout_room (kctx s ctx)) then Ok s
  else
    let e := KERNEL_APPIN_ACCEPTED_CONN (kn_opaque x) status
               (if status =? 0 then Some (conn_params x, kn_remote_ip x, kn_remote_port x) else None) in
    let! s :=
      if status =? 0 then
        let ap := k_app s !!! app in
        Ok (s <| k_app := <[app := ap <| ap_conns := c :: ap_conns ap |>]> (k_app s) |>)
      else tcp_destroy s c in
    let! s := kout_write s ctx e in
    Ok (kout_advance s ctx 1).

(** ** Control segments *)

(** [(n + 3) & ~3] in 8 bits. *)
Definition ctl_optlen (ts_opt mss_opt : bool) : Z :=
  Z.land ((if mss_opt then SZ_MSS_OPT else 0) + (if ts_opt then SZ_TS_OPT else 0) + 3) 252.

(** The bytes written behind the TCP header: the MSS option, then [optlen]
    bytes of zeros with the timestamp option at their start. *)
Definition ctl_options (ts_opt : bool) (ts_val ts_ecr mss : Z) : list Z :=
  let mss_opt := negb (mss =? 0) in
  (if mss_opt then [TCP_OPT_MSS; SZ_MSS_OPT] ++ be16_bytes mss else []) ++
  (if ts_opt then
     [TCP_OPT_TIMESTAMP; SZ_TS_OPT] ++ be32_bytes ts_val ++ be32_bytes ts_ecr ++
     replicate (Z.to_nat (ctl_optlen ts_opt mss_opt - SZ_TS_OPT)) 0
   else []).

Definition ctl_len (ts_opt : bool) (mss : Z) : Z := SZ_PKT_TCP + ctl_optlen ts_opt (negb (mss =? 0)).

(** The segment both [send_control_raw] and [send_control_tap_raw] build. *)
Definition ctl_segment (src_mac dst_mac local_ip remote_ip remote_port local_port local_seq remote_seq
    flags : Z) (ts_opt : bool) (ts_val ts_ecr mss : Z) : pkt_tcp :=
  let len := ctl_len ts_opt mss in
  let optlen := ctl_optlen ts_opt (negb (mss =? 0)) in
  let eth := mk_eth_hdr (le_bytes 6 dst_mac) (le_bytes 6 src_mac) (t_beui16 ETH_TYPE_IP) in
  let ip := mk_ip_hdr (IPH_VHL 4 5) 0 (t_beui16 (len - SZ_ETH)) (t_beui16 3) (t_beui16 0) 255 IP_PROTO_TCP
              0 (t_beui32 local_ip) (t_beui32 remote_ip) in
  let tcp := mk_tcp_hdr (t_beui16 local_port) (t_beui16 remote_port) (t_beui32 local_seq)
               (t_beui32 remote_seq) (TCPH_HDRLEN_FLAGS (5 + optlen / 4) flags) (t_beui16 11680) 0
               (t_beui16 0) in
  let p := mk_pkt_tcp eth (ip <| ip_chksum := rte_ipv4_cksum ip |>) tcp (ctl_options ts_opt ts_val ts_ecr mss) in
  let l4 := take (Z.to_nat (len - SZ_ETH - SZ_IP)) (drop 34 (pkt_bytes p)) in
  p <| p_tcp := tcp <| tcp_chksum := rte_ipv4_udptcp_cksum (p_ip p) l4 |> |>.

(** [send_control_raw]: the new state and the return value. *)
Definition send_control_raw (s : kst) (remote_mac remote_ip remote_port local_port local_seq remote_seq
    flags : Z) (ts_opt : bool) (ts_echo mss : Z) : kst * Z :=
  let len := ctl_len ts_opt mss in
  match nicif_tx_alloc (k_nic s) len with
  | (n, None) => (s <| k_nic := n |>, -1)
  | (n, Some (buf, new_tail)) =>
    let p := ctl_segment info_mac_addr remote_mac (cf_ip config) remote_ip remote_port local_port
               local_seq remote_seq flags ts_opt 0 ts_echo mss in
    let n := n <| nc_mem := mem_write (nc_mem n) buf (pkt_bytes p) |> in
    (s <| k_nic := nicif_tx_send n new_tail |>, 0)
  end.

Definition send_control (s : kst) (c : connection) (flags : Z) (ts_opt : bool) (ts_echo mss : Z) : kst * Z :=
  send_control_raw s (kn_remote_mac c) (kn_remote_ip c) (kn_remote_port c) (kn_local_port c)
    (kn_local_seq c) (kn_remote_seq c) flags ts_opt ts_echo mss.

(** [tap_write]: the destination address is overwritten. *)
Definition tap_write (s : kst) (bytes : list Z) : kst :=
  s <| k_tap := k_tap s ++ [TAP_MAC ++ drop 6 bytes] |>.

Definition send_control_tap_raw (s : kst) (local_mac remote_mac local_ip remote_ip remote_port local_port
    local_seq remote_seq flags : Z) (ts_opt : bool) (ts_echo ecr_echo mss : Z) : kst :=
  let p := ctl_segment local_mac remote_mac local_ip remote_ip remote_port local_port local_seq remote_seq
             flags ts_opt ecr_echo ts_echo mss in
  tap_write s (take (Z.to_nat (ctl_len ts_opt mss)) (pkt_bytes p)).

Definition send_control_tap_rev (s : kst) (c : connection) (flags : Z) (ts_opt : bool)
    (ts_echo ecr_echo mss : Z) : kst :=
  send_control_tap_raw s (kn_remote_mac c) (kn_remote_mac c) (kn_remote_ip c) (kn_local_ip c)
    (kn_local_port c) (kn_remote_port c) (kn_remote_seq c) (kn_linux_seq c) flags ts_opt
    ecr_echo ts_echo mss.

(** [send_network_raw]: a frame from the TAP device goes out unchanged.  When
    there is no transmit buffer the copy goes through an uninitialised
    pointer. *)
Definition send_network_raw (s : kst) (bytes : list Z) : outcome kst :=
  match nicif_tx_alloc (k_nic s) (Z.of_nat (length bytes)) with
  | (n, None) => Crash
  | (n, Some (buf, new_tail)) =>
    Ok (s <| k_nic := nicif_tx_send (n <| nc_mem := mem_write (nc_mem n) buf bytes |>) new_tail |>)
  end.

(** ** Options of a received segment *)

(** [struct tcp_opts]: offsets from the end of the fixed header. *)
Record tcp_opts := mk_tcp_opts { op_mss : option Z; op_ts : option Z }.

(** Returns the return value and what it stored in [opts]. *)
Fixpoint parse_options_loop (fuel : nat) (opt : list Z) (opts_len off : Z) (o : tcp_opts)
    : outcome (Z * tcp_opts) :=
  match fuel with
  | O => Spin
  | S fuel =>
    if off <? opts_len then
      let opt_kind := byte_at opt off in
      let opt_avail := u8 (opts_len - off) in
      if opt_kind =? TCP_OPT_END_OF_OPTIONS then Ok (0, o)
      else if opt_kind =? TCP_OPT_NO_OP then parse_options_loop fuel opt opts_len (u16 (off + 1)) o
      else if opt_avail <? 2 then Ok (-1, o)
      else
        let opt_len := byte_at opt (off + 1) in
        let off' := u16 (off + opt_len) in
        if opt_kind =? TCP_OPT_MSS then
          if negb (opt_len =? SZ_MSS_OPT) then Ok (-1, o)
          else parse_options_loop fuel opt opts_len off' (mk_tcp_opts (Some off) (op_ts o))
        else if opt_kind =? TCP_OPT_TIMESTAMP then
          if negb (opt_len =? SZ_TS_OPT) then Ok (-1, o)
          else parse_options_loop fuel opt opts_len off' (mk_tcp_opts (op_mss o) (Some off))
        else parse_options_loop fuel opt opts_len off' o
    else Ok (0, o)
  end.

Definition parse_options (p : pkt_tcp) (len : Z) : outcome (Z * tcp_opts) :=
  let o := mk_tcp_opts None None in
  if (TCPH_HDRLEN (p_tcp p) <? 5) || (u64 (len - SZ_PKT_TCP) <? tcp_opts_len p) then Ok (-1, o)
  else parse_options_loop opts_fuel (p_data p) (tcp_opts_len p) 0 o.

(** The two values of the timestamp option at [off]. *)
Definition opt_ts_val (p : pkt_tcp) (off : Z) : Z := be32_at (p_data p) (off + 2).
Definition opt_ts_ecr (p : pkt_tcp) (off : Z) : Z := be32_at (p_data p) (off + 6).
End Ops.
