(* ===== verification/ControlSeg.v ===== *)
(** Control segments: what the kernel's SYN, SYN-ACK, ACK and RST segments
    carry, read back by its own option parser, and the kernel's parser against
    the fast path's. *)
From stdpp Require Import base numbers list gmap.
From Stdlib Require Import ZArith Lia.
From S2P Require Import Prelude Timeout Packet FlowState TcpCommon Dma FastPath FastRx Queues NicIf CC PacketMem KernelState.

(** ** The two option parsers *)

(** An MSS option of the wrong length. *)
Definition bad_mss (opt : list Z) : Prop :=
  exists off, byte_at opt off = TCP_OPT_MSS /\ byte_at opt (off + 1) <> SZ_MSS_OPT.

Lemma parsers_agree fuel opt opts_len off mss ts :
  match parse_opts_loop fuel opt opts_len off ts with
  | Ok (Some ts') =>
    (exists mss', parse_options_loop fuel opt opts_len off (mk_tcp_opts mss ts) = Ok (0, mk_tcp_opts mss' ts')) \/
    (bad_mss opt /\ exists o, parse_options_loop fuel opt opts_len off (mk_tcp_opts mss ts) = Ok (-1, o))
  | Ok None => exists o, parse_options_loop fuel opt opts_len off (mk_tcp_opts mss ts) = Ok (-1, o)
  | Spin =>
    parse_options_loop fuel opt opts_len off (mk_tcp_opts mss ts) = Spin \/
    (bad_mss opt /\ exists o, parse_options_loop fuel opt opts_len off (mk_tcp_opts mss ts) = Ok (-1, o))
  | Crash => False
  end.
Proof.
  revert off mss ts. induction fuel as [|fuel IH]; intros off mss ts; [left; reflexivity|].
  cbn [parse_opts_loop parse_options_loop op_mss op_ts].
  destruct (off <? opts_len); [|left; eauto].
  destruct (byte_at opt off =? TCP_OPT_END_OF_OPTIONS); [left; eauto|].
  destruct (byte_at opt off =? TCP_OPT_NO_OP); [apply IH|].
  destruct (u8 (opts_len - off) <? 2); [eauto|].
  destruct (Z.eqb_spec (byte_at opt off) TCP_OPT_MSS) as [M|M].
  - rewrite M. change (TCP_OPT_MSS =? TCP_OPT_TIMESTAMP) with false. cbn iota.
    destruct (Z.eqb_spec (byte_at opt (off + 1)) SZ_MSS_OPT) as [L|L]; cbn [negb]; [apply IH|].
    assert (B : bad_mss opt) by (exists off; auto).
    specialize (IH (u16 (off + byte_at opt (off + 1))) mss ts).
    destruct (parse_opts_loop fuel opt opts_len (u16 (off + byte_at opt (off + 1))) ts) as [[ts'|]| |]; eauto.
  - destruct (byte_at opt off =? TCP_OPT_TIMESTAMP); [|apply IH].
    destruct (negb (byte_at opt (off + 1) =? SZ_TS_OPT)); [eauto | apply IH].
Qed.

(** The kernel and the fast path agree on a segment's options: they find
    the same timestamp option and reject the same segments, except that the
    kernel also rejects an MSS option whose length is not 4; a segment one of
    them never finishes parsing hangs the other or is rejected for that
    reason. *)
Theorem option_parsers_agree p len :
  match tcp_parse_options opts_fuel p len with
  | Ok (Some ts) =>
    (exists mss, parse_options p len = Ok (0, mk_tcp_opts mss ts)) \/
    (bad_mss (p_data p) /\ exists o, parse_options p len = Ok (-1, o))
  | Ok None => exists o, parse_options p len = Ok (-1, o)
  | Spin => parse_options p len = Spin \/ (bad_mss (p_data p) /\ exists o, parse_options p len = Ok (-1, o))
  | Crash => False
  end.
Proof.
  unfold tcp_parse_options, parse_options. cbv zeta.
  destruct ((TCPH_HDRLEN (p_tcp p) <? 5) || (u64 (len - SZ_PKT_TCP) <? tcp_opts_len p)); [eauto|].
  apply parsers_agree.
Qed.

(** ** A packet written to memory and read back *)

(** What the cast reads of a structure whose fields were stored in their
    width. *)
Definition pkt_trunc (p : pkt_tcp) (rest : list Z) : pkt_tcp :=
  let e := p_eth p in let i := p_ip p in let t := p_tcp p in
  let b16 x := mk_beui16 (u16 (be16_x x)) in let b32 x := mk_beui32 (u32 (be32_x x)) in
  mk_pkt_tcp (mk_eth_hdr (eth_dest e) (eth_src e) (b16 (eth_type e)))
    (mk_ip_hdr (u8 (ip_v_hl i)) (u8 (ip_tos i)) (b16 (ip_len i)) (b16 (ip_id i)) (b16 (ip_offset i))
       (u8 (ip_ttl i)) (u8 (ip_proto i)) (u16 (ip_chksum i)) (b32 (ip_src i)) (b32 (ip_dest i)))
    (mk_tcp_hdr (b16 (tcp_src t)) (b16 (tcp_dest t)) (b32 (tcp_seqno t)) (b32 (tcp_ackno t))
       (u16 (tcp_hdrlen_rsvd_flags t)) (b16 (tcp_wnd t)) (u16 (tcp_chksum t)) (b16 (tcp_urgp t)))
    (p_data p ++ rest).

Lemma mac_bytes (l : list Z) : length l = 6%nat -> exists a b c d e f, l = [a; b; c; d; e; f].
Proof. intros H. do 7 (destruct l as [|? l]; try discriminate H). eauto 10. Qed.

Lemma pkt_read_back p rest : length (eth_dest (p_eth p)) = 6%nat -> length (eth_src (p_eth p)) = 6%nat ->
  bytes_pkt (pkt_bytes p ++ rest) = pkt_trunc p rest.
Proof.
  destruct p as [[d s ty] i t dat]. cbn [p_eth eth_dest eth_src]. intros Hd Hs.
  apply mac_bytes in Hd as (d0 & d1 & d2 & d3 & d4 & d5 & ->).
  apply mac_bytes in Hs as (s0 & s1 & s2 & s3 & s4 & s5 & ->).
  assert (V1 : forall l x, l = le_bytes 1 x -> le_value l = u8 x) by (intros l x ->; apply le_value_bytes).
  assert (V2 : forall l x, l = le_bytes 2 x -> le_value l = u16 x) by (intros l x ->; apply le_value_bytes).
  assert (V4 : forall l x, l = le_bytes 4 x -> le_value l = u32 x) by (intros l x ->; apply le_value_bytes).
  unfold bytes_pkt, pkt_trunc. cbv zeta. cbn [p_eth p_ip p_tcp p_data eth_dest eth_src eth_type].
  apply (f_equal4 mk_pkt_tcp); [f_equal | f_equal | f_equal | reflexivity]; try reflexivity;
    solve [apply V1; reflexivity | apply V2; reflexivity | apply V4; reflexivity
          | f_equal; apply V2; reflexivity | f_equal; apply V4; reflexivity].
Qed.

(** ** Control segments *)

Section Segment.
Context `{KEnv} (src dst lip rip rport lport lseq rseq flags : Z) (ts : bool) (tsv tse mss : Z) (rest : list Z).
Let seg := ctl_segment src dst lip rip rport lport lseq rseq flags ts tsv tse mss.
Let q := bytes_pkt (pkt_bytes seg ++ rest).

Lemma seg_read_back : q = pkt_trunc seg rest.
Proof. apply pkt_read_back; apply length_le_bytes. Qed.


Lemma f_t_trunc16 x : f_beui16 (mk_beui16 (u16 (be16_x (t_beui16 x)))) = u16 x.
Proof. cbn [t_beui16 be16_x]. rewrite u16_small by apply bswap16_range. apply (f_t_beui16 x). Qed.
Lemma f_t_trunc32 x : f_beui32 (mk_beui32 (u32 (be32_x (t_beui32 x)))) = u32 x.
Proof. cbn [t_beui32 be32_x]. rewrite u32_small by apply bswap32_range. apply (f_t_beui32 x). Qed.

Lemma ctl_optlen_cases : ctl_optlen ts (negb (mss =? 0)) =
  match ts, mss =? 0 with false, true => 0 | false, false => 4 | true, true => 12 | true, false => 16 end.
Proof. destruct ts, (mss =? 0); reflexivity. Qed.

Lemma seg_hdrlen : 0 <= flags < 512 ->
  TCPH_HDRLEN (p_tcp q) = 5 + ctl_optlen ts (negb (mss =? 0)) / 4 /\ TCPH_FLAGS (p_tcp q) = flags.
Proof.
  intros Hf. rewrite seg_read_back. unfold TCPH_HDRLEN, TCPH_FLAGS, pkt_trunc, seg, ctl_segment.
  cbn [p_tcp tcp_hdrlen_rsvd_flags upd eta_pkt_tcp eta_tcp_hdr].
  rewrite u16_small by apply bswap16_range.
  assert (HL : 0 <= 5 + ctl_optlen ts (negb (mss =? 0)) / 4 < 16)
    by (rewrite ctl_optlen_cases; destruct ts, (mss =? 0); split; reflexivity || discriminate).
  rewrite hdrlen_flags_value, Z.shiftr_div_pow2 by lia. change (2 ^ 12) with 4096.
  split; [mlia|]. unfold TCP_FLAGS. change 511 with (Z.ones 9).
  rewrite Z.land_ones by lia. change (2 ^ 9) with 512. mlia.
Qed.

Lemma seg_opts_len : 0 <= flags < 512 -> tcp_opts_len q = ctl_optlen ts (negb (mss =? 0)).
Proof.
  intros Hf. unfold tcp_opts_len. rewrite (proj1 (seg_hdrlen Hf)), ctl_optlen_cases.
  destruct ts, (mss =? 0); reflexivity.
Qed.

Lemma seg_parse : 0 <= flags < 512 ->
  parse_options q (ctl_len ts mss) =
    Ok (0, mk_tcp_opts (if mss =? 0 then None else Some 0)
             (if ts then Some (if mss =? 0 then 0 else 4) else None)).
Proof.
  intros Hf. unfold parse_options. rewrite seg_opts_len, (proj1 (seg_hdrlen Hf)) by auto.
  rewrite seg_read_back. unfold ctl_len.
  rewrite ctl_optlen_cases. cbn [p_data pkt_trunc seg ctl_segment upd eta_pkt_tcp]. unfold ctl_options.
  destruct ts, (mss =? 0); reflexivity.
Qed.

(** The value of the timestamp and MSS options. *)
Lemma seg_ts : ts = true -> let off := if mss =? 0 then 0 else 4 in
  opt_ts_val q off = u32 tsv /\ opt_ts_ecr q off = u32 tse.
Proof.
  intros Ets. rewrite seg_read_back. unfold opt_ts_val, opt_ts_ecr, be32_at.
  cbn [p_data pkt_trunc seg ctl_segment upd eta_pkt_tcp]. unfold ctl_options. rewrite Ets.
  rewrite (u32_sum_digits tsv), (u32_sum_digits tse). destruct (mss =? 0); split; reflexivity.
Qed.

Lemma seg_mss : mss <> 0 -> be16_at (p_data q) 2 = u16 mss.
Proof.
  intros N. rewrite seg_read_back. unfold be16_at.
  cbn [p_data pkt_trunc seg ctl_segment upd eta_pkt_tcp]. unfold ctl_options.
  rewrite (proj2 (Z.eqb_neq _ _) N). transitivity ((mss / 256) mod 256 * 256 + mss mod 256); [destruct ts; reflexivity|].
  unfold u16. change 65536 with (256 * 256). rewrite Z.rem_mul_r by lia. lia.
Qed.
End Segment.

(** C40.  A control segment (SYN, SYN-ACK, ACK, RST) read back from the
    transmit buffer, whatever follows it there, has the addresses, ports,
    sequence numbers and flags it was built with, its IP length is the length
    sent, and the option parser accepts it and finds exactly the options asked
    for, with their values. *)
Theorem ctl_segment_roundtrip `{KEnv} src dst lip rip rport lport lseq rseq flags ts tsv tse mss rest :
  0 <= flags < 512 ->
  let seg := ctl_segment src dst lip rip rport lport lseq rseq flags ts tsv tse mss in
  let q := bytes_pkt (pkt_bytes seg ++ rest) in
  eth_src (p_eth q) = le_bytes 6 src /\ eth_dest (p_eth q) = le_bytes 6 dst /\
  f_beui16 (ip_len (p_ip q)) = ctl_len ts mss - SZ_ETH /\
  f_beui32 (ip_src (p_ip q)) = u32 lip /\ f_beui32 (ip_dest (p_ip q)) = u32 rip /\
  f_beui16 (tcp_src (p_tcp q)) = u16 lport /\ f_beui16 (tcp_dest (p_tcp q)) = u16 rport /\
  f_beui32 (tcp_seqno (p_tcp q)) = u32 lseq /\ f_beui32 (tcp_ackno (p_tcp q)) = u32 rseq /\
  TCPH_FLAGS (p_tcp q) = flags /\
  exists o, parse_options q (ctl_len ts mss) = Ok (0, o) /\
    (if ts then exists off, op_ts o = Some off /\ opt_ts_val q off = u32 tsv /\ opt_ts_ecr q off = u32 tse
     else op_ts o = None) /\
    (if mss =? 0 then op_mss o = None
     else exists off, op_mss o = Some off /\ be16_at (p_data q) (off + 2) = u16 mss).
Proof.
  intros Hf seg q.
  pose proof (seg_read_back src dst lip rip rport lport lseq rseq flags ts tsv tse mss rest) as E.
  pose proof (seg_parse src dst lip rip rport lport lseq rseq flags ts tsv tse mss rest Hf) as EP.
  pose proof (seg_hdrlen src dst lip rip rport lport lseq rseq flags ts tsv tse mss rest Hf) as [_ EF].
  pose proof (seg_ts src dst lip rip rport lport lseq rseq flags ts tsv tse mss rest) as ET.
  pose proof (seg_mss src dst lip rip rport lport lseq rseq flags ts tsv tse mss rest) as EM.
  fold seg q in E, EP, EF, ET, EM.
  split_and!; try (rewrite E; first [reflexivity | apply f_t_trunc16 | apply f_t_trunc32]).
  - rewrite E. etransitivity; [apply f_t_trunc16|]. unfold ctl_len. destruct ts, (mss =? 0); reflexivity.
  - exact EF.
  - eexists. split; [exact EP|]. cbn [op_ts op_mss]. split.
    + destruct ts; [|reflexivity]. eexists. split; [reflexivity|]. apply ET; reflexivity.
    + destruct (Z.eqb_spec mss 0) as [_|N]; [reflexivity|]. eexists. split; [reflexivity|]. exact (EM N).
Qed.
