(* ===== verification/Arp.v ===== *)
(** Address resolution (kernel/arp.c) and the routing table
    (kernel/routing.c).

    The ARP table is a doubly linked list of entries nobody else links; here a
    list of addresses, newest first.  A completion is named by the connection it is
    embedded in. *)
From stdpp Require Import base numbers list gmap.
From Stdlib Require Import ZArith Lia.
From S2P Require Import Prelude LinkedList Timeout Qman Packet FlowState TcpCommon Dma FastPath FastRx Queues NicIf CC PacketMem KernelState.

(** ** Layout of [struct pkt_arp] *)

Definition ARP_HTYPE_ETHERNET : Z := 1.
Definition ARP_PTYPE_IPV4 : Z := 2048.
Definition ARP_OPER_REQUEST : Z := 1.
Definition ARP_OPER_REPLY : Z := 2.

Record pkt_arp := mk_pkt_arp
  { ar_htype : Z; ar_ptype : Z; ar_hlen : Z; ar_plen : Z; ar_oper : Z;
    ar_sha : list Z; ar_spa : Z; ar_tha : list Z; ar_tpa : Z }.

Definition bytes_arp (l : list Z) : pkt_arp :=
  mk_pkt_arp (be16_at l 14) (be16_at l 16) (byte_at l 18) (byte_at l 19) (be16_at l 20)
    (slice l 22 6) (be32_at l 28) (slice l 32 6) (be32_at l 38).

(** A frame as [request_tx] and [response_tx] fill it in. *)
Definition arp_frame (src_mac dst_mac : list Z) (oper src_ip dst_ip : Z) : list Z :=
  dst_mac ++ src_mac ++ be16_bytes ETH_TYPE_ARP ++
  be16_bytes ARP_HTYPE_ETHERNET ++ be16_bytes ARP_PTYPE_IPV4 ++ [6; 4] ++ be16_bytes oper ++
  src_mac ++ be32_bytes src_ip ++ dst_mac ++ be32_bytes dst_ip.

(** [memcpy] of the address into a [uint64_t]. *)
Definition mac_store (old mac : Z) : Z := old - old mod 281474976710656 + mac.

Section Arp.
Context `{Platform} `{KEnv}.

Definition ETH_BROADCAST : list Z := replicate 6 255.

(** [request_tx] and [response_tx]: -1 when there is no transmit buffer. *)
Definition arp_tx (s : kst) (frame : list Z) : kst * Z :=
  match nicif_tx_alloc (k_nic s) SZ_PKT_ARP with
  | (n, None) => (s <| k_nic := n |>, -1)
  | (n, Some (buf, new_tail)) =>
    (s <| k_nic := nicif_tx_send (n <| nc_mem := mem_write (nc_mem n) buf frame |>) new_tail |>, 0)
  end.
Definition request_tx (s : kst) (dst_ip : Z) : kst * Z :=
  arp_tx s (arp_frame (le_bytes 6 info_mac_addr) ETH_BROADCAST ARP_OPER_REQUEST (cf_ip config) dst_ip).
Definition response_tx (s : kst) (dst_mac : list Z) (dst_ip : Z) : kst * Z :=
  arp_tx s (arp_frame (le_bytes 6 info_mac_addr) dst_mac ARP_OPER_REPLY (cf_ip config) dst_ip).
Definition response_tx_tap (s : kst) (src_mac dst_mac : list Z) (src_ip dst_ip : Z) : kst :=
  tap_write s (arp_frame src_mac dst_mac ARP_OPER_REPLY src_ip dst_ip).

Definition karp (s : kst) (e : Z) : arp_entry := k_arp s !!! e.
Definition put_arp (s : kst) (e : Z) (x : arp_entry) : kst := s <| k_arp := <[e := x]> (k_arp s) |>.

Definition ae_lookup (s : kst) (ip : Z) : option Z :=
  List.find (fun e => ae_ip (karp s e) =? ip) (k_arp_table s).

(** [arp_init]: the host's own address; [e] is the entry [malloc] returned. *)
Definition arp_init (s : kst) (e : Z) : kst :=
  put_arp s e (mk_arp_entry 0 (cf_ip config) (info_mac_addr mod 281474976710656) [] 0)
    <| k_arp_table := [e] |>.

(** [arp_request] for the completion of connection [c], whose [remote_mac] is
    to be filled in; [me] is the result of [malloc]. *)
Definition arp_request (s : kst) (c : Z) (ip : Z) (me : option Z) : outcome (kst * Z) :=
  let s := put_conn s c (kconn s c <| kn_remote_mac := 0 |>) in
  match ae_lookup s ip with
  | Some e =>
    if ae_status (karp s e) =? 0 then
      Ok (put_conn s c (kconn s c <| kn_remote_mac := mac_store 0 (ae_mac (karp s e)) |>), 0)
    else Ok (put_arp s e (karp s e <| ae_compl := c :: ae_compl (karp s e) |>), 1)
  | None =>
    match me with
    | None => Ok (s, -1)
    | Some e =>
      let s := put_arp s e (mk_arp_entry 1 ip 0 [c] 0) in
      let '(s, _) := request_tx s ip in
      let s := put_arp s e (karp s e <| ae_timeout := cf_arp_to config |>) in
      let! t := util_timeout_arm_ts (k_timers s) (arp_timer e) (cf_arp_to config) TO_ARP_REQ now_us in
      Ok (s <| k_timers := t |> <| k_arp_table := e :: k_arp_table s |>, 1)
    end
  end.

(** The loop over the completions of an entry. *)
Definition complete (mac : option Z) (status : Z) (s : kst) (c : Z) : kst :=
  let x := kconn s c in
  let x := match mac with Some m => x <| kn_remote_mac := mac_store (kn_remote_mac x) m |> | None => x end in
  put_conn s c (x <| kn_comp_status := status |>) <| k_async := nbqueue_enq (k_async s) c |>.

Definition arp_hdr_ok (a : pkt_arp) : bool :=
  (ar_htype a =? ARP_HTYPE_ETHERNET) && (ar_ptype a =? ARP_PTYPE_IPV4) && (ar_hlen a =? 6) && (ar_plen a =? 4).

Definition arp_packet (s : kst) (buf : list Z) : outcome kst :=
  let a := bytes_arp buf in
  if negb (arp_hdr_ok a) then Ok s
  else if ar_oper a =? ARP_OPER_REQUEST then
    if negb (ar_tpa a =? cf_ip config) then Ok s
    else Ok (fst (response_tx s (ar_sha a) (ar_spa a)))
  else if ar_oper a =? ARP_OPER_REPLY then
    match ae_lookup s (ar_spa a) with
    | None => Ok s
    | Some e =>
      let! s :=
        if ae_status (karp s e) =? 1 then
          let! t := util_timeout_disarm (k_timers s) (arp_timer e) in Ok (s <| k_timers := t |>)
        else Ok s in
      let mac := le_value (ar_sha a) in
      let s := put_arp s e (karp s e <| ae_mac := mac |> <| ae_status := 0 |>) in
      let s := fold_left (complete (Some mac) 0) (ae_compl (karp s e)) s in
      Ok (put_arp s e (karp s e <| ae_compl := [] |>))
    end
  else Ok s.

Definition arp_packet_tap (s : kst) (buf : list Z) : kst :=
  let a := bytes_arp buf in
  if negb (arp_hdr_ok a) then s
  else if ar_oper a =? ARP_OPER_REQUEST then
    match ae_lookup s (ar_spa a) with
    | None => s
    | Some _ => response_tx_tap s (ar_tha a) (ar_sha a) (ar_tpa a) (ar_spa a)
    end
  else s.

Definition arp_timeout (s : kst) (e : Z) : outcome kst :=
  let a := karp s e in
  if ae_status a =? 0 then Crash
  else if cf_arp_to_max config <=? u32 (ae_timeout a * 2) then
    let s := fold_left (complete None (-1)) (ae_compl a) s in
    Ok (s <| k_arp_table := filter (fun e' => e' <> e) (k_arp_table s) |> <| k_arp := delete e (k_arp s) |>)
  else
    let '(s, _) := request_tx s (ae_ip a) in
    let to := u32 (ae_timeout a * 2) in
    let s := put_arp s e (karp s e <| ae_timeout := to |>) in
    let! t := util_timeout_arm_ts (k_timers s) (arp_timer e) to TO_ARP_REQ now_us in
    Ok (s <| k_timers := t |>).

(** ** Routing *)

Definition prefix_len_mask (len : Z) : Z := u32 (Z.lnot (Z.shiftl 1 (32 - len) - 1)).

(** The entries for the configured routes; [None] when a route has bits its
    mask removes. *)
Fixpoint routes_fill (l : list (Z * Z * Z)) : option (list routing_table_entry) :=
  match l with
  | [] => Some []
  | (ip, len, hop) :: l =>
    let mask := prefix_len_mask len in
    if negb (Z.land mask ip =? ip) then None
    else match routes_fill l with Some t => Some (mk_rte ip mask hop :: t) | None => None end
  end.

Definition routing_init : option (list routing_table_entry) :=
  let mask := prefix_len_mask (cf_ip_prefix config) in
  match routes_fill (cf_routes config) with
  | Some t => Some (mk_rte (Z.land (cf_ip config) mask) mask 0 :: t)
  | None => None
  end.

Definition resolve (t : list routing_table_entry) (ip : Z) : option routing_table_entry :=
  List.find (fun r => rt_dest_ip r =? Z.land ip (rt_dest_mask r)) t.

(** The loop of [routing_resolve]: the address on the local network the packet
    is sent to; [None] when there is no route. *)
Fixpoint route_loop (fuel : nat) (t : list routing_table_entry) (ip : Z) : outcome (option Z) :=
  match fuel with
  | O => Spin
  | S fuel =>
    match resolve t ip with
    | None => Ok None
    | Some r => if rt_next_hop r =? 0 then Ok (Some ip) else route_loop fuel t (rt_next_hop r)
    end
  end.

(** One hop more than there are entries: a longer walk uses an entry twice and
    never ends. *)
Definition route_fuel (t : list routing_table_entry) : nat := S (length t).

Definition routing_resolve (s : kst) (c : Z) (ip : Z) (me : option Z) : outcome (kst * Z) :=
  let! r := route_loop (route_fuel (k_routes s)) (k_routes s) ip in
  match r with
  | None => Ok (s, -1)
  | Some ip => arp_request s c ip me
  end.
End Arp.

(** ** Routing terminates or has no route out of a cycle *)

#[export] Instance rte_eq_dec : EqDecision routing_table_entry.
Proof. solve_decision. Defined.

(** The entries with a next hop that the walk from [ip] uses in [n] steps. *)
Fixpoint walk (n : nat) (t : list routing_table_entry) (ip : Z) : list routing_table_entry :=
  match n with
  | O => []
  | S n =>
    match resolve t ip with
    | None => []
    | Some r => if rt_next_hop r =? 0 then [] else r :: walk n t (rt_next_hop r)
    end
  end.

Lemma route_loop_spins n t ip : route_loop n t ip = Spin <-> length (walk n t ip) = n.
Proof.
  revert ip. induction n as [|n IH]; intros ip; cbn [route_loop walk]; [split; reflexivity|].
  destruct (resolve t ip) as [r|]; [|split; discriminate].
  destruct (rt_next_hop r =? 0); [split; discriminate|]. rewrite IH. cbn. split; [lia | intros [= E]; auto].
Qed.

Lemma route_loop_mono n k t ip r : route_loop n t ip = Ok r -> (n <= k)%nat -> route_loop k t ip = Ok r.
Proof.
  revert k ip. induction n as [|n IH]; intros k ip E Hk; [discriminate|].
  destruct k as [|k]; [lia|]. cbn [route_loop] in *. destruct (resolve t ip) as [e|]; [|exact E].
  destruct (rt_next_hop e =? 0); [exact E | apply IH; [exact E | lia]].
Qed.

Lemma route_loop_cases n t ip : route_loop n t ip = Spin \/ exists r, route_loop n t ip = Ok r.
Proof.
  revert ip. induction n as [|n IH]; intros ip; [left; reflexivity|]. cbn.
  destruct (resolve t ip) as [r|]; [destruct (rt_next_hop r =? 0)|]; eauto.
Qed.

Lemma route_loop_spin_mono n k t ip : route_loop k t ip = Spin -> (n <= k)%nat -> route_loop n t ip = Spin.
Proof.
  intros E L. destruct (route_loop_cases n t ip) as [R|[x R]]; [exact R|].
  rewrite (route_loop_mono n k t ip x R L) in E. discriminate.
Qed.

Lemma walk_in_table n t ip e : e ∈ walk n t ip -> e ∈ t.
Proof.
  revert ip. induction n as [|n IH]; intros ip He; cbn [walk] in He; [inversion He|].
  destruct (resolve t ip) as [r|] eqn:R; [|inversion He].
  destruct (rt_next_hop r =? 0); [inversion He|]. apply elem_of_cons in He as [->|He]; [|eauto].
  unfold resolve in R. apply List.find_some in R as [R _]. apply list_elem_of_In, R.
Qed.

(** The walk from an entry on does not depend on how the entry was reached. *)
Lemma walk_from m t ip l1 r l2 n : walk m t ip = l1 ++ r :: l2 ->
  walk (S (length l1) + n) t ip = l1 ++ r :: walk n t (rt_next_hop r).
Proof.
  revert m ip. induction l1 as [|x l1 IH]; intros m ip E; destruct m as [|m]; try discriminate E;
    cbn [walk] in E; cbn [length Nat.add walk]; destruct (resolve t ip) as [e|]; try discriminate E;
    destruct (rt_next_hop e =? 0); try discriminate E; cbn [app] in E; injection E as -> E; [reflexivity|].
  cbn [app]. f_equal. exact (IH m _ E).
Qed.

Lemma walk_split m t ip l1 r l2 : walk m t ip = l1 ++ r :: l2 ->
  walk (m - S (length l1)) t (rt_next_hop r) = l2.
Proof.
  revert m ip. induction l1 as [|x l1 IH]; intros m ip E; destruct m as [|m]; try discriminate E;
    cbn [walk] in E; destruct (resolve t ip) as [e|]; try discriminate E;
    destruct (rt_next_hop e =? 0); try discriminate E; cbn [app] in E; injection E as -> E.
  - cbn [length]. rewrite Nat.sub_succ, Nat.sub_0_r. exact E.
  - cbn [length]. rewrite Nat.sub_succ. eapply IH, E.
Qed.

Lemma dup_split {A} `{EqDecision A} (l : list A) : ~ NoDup l ->
  exists l1 x l2 l3, l = l1 ++ x :: l2 ++ x :: l3.
Proof.
  induction l as [|x l IH]; intros N; [destruct N; constructor|].
  destruct (decide (x ∈ l)) as [Hx|Hx].
  - apply list_elem_of_split in Hx as (l2 & l3 & ->). exists [], x, l2, l3. reflexivity.
  - destruct IH as (l1 & y & l2 & l3 & ->); [intros ND; apply N; constructor; auto|].
    exists (x :: l1), y, l2, l3. reflexivity.
Qed.

(** Once an entry repeats, the walk goes on for ever. *)
Lemma walk_cycle t ip r l l' n m : walk m t ip = l ++ r :: l' -> rt_next_hop r = ip -> route_loop n t ip = Spin.
Proof.
  intros E Hr. apply route_loop_spins. induction n as [n IH] using lt_wf_ind.
  destruct (Nat.le_gt_cases n (length l)) as [L|L].
  - pose proof (walk_from m t ip l r l' 0 E) as W. rewrite Nat.add_0_r in W.
    apply route_loop_spins, (route_loop_spin_mono n (S (length l))); [|lia].
    apply route_loop_spins. rewrite W, length_app. cbn. lia.
  - replace n with (S (length l) + (n - S (length l)))%nat at 1 by lia.
    rewrite (walk_from m t ip l r l' _ E), length_app. cbn [length]. rewrite Hr, IH by lia. lia.
Qed.

Lemma walk_repeats t ip l1 r l2 l3 n m : walk m t ip = l1 ++ r :: l2 ++ r :: l3 -> route_loop n t ip = Spin.
Proof.
  intros W. pose proof (walk_split _ _ _ _ _ _ W) as W2.
  apply (route_loop_spin_mono n (S (length l1) + n)); [|lia]. apply route_loop_spins.
  rewrite (walk_from _ _ _ _ _ _ _ W), length_app. cbn [length].
  pose proof (walk_cycle t (rt_next_hop r) r l2 l3 n _ W2 eq_refl) as C. apply route_loop_spins in C. lia.
Qed.

(** [routing_resolve] follows next hops until a directly reachable
    address, or until there is no route.  One step per table entry and one
    more decide: if the walk has not ended by then it never will, because it
    uses an entry twice (a cycle of routes hangs the kernel); if it ends at all,
    it ends by then with the same result. *)
Theorem route_loop_terminates t ip :
  (forall n r, route_loop n t ip = Ok r -> route_loop (route_fuel t) t ip = Ok r) /\
  (route_loop (route_fuel t) t ip = Spin ->
   (forall n, route_loop n t ip = Spin) /\
   exists l1 r l2 l3, walk (route_fuel t) t ip = l1 ++ r :: l2 ++ r :: l3).
Proof.
  assert (Cy : route_loop (route_fuel t) t ip = Spin ->
    exists l1 r l2 l3, walk (route_fuel t) t ip = l1 ++ r :: l2 ++ r :: l3).
  { intros E. apply route_loop_spins in E. apply dup_split. intros ND.
    assert (S : walk (route_fuel t) t ip ⊆+ t) by (apply NoDup_submseteq; auto; apply walk_in_table).
    apply submseteq_length in S. rewrite E in S. unfold route_fuel in S. lia. }
  split.
  - intros n r E. destruct (route_loop_cases (route_fuel t) t ip) as [R|[r' R]].
    + destruct (Cy R) as (l1 & e & l2 & l3 & W). rewrite (walk_repeats _ _ _ _ _ _ n _ W) in E. discriminate.
    + destruct (Nat.le_ge_cases n (route_fuel t)) as [L|L];
        [exact (route_loop_mono _ _ _ _ _ E L) | rewrite (route_loop_mono _ _ _ _ _ R L) in E; congruence].
  - intros E. split; [|exact (Cy E)]. intros n. destruct (Cy E) as (l1 & e & l2 & l3 & W). exact (walk_repeats _ _ _ _ _ _ n _ W).
Qed.
