(* ===== verification/KernelTcp.v ===== *)
(** TCP connection management in the kernel (kernel/tcp.c) and the handling of
    frames from the TAP device (kernel/tap.c).

    Connections the kernel opens go through CONN_ARP_PENDING, CONN_SYN_SENT and
    CONN_OPEN; accepted ones wait in CONN_SYN_WAIT, are registered with the NIC
    in CONN_REG_SYNACK, and become CONN_OPEN when the host's own stack answers
    the SYN through the TAP device. *)
From stdpp Require Import base numbers list gmap.
From Stdlib Require Import ZArith Lia.
From S2P Require Import Prelude LinkedList Timeout Qman Packet FlowState TcpCommon Dma FastPath FastRx Queues NicIf CC PacketMem KernelState Arp.

Definition PORT_MAX : Z := 65535.
Definition PORT_FIRST_EPH : Z := 49152.
Definition LISTEN_MULTI_MAX : nat := 32.
(** [sizeof] of the buffer of a [struct backlog_slot]. *)
Definition BACKLOG_BUF : Z := 126.

Section Tcp.
Context `{Platform} `{KEnv}.

(** ** Ports *)

Definition port_unused (s : kst) (p : Z) : bool :=
  match k_ports s !!! p with PORT_TYPE_UNUSED => true | _ => false end.
(** [p + 1 < PORT_FIRST_EPH ? PORT_FIRST_EPH : p + 1] stored in 16 bits. *)
Definition port_next (p : Z) : Z := u16 (if p + 1 <? PORT_FIRST_EPH then PORT_FIRST_EPH else p + 1).

(** [wrapped] stays 0, so the search only ends at an unused port. *)
Fixpoint port_search (fuel : nat) (s : kst) (p : Z) : outcome Z :=
  match fuel with
  | O => Spin
  | S fuel => if port_unused s p then Ok p else port_search fuel s (port_next p)
  end.

Definition port_fuel : nat := Z.to_nat 65537.

Definition port_alloc (s : kst) : outcome (kst * Z) :=
  let! p := port_search port_fuel s (k_port_eph_hint s) in
  Ok (s <| k_port_eph_hint := port_next p |>, p).

(** ** Handshake timer *)

Definition conn_timeout_arm (s : kst) (c : Z) : outcome kst :=
  let x := kconn s c in
  let! _ := assert_ (negb (kn_to_armed x)) in
  let s := put_conn s c (x <| kn_to_armed := true |>) in
  let '(r, rng) := utils_rng_gen32 (k_rng s) in
  let s := s <| k_rng := rng |> in
  if kn_timeout x =? 0 then Crash
  else
    let to := u32 (kn_timeout x / 2 + r mod kn_timeout x) in
    let! t := util_timeout_arm_ts (k_timers s) (conn_timer c) to TO_TCP_HANDSHAKE now_us in
    Ok (s <| k_timers := t |>).

Definition conn_timeout_disarm (s : kst) (c : Z) : outcome kst :=
  let x := kconn s c in
  let! _ := assert_ (kn_to_armed x) in
  let s := put_conn s c (x <| kn_to_armed := false |>) in
  let! t := util_timeout_disarm (k_timers s) (conn_timer c) in
  Ok (s <| k_timers := t |>).

(** ** Connections *)

Definition conn_register (s : kst) (c : Z) : kst := s <| k_tcp_conns := c :: k_tcp_conns s |>.

Definition conn_lookup (s : kst) (p : pkt_tcp) : option Z :=
  List.find (fun c => let x := kconn s c in
    (f_beui32 (ip_src (p_ip p)) =? kn_remote_ip x) && (f_beui16 (tcp_dest (p_tcp p)) =? kn_local_port x) &&
    (f_beui16 (tcp_src (p_tcp p)) =? kn_remote_port x)) (k_tcp_conns s).

Definition conn_lookup_rev (s : kst) (p : pkt_tcp) : option Z :=
  List.find (fun c => let x := kconn s c in
    (f_beui32 (ip_dest (p_ip p)) =? kn_remote_ip x) && (f_beui16 (tcp_src (p_tcp p)) =? kn_local_port x) &&
    (f_beui16 (tcp_dest (p_tcp p)) =? kn_remote_port x)) (k_tcp_conns s).

(** [conn_failed]: the loop returns after its first iteration. *)
Definition conn_failed (s : kst) (c : Z) (status : Z) : outcome kst :=
  match k_tcp_conns s with
  | [] => Crash
  | c_i :: rest =>
    if c_i =? c then
      let s := s <| k_tcp_conns := rest |> in
      let! s := if kn_to_armed (kconn s c) then conn_timeout_disarm s c else Ok s in
      let s := put_conn s c (set_status (kconn s c) CONN_FAILED) in
      appif_conn_opened s c status
    else Ok s
  end.

(** [conn_arp_done]; it always returns 0. *)
Definition conn_arp_done (s : kst) (c : Z) : outcome (kst * Z) :=
  let x := set_status (kconn s c) CONN_SYN_SENT in
  let x := x <| kn_to_attempts := 0 |> <| kn_timeout := cf_tcp_handshake_to config |> in
  let! s := conn_timeout_arm (put_conn s c x) c in
  let '(s, _) := send_control s (kconn s c) (Z.lor (Z.lor TCP_SYN TCP_ECE) TCP_CWR) true 0 TCP_MSS in
  Ok (s, 0).

(** The arguments of [nicif_connection_add]. *)
Definition conn_flow_params (x : connection) (local_seq : Z) : flow_params :=
  mk_flow_params (kn_db_id x) (kn_remote_mac x) (kn_local_ip x) (kn_local_port x) (kn_remote_ip x)
    (kn_remote_port x) (kn_rx_buf x) (kn_rx_len x) (kn_tx_buf x) (kn_tx_len x) (kn_remote_seq x) local_seq
    (kn_opaque x) (kn_flags x) (cn_cc_rate (kn_cc x)) (kn_fn_core x) (kn_flow_group x).

(** [cc_conn_init] on the connection's congestion control members. *)
Definition conn_cc_init (s : kst) (c : Z) : outcome kst :=
  let x := kconn s c in
  let! cc := cc_conn_init (cf_cc config) cur_ts cc_junk (kn_cc x) in
  Ok (put_conn s c (x <| kn_cc := cc |>)).

(** Registration with the NIC; the flow id goes into the connection. *)
Definition conn_nic_add (s : kst) (c : Z) (local_seq : Z) : outcome (kst * Z) :=
  let x := kconn s c in
  let! (n, r) := nicif_connection_add (k_nic s) (conn_flow_params x local_seq) in
  let s := s <| k_nic := n |> in
  match r with
  | None => Ok (s, -1)
  | Some fid => Ok (put_conn s c (x <| kn_cc := kn_cc x <| cn_flow_id := fid |> |>), 0)
  end.

Definition ecn_bits (p : pkt_tcp) : Z := Z.land (TCPH_FLAGS (p_tcp p)) (Z.lor TCP_ECE TCP_CWR).

Definition conn_syn_sent_packet (s : kst) (c : Z) (p : pkt_tcp) (o : tcp_opts) : outcome (kst * Z) :=
  let! s := conn_timeout_disarm s c in
  if negb (Z.land (TCPH_FLAGS (p_tcp p)) (Z.lor TCP_SYN TCP_ACK) =? Z.lor TCP_SYN TCP_ACK) then Ok (s, -1)
  else
    match op_ts o with
    | None => Ok (s, -1)
    | Some tso =>
      let x := kconn s c in
      let x := x <| kn_remote_seq := u32 (f_beui32 (tcp_seqno (p_tcp p)) + 1) |>
                 <| kn_local_seq := f_beui32 (tcp_ackno (p_tcp p)) |> <| kn_syn_ts := opt_ts_val p tso |> in
      let x := if ecn_bits p =? TCP_ECE then x <| kn_flags := Z.lor (kn_flags x) NICIF_CONN_ECN |> else x in
      let! s := conn_cc_init (put_conn s c x) c in
      let s := put_conn s c (kconn s c <| kn_comp_status := 0 |>) in
      let! (s, ret) := conn_nic_add s c (kn_local_seq (kconn s c)) in
      if negb (ret =? 0) then Ok (s, -1)
      else
        let s := put_conn s c (set_status (kconn s c) CONN_OPEN) in
        let '(s, _) := send_control s (kconn s c) TCP_ACK true (kn_syn_ts (kconn s c)) 0 in
        let! s := appif_conn_opened s c 0 in
        Ok (s, 0)
    end.

(** The ECN flag of an accepting SYN-ACK. *)
Definition ecn_accept (x : connection) : Z := if flag_set (kn_flags x) NICIF_CONN_ECN then TCP_ECE else 0.

Definition conn_reg_synack (s : kst) (c : Z) : outcome (kst * Z) :=
  let s := put_conn s c (set_status (kconn s c) CONN_OPEN) in
  let x := kconn s c in
  let '(s, _) := send_control s x (Z.lor (Z.lor TCP_SYN TCP_ACK) (ecn_accept x)) true (kn_syn_ts x) TCP_MSS in
  let s := send_control_tap_rev s x TCP_ACK true (kn_syn_ts x) (kn_syn_ecr x) 0 in
  let! s := appif_accept_conn s c 0 in
  Ok (s, 0).

Definition conn_packet (s : kst) (c : Z) (p : pkt_tcp) (o : tcp_opts) (fn_core flow_group : Z) : outcome kst :=
  let x := kconn s c in
  let flags := TCPH_FLAGS (p_tcp p) in
  if bool_decide (kn_status x = CONN_SYN_SENT) then
    let x := x <| kn_fn_core := fn_core |> <| kn_cc := kn_cc x <| cn_flow_group := flow_group |> |> in
    let! (s, ret) := conn_syn_sent_packet (put_conn s c x) c p o in
    if negb (ret =? 0) then conn_failed s c ret else Ok s
  else if bool_decide (kn_status x = CONN_OPEN) && (flags =? TCP_SYN) then
    match op_ts o with
    | None => conn_failed s c (-1)
    | Some tso =>
      Ok (fst (send_control s x (Z.lor (Z.lor TCP_SYN TCP_ACK) (ecn_accept x)) true (opt_ts_val p tso) TCP_MSS))
    end
  else Ok s.

(** ** Opening *)

(** [tcp_open]: the return value and [*pconn] (0 when it is not set); [mp] and
    [me] are the results of [malloc] for the connection and for an ARP entry. *)
Definition tcp_open (s : kst) (mp me : option Z) (ctx opaque remote_ip remote_port db_id : Z)
    (objconn objnohash : bool) : outcome (kst * Z * Z) :=
  match conn_alloc s mp with
  | (s, None) => Ok (s, -1, 0)
  | (s, Some c) =>
    let! (s, local_port) := port_alloc s in
    if local_port =? 0 then Ok (conn_free s c, -1, 0)
    else
      let x := kconn s c <| kn_ctx := ctx |> <| kn_opaque := opaque |> in
      let x := set_status x CONN_ARP_PENDING in
      let x := x <| kn_remote_ip := remote_ip |> <| kn_local_ip := cf_ip config |>
                 <| kn_remote_port := remote_port |> <| kn_local_port := local_port |>
                 <| kn_local_seq := 0 |> <| kn_remote_seq := 0 |>
                 <| kn_cc := kn_cc x <| cn_cnt_tx_pending := 0 |> |> <| kn_db_id := db_id |>
                 <| kn_flags := Z.lor (if objconn then NICIF_CONN_OBJCONN else 0)
                                  (if objnohash then NICIF_CONN_OBJNOHASH else 0) |>
                 <| kn_comp_status := 0 |> in
      let! (s, ret) := routing_resolve (put_conn s c x) c remote_ip me in
      if ret <? 0 then Ok (conn_free s c, -1, 0)
      else
        let! (s, ret) :=
          if ret =? 0 then conn_arp_done (s <| k_tcp_conns := c :: k_tcp_conns s |>) c
          else Ok (conn_register s c, 0) in
        Ok (s <| k_ports := <[local_port := PORT_TYPE_CONN c]> (k_ports s) |>, ret, c)
  end.

Definition listener_new (ctx opaque local_port backlog : Z) (objconn objnohash : bool) : listener :=
  mk_listener opaque ctx backlog 0 0 ∅ [] local_port
    (Z.lor (if objconn then NICIF_CONN_OBJCONN else 0) (if objnohash then NICIF_CONN_OBJNOHASH else 0)).

(** [tcp_listen]: [mlm], [ml] are the results of [calloc] for the list of
    listeners and the listener, [mb] whether the backlog could be allocated. *)
Definition tcp_listen (s : kst) (mlm ml : option Z) (mb : bool) (ctx opaque local_port backlog : Z)
    (reuseport objconn objnohash : bool) : kst * Z * Z :=
  let fail := (s, -1, 0) in
  let alloc (k : Z -> kst * Z * Z) :=
    match ml with Some l => if mb then k l else fail | None => fail end in
  let add l := put_listen s l (listener_new ctx opaque local_port backlog objconn objnohash) in
  match k_ports s !!! local_port with
  | PORT_TYPE_UNUSED =>
    if reuseport then
      match mlm with
      | None => fail
      | Some lm => alloc (fun l =>
          (add l <| k_lmulti := <[lm := [l]]> (k_lmulti s) |>
                 <| k_ports := <[local_port := PORT_TYPE_LMULTI lm]> (k_ports s) |>, 0, l))
      end
    else alloc (fun l => (add l <| k_ports := <[local_port := PORT_TYPE_LISTEN l]> (k_ports s) |>, 0, l))
  | PORT_TYPE_LMULTI lm =>
    if negb reuseport then fail
    else
      let ls := k_lmulti s !!! lm in
      if (length ls =? LISTEN_MULTI_MAX)%nat then fail
      else alloc (fun l => (add l <| k_lmulti := <[lm := ls ++ [l]]> (k_lmulti s) |>, 0, l))
  | _ => fail
  end.

(** ** Accepting *)

Definition listener_accept (s : kst) (l : Z) : outcome kst :=
  let ln := klisten s l in
  match ln_wait_conns ln with
  | [] => Crash
  | c :: waiting =>
    let! _ := assert_ (0 <? ln_backlog_used ln) in
    let slot := ln_backlog ln !!! ln_backlog_pos ln in
    let p := bytes_pkt (bl_buf slot) in
    let out (s : kst) :=
      let ln := klisten s l in
      let pos := u32 (ln_backlog_pos ln + 1) in
      put_listen s l (ln <| ln_backlog_used := u32 (ln_backlog_used ln - 1) |>
        <| ln_backlog_pos := if ln_backlog_len ln <=? pos then pos - ln_backlog_len ln else pos |>) in
    let! (ret, o) := parse_options p (bl_len slot) in
    match op_ts o with
    | None => Ok (out s)
    | Some tso =>
      if negb (ret =? 0) then Ok (out s)
      else
        let x := kconn s c in
        let x := x <| kn_fn_core := bl_core slot |> <| kn_cc := kn_cc x <| cn_flow_group := bl_fg slot |> |>
                   <| kn_remote_mac := le_value (eth_src (p_eth p)) |>
                   <| kn_remote_ip := f_beui32 (ip_src (p_ip p)) |> <| kn_local_ip := cf_ip config |>
                   <| kn_remote_port := f_beui16 (tcp_src (p_tcp p)) |> <| kn_local_port := ln_port ln |>
                   <| kn_remote_seq := u32 (f_beui32 (tcp_seqno (p_tcp p)) + 1) |> <| kn_local_seq := 1 |>
                   <| kn_syn_ts := opt_ts_val p tso |> in
        let x := if ecn_bits p =? Z.lor TCP_ECE TCP_CWR
                 then x <| kn_flags := Z.lor (kn_flags x) NICIF_CONN_ECN |> else x in
        let! s := conn_cc_init (put_conn s c x) c in
        let s := put_conn s c (set_status (kconn s c) CONN_REG_SYNACK <| kn_comp_status := 0 |>) in
        let! (s, ret) := conn_nic_add s c (u32 (kn_local_seq (kconn s c) + 1)) in
        if negb (ret =? 0) then Ok (out s)
        else
          let s := put_listen s l (klisten s l <| ln_wait_conns := waiting |>) in
          let s := s <| k_tcp_conns := c :: k_tcp_conns s |> in
          let s := tap_write s (take (Z.to_nat (bl_len slot)) (bl_buf slot)) in
          let s := s <| k_async := nbqueue_enq (k_async s) c |> in
          Ok (out s)
    end
  end.

(** [tcp_accept]; a null listener is dereferenced. *)
Definition tcp_accept (s : kst) (mp : option Z) (ctx opaque : Z) (listen : option Z) (db_id : Z)
    : outcome (kst * Z) :=
  match conn_alloc s mp with
  | (s, None) => Ok (s, -1)
  | (s, Some c) =>
    match listen with
    | None => Crash
    | Some l =>
      let ln := klisten s l in
      let x := set_status (kconn s c <| kn_ctx := ctx |> <| kn_opaque := opaque |>) CONN_SYN_WAIT in
      let x := x <| kn_local_port := ln_port ln |> <| kn_db_id := db_id |> <| kn_flags := ln_flags ln |>
                 <| kn_cc := kn_cc x <| cn_cnt_tx_pending := 0 |> |> in
      let s := put_conn s c x in
      let s := put_listen s l (ln <| ln_wait_conns := c :: ln_wait_conns ln |>) in
      let! s := if 0 <? ln_backlog_used ln then listener_accept s l else Ok s in
      Ok (s, 0)
    end
  end.

Definition send_reset (s : kst) (p : pkt_tcp) (o : tcp_opts) : kst :=
  let '(ts_opt, ts_val) := match op_ts o with Some tso => (true, opt_ts_val p tso) | None => (false, 0) end in
  fst (send_control_raw s (le_value (eth_src (p_eth p))) (f_beui32 (ip_src (p_ip p)))
         (f_beui16 (tcp_src (p_tcp p))) (f_beui16 (tcp_dest (p_tcp p))) (f_beui32 (tcp_ackno (p_tcp p)))
         (u32 (f_beui32 (tcp_seqno (p_tcp p)) + 1)) (Z.lor TCP_RST TCP_ACK) ts_opt ts_val 0).

(** The same four-tuple. *)
Definition same_tuple (p q : pkt_tcp) : bool :=
  (f_beui32 (ip_src (p_ip p)) =? f_beui32 (ip_src (p_ip q))) &&
  (f_beui32 (ip_dest (p_ip p)) =? f_beui32 (ip_dest (p_ip q))) &&
  (f_beui16 (tcp_src (p_tcp p)) =? f_beui16 (tcp_src (p_tcp q))) &&
  (f_beui16 (tcp_dest (p_tcp p)) =? f_beui16 (tcp_dest (p_tcp q))).

(** The search for the packet's tuple in the [n] backlog entries from [bp] on. *)
Fixpoint backlog_has (n : nat) (ln : listener) (bp : Z) (p : pkt_tcp) : bool :=
  match n with
  | O => false
  | S n => same_tuple p (bytes_pkt (bl_buf (ln_backlog ln !!! bp))) ||
           backlog_has n ln (u32 (bp + 1) mod ln_backlog_len ln) p
  end.

(** [listener_packet]; [buf] is the memory from the packet on. *)
Definition listener_packet (s : kst) (l : Z) (buf : list Z) (o : tcp_opts) (fn_core flow_group : Z)
    : outcome kst :=
  let p := bytes_pkt buf in
  let ln := klisten s l in
  if negb (Z.land (TCPH_FLAGS (p_tcp p)) (u32 (Z.lnot (Z.lor TCP_ECE TCP_CWR))) =? TCP_SYN)
  then Ok (send_reset s p o)
  else if ln_backlog_len ln =? ln_backlog_used ln then Ok s
  else
    let len := u16 (SZ_ETH + f_beui16 (ip_len (p_ip p))) in
    if BACKLOG_BUF <? len then Ok s
    else if backlog_has (Z.to_nat (ln_backlog_used ln)) ln (ln_backlog_pos ln) p then Ok s
    else
      let bp := u32 (ln_backlog_pos ln + ln_backlog_used ln) in
      let bp := if ln_backlog_len ln <=? bp then bp - ln_backlog_len ln else bp in
      let old := bl_buf (ln_backlog ln !!! bp) in
      let slot := mk_backlog_slot (slice buf 0 len ++ drop (Z.to_nat len) old) len fn_core flow_group in
      let ln := ln <| ln_backlog := <[bp := slot]> (ln_backlog ln) |>
                   <| ln_backlog_used := u32 (ln_backlog_used ln + 1) |> in
      let s := put_listen s l ln in
      let! s := appif_listen_newconn s l (f_beui32 (ip_src (p_ip p))) (f_beui16 (tcp_src (p_tcp p))) in
      match ln_wait_conns (klisten s l) with
      | [] => Ok s
      | _ => listener_accept s l
      end.

Definition hash_64_to_32 (key : Z) : Z :=
  let key := u64 (Z.lnot key + Z.shiftl key 18) in
  let key := Z.lxor key (Z.shiftr key 31) in
  let key := u64 (key * 21) in
  let key := Z.lxor key (Z.shiftr key 11) in
  let key := u64 (key + Z.shiftl key 6) in
  let key := Z.lxor key (Z.shiftr key 22) in
  u32 key.

Definition listener_lookup (s : kst) (p : pkt_tcp) : outcome (option Z) :=
  let local_port := f_beui16 (tcp_dest (p_tcp p)) in
  match k_ports s !!! local_port with
  | PORT_TYPE_LISTEN l => Ok (Some l)
  | PORT_TYPE_LMULTI lm =>
    let ls := k_lmulti s !!! lm in
    let hash := hash_64_to_32 (Z.lor (Z.lor (u64 (Z.shiftl (f_beui32 (ip_src (p_ip p))) 32))
                  (u32 (Z.shiftl (f_beui16 (tcp_src (p_tcp p))) 16))) local_port) in
    if (length ls =? 0)%nat then Crash
    else Ok (ls !! Z.to_nat (hash mod Z.of_nat (length ls)))
  | _ => Ok None
  end.

(** ** Packets, timeouts, polling *)

(** [tcp_packet]; [buf] is the memory from the packet on. *)
Definition tcp_packet (s : kst) (buf : list Z) (len fn_core flow_group : Z) : outcome kst :=
  let p := bytes_pkt buf in
  if len <? SZ_PKT_TCP then Ok s
  else if negb (f_beui32 (ip_dest (p_ip p)) =? cf_ip config) then Ok s
  else
    let! (ret, o) := parse_options p len in
    if negb (ret =? 0) then Ok s
    else
      match conn_lookup s p with
      | Some c => conn_packet s c p o fn_core flow_group
      | None =>
        let! r := listener_lookup s p in
        match r with
        | Some l => listener_packet s l buf o fn_core flow_group
        | None => Ok (send_reset s p o)
        end
      end.

Definition tcp_timeout (s : kst) (c : Z) (type : Z) : outcome kst :=
  let x := kconn s c in
  let! _ := assert_ (kn_to_armed x) in
  let s := put_conn s c (x <| kn_to_armed := false |>) in
  if negb (type =? TO_TCP_HANDSHAKE) then Crash
  else if negb (bool_decide (kn_status x = CONN_SYN_SENT)) then Crash
  else
    let n := kn_to_attempts x + 1 in
    let s := put_conn s c (kconn s c <| kn_to_attempts := n |>) in
    if cf_tcp_handshake_retries config <? n then conn_failed s c (-1)
    else
      let s := put_conn s c (kconn s c <| kn_timeout := u32 (kn_timeout x * 2) |>) in
      let! s := conn_timeout_arm s c in
      Ok (fst (send_control s (kconn s c) (Z.lor (Z.lor TCP_SYN TCP_ECE) TCP_CWR) true 0 TCP_MSS)).

(** [tcp_poll] handles every connection in the queue; nothing it calls adds to
    the queue. *)
Fixpoint tcp_poll_loop (fuel : nat) (s : kst) : outcome kst :=
  match fuel with
  | O => Spin
  | S fuel =>
    match nbqueue_deq (k_async s) with
    | (_, None) => Ok s
    | (q, Some c) =>
      let s := s <| k_async := q |> in
      let x := kconn s c in
      let! s :=
        match kn_status x with
        | CONN_ARP_PENDING =>
          if negb (kn_comp_status x =? 0) then conn_failed s c (kn_comp_status x)
          else
            let! (s, ret) := conn_arp_done s c in
            if negb (ret =? 0) then conn_failed s c ret else Ok s
        | _ => Ok s
        end in
      tcp_poll_loop fuel s
    end
  end.

Definition tcp_poll (s : kst) : outcome kst := tcp_poll_loop (S (length (k_async s))) s.

(** ** Frames from the TAP device *)

(** The body of the loop of [tap_poll] for a frame of [len] bytes. *)
Definition tap_packet (s : kst) (buf : list Z) (len : Z) : outcome kst :=
  let p := bytes_pkt buf in
  let frame := take (Z.to_nat len) buf in
  if f_beui16 (eth_type (p_eth p)) =? ETH_TYPE_ARP then
    if len <? SZ_PKT_ARP then Ok s else Ok (arp_packet_tap s buf)
  else if f_beui16 (eth_type (p_eth p)) =? ETH_TYPE_IP then
    if len <? SZ_ETH + SZ_IP then Ok s
    else if ip_proto (p_ip p) =? IP_PROTO_TCP then
      if len <? SZ_PKT_TCP then Ok s
      else
        let! (_, o) := parse_options p len in
        match conn_lookup_rev s p with
        | None => send_network_raw s frame
        | Some c =>
          if bool_decide (kn_status (kconn s c) = CONN_REG_SYNACK) then
            match op_ts o with
            | None => Crash
            | Some tso =>
              let x := kconn s c <| kn_linux_seq := u32 (f_beui32 (tcp_seqno (p_tcp p)) + 1) |>
                         <| kn_remote_seq := f_beui32 (tcp_ackno (p_tcp p)) |>
                         <| kn_syn_ecr := opt_ts_ecr p tso |> in
              let s := put_conn s c x in
              if negb (kn_comp_status x =? 0) then conn_failed s c (kn_comp_status x)
              else
                let! (s, ret) := conn_reg_synack s c in
                if negb (ret =? 0) then conn_failed s c ret else Ok s
            end
          else if Z.land (TCPH_FLAGS (p_tcp p)) (Z.lor TCP_SYN TCP_ACK) =? Z.lor TCP_SYN TCP_ACK then
            Ok (send_control_tap_rev s (kconn s c) TCP_ACK true (kn_syn_ts (kconn s c))
                  (kn_syn_ecr (kconn s c)) 0)
          else Ok s
        end
    else send_network_raw s frame
  else Ok s.
End Tcp.
