(* ===== verification/Appif.v ===== *)
(** Requests of applications: the queues of an application context and the
    handlers of kernel/appif_ctx.c. *)
From stdpp Require Import base numbers list gmap.
From Stdlib Require Import ZArith Lia.
From S2P Require Import Prelude Timeout Packet FlowState Qman Dma FastPath NicIf CC PacketMem KernelState Arp KernelTcp.

Definition KERNEL_APPOUT_OPEN_OBJSOCK : Z := 1.
Definition KERNEL_APPOUT_OPEN_OBJNOHASH : Z := 2.
Definition KERNEL_APPOUT_LISTEN_REUSEPORT : Z := 1.
Definition KERNEL_APPOUT_LISTEN_OBJSOCK : Z := 2.
Definition KERNEL_APPOUT_LISTEN_OBJNOHASH : Z := 4.

(** The results of the calls of [malloc] a request may make. *)
Record mallocs := mk_mallocs
  { ml_conn : option Z; ml_arp : option Z; ml_lm : option Z; ml_listener : option Z; ml_backlog : bool }.

Section Appif.
Context `{Platform} `{KEnv}.

(** Every handler returns how many entries of the queue to the application it
    used. *)
Definition kin_conn_open (s : kst) (ml : mallocs) (app ctx opaque remote_ip flags remote_port : Z)
    : outcome (kst * Z) :=
  let! (s, ret, conn) := tcp_open s (ml_conn ml) (ml_arp ml) ctx opaque remote_ip remote_port
                           (ax_doorbell_id (kctx s ctx))
                           (negb (Z.land flags KERNEL_APPOUT_OPEN_OBJSOCK =? 0))
                           (negb (Z.land flags KERNEL_APPOUT_OPEN_OBJNOHASH =? 0)) in
  if ret =? 0 then
    let ap := k_app s !!! app in
    Ok (s <| k_app := <[app := ap <| ap_conns := conn :: ap_conns ap |>]> (k_app s) |>, 0)
  else
    let! s := kout_write s ctx (KERNEL_APPIN_CONN_OPENED opaque (-1) None) in Ok (s, 1).

Definition kin_conn_move (s : kst) (app ctx opaque remote_ip local_ip remote_port local_port db_id : Z)
    : outcome (kst * Z) :=
  let error := let! s := kout_write s ctx (KERNEL_APPIN_STATUS_CONN_MOVE opaque (-1)) in Ok (s, 1) in
  let ap := k_app s !!! app in
  let found c :=
    let x := kconn s c in
    (kn_local_ip x =? local_ip) && (kn_remote_ip x =? remote_ip) && (kn_local_port x =? local_port) &&
    (kn_remote_port x =? remote_port) && (kn_opaque x =? opaque) in
  match List.find found (ap_conns ap) with
  | None => error
  | Some c =>
    match List.find (fun x => ax_doorbell_id (kctx s x) =? db_id) (ap_contexts ap) with
    | None => error
    | Some new_ctx =>
      if negb (bool_decide (kn_status (kconn s c) = CONN_OPEN)) then error
      else
        let s := s <| k_nic := nicif_connection_move (k_nic s) (ax_doorbell_id (kctx s new_ctx))
                                 (kn_flow_id (kconn s c)) |> in
        let! s := kout_write s ctx (KERNEL_APPIN_STATUS_CONN_MOVE opaque 0) in Ok (s, 1)
    end
  end.

Definition kin_listen_open (s : kst) (ml : mallocs) (app ctx opaque backlog local_port flags : Z)
    : outcome (kst * Z) :=
  let '(s, ret, l) := tcp_listen s (ml_lm ml) (ml_listener ml) (ml_backlog ml) ctx opaque local_port backlog
                        (negb (Z.land flags KERNEL_APPOUT_LISTEN_REUSEPORT =? 0))
                        (negb (Z.land flags KERNEL_APPOUT_LISTEN_OBJSOCK =? 0))
                        (negb (Z.land flags KERNEL_APPOUT_LISTEN_OBJNOHASH =? 0)) in
  if ret =? 0 then
    let ap := k_app s !!! app in
    let s := s <| k_app := <[app := ap <| ap_listeners := l :: ap_listeners ap |>]> (k_app s) |> in
    let! s := kout_write s ctx (KERNEL_APPIN_STATUS_LISTEN_OPEN opaque 0) in Ok (s, 1)
  else
    let! s := kout_write s ctx (KERNEL_APPIN_STATUS_LISTEN_OPEN opaque (-1)) in Ok (s, 1).

(** The search for the listener may end without a result; [tcp_accept] gets
    the null pointer then. *)
Definition kin_accept_conn (s : kst) (ml : mallocs) (app ctx listen_opaque conn_opaque local_port : Z)
    : outcome (kst * Z) :=
  let listen := List.find (fun l => (ln_port (klisten s l) =? local_port) &&
                                    (ln_opaque (klisten s l) =? listen_opaque))
                  (ap_listeners (k_app s !!! app)) in
  let! (s, ret) := tcp_accept s (ml_conn ml) ctx conn_opaque listen (ax_doorbell_id (kctx s ctx)) in
  if ret =? 0 then Ok (s, 0)
  else
    let! s := kout_write s ctx (KERNEL_APPIN_ACCEPTED_CONN conn_opaque (-1) None) in Ok (s, 1).

(** [appif_ctx_poll]: the new state and whether a request was handled.
    Scaling the number of cores is not part of the state. *)
Definition appif_ctx_poll (s : kst) (ml : mallocs) (app ctx : Z) : outcome (kst * Z) :=
  let a := kctx s ctx in
  let done (r : outcome (kst * Z)) : outcome (kst * Z) :=
    let! (s, inc) := r in
    let pos := u32 (ax_kin_pos a + 1) in
    let a' := kctx s ctx in
    let s := put_ctx s ctx (a' <| ax_kin_pos := if ax_kin_len a' <=? pos then 0 else pos |>) in
    let s :=
      if 0 <? inc then
        let kout_pos := u32 (ax_kout_pos a + inc) in
        let a' := kctx s ctx in
        put_ctx s ctx (a' <| ax_kout_pos := if ax_kout_len a' <=? kout_pos then 0 else kout_pos |>)
      else s in
    Ok (s, 1) in
  if negb (kout_room a) then Ok (s, 0)
  else
    match ax_kin a !!! ax_kin_pos a with
    | KERNEL_APPOUT_INVALID => Ok (s, 0)
    | KERNEL_APPOUT_CONN_OPEN opaque remote_ip flags remote_port =>
      done (kin_conn_open s ml app ctx opaque remote_ip flags remote_port)
    | KERNEL_APPOUT_CONN_MOVE opaque remote_ip local_ip remote_port local_port db_id =>
      done (kin_conn_move s app ctx opaque remote_ip local_ip remote_port local_port db_id)
    | KERNEL_APPOUT_LISTEN_OPEN opaque backlog local_port flags =>
      done (kin_listen_open s ml app ctx opaque backlog local_port flags)
    | KERNEL_APPOUT_ACCEPT_CONN listen_opaque conn_opaque local_port =>
      done (kin_accept_conn s ml app ctx listen_opaque conn_opaque local_port)
    | KERNEL_APPOUT_REQ_SCALE _ => done (Ok (s, 0))
    | KERNEL_APPOUT_CONN_CLOSE | KERNEL_APPOUT_LISTEN_CLOSE => done (Ok (s, 0))
    end.
End Appif.
