(* ===== verification/Kernel.v ===== *)
(** The kernel's main loop (kernel/kernel.c) and the dispatch of packets and
    timeouts to the modules. *)
From stdpp Require Import base numbers list gmap.
From Stdlib Require Import ZArith Lia.
From S2P Require Import Prelude LinkedList Timeout Qman Packet FlowState TcpCommon Dma FastPath FastRx Queues NicIf CC PacketMem KernelState Arp KernelTcp Appif.

Section Kernel.
Context `{Platform} `{KEnv}.

(** [timeout_trigger] *)
Definition timeout_trigger (s : kst) (to type : Z) : outcome kst :=
  if type =? TO_ARP_REQ then arp_timeout s (timer_owner to)
  else if (type =? TO_TCP_HANDSHAKE) || (type =? TO_TCP_RETRANSMIT) then tcp_timeout s (timer_owner to) type
  else Crash.

(** The handler as [util_timeout_poll_ts] calls it: the manager is part of the
    kernel's state. *)
Definition timeout_handler (m : timeout_manager) (s : kst) (to type : Z) : outcome (timeout_manager * kst) :=
  let! s := timeout_trigger (s <| k_timers := m |>) to type in Ok (k_timers s, s).

Definition kernel_timeouts (s : kst) (cur_ts : Z) : outcome kst :=
  let! (m, s) := util_timeout_poll_ts timeout_handler (k_timers s) s cur_ts in
  Ok (s <| k_timers := m |>).

(** One entry of the queue from the NIC, as [rxq_poll] hands it on; the
    handlers see the memory from the packet on. *)
Definition kernel_rxq_poll (s : kst) : outcome (kst * Z) :=
  match rxq_poll (k_nic s) with
  | (n, None) => Ok (s <| k_nic := n |>, -1)
  | (n, Some (buf, len, core, group, d)) =>
    let bytes := mem_read (nc_mem n) buf (Z.to_nat PKTBUF_SIZE) in
    let s := s <| k_nic := n |> in
    match d with
    | to_arp => let! s := arp_packet s bytes in Ok (s, 0)
    | to_tcp => let! s := tcp_packet s bytes len core group in Ok (s, 0)
    | to_none => Ok (s, 0)
    end
  end.

(** [nicif_poll]: 16 times. *)
Fixpoint nicif_poll_loop (n : nat) (s : kst) (ret : Z) : outcome (kst * Z) :=
  match n with
  | O => Ok (s, ret)
  | S n =>
    let! (s, r) := kernel_rxq_poll s in
    nicif_poll_loop n s (if r =? -1 then ret else ret + 1)
  end.
Definition nicif_poll (s : kst) : outcome (kst * Z) := nicif_poll_loop 16 s 0.

(** How long the main loop sleeps when it is idle, in milliseconds, from the
    next deadlines of congestion control and of the timers. *)
Definition idle_timeout (cc_timeout util_timeout : Z) : Z :=
  let timeout_us :=
    if negb (cc_timeout =? UINT32_MAX) && negb (util_timeout =? UINT32_MAX) then MIN cc_timeout util_timeout
    else if negb (cc_timeout =? UINT32_MAX) then util_timeout
    else cc_timeout in
  let timeout_ms := if negb (timeout_us =? UINT32_MAX) then timeout_us / 1000 else -1 in
  if (timeout_ms =? -1) || (1000 <? timeout_ms) then 10 else timeout_ms.
End Kernel.
