(* ===== verification/KernelTimers.v ===== *)
(** The timers of the kernel process: which timers are armed, in which state
    their owners are, and that the timer handlers of kernel/tcp.c and
    kernel/arp.c never run into one of their aborts.

    An armed timer belongs to a connection that waits for a SYN-ACK or to an
    ARP entry that waits for a reply, and every connection with [to_armed] and
    every waiting ARP entry has its timer in the manager's lists. *)
From stdpp Require Import base numbers list gmap.
From Stdlib Require Import ZArith Lia.
From S2P Require Import Prelude LinkedList Timeout Qman Packet FlowState TcpCommon Dma FastPath FastRx Queues NicIf CC PacketMem.
From S2P Require Import KernelState Arp KernelTcp Appif Kernel.

(** ** Reading the state through updates *)

Lemma kconn_put s c x c' : kconn (put_conn s c x) c' = if decide (c = c') then x else kconn s c'.
Proof.
  unfold kconn, put_conn. cbn. case_decide; subst;
    [apply lookup_total_insert_eq | apply lookup_total_insert_ne; auto].
Qed.
Lemma kconn_put_eq s c x : kconn (put_conn s c x) c = x.
Proof. rewrite kconn_put, decide_True; reflexivity. Qed.
Lemma karp_put s e x e' : karp (put_arp s e x) e' = if decide (e = e') then x else karp s e'.
Proof.
  unfold karp, put_arp. cbn. case_decide; subst;
    [apply lookup_total_insert_eq | apply lookup_total_insert_ne; auto].
Qed.
Lemma kctx_put s i x i' : kctx (put_ctx s i x) i' = if decide (i = i') then x else kctx s i'.
Proof.
  unfold kctx, put_ctx. cbn. case_decide; subst;
    [apply lookup_total_insert_eq | apply lookup_total_insert_ne; auto].
Qed.
Lemma klisten_put s l x l' : klisten (put_listen s l x) l' = if decide (l = l') then x else klisten s l'.
Proof.
  unfold klisten, put_listen. cbn. case_decide; subst;
    [apply lookup_total_insert_eq | apply lookup_total_insert_ne; auto].
Qed.

(** ** The invariant *)

(** Waiting for an address or for a SYN-ACK. *)
Definition opening (x : connection) : Prop := kn_status x = CONN_ARP_PENDING \/ kn_status x = CONN_SYN_SENT.

Section Inv.
Context `{Platform} `{KEnv}.

(** The bounds on the configuration: no handshake timeout, also after all
    retries and with the random half on top, and no ARP timeout reaches the
    timer manager's limit of 2^27 microseconds. *)
Record config_ok : Prop := mk_config_ok
  { co_to : 0 < cf_tcp_handshake_to config;
    co_retries : 0 <= cf_tcp_handshake_retries config;
    co_max : 3 * (cf_tcp_handshake_to config * 2 ^ cf_tcp_handshake_retries config) < 2 * HORIZON;
    co_arp : 0 <= cf_arp_to config < HORIZON;
    co_arp_max : cf_arp_to_max config <= HORIZON }.

(** A connection whose timer is armed. *)
Definition handshaking (x : connection) : Prop :=
  kn_status x = CONN_SYN_SENT /\ 0 <= kn_to_attempts x <= cf_tcp_handshake_retries config /\
  kn_timeout x = cf_tcp_handshake_to config * 2 ^ kn_to_attempts x.

(** An opening connection has an application to notify and, unless it is
    [E], is in the list of connections. *)
Definition slot_ok (E : option Z) (s : kst) (c : Z) (x : connection) : Prop :=
  (opening x -> ax_evfd (kctx s (kn_ctx x)) <> 0 /\ (Some c <> E -> c ∈ k_tcp_conns s)) /\
  (kn_to_armed x = true -> handshaking x).

(** The owner of a timer. *)
Definition timer_of (s : kst) (t : timer) : Prop :=
  (exists c, t_id t = conn_timer c /\ t_type t = TO_TCP_HANDSHAKE /\ kn_to_armed (kconn s c) = true) \/
  (exists e, t_id t = arp_timer e /\ t_type t = TO_ARP_REQ /\ e ∈ k_arp_table s /\ ae_status (karp s e) = 1).

Definition arp_ok (s : kst) (l : list timer) (e : Z) : Prop :=
  e ∈ k_arp_table s -> is_Some (k_arp s !! e) /\ (ae_status (karp s e) = 1 -> arp_timer e ∈ map t_id l).

Record timers_match (E : option Z) (s : kst) (l : list timer) : Prop := mk_timers_match
  { tm_of : forall t, t ∈ l -> timer_of s t;
    tm_slot : forall c, slot_ok E s c (kconn s c);
    tm_armed : forall c, kn_to_armed (kconn s c) = true -> conn_timer c ∈ map t_id l;
    tm_arp : forall e, arp_ok s l e }.

(** Who owns a connection: the list of connections or one listener. *)
Record lists_ok (s : kst) : Prop := mk_lists_ok
  { lo_nodup : NoDup (k_tcp_conns s);
    lo_alloc : forall c, c ∈ k_tcp_conns s -> is_Some (k_conns s !! c);
    lo_wait_nodup : forall l, NoDup (ln_wait_conns (klisten s l));
    lo_wait_uniq : forall l l' c, c ∈ ln_wait_conns (klisten s l) -> c ∈ ln_wait_conns (klisten s l') -> l = l';
    lo_wait : forall l c, c ∈ ln_wait_conns (klisten s l) -> is_Some (k_conns s !! c) /\ c ∉ k_tcp_conns s }.

(** Both lists of the manager together; no pending deadline is before [lo] or
    2^27 microseconds after [T]. *)
Definition kt (E : option Z) (lo T : Z) (s : kst) : Prop := exists pend due,
  timers_rep (k_timers s) pend due /\ Forall (fun t => lo <= t_deadline t < T + HORIZON) pend /\
  timers_match E s (pend ++ due) /\ lists_ok s.

(** The invariant between two handlers at time [T]. *)
Definition kernel_timers_ok (T : Z) (s : kst) : Prop := kt None (T - HORIZON + 1) T s.

(** ** Timers and their names *)

Lemma conn_timer_inj c c' : conn_timer c = conn_timer c' -> c = c'.
Proof. unfold conn_timer. lia. Qed.
Lemma arp_timer_inj e e' : arp_timer e = arp_timer e' -> e = e'.
Proof. unfold arp_timer. lia. Qed.
Lemma conn_arp_timer c e : conn_timer c <> arp_timer e.
Proof. unfold conn_timer, arp_timer. lia. Qed.
Lemma owner_conn c : timer_owner (conn_timer c) = c.
Proof. unfold timer_owner, conn_timer. Z.div_mod_to_equations; lia. Qed.
Lemma owner_arp e : timer_owner (arp_timer e) = e.
Proof. unfold timer_owner, arp_timer. Z.div_mod_to_equations; lia. Qed.

(** Only timer [x] differs between two lists. *)
Definition same_but (x : Z) (l l' : list timer) : Prop :=
  forall t, t_id t <> x -> t ∈ l <-> t ∈ l'.

Lemma same_but_ids x l l' y : same_but x l l' -> y <> x -> y ∈ map t_id l -> y ∈ map t_id l'.
Proof.
  intros S Hy Hin. apply list_elem_of_fmap in Hin as (t & -> & Ht).
  apply list_elem_of_fmap. exists t. split; [reflexivity|]. apply S; auto.
Qed.

Lemma same_but_sym x l l' : same_but x l l' -> same_but x l' l.
Proof. intros S t Ht. rewrite (S t Ht). reflexivity. Qed.

Lemma same_but_cons l l' t : l' ≡ₚ t :: l -> same_but (t_id t) l l'.
Proof. intros P u Hu. rewrite P, elem_of_cons. intuition congruence. Qed.

Lemma same_but_without x l l' : l' = without x l -> same_but x l l'.
Proof. intros -> t Ht. unfold without. rewrite list_elem_of_filter. tauto. Qed.

(** ** Updates that respect the invariant *)

Lemma tm_put_conn E s l l' c x' :
  timers_match E s l -> slot_ok E s c x' -> same_but (conn_timer c) l l' ->
  (forall t, t ∈ l' -> t_id t = conn_timer c -> t_type t = TO_TCP_HANDSHAKE /\ kn_to_armed x' = true) ->
  (kn_to_armed x' = true -> conn_timer c ∈ map t_id l') ->
  timers_match E (put_conn s c x') l'.
Proof.
  intros [Of Sl Ar Ap] Hx SB Ht Ha. split.
  - intros t Hin. destruct (decide (t_id t = conn_timer c)) as [e|n].
    + left. exists c. destruct (Ht t Hin e). rewrite kconn_put_eq. auto.
    + destruct (Of t (proj2 (SB t n) Hin)) as [(c' & E1 & E2 & E3)|R]; [left|right; exact R].
      exists c'. rewrite kconn_put, decide_False by (intros ->; auto). auto.
  - intros c'. rewrite kconn_put. case_decide as D; [subst; exact Hx | apply Sl].
  - intros c'. rewrite kconn_put. case_decide as D; [subst; exact Ha|]. intros E'.
    apply (same_but_ids (conn_timer c) l); auto. intros E''. apply D. symmetry. apply conn_timer_inj, E''.
  - intros e He. destruct (Ap e He) as [A B]. split; [exact A|]. intros E'. apply (same_but_ids (conn_timer c) l); auto.
    apply not_eq_sym, conn_arp_timer.
Qed.

(** A connection that keeps its timer. *)
Lemma tm_keep_conn E s l c x' :
  timers_match E s l -> slot_ok E s c x' -> kn_to_armed x' = kn_to_armed (kconn s c) ->
  timers_match E (put_conn s c x') l.
Proof.
  intros T Hx Ea. eapply tm_put_conn; eauto; [intros t _; reflexivity| |].
  - intros t Hin Et. destruct (tm_of _ _ _ T t Hin) as [(c' & E1 & E2 & E3)|(e & E1 & _)].
    + rewrite Et in E1. apply conn_timer_inj in E1 as <-. rewrite Ea. auto.
    + rewrite Et in E1. destruct (conn_arp_timer _ _ E1).
  - intros E'. apply (tm_armed _ _ _ T). congruence.
Qed.

(** A connection that loses its timer. *)
Lemma tm_drop_conn E s l l' c x' :
  timers_match E s l -> slot_ok E s c x' -> same_but (conn_timer c) l l' -> conn_timer c ∉ map t_id l' ->
  kn_to_armed x' = false -> timers_match E (put_conn s c x') l'.
Proof.
  intros T Hx SB N Ea. eapply tm_put_conn; eauto; [|congruence].
  intros t Hin Et. destruct N. rewrite <- Et. apply list_elem_of_fmap_2, Hin.
Qed.

(** A connection that gets one. *)
Lemma tm_add_conn E s l l' c x' t :
  timers_match E s l -> slot_ok E s c x' -> l' ≡ₚ t :: l -> conn_timer c ∉ map t_id l ->
  t_id t = conn_timer c -> t_type t = TO_TCP_HANDSHAKE -> kn_to_armed x' = true ->
  timers_match E (put_conn s c x') l'.
Proof.
  intros T Hx P N Ei Et Ea. eapply tm_put_conn; eauto.
  - rewrite <- Ei. apply same_but_cons, P.
  - intros u Hu Eu. rewrite P in Hu. apply elem_of_cons in Hu as [->|Hu]; [auto|].
    destruct N. rewrite <- Eu. apply list_elem_of_fmap_2, Hu.
  - intros _. rewrite P. cbn. rewrite Ei. left.
Qed.

(** Entry [e] of the ARP table changes or comes or goes. *)
Lemma tm_set_arp E s s' l l' e :
  timers_match E s l -> same_but (arp_timer e) l l' ->
  k_conns s' = k_conns s -> k_tcp_conns s' = k_tcp_conns s -> k_ctx s' = k_ctx s ->
  (forall e', e' <> e -> k_arp s' !! e' = k_arp s !! e' /\ (e' ∈ k_arp_table s' <-> e' ∈ k_arp_table s)) ->
  arp_ok s' l' e ->
  (forall t, t ∈ l' -> t_id t = arp_timer e ->
     t_type t = TO_ARP_REQ /\ e ∈ k_arp_table s' /\ ae_status (karp s' e) = 1) ->
  timers_match E s' l'.
Proof.
  intros [Of Sl Ar Ap] SB Ec El Ex Eo Hok Ht.
  assert (Ek : forall c, kconn s' c = kconn s c) by (intros; unfold kconn; rewrite Ec; reflexivity).
  assert (Ea : forall e', e' <> e -> karp s' e' = karp s e').
  { intros e' N. unfold karp, lookup_total, map_lookup_total. rewrite (proj1 (Eo e' N)). reflexivity. }
  split.
  - intros t Hin. destruct (decide (t_id t = arp_timer e)) as [Et|Nt].
    + right. exists e. destruct (Ht t Hin Et) as (? & ? & ?). auto.
    + destruct (Of t (proj2 (SB t Nt) Hin)) as [(c & E1 & E2 & E3)|(e' & E1 & E2 & E3 & E4)]; [left|right].
      * exists c. rewrite Ek. auto.
      * assert (N : e' <> e) by congruence. exists e'. rewrite Ea, (proj2 (Eo e' N)) by auto. auto.
  - intros c. unfold slot_ok, kctx. rewrite Ek, El, Ex. apply Sl.
  - intros c. rewrite Ek. intros E'. apply (same_but_ids (arp_timer e) l); auto. apply conn_arp_timer.
  - intros e'. destruct (decide (e' = e)) as [->|N]; [exact Hok|]. unfold arp_ok.
    rewrite Ea by auto. destruct (Eo e' N) as [-> ->]. intros Hin. destruct (Ap e' Hin) as [A B].
    split; [exact A|]. intros E'. apply (same_but_ids (arp_timer e) l); auto.
    intros E''. apply N, arp_timer_inj, E''.
Qed.

(** A state that differs in nothing the invariant reads. *)
Record same_view (s s' : kst) : Prop := mk_same_view
  { sv_conn : forall c, kconn s' c = kconn s c;
    sv_alloc : forall c, is_Some (k_conns s !! c) -> is_Some (k_conns s' !! c);
    sv_conns : k_tcp_conns s' = k_tcp_conns s;
    sv_arp : k_arp s' = k_arp s;
    sv_arp_table : k_arp_table s' = k_arp_table s;
    sv_timers : k_timers s' = k_timers s;
    sv_evfd : forall x, ax_evfd (kctx s' x) = ax_evfd (kctx s x);
    sv_wait : forall l, ln_wait_conns (klisten s' l) = ln_wait_conns (klisten s l) }.

#[export] Instance same_view_preorder : PreOrder same_view.
Proof.
  split; [intros s; split; auto|]. intros s1 s2 s3 [A1 A2 A3 A4 A5 A6 A7 A8] [B1 B2 B3 B4 B5 B6 B7 B8].
  split; intros; try (etrans; eauto; fail). auto.
Qed.

Lemma tm_view E s s' l : same_view s s' -> timers_match E s l -> timers_match E s' l.
Proof.
  intros V [Of Sl Ar Ap]. assert (Ek : forall e, karp s' e = karp s e)
    by (intros; unfold karp; rewrite (sv_arp _ _ V); reflexivity).
  split.
  - intros t Ht. destruct (Of t Ht) as [(c & ? & ? & ?)|(e & ? & ? & ? & ?)]; [left; exists c | right; exists e];
      rewrite ?(sv_conn _ _ V), ?(sv_arp_table _ _ V), ?Ek; auto.
  - intros c. unfold slot_ok. rewrite (sv_conn _ _ V), (sv_evfd _ _ V), (sv_conns _ _ V). apply Sl.
  - intros c. rewrite (sv_conn _ _ V). apply Ar.
  - intros e. unfold arp_ok. rewrite Ek, (sv_arp _ _ V), (sv_arp_table _ _ V). apply Ap.
Qed.

Lemma lists_view s s' : same_view s s' -> lists_ok s -> lists_ok s'.
Proof.
  intros V [N A WN WU W]. split; rewrite ?(sv_conns _ _ V); auto.
  - intros c Hc. apply (sv_alloc _ _ V), A, Hc.
  - intros l. rewrite (sv_wait _ _ V). apply WN.
  - intros l l' c. rewrite !(sv_wait _ _ V). apply WU.
  - intros l c. rewrite (sv_wait _ _ V). intros Hc. destruct (W l c Hc) as [B D].
    split; [apply (sv_alloc _ _ V), B | exact D].
Qed.

Lemma kt_view E lo T s s' : same_view s s' -> kt E lo T s -> kt E lo T s'.
Proof.
  intros V (pend & due & R & W & M & L). exists pend, due. rewrite (sv_timers _ _ V).
  eauto 6 using tm_view, lists_view.
Qed.

Lemma lists_put s c x : lists_ok s -> lists_ok (put_conn s c x).
Proof.
  assert (P : forall c', is_Some (k_conns s !! c') -> is_Some (k_conns (put_conn s c x) !! c')).
  { intros c' Hc. cbn. rewrite lookup_insert_is_Some. destruct (decide (c = c')); auto. }
  intros [N A WN WU W]. split; [exact N | | exact WN | exact WU |].
  - intros c' Hc. apply P, A, Hc.
  - intros l c' Hc. destruct (W l c' Hc). auto.
Qed.

(** A connection that stays as it is for the timers. *)
Lemma slot_ok_same E s l c x' : timers_match E s l ->
  kn_status x' = kn_status (kconn s c) -> kn_to_armed x' = kn_to_armed (kconn s c) ->
  kn_to_attempts x' = kn_to_attempts (kconn s c) -> kn_timeout x' = kn_timeout (kconn s c) ->
  kn_ctx x' = kn_ctx (kconn s c) -> slot_ok E s c x'.
Proof.
  intros M E1 E2 E3 E4 E5. pose proof (tm_slot _ _ _ M c) as S. revert S.
  unfold slot_ok, opening, handshaking. rewrite E1, E2, E3, E4, E5. auto.
Qed.

(** A connection in a state without timer. *)
Lemma slot_ok_idle E s c x : ~ opening x -> kn_to_armed x = false -> slot_ok E s c x.
Proof. intros N A. split; [contradiction | congruence]. Qed.

Lemma kt_same_conn E lo T s c x' : kt E lo T s ->
  kn_status x' = kn_status (kconn s c) -> kn_to_armed x' = kn_to_armed (kconn s c) ->
  kn_to_attempts x' = kn_to_attempts (kconn s c) -> kn_timeout x' = kn_timeout (kconn s c) ->
  kn_ctx x' = kn_ctx (kconn s c) -> kt E lo T (put_conn s c x').
Proof.
  intros (pend & due & R & W & M & L) E1 E2 E3 E4 E5. exists pend, due. split_and!; auto using lists_put.
  apply tm_keep_conn; auto. eapply slot_ok_same; eauto.
Qed.

Lemma kt_idle_conn E lo T s c x' : kt E lo T s -> kn_to_armed (kconn s c) = false ->
  ~ opening x' -> kn_to_armed x' = false -> kt E lo T (put_conn s c x').
Proof.
  intros (pend & due & R & W & M & L) A N A'. exists pend, due. split_and!; auto using lists_put.
  apply tm_keep_conn; auto using slot_ok_idle. congruence.
Qed.

(** ** What leaves the timers alone *)

Lemma nic_view s n : same_view s (s <| k_nic := n |>).
Proof. split; auto. Qed.
Lemma async_view s q : same_view s (s <| k_async := q |>).
Proof. split; auto. Qed.
Lemma tap_view s b : same_view s (tap_write s b).
Proof. split; auto. Qed.
Lemma ports_view s p : same_view s (s <| k_ports := p |>).
Proof. split; auto. Qed.
Lemma app_view s a : same_view s (s <| k_app := a |>).
Proof. split; auto. Qed.

Lemma send_raw_view s mac ip rp lp ls rs fl ts te mss :
  same_view s (fst (send_control_raw s mac ip rp lp ls rs fl ts te mss)).
Proof. unfold send_control_raw. destruct (nicif_tx_alloc _ _) as [n [[b t]|]]; apply nic_view. Qed.

Lemma send_control_view s x fl ts te mss : same_view s (fst (send_control s x fl ts te mss)).
Proof. apply send_raw_view. Qed.

Lemma send_reset_view s p o : same_view s (send_reset s p o).
Proof. unfold send_reset. destruct (op_ts o); apply send_raw_view. Qed.

Lemma arp_tx_view s f : same_view s (fst (arp_tx s f)).
Proof. unfold arp_tx. destruct (nicif_tx_alloc _ _) as [n [[b t]|]]; apply nic_view. Qed.

Lemma send_network_view s b s' : send_network_raw s b = Ok s' -> same_view s s'.
Proof.
  unfold send_network_raw. destruct (nicif_tx_alloc _ _) as [n [[a t]|]]; [|discriminate].
  intros [= <-]. apply nic_view.
Qed.

Lemma ctx_view s i a : ax_evfd a = ax_evfd (kctx s i) -> same_view s (put_ctx s i a).
Proof. intros E. split; auto. intros x. rewrite kctx_put. case_decide; subst; auto. Qed.

Lemma kick_view s x s' : appif_ctx_kick s x = Ok s' -> same_view s s'.
Proof.
  unfold appif_ctx_kick. intros E. bind_inv E. injection E as <-.
  etrans; [|apply ctx_view; case_match; reflexivity]. case_match; [split; auto | reflexivity].
Qed.

Lemma kick_ok s x : ax_evfd (kctx s x) <> 0 -> exists s', appif_ctx_kick s x = Ok s'.
Proof.
  unfold appif_ctx_kick. intros N. rewrite (proj2 (Z.eqb_neq _ _) N). cbn [negb assert_ obind]. eauto.
Qed.

Lemma kout_write_view s x e s' : kout_write s x e = Ok s' -> same_view s s'.
Proof. unfold kout_write. intros E. apply kick_view in E. etrans; [|exact E]. apply ctx_view. reflexivity. Qed.

Lemma kout_write_ok s x e : ax_evfd (kctx s x) <> 0 -> exists s', kout_write s x e = Ok s'.
Proof. intros N. apply kick_ok. rewrite kctx_put, decide_True by reflexivity. exact N. Qed.

Lemma kout_advance_view s x n : same_view s (kout_advance s x n).
Proof. apply ctx_view. reflexivity. Qed.

Lemma listen_newconn_view s l ip port s' : appif_listen_newconn s l ip port = Ok s' -> same_view s s'.
Proof.
  unfold appif_listen_newconn. case_match; [intros [= <-]; reflexivity|]. intros E. bind_inv E.
  injection E as <-. etrans; [eapply kout_write_view; eauto | apply kout_advance_view].
Qed.

(** ** Freeing and notifying *)

Lemma kconn_free s c c' : kconn (conn_free s c) c' = if decide (c = c') then inhabitant else kconn s c'.
Proof.
  unfold kconn, conn_free. cbn. unfold lookup_total, map_lookup_total. case_decide as D.
  - subst. rewrite lookup_delete_eq. reflexivity.
  - rewrite lookup_delete_ne by auto. reflexivity.
Qed.

Definition unlisted (s : kst) (c : Z) : Prop :=
  c ∉ k_tcp_conns s /\ forall l, c ∉ ln_wait_conns (klisten s l).

Lemma kt_free E lo T s c : kt E lo T s -> kn_to_armed (kconn s c) = false -> unlisted s c ->
  kt E lo T (conn_free s c).
Proof.
  intros K A [U1 U2].
  destruct (kt_idle_conn E lo T s c inhabitant K A) as (pend & due & R & W & M & _);
    [intros [?|?]; discriminate | reflexivity |].
  exists pend, due. split_and!; auto.
  - destruct M as [Of Sl Ar Ap].
    assert (Ek : forall c', kconn (conn_free s c) c' = kconn (put_conn s c inhabitant) c')
      by (intros; rewrite kconn_free, kconn_put; reflexivity).
    split; auto.
    + intros t Ht. unfold timer_of. setoid_rewrite Ek. apply Of, Ht.
    + intros c'. rewrite Ek. apply Sl.
    + intros c'. rewrite Ek. apply Ar.
  - destruct K as (_ & _ & _ & _ & _ & [N Al WN WU WA]).
    assert (P : forall c', c' <> c -> is_Some (k_conns s !! c') -> is_Some (k_conns (conn_free s c) !! c')).
    { intros c' Hne Hc. unfold conn_free. cbn. rewrite lookup_delete_ne by auto. exact Hc. }
    split; [exact N | | exact WN | exact WU |].
    + intros c' Hc. apply P; auto. intros ->. contradiction.
    + intros l c' Hc. destruct (WA l c' Hc). split; auto. apply P; auto. intros ->. apply (U2 l Hc).
Qed.

Lemma destroy_kt E lo T s c s' : tcp_destroy s c = Ok s' -> kt E lo T s -> unlisted s c ->
  kn_to_armed (kconn s c) = false -> kt E lo T s'.
Proof. unfold tcp_destroy. intros D K U A. bind_inv D. injection D as <-. apply kt_free; auto. Qed.

Lemma conn_opened_kt E lo T s c st s' : appif_conn_opened s c st = Ok s' ->
  kt E lo T s -> kn_to_armed (kconn s c) = false -> unlisted s c \/ st = 0 -> kt E lo T s'.
Proof.
  unfold appif_conn_opened. case_match; [intros [= <-]; auto|]. intros D K A U. bind_inv D. injection D as <-.
  eapply kt_view; [etrans; [eapply kout_write_view; eauto | apply kout_advance_view]|].
  case_match.
  - simplify_eq. exact K.
  - destruct U as [U| ->]; [|discriminate]. eapply destroy_kt; eauto.
Qed.

(** A failure is reported without an abort. *)
Lemma conn_opened_ok s c st : kn_status (kconn s c) = CONN_FAILED ->
  ax_evfd (kctx s (kn_ctx (kconn s c))) <> 0 -> exists s', appif_conn_opened s c st = Ok s'.
Proof.
  intros F N. unfold appif_conn_opened. case_match; [eauto|].
  assert (D : exists s1, (if st =? 0 then Ok s else tcp_destroy s c) = Ok s1 /\
    forall x, kctx s1 x = kctx s x).
  { case_match; [eauto|]. unfold tcp_destroy. rewrite bool_decide_eq_true_2 by exact F. cbn [assert_ obind]. eauto. }
  destruct D as (s1 & -> & Ex). cbn [obind].
  destruct (kout_write_ok s1 (kn_ctx (kconn s c))
    (KERNEL_APPIN_CONN_OPENED (kn_opaque (kconn s c)) st
       (if st =? 0 then Some (conn_params (kconn s c), kn_local_port (kconn s c)) else None))) as [s2 ->];
    [rewrite Ex; exact N|].
  cbn [obind]. eauto.
Qed.

Lemma accept_conn_kt E lo T s c s' : appif_accept_conn s c 0 = Ok s' -> kt E lo T s -> kt E lo T s'.
Proof.
  unfold appif_accept_conn. case_match; [intros [= <-]; auto|]. intros D K. bind_inv D. injection D as <-.
  eapply kt_view; [etrans; [eapply kout_write_view; eauto | apply kout_advance_view]|].
  cbn in E0. injection E0 as <-. eapply kt_view; [apply app_view | exact K].
Qed.
End Inv.
