(* ===== verification/KernelSafe.v ===== *)
(** The handlers of the kernel process keep the invariant of KernelTimers. *)
From stdpp Require Import base numbers list gmap.
From Stdlib Require Import ZArith Lia.
From S2P Require Import Prelude LinkedList Timeout Qman Packet FlowState TcpCommon Dma FastPath FastRx Queues NicIf CC PacketMem.
From S2P Require Import KernelState Arp KernelTcp Appif Kernel KernelTimers.

Section Safe.
Context `{Platform} `{KEnv}.

Lemma tm_timers E s m l : timers_match E s l -> timers_match E (s <| k_timers := m |>) l.
Proof. intros [Of Sl Ar Ap]. split; auto. Qed.
Lemma lists_timers s m : lists_ok s -> lists_ok (s <| k_timers := m |>).
Proof. intros [N A WN WU W]. split; auto. Qed.

(** ** Arming and disarming *)

(** A connection's timer leaves the lists. *)
Lemma disarm_kt E lo T s c : kt E lo T s -> kn_to_armed (kconn s c) = true ->
  exists m, let s' := put_conn s c (kconn s c <| kn_to_armed := false |>) <| k_timers := m |> in
    conn_timeout_disarm s c = Ok s' /\ kt E lo T s'.
Proof.
  intros (pend & due & R & W & M & L) A.
  pose proof (tm_armed _ _ _ M c A) as Hin.
  destruct (disarm_rep _ _ _ _ R Hin) as (m & Em & Rm). exists m. cbv zeta. split.
  { unfold conn_timeout_disarm. rewrite A. cbn [assert_ obind].
    change (k_timers (put_conn s c (kconn s c <| kn_to_armed := false |>))) with (k_timers s).
    rewrite Em. reflexivity. }
  exists (without (conn_timer c) pend), (without (conn_timer c) due). split_and!; [exact Rm| | |].
  - rewrite Forall_forall in *. intros t Ht. apply list_elem_of_filter in Ht as [_ Ht]. auto.
  - rewrite <- without_app. apply tm_timers.
    eapply tm_drop_conn; [exact M | | apply same_but_without; reflexivity | apply without_notin | reflexivity].
    destruct (tm_slot _ _ _ M c) as [S _]. split; [exact S | discriminate].
  - apply lists_timers, lists_put, L.
Qed.

Lemma pow_mono a b : 0 <= a <= b -> 0 < 2 ^ a <= 2 ^ b.
Proof. intros. split; [apply Z.pow_pos_nonneg; lia | apply Z.pow_le_mono_r; lia]. Qed.

Section Now.
Context (T : Z) (CO : config_ok) (Hnow : now_us = ts_of T).

(** A handshake timeout with its random part is below the manager's limit. *)
Lemma timeout_range x r : handshaking x ->
  kn_timeout x <> 0 /\ 0 <= u32 (kn_timeout x / 2 + r mod kn_timeout x) < HORIZON.
Proof.
  intros (_ & Ha & ->). destruct CO as [C1 C2 C3 _ _].
  pose proof (pow_mono _ _ Ha) as P. set (k := 2 ^ kn_to_attempts x) in *.
  assert (B : 0 < cf_tcp_handshake_to config * k /\ 3 * (cf_tcp_handshake_to config * k) < 2 * HORIZON)
    by (unfold HORIZON in *; nia).
  set (to := cf_tcp_handshake_to config * k) in *. split; [lia|].
  pose proof (Z.mod_pos_bound r to ltac:(lia)). unfold HORIZON in *.
  rewrite u32_small; unfold is_u32; Z.div_mod_to_equations; lia.
Qed.

(** The bound on pending deadlines after arming at [T]. *)
Lemma armed_bound lo t pend : lo <= T -> T <= t_deadline t < T + HORIZON ->
  Forall (fun t => lo <= t_deadline t < T + HORIZON) pend ->
  Forall (fun t => lo <= t_deadline t < T + HORIZON) (insert_timer t (later T pend)).
Proof.
  intros Hlo Ht W. rewrite insert_timer_perm. constructor; [lia|].
  rewrite Forall_forall in *. intros u Hu. apply list_elem_of_filter in Hu as [_ Hu]. auto.
Qed.

Lemma bound_within lo pend : T - HORIZON < lo ->
  Forall (fun t => lo <= t_deadline t < T + HORIZON) pend -> within T pend.
Proof. intros Hlo W. eapply Forall_impl; [exact W|]. cbn. lia. Qed.

(** A connection without timer whose state is that of a handshake gets one. *)
Lemma arm_kt E lo s c : T - HORIZON < lo <= T -> kt E lo T s -> kn_to_armed (kconn s c) = false ->
  handshaking (kconn s c) ->
  exists m rng, let s' := put_conn s c (kconn s c <| kn_to_armed := true |>) <| k_rng := rng |> <| k_timers := m |> in
    conn_timeout_arm s c = Ok s' /\ kt E lo T s'.
Proof.
  intros Hlo (pend & due & R & W & M & L) A Hs. destruct (utils_rng_gen32 (k_rng s)) as [r rng] eqn:Er.
  destruct (timeout_range _ r Hs) as [N0 Ru]. set (us := u32 (kn_timeout (kconn s c) / 2 + r mod kn_timeout (kconn s c))) in *.
  assert (Nin : conn_timer c ∉ map t_id (pend ++ due)).
  { intros Hin. apply list_elem_of_fmap in Hin as (t & Et & Ht).
    destruct (tm_of _ _ _ M t Ht) as [(c' & E1 & _ & E3)|(e & E1 & _)]; rewrite <- Et in E1.
    - apply conn_timer_inj in E1 as <-. congruence.
    - destruct (conn_arp_timer _ _ E1). }
  destruct (arm_rep _ _ _ T (conn_timer c) us TO_TCP_HANDSHAKE R) as (m & Em & Rm);
    [eapply bound_within; [|exact W]; lia | exact Nin | exact Ru | unfold TO_TCP_HANDSHAKE; lia |].
  exists m, rng. cbv zeta. split.
  { unfold conn_timeout_arm. rewrite A. cbn [assert_ obind negb].
    change (k_rng (put_conn s c (kconn s c <| kn_to_armed := true |>))) with (k_rng s). rewrite Er.
    rewrite (proj2 (Z.eqb_neq _ _) N0). fold us.
    match goal with |- context [util_timeout_arm_ts ?t] => change t with (k_timers s) end.
    rewrite Hnow, Em. reflexivity. }
  eexists _, _. split_and!; [exact Rm | apply armed_bound; cbn; auto; lia | |].
  - apply tm_timers. apply (tm_view _ (put_conn s c (kconn s c <| kn_to_armed := true |>))); [split; auto|].
    eapply tm_add_conn; [exact M | | apply arm_perm | exact Nin | reflexivity.. ].
    destruct (tm_slot _ _ _ M c) as [S _]. split; [exact S|]. intros _. exact Hs.
  - apply lists_timers. apply (lists_view (put_conn s c (kconn s c <| kn_to_armed := true |>))); [split; auto|].
    apply lists_put, L.
Qed.
(** ** Connections in and out of the list *)

Lemma tm_hide s l c : timers_match None s l -> timers_match (Some c) s l.
Proof.
  intros [Of Sl Ar Ap]. split; auto. intros c'. destruct (Sl c') as [S1 S2]. split; [|exact S2].
  intros O. destruct (S1 O) as [A B]. split; [exact A|]. intros _. apply B. discriminate.
Qed.

Lemma kt_close lo s c : kt (Some c) lo T s -> ~ opening (kconn s c) -> kt None lo T s.
Proof.
  intros (pend & due & R & W & [Of Sl Ar Ap] & L) N. exists pend, due. split_and!; auto. split; auto.
  intros c'. destruct (Sl c') as [S1 S2]. split; [|exact S2]. intros O. destruct (S1 O) as [A B].
  split; [exact A|]. intros _. apply B. intros [= ->]. contradiction.
Qed.

Lemma tm_conns E E' s l cs : timers_match E s l ->
  (forall c, Some c <> E' -> Some c <> E -> c ∈ k_tcp_conns s -> c ∈ cs) ->
  (forall c, Some c <> E' -> Some c = E -> c ∈ cs) -> timers_match E' (s <| k_tcp_conns := cs |>) l.
Proof.
  intros [Of Sl Ar Ap] H1 H2. split; auto. intros c. destruct (Sl c) as [S1 S2]. split; [|exact S2].
  intros O. destruct (S1 O) as [A B]. split; [exact A|]. intros Nc.
  destruct (decide (Some c = E)) as [Ec|Nc']; [apply H2 | apply H1]; auto.
Qed.

Lemma kt_register lo s c : kt (Some c) lo T s -> is_Some (k_conns s !! c) -> unlisted s c ->
  kt None lo T (s <| k_tcp_conns := c :: k_tcp_conns s |>).
Proof.
  intros (pend & due & R & W & M & [N A WN WU WA]) Hs [U1 U2]. exists pend, due. split_and!; auto.
  - eapply tm_conns; [exact M | |].
    + intros c' _ _ Hc. right. exact Hc.
    + intros c' _ [= ->]. left.
  - split; auto; cbn.
    + apply NoDup_cons; auto.
    + intros c' Hc. apply elem_of_cons in Hc as [->|Hc]; auto.
    + intros l c' Hc. destruct (WA l c' Hc) as [B D]. split; [exact B|].
      intros Hc'. apply elem_of_cons in Hc' as [->|Hc']; [apply (U2 l Hc) | auto].
Qed.

Lemma kt_unlink lo s c rest : kt None lo T s -> k_tcp_conns s = c :: rest ->
  kt (Some c) lo T (s <| k_tcp_conns := rest |>) /\ unlisted (s <| k_tcp_conns := rest |>) c.
Proof.
  intros (pend & due & R & W & M & [N A WN WU WA]) Ec. rewrite Ec in N. apply NoDup_cons in N as [N1 N2].
  split.
  - exists pend, due. split_and!; auto.
    + eapply tm_conns; [exact M | | congruence].
      intros c' Nc _ Hc. rewrite Ec in Hc. apply elem_of_cons in Hc as [->|Hc]; congruence.
    + split; auto; cbn.
      * intros c' Hc. apply A. rewrite Ec. right. exact Hc.
      * intros l c' Hc. destruct (WA l c' Hc) as [B D]. split; [exact B|]. intros H'. apply D. rewrite Ec. right. exact H'.
  - split; [exact N1|]. intros l Hc. destruct (WA l c Hc) as [_ D]. apply D. rewrite Ec. left.
Qed.

(** ** State machine steps *)

Context (lo : Z) (Hlo : T - HORIZON < lo <= T).
#[local] Notation kt := (fun E s => kt E lo T s).

Lemma kt_slot E s c : kt E s -> slot_ok E s c (kconn s c).
Proof. intros (pend & due & _ & _ & M & _). apply (tm_slot _ _ _ M). Qed.
Lemma kt_lists E s : kt E s -> lists_ok s.
Proof. intros (pend & due & _ & _ & _ & L). exact L. Qed.

(** A connection that is not in a handshake has no timer. *)
Lemma kt_no_timer E s c : kt E s -> kn_status (kconn s c) <> CONN_SYN_SENT -> kn_to_armed (kconn s c) = false.
Proof.
  intros K N. destruct (kt_slot E s c K) as [_ S]. destruct (kn_to_armed (kconn s c)); [|reflexivity].
  destruct (S eq_refl) as [S1 _]. contradiction.
Qed.

Lemma kt_put_idle E s c x' : kt E s -> kn_to_armed (kconn s c) = false -> kn_to_armed x' = false ->
  slot_ok E s c x' -> kt E (put_conn s c x').
Proof.
  intros (pend & due & R & W & M & L) A A' S. exists pend, due. split_and!; auto using lists_put.
  apply tm_keep_conn; auto. congruence.
Qed.

Lemma disarm_inv E s c s' : conn_timeout_disarm s c = Ok s' -> kt E s ->
  kn_to_armed (kconn s c) = true /\
  exists m, s' = put_conn s c (kconn s c <| kn_to_armed := false |>) <| k_timers := m |> /\ kt E s'.
Proof.
  intros D K. destruct (kn_to_armed (kconn s c)) eqn:A.
  - destruct (disarm_kt E lo T s c K A) as (m & Em & Km). split; [reflexivity|]. exists m.
    rewrite Em in D. injection D as <-. auto.
  - unfold conn_timeout_disarm in D. rewrite A in D. discriminate.
Qed.

(** A connection at the head of the list is taken out and reported. *)
Lemma conn_failed_kt s c st s' : conn_failed s c st = Ok s' -> kt None s -> kt None s'.
Proof.
  unfold conn_failed. destruct (k_tcp_conns s) as [|c_i rest] eqn:Ec; [discriminate|].
  destruct (Z.eqb_spec c_i c) as [->|]; [|intros [= <-]; auto]. intros D K. bind_inv D.
  destruct (kt_unlink lo s c rest K Ec) as [K1 U]. set (s1 := s <| k_tcp_conns := rest |>) in *.
  assert (K2 : kt (Some c) a /\ kn_to_armed (kconn a c) = false /\ unlisted a c).
  { change (kn_to_armed (kconn s1 c)) with (kn_to_armed (kconn s c)) in *.
    destruct (kn_to_armed (kconn s c)) eqn:A; [|injection E as <-; auto].
    apply (disarm_inv (Some c)) in E as (_ & m & -> & Km); [|exact K1].
    split; [exact Km|]. split; [|exact U]. unfold kconn. cbn. rewrite lookup_total_insert_eq. reflexivity. }
  destruct K2 as (K2 & A & U'). eapply conn_opened_kt; [exact D | | | left; exact U'].
  - apply (kt_close lo _ c); [|rewrite kconn_put_eq; intros [?|?]; discriminate].
    apply kt_idle_conn; auto. intros [?|?]; discriminate.
  - rewrite kconn_put_eq. exact A.
Qed.

(** Giving up on a connection whose application can be notified does not
    abort. *)
Lemma conn_failed_ok s c st : kt None s -> c ∈ k_tcp_conns s -> kn_to_armed (kconn s c) = false ->
  ax_evfd (kctx s (kn_ctx (kconn s c))) <> 0 -> exists s', conn_failed s c st = Ok s'.
Proof.
  intros K Hin A N. unfold conn_failed. destruct (k_tcp_conns s) as [|c_i rest]; [inversion Hin|].
  case_match; [|eauto]. change (kn_to_armed (kconn (s <| k_tcp_conns := rest |>) c)) with (kn_to_armed (kconn s c)).
  rewrite A. cbn [obind]. apply conn_opened_ok; rewrite kconn_put_eq; [reflexivity | exact N].
Qed.

(** The address is known: the SYN goes out and the handshake timer runs. *)
Lemma conn_arp_done_kt s c : kt None s -> kn_status (kconn s c) = CONN_ARP_PENDING ->
  exists s', conn_arp_done s c = Ok (s', 0) /\ kt None s'.
Proof.
  intros K Ea. destruct (kt_slot None s c K) as [S _]. specialize (S (or_introl Ea)) as [N Hin].
  assert (A : kn_to_armed (kconn s c) = false) by (apply (kt_no_timer None s c K); congruence).
  unfold conn_arp_done. set (x := set_status (kconn s c) CONN_SYN_SENT
    <| kn_to_attempts := 0 |> <| kn_timeout := cf_tcp_handshake_to config |>).
  assert (K1 : kt None (put_conn s c x)).
  { apply kt_put_idle; auto. split; [|cbn; congruence]. intros _. split; [exact N | exact Hin]. }
  destruct (arm_kt None lo (put_conn s c x) c Hlo K1) as (m & rng & E & K2).
  - rewrite kconn_put_eq. exact A.
  - rewrite kconn_put_eq. destruct CO. split; [reflexivity|]. split; [split; [reflexivity | assumption]|].
    cbn. lia.
  - rewrite E. cbn [obind]. match goal with |- context [send_control ?a ?b ?f ?t ?e ?m] =>
      pose proof (send_control_view a b f t e m) as V; destruct (send_control a b f t e m) as [s2 r] end.
    exists s2. split; [reflexivity|]. eapply kt_view; [exact V | exact K2].
Qed.

Lemma cc_init_kt s c s' : conn_cc_init s c = Ok s' -> kt None s ->
  kt None s' /\ kn_status (kconn s' c) = kn_status (kconn s c) /\ kn_to_armed (kconn s' c) = kn_to_armed (kconn s c) /\
  k_tcp_conns s' = k_tcp_conns s /\ k_listeners s' = k_listeners s.
Proof.
  unfold conn_cc_init. intros D K. bind_inv D. injection D as <-. rewrite kconn_put_eq.
  split; [apply kt_same_conn; auto | auto].
Qed.

Lemma nic_add_kt s c seq s' r : conn_nic_add s c seq = Ok (s', r) -> kt None s ->
  kt None s' /\ kn_status (kconn s' c) = kn_status (kconn s c) /\ kn_to_armed (kconn s' c) = kn_to_armed (kconn s c) /\
  k_tcp_conns s' = k_tcp_conns s /\ k_listeners s' = k_listeners s.
Proof.
  unfold conn_nic_add. intros D K. bind_inv D. destruct a as [n q].
  assert (K' : kt None (s <| k_nic := n |>)) by (eapply kt_view; [apply nic_view | exact K]).
  destruct q as [fid|]; injection D as <- <-; [|auto].
  rewrite kconn_put_eq. split; [apply kt_same_conn; auto | auto].
Qed.

Lemma conn_syn_sent_packet_kt s c p o s' r : conn_syn_sent_packet s c p o = Ok (s', r) -> kt None s -> kt None s'.
Proof.
  unfold conn_syn_sent_packet. intros D K. bind_inv D. destruct (disarm_inv _ _ _ _ E K) as (_ & m & Ea & K1).
  assert (A1 : kn_to_armed (kconn a c) = false)
    by (rewrite Ea; unfold kconn; cbn; rewrite lookup_total_insert_eq; reflexivity).
  case_match; [simplify_eq; auto|]. case_match; [|simplify_eq; auto]. bind_inv D.
  apply cc_init_kt in E0 as (K2 & _ & A2 & _); [|destruct (ecn_bits p =? TCP_ECE); apply kt_same_conn; auto].
  rewrite kconn_put_eq in A2. assert (A2' : kn_to_armed (kconn a0 c) = false) by (rewrite A2; destruct (ecn_bits p =? TCP_ECE); exact A1).
  destruct a1 as [s1 ret]. apply nic_add_kt in E1 as (K3 & _ & A3 & _); [|apply kt_same_conn; auto].
  rewrite kconn_put_eq in A3. assert (A3' : kn_to_armed (kconn s1 c) = false) by (rewrite A3; exact A2').
  case_match; [simplify_eq; auto|].
  match goal with D : (let '(_, _) := send_control ?a ?b ?f ?t ?e ?m in _) = _ |- _ =>
    pose proof (send_control_view a b f t e m) as V; destruct (send_control a b f t e m) as [s2 r2] end.
  bind_inv D. injection D as <- <-.
  assert (Kp : kt None (put_conn s1 c (set_status (kconn s1 c) CONN_OPEN)))
    by (apply kt_idle_conn; auto; intros [?|?]; discriminate).
  match goal with E : appif_conn_opened _ _ _ = _ |- _ => eapply conn_opened_kt; [exact E | eapply kt_view; [exact V | exact Kp] | | auto] end.
  cbn [fst] in V. rewrite (sv_conn _ _ V), kconn_put_eq. exact A3'.
Qed.

Lemma conn_packet_kt s c p o core fg s' : conn_packet s c p o core fg = Ok s' -> kt None s -> kt None s'.
Proof.
  unfold conn_packet. intros D K. case_match.
  - bind_inv D. destruct a as [s1 ret]. apply conn_syn_sent_packet_kt in E; [|apply kt_same_conn; auto].
    case_match; [eapply conn_failed_kt; eauto | simplify_eq; auto].
  - case_match; [|simplify_eq; auto]. case_match; [|eapply conn_failed_kt; eauto].
    injection D as <-. eapply kt_view; [apply send_control_view | exact K].
Qed.

(** ** Listeners *)

Lemma listen_view s l x : ln_wait_conns x = ln_wait_conns (klisten s l) -> same_view s (put_listen s l x).
Proof. intros E. split; auto. intros l'. rewrite klisten_put. case_decide; subst; auto. Qed.

(** The waiting connections of [l] become [w]; the lists stay disjoint. *)
Lemma kt_wait E s l x : kt E s -> NoDup (ln_wait_conns x) ->
  (forall c, c ∈ ln_wait_conns x -> is_Some (k_conns s !! c) /\ c ∉ k_tcp_conns s /\
     forall l', l' <> l -> c ∉ ln_wait_conns (klisten s l')) ->
  kt E (put_listen s l x).
Proof.
  intros (pend & due & R & W & [Of Sl Ar Ap] & [N A WN WU WA]) Nx Hx. exists pend, due. split_and!; auto.
  - split; auto.
  - split; auto.
    + intros l'. rewrite klisten_put. case_decide; auto.
    + intros l1 l2 c. rewrite !klisten_put. do 2 case_decide; subst; auto; intros HA HB;
        [destruct (Hx c HA) as (_ & _ & Hx') | destruct (Hx c HB) as (_ & _ & Hx') | eapply WU; eauto];
        exfalso; eapply Hx'; eauto.
    + intros l' c. rewrite klisten_put. case_decide; [|apply WA]. intros Hc. destruct (Hx c Hc) as (? & ? & _). auto.
Qed.

(** The first waiting connection moves to the list of connections. *)
Lemma kt_move s l c w : kt None s -> ln_wait_conns (klisten s l) = c :: w ->
  kt None (put_listen s l (klisten s l <| ln_wait_conns := w |>) <| k_tcp_conns := c :: k_tcp_conns s |>).
Proof.
  intros K Ew. destruct (kt_lists _ _ K) as [N A WN WU WA].
  pose proof (WN l) as Nw. rewrite Ew in Nw. apply NoDup_cons in Nw as [Nc Nw].
  assert (Hw : forall c', c' ∈ w -> c' ∈ ln_wait_conns (klisten s l)) by (intros; rewrite Ew; right; auto).
  assert (Hc : c ∈ ln_wait_conns (klisten s l)) by (rewrite Ew; left).
  set (s1 := put_listen s l (klisten s l <| ln_wait_conns := w |>)).
  assert (K1 : kt (Some c) s1).
  { assert (Kw : kt None s1).
    { apply kt_wait; [exact K | exact Nw |]. cbn.
    intros c' H'. destruct (WA l c' (Hw c' H')). split_and!; auto. intros l' Hl Hc'. apply Hl, (WU l' l c'); auto. }
    destruct Kw as (p & d & R & W & M & L). exists p, d. split_and!; auto using tm_hide. }
  apply (kt_register lo s1 c K1); [apply (WA l c Hc)|]. split; [apply (WA l c Hc)|].
  intros l'. subst s1. rewrite klisten_put. case_decide as D; [exact Nc|]. intros Hc'. apply D. eapply WU; eauto.
Qed.

Lemma wait_idle s l c : kt None s -> c ∈ ln_wait_conns (klisten s l) ->
  ~ opening (kconn s c) /\ kn_to_armed (kconn s c) = false.
Proof.
  intros K Hc. destruct (lo_wait _ (kt_lists _ _ K) l c Hc) as [_ N].
  assert (NO : ~ opening (kconn s c)).
  { intros O. destruct (kt_slot None s c K) as [S _]. apply N, (S O). discriminate. }
  split; [exact NO|]. apply (kt_no_timer None s c K). intros E. apply NO. right. exact E.
Qed.

Lemma listener_accept_kt s l s' : listener_accept s l = Ok s' -> kt None s -> kt None s'.
Proof.
  unfold listener_accept. destruct (ln_wait_conns (klisten s l)) as [|c w] eqn:Ew; [discriminate|].
  intros D K. destruct (wait_idle s l c K) as [_ A]; [rewrite Ew; left|]. bind_inv D.
  destruct a0 as [ret o]. destruct (op_ts o) as [tso|];
    [|injection D as <-; eapply kt_view; [apply listen_view; reflexivity | exact K]].
  case_match; [injection D as <-; eapply kt_view; [apply listen_view; reflexivity | exact K]|].
  bind_inv D. apply cc_init_kt in E1 as (K1 & _ & A1 & _ & El1).
  2: { destruct (ecn_bits _ =? _); apply kt_same_conn; auto. }
  rewrite kconn_put_eq in A1. assert (A1' : kn_to_armed (kconn a0 c) = false)
    by (rewrite A1; destruct (ecn_bits _ =? _); exact A).
  destruct a1 as [s2 ret2]. apply nic_add_kt in E2 as (K2 & _ & A2 & _ & El2);
    [|apply kt_idle_conn; auto; intros [?|?]; discriminate].
  case_match; injection D as <-; [eapply kt_view; [apply listen_view; reflexivity | exact K2]|].
  assert (Ew2 : ln_wait_conns (klisten s2 l) = c :: w).
  { rewrite <- Ew. unfold klisten. rewrite El2. cbn. rewrite El1. reflexivity. }
  eapply kt_view; [|exact (kt_move s2 l c w K2 Ew2)].
  etrans; [|apply listen_view; reflexivity]. etrans; [|apply async_view]. apply tap_view.
Qed.

Lemma listener_packet_kt s l buf o core fg s' : listener_packet s l buf o core fg = Ok s' -> kt None s -> kt None s'.
Proof.
  unfold listener_packet. intros D K.
  case_match; [injection D as <-; eapply kt_view; [apply send_reset_view | exact K]|].
  do 3 (case_match; [injection D as <-; exact K|]). bind_inv D. apply listen_newconn_view in E.
  assert (K1 : kt None a) by (eapply kt_view; [etrans; [apply listen_view | exact E] | exact K]; reflexivity).
  case_match; [injection D as <-; exact K1 | eapply listener_accept_kt; eauto].
Qed.

Lemma tcp_packet_kt s buf len core fg s' : tcp_packet s buf len core fg = Ok s' -> kt None s -> kt None s'.
Proof.
  unfold tcp_packet. intros D K. do 2 (case_match; [injection D as <-; exact K|]). bind_inv D.
  destruct a as [ret o]. case_match; [injection D as <-; exact K|].
  case_match; [eapply conn_packet_kt; eauto|]. bind_inv D.
  destruct a; [eapply listener_packet_kt; eauto | injection D as <-; eapply kt_view; [apply send_reset_view | exact K]].
Qed.

(** ** Address resolution *)

(** Fields of entry [e] change that the timers do not depend on. *)
Lemma tm_put_arp E s l e x : timers_match E s l ->
  (e ∈ k_arp_table s -> ae_status x = 1 <-> ae_status (karp s e) = 1) -> timers_match E (put_arp s e x) l.
Proof.
  intros M Hx. eapply (tm_set_arp E s (put_arp s e x) l l e M); auto; [intros t _; reflexivity | | |].
  - intros e' N. split; [|reflexivity]. cbn. apply lookup_insert_ne. auto.
  - intros He. destruct (tm_arp _ _ _ M e He) as [A B]. split.
    + cbn. rewrite lookup_insert_eq. eauto.
    + rewrite karp_put, decide_True by reflexivity. intros E1. apply B, (Hx He), E1.
  - intros t Hin Et. destruct (tm_of _ _ _ M t Hin) as [(c & E1 & _)|(e' & E1 & E2 & E3 & E4)].
    { rewrite Et in E1. symmetry in E1. destruct (conn_arp_timer _ _ E1). }
    rewrite Et in E1. apply arp_timer_inj in E1 as <-. split_and!; auto.
    rewrite karp_put, decide_True by reflexivity. apply Hx; auto.
Qed.

Lemma lists_put_arp s e x : lists_ok s -> lists_ok (put_arp s e x).
Proof. intros [N A WN WU WA]. split; auto. Qed.

Lemma kt_put_arp E s e x : kt E s ->
  (e ∈ k_arp_table s -> ae_status x = 1 <-> ae_status (karp s e) = 1) -> kt E (put_arp s e x).
Proof.
  intros (pend & due & R & W & M & L) Hx. exists pend, due. split_and!; auto using tm_put_arp, lists_put_arp.
Qed.

(** The completions of an entry are queued. *)
Lemma complete_tm E mac st s c l : timers_match E s l -> timers_match E (complete mac st s c) l.
Proof.
  intros M. unfold complete. eapply tm_view; [apply async_view|]. apply tm_keep_conn; auto.
  - eapply slot_ok_same; [exact M | destruct mac; reflexivity..].
  - destruct mac; reflexivity.
Qed.

Lemma complete_lists mac st s c : lists_ok s -> lists_ok (complete mac st s c).
Proof. intros L. eapply lists_view; [apply async_view|]. apply lists_put, L. Qed.

Lemma complete_all E mac st cs : forall s l, timers_match E s l -> lists_ok s ->
  let s' := fold_left (complete mac st) cs s in
  timers_match E s' l /\ lists_ok s' /\ k_timers s' = k_timers s /\ k_arp s' = k_arp s /\
  k_arp_table s' = k_arp_table s.
Proof.
  induction cs as [|c cs IH]; intros s l M L; cbn [fold_left]; [auto|].
  destruct (IH (complete mac st s c) l (complete_tm _ _ _ _ _ _ M) (complete_lists _ _ _ _ L)) as (A & B & C & D & F).
  auto.
Qed.

Lemma kt_complete E mac st cs s : kt E s -> kt E (fold_left (complete mac st) cs s).
Proof.
  intros (pend & due & R & W & M & L). destruct (complete_all E mac st cs s _ M L) as (A & B & C & _).
  exists pend, due. rewrite C. auto.
Qed.

(** A reply: the timer goes, the entry is no longer waiting. *)
Lemma kt_arp_reply E s e x t : kt E s -> e ∈ k_arp_table s -> ae_status (karp s e) = 1 -> ae_status x = 0 ->
  util_timeout_disarm (k_timers s) (arp_timer e) = Ok t -> kt E (put_arp (s <| k_timers := t |>) e x).
Proof.
  intros (pend & due & R & W & M & L) He E1 Ex D.
  destruct (tm_arp _ _ _ M e He) as [A Hin].
  destruct (disarm_rep _ _ _ _ R (Hin E1)) as (m & Em & Rm). rewrite Em in D. injection D as <-.
  exists (without (arp_timer e) pend), (without (arp_timer e) due). split_and!; [exact Rm| | |].
  - rewrite Forall_forall in *. intros u Hu. apply list_elem_of_filter in Hu as [_ Hu]. auto.
  - rewrite <- without_app. eapply (tm_set_arp E s _ _ _ e M); auto; [apply same_but_without; reflexivity| | |].
    + intros e' N. split; [|reflexivity]. cbn. apply lookup_insert_ne. auto.
    + intros _. split; [cbn; rewrite lookup_insert_eq; eauto|]. rewrite karp_put, decide_True by reflexivity. lia.
    + intros u Hu Eu. exfalso. apply (without_notin (arp_timer e) (pend ++ due)).
      apply list_elem_of_fmap. eauto.
  - apply lists_put_arp, lists_timers, L.
Qed.

Lemma ae_lookup_in s ip e : ae_lookup s ip = Some e -> e ∈ k_arp_table s.
Proof. intros E. apply find_some in E as [E _]. apply list_elem_of_In, E. Qed.

Lemma arp_packet_kt E s buf s' : arp_packet s buf = Ok s' -> kt E s -> kt E s'.
Proof.
  unfold arp_packet. intros D K. case_match; [simplify_eq; auto|]. case_match.
  { case_match; injection D as <-; [exact K | eapply kt_view; [apply arp_tx_view | exact K]]. }
  case_match; [|simplify_eq; auto]. destruct (ae_lookup s _) as [e|] eqn:El; [|simplify_eq; auto].
  apply ae_lookup_in in El. bind_inv D. injection D as <-.
  set (x := karp a e <| ae_mac := _ |> <| ae_status := 0 |>) in *.
  assert (K1 : kt E (put_arp a e x)).
  { destruct (Z.eqb_spec (ae_status (karp s e)) 1) as [E1|N1].
    - bind_inv E0. injection E0 as <-. apply kt_arp_reply; auto.
    - injection E0 as <-. apply kt_put_arp; auto. intros _. cbn. lia. }
  apply kt_put_arp; [apply kt_complete, K1|]. intros _. reflexivity.
Qed.

(** A new entry that waits for its reply. *)
Lemma kt_arp_new E s e us t : kt E s -> e ∉ k_arp_table s -> is_Some (k_arp s !! e) ->
  ae_status (karp s e) = 1 -> 0 <= us < HORIZON ->
  util_timeout_arm_ts (k_timers s) (arp_timer e) us TO_ARP_REQ now_us = Ok t ->
  kt E (s <| k_timers := t |> <| k_arp_table := e :: k_arp_table s |>).
Proof.
  intros (pend & due & R & W & M & L) He Hs E1 Hu D.
  assert (N : arp_timer e ∉ map t_id (pend ++ due)).
  { intros Hin. apply list_elem_of_fmap in Hin as (u & Eu & Hu').
    destruct (tm_of _ _ _ M u Hu') as [(c & E2 & _)|(e' & E2 & _ & E3 & _)]; rewrite <- Eu in E2.
    - symmetry in E2. destruct (conn_arp_timer _ _ E2).
    - apply arp_timer_inj in E2 as <-. contradiction. }
  destruct (arm_rep _ _ _ T (arp_timer e) us TO_ARP_REQ R) as (m & Em & Rm);
    [eapply bound_within; [|exact W]; lia | exact N | exact Hu | unfold TO_ARP_REQ; lia |].
  rewrite Hnow, Em in D. injection D as <-.
  eexists _, _. split_and!; [exact Rm | apply armed_bound; cbn; auto; lia | |].
  - eapply (tm_set_arp E s _ _ _ e M); auto.
    + apply (same_but_cons _ _ (mk_timer (arp_timer e) (T + us) TO_ARP_REQ)), arm_perm.
    + intros e' Ne. split; [reflexivity|]. cbn. rewrite elem_of_cons. tauto.
    + intros _. split; [exact Hs|]. intros _. rewrite arm_perm. cbn. left.
    + intros u Hu' Eu. rewrite arm_perm in Hu'. apply elem_of_cons in Hu' as [->|Hu'].
      * split; [reflexivity|]. split; [left | exact E1].
      * destruct N. rewrite <- Eu. apply list_elem_of_fmap_2, Hu'.
  - destruct L. split; auto.
Qed.

(** ** Opening and accepting *)

(** [malloc] returns memory that holds no struct. *)
Definition fresh {A} (m : gmap Z A) (mp : option Z) : Prop := forall p, mp = Some p -> m !! p = None.

(** What address resolution leaves alone. *)
Record kept (c : Z) (s s' : kst) : Prop := mk_kept
  { kp_conns : k_tcp_conns s' = k_tcp_conns s;
    kp_listeners : k_listeners s' = k_listeners s;
    kp_status : kn_status (kconn s' c) = kn_status (kconn s c);
    kp_armed : kn_to_armed (kconn s' c) = kn_to_armed (kconn s c);
    kp_alloc : is_Some (k_conns s !! c) -> is_Some (k_conns s' !! c) }.

Lemma kept_unlisted c s s' : kept c s s' -> unlisted s c -> unlisted s' c.
Proof. intros [A B _ _ _] [U1 U2]. unfold unlisted, klisten. rewrite A, B. auto. Qed.

Lemma kept_mac c s m : kept c s (put_conn s c (kconn s c <| kn_remote_mac := m |>)).
Proof.
  split; rewrite ?kconn_put_eq; auto. intros _. cbn. rewrite lookup_insert_eq. eauto.
Qed.

Lemma kept_trans c s1 s2 s3 : kept c s1 s2 -> kept c s2 s3 -> kept c s1 s3.
Proof. intros [A1 A2 A3 A4 A5] [B1 B2 B3 B4 B5]. split; try (etrans; eauto; fail). auto. Qed.

Lemma kept_eq c s s' : k_conns s' = k_conns s -> k_tcp_conns s' = k_tcp_conns s ->
  k_listeners s' = k_listeners s -> kept c s s'.
Proof. intros A B C. unfold kconn. split; unfold kconn; rewrite ?A; auto. Qed.

Lemma arp_tx_kept c s f : kept c s (fst (arp_tx s f)).
Proof. unfold arp_tx. destruct (nicif_tx_alloc _ _) as [n [[b t]|]]; apply kept_eq; reflexivity. Qed.

Lemma arp_request_kt E s c ip me s' r : arp_request s c ip me = Ok (s', r) -> kt E s -> fresh (k_arp s) me ->
  kt E s' /\ kept c s s'.
Proof.
  unfold arp_request. intros D K F. set (s1 := put_conn s c (kconn s c <| kn_remote_mac := 0 |>)) in *.
  assert (K1 : kt E s1) by (apply kt_same_conn; auto).
  assert (P1 : kept c s s1) by apply kept_mac.
  destruct (ae_lookup s1 ip) as [e|] eqn:El.
  - case_match; injection D as <- <-.
    + split; [apply kt_same_conn; auto | eapply kept_trans; [exact P1 | apply kept_mac]].
    + split; [apply kt_put_arp; auto; intros _; reflexivity|].
      eapply kept_trans; [exact P1 | apply kept_eq; reflexivity].
  - destruct me as [e|]; [|injection D as <- <-; auto].
    assert (Ne : e ∉ k_arp_table s1).
    { intros He. destruct K1 as (? & ? & _ & _ & M & _). destruct (tm_arp _ _ _ M e He) as [[? A] _].
      change (k_arp s1) with (k_arp s) in A. rewrite (F e eq_refl) in A. discriminate. }
    set (s2 := put_arp s1 e (mk_arp_entry 1 ip 0 [c] 0)) in *.
    assert (K2 : kt E s2) by (apply kt_put_arp; auto; contradiction).
    pose proof (arp_tx_view s2 (arp_frame (le_bytes 6 info_mac_addr) ETH_BROADCAST ARP_OPER_REQUEST (cf_ip config) ip)) as V.
    pose proof (arp_tx_kept c s2 (arp_frame (le_bytes 6 info_mac_addr) ETH_BROADCAST ARP_OPER_REQUEST (cf_ip config) ip)) as P2.
    unfold request_tx in D. destruct (arp_tx _ _) as [s3 q]. cbn [fst] in V, P2. bind_inv D. injection D as <- <-.
    assert (N3 : e ∉ k_arp_table s3) by (rewrite (sv_arp_table _ _ V); exact Ne).
    assert (S3 : ae_status (karp s3 e) = 1).
    { unfold karp. rewrite (sv_arp _ _ V). cbn. rewrite lookup_total_insert_eq. reflexivity. }
    split.
    + apply (kt_arp_new E (put_arp s3 e (karp s3 e <| ae_timeout := cf_arp_to config |>)) e (cf_arp_to config));
        [| exact N3 | | | apply CO | exact E0].
      * apply kt_put_arp; [eapply kt_view; eauto | contradiction].
      * cbn. rewrite lookup_insert_eq. eauto.
      * rewrite karp_put, decide_True by reflexivity. exact S3.
    + eapply kept_trans; [exact P1|]. eapply kept_trans; [|eapply kept_trans; [exact P2 | apply kept_eq; reflexivity]].
      apply kept_eq; reflexivity.
Qed.

Lemma routing_resolve_kt E s c ip me s' r : routing_resolve s c ip me = Ok (s', r) -> kt E s -> fresh (k_arp s) me ->
  kt E s' /\ kept c s s'.
Proof.
  unfold routing_resolve. intros D K F. bind_inv D. destruct a as [ip'|]; [eapply arp_request_kt; eauto|].
  injection D as <- <-. split; [exact K | apply kept_eq; reflexivity].
Qed.

Lemma fresh_conn s c : k_conns s !! c = None -> kconn s c = inhabitant.
Proof. intros F. unfold kconn, lookup_total, map_lookup_total. rewrite F. reflexivity. Qed.

Lemma fresh_unlisted s c : lists_ok s -> k_conns s !! c = None -> unlisted s c.
Proof.
  intros [N A WN WU WA] F. split.
  - intros Hc. destruct (A c Hc) as [? E]. congruence.
  - intros l Hc. destruct (WA l c Hc) as [[? E] _]. congruence.
Qed.

Lemma conn_alloc_spec s mp s1 r : conn_alloc s mp = (s1, r) -> fresh (k_conns s) mp ->
  match r with
  | None => same_view s s1
  | Some c => mp = Some c /\ kn_to_armed (kconn s1 c) = false /\
      (forall x h, same_view (put_conn s c x) (put_conn (s1 <| k_port_eph_hint := h |>) c x)) /\
      (forall x, same_view (put_conn s c x) (put_conn s1 c x)) /\
      (forall h, same_view s (conn_free (s1 <| k_port_eph_hint := h |>) c)) /\
      (forall x, kctx s1 x = kctx s x) /\ k_arp s1 = k_arp s
  end.
Proof.
  unfold conn_alloc. intros D F. destruct mp as [p|]; [|simplify_eq; reflexivity].
  destruct (packetmem_alloc _ _) as [[pm1 hrx]|]; [|simplify_eq; reflexivity].
  destruct (packetmem_alloc _ _) as [[pm2 htx]|]; [|simplify_eq; split; auto].
  injection D as <- <-. split; [reflexivity|]. rewrite kconn_put_eq. split; [reflexivity|].
  assert (I : forall x y, is_Some (k_conns (put_conn s p x) !! y) -> is_Some (<[p := x]> (k_conns (put_conn s p x)) !! y)).
  { intros x y Hy. apply lookup_insert_is_Some. destruct (decide (p = y)); auto. }
  split_and!; try reflexivity; intros.
  - split; auto; intros c'; [rewrite !kconn_put; unfold kconn; cbn; case_decide; auto; apply lookup_total_insert_ne; auto|].
    cbn. rewrite !lookup_insert_is_Some. destruct (decide (p = c')); tauto.
  - split; auto; intros c'; [rewrite !kconn_put; unfold kconn; cbn; case_decide; auto; apply lookup_total_insert_ne; auto|].
    cbn. rewrite !lookup_insert_is_Some. destruct (decide (p = c')); tauto.
  - split; auto.
    + intros c'. rewrite kconn_free. case_decide as Dc.
      * subst. symmetry. apply fresh_conn, F. reflexivity.
      * unfold kconn. cbn. apply lookup_total_insert_ne. auto.
    + intros c' Hc. cbn. assert (p <> c') by (intros ->; rewrite (F c' eq_refl) in Hc; destruct Hc; discriminate).
      rewrite lookup_delete_ne, lookup_insert_ne by auto. exact Hc.
Qed.

Lemma tcp_open_kt s mp me ctx op rip rp db oc onh s' r c : 
  tcp_open s mp me ctx op rip rp db oc onh = Ok (s', r, c) -> kt None s ->
  fresh (k_conns s) mp -> fresh (k_arp s) me -> ax_evfd (kctx s ctx) <> 0 -> kt None s'.
Proof.
  unfold tcp_open. intros D K F Fa N. destruct (conn_alloc s mp) as [s1 [p|]] eqn:Ec;
    apply conn_alloc_spec in Ec; auto; [|injection D as <- <- <-; eapply kt_view; eauto].
  destruct Ec as (-> & A1 & V & _ & Vf & _ & Ea). specialize (F p eq_refl).
  pose proof (fresh_unlisted s p (kt_lists _ _ K) F) as U.
  bind_inv D. destruct a as [s2 port]. unfold port_alloc in E. bind_inv E. injection E as <- <-.
  case_match; [injection D as <- <- <-; eapply kt_view; [apply Vf | exact K]|].
  cbv zeta in D. match type of D with context [routing_resolve (put_conn _ p ?y)] => set (x := y) in * end.
  assert (K2 : kt (Some p) (put_conn s p x)).
  { apply kt_put_idle; [| rewrite (fresh_conn s p F); reflexivity | exact A1 |].
    - destruct K as (pe & du & R & W & M & L). exists pe, du. split_and!; auto using tm_hide.
    - split; [intros _; split; [exact N | congruence]|]. intros H'. change (kn_to_armed (kconn s1 p) = true) in H'. congruence. }
  bind_inv D.
  match goal with R : routing_resolve _ _ _ _ = Ok ?a |- _ => destruct a as [s3 ret];
    apply (routing_resolve_kt (Some p)) in R as [K3 P3] end;
    [| eapply kt_view; [apply V | exact K2] | cbn; rewrite Ea; exact Fa].
  assert (U3 : unlisted s3 p).
  { eapply kept_unlisted; [exact P3|]. destruct U as [U1 U2]. split.
    - pose proof (sv_conns _ _ (V x 0)) as E'. cbn in E'. cbn. rewrite E'. exact U1.
    - intros l. pose proof (sv_wait _ _ (V x 0) l) as E'. cbn in E'. unfold klisten in *. cbn in *. rewrite E'. apply U2. }
  assert (A3 : kn_to_armed (kconn s3 p) = false) by (rewrite (kp_armed _ _ _ P3), kconn_put_eq; exact A1).
  assert (S3 : kn_status (kconn s3 p) = CONN_ARP_PENDING) by (rewrite (kp_status _ _ _ P3), kconn_put_eq; reflexivity).
  case_match.
  { injection D as <- <- <-. apply (kt_close lo _ p); [apply kt_free; auto|].
    rewrite kconn_free, decide_True by reflexivity. intros [?|?]; discriminate. }
  assert (K4 : kt None (s3 <| k_tcp_conns := p :: k_tcp_conns s3 |>)).
  { apply kt_register; auto. apply (kp_alloc _ _ _ P3). cbn. rewrite lookup_insert_eq. eauto. }
  bind_inv D. match goal with R : (if ret =? 0 then _ else _) = Ok ?a |- _ => destruct a as [s4 r4]; rename R into E4 end.
  injection D as <- <- <-. eapply kt_view; [apply ports_view|].
  case_match; [|injection E4 as <- <-; exact K4].
  destruct (conn_arp_done_kt _ p K4 S3) as (s5 & E5 & K5). rewrite E5 in E4. injection E4 as <- <-. exact K5.
Qed.

Lemma tcp_accept_kt s mp ctx op l db s' r : tcp_accept s mp ctx op l db = Ok (s', r) -> kt None s ->
  fresh (k_conns s) mp -> kt None s'.
Proof.
  unfold tcp_accept. intros D K F. destruct (conn_alloc s mp) as [s1 [p|]] eqn:Ec;
    apply conn_alloc_spec in Ec; auto; [|injection D as <- <-; eapply kt_view; eauto].
  destruct Ec as (-> & A1 & _ & V & _). specialize (F p eq_refl). destruct l as [l|]; [|discriminate].
  destruct (fresh_unlisted s p (kt_lists _ _ K) F) as [U1 U2]. cbv zeta in D.
  match type of D with context [put_conn s1 p ?y] => set (x := y) in * end.
  assert (K1 : kt None (put_conn s1 p x)).
  { eapply kt_view; [apply V|]. apply kt_idle_conn; auto; [rewrite fresh_conn by exact F; reflexivity|].
    intros [?|?]; discriminate. }
  assert (K2 : kt None (put_listen (put_conn s1 p x) l
    (klisten s1 l <| ln_wait_conns := p :: ln_wait_conns (klisten s1 l) |>))).
  { pose proof (kt_lists _ _ K1) as [N A WN WU WA]. specialize (V x).
    assert (U1' : p ∉ k_tcp_conns (put_conn s1 p x)) by (rewrite (sv_conns _ _ V); exact U1).
    assert (U2' : forall l, p ∉ ln_wait_conns (klisten (put_conn s1 p x) l))
      by (intros; rewrite (sv_wait _ _ V); apply U2).
    apply kt_wait; [exact K1 | apply NoDup_cons; split; [apply U2' | apply WN] |].
    intros c Hc. apply elem_of_cons in Hc as [->|Hc].
    - split_and!; auto. cbn. rewrite lookup_insert_eq. eauto.
    - destruct (WA l c Hc). split_and!; auto. intros l' Nl Hc'. apply Nl. eapply WU; eauto. }
  bind_inv D. injection D as <- <-. case_match; [eapply listener_accept_kt; eauto | injection E as <-; exact K2].
Qed.

(** ** Completions and frames of the host *)

Lemma tcp_poll_loop_kt fuel : forall s s', tcp_poll_loop fuel s = Ok s' -> kt None s -> kt None s'.
Proof.
  induction fuel as [|fuel IH]; intros s s' D K; [discriminate|]. cbn [tcp_poll_loop] in D.
  destruct (nbqueue_deq (k_async s)) as [q [c|]]; [|injection D as <-; exact K]. bind_inv D.
  apply (IH _ _ D). assert (K1 : kt None (s <| k_async := q |>)) by (eapply kt_view; [apply async_view | exact K]).
  destruct (kn_status _) eqn:Es; try (injection E as <-; exact K1).
  case_match; [eapply conn_failed_kt; eauto|].
  destruct (conn_arp_done_kt _ c K1 Es) as (s1 & E1 & K2). rewrite E1 in E. injection E as <-. exact K2.
Qed.

Lemma conn_reg_synack_kt s c s' r : conn_reg_synack s c = Ok (s', r) -> kt None s ->
  kn_to_armed (kconn s c) = false -> kt None s'.
Proof.
  unfold conn_reg_synack. intros D K A.
  assert (K1 : kt None (put_conn s c (set_status (kconn s c) CONN_OPEN)))
    by (apply kt_idle_conn; auto; intros [?|?]; discriminate).
  match type of D with (let '(_, _) := send_control ?a ?b ?f ?t ?e ?m in _) = _ =>
    pose proof (send_control_view a b f t e m) as V; destruct (send_control a b f t e m) as [s1 q] end.
  bind_inv D. injection D as <- <-. eapply accept_conn_kt; [exact E|].
  eapply kt_view; [apply tap_view|]. eapply kt_view; [exact V | exact K1].
Qed.

Lemma tap_packet_kt s buf len s' : tap_packet s buf len = Ok s' -> kt None s -> kt None s'.
Proof.
  unfold tap_packet. intros D K. case_match.
  { case_match; injection D as <-; [exact K|]. eapply kt_view; [|exact K].
    unfold arp_packet_tap. repeat case_match; try reflexivity. apply tap_view. }
  case_match; [|injection D as <-; exact K]. case_match; [injection D as <-; exact K|].
  case_match; [|eapply kt_view; [eapply send_network_view; exact D | exact K]].
  case_match; [injection D as <-; exact K|]. bind_inv D. destruct a as [q o].
  destruct (conn_lookup_rev s _) as [c|];
    [|eapply kt_view; [eapply send_network_view; exact D | exact K]].
  case_bool_decide as Es.
  - destruct (op_ts o) as [tso|]; [|discriminate].
    set (x := kconn s c <| kn_linux_seq := _ |> <| kn_remote_seq := _ |> <| kn_syn_ecr := _ |>) in *.
    assert (K1 : kt None (put_conn s c x)) by (apply kt_same_conn; auto).
    case_match; [eapply conn_failed_kt; eauto|]. bind_inv D. destruct a as [s1 ret].
    apply conn_reg_synack_kt in E0; [|exact K1 | rewrite kconn_put_eq; apply (kt_no_timer None s c K); congruence].
    case_match; [eapply conn_failed_kt; eauto | injection D as <-; exact E0].
  - case_match; injection D as <-; [|exact K]. eapply kt_view; [apply tap_view | exact K].
Qed.

(** ** Requests of applications *)

Lemma tcp_listen_kt s lm ll mb ctx op port bl ru oc onh s' r l :
  tcp_listen s lm ll mb ctx op port bl ru oc onh = (s', r, l) -> kt None s -> kt None s'.
Proof.
  assert (A : forall l x m, ln_wait_conns x = [] -> kt None s ->
    kt None (put_listen s l x <| k_lmulti := m |>)).
  { intros l0 x m Ex K. eapply (kt_view _ _ _ (put_listen s l0 x)); [split; auto|].
    apply kt_wait; [exact K | rewrite Ex; constructor|]. intros c Hc. rewrite Ex in Hc. inversion Hc. }
  unfold tcp_listen. intros D K. repeat case_match; simplify_eq; auto;
    try (eapply kt_view; [apply ports_view|]); try (apply A; auto).
Qed.

(** The memory a request may get holds no struct. *)
Definition mallocs_ok (s : kst) (ml : mallocs) : Prop := fresh (k_conns s) (ml_conn ml) /\ fresh (k_arp s) (ml_arp ml).

Lemma kt_kout E s x e s' : kout_write s x e = Ok s' -> kt E s -> kt E s'.
Proof. intros W K. eapply kt_view; [eapply kout_write_view; eauto | exact K]. Qed.

Lemma kin_conn_open_kt s ml app ctx op ip fl port s' r :
  kin_conn_open s ml app ctx op ip fl port = Ok (s', r) -> kt None s -> mallocs_ok s ml ->
  ax_evfd (kctx s ctx) <> 0 -> kt None s'.
Proof.
  unfold kin_conn_open. intros D K [F Fa] N. bind_inv D. destruct a as [[s1 ret] c].
  apply tcp_open_kt in E; auto. case_match.
  - injection D as <- <-. eapply kt_view; [apply app_view | exact E].
  - bind_inv D. injection D as <- <-. eapply kt_kout; eauto.
Qed.

Lemma kin_conn_move_kt s app ctx op rip lip rp lp db s' r :
  kin_conn_move s app ctx op rip lip rp lp db = Ok (s', r) -> kt None s -> kt None s'.
Proof.
  unfold kin_conn_move. intros D K.
  repeat case_match; bind_inv D; injection D as <- <-; (eapply kt_kout; [eassumption|]); auto.
  eapply kt_view; [apply nic_view | exact K].
Qed.

Lemma kin_listen_open_kt s ml app ctx op bl port fl s' r :
  kin_listen_open s ml app ctx op bl port fl = Ok (s', r) -> kt None s -> kt None s'.
Proof.
  unfold kin_listen_open. intros D K. destruct (tcp_listen _ _ _ _ _ _ _ _ _ _ _) as [[s1 ret] l] eqn:E.
  apply tcp_listen_kt in E; auto. case_match; bind_inv D; injection D as <- <-; (eapply kt_kout; [eassumption|]); auto.
  eapply kt_view; [apply app_view | exact E].
Qed.

Lemma kin_accept_conn_kt s ml app ctx lop cop port s' r :
  kin_accept_conn s ml app ctx lop cop port = Ok (s', r) -> kt None s -> mallocs_ok s ml -> kt None s'.
Proof.
  unfold kin_accept_conn. intros D K [F _]. bind_inv D. destruct a as [s1 ret]. apply tcp_accept_kt in E; auto.
  case_match; [injection D as <- <-; exact E|]. bind_inv D. injection D as <- <-. eapply kt_kout; eauto.
Qed.

Lemma appif_ctx_poll_kt s ml app ctx s' r : appif_ctx_poll s ml app ctx = Ok (s', r) -> kt None s ->
  mallocs_ok s ml -> ax_evfd (kctx s ctx) <> 0 -> kt None s'.
Proof.
  unfold appif_ctx_poll. intros D K F N. case_match; [injection D as <- <-; exact K|].
  assert (V : forall s1 (inc : Z) x y, kt None s1 -> kt None (if 0 <? inc then put_ctx (put_ctx s1 ctx
    (kctx s1 ctx <| ax_kin_pos := x |>)) ctx (kctx (put_ctx s1 ctx (kctx s1 ctx <| ax_kin_pos := x |>)) ctx <| ax_kout_pos := y |>)
    else put_ctx s1 ctx (kctx s1 ctx <| ax_kin_pos := x |>))).
  { intros s1 inc x y K1. destruct (0 <? inc); repeat (eapply kt_view; [apply ctx_view; reflexivity|]); exact K1. }
  case_match; [injection D as <- <-; exact K|..]; bind_inv D;
    match goal with E : _ = Ok ?a |- _ => is_var a; destruct a as [s1 inc] end; injection D as <- <-; apply V.
  - eapply kin_conn_open_kt; eauto.
  - injection E as <- <-. exact K.
  - eapply kin_conn_move_kt; eauto.
  - eapply kin_listen_open_kt; eauto.
  - injection E as <- <-. exact K.
  - eapply kin_accept_conn_kt; eauto.
  - injection E as <- <-. exact K.
Qed.

(** ** The queue from the NIC *)

Lemma kernel_rxq_poll_kt s s' r : kernel_rxq_poll s = Ok (s', r) -> kt None s -> kt None s'.
Proof.
  unfold kernel_rxq_poll. intros D K. destruct (rxq_poll (k_nic s)) as [n [[[[[buf len] core] group] d]|]].
  2: { injection D as <- <-. eapply kt_view; [apply nic_view | exact K]. }
  assert (K1 : kt None (s <| k_nic := n |>)) by (eapply kt_view; [apply nic_view | exact K]).
  destruct d; [| | injection D as <- <-; exact K1]; bind_inv D; injection D as <- <-;
    [eapply arp_packet_kt | eapply tcp_packet_kt]; eauto.
Qed.

Lemma nicif_poll_loop_kt n : forall s r s' r', nicif_poll_loop n s r = Ok (s', r') -> kt None s -> kt None s'.
Proof.
  induction n as [|n IH]; intros s r s' r' D K; cbn [nicif_poll_loop] in D; [injection D as <- <-; exact K|].
  bind_inv D. destruct a as [s1 q]. eapply IH; [exact D|]. eapply kernel_rxq_poll_kt; eauto.
Qed.

(** ** Timeouts

    A handler is called when its timer is out of the lists, but its owner does
    not know yet. *)
Record firing (s : kst) (pend due : list timer) (t : timer) : Prop := mk_firing
  { fi_rep : timers_rep (k_timers s) pend due;
    fi_bound : Forall (fun t => lo <= t_deadline t < T + HORIZON) pend;
    fi_match : timers_match None s (t :: pend ++ due);
    fi_lists : lists_ok s;
    fi_out : t_id t ∉ map t_id (pend ++ due) }.

Lemma tcp_timeout_ok s pend due t c : firing s pend due t -> t_id t = conn_timer c ->
  kn_to_armed (kconn s c) = true -> exists s', tcp_timeout s c TO_TCP_HANDSHAKE = Ok s' /\ kt None s'.
Proof.
  intros [R W M L Out] Et A. destruct (tm_slot _ _ _ M c) as [S1 S2]. destruct (S2 A) as (St & At & Tm).
  destruct (S1 (or_intror St)) as [N Hin]. specialize (Hin ltac:(discriminate)).
  unfold tcp_timeout. rewrite A. cbn [assert_ obind]. rewrite Z.eqb_refl. cbn [negb].
  rewrite bool_decide_eq_true_2 by exact St. cbn [negb].
  set (s1 := put_conn s c (kconn s c <| kn_to_armed := false |>)).
  assert (K1 : kt None s1).
  { exists pend, due. split_and!; auto; [|apply lists_put, L].
    eapply tm_drop_conn; [exact M | | | rewrite <- Et; exact Out | reflexivity].
    - split; [exact S1 | discriminate].
    - apply same_but_sym. rewrite <- Et. apply same_but_cons. reflexivity. }
  assert (E1 : kconn s1 c = kconn s c <| kn_to_armed := false |>) by apply kconn_put_eq.
  set (x2 := kconn s1 c <| kn_to_attempts := kn_to_attempts (kconn s c) + 1 |>).
  assert (K2 : kt None (put_conn s1 c x2)).
  { apply kt_put_idle; [exact K1 | rewrite E1; reflexivity | subst x2; rewrite E1; reflexivity |].
    subst x2. rewrite E1. split; [exact S1 | discriminate]. }
  destruct (Z.ltb_spec (cf_tcp_handshake_retries config) (kn_to_attempts (kconn s c) + 1)) as [Gt|Le].
  - destruct (conn_failed_ok (put_conn s1 c x2) c (-1) K2) as [s' E].
    + exact Hin.
    + rewrite kconn_put_eq. subst x2. rewrite E1. reflexivity.
    + rewrite kconn_put_eq. subst x2. rewrite E1. exact N.
    + exists s'. split; [exact E | eapply conn_failed_kt; eauto].
  - rewrite kconn_put_eq. set (x3 := x2 <| kn_timeout := u32 (kn_timeout (kconn s c) * 2) |>).
    assert (H3 : handshaking x3).
    { subst x3 x2. rewrite E1. split; [exact St|]. cbn. split; [lia|]. rewrite Tm.
      destruct CO as [C1 C2 C3 _ _]. rewrite Z.pow_add_r by lia.
      assert (P : 0 < 2 ^ (kn_to_attempts (kconn s c) + 1) <= 2 ^ cf_tcp_handshake_retries config) by (apply pow_mono; lia).
      rewrite Z.pow_add_r in P by lia. change (2 ^ 1) with 2 in *. unfold HORIZON in *.
      rewrite u32_small by (unfold is_u32; nia). lia. }
    assert (K3 : kt None (put_conn (put_conn s1 c x2) c x3)).
    { assert (A3 : kn_to_armed x3 = false) by (subst x3 x2; rewrite E1; reflexivity).
      apply kt_put_idle; [exact K2 | rewrite kconn_put_eq; exact A3 | exact A3 |]. split; [|congruence].
      subst x3 x2. rewrite E1. exact S1. }
    destruct (arm_kt None lo _ c Hlo K3) as (m & rng & E & K4);
      [rewrite kconn_put_eq; subst x3 x2; rewrite E1; reflexivity | rewrite kconn_put_eq; exact H3 |].
    rewrite E. cbn [obind]. eexists. split; [reflexivity|]. eapply kt_view; [apply send_control_view | exact K4].
Qed.

(** The same timers with other deadlines. *)
Lemma tm_same_timers E s l l' t t' : timers_match E s (t :: l) -> l' ≡ₚ t' :: l -> t_id t' = t_id t ->
  t_type t' = t_type t -> timers_match E s l'.
Proof.
  intros [Of Sl Ar Ap] P Ei Ety.
  assert (I : forall i, i ∈ map t_id (t :: l) -> i ∈ map t_id l') by (intros i; rewrite P; cbn; rewrite Ei; auto).
  split; auto.
  - intros u Hu. rewrite P in Hu. apply elem_of_cons in Hu as [->|Hu]; [|apply Of; right; exact Hu].
    specialize (Of t ltac:(left)). unfold timer_of in *. rewrite Ei, Ety. exact Of.
  - intros e He. destruct (Ap e He) as [A B]. auto.
Qed.

Lemma arp_timeout_ok s pend due t e : firing s pend due t -> t_id t = arp_timer e -> t_type t = TO_ARP_REQ ->
  e ∈ k_arp_table s -> ae_status (karp s e) = 1 -> exists s', arp_timeout s e = Ok s' /\ kt None s'.
Proof.
  intros [R W M L Out] Et Ty He E1. unfold arp_timeout. rewrite E1. cbn [Z.eqb Pos.eqb].
  destruct (Z.leb_spec (cf_arp_to_max config) (u32 (ae_timeout (karp s e) * 2))) as [Le|Gt].
  - destruct (complete_all None None (-1) (ae_compl (karp s e)) s _ M L) as (M1 & L1 & Tm & Ea & Eb).
    set (s1 := fold_left _ _ s) in *. eexists. split; [reflexivity|]. exists pend, due. split_and!.
    + cbn. rewrite Tm. exact R.
    + exact W.
    + eapply (tm_set_arp None s1 _ (t :: pend ++ due) (pend ++ due) e M1); auto.
      * apply same_but_sym. rewrite <- Et. apply same_but_cons. reflexivity.
      * intros e' N. split; [cbn; apply lookup_delete_ne; auto|]. cbn. rewrite list_elem_of_filter. tauto.
      * intros He'. cbn in He'. apply list_elem_of_filter in He' as [N _]. contradiction.
      * intros u Hu Eu. exfalso. apply Out. rewrite Et, <- Eu. apply list_elem_of_fmap_2, Hu.
    + destruct L1. split; auto.
  - pose proof (arp_tx_view s (arp_frame (le_bytes 6 info_mac_addr) ETH_BROADCAST ARP_OPER_REQUEST (cf_ip config)
      (ae_ip (karp s e)))) as V. unfold request_tx. destruct (arp_tx _ _) as [s1 q]. cbn [fst] in V.
    set (to := u32 (ae_timeout (karp s e) * 2)) in *.
    assert (Ek : karp s1 e = karp s e) by (unfold karp; rewrite (sv_arp _ _ V); reflexivity).
    set (s2 := put_arp s1 e (karp s1 e <| ae_timeout := to |>)).
    assert (M2 : timers_match None s2 (t :: pend ++ due)) by (apply tm_put_arp; [eapply tm_view; eauto | intros _; reflexivity]).
    assert (Hto : 0 <= to < HORIZON).
    { destruct CO as [_ _ _ _ C5]. pose proof (u32_range (ae_timeout (karp s e) * 2)) as [Hu _]. fold to in Hu. lia. }
    destruct (arm_rep (k_timers s2) pend due T (arp_timer e) to TO_ARP_REQ) as (m & Em & Rm);
      [ change (k_timers s2) with (k_timers s1); rewrite (sv_timers _ _ V); exact R
      | eapply bound_within; [|exact W]; lia | rewrite <- Et; exact Out | exact Hto | unfold TO_ARP_REQ; lia |].
    rewrite Hnow, Em. cbn [obind]. eexists. split; [reflexivity|].
    eexists _, _. split_and!; [exact Rm | apply armed_bound; cbn; auto; lia | |].
    + apply tm_timers. eapply tm_same_timers; [exact M2 | apply arm_perm | auto..].
    + apply lists_timers, lists_put_arp. eapply lists_view; eauto.
Qed.
End Now.

(** ** The poll *)

Lemma tm_perm E s l l' : l ≡ₚ l' -> timers_match E s l -> timers_match E s l'.
Proof.
  intros P [Of Sl Ar Ap]. split; auto.
  - intros t Ht. apply Of. rewrite P. exact Ht.
  - intros c Hc. rewrite <- P. auto.
  - intros e He. destruct (Ap e He). rewrite <- P. auto.
Qed.

(** What the handlers keep while the poll at [T] runs; the manager is passed
    around beside the state. *)
Definition polling (T : Z) (s : kst) (pend due : list timer) : Prop :=
  Forall (fun t => T <= t_deadline t < T + HORIZON) pend /\ timers_match None s (pend ++ due) /\ lists_ok s.

Lemma kt_polling T s : kt None T T s -> exists pend due, timers_rep (k_timers s) pend due /\ polling T s pend due.
Proof. intros (pend & due & R & P). exists pend, due. split; [exact R | exact P]. Qed.

Lemma timeout_handler_keeps T : config_ok -> now_us = ts_of T -> handler_keeps timeout_handler (polling T).
Proof.
  intros CO Hnow m s pend due t R (W & M & L) Out _.
  assert (F : firing T T (s <| k_timers := m |>) pend due t).
  { split; auto; [|apply lists_timers, L]. apply tm_timers. eapply tm_perm; [|exact M].
    symmetry. apply Permutation_middle. }
  assert (Hlo : T - HORIZON < T <= T) by (unfold HORIZON; lia).
  assert (D : exists s', timeout_trigger (s <| k_timers := m |>) (t_id t) (t_type t) = Ok s' /\ kt None T T s').
  { destruct (tm_of _ _ _ M t) as [(c & Ei & Et & A)|(e & Ei & Et & He & E1)]; [apply elem_of_app; right; left | |];
      unfold timeout_trigger; rewrite Et, Ei; cbn [Z.eqb Pos.eqb TO_ARP_REQ TO_TCP_HANDSHAKE orb].
    - rewrite owner_conn. apply (tcp_timeout_ok T CO Hnow T Hlo _ pend due t c F Ei A).
    - rewrite owner_arp. apply (arp_timeout_ok T CO Hnow T Hlo _ pend due t e F Ei Et He E1). }
  destruct D as (s' & E & K). destruct (kt_polling T s' K) as (p' & d' & R' & I').
  exists (k_timers s'), s', p', d'. split; [|split; [exact R' | exact I']].
  unfold timeout_handler. rewrite E. reflexivity.
Qed.

(** *** What the handlers do to the timers *)

Lemma opened_timers s c st s' : appif_conn_opened s c st = Ok s' -> k_timers s' = k_timers s.
Proof.
  unfold appif_conn_opened. case_match; [intros [= <-]; auto|]. intros D. bind_inv D. injection D as <-.
  match goal with E : kout_write _ _ _ = Ok _ |- _ => apply kout_write_view in E as V end.
  rewrite (sv_timers _ _ (kout_advance_view _ _ _)), (sv_timers _ _ V).
  case_match; [congruence|]. unfold tcp_destroy in *.
  match goal with E : obind _ _ = Ok _ |- _ => apply obind_ok in E as ([] & _ & [= <-]) end. reflexivity.
Qed.
Lemma failed_timers s c st s' : kn_to_armed (kconn s c) = false -> conn_failed s c st = Ok s' -> k_timers s' = k_timers s.
Proof.
  unfold conn_failed. intros A D. destruct (k_tcp_conns s) as [|c_i rest]; [discriminate|].
  case_match; [|injection D as <-; reflexivity].
  change (kn_to_armed (kconn (s <| k_tcp_conns := rest |>) c)) with (kn_to_armed (kconn s c)) in D. rewrite A in D.
  cbn [obind] in D. apply opened_timers in D. exact D.
Qed.

(** Either nothing, or the timer [i] is armed. *)
Definition rearms (m : timeout_manager) (i ty : Z) (m' : timeout_manager) : Prop :=
  m' = m \/ exists us, 0 <= us < HORIZON /\ util_timeout_arm_ts m i us ty now_us = Ok m'.

Lemma arm_limit m i us ty ts m' : util_timeout_arm_ts m i us ty ts = Ok m' -> us < HORIZON.
Proof. unfold util_timeout_arm_ts, HORIZON. destruct (Z.leb_spec 134217728 us); [discriminate|lia]. Qed.

Lemma tcp_timeout_timers s c ty s' : tcp_timeout s c ty = Ok s' ->
  rearms (k_timers s) (conn_timer c) TO_TCP_HANDSHAKE (k_timers s').
Proof.
  unfold tcp_timeout. intros D. apply obind_ok in D as ([] & _ & D). do 2 (case_match; [discriminate|]). case_match.
  - apply failed_timers in D; [left; exact D|]. rewrite !kconn_put_eq. reflexivity.
  - apply obind_ok in D as (s1 & E & D). injection D as <-. rewrite (sv_timers _ _ (send_control_view _ _ _ _ _ _)).
    right. unfold conn_timeout_arm in E. apply obind_ok in E as ([] & _ & E).
    destruct (utils_rng_gen32 _) as [r rng]. case_match; [discriminate|]. apply obind_ok in E as (t & E & [= <-]).
    eexists. split; [|exact E]. split; [apply u32_range | eapply arm_limit; exact E].
Qed.
Lemma arp_timeout_timers s e s' : arp_timeout s e = Ok s' -> rearms (k_timers s) (arp_timer e) TO_ARP_REQ (k_timers s').
Proof.
  unfold arp_timeout. intros D. case_match; [discriminate|]. case_match.
  - injection D as <-. left. change (k_timers (fold_left (complete None (-1)) (ae_compl (karp s e)) s) = k_timers s).
    generalize (ae_compl (karp s e)). intros cs. clear. revert s. induction cs as [|c cs IH]; intros s; cbn [fold_left]; [reflexivity|].
    rewrite IH. reflexivity.
  - unfold request_tx in D. match type of D with context [arp_tx ?a ?b] => pose proof (arp_tx_view a b) as V; destruct (arp_tx a b) as [s1 q] end.
    cbn [fst] in V. apply obind_ok in D as (t & E & [= <-]). right. eexists. split; [|rewrite <- (sv_timers _ _ V); exact E].
    split; [apply u32_range | eapply arm_limit; exact E].
Qed.

Lemma tm_ids E s l l' : ids l = ids l' -> timers_match E s l -> timers_match E s l'.
Proof.
  intros Ei [Of Sl Ar Ap].
  assert (Em : map t_id l = map t_id l') by (apply (f_equal (map fst)) in Ei; unfold ids in Ei; rewrite !map_map in Ei; exact Ei).
  split; auto.
  - intros t Ht. assert (Hi : (t_id t, t_type t) ∈ ids l).
    { rewrite Ei. apply list_elem_of_fmap. eauto. }
    apply list_elem_of_fmap in Hi as (u & [= E1 E2] & Hu). specialize (Of u Hu). unfold timer_of in *. now rewrite E1, E2.
  - intros c Hc. rewrite <- Em. auto.
  - intros e He. destruct (Ap e He). rewrite <- Em. auto.
Qed.

(** The part of the kernel's state that its timers depend on. *)
Definition kernel_match (s : kst) (pend due : list timer) : Prop := timers_match None s (pend ++ due) /\ lists_ok s.

Lemma kernel_match_moves : moves_keep kernel_match.
Proof.
  intros s pend due T [M L]. split; [|exact L]. eapply tm_perm; [|exact M].
  rewrite (Permutation_app_comm due), app_assoc, later_expired. reflexivity.
Qed.

(** The handler of the kernel is one of those the theorem on armed timers is about. *)
Theorem timeout_handler_fair T : config_ok -> now_us = ts_of T -> fair_handler kernel_match T timeout_handler.
Proof.
  intros CO Hnow m s pend due t R [M L] A Out Ty.
  destruct (timeout_handler_keeps T CO Hnow m s pend due t R (conj A (conj M L)) Out Ty)
    as (m' & s' & p' & d' & E & R' & _ & M' & L').
  assert (Re : exists ty, 0 <= ty < 16 /\ rearms m (t_id t) ty m').
  { unfold timeout_handler in E. apply obind_ok in E as (s1 & E & [= <- <-]).
    destruct (tm_of _ _ _ M t) as [(c & Ei & Et & _)|(e & Ei & Et & _)]; [apply elem_of_app; right; left|..];
      unfold timeout_trigger in E; rewrite Et, Ei in E; cbn [Z.eqb Pos.eqb TO_ARP_REQ TO_TCP_HANDSHAKE orb] in E; rewrite Ei.
    - rewrite owner_conn in E. exists TO_TCP_HANDSHAKE. split; [unfold TO_TCP_HANDSHAKE; lia|exact (tcp_timeout_timers _ _ _ _ E)].
    - rewrite owner_arp in E. exists TO_ARP_REQ. split; [unfold TO_ARP_REQ; lia|exact (arp_timeout_timers _ _ _ E)]. }
  destruct Re as (ty & Hty & [->|(us & Hus & Ea)]).
  - exists m, s', pend, []. rewrite app_nil_r. split_and!; auto. split; [|exact L'].
    eapply tm_ids; [exact (rep_ids _ _ _ _ _ R' R)|exact M'].
  - assert (W : within T pend) by (eapply Forall_impl; [exact A|]; cbn; unfold HORIZON; lia).
    destruct (arm_rep m pend due T (t_id t) us ty R W Out Hus Hty) as (m1 & Em & R1). rewrite Hnow, Em in Ea. injection Ea as <-.
    eexists m1, s', _, _. split_and!; [exact E|exact R1| |apply (armed_bound T T); cbn; auto; lia].
    split; [|exact L']. eapply tm_ids; [exact (rep_ids _ _ _ _ _ R' R1)|exact M'].
Qed.

Lemma kernel_timeouts_ok T s : config_ok -> now_us = ts_of T -> kernel_timers_ok T s ->
  exists s', kernel_timeouts s now_us = Ok s' /\ kt None T T s'.
Proof.
  intros CO Hnow (pend & due & R & W & M & L). unfold kernel_timeouts, util_timeout_poll_ts.
  assert (Wi : within T pend) by (eapply bound_within; [|exact W]; lia).
  destruct (move_due_rep _ _ _ T R Wi) as (m1 & E1 & R1). rewrite Hnow, E1. cbn [obind].
  destruct (poll_due_keeps timeout_handler (polling T) MAX_TIMEOUTS m1 s _ _ (timeout_handler_keeps T CO Hnow) R1)
    as (m2 & s2 & p2 & d2 & E2 & R2 & W2 & M2 & L2).
  { split; [|split; [|exact L]].
    - eapply Forall_impl; [exact (later_within T pend Wi)|]. cbn. lia.
    - eapply tm_perm; [|exact M]. rewrite (Permutation_app_comm due), app_assoc, later_expired. reflexivity. }
  rewrite E2. cbn [obind]. eexists. split; [reflexivity|]. exists p2, d2. split_and!; auto using tm_timers, lists_timers.
Qed.

Lemma kt_later T T' s : T <= T' < T + HORIZON -> kt None T T s -> kernel_timers_ok T' s.
Proof.
  intros HT (pend & due & R & W & M & L). exists pend, due. split_and!; auto.
  eapply Forall_impl; [exact W|]. cbn. lia.
Qed.

(** ** Properties *)

(** C5.  Polling the timers never aborts: every timer whose handler runs
    belongs to a connection that still waits for its SYN-ACK with [to_armed]
    set, or to an ARP entry that still waits for its reply, the timeouts that
    are armed again are in range, and failed connections can be reported.
    Afterwards the invariant holds until 2^27 microseconds later: the kernel
    may sleep for two minutes. *)
Theorem kernel_timeouts_safe T s :
  config_ok -> now_us = ts_of T -> kernel_timers_ok T s ->
  exists s', kernel_timeouts s now_us = Ok s' /\
    forall T', T <= T' < T + HORIZON -> kernel_timers_ok T' s'.
Proof.
  intros CO Hnow I. destruct (kernel_timeouts_ok T s CO Hnow I) as (s' & E & K).
  exists s'. split; [exact E|]. intros T' HT. apply (kt_later T); auto.
Qed.

(** A step of the kernel process: the calls of the main loop that touch
    connections or timers, and a frame of the TAP device. *)
Inductive kernel_step (s : kst) : kst -> Prop :=
| ks_nicif s' n : nicif_poll s = Ok (s', n) -> kernel_step s s'
| ks_appif ml app ctx s' n : mallocs_ok s ml -> ax_evfd (kctx s ctx) <> 0 ->
    appif_ctx_poll s ml app ctx = Ok (s', n) -> kernel_step s s'
| ks_tcp s' : tcp_poll s = Ok s' -> kernel_step s s'
| ks_timeouts s' : kernel_timeouts s now_us = Ok s' -> kernel_step s s'
| ks_tap buf len s' : tap_packet s buf len = Ok s' -> kernel_step s s'.

(** C4.  Whatever packets, requests, completions and timeouts the kernel
    process handles at time [T], and in whatever order, its timers stay
    consistent: a timer is armed exactly for the connections with [to_armed]
    and the waiting ARP entries; connections in a handshake are in the list of
    connections with an application to notify; and every connection in a list
    is allocated and in that list only, once. *)
Theorem kernel_timers_invariant T s s' :
  config_ok -> now_us = ts_of T -> kernel_timers_ok T s -> rtc kernel_step s s' -> kernel_timers_ok T s'.
Proof.
  intros CO Hnow I. assert (Hlo : T - HORIZON < T - HORIZON + 1 <= T) by (unfold HORIZON; lia).
  induction 1 as [s|s s1 s' St _ IH]; [exact I | apply IH].
  destruct St as [s1 n E|ml app ctx s1 n F N E|s1 E|s1 E|buf len s1 E].
  - eapply nicif_poll_loop_kt; eauto.
  - eapply appif_ctx_poll_kt; eauto.
  - eapply tcp_poll_loop_kt; eauto.
  - destruct (kernel_timeouts_ok T s CO Hnow I) as (s2 & E2 & K2). rewrite E2 in E. injection E as <-.
    apply (kt_later T); [unfold HORIZON; lia | exact K2].
  - eapply tap_packet_kt; eauto.
Qed.
End Safe.
