(* ===== verification/KernelConn.v ===== *)
(** Connections of the kernel process: how a handshake ends, what the backlog
    of a listener holds, and which local port a connection gets. *)
From stdpp Require Import base numbers list gmap.
From Stdlib Require Import ZArith Lia.
From S2P Require Import Prelude LinkedList Timeout Qman Packet FlowState TcpCommon Dma FastPath FastRx Stream TxPath RxPath Handlers Queues NicIf FlowTable CC PacketMem.
From S2P Require Import KernelState Arp KernelTcp Appif Kernel KernelTimers KernelSafe.

(** ** The tables shared with the fast path *)

Record same_tables (n n' : nic) : Prop := mk_same_tables
  { st_flowst : nc_flowst n' = nc_flowst n; st_flowht : nc_flowht n' = nc_flowht n;
    st_qmant : nc_qmant n' = nc_qmant n; st_flow_id : nc_flow_id n' = nc_flow_id n }.

Lemma f_beui32_range b : is_u32 (f_beui32 b).
Proof. unfold f_beui32, bswap32, is_u32. Z.div_mod_to_equations; lia. Qed.

Section Conn.
Context `{Platform} `{KEnv}.

(** Sending only touches the transmit queue. *)
Lemma tx_alloc_tables n len n' r : nicif_tx_alloc n len = (n', r) -> same_tables n n'.
Proof.
  unfold nicif_tx_alloc. destruct (ktx_try_alloc n 0) as [[[ktx buf] op]|]; intros [= <- _]; split; reflexivity.
Qed.

Lemma tx_send_tables n m op : same_tables n (nicif_tx_send (n <| nc_mem := m |>) op).
Proof. unfold nicif_tx_send, kick_core. destruct (util_flexnic_kick _). split; reflexivity. Qed.

Lemma same_tables_trans n1 n2 n3 : same_tables n1 n2 -> same_tables n2 n3 -> same_tables n1 n3.
Proof. intros [A1 A2 A3 A4] [B1 B2 B3 B4]. split; etrans; eauto. Qed.

Lemma send_raw_nic s mac ip rp lp ls rs fl ts te mss : exists n,
  fst (send_control_raw s mac ip rp lp ls rs fl ts te mss) = s <| k_nic := n |> /\ same_tables (k_nic s) n.
Proof.
  unfold send_control_raw. destruct (nicif_tx_alloc _ _) as [n r] eqn:E. apply tx_alloc_tables in E.
  destruct r as [[b t]|]; cbn [fst]; eexists; (split; [reflexivity|]); [|exact E].
  eapply same_tables_trans; [exact E | apply tx_send_tables].
Qed.

(** The congestion control state of a new connection. *)
Lemma cc_conn_init_ok cfg ts junk cc : 0 < cfg_tcp_link_bw cfg <= 11200 ->
  exists cc', cc_conn_init cfg ts junk cc = Ok cc' /\ cn_flow_group cc' = cn_flow_group cc /\ cn_tx_len cc' = cn_tx_len cc.
Proof.
  intros Hb. unfold cc_conn_init. destruct (cfg_algorithm cfg).
  1: { unfold dctcp_win_init. destruct (window_to_rate_ok cfg (2 * CONF_MSS) (cfg_tcp_rtt_init cfg)) as (r & -> & _);
         [unfold CONF_MSS; lia | exact Hb |]. eexists. split; [reflexivity | split; reflexivity]. }
  all: eexists; split; [reflexivity | split; reflexivity].
Qed.

(** ** A SYN-ACK opens the connection *)

(** The key the fast path will find the connection under. *)
Definition conn_key (x : connection) : flow_key :=
  mk_flow_key (t_beui32 (kn_local_ip x)) (t_beui32 (kn_remote_ip x))
    (t_beui16 (kn_local_port x)) (t_beui16 (kn_remote_port x)).

(** There is a flow id, a queue on [core] and a slot for [k] left. *)
Record can_register (w : fp) (n : nic) (core : Z) (k : flow_key) : Prop := mk_can_register
  { cr_sees : sees w n; cr_ids : ids_ok n; cr_id : nc_flow_id n < FLEXNIC_PL_FLOWST_NUM;
    cr_core : core < nc_fn_cores n; cr_queue : nc_qman_queues n !!! core <> [];
    cr_slot : slot_scan (nc_flowht n) (slot (hash_key k)) 4 <> None;
    cr_new : lookup_key w k = None }.

(** What [nicif_connection_add] makes of a connection. *)
Record flow_added (w : fp) (n n' : nic) (x : connection) (seq : Z) : Prop := mk_flow_added
  { fa_lookup : forall w' k, sees w' n' ->
      lookup_key w' k = if decide (k = conn_key x) then Some (nc_flow_id n) else lookup_key w k;
    fa_flow : exists qid, nc_flowst n' !!! nc_flow_id n =
        flow_init (nc_flowst n !!! nc_flow_id n) (conn_flow_params x seq) qid /\
      forall w', fp_qmant w' = nc_qmant n' -> qmant_flow w' qid = nc_flow_id n }.

Lemma flow_added_same w n n' n'' x x' seq : same_tables n' n'' -> conn_key x' = conn_key x ->
  conn_flow_params x' seq = conn_flow_params x seq -> flow_added w n n' x seq -> flow_added w n n'' x' seq.
Proof.
  intros [T1 T2 T3 T4] Ek Eq [L (qid & F & Q)]. split.
  - intros w' k [A B]. rewrite Ek. apply L. split; congruence.
  - exists qid. rewrite T1, Eq. split; [exact F|]. intros w' E. apply Q. congruence.
Qed.

Lemma conn_nic_add_ok w s c x seq : kconn s c = x -> can_register w (k_nic s) (kn_fn_core x) (conn_key x) ->
  exists n', flow_added w (k_nic s) n' x seq /\
    conn_nic_add s c seq = Ok (put_conn (s <| k_nic := n' |>) c
      (x <| kn_cc := kn_cc x <| cn_flow_id := nc_flow_id (k_nic s) |> |>), 0).
Proof.
  intros E [S I N C Q Sl Nw].
  destruct (connection_added (k_nic s) (conn_flow_params x seq) w S I N C Q Sl Nw) as (n' & En & _ & _ & L & F).
  exists n'. split; [split; [exact L | exact F]|]. unfold conn_nic_add. rewrite E, En. reflexivity.
Qed.

(** The message to the application. *)
Lemma conn_opened_msg s c : kout_room (kctx s (kn_ctx (kconn s c))) = true ->
  ax_evfd (kctx s (kn_ctx (kconn s c))) <> 0 ->
  exists s', appif_conn_opened s c 0 = Ok s' /\ (forall c', kconn s' c' = kconn s c') /\ k_nic s' = k_nic s /\
    ax_kout (kctx s' (kn_ctx (kconn s c))) !!! ax_kout_pos (kctx s (kn_ctx (kconn s c))) =
      KERNEL_APPIN_CONN_OPENED (kn_opaque (kconn s c)) 0 (Some (conn_params (kconn s c), kn_local_port (kconn s c))).
Proof.
  intros Room Ev. unfold appif_conn_opened. rewrite Room. cbn [negb Z.eqb obind].
  unfold kout_write, appif_ctx_kick. cbv zeta. rewrite !kctx_put, !decide_True by reflexivity.
  cbn [obind]. rewrite (proj2 (Z.eqb_neq _ _)) by exact Ev. cbn [negb assert_ obind].
  eexists. split; [reflexivity|]. split; [|split].
  - intros c'. unfold kout_advance. case_match; reflexivity.
  - unfold kout_advance. case_match; reflexivity.
  - unfold kout_advance. rewrite !kctx_put, !decide_True by reflexivity. cbn.
    rewrite lookup_total_insert_eq. reflexivity.
Qed.

Section SynAck.
Context (T : Z) (s : kst) (w : fp) (c : Z) (p : pkt_tcp) (o : tcp_opts) (core fg : Z).
#[local] Notation x := (kconn s c).

(** A SYN-ACK with a time stamp arrives for a connection whose handshake timer
    runs; the NIC and the application's queue have room. *)
Record syn_ack_arrives : Prop := mk_syn_ack_arrives
  { sa_inv : kernel_timers_ok T s;
    sa_status : kn_status x = CONN_SYN_SENT; sa_armed : kn_to_armed x = true;
    sa_flags : Z.land (TCPH_FLAGS (p_tcp p)) (Z.lor TCP_SYN TCP_ACK) = Z.lor TCP_SYN TCP_ACK;
    sa_ts : is_Some (op_ts o);
    sa_room : kout_room (kctx s (kn_ctx x)) = true;
    sa_bw : 0 < cfg_tcp_link_bw (cf_cc config) <= 11200;
    sa_nic : can_register w (k_nic s) core (conn_key x) }.

(** The connection after its handshake. *)
Record opened (s' : kst) : Prop := mk_opened
  { op_status : kn_status (kconn s' c) = CONN_OPEN;
    op_idle : kn_to_armed (kconn s' c) = false;
    op_remote_seq : kn_remote_seq (kconn s' c) = u32 (f_beui32 (tcp_seqno (p_tcp p)) + 1);
    op_local_seq : kn_local_seq (kconn s' c) = f_beui32 (tcp_ackno (p_tcp p));
    op_flow_id : kn_flow_id (kconn s' c) = nc_flow_id (k_nic s);
    op_key : conn_key (kconn s' c) = conn_key x;
    op_bufs : (kn_rx_buf (kconn s' c), kn_rx_len (kconn s' c), kn_tx_buf (kconn s' c), kn_tx_len (kconn s' c)) =
              (kn_rx_buf x, kn_rx_len x, kn_tx_buf x, kn_tx_len x);
    op_msg : ax_kout (kctx s' (kn_ctx x)) !!! ax_kout_pos (kctx s (kn_ctx x)) =
      KERNEL_APPIN_CONN_OPENED (kn_opaque x) 0 (Some (conn_params (kconn s' c), kn_local_port x));
    op_nic : flow_added w (k_nic s) (k_nic s') (kconn s' c) (kn_local_seq (kconn s' c)) }.

Lemma syn_ack_opens : syn_ack_arrives -> exists s', conn_packet s c p o core fg = Ok s' /\ opened s'.
Proof.
  intros [I St A Fl [tso Ts] Room Bw Nic]. assert (Hl : T - HORIZON < T - HORIZON + 1 <= T) by (unfold HORIZON; lia).
  destruct (kt_slot T _ None s c I) as [Sl _]. destruct (Sl (or_intror St)) as [Ev _].
  set (x1 := x <| kn_fn_core := core |> <| kn_cc := kn_cc x <| cn_flow_group := fg |> |>).
  assert (K1 : kt None (T - HORIZON + 1) T (put_conn s c x1)) by (apply kt_same_conn; auto).
  destruct (disarm_kt None _ T (put_conn s c x1) c K1) as (m & Ed & _); [rewrite kconn_put_eq; exact A|].
  rewrite kconn_put_eq in Ed. set (s2 := put_conn (put_conn s c x1) c (x1 <| kn_to_armed := false |>) <| k_timers := m |>) in Ed.
  assert (E2 : kconn s2 c = x1 <| kn_to_armed := false |>) by apply lookup_total_insert_eq.
  unfold conn_packet. rewrite bool_decide_eq_true_2 by exact St. fold x1.
  unfold conn_syn_sent_packet. rewrite Ed. cbn [obind]. rewrite Fl, Z.eqb_refl, Ts. cbn [negb]. cbv zeta. rewrite E2.
  match goal with |- context [conn_cc_init (put_conn s2 c ?y)] => set (x3 := y) end.
  assert (F3 : exists flags, x3 = x1 <| kn_to_armed := false |>
      <| kn_remote_seq := u32 (f_beui32 (tcp_seqno (p_tcp p)) + 1) |>
      <| kn_local_seq := f_beui32 (tcp_ackno (p_tcp p)) |> <| kn_syn_ts := opt_ts_val p tso |> <| kn_flags := flags |>)
    by (subst x3; destruct (ecn_bits p =? TCP_ECE); eexists; reflexivity).
  clearbody x3. destruct F3 as [flags ->].
  unfold conn_cc_init. rewrite kconn_put_eq.
  match goal with |- context [cc_conn_init ?a ?b ?d ?e] => destruct (cc_conn_init_ok a b d e Bw) as (cc' & -> & Ec & Ex) end.
  cbn [obind]. rewrite !kconn_put_eq.
  match goal with |- context [conn_nic_add (put_conn _ c ?y) c _] => set (x4 := y) end.
  match goal with |- context [conn_nic_add ?y] => set (s4 := y) end.
  destruct (conn_nic_add_ok w s4 c x4 (kn_local_seq x4)) as (n' & Fa & En); [apply kconn_put_eq | exact Nic |].
  rewrite En. cbn [obind negb Z.eqb]. rewrite !kconn_put_eq.
  match goal with |- context [set_status ?y CONN_OPEN] => set (x6 := set_status y CONN_OPEN) end.
  unfold send_control. match goal with |- context [send_control_raw ?a1 ?a2 ?a3 ?a4 ?a5 ?a6 ?a7 ?a8 ?a9 ?b1 ?b2] =>
    destruct (send_raw_nic a1 a2 a3 a4 a5 a6 a7 a8 a9 b1 b2) as (n7 & E7 & T7);
    destruct (send_control_raw a1 a2 a3 a4 a5 a6 a7 a8 a9 b1 b2) as [s7 r7] end.
  cbn [fst] in E7. subst s7. match goal with |- context [appif_conn_opened ?y] => set (s7 := y) end.
  assert (X7 : kconn s7 c = x6) by apply lookup_total_insert_eq.
  assert (Q7 : forall i, kctx s7 i = kctx s i) by reflexivity.
  destruct (conn_opened_msg s7 c) as (s8 & E8 & C8 & N8 & M8); rewrite ?X7, ?Q7; [exact Room | exact Ev |].
  rewrite E8. cbn [obind negb Z.eqb]. exists s8. split; [reflexivity|].
  rewrite X7, Q7 in M8.
  split; rewrite ?C8, ?N8, ?X7; try reflexivity.
  - cbn. rewrite Ex. reflexivity.
  - exact M8.
  - apply (flow_added_same w _ n' n7 x4 x6 _ T7); [reflexivity | reflexivity | exact Fa].
Qed.
End SynAck.

(** The buffers of a connection are ones the fast path can work with. *)
Definition buffers_ok (x : connection) : Prop :=
  (0 <= kn_rx_buf x /\ 0 < kn_rx_len x < 2147483648 /\ kn_rx_buf x + kn_rx_len x <= FLEXNIC_DMA_MEM_SIZE /\
   kn_rx_buf x mod 16 = 0) /\ 0 < kn_tx_len x < 2147483648.

Lemma opened_params s w c p s' : opened s w c p s' -> buffers_ok (kconn s c) ->
  params_ok (conn_flow_params (kconn s' c) (kn_local_seq (kconn s' c))).
Proof.
  intros O [B1 B2]. pose proof (op_bufs _ _ _ _ _ O) as E. injection E as E1 E2 E3 E4.
  split; cbn; rewrite ?E1, ?E2, ?E4; auto.
  rewrite (op_remote_seq _ _ _ _ _ O), (op_local_seq _ _ _ _ _ O). split; [apply u32_range | apply f_beui32_range].
Qed.

(** C3.  A SYN-ACK completes the handshake: the connection is open with its
    timer stopped, the application is told the connection's buffers, sequence
    numbers and flow id, and from then on the fast path finds the flow under
    the connection's addresses and ports, in the state of a connection that
    sends from the acknowledged and receives from the peer's next sequence
    number with its whole buffer open, while every other lookup stays as it
    was. *)
Theorem handshake_completes T s w c buf len o core fg stream m :
  let p := bytes_pkt buf in
  let fid := nc_flow_id (k_nic s) in
  SZ_PKT_TCP <= len -> f_beui32 (ip_dest (p_ip p)) = cf_ip config ->
  parse_options p len = Ok (0, o) -> conn_lookup s p = Some c ->
  syn_ack_arrives T s w c p o core -> buffers_ok (kconn s c) ->
  fs_rx_ooo_len (nc_flowst (k_nic s) !!! fid) = 0 ->
  exists s', tcp_packet s buf len core fg = Ok s' /\ opened s w c p s' /\
    TxRep (f_beui32 (tcp_ackno (p_tcp p))) (nc_flowst (k_nic s') !!! fid) (mk_tx_stream 0 0 0) /\
    RxRep (u32 (f_beui32 (tcp_seqno (p_tcp p)) + 1)) stream m (nc_flowst (k_nic s') !!! fid)
      (mk_rx_stream 0 (kn_rx_len (kconn s c)) None).
Proof.
  intros p fid Hl Hd Ho Hc Ha Hb Hooo. destruct (syn_ack_opens T s w c p o core fg Ha) as (s' & E & O).
  exists s'. split; [|split; [exact O|]].
  { unfold tcp_packet. fold p. rewrite (proj2 (Z.ltb_ge _ _) Hl), Hd, Z.eqb_refl, Ho. cbn [negb obind Z.eqb].
    rewrite Hc. exact E. }
  destruct (op_nic _ _ _ _ _ O) as [_ (qid & F & _)]. fold fid in F. rewrite F.
  destruct (flow_init_rep (conn_flow_params (kconn s' c) (kn_local_seq (kconn s' c))) qid (nc_flowst (k_nic s) !!! fid)
    stream m (opened_params s w c p s' O Hb) Hooo) as [R1 R2].
  pose proof (op_bufs _ _ _ _ _ O) as B. injection B as B1 B2 B3 B4. cbn [pm_local_seq pm_remote_seq pm_rx_len conn_flow_params] in R1, R2.
  rewrite (op_local_seq _ _ _ _ _ O) in *. rewrite (op_remote_seq _ _ _ _ _ O), B2 in R2. auto.
Qed.

(** ** A refused connection that is not the newest *)

(** The first segment that is not a SYN-ACK. *)
Lemma reject_first T s c p o core fg c0 rest : kernel_timers_ok T s -> k_tcp_conns s = c0 :: rest -> c <> c0 ->
  kn_status (kconn s c) = CONN_SYN_SENT -> kn_to_armed (kconn s c) = true ->
  Z.land (TCPH_FLAGS (p_tcp p)) (Z.lor TCP_SYN TCP_ACK) <> Z.lor TCP_SYN TCP_ACK ->
  exists s1, conn_packet s c p o core fg = Ok s1 /\ kn_status (kconn s1 c) = CONN_SYN_SENT /\
    kn_to_armed (kconn s1 c) = false /\ k_tcp_conns s1 = k_tcp_conns s /\ k_ctx s1 = k_ctx s /\
    conn_lookup s1 p = conn_lookup s p.
Proof.
  intros I Ec Nc St A Fl. set (x1 := kconn s c <| kn_fn_core := core |> <| kn_cc := kn_cc (kconn s c) <| cn_flow_group := fg |> |>).
  assert (K1 : kt None (T - HORIZON + 1) T (put_conn s c x1)) by (apply kt_same_conn; auto).
  destruct (disarm_kt None _ T (put_conn s c x1) c K1) as (m & Ed & _); [rewrite kconn_put_eq; exact A|].
  unfold conn_packet. rewrite bool_decide_eq_true_2 by exact St. fold x1. unfold conn_syn_sent_packet. rewrite Ed.
  cbn [obind]. rewrite (proj2 (Z.eqb_neq _ _) Fl). cbn [negb obind Z.eqb]. unfold conn_failed.
  rewrite kconn_put_eq in *. match goal with |- context [k_tcp_conns ?y] => set (s1 := y) end.
  change (k_tcp_conns s1) with (k_tcp_conns s). rewrite Ec, (proj2 (Z.eqb_neq _ _)) by auto.
  assert (Ek : forall c', kconn s1 c' = if decide (c = c') then x1 <| kn_to_armed := false |> else kconn s c').
  { intros c'. change (kconn s1 c') with (kconn (put_conn (put_conn s c x1) c (x1 <| kn_to_armed := false |>)) c').
    rewrite !kconn_put. case_decide; reflexivity. }
  exists s1. rewrite Ek, decide_True by reflexivity. 
  split; [reflexivity|]. split; [exact St|]. split; [reflexivity|]. split; [exact Ec|]. split; [reflexivity|].
  unfold conn_lookup. change (k_tcp_conns s1) with (k_tcp_conns s).
  generalize (k_tcp_conns s). intros cs. induction cs as [|a l IH]; [reflexivity|]. cbn [List.find]. rewrite IH, Ek.
  case_decide; subst; reflexivity.
Qed.

(** A connection that another one was opened after is not the head of
    the list, and [conn_failed] does nothing for it: the first segment that is
    not a SYN-ACK (the RST of a closed port, say) leaves it waiting, without a
    timer and without a word to the application, and the same segment once
    more fails the assertion in [conn_timeout_disarm] and aborts the kernel
    process. *)
Theorem second_reject_aborts T s c buf len o core fg c0 rest :
  let p := bytes_pkt buf in
  kernel_timers_ok T s -> k_tcp_conns s = c0 :: rest -> c <> c0 ->
  kn_status (kconn s c) = CONN_SYN_SENT -> kn_to_armed (kconn s c) = true ->
  SZ_PKT_TCP <= len -> f_beui32 (ip_dest (p_ip p)) = cf_ip config ->
  parse_options p len = Ok (0, o) -> conn_lookup s p = Some c ->
  Z.land (TCPH_FLAGS (p_tcp p)) (Z.lor TCP_SYN TCP_ACK) <> Z.lor TCP_SYN TCP_ACK ->
  exists s1, tcp_packet s buf len core fg = Ok s1 /\ kn_status (kconn s1 c) = CONN_SYN_SENT /\
    kn_to_armed (kconn s1 c) = false /\ c ∈ k_tcp_conns s1 /\ k_ctx s1 = k_ctx s /\
    tcp_packet s1 buf len core fg = Crash.
Proof.
  intros p I Ec Nc St A Hl Hd Ho Hc Fl.
  destruct (reject_first T s c p o core fg c0 rest I Ec Nc St A Fl) as (s1 & E & St1 & A1 & L1 & X1 & C1).
  assert (D : forall s', conn_lookup s' p = Some c -> tcp_packet s' buf len core fg = conn_packet s' c p o core fg).
  { intros s' Hs. unfold tcp_packet. fold p. rewrite (proj2 (Z.ltb_ge _ _) Hl), Hd, Z.eqb_refl, Ho.
    cbn [negb obind Z.eqb]. rewrite Hs. reflexivity. }
  exists s1. rewrite !D by congruence. split_and!; auto.
  - apply find_some in Hc as [Hc _]. rewrite L1. apply list_elem_of_In, Hc.
  - unfold conn_packet. rewrite bool_decide_eq_true_2 by exact St1. unfold conn_syn_sent_packet, conn_timeout_disarm.
    rewrite kconn_put_eq. cbn. rewrite A1. reflexivity.
Qed.

(** ** Local ports *)

(** The ports the search runs through are 0 and the ephemeral ones, in a
    circle. *)
Definition port_at (i : Z) : Z := if i mod 16385 =? 0 then 0 else 49151 + i mod 16385.
Definition port_pos (p : Z) : Z := if p <? 49152 then 0 else p - 49151.

Lemma port_next_at p : is_u16 p -> port_next p = port_at (port_pos p + 1).
Proof.
  intros Hp. unfold is_u16, port_next, port_at, port_pos, PORT_FIRST_EPH, u16 in *.
  destruct (Z.ltb_spec p 49152).
  - change ((0 + 1) mod 16385) with 1. cbn [Z.eqb Pos.eqb]. bsplit; try reflexivity.
    + assert (p = 49151) as -> by lia. reflexivity.
  - bsplit; try lia; Z.div_mod_to_equations; lia.
Qed.

Lemma port_at_u16 i : is_u16 (port_at i).
Proof. unfold port_at, is_u16. case_match; Z.div_mod_to_equations; lia. Qed.

Lemma port_pos_at i : port_pos (port_at i) = i mod 16385.
Proof. unfold port_pos, port_at. bsplit; Z.div_mod_to_equations; lia. Qed.

(** The port [n] steps behind [h]. *)
Lemma port_iter h n : is_u16 h -> (0 < n)%nat -> Nat.iter n port_next h = port_at (port_pos h + Z.of_nat n).
Proof.
  intros Hh. induction n as [|[|n] IH]; intros Hn; [lia | apply port_next_at, Hh|].
  change (Nat.iter (S (S n)) port_next h) with (port_next (Nat.iter (S n) port_next h)). rewrite IH by lia.
  rewrite port_next_at, port_pos_at by apply port_at_u16. unfold port_at.
  rewrite Zplus_mod_idemp_l. replace (port_pos h + Z.of_nat (S n) + 1) with (port_pos h + Z.of_nat (S (S n))) by lia.
  reflexivity.
Qed.

(** Every port of the circle is reached after at most one round. *)
Lemma port_reached h q : is_u16 h -> q = 0 \/ 49152 <= q < 65536 ->
  exists n, (0 < n <= Z.to_nat 16385)%nat /\ Nat.iter n port_next h = q.
Proof.
  intros Hh Hq. set (k := (port_pos q - port_pos h) mod 16385).
  assert (Hk : 0 <= k < 16385) by (apply Z.mod_pos_bound; lia).
  assert (At : forall j, (port_pos h + j) mod 16385 = port_pos q -> port_at (port_pos h + j) = q).
  { intros j E. unfold port_at. rewrite E. unfold port_pos. bsplit; lia. }
  assert (Pq : 0 <= port_pos q < 16385) by (unfold port_pos; bsplit; lia).
  assert (M : (port_pos h + k) mod 16385 = port_pos q).
  { unfold k. rewrite Zplus_mod_idemp_r. replace (port_pos h + (port_pos q - port_pos h)) with (port_pos q) by lia.
    apply Z.mod_small, Pq. }
  exists (if k =? 0 then Z.to_nat 16385 else Z.to_nat k). destruct (Z.eqb_spec k 0) as [E|E].
  - split; [lia|]. rewrite port_iter by (auto; lia). apply At. rewrite E, Z.add_0_r in M.
    change (Z.of_nat (Z.to_nat 16385)) with (1 * 16385). rewrite Z.mod_add by lia. exact M.
  - split; [lia|]. rewrite port_iter by (auto; lia). rewrite Z2Nat.id by lia. apply At, M.
Qed.

Lemma port_search_spec s fuel p :
  match port_search fuel s p with
  | Ok q => exists n, (n < fuel)%nat /\ q = Nat.iter n port_next p /\ port_unused s q = true /\
      forall k, (k < n)%nat -> port_unused s (Nat.iter k port_next p) = false
  | Crash => False
  | Spin => forall k, (k < fuel)%nat -> port_unused s (Nat.iter k port_next p) = false
  end.
Proof.
  revert p. induction fuel as [|fuel IH]; intros p; cbn [port_search]; [intros; lia|].
  destruct (port_unused s p) eqn:E.
  { exists 0%nat. split_and!; auto; [lia | intros; lia]. }
  specialize (IH (port_next p)).
  assert (Sw : forall k, Nat.iter k port_next (port_next p) = Nat.iter (S k) port_next p)
    by (intros; symmetry; apply Nat.iter_succ_r).
  destruct (port_search fuel s (port_next p)) as [q| |]; [| exact IH |].
  - destruct IH as (n & Hn & -> & U & B). exists (S n). rewrite <- Sw. split_and!; auto; [lia|].
    intros [|k] Hk; [exact E | rewrite <- Sw; apply B; lia].
  - intros [|k] Hk; [exact E | rewrite <- Sw; apply IH; lia].
Qed.

(** The port a new connection gets is the first unused one from
    [port_eph_hint] on, in the circle of 0 and the ephemeral ports, and the
    next search starts behind it.  The search only fails to return when the
    port it starts from, port 0 and every ephemeral port are in use; port 0,
    which the caller takes for a failure, may be returned before. *)
Theorem port_alloc_spec s :
  is_u16 (k_port_eph_hint s) ->
  let h := k_port_eph_hint s in
  match port_alloc s with
  | Ok (s', p) => s' = s <| k_port_eph_hint := port_next p |> /\ port_unused s p = true /\
      exists n, p = Nat.iter n port_next h /\ forall k, (k < n)%nat -> port_unused s (Nat.iter k port_next h) = false
  | Crash => False
  | Spin => port_unused s h = false /\ port_unused s 0 = false /\
      forall p, 49152 <= p < 65536 -> port_unused s p = false
  end.
Proof.
  intros Hh h. subst h. unfold port_alloc. pose proof (port_search_spec s port_fuel (k_port_eph_hint s)) as S.
  destruct (port_search _ _ _) as [p| |]; cbn [obind]; [| exact S |].
  - destruct S as (n & _ & E & U & B). split; [reflexivity|]. split; [exact U|]. exists n. auto.
  - assert (F : (Z.to_nat 16385 < port_fuel)%nat) by (unfold port_fuel; lia).
    assert (C : forall q, q = 0 \/ 49152 <= q < 65536 -> port_unused s q = false).
    { intros q Hq. destruct (port_reached _ q Hh Hq) as (n & Hn & <-). apply S. lia. }
    split; [|split; [apply C; auto | intros p Hp; apply C; auto]].
    apply (S 0%nat). lia.
Qed.
End Conn.
