(* ===== verification/Backlog.v ===== *)
(** The backlog of a listener (kernel/tcp.c): a ring of received SYN packets
    that represents a first-in first-out queue. *)
From stdpp Require Import base numbers list gmap.
From Stdlib Require Import ZArith Lia.
From S2P Require Import Prelude LinkedList Timeout Qman Packet FlowState TcpCommon Dma FastPath FastRx Queues NicIf CC PacketMem.
From S2P Require Import KernelState Arp KernelTcp Appif Kernel KernelTimers.

(** ** The queue a ring represents *)

Definition backlog_at (ln : listener) (i : Z) : backlog_slot :=
  ln_backlog ln !!! ((ln_backlog_pos ln + i) mod ln_backlog_len ln).
(** Oldest first. *)
Definition backlog_list (ln : listener) : list backlog_slot := map (backlog_at ln) (seqZ 0 (ln_backlog_used ln)).

Record backlog_ok (ln : listener) : Prop := mk_backlog_ok
  { bk_pos : 0 <= ln_backlog_pos ln < ln_backlog_len ln;
    bk_used : 0 <= ln_backlog_used ln <= ln_backlog_len ln;
    bk_len : ln_backlog_len ln < 2147483648 }.

(** ** The abstract queue *)

(** A SYN is dropped when the queue is full, when it is too long for a slot and
    when a SYN with the same addresses and ports waits already. *)
Definition dropped (cap : Z) (p : pkt_tcp) (new : backlog_slot) (q : list backlog_slot) : bool :=
  (Z.of_nat (length q) =? cap) || (BACKLOG_BUF <? bl_len new) ||
  existsb (fun b => same_tuple p (bytes_pkt (bl_buf b))) q.

(** A SYN that is not dropped is queued; when an application already waits, the
    oldest one is handed to it at once. *)
Definition after_syn (cap : Z) (p : pkt_tcp) (new : backlog_slot) (waiting : bool) (q : list backlog_slot)
    : list backlog_slot :=
  if dropped cap p new q then q else if waiting then tail (q ++ [new]) else q ++ [new].

(** The slot holds packet [buf] as it was received. *)
Record slot_holds (b : backlog_slot) (buf : list Z) (core fg : Z) : Prop := mk_slot_holds
  { sh_len : bl_len b = u16 (SZ_ETH + f_beui16 (ip_len (p_ip (bytes_pkt buf))));
    sh_core : bl_core b = core; sh_fg : bl_fg b = fg;
    sh_bytes : take (length (slice buf 0 (bl_len b))) (bl_buf b) = slice buf 0 (bl_len b) }.

(** ** Ring arithmetic *)

Lemma backlog_length ln : backlog_ok ln -> Z.of_nat (length (backlog_list ln)) = ln_backlog_used ln.
Proof. intros [_ U _]. unfold backlog_list. rewrite length_map, length_seqZ. lia. Qed.

(** Wrapping by one conditional subtraction. *)
Lemma wrap_sub len a : 0 <= a < 2 * len -> (if len <=? a then a - len else a) = a mod len.
Proof.
  intros Ha. destruct (Z.leb_spec len a); [|symmetry; apply Z.mod_small; lia].
  apply (Z.mod_unique_pos _ _ 1); lia.
Qed.

Lemma ring_ne len pos i j : 0 < len -> 0 <= i < j -> j - i < len -> (pos + i) mod len <> (pos + j) mod len.
Proof.
  intros Hl Hij Hd E. assert (D : (pos + j - (pos + i)) mod len = 0).
  { rewrite Zminus_mod, E, Z.sub_diag. apply Z.mod_0_l. lia. }
  replace (pos + j - (pos + i)) with (j - i) in D by lia. rewrite Z.mod_small in D by lia. lia.
Qed.

Lemma backlog_push ln b :
  backlog_ok ln -> ln_backlog_used ln < ln_backlog_len ln ->
  let ln' := ln <| ln_backlog := <[(ln_backlog_pos ln + ln_backlog_used ln) mod ln_backlog_len ln := b]> (ln_backlog ln) |>
                <| ln_backlog_used := u32 (ln_backlog_used ln + 1) |> in
  backlog_ok ln' /\ backlog_list ln' = backlog_list ln ++ [b].
Proof.
  intros [P U L] Hu ln'. assert (Eu : ln_backlog_used ln' = ln_backlog_used ln + 1) by (cbn; u32_drop; lia).
  split.
  - split; [exact P | rewrite Eu; cbn; lia | exact L].
  - unfold backlog_list. rewrite Eu, seqZ_app, map_app by lia. f_equal.
    + apply map_ext_in. intros i Hi. apply list_elem_of_In, elem_of_seqZ in Hi. unfold backlog_at. cbn.
      apply lookup_total_insert_ne, not_eq_sym. apply ring_ne; lia.
    + change (seqZ (0 + ln_backlog_used ln) 1) with [Z.of_nat 0 + (0 + ln_backlog_used ln)].
      cbn [map Z.of_nat]. rewrite !Z.add_0_l. f_equal. unfold backlog_at. cbn. apply lookup_total_insert_eq.
Qed.

Lemma backlog_pop ln :
  backlog_ok ln -> 0 < ln_backlog_used ln ->
  let pos := u32 (ln_backlog_pos ln + 1) in
  let ln' := ln <| ln_backlog_used := u32 (ln_backlog_used ln - 1) |>
                <| ln_backlog_pos := if ln_backlog_len ln <=? pos then pos - ln_backlog_len ln else pos |> in
  backlog_ok ln' /\ backlog_list ln = backlog_at ln 0 :: backlog_list ln'.
Proof.
  intros [P U L] Hu pos ln'.
  assert (Eu : ln_backlog_used ln' = ln_backlog_used ln - 1) by (cbn; u32_drop; lia).
  assert (Ep : ln_backlog_pos ln' = (ln_backlog_pos ln + 1) mod ln_backlog_len ln).
  { cbn. subst pos. u32_drop. apply wrap_sub. lia. }
  split.
  - split; [rewrite Ep; apply Z.mod_pos_bound; cbn; lia | rewrite Eu; cbn; lia | exact L].
  - unfold backlog_list. rewrite Eu. replace (ln_backlog_used ln) with (1 + (ln_backlog_used ln - 1)) at 1 by lia.
    rewrite seqZ_app, map_app by lia. change (seqZ 0 1) with [0]. cbn [map app]. f_equal.
    rewrite Z.add_0_l. replace (seqZ 1 (ln_backlog_used ln - 1)) with (map (Z.add 1) (seqZ 0 (ln_backlog_used ln - 1)))
      by (etrans; [apply (fmap_add_seqZ 1 0) | f_equal; lia]).
    rewrite map_map. apply map_ext. intros i. unfold backlog_at. rewrite Ep. cbn.
    rewrite Zplus_mod_idemp_l. do 2 f_equal. lia.
Qed.

Lemma backlog_has_spec ln p n : backlog_ok ln -> forall i, 0 <= i ->
  backlog_has n ln ((ln_backlog_pos ln + i) mod ln_backlog_len ln) p =
  existsb (fun b => same_tuple p (bytes_pkt (bl_buf b))) (map (backlog_at ln) (seqZ i (Z.of_nat n))).
Proof.
  intros [P U L]. induction n as [|n IH]; intros i Hi; [reflexivity|].
  rewrite seqZ_cons by lia. cbn [backlog_has map existsb]. f_equal.
  replace (Z.pred (Z.of_nat (S n))) with (Z.of_nat n) by lia. rewrite <- IH by lia. f_equal.
  pose proof (Z.mod_pos_bound (ln_backlog_pos ln + i) (ln_backlog_len ln) ltac:(lia)).
  u32_drop. rewrite Zplus_mod_idemp_l. f_equal. lia.
Qed.

(** ** The operations *)

Section Listener.
Context `{Platform} `{KEnv}.

Lemma kick_listeners s x s' : appif_ctx_kick s x = Ok s' -> k_listeners s' = k_listeners s.
Proof. unfold appif_ctx_kick. intros E. bind_inv E. injection E as <-. case_match; reflexivity. Qed.

Lemma listen_newconn_listeners s l ip port s' : appif_listen_newconn s l ip port = Ok s' -> k_listeners s' = k_listeners s.
Proof.
  unfold appif_listen_newconn, kout_write. case_match; [intros [= <-]; reflexivity|].
  intros E. bind_inv E. injection E as <-. apply kick_listeners in E0. exact E0.
Qed.

Lemma cc_init_listeners s c s' : conn_cc_init s c = Ok s' -> k_listeners s' = k_listeners s.
Proof. unfold conn_cc_init. intros E. bind_inv E. injection E as <-. reflexivity. Qed.

Lemma nic_add_listeners s c seq s' r : conn_nic_add s c seq = Ok (s', r) -> k_listeners s' = k_listeners s.
Proof.
  unfold conn_nic_add. intros E. bind_inv E. destruct a as [n [fid|]]; injection E as <- <-; reflexivity.
Qed.

(** Accepting takes the oldest SYN out, whatever comes of it. *)
Lemma listener_accept_pops s l s' : listener_accept s l = Ok s' -> backlog_ok (klisten s l) ->
  exists b, backlog_list (klisten s l) = b :: backlog_list (klisten s' l) /\ backlog_ok (klisten s' l).
Proof.
  unfold listener_accept. intros E B. destruct (ln_wait_conns (klisten s l)) as [|c w]; [discriminate|]. bind_inv E.
  assert (Hu : 0 < ln_backlog_used (klisten s l)) by (destruct (Z.ltb_spec 0 (ln_backlog_used (klisten s l))); [auto | discriminate]).
  destruct (backlog_pop _ B Hu) as [B' L']. exists (backlog_at (klisten s l) 0).
  destruct a0 as [ret o]. destruct (op_ts o) as [tso|];
    [|injection E as <-; rewrite klisten_put, decide_True by reflexivity; auto].
  destruct (negb (ret =? 0)); [injection E as <-; rewrite klisten_put, decide_True by reflexivity; auto|].
  bind_inv E. destruct a1 as [s2 ret2].
  match goal with N : conn_nic_add _ _ _ = _ |- _ => apply nic_add_listeners in N end.
  match goal with N : conn_cc_init _ _ = _ |- _ => apply cc_init_listeners in N; rename N into Ec end.
  assert (Kl : klisten s2 l = klisten s l).
  { unfold klisten. match goal with N : k_listeners s2 = _ |- _ => rewrite N end. cbn. rewrite Ec. reflexivity. }
  destruct (negb (ret2 =? 0)); injection E as <-; rewrite klisten_put, decide_True by reflexivity.
  - rewrite Kl. auto.
  - match goal with |- context [klisten ?y l] => change (klisten y l) with
      (klisten (put_listen s2 l (klisten s2 l <| ln_wait_conns := w |>)) l) end.
    rewrite klisten_put, decide_True, Kl by reflexivity. split; [exact L'|]. destruct B'. split; auto.
Qed.

(** The backlog is a first-in first-out queue of the received SYNs: a SYN
    is appended, with its bytes, core and flow group, unless the backlog is
    full, the packet is too long for a slot, or the same addresses and ports
    are already queued; accepting removes the oldest SYN, also when it turns
    out to be unusable. *)
Theorem backlog_fifo s l :
  backlog_ok (klisten s l) ->
  let ln := klisten s l in
  (forall buf o core fg s',
    Z.land (TCPH_FLAGS (p_tcp (bytes_pkt buf))) (u32 (Z.lnot (Z.lor TCP_ECE TCP_CWR))) = TCP_SYN ->
    listener_packet s l buf o core fg = Ok s' ->
    exists b, slot_holds b buf core fg /\ backlog_ok (klisten s' l) /\
      backlog_list (klisten s' l) = after_syn (ln_backlog_len ln) (bytes_pkt buf) b
        (negb (bool_decide (ln_wait_conns ln = []))) (backlog_list ln)) /\
  (forall s', listener_accept s l = Ok s' ->
    backlog_ok (klisten s' l) /\ exists b, backlog_list ln = b :: backlog_list (klisten s' l)).
Proof.
  intros B ln. split.
  2: { intros s' E. destruct (listener_accept_pops s l s' E B) as (b & Eb & B'). eauto. }
  intros buf o core fg s' Fl E. unfold listener_packet in E. fold ln in E. rewrite Fl, Z.eqb_refl in E. cbn [negb] in E.
  set (len := u16 (SZ_ETH + f_beui16 (ip_len (p_ip (bytes_pkt buf))))) in *.
  assert (Ew : (let bp := u32 (ln_backlog_pos ln + ln_backlog_used ln) in
    if ln_backlog_len ln <=? bp then bp - ln_backlog_len ln else bp) =
    (ln_backlog_pos ln + ln_backlog_used ln) mod ln_backlog_len ln).
  { destruct B as [P U L]. fold ln in P, U, L. cbv zeta. u32_drop. apply wrap_sub. lia. }
  cbv zeta in Ew, E. rewrite Ew in E.
  match type of E with context [mk_backlog_slot ?y len core fg] => set (b := mk_backlog_slot y len core fg) in * end.
  exists b. split; [split; [reflexivity..|]; apply take_app_length|].
  unfold after_syn, dropped. rewrite backlog_length by exact B. change (bl_len b) with len.
  rewrite (Z.eqb_sym (ln_backlog_used ln)).
  destruct (Z.eqb_spec (ln_backlog_len ln) (ln_backlog_used ln)) as [Hf|Hf]; [injection E as <-; cbn [orb]; split; [exact B | reflexivity]|].
  destruct (BACKLOG_BUF <? len); [injection E as <-; cbn [orb]; split; [exact B | reflexivity]|]. cbn [orb].
  replace (backlog_has _ ln (ln_backlog_pos ln) (bytes_pkt buf)) with
    (existsb (fun b => same_tuple (bytes_pkt buf) (bytes_pkt (bl_buf b))) (backlog_list ln)) in E.
  2: { destruct B as [P U L] eqn:EB. unfold backlog_list.
       rewrite <- (Z2Nat.id (ln_backlog_used ln)) at 1 by apply U.
       rewrite <- (backlog_has_spec ln _ _ B 0), Z.add_0_r, Z.mod_small by (apply P || lia). reflexivity. }
  destruct (existsb _ _); [injection E as <-; split; [exact B | reflexivity]|].
  destruct (backlog_push ln b B) as [B1 L1]; [destruct B as [P U L]; fold ln in U; lia|].
  bind_inv E. apply listen_newconn_listeners in E0.
  match type of E0 with _ = k_listeners (put_listen s l ?y) => set (ln1 := y) in * end.
  assert (Ka : klisten a l = ln1) by (unfold klisten; rewrite E0; apply lookup_total_insert_eq).
  rewrite Ka in E. change (ln_wait_conns ln1) with (ln_wait_conns ln) in E.
  destruct (ln_wait_conns ln) as [|c w].
  - injection E as <-. rewrite Ka. rewrite bool_decide_eq_true_2 by reflexivity. auto.
  - rewrite bool_decide_eq_false_2 by discriminate. cbn [negb].
    destruct (listener_accept_pops a l s' E) as (b0 & Eb & B'); rewrite Ka in *; [exact B1|].
    split; [exact B'|]. rewrite <- L1, Eb. reflexivity.
Qed.
End Listener.
