(* ===== verification/System.v ===== *)
(** The fast path as a whole, for one connection: whatever order the handlers
    of flexnic/fast_flows.c run in, between them the flow's state and buffers
    represent the two byte streams of the connection, and the abstract
    connection only moves the way TCP allows. *)
From stdpp Require Import base numbers list gmap relations.
From Stdlib Require Import ZArith Lia.
From S2P Require Import Prelude Packet FlowState TcpCommon Qman Dma Circ FastPath FastRx Stream TxPath RxPath Handlers Queues NicIf FlowTable.

(** ** The abstract connection *)

Record conn := mk_conn { c_tx : tx_stream; c_rx : rx_stream }.

(** What may happen to a connection: the transmit stream moves, bytes of the
    peer are delivered (within the window), or the window is extended. *)
Inductive conn_step : conn -> conn -> Prop :=
| cs_transmit t t' s : tx_step t t' -> conn_step (mk_conn t s) (mk_conn t' s)
| cs_deliver t next wend ooo next' ooo' : next <= next' <= wend ->
    conn_step (mk_conn t (mk_rx_stream next wend ooo)) (mk_conn t (mk_rx_stream next' wend ooo'))
| cs_open t next wend ooo wend' : wend <= wend' ->
    conn_step (mk_conn t (mk_rx_stream next wend ooo)) (mk_conn t (mk_rx_stream next wend' ooo)).

(** ** Where the connection lives in memory *)

Definition apart (b1 l1 b2 l2 : Z) : Prop := b1 + l1 <= b2 \/ b2 + l2 <= b1.

(** The application's receive queue on this core. *)
Record queue_ok (a : appctx) : Prop := mk_queue_ok
  { qok_base : 0 <= ac_rx_base a; qok_len : 64 <= ac_rx_len a < 2147483648;
    qok_div : (64 | ac_rx_len a) /\ (64 | ac_rx_head a); qok_head : 0 <= ac_rx_head a < ac_rx_len a;
    qok_mem : ac_rx_base a + ac_rx_len a <= FLEXNIC_DMA_MEM_SIZE }.

Definition flow_ctx (w : fp) (fs : flowst) : appctx := fp_appctx w !!! fs_db_id fs.

(** The flow's two buffers and the queue it notifies do not overlap. *)
Record layout_ok (w : fp) (fs : flowst) : Prop := mk_layout_ok
  { lay_tx : tx_region_ok fs; lay_queue : queue_ok (flow_ctx w fs);
    lay_rx_tx : apart (rx_base fs) (fs_rx_len fs) (fs_tx_base fs) (fs_tx_len fs);
    lay_rx_q : apart (rx_base fs) (fs_rx_len fs) (ac_rx_base (flow_ctx w fs)) (ac_rx_len (flow_ctx w fs));
    lay_tx_q : apart (fs_tx_base fs) (fs_tx_len fs) (ac_rx_base (flow_ctx w fs)) (ac_rx_len (flow_ctx w fs)) }.

(** The fields of a flow no handler changes. *)
Definition static (fs : flowst) : Z * Z * Z * Z * Z * bool :=
  (rx_base fs, fs_rx_len fs, fs_tx_base fs, fs_tx_len fs, fs_db_id fs, fs_objconn fs).

Definition same_on (m m' : mem) (base len : Z) : Prop :=
  forall x, base <= x < base + len -> mem_byte m' x = mem_byte m x.

Lemma static_inv fs fs' : static fs' = static fs ->
  rx_base fs' = rx_base fs /\ fs_rx_len fs' = fs_rx_len fs /\ fs_tx_base fs' = fs_tx_base fs /\
  fs_tx_len fs' = fs_tx_len fs /\ fs_db_id fs' = fs_db_id fs /\ fs_objconn fs' = fs_objconn fs.
Proof. unfold static. generalize (rx_base fs') (rx_base fs). intros b b' [= -> -> -> -> -> ->]. auto 6. Qed.

Lemma same_on_apart m m' b1 l1 b2 l2 :
  mem_same_outside m m' b1 l1 -> apart b1 l1 b2 l2 -> same_on m m' b2 l2.
Proof. intros M A x Hx. apply M. destruct A; lia. Qed.

Lemma RxRep_mem irs peer m m' fs s :
  same_on m m' (rx_base fs) (fs_rx_len fs) -> RxRep irs peer m fs s -> RxRep irs peer m' fs s.
Proof.
  intros M [C O]. pose proof C as [(Hb & HL & Hm) HO Hq Hp Ha Hd].
  assert (R : forall lo hi, ring_holds peer m (rx_base fs) (fs_rx_len fs) lo hi ->
                            ring_holds peer m' (rx_base fs) (fs_rx_len fs) lo hi).
  { intros lo hi H i Hi. rewrite M; [apply H; auto|]. pose proof (Z.mod_pos_bound i (fs_rx_len fs)). lia. }
  split; [split; auto; split; auto|]. unfold RxOoo in *. destruct (rxs_ooo s) as [[o l]|]; [|exact O].
  destruct O as (?&?&?&?&?&?). split_and!; auto.
Qed.

Lemma tx_holds_mem app m m' fs fs' t t' :
  same_on m m' (fs_tx_base fs) (fs_tx_len fs) -> 0 < fs_tx_len fs ->
  fs_tx_base fs' = fs_tx_base fs -> fs_tx_len fs' = fs_tx_len fs ->
  txs_acked t <= txs_acked t' -> txs_head t' = txs_head t ->
  tx_holds app m fs t -> tx_holds app m' fs' t'.
Proof.
  intros M HL E1 E2 Ha Hh H i Hi. rewrite E1, E2. pose proof (Z.mod_pos_bound i (fs_tx_len fs)).
  rewrite M by lia. apply H. lia.
Qed.

Lemma tx_steps_mono t t' : rtc tx_step t t' -> txs_acked t <= txs_acked t' /\ txs_head t <= txs_head t'.
Proof. induction 1 as [|t t1 t' St _ IH]; [lia|]. destruct St; cbn in *; lia. Qed.

Lemma conn_transmits t t' s : rtc tx_step t t' -> rtc conn_step (mk_conn t s) (mk_conn t' s).
Proof. induction 1; [reflexivity|]. eapply rtc_l; [constructor; eassumption | auto]. Qed.

(** ** Handlers keep the static fields *)

Lemma static_view fs fs' : rx_view fs' = rx_view fs -> fs_tx_base fs' = fs_tx_base fs ->
  fs_tx_len fs' = fs_tx_len fs -> fs_db_id fs' = fs_db_id fs -> static fs' = static fs.
Proof.
  intros V E1 E2 E3. unfold static. rewrite (rx_base_view _ _ V), (objconn_view _ _ V), E1, E2, E3.
  injection V as _ -> _ _ _ _ _. reflexivity.
Qed.

(** Fields of the transmit side and of the context no handler changes. *)
Definition tx_static (fs : flowst) : Z * Z * Z := (fs_tx_base fs, fs_tx_len fs, fs_db_id fs).

Lemma tx_static_inv fs fs' : tx_static fs' = tx_static fs ->
  fs_tx_base fs' = fs_tx_base fs /\ fs_tx_len fs' = fs_tx_len fs /\ fs_db_id fs' = fs_db_id fs.
Proof. intros [= -> -> ->]. auto. Qed.

Lemma rx_cc_stats_static fs p : tx_static (rx_cc_stats fs p) = tx_static fs.
Proof. unfold rx_cc_stats. destruct (tcp_flag p TCP_ACK); [destruct (tcp_flag p TCP_ECE)|]; reflexivity. Qed.

Lemma rx_ack_advance_static fs b : tx_static (rx_ack_advance fs b) = tx_static fs.
Proof.
  unfold rx_ack_advance. fs_cbn. destruct (b <=? fs_tx_sent fs); [reflexivity|].
  destruct (fs_tx_len fs <=? _); reflexivity.
Qed.

Lemma flow_reset_retransmit_static fs : tx_static (flow_reset_retransmit fs) = tx_static fs.
Proof.
  unfold flow_reset_retransmit. fs_cbn. destruct (fs_tx_sent fs <=? fs_tx_next_pos fs); fs_cbn;
    destruct (fs_cnt_tx_drops fs =? 0); reflexivity.
Qed.

Lemma rx_ack_static fs p n fs' b r : rx_ack fs p n = (fs', b, r) -> tx_static fs' = tx_static fs.
Proof.
  unfold rx_ack. destruct (tcp_flag p TCP_ACK); [|intros [= <- _ _]; reflexivity].
  destruct (tcp_valid_rxack fs _) as [k|]; [|intros [= <- _ _]; reflexivity].
  pose proof (rx_ack_advance_static fs k) as V. revert V. generalize (rx_ack_advance fs k). intros f V.
  destruct (negb (k =? 0)); [intros [= <- _ _]; exact V|].
  destruct (n =? 0); [|intros [= <- _ _]; exact V].
  destruct (3 <=? _); intros [= <- _ _]; [|exact V].
  rewrite flow_reset_retransmit_static. exact V.
Qed.

Lemma rx_ooo_static fs m seq n src off fs' m' :
  rx_ooo fs m seq n src off = Ok (fs', m') -> static fs' = static fs.
Proof.
  unfold rx_ooo. intros E.
  repeat match type of E with (if ?c then _ else _) = _ => destruct c end;
    try (injection E as <- _; reflexivity);
    apply obind_ok in E as (m1 & _ & E); injection E as <- _; reflexivity.
Qed.

Lemma rx_rtt_static fs p tso ts : static (rx_rtt fs p tso ts) = static fs.
Proof.
  unfold rx_rtt. fs_cbn. destruct (tcp_flag p TCP_ACK && _); [destruct (negb (fs_rtt_est fs =? 0))|]; reflexivity.
Qed.

Lemma rx_advance_static fs n fs' : rx_advance fs n = Ok fs' -> static fs' = static fs.
Proof.
  unfold rx_advance. fs_cbn. intros E. apply obind_ok in E as ([] & _ & E). injection E as <-.
  destruct (fs_rx_len fs <=? _); reflexivity.
Qed.

Lemma rx_ooo_merge_static fs fs' k : rx_ooo_merge fs = Ok (fs', k) -> static fs' = static fs.
Proof.
  unfold rx_ooo_merge. destruct (fs_rx_ooo_len fs =? 0); [intros [= <- _]; reflexivity|].
  destruct (tcp_trim_rxbuf _ _ _) as [[trs tre]|]; [|intros [= <- _]; reflexivity].
  intros E. run_if E; [|injection E as <- _; reflexivity].
  apply obind_ok in E as (f & E1 & E). injection E as <- _. apply rx_advance_static in E1.
  transitivity (static f); [reflexivity | exact E1].
Qed.

Lemma rx_data_static fs m n src off fs' m' k :
  rx_data fs m n src off = Ok (fs', m', k) -> static fs' = static fs.
Proof.
  unfold rx_data. destruct (0 <? n); [|intros [= <- _ _]; reflexivity].
  intros E. apply obind_ok in E as (m1 & _ & E). apply obind_ok in E as (f & E1 & E).
  apply obind_ok in E as ([f2 k2] & E2 & E). injection E as <- _ _.
  rewrite (rx_ooo_merge_static _ _ _ E2). exact (rx_advance_static _ _ _ E1).
Qed.

Lemma rx_process_static `{Platform} w fs p tso ts fs' m p' rb tb ack :
  fs_objconn fs = false ->
  rx_process w fs p tso ts = Ok (rx_unlock fs' m p' rb tb ack) -> static fs' = static fs.
Proof.
  intros Ho. unfold rx_process. destruct (has_flag _ _); [discriminate|]. destruct (weird_flags p); [discriminate|].
  destruct (rx_cc_stats_views fs p) as (V0 & _ & _). pose proof (rx_cc_stats_static fs p) as S0.
  destruct (rx_ack (rx_cc_stats fs p) p (rx_payload_bytes p)) as [[fs1 b] r] eqn:EA.
  pose proof (rx_ack_view _ _ _ _ _ _ EA) as V1. pose proof (rx_ack_static _ _ _ _ _ _ EA) as S1.
  assert (St1 : static fs1 = static fs).
  { rewrite S0 in S1. injection S1 as A B C. apply static_view; congruence. }
  destruct r; [intros [= <- _ _ _ _ _]; exact St1|].
  destruct (tcp_trim_rxbuf _ _ _) as [[trs tre]|]; [|intros [= <- _ _ _ _ _]; exact St1].
  intros E. run_if E.
  - apply obind_ok in E as ([f m1] & E1 & E). injection E as <- _ _ _ _ _.
    rewrite (rx_ooo_static _ _ _ _ _ _ _ _ E1). exact St1.
  - pose proof (rx_rtt_static fs1 p tso ts) as S2. set (fs2 := rx_rtt fs1 p tso ts) in *.
    assert (O2 : fs_objconn fs2 = false).
    { rewrite <- Ho. rewrite St1 in S2. exact (f_equal snd S2). }
    unfold rx_object in E. rewrite O2 in E. cbn [obind negb] in E.
    apply obind_ok in E as ([[f m1] k] & E1 & E). injection E as <- _ _ _ _ _.
    rewrite (rx_data_static _ _ _ _ _ _ _ _ E1), S2. exact St1.
Qed.

(** ** Frames *)

(** [w'] differs from [w] at most in the queue manager, the transmit buffer,
    the kernel's queues and the wake-ups. *)
Definition quiet (w w' : fp) : Prop :=
  fp_flowst w' = fp_flowst w /\ fp_mem w' = fp_mem w /\ fp_appctx w' = fp_appctx w.

Lemma quiet_refl w : quiet w w.
Proof. repeat split. Qed.
Lemma quiet_trans w1 w2 w3 : quiet w1 w2 -> quiet w2 w3 -> quiet w1 w3.
Proof. intros (?&?&?) (?&?&?). repeat split; congruence. Qed.
#[export] Hint Resolve quiet_refl : frames.

Section Quiet.
Context `{Platform} {nbh : Z}.

Lemma fp_qman_set_quiet w q r a m f w' : fp_qman_set w q r a m f = Ok w' -> quiet w w'.
Proof.
  unfold fp_qman_set. intros E. apply obind_ok in E as ([ret t] & _ & E).
  destruct (ret =? 0); [|discriminate]. injection E as <-. repeat split.
Qed.

Lemma flow_tx_segment_quiet w fs seq ack wnd n pos te tm w' :
  flow_tx_segment w nbh fs seq ack wnd n pos te tm = Ok w' -> quiet w w'.
Proof.
  unfold flow_tx_segment. intros E. apply obind_ok in E as (d & _ & E).
  apply tx_send_frame in E as [-> _]. repeat split.
Qed.

Lemma flow_tx_ack_quiet w seq ack wnd et my off p tso w' p' :
  flow_tx_ack w nbh seq ack wnd et my off p tso = Ok (w', p') -> quiet w w'.
Proof.
  unfold flow_tx_ack. intros E. apply obind_ok in E as (w1 & E1 & E).
  apply tx_send_frame in E1 as [-> _]. injection E as <- _. repeat split.
Qed.

(** A notification writes into the queue of its context only, and moves that
    queue's head. *)
Lemma fast_actx_rxq_add_effect w db arx b w' :
  queue_ok (fp_appctx w !!! db) -> fast_actx_rxq_add w db arx = Ok (b, w') ->
  fp_flowst w' = fp_flowst w /\
  mem_same_outside (fp_mem w) (fp_mem w') (ac_rx_base (fp_appctx w !!! db)) (ac_rx_len (fp_appctx w !!! db)) /\
  queue_ok (fp_appctx w' !!! db) /\
  ac_rx_base (fp_appctx w' !!! db) = ac_rx_base (fp_appctx w !!! db) /\
  ac_rx_len (fp_appctx w' !!! db) = ac_rx_len (fp_appctx w !!! db).
Proof.
  intros [Hb HL [Hd1 Hd2] Hh Hm]. unfold fast_actx_rxq_add. cbv zeta.
  set (a := fp_appctx w !!! db) in *. unfold FLEXNIC_DMA_MEM_SIZE in Hm.
  assert (Hfit : ac_rx_head a + 64 <= ac_rx_len a).
  { destruct Hd1 as [q Hq], Hd2 as [k Hk]. assert (k + 1 <= q) by nia. lia. }
  unfold dma_pointer. rewrite (u64_small (ac_rx_base a + _)) by lia.
  destruct (dma_valid _ _); [|discriminate].
  destruct (negb _); [intros [= _ <-]; fold a; split_and!; auto; [intros x _; reflexivity | split; auto; lia]|].
  set (arx' := arx <| arx_tx_head := ac_tx_head a |>).
  pose proof (length_arx_bytes arx') as Len. revert Len. generalize (arx_bytes arx'). intros bs Len.
  destruct (util_flexnic_kick _) as [c k] eqn:EK. unfold util_flexnic_kick in EK. injection EK as <- _.
  intros [= _ <-]. cbn [fp_mem fp_appctx fp_flowst upd eta_fp]. rewrite lookup_total_insert_eq.
  split_and!; try reflexivity.
  - intros x Hx. apply mem_write_out. rewrite Len. lia.
  - split; cbn [ac_rx_base ac_rx_len ac_rx_head upd eta_appctx]; auto; unfold SZ_ARX;
      rewrite (u32_small (ac_rx_head a + 64)) by mlia;
      destruct (Z.leb_spec (ac_rx_len a) (ac_rx_head a + 64)); try (rewrite u32_small by mlia); try lia.
    + split; [exact Hd1|]. apply Z.divide_sub_r; [apply Z.divide_add_r; [exact Hd2 | exists 1; lia] | exact Hd1].
    + split; [exact Hd1|]. apply Z.divide_add_r; [exact Hd2 | exists 1; lia].
Qed.
End Quiet.

(** ** The invariant between handlers *)

Definition ctx_kept (w w' : fp) (db : Z) : Prop :=
  queue_ok (fp_appctx w' !!! db) /\
  ac_rx_base (fp_appctx w' !!! db) = ac_rx_base (fp_appctx w !!! db) /\
  ac_rx_len (fp_appctx w' !!! db) = ac_rx_len (fp_appctx w !!! db).

Lemma quiet_ctx w w' db : quiet w w' -> queue_ok (fp_appctx w !!! db) -> ctx_kept w w' db.
Proof. intros (_ & _ & E) Q. unfold ctx_kept. rewrite E. auto. Qed.

Section Conn.
Context `{Platform} (id isn irs : Z) (app peer : Z -> Z).

(** Between handlers: the lock is free, the flow's fields and buffers
    represent the connection [c], the transmit buffer holds the application's
    bytes. *)
Record flow_inv (w : fp) (c : conn) : Prop := mk_flow_inv
  { fi_lock : fs_lock (get_flow w id) = 0;
    fi_stream : fs_objconn (get_flow w id) = false;
    fi_tx : TxRep isn (get_flow w id) (c_tx c);
    fi_rx : RxRep irs peer (fp_mem w) (get_flow w id) (c_rx c);
    fi_app : tx_holds app (fp_mem w) (get_flow w id) (c_tx c);
    fi_lay : layout_ok w (get_flow w id) }.

Lemma flow_inv_move w c w' fs t s :
  flow_inv w c -> get_flow w' id = fs <| fs_lock := 0 |> -> static fs = static (get_flow w id) ->
  TxRep isn fs t -> RxRep irs peer (fp_mem w') fs s -> tx_holds app (fp_mem w') fs t ->
  ctx_kept w w' (fs_db_id (get_flow w id)) -> flow_inv w' (mk_conn t s).
Proof.
  intros [_ Ho _ _ _ [(L1 & L2 & L3) _ L4 L5 L6]] E S T R A (Q & Qb & Ql).
  set (fs0 := get_flow w id) in *. apply static_inv in S as (S1 & S2 & S3 & S4 & S5 & S6).
  split; rewrite E; cbn [c_tx c_rx].
  - reflexivity.
  - change (fs_objconn (fs <| fs_lock := 0 |>)) with (fs_objconn fs). congruence.
  - apply TxRep_lock, T.
  - eapply RxRep_view; [|exact R]. reflexivity.
  - intros i Hi. apply A, Hi.
  - unfold flow_ctx in *. split; unfold tx_region_ok, flow_ctx, rx_base in *; fs_cbn;
      rewrite ?S1, ?S2, ?S3, ?S4, ?S5, ?Qb, ?Ql; auto.
Qed.

(** A handler that wrote no memory. *)
Lemma flow_inv_quiet w c w1 fs t s :
  flow_inv w c -> quiet w w1 -> static fs = static (get_flow w id) ->
  TxRep isn fs t -> RxRep irs peer (fp_mem w) fs s -> tx_holds app (fp_mem w) fs t ->
  flow_inv (flow_unlock w1 id fs) (mk_conn t s).
Proof.
  intros I Q S T R A. pose proof Q as (_ & M & X).
  eapply (flow_inv_move w c); eauto.
  - apply get_flow_unlock.
  - cbn. rewrite M. exact R.
  - cbn. rewrite M. exact A.
  - apply (quiet_ctx w w1); [exact Q | apply (fi_lay w c I)].
Qed.

Lemma rx_finish_effect {nbh} w fs db rp oa off p tso ts rb tb ack w' p' :
  queue_ok (fp_appctx w !!! db) ->
  rx_finish w nbh fs db rp oa off p tso ts rb tb ack = Ok (w', p') ->
  fp_flowst w' = fp_flowst w /\
  mem_same_outside (fp_mem w) (fp_mem w') (ac_rx_base (fp_appctx w !!! db)) (ac_rx_len (fp_appctx w !!! db)) /\
  ctx_kept w w' db.
Proof.
  intros Q. unfold rx_finish. intros E. apply obind_ok in E as (w1 & E1 & E). apply obind_ok in E as (w2 & E2 & E).
  assert (S1 : fp_flowst w1 = fp_flowst w /\
    mem_same_outside (fp_mem w) (fp_mem w1) (ac_rx_base (fp_appctx w !!! db)) (ac_rx_len (fp_appctx w !!! db)) /\
    ctx_kept w w1 db).
  { destruct (negb (rb =? 0) || negb (tb =? 0)).
    - apply obind_ok in E1 as ([b w1'] & E1 & [= <-]).
      apply fast_actx_rxq_add_effect in E1 as (A & B & C); auto.
    - injection E1 as <-. split_and!; auto; [intros x _; reflexivity | split_and!; auto]. }
  assert (S2 : quiet w1 w2)
    by (repeat (run_if E2); try (injection E2 as <-; apply quiet_refl); eauto using fp_qman_set_quiet).
  assert (S3 : quiet w2 w').
  { destruct ack; [eauto using flow_tx_ack_quiet | injection E as <- _; apply quiet_refl]. }
  destruct S1 as (A & B & C1 & C2 & C3), (quiet_trans _ _ _ S2 S3) as (F & M & X).
  unfold ctx_kept. rewrite F, M, X. auto.
Qed.

(** ** Steps *)

(** What may happen next in state [w], which represents connection [c]: one of
    the handlers runs, or the rest of the system (other flows, the
    application, the NIC) changes what this flow does not own.  The conditions
    say what the peer and the application may do: the peer sends pieces of its
    stream, the application has written the bytes it announces and moves its
    positions forward within its buffers.  The index says whether the step
    is the arrival of a segment in the gap of [tcp_trim_rxbuf], which the receive
    handler accepts although it ends behind the window
    ([gap_segment_overruns]); no other step has the index true. *)
Inductive flow_step (c : conn) (w : fp) : bool -> fp -> Prop :=
| fe_packet nbh off len p ts r w' p' :
    segment_of irs peer (rxs_next (c_rx c)) p ->
    fast_flows_packet w nbh off len p id ts = Ok (r, w', p') ->
    flow_step c w (trim_gap (get_flow w id) (f_beui32 (tcp_seqno (p_tcp p))) (rx_payload_bytes p)) w'
| fe_send nbh queue ts r w' :
    qmant_flow w queue = id -> fast_flows_qman w nbh queue ts = Ok (r, w') -> flow_step c w false w'
| fe_rearm r w' : fast_flows_qman_fwd w id = Ok (r, w') -> flow_step c w false w'
| fe_retransmit w' : fast_flows_retransmit w id = Ok w' -> flow_step c w false w'
| fe_bump nbh bump_seq head' wend' ts r w' :
    txs_head (c_tx c) <= head' -> head' - txs_acked (c_tx c) < fs_tx_len (get_flow w id) ->
    tx_holds app (fp_mem w) (get_flow w id) (mk_tx_stream (txs_acked (c_tx c)) (txs_next (c_tx c)) head') ->
    rxs_wend (c_rx c) <= wend' < rxs_wend (c_rx c) + fs_rx_len (get_flow w id) ->
    wend' <= rxs_next (c_rx c) + fs_rx_len (get_flow w id) ->
    flast_flows_bump w nbh id bump_seq (wend' mod fs_rx_len (get_flow w id))
      (head' mod fs_tx_len (get_flow w id)) ts = Ok (r, w') -> flow_step c w false w'
| fe_other w' :
    get_flow w' id = get_flow w id -> ctx_kept w w' (fs_db_id (get_flow w id)) ->
    same_on (fp_mem w) (fp_mem w') (rx_base (get_flow w id)) (fs_rx_len (get_flow w id)) ->
    tx_holds app (fp_mem w') (get_flow w id) (c_tx c) -> flow_step c w false w'.

Definition simulated (c : conn) (w' : fp) : Prop :=
  exists c', rtc conn_step c c' /\ flow_inv w' c'.

Lemma simulated_stay c w' : flow_inv w' c -> simulated c w'.
Proof. exists c. split; [reflexivity | auto]. Qed.

Lemma tx_holds_next m fs a n n' h :
  tx_holds app m fs (mk_tx_stream a n h) -> tx_holds app m fs (mk_tx_stream a n' h).
Proof. intros A i Hi. apply A, Hi. Qed.

(** *** Kernel requests *)

Lemma sim_rearm w c r w' : flow_inv w c -> fast_flows_qman_fwd w id = Ok (r, w') -> simulated c w'.
Proof.
  intros I. destruct c as [t s]. unfold fast_flows_qman_fwd. rewrite lock_free by apply (fi_lock _ _ I).
  cbn [obind]. intros E. apply obind_ok in E as (w1 & E1 & E). injection E as _ <-.
  apply simulated_stay. apply (flow_inv_quiet w _ w1 (get_flow w id <| fs_lock := 1 |>) _ _ I).
  - eauto using fp_qman_set_quiet.
  - reflexivity.
  - apply TxRep_lock, I.
  - eapply RxRep_view; [|apply I]. reflexivity.
  - exact (fi_app _ _ I).
Qed.

Lemma sim_retransmit w c w' : flow_inv w c -> fast_flows_retransmit w id = Ok w' -> simulated c w'.
Proof.
  intros I. destruct c as [[a n h] s]. unfold fast_flows_retransmit. rewrite lock_free by apply (fi_lock _ _ I).
  cbn [obind]. set (fs := get_flow w id <| fs_lock := 1 |>).
  assert (T : TxRep isn fs (mk_tx_stream a n h)) by apply TxRep_lock, I.
  intros E. run_if E.
  - injection E as <-. apply simulated_stay. apply (flow_inv_quiet w _ w fs _ _ I (quiet_refl w)); auto;
      [eapply RxRep_view; [|apply I]; reflexivity | exact (fi_app _ _ I)].
  - apply obind_ok in E as (w1 & E1 & E). injection E as <-.
    assert (Q : quiet w w1) by (run_if E1; [eauto using fp_qman_set_quiet | injection E1 as <-; apply quiet_refl]).
    exists (mk_conn (mk_tx_stream a a h) s). split; [apply rtc_once, cs_transmit, txs_reset|].
    destruct (tx_static_inv _ _ (flow_reset_retransmit_static fs)) as (S1 & S2 & S3).
    apply (flow_inv_quiet w _ w1 (flow_reset_retransmit fs) _ _ I Q).
    + transitivity (static fs); [|reflexivity]. apply static_view; auto using flow_reset_retransmit_view.
    + eapply flow_reset_retransmit_rep, T.
    + eapply RxRep_view; [|apply I]. transitivity (rx_view fs); [apply flow_reset_retransmit_view | reflexivity].
    + intros i Hi. rewrite S1, S2. apply (fi_app _ _ I), Hi.
Qed.

(** *** Transmission *)

Lemma tx_advance_static fs k : static (tx_advance fs k) = static fs /\ rx_view (tx_advance fs k) = rx_view fs.
Proof. unfold tx_advance. fs_cbn. destruct (fs_tx_len fs <=? _); split; reflexivity. Qed.

Lemma sim_send {nbh} w c queue ts r w' :
  flow_inv w c -> qmant_flow w queue = id -> fast_flows_qman w nbh queue ts = Ok (r, w') -> simulated c w'.
Proof.
  intros I Hq. destruct c as [[a n h] s]. unfold fast_flows_qman. rewrite Hq.
  rewrite lock_free by apply (fi_lock _ _ I). cbn [obind]. set (fs := get_flow w id <| fs_lock := 1 |>).
  assert (T : TxRep isn fs (mk_tx_stream a n h)) by apply TxRep_lock, I.
  assert (R : RxRep irs peer (fp_mem w) fs s) by (eapply RxRep_view; [|apply I]; reflexivity).
  assert (Stay : forall w1, quiet w w1 -> simulated (mk_conn (mk_tx_stream a n h) s) (flow_unlock w1 id fs)).
  { intros w1 Q. apply simulated_stay.
    apply (flow_inv_quiet w _ w1 fs _ _ I Q); auto; exact (fi_app _ _ I). }
  intros E. run_if E.
  { run_if E; [|discriminate]. apply obind_ok in E as (w1 & E1 & E). apply fp_qman_set_quiet in E1.
    destruct (util_flexnic_kick _). injection E as _ <-. apply (Stay (w1 <| fp_kctx := _ |> <| fp_kicks := _ |>)).
    exact E1. }
  run_if E; [injection E as _ <-; apply Stay, quiet_refl|].
  change (fs_objconn fs) with (fs_objconn (get_flow w id)) in E. rewrite (fi_stream _ _ I) in E. cbn [obind] in E.
  set (k := MIN (tcp_txavail fs None) TCP_MSS) in *.
  assert (Hk : 0 <= k <= h - n).
  { pose proof (TxRep_txbuf_ok _ _ _ T) as Ok0.
    assert (Hh : 0 <= default (fs_tx_head fs) None < fs_tx_len fs) by apply Ok0.
    pose proof (tcp_txavail_le_unsent fs None Ok0 Hh) as B. cbn [default] in B.
    rewrite (TxRep_unsent _ _ _ T) in B. cbn in B. unfold k. rewrite MIN_spec. unfold TCP_MSS. lia. }
  apply obind_ok in E as (w1 & E1 & E). injection E as _ <-. apply flow_tx_segment_quiet in E1.
  destruct (tx_advance_static fs k) as [S V].
  exists (mk_conn (mk_tx_stream a (n + k) h) s). split; [apply rtc_once, cs_transmit, txs_send; auto|].
  apply (flow_inv_quiet w _ w1 (tx_advance fs k) _ _ I E1).
  - rewrite S. reflexivity.
  - apply tx_advance_rep; auto.
  - eapply RxRep_view; [exact V | exact R].
  - apply static_inv in S as (_ & _ & Sb & Sl & _). intros i Hi. rewrite Sb, Sl. apply (fi_app _ _ I), Hi.
Qed.

(** *** Pointer updates of the application *)

Lemma bump_rx_static fs t : static (bump_rx fs t) = static fs.
Proof. unfold bump_rx. destruct (_ <=? t); reflexivity. Qed.

(** The connection after an update. *)
Definition bumped (c : conn) (head' wend' : Z) : conn :=
  mk_conn (mk_tx_stream (txs_acked (c_tx c)) (txs_next (c_tx c)) head')
    (mk_rx_stream (rxs_next (c_rx c)) wend' (rxs_ooo (c_rx c))).

Lemma bump_effect {nbh} w c bump_seq head' wend' ts r w' :
  flow_inv w c ->
  txs_head (c_tx c) <= head' -> head' - txs_acked (c_tx c) < fs_tx_len (get_flow w id) ->
  tx_holds app (fp_mem w) (get_flow w id) (mk_tx_stream (txs_acked (c_tx c)) (txs_next (c_tx c)) head') ->
  rxs_wend (c_rx c) <= wend' < rxs_wend (c_rx c) + fs_rx_len (get_flow w id) ->
  wend' <= rxs_next (c_rx c) + fs_rx_len (get_flow w id) ->
  flast_flows_bump w nbh id bump_seq (wend' mod fs_rx_len (get_flow w id))
    (head' mod fs_tx_len (get_flow w id)) ts = Ok (r, w') ->
  flow_inv w' (if bump_stale bump_seq (fs_bump_seq (get_flow w id)) then c else bumped c head' wend') /\
  static (get_flow w' id) = static (get_flow w id) /\ fp_mem w' = fp_mem w /\ fp_appctx w' = fp_appctx w.
Proof.
  intros I Hh Hfit Happ Hw1 Hw2. destruct c as [[a n h] [next wend ooo]]. cbn [c_tx c_rx] in *. txs_cbn.
  cbn [rxs_next rxs_wend] in *. unfold flast_flows_bump. rewrite lock_free by apply (fi_lock _ _ I).
  cbn [obind]. set (fs := get_flow w id <| fs_lock := 1 |>).
  assert (T : TxRep isn fs (mk_tx_stream a n h)) by apply TxRep_lock, I.
  assert (R : RxRep irs peer (fp_mem w) fs (mk_rx_stream next wend ooo)) by (eapply RxRep_view; [|apply I]; reflexivity).
  change (fs_bump_seq fs) with (fs_bump_seq (get_flow w id)).
  destruct (bump_stale _ _).
  { intros [= _ <-]. rewrite get_flow_unlock. split; [|repeat split].
    apply (flow_inv_quiet w _ w fs _ _ I (quiet_refl w)); auto; exact (fi_app _ _ I). }
  cbv zeta. set (fs1 := fs <| fs_bump_seq := bump_seq |> <| fs_tx_head := head' mod fs_tx_len (get_flow w id) |>).
  assert (T1 : TxRep isn fs1 (mk_tx_stream a n head')).
  { eapply TxRep_view; [| |eapply (tx_append_rep isn fs a n h head'); eauto]; [reflexivity | apply T]. }
  assert (R1 : RxRep irs peer (fp_mem w) fs1 (mk_rx_stream next wend ooo))
    by (eapply RxRep_view; [|exact R]; reflexivity).
  destruct (bump_rx_rep irs peer (fp_mem w) fs1 next wend ooo wend' R1 Hw1 Hw2) as (R2 & V2 & A2 & _).
  change (wend' mod fs_rx_len fs1) with (wend' mod fs_rx_len (get_flow w id)) in R2, V2, A2.
  pose proof (bump_rx_static fs1 (wend' mod fs_rx_len (get_flow w id))) as S2.
  set (fs2 := bump_rx fs1 (wend' mod fs_rx_len (get_flow w id))) in *.
  assert (Fin : forall w1, quiet w w1 ->
    flow_inv (flow_unlock w1 id fs2) (bumped (mk_conn (mk_tx_stream a n h) (mk_rx_stream next wend ooo)) head' wend') /\
    static (get_flow (flow_unlock w1 id fs2) id) = static (get_flow w id) /\
    fp_mem (flow_unlock w1 id fs2) = fp_mem w /\ fp_appctx (flow_unlock w1 id fs2) = fp_appctx w).
  { intros w1 Q. rewrite get_flow_unlock. split; [|split; [exact S2 | split; apply Q]].
    apply (flow_inv_quiet w _ w1 fs2 _ _ I Q); [rewrite S2; reflexivity | | exact R2 |].
    - eapply TxRep_view; [exact V2 | rewrite A2; apply T | exact T1].
    - apply static_inv in S2 as (_ & _ & Sb & Sl & _). intros i Hi. rewrite Sb, Sl. apply Happ, Hi. }
  intros E. apply obind_ok in E as (w1 & E1 & E).
  assert (Q : quiet w w1)
    by (repeat (run_if E1); try (injection E1 as <-; apply quiet_refl); eauto using fp_qman_set_quiet).
  run_if E; [|injection E as _ <-; apply Fin, Q].
  apply obind_ok in E as (w2 & E2 & E). injection E as _ <-. apply Fin.
  eapply quiet_trans; [exact Q | eauto using flow_tx_segment_quiet].
Qed.

Lemma sim_bump {nbh} w c bump_seq head' wend' ts r w' :
  flow_inv w c ->
  txs_head (c_tx c) <= head' -> head' - txs_acked (c_tx c) < fs_tx_len (get_flow w id) ->
  tx_holds app (fp_mem w) (get_flow w id) (mk_tx_stream (txs_acked (c_tx c)) (txs_next (c_tx c)) head') ->
  rxs_wend (c_rx c) <= wend' < rxs_wend (c_rx c) + fs_rx_len (get_flow w id) ->
  wend' <= rxs_next (c_rx c) + fs_rx_len (get_flow w id) ->
  flast_flows_bump w nbh id bump_seq (wend' mod fs_rx_len (get_flow w id))
    (head' mod fs_tx_len (get_flow w id)) ts = Ok (r, w') -> simulated c w'.
Proof.
  intros I Hh Hfit Happ Hw1 Hw2 E. destruct (bump_effect w c bump_seq head' wend' ts r w' I Hh Hfit Happ Hw1 Hw2 E) as [B _].
  destruct (bump_stale _ _); [apply simulated_stay, B|]. exists (bumped c head' wend'). split; [|exact B].
  destruct c as [[a n h] [next wend ooo]]. cbn in *.
  eapply rtc_l; [apply cs_transmit, txs_append; exact Hh|]. apply rtc_once, cs_open. lia.
Qed.

(** *** Reception *)

(** The slow-path flag lies below the buffer's address. *)
Lemma slowpath_flag_static fs :
  let fs' := fs <| fs_rx_base_sp := Z.lor (fs_rx_base_sp fs) FLEXNIC_PL_FLOWST_SLOWPATH |> in
  static fs' = static fs.
Proof.
  intros fs'. subst fs'. unfold static, rx_base, fs_objconn, has_flag. fs_cbn.
  rewrite !Z.land_lor_distr_l. change (Z.land FLEXNIC_PL_FLOWST_SLOWPATH FLEXNIC_PL_FLOWST_RX_MASK) with 0.
  change (Z.land FLEXNIC_PL_FLOWST_SLOWPATH FLEXNIC_PL_FLOWST_OBJCONN) with 0. rewrite !Z.lor_0_r. reflexivity.
Qed.

(** [RxRep] depends on the address of the buffer, not on the flags stored with
    it. *)
Lemma RxRep_base m fs b s :
  Z.land b FLEXNIC_PL_FLOWST_RX_MASK = rx_base fs ->
  RxRep irs peer m fs s -> RxRep irs peer m (fs <| fs_rx_base_sp := b |>) s.
Proof.
  intros E [[] O]. assert (B : rx_base (fs <| fs_rx_base_sp := b |>) = rx_base fs) by exact E.
  split; [split; unfold rx_region_ok in *; rewrite ?B; auto|].
  unfold RxOoo in *. rewrite B. destruct (rxs_ooo s) as [[o l]|]; exact O.
Qed.

(** The state after [rx_process], stored back with the notification written. *)
Lemma sim_delivered w c fs0 fs m rb tb w1 :
  flow_inv w c -> static fs0 = static (get_flow w id) ->
  delivered irs isn peer fs0 (fp_mem w) (c_rx c) (c_tx c) fs m rb tb -> static fs = static fs0 ->
  fp_flowst w1 = fp_flowst w ->
  mem_same_outside m (fp_mem w1) (ac_rx_base (flow_ctx w (get_flow w id))) (ac_rx_len (flow_ctx w (get_flow w id))) ->
  ctx_kept w w1 (fs_db_id (get_flow w id)) -> simulated c (flow_unlock w1 id fs).
Proof.
  intros I S0 ((ooo & R) & Hrb & (t' & St & T & Ea & Eh) & M0) S F M1 K.
  destruct c as [t [next wend o]]. cbn [c_tx c_rx rxs_next rxs_wend] in *.
  destruct I as [Il Io It Ir Ia [(L1 & L2 & L3) Q X1 X2 X3]] eqn:EI. clear EI.
  pose proof S as S'. rewrite S0 in S'. pose proof S0 as S00. apply static_inv in S' as (Sb & Sl & Stb & Stl & Sd & _).
  apply static_inv in S0 as (Sb0 & Sl0 & _).
  rewrite Sb0, Sl0 in M0.
  pose proof (rxc_order _ _ _ _ _ _ (proj1 R)) as Ord. cbn in Ord.
  pose proof (tx_steps_mono _ _ St) as [Hmono _].
  assert (Hm : same_on m (fp_mem w1) (rx_base fs) (fs_rx_len fs)).
  { rewrite Sb, Sl. eapply same_on_apart; [exact M1|]. destruct X2; [right | left]; auto. }
  assert (Ht : same_on (fp_mem w) (fp_mem w1) (fs_tx_base (get_flow w id)) (fs_tx_len (get_flow w id))).
  { intros x Hx. transitivity (mem_byte m x).
    - eapply same_on_apart; [exact M1 | | exact Hx]. destruct X3; [right | left]; auto.
    - eapply same_on_apart; [exact M0 | exact X1 | exact Hx]. }
  exists (mk_conn t' (mk_rx_stream (next + rb) wend ooo)). split.
  - transitivity (mk_conn t' (mk_rx_stream next wend o)); [apply conn_transmits, St|].
    apply rtc_once, cs_deliver. lia.
  - apply (flow_inv_move w (mk_conn t (mk_rx_stream next wend o)) _ fs); auto.
    + apply get_flow_unlock.
    + rewrite S. exact S00.
    + eapply RxRep_mem; [exact Hm | exact R].
    + eapply tx_holds_mem; eauto; lia.
Qed.

Lemma sim_packet {nbh} w c off len p ts r w' p' :
  flow_inv w c -> segment_of irs peer (rxs_next (c_rx c)) p ->
  trim_gap (get_flow w id) (f_beui32 (tcp_seqno (p_tcp p))) (rx_payload_bytes p) = false ->
  fast_flows_packet w nbh off len p id ts = Ok (r, w', p') -> simulated c w'.
Proof.
  intros I Hseg Hgap. unfold fast_flows_packet.
  destruct (negb (rx_valid p len)); [intros [= _ <- _]; apply simulated_stay, I|].
  intros E. apply obind_ok in E as (o & _ & E).
  destruct o as [[tso|]|]; [|injection E as _ <- _; apply simulated_stay, I..].
  cbv zeta in E. apply obind_ok in E as ([] & _ & E). rewrite lock_free in E by apply (fi_lock _ _ I).
  cbn [obind] in E. set (fs := get_flow w id <| fs_lock := 1 |>) in *.
  assert (T : TxRep isn fs (c_tx c)) by apply TxRep_lock, I.
  assert (R : RxRep irs peer (fp_mem w) fs (c_rx c)) by (eapply RxRep_view; [|apply I]; reflexivity).
  apply obind_ok in E as (st & E1 & E).
  pose proof (rx_process_rep irs isn peer w fs p tso ts (c_rx c) (c_tx c) R T (fi_stream _ _ I) Hseg Hgap) as D.
  rewrite E1 in D. destruct st as [sp f q|f m q rb tb ack].
  - destruct D as [-> ->]. injection E as _ <- _. destruct c as [t s]. apply simulated_stay.
    pose proof (slowpath_flag_static fs) as SF. cbv zeta in SF.
    destruct sp; [apply (flow_inv_quiet w _ w fs _ _ I (quiet_refl w)); auto; exact (fi_app _ _ I)|].
    apply (flow_inv_quiet w _ w _ _ _ I (quiet_refl w)); [transitivity (static fs); [exact SF | reflexivity] | | | exact (fi_app _ _ I)].
    + eapply (TxRep_view _ fs); [reflexivity | apply T | exact T].
    + apply RxRep_base; [|exact R]. apply static_inv in SF as (B & _). exact B.
  - destruct D as (D & _ & _). apply obind_ok in E as ([w1 p1] & E2 & E). injection E as _ <- _.
    apply rx_finish_effect in E2 as (F & M & K); [|apply (fi_lay _ _ I)].
    apply (sim_delivered w c fs f m rb tb w1 I); auto.
    exact (rx_process_static w fs p tso ts f m q rb tb ack (fi_stream _ _ I) E1).
Qed.

(** What happens outside of the flow's state and buffers. *)
Lemma flow_inv_env w c w' :
  flow_inv w c -> get_flow w' id = get_flow w id -> ctx_kept w w' (fs_db_id (get_flow w id)) ->
  same_on (fp_mem w) (fp_mem w') (rx_base (get_flow w id)) (fs_rx_len (get_flow w id)) ->
  tx_holds app (fp_mem w') (get_flow w id) (c_tx c) -> flow_inv w' c.
Proof.
  intros [Il Io It Ir Ia [L1 L2 L3 L4 L5]] E (Kq & Kb & Kl) M T.
  split; rewrite ?E; auto; [eapply RxRep_mem; eauto|].
  split; unfold flow_ctx in *; rewrite ?E, ?Kb, ?Kl; auto.
Qed.

(** C1.  A handler of the fast path, run on a state that represents a
    byte-stream connection, leaves a state that represents the connection, which moved
    only the way TCP allows: bytes of the application's stream were sent,
    acknowledged or scheduled to be sent again, the peer's bytes were
    delivered in order, or the receive window was extended.  The same holds
    for anything the rest of the system does to memory this flow does not
    own.  Two cases are outside of this: object connections ([flow_inv] is about
    flows without the flag), and the steps with the index true, the arrival
    of a segment that crosses sequence number 0 and starts behind the first byte
    of a window that does not cross it.  For those the code breaks the
    representation, which [gap_segment_overruns] proves. *)
Theorem flow_step_simulates w c w' :
  flow_inv w c -> flow_step c w false w' -> exists c', rtc conn_step c c' /\ flow_inv w' c'.
Proof.
  intros I St. change (simulated c w'). remember false as gap eqn:Hgap. destruct St;
    eauto using sim_packet, sim_send, sim_rearm, sim_retransmit, sim_bump.
  eauto using simulated_stay, flow_inv_env.
Qed.

(** C2.  A flow as the kernel registers it is a state the handlers can start
    from: it represents the connection that has neither sent nor received
    anything and whose whole receive buffer is open, provided its buffers and
    its application's queue do not overlap. *)
Theorem flow_init_starts w fs q qid :
  params_ok q -> fs_rx_ooo_len fs = 0 -> get_flow w id = flow_init fs q qid ->
  flag_set (pm_flags q) NICIF_CONN_OBJCONN = false -> isn = pm_local_seq q -> irs = pm_remote_seq q ->
  layout_ok w (get_flow w id) ->
  flow_inv w (mk_conn (mk_tx_stream 0 0 0) (mk_rx_stream 0 (pm_rx_len q) None)).
Proof.
  intros Hq Ho E Hf Hi Hr L.
  destruct (flow_init_rep q qid fs peer (fp_mem w) Hq Ho) as [T R]. rewrite <- Hi in T. rewrite <- Hr in R.
  split; rewrite ?E; auto.
  - unfold fs_objconn. change (fs_rx_base_sp (flow_init fs q qid)) with (flow_rx_base_sp q).
    destruct Hq as [(Hb & HL & Hm & Ha) _ _]. unfold flow_rx_base_sp. rewrite Hf.
    assert (B : Z.land (pm_rx_base q) FLEXNIC_PL_FLOWST_OBJCONN = 0).
    { change FLEXNIC_PL_FLOWST_OBJCONN with (Z.land (Z.ones 4) FLEXNIC_PL_FLOWST_OBJCONN).
      rewrite Z.land_assoc, Z.land_ones by lia. change (2 ^ 4) with 16. rewrite Ha. reflexivity. }
    unfold has_flag. destruct (flag_set (pm_flags q) NICIF_CONN_ECN); rewrite ?Z.land_lor_distr_l, B; reflexivity.
  - intros i Hx. cbn in Hx. lia.
  - rewrite <- E. exact L.
Qed.
End Conn.
