(* ===== verification/AppConn.v ===== *)
(** The application library's connections: the structs of
    stack/include/flextcp.h and the calls of stack/conn.c.

    A pointer into the memory shared with the fast path is its offset from
    [flexnic_mem].  Structs are in finite maps indexed by their address.  An
    object connection embeds a connection: [oconn_c] is its address. *)
From stdpp Require Import base numbers list gmap.
From Stdlib Require Import ZArith Lia.
From S2P Require Import Prelude Packet Dma Circ FastPath FastRx KernelState Appif.

Definition FLEXTCP_LISTEN_REUSEPORT : Z := 1.
Definition FLEXTCP_LISTEN_OBJNOHASH : Z := 2.
Definition FLEXTCP_CONNECT_OBJNOHASH : Z := 1.
Definition FLEXTCP_PL_ARX_INVALID : Z := 0.
Definition FLEXTCP_PL_ARX_DUMMY : Z := 3.
Definition OBJ_FLAG_DONE : Z := 1.
Definition SZ_ATX : Z := 64.

(** ** Tagged pointers to connections *)

Definition OPAQUE_OBJ : Z := 1.
Definition OPAQUE_ISOBJ (x : Z) : bool := negb (Z.land x OPAQUE_OBJ =? 0).
Definition OPAQUE_PTR (x : Z) : Z := Z.ldiff x OPAQUE_OBJ.
Definition OPAQUE (x : Z) (o : bool) : Z := Z.lor x (if o then OPAQUE_OBJ else 0).

(** ** Structs *)

Inductive conn_state := CONN_CLOSED | CONN_OPEN_REQUESTED | CONN_ACCEPT_REQUESTED | CONN_OPEN.
#[export] Instance conn_state_eq_dec : EqDecision conn_state.
Proof. solve_decision. Defined.

Record flextcp_connection := mk_fconn
  { fc_rxb_base : Z; fc_rxb_len : Z; fc_rxb_head : Z; fc_rxb_tail : Z; fc_rxb_nictail : Z;
    fc_txb_base : Z; fc_txb_len : Z; fc_txb_head : Z; fc_txb_head_alloc : Z; fc_txb_tail : Z;
    fc_txb_nichead : Z;
    fc_local_ip : Z; fc_remote_ip : Z; fc_local_port : Z; fc_remote_port : Z;
    fc_seq_rx : Z; fc_seq_tx : Z; fc_flow_id : Z; fc_bump_seq : Z;
    fc_bump_next : option Z; fc_bump_prev : option Z; fc_fn_core : Z; fc_bump_pending : Z;
    fc_status : conn_state }.
#[export] Instance eta_fconn : Eta flextcp_connection := fun c => mk_fconn
  (fc_rxb_base c) (fc_rxb_len c) (fc_rxb_head c) (fc_rxb_tail c) (fc_rxb_nictail c)
  (fc_txb_base c) (fc_txb_len c) (fc_txb_head c) (fc_txb_head_alloc c) (fc_txb_tail c)
  (fc_txb_nichead c) (fc_local_ip c) (fc_remote_ip c) (fc_local_port c) (fc_remote_port c)
  (fc_seq_rx c) (fc_seq_tx c) (fc_flow_id c) (fc_bump_seq c) (fc_bump_next c) (fc_bump_prev c)
  (fc_fn_core c) (fc_bump_pending c) (fc_status c).
#[export] Instance fconn_inhabited : Inhabited flextcp_connection :=
  populate (mk_fconn 0 0 0 0 0 0 0 0 0 0 0 0 0 0 0 0 0 0 0 None None 0 0 CONN_CLOSED).

Record flextcp_obj_conn_ctx := mk_fcc { cc_obj_pos : Z; cc_obj_len_rem : Z }.
#[export] Instance eta_fcc : Eta flextcp_obj_conn_ctx := fun c => mk_fcc (cc_obj_pos c) (cc_obj_len_rem c).
#[export] Instance fcc_inhabited : Inhabited flextcp_obj_conn_ctx := populate (mk_fcc 0 0).

(** The members of [struct flextcp_obj_connection] beside the embedded
    connection. *)
Record flextcp_obj_connection := mk_oconn { oc_ctx : gmap Z flextcp_obj_conn_ctx; oc_lock : Z }.
#[export] Instance eta_oconn : Eta flextcp_obj_connection := fun o => mk_oconn (oc_ctx o) (oc_lock o).
#[export] Instance oconn_inhabited : Inhabited flextcp_obj_connection := populate (mk_oconn ∅ 0).

Record flextcp_listener := mk_flistener { fl_local_port : Z; fl_status : Z }.
#[export] Instance flistener_inhabited : Inhabited flextcp_listener := populate (mk_flistener 0 0).

Record ctx_queue := mk_ctx_queue { cq_txq_base : Z; cq_rxq_base : Z; cq_rxq_head : Z; cq_txq_tail : Z }.
#[export] Instance eta_ctx_queue : Eta ctx_queue := fun q =>
  mk_ctx_queue (cq_txq_base q) (cq_rxq_base q) (cq_rxq_head q) (cq_txq_tail q).
#[export] Instance ctx_queue_inhabited : Inhabited ctx_queue := populate (mk_ctx_queue 0 0 0 0).

(** [struct flextcp_context]; [cx_kin] and [cx_kout] are the entries of the two
    queues shared with the kernel ([ax_kin], [ax_kout] of KernelState). *)
Record flextcp_context := mk_fctx
  { cx_kin : gmap Z kernel_appout; cx_kin_len : Z; cx_kin_head : Z;
    cx_kout : gmap Z kernel_appin; cx_kout_len : Z; cx_kout_head : Z;
    cx_rxq_len : Z; cx_txq_len : Z; cx_queues : gmap Z ctx_queue;
    cx_bump_pending_first : option Z; cx_bump_pending_last : option Z;
    cx_db_id : Z; cx_ctx_id : Z; cx_num_queues : Z; cx_next_queue : Z }.
#[export] Instance eta_fctx : Eta flextcp_context := fun x => mk_fctx
  (cx_kin x) (cx_kin_len x) (cx_kin_head x) (cx_kout x) (cx_kout_len x) (cx_kout_head x)
  (cx_rxq_len x) (cx_txq_len x) (cx_queues x) (cx_bump_pending_first x) (cx_bump_pending_last x)
  (cx_db_id x) (cx_ctx_id x) (cx_num_queues x) (cx_next_queue x).
#[export] Instance fctx_inhabited : Inhabited flextcp_context :=
  populate (mk_fctx ∅ 0 0 ∅ 0 0 0 0 ∅ None None 0 0 0 0).

(** The library in one process: shared memory, the structs, the time stamps
    and event descriptors of the wake-ups, and the descriptors written to. *)
Record lib := mk_lib
  { l_mem : mem; l_conns : gmap Z flextcp_connection; l_oconns : gmap Z flextcp_obj_connection;
    l_listeners : gmap Z flextcp_listener; l_ctxs : gmap Z flextcp_context;
    l_kernel_ts : Z; l_kernel_evfd : Z; l_nic_ts : gmap Z Z; l_nic_evfd : gmap Z Z; l_kicks : list Z }.
#[export] Instance eta_lib : Eta lib := fun s => mk_lib
  (l_mem s) (l_conns s) (l_oconns s) (l_listeners s) (l_ctxs s) (l_kernel_ts s) (l_kernel_evfd s)
  (l_nic_ts s) (l_nic_evfd s) (l_kicks s).

Definition fconn (s : lib) (c : Z) : flextcp_connection := l_conns s !!! c.
Definition put_fconn (s : lib) (c : Z) (x : flextcp_connection) : lib :=
  s <| l_conns := <[c := x]> (l_conns s) |>.
Definition fctx (s : lib) (x : Z) : flextcp_context := l_ctxs s !!! x.
Definition put_fctx (s : lib) (x : Z) (c : flextcp_context) : lib :=
  s <| l_ctxs := <[x := c]> (l_ctxs s) |>.
Definition foconn (s : lib) (o : Z) : flextcp_obj_connection := l_oconns s !!! o.
Definition put_foconn (s : lib) (o : Z) (x : flextcp_obj_connection) : lib :=
  s <| l_oconns := <[o := x]> (l_oconns s) |>.

(** [&oconn->c]: the contexts come first, 8 bytes each. *)
Definition FLEXTCP_MAX_CONTEXTS : Z := 32.
Definition oconn_c (o : Z) : Z := o + 8 * FLEXTCP_MAX_CONTEXTS.

Definition oconn_lock (s : lib) (o : Z) : outcome lib :=
  if oc_lock (foconn s o) =? 1 then Spin else Ok (put_foconn s o (foconn s o <| oc_lock := 1 |>)).
Definition oconn_unlock (s : lib) (o : Z) : lib := put_foconn s o (foconn s o <| oc_lock := 0 |>).

(** ** Fill levels of the buffers *)

Definition conn_rx_recvdbytes (c : flextcp_connection) : Z :=
  if fc_rxb_tail c <=? fc_rxb_head c then u32 (fc_rxb_head c - fc_rxb_tail c)
  else u32 (u32 (fc_rxb_len c - fc_rxb_tail c) + fc_rxb_head c).

Definition conn_tx_allocbytes (c : flextcp_connection) : Z :=
  if fc_txb_tail c <=? fc_txb_head_alloc c
  then u32 (fc_txb_len c - fc_txb_head_alloc c + fc_txb_tail c - 1)
  else u32 (fc_txb_tail c - fc_txb_head_alloc c - 1).

Definition conn_tx_sendbytes (c : flextcp_connection) : Z :=
  if fc_txb_head c <=? fc_txb_head_alloc c then u32 (fc_txb_head_alloc c - fc_txb_head c)
  else u32 (u32 (fc_txb_len c - fc_txb_head c) + fc_txb_head_alloc c).

Definition flextcp_conn_txbuf_available (c : flextcp_connection) : Z := conn_tx_allocbytes c.

Definition connection_init (c : flextcp_connection) : flextcp_connection :=
  c <| fc_rxb_head := 0 |> <| fc_rxb_tail := 0 |> <| fc_rxb_nictail := 0 |> <| fc_txb_head := 0 |>
    <| fc_txb_head_alloc := 0 |> <| fc_txb_tail := 0 |> <| fc_txb_nichead := 0 |> <| fc_bump_seq := 0 |>
    <| fc_status := CONN_CLOSED |>.

(** [memset] of the struct clears the embedded connection as well. *)
Definition oconn_init (s : lib) (o : Z) : lib :=
  put_fconn (put_foconn s o (mk_oconn ∅ 0)) (oconn_c o) (connection_init inhabitant).

(** ** The list of connections with news for the NIC *)

Definition conn_mark_bump (s : lib) (ctx c : Z) : lib :=
  if negb (fc_bump_pending (fconn s c) =? 0) then s
  else
    let c_prev := cx_bump_pending_last (fctx s ctx) in
    let s := put_fconn s c (fconn s c <| fc_bump_next := None |> <| fc_bump_prev := c_prev |>) in
    let s := match c_prev with
             | Some p => put_fconn s p (fconn s p <| fc_bump_next := Some c |>)
             | None => put_fctx s ctx (fctx s ctx <| cx_bump_pending_first := Some c |>)
             end in
    let s := put_fctx s ctx (fctx s ctx <| cx_bump_pending_last := Some c |>) in
    put_fconn s c (fconn s c <| fc_bump_pending := 1 |>).

(** ** The stream interface *)

(** The part of a call that works on the ring: the new tail. *)
Definition rx_ring_done (c : flextcp_connection) (len : Z) : flextcp_connection :=
  let c := c <| fc_rxb_tail := u32 (fc_rxb_tail c + len) |> in
  if fc_rxb_len c <=? fc_rxb_tail c
  then c <| fc_rxb_tail := u32 (fc_rxb_tail c - fc_rxb_len c) |> else c.

(** Division by a zero length raises an exception. *)
Definition flextcp_connection_rx_done (s : lib) (ctx c len : Z) : outcome (lib * Z) :=
  if conn_rx_recvdbytes (fconn s c) <? len then Ok (s, -1)
  else
    let s := put_fconn s c (rx_ring_done (fconn s c) len) in
    let x := fconn s c in
    if fc_rxb_len x =? 0 then Crash
    else if fc_rxb_len x / 4 <=? u32 (fc_rxb_head x - fc_rxb_nictail x) mod fc_rxb_len x
    then Ok (conn_mark_bump s ctx c, 0) else Ok (s, 0).

Definition tx_ring_alloc (c : flextcp_connection) (len : Z) : flextcp_connection :=
  let c := c <| fc_txb_head_alloc := u32 (fc_txb_head_alloc c + len) |> in
  if fc_txb_len c <=? fc_txb_head_alloc c
  then c <| fc_txb_head_alloc := u32 (fc_txb_head_alloc c - fc_txb_len c) |> else c.

(** The connection, the length and the buffer allocated. *)
Definition flextcp_connection_tx_alloc (c : flextcp_connection) (len : Z) : flextcp_connection * Z * Z :=
  let avail := conn_tx_allocbytes c in
  let len := if avail <? len then avail else len in
  let len := if fc_txb_len c <? u64 (fc_txb_head_alloc c + len)
             then u32 (fc_txb_len c - fc_txb_head_alloc c) else len in
  (tx_ring_alloc c len, len, fc_txb_base c + fc_txb_head_alloc c).

(** The connection, the length, the two buffers and the length of the first. *)
Definition flextcp_connection_tx_alloc2 (c : flextcp_connection) (len : Z)
    : flextcp_connection * Z * Z * Z * option Z :=
  let avail := conn_tx_allocbytes c in
  let len := if avail <? len then avail else len in
  let '(len_1, buf_2) :=
    if fc_txb_len c <? u64 (fc_txb_head_alloc c + len)
    then (u32 (fc_txb_len c - fc_txb_head_alloc c), Some (fc_txb_base c)) else (len, None) in
  (tx_ring_alloc c len, len, fc_txb_base c + fc_txb_head_alloc c, len_1, buf_2).

Definition flextcp_connection_tx_send (s : lib) (ctx c len : Z) : lib * Z :=
  let x := fconn s c in
  if conn_tx_sendbytes x <? len then (s, -1)
  else
    let next_head := u32 (fc_txb_head x + len) in
    let next_head := if fc_txb_len x <=? next_head then u32 (next_head - fc_txb_len x) else next_head in
    let s := put_fconn s c (x <| fc_txb_head := next_head |>) in
    (conn_mark_bump s ctx c, 0).

Definition flextcp_connection_tx_possible : Z := 0.

(** ** Requests to the kernel *)

Section Requests.
Context `{Platform}.

Definition flextcp_kernel_kick (s : lib) : outcome lib :=
  let! s := if POLL_CYCLE <? u32 (now_us - l_kernel_ts s)
            then let! _ := assert_ (negb (l_kernel_evfd s =? 0)) in
                 Ok (s <| l_kicks := l_kicks s ++ [l_kernel_evfd s] |>)
            else Ok s in
  Ok (s <| l_kernel_ts := now_us |>).

(** Every request checks that the next entry is free ... *)
Definition kin_free (s : lib) (ctx : Z) : bool :=
  match cx_kin (fctx s ctx) !!! cx_kin_head (fctx s ctx) with KERNEL_APPOUT_INVALID => true | _ => false end.

(** ... fills it, wakes the kernel up and moves to the next one. *)
Definition kin_post (s : lib) (ctx : Z) (e : kernel_appout) : outcome lib :=
  let x := fctx s ctx in
  let pos := cx_kin_head x in
  let s := put_fctx s ctx (x <| cx_kin := <[pos := e]> (cx_kin x) |>) in
  let! s := flextcp_kernel_kick s in
  let pos := u32 (pos + 1) in
  let pos := if cx_kin_len (fctx s ctx) <=? pos then 0 else pos in
  Ok (put_fctx s ctx (fctx s ctx <| cx_kin_head := pos |>)).

Definition flextcp_connection_move (s : lib) (ctx c : Z) : outcome (lib * Z) :=
  if negb (kin_free s ctx) then Ok (s, -1)
  else
    let x := fconn s c in
    let! s := kin_post s ctx (KERNEL_APPOUT_CONN_MOVE (OPAQUE c false) (fc_remote_ip x) (fc_local_ip x)
                                (fc_remote_port x) (fc_local_port x) (cx_db_id (fctx s ctx))) in
    Ok (s, 0).

Definition listen_open (s : lib) (ctx lst port backlog flags : Z) (obj : bool) (opptr : Z)
    : outcome (lib * Z) :=
  if negb (Z.ldiff flags FLEXTCP_LISTEN_REUSEPORT =? 0) then Ok (s, -1)
  else
    let f := if Z.land flags FLEXTCP_LISTEN_REUSEPORT =? FLEXTCP_LISTEN_REUSEPORT
             then KERNEL_APPOUT_LISTEN_REUSEPORT else 0 in
    let f := if obj then
               let f := Z.lor f KERNEL_APPOUT_LISTEN_OBJSOCK in
               if Z.land flags FLEXTCP_LISTEN_OBJNOHASH =? FLEXTCP_LISTEN_OBJNOHASH
               then Z.lor f KERNEL_APPOUT_LISTEN_OBJNOHASH else f
             else f in
    if negb (kin_free s ctx) then Ok (s, -1)
    else
      let s := s <| l_listeners := <[lst := mk_flistener port 0]> (l_listeners s) |> in
      let! s := kin_post s ctx (KERNEL_APPOUT_LISTEN_OPEN (OPAQUE opptr obj) backlog port f) in
      Ok (s, 0).

Definition listen_accept (s : lib) (ctx lst c : Z) (obj : bool) (opptr_l opptr_c : Z)
    : outcome (lib * Z) :=
  if negb (kin_free s ctx) then Ok (s, -1)
  else
    let port := fl_local_port (l_listeners s !!! lst) in
    let s := put_fconn s c (fconn s c <| fc_status := CONN_ACCEPT_REQUESTED |> <| fc_local_port := port |>) in
    let! s := kin_post s ctx (KERNEL_APPOUT_ACCEPT_CONN (OPAQUE opptr_l obj) (OPAQUE opptr_c obj) port) in
    Ok (s, 0).

Definition connection_open (s : lib) (ctx c dst_ip dst_port flags : Z) (obj : bool) (opptr : Z)
    : outcome (lib * Z) :=
  if negb (kin_free s ctx) then Ok (s, -1)
  else
    let f := if obj then
               if Z.land flags FLEXTCP_CONNECT_OBJNOHASH =? FLEXTCP_CONNECT_OBJNOHASH
               then Z.lor KERNEL_APPOUT_OPEN_OBJSOCK KERNEL_APPOUT_OPEN_OBJNOHASH
               else KERNEL_APPOUT_OPEN_OBJSOCK
             else 0 in
    let s := put_fconn s c (fconn s c <| fc_status := CONN_OPEN_REQUESTED |> <| fc_remote_ip := dst_ip |>
                                      <| fc_remote_port := dst_port |>) in
    let! s := kin_post s ctx (KERNEL_APPOUT_CONN_OPEN (OPAQUE opptr obj) dst_ip f dst_port) in
    Ok (s, 0).

Definition flextcp_kernel_reqscale (s : lib) (ctx cores : Z) : outcome (lib * Z) :=
  if negb (kin_free s ctx) then Ok (s, -1)
  else let! s := kin_post s ctx (KERNEL_APPOUT_REQ_SCALE cores) in Ok (s, 0).

Definition flextcp_listen_open (s : lib) (ctx lst port backlog flags : Z) :=
  listen_open s ctx lst port backlog flags false lst.
Definition flextcp_listen_accept (s : lib) (ctx lst c : Z) :=
  listen_accept (put_fconn s c (connection_init (fconn s c))) ctx lst c false lst c.
Definition flextcp_connection_open (s : lib) (ctx c dst_ip dst_port : Z) :=
  connection_open (put_fconn s c (connection_init (fconn s c))) ctx c dst_ip dst_port 0 false c.
(** The listener is the only member of an object listener. *)
Definition flextcp_obj_listen_open (s : lib) (ctx lst port backlog flags : Z) :=
  listen_open s ctx lst port backlog flags true lst.
Definition flextcp_obj_listen_accept (s : lib) (ctx lst o : Z) :=
  listen_accept (oconn_init s o) ctx lst (oconn_c o) true lst o.
Definition flextcp_obj_connection_open (s : lib) (ctx o dst_ip dst_port flags : Z) :=
  connection_open (oconn_init s o) ctx (oconn_c o) dst_ip dst_port flags true o.
End Requests.
