(* ===== verification/AppPoll.v ===== *)
(** The application library's context: object calls of stack/conn.c, events and
    polling of stack/init.c, the queues of stack/kernel.c.

    An event array the library fills is the list of the events filled in; a
    handler that reports -1 (no room) returns [None] and fills nothing that
    counts. *)
From stdpp Require Import base numbers list gmap.
From Stdlib Require Import ZArith Lia.
From S2P Require Import Prelude Packet FlowState Dma Circ FastPath FastRx Queues KernelState Appif AppConn.

(** ** Object headers *)

Record obj_hdr := mk_obj_hdr { oh_len : beui32; oh_magic : beui16; oh_src : Z; oh_dstlen : Z }.
#[export] Instance eta_obj_hdr : Eta obj_hdr := fun h =>
  mk_obj_hdr (oh_len h) (oh_magic h) (oh_src h) (oh_dstlen h).

Definition obj_hdr_bytes (h : obj_hdr) : list Z :=
  le_bytes 4 (be32_x (oh_len h)) ++ le_bytes 2 (be16_x (oh_magic h)) ++
  le_bytes 1 (oh_src h) ++ le_bytes 1 (oh_dstlen h).
Definition bytes_obj_hdr (l : list Z) : obj_hdr :=
  let f off n := le_value (slice l off n) in
  mk_obj_hdr (mk_beui32 (f 0 4)) (mk_beui16 (f 4 2)) (f 6 1) (f 7 1).

(** Length of an object with its header, and whether its flag is set. *)
Definition obj_size (h : obj_hdr) : Z := SZ_OBJ_HDR + oh_dstlen h + f_beui32 (oh_len h).
Definition obj_done (h : obj_hdr) : bool := negb (Z.land (f_beui16 (oh_magic h)) OBJ_FLAG_DONE =? 0).

Definition obj_read (m : mem) (base len pos : Z) : obj_hdr :=
  bytes_obj_hdr (circ_read m base len pos SZ_OBJ_HDR).
Definition obj_write (m : mem) (h : obj_hdr) (base len pos : Z) : mem :=
  circ_write m (obj_hdr_bytes h) base len pos.

(** ** Object calls *)

(** The loop of [flextcp_obj_connection_rx_done]: the new tail. *)
Fixpoint obj_rx_scan (fuel : nat) (m : mem) (base len head pos : Z) (h : obj_hdr) : outcome Z :=
  match fuel with
  | O => Spin
  | S fuel =>
      let pos := u32 (circ_offset pos len (obj_size h)) in
      if pos =? head then Ok pos
      else
        let h := obj_read m base len pos in
        if obj_done h then obj_rx_scan fuel m base len head pos h else Ok pos
  end.

Definition flextcp_obj_connection_rx_done (fuel : nat) (s : lib) (o oh_pos : Z) : outcome lib :=
  let c := oconn_c o in
  let! s := oconn_lock s o in
  let x := fconn s c in
  let h := obj_read (l_mem s) (fc_rxb_base x) (fc_rxb_len x) oh_pos in
  let! s :=
    if oh_pos =? fc_rxb_tail x then
      let! pos := obj_rx_scan fuel (l_mem s) (fc_rxb_base x) (fc_rxb_len x) (fc_rxb_head x) oh_pos h in
      Ok (put_fconn s c (x <| fc_rxb_tail := pos |>))
    else
      let h := h <| oh_magic := t_beui16 OBJ_FLAG_DONE |> in
      Ok (s <| l_mem := obj_write (l_mem s) h (fc_rxb_base x) (fc_rxb_len x) oh_pos |>) in
  Ok (oconn_unlock s o).

(** [None]: no room.  Otherwise the position of the object and its buffers. *)
Definition flextcp_obj_connection_tx_alloc (s : lib) (o dstlen len : Z)
    : outcome (lib * option (Z * ((Z * Z) * option Z))) :=
  let c := oconn_c o in
  let total := u32 (SZ_OBJ_HDR + dstlen + len) in
  let! s := oconn_lock s o in
  let x := fconn s c in
  if conn_tx_allocbytes x <? total then Ok (oconn_unlock s o, None)
  else
    let h := mk_obj_hdr (t_beui32 len) (t_beui16 0) 0 dstlen in
    let s := s <| l_mem := obj_write (l_mem s) h (fc_txb_base x) (fc_txb_len x) (fc_txb_head_alloc x) |> in
    let pos := u32 (circ_offset (fc_txb_head_alloc x) (fc_txb_len x) SZ_OBJ_HDR) in
    let bufs := circ_range (fc_txb_base x) (fc_txb_len x) pos (u64 (dstlen + len)) in
    let s := put_fconn s c (x <| fc_txb_head_alloc := u32 (circ_offset (fc_txb_head_alloc x) (fc_txb_len x) total) |>) in
    Ok (oconn_unlock s o, Some (fc_txb_head_alloc x, bufs)).

(** The loop of [flextcp_obj_connection_tx_send]: the memory and the new head. *)
Fixpoint obj_tx_scan (fuel : nat) (m : mem) (base len head_alloc pos : Z) (h : obj_hdr)
    : outcome (mem * Z) :=
  match fuel with
  | O => Spin
  | S fuel =>
      let h := h <| oh_magic := t_beui16 OBJ_MAGIC |> in
      let m := obj_write m h base len pos in
      let pos := u32 (circ_offset pos len (obj_size h)) in
      if pos =? head_alloc then Ok (m, pos)
      else
        let h := obj_read m base len pos in
        if obj_done h then obj_tx_scan fuel m base len head_alloc pos h else Ok (m, pos)
  end.

Definition flextcp_obj_connection_tx_send (fuel : nat) (s : lib) (o oh_pos : Z) : outcome lib :=
  let c := oconn_c o in
  let! s := oconn_lock s o in
  let x := fconn s c in
  let h := obj_read (l_mem s) (fc_txb_base x) (fc_txb_len x) oh_pos in
  let! s :=
    if oh_pos =? fc_txb_head x then
      let! (m, pos) := obj_tx_scan fuel (l_mem s) (fc_txb_base x) (fc_txb_len x) (fc_txb_head_alloc x) oh_pos h in
      Ok (put_fconn (s <| l_mem := m |>) c (x <| fc_txb_head := pos |>))
    else
      let h := h <| oh_magic := t_beui16 OBJ_FLAG_DONE |> in
      Ok (s <| l_mem := obj_write (l_mem s) h (fc_txb_base x) (fc_txb_len x) oh_pos |>) in
  Ok (oconn_unlock s o).

(** ** Messages to the fast path *)

Section Poll.
Context `{Platform}.

(** [flextcp_context_tx_alloc]: the entry, if it is free. *)
Definition flextcp_context_tx_alloc (s : lib) (ctx core : Z) : option Z :=
  let q := cx_queues (fctx s ctx) !!! core in
  let atx := cq_txq_base q + cq_txq_tail q in
  if negb (mem_byte (l_mem s) (atx + 63) =? 0) then None else Some atx.

Definition flextcp_flexnic_kick (s : lib) (core : Z) : lib :=
  let s := if POLL_CYCLE <? u32 (now_us - (l_nic_ts s !!! core))
           then s <| l_kicks := l_kicks s ++ [l_nic_evfd s !!! core] |> else s in
  s <| l_nic_ts := <[core := now_us]> (l_nic_ts s) |>.

Definition flextcp_context_tx_done (s : lib) (ctx core : Z) : lib :=
  let x := fctx s ctx in
  let q := cx_queues x !!! core in
  let tail := u32 (cq_txq_tail q + SZ_ATX) in
  let tail := if cx_txq_len x <=? tail then u32 (tail - cx_txq_len x) else tail in
  flextcp_flexnic_kick
    (put_fctx s ctx (x <| cx_queues := <[core := q <| cq_txq_tail := tail |>]> (cx_queues x) |>)) core.

(** Writing an entry: four words, then the type. *)
Definition atx_connupdate (m : mem) (atx rx_tail tx_head flow_id bump_seq : Z) : mem :=
  let m := mem_write m atx (le_bytes 4 rx_tail) in
  let m := mem_write m (atx + 4) (le_bytes 4 tx_head) in
  let m := mem_write m (atx + 8) (le_bytes 4 flow_id) in
  let m := mem_write m (atx + 12) (le_bytes 4 bump_seq) in
  mem_write m (atx + 63) [FLEXTCP_PL_ATX_CONNUPDATE].

(** Telling the fast path where the application is, and counting it. *)
Definition conn_send_update (s : lib) (ctx c atx : Z) : lib :=
  let x := fconn s c in
  let s := s <| l_mem := atx_connupdate (l_mem s) atx (fc_rxb_tail x) (fc_txb_head x)
                           (fc_flow_id x) (fc_bump_seq x) |> in
  let s := put_fconn s c (x <| fc_bump_seq := u32 (fc_bump_seq x + 1) |>) in
  flextcp_context_tx_done s ctx (fc_fn_core x).

Definition flextcp_obj_connection_bump (s : lib) (ctx o : Z) : outcome (lib * Z) :=
  let c := oconn_c o in
  let! s := oconn_lock s o in
  let x := fconn s c in
  let! (s, ret) :=
    if (fc_txb_head x =? fc_txb_nichead x) && (fc_rxb_len x =? 0) then Crash
    else if (fc_txb_head x =? fc_txb_nichead x) &&
       (u32 (fc_rxb_head x - fc_rxb_nictail x) mod fc_rxb_len x <? fc_rxb_len x / 2) then Ok (s, 0)
    else match flextcp_context_tx_alloc s ctx (fc_fn_core x) with
         | None => Ok (s, -1)
         | Some atx =>
             let s := conn_send_update s ctx c atx in
             let x := fconn s c in
             Ok (put_fconn s c (x <| fc_rxb_nictail := fc_rxb_tail x |> <| fc_txb_nichead := fc_txb_head x |>), 0)
         end in
  Ok (oconn_unlock s o, ret).

(** [conns_bump]: one round of its loop; [None] when it ends. *)
Definition conns_bump_step (s : lib) (ctx : Z) : option lib :=
  match cx_bump_pending_first (fctx s ctx) with
  | None => None
  | Some c =>
      match flextcp_context_tx_alloc s ctx (fc_fn_core (fconn s c)) with
      | None => None
      | Some atx =>
          let s := conn_send_update s ctx c atx in
          let x := fconn s c in
          let s := put_fconn s c (x <| fc_rxb_nictail := fc_rxb_tail x |> <| fc_bump_pending := 0 |>) in
          let next := fc_bump_next (fconn s c) in
          let s := match next with
                   | None => put_fctx s ctx (fctx s ctx <| cx_bump_pending_last := None |>)
                   | Some _ => s
                   end in
          Some (put_fctx s ctx (fctx s ctx <| cx_bump_pending_first := next |>))
      end
  end.

Fixpoint conns_bump (fuel : nat) (s : lib) (ctx : Z) : outcome lib :=
  match fuel with
  | O => Spin
  | S fuel => match conns_bump_step s ctx with None => Ok s | Some s => conns_bump fuel s ctx end
  end.

(** ** Events *)

Inductive flextcp_event :=
| FLEXTCP_EV_LISTEN_OPEN (status listener : Z)
| FLEXTCP_EV_LISTEN_NEWCONN (remote_ip remote_port listener : Z)
| FLEXTCP_EV_LISTEN_ACCEPT (status conn : Z)
| FLEXTCP_EV_CONN_OPEN (status conn : Z)
| FLEXTCP_EV_CONN_RECEIVED (conn buf len : Z)
| FLEXTCP_EV_CONN_SENDBUF (conn : Z)
| FLEXTCP_EV_CONN_MOVED (status conn : Z)
| FLEXTCP_EV_OBJ_LISTEN_OPEN (status listener : Z)
| FLEXTCP_EV_OBJ_LISTEN_NEWCONN (remote_ip remote_port listener : Z)
| FLEXTCP_EV_OBJ_LISTEN_ACCEPT (status conn : Z)
| FLEXTCP_EV_OBJ_CONN_OPEN (status conn : Z)
| FLEXTCP_EV_OBJ_CONN_RECEIVED (conn pos dstlen buf_1 len_1 : Z) (buf_2 : option Z) (len_2 : Z)
| FLEXTCP_EV_OBJ_CONN_SENDBUF (conn : Z).

(** [outev->status] is 16 bits wide. *)
Definition s16 (x : Z) : Z := if u16 x <? 32768 then u16 x else u16 x - 65536.

(** The parameters of an opened connection; the kernel fills them in when the
    status is 0. *)
#[export] Instance conn_info_inhabited : Inhabited conn_info := populate (mk_conn_info 0 0 0 0 0 0 0 0 0).

Definition conn_set_params (x : flextcp_connection) (i : conn_info) : flextcp_connection :=
  x <| fc_local_ip := ci_local_ip i |> <| fc_seq_rx := ci_seq_rx i |> <| fc_seq_tx := ci_seq_tx i |>
    <| fc_flow_id := ci_flow_id i |> <| fc_fn_core := ci_fn_core i |> <| fc_rxb_base := ci_rx_off i |>
    <| fc_rxb_len := ci_rx_len i |> <| fc_txb_base := ci_tx_off i |> <| fc_txb_len := ci_tx_len i |>.

(** The second event: data the fast path delivered before the kernel reported
    the connection. *)
Definition inject_bump (s : lib) (c : Z) (ev : flextcp_event) : outcome (lib * option (list flextcp_event)) :=
  let x := fconn s c in
  if 0 <? fc_rxb_head x then
    let! _ := assert_ (fc_rxb_head x <? fc_rxb_len x) in
    Ok (put_fconn s c (x <| fc_seq_rx := u32 (fc_seq_rx x + fc_rxb_head x) |>),
        Some [ev; FLEXTCP_EV_CONN_RECEIVED c (fc_rxb_base x) (fc_rxb_head x)])
  else Ok (s, Some [ev]).

Definition event_conn (opaque : Z) : Z :=
  if OPAQUE_ISOBJ opaque then oconn_c (OPAQUE_PTR opaque) else OPAQUE_PTR opaque.

Definition event_kappin_conn_opened (s : lib) (opaque status : Z) (i : option (conn_info * Z)) (avail : Z)
    : outcome (lib * option (list flextcp_event)) :=
  let c := event_conn opaque in
  let ev := (if OPAQUE_ISOBJ opaque then FLEXTCP_EV_OBJ_CONN_OPEN else FLEXTCP_EV_CONN_OPEN)
              (s16 status) (OPAQUE_PTR opaque) in
  if negb (status =? 0) then Ok (put_fconn s c (fconn s c <| fc_status := CONN_CLOSED |>), Some [ev])
  else if (0 <? fc_rxb_head (fconn s c)) && (avail <? 2) then Ok (s, None)
  else
    let '(ci, local_port) := default inhabitant i in
    let x := fconn s c <| fc_status := CONN_OPEN |> <| fc_local_port := local_port |> in
    inject_bump (put_fconn s c (conn_set_params x ci)) c ev.

Definition event_kappin_accept_conn (s : lib) (opaque status : Z) (i : option (conn_info * Z * Z)) (avail : Z)
    : outcome (lib * option (list flextcp_event)) :=
  let c := event_conn opaque in
  let ev := (if OPAQUE_ISOBJ opaque then FLEXTCP_EV_OBJ_LISTEN_ACCEPT else FLEXTCP_EV_LISTEN_ACCEPT)
              (s16 status) (OPAQUE_PTR opaque) in
  if negb (status =? 0) then Ok (put_fconn s c (fconn s c <| fc_status := CONN_CLOSED |>), Some [ev])
  else if (0 <? fc_rxb_head (fconn s c)) && (avail <? 2) then Ok (s, None)
  else
    let '(ci, remote_ip, remote_port) := default inhabitant i in
    let x := fconn s c <| fc_status := CONN_OPEN |> <| fc_remote_ip := remote_ip |>
                       <| fc_remote_port := remote_port |> in
    inject_bump (put_fconn s c (conn_set_params x ci)) c ev.

Definition event_kappin_listen_newconn (opaque remote_ip remote_port : Z) : flextcp_event :=
  (if OPAQUE_ISOBJ opaque then FLEXTCP_EV_OBJ_LISTEN_NEWCONN else FLEXTCP_EV_LISTEN_NEWCONN)
    remote_ip remote_port (OPAQUE_PTR opaque).
Definition event_kappin_st_conn_move (opaque status : Z) : flextcp_event :=
  FLEXTCP_EV_CONN_MOVED (s16 status) (OPAQUE_PTR opaque).
Definition event_kappin_st_listen_open (opaque status : Z) : flextcp_event :=
  (if OPAQUE_ISOBJ opaque then FLEXTCP_EV_OBJ_LISTEN_OPEN else FLEXTCP_EV_LISTEN_OPEN)
    (s16 status) (OPAQUE_PTR opaque).

(** *** Updates of the fast path *)

Definition event_arx_connupdate (s : lib) (opaque rx_bump tx_bump outn fn_core : Z)
    : outcome (lib * option (list flextcp_event)) :=
  let c := OPAQUE_PTR opaque in
  let x := fconn s c <| fc_fn_core := fn_core |> in
  let s := put_fconn s c x in
  if negb (bool_decide (fc_status x = CONN_OPEN)) then
    let! _ := assert_ (bool_decide (fc_status x = CONN_OPEN_REQUESTED) ||
                       bool_decide (fc_status x = CONN_ACCEPT_REQUESTED)) in
    let! _ := assert_ (tx_bump =? 0) in
    Ok (put_fconn s c (x <| fc_rxb_head := u32 (fc_rxb_head x + rx_bump) |>), Some [])
  else
    let wraps := fc_rxb_len x <? u32 (fc_rxb_head x + rx_bump) in
    let rx_evs := if 0 <? rx_bump then (if wraps then 2 else 1) else 0 in
    let tx_avail_ev := (0 <? tx_bump) && (flextcp_conn_txbuf_available x =? 0) in
    let evs_needed := rx_evs + (if tx_avail_ev then 1 else 0) in
    if outn <? evs_needed then Ok (s, None)
    else
      let rx_len := u32 (fc_rxb_len x - fc_rxb_head x) in
      let evs :=
        if 0 <? rx_bump then
          if wraps
          then [FLEXTCP_EV_CONN_RECEIVED c (fc_rxb_base x + fc_rxb_head x) rx_len;
                FLEXTCP_EV_CONN_RECEIVED c (fc_rxb_base x) (u32 (rx_bump - rx_len))]
          else [FLEXTCP_EV_CONN_RECEIVED c (fc_rxb_base x + fc_rxb_head x) rx_bump]
        else [] in
      let x :=
        if 0 <? rx_bump then
          let head := u32 (fc_rxb_head x + rx_bump) in
          x <| fc_seq_rx := u32 (fc_seq_rx x + rx_bump) |>
            <| fc_rxb_head := if fc_rxb_len x <=? head then u32 (head - fc_rxb_len x) else head |>
        else x in
      let x :=
        if 0 <? tx_bump then
          let tail := u32 (fc_txb_tail x + tx_bump) in
          x <| fc_txb_tail := if fc_txb_len x <=? tail then u32 (tail - fc_txb_len x) else tail |>
        else x in
      let evs := if tx_avail_ev then evs ++ [FLEXTCP_EV_CONN_SENDBUF c] else evs in
      Ok (put_fconn s c x, Some evs).

Definition event_arx_objupdate (s : lib) (ctx opaque rx_bump rx_pos tx_bump outn : Z)
    : outcome (lib * option (list flextcp_event)) :=
  if outn <? 2 then Ok (s, None)
  else
    let o := OPAQUE_PTR opaque in
    let c := oconn_c o in
    let id := cx_ctx_id (fctx s ctx) in
    let cc := oc_ctx (foconn s o) !!! id in
    let! _ := assert_ (bool_decide (fc_status (fconn s c) = CONN_OPEN)) in
    if rx_bump =? 0 then
      if 0 <? tx_bump then
        let! s := oconn_lock s o in
        let x := fconn s c in
        let txev := flextcp_conn_txbuf_available x =? 0 in
        let s := put_fconn s c (x <| fc_txb_tail := u32 (circ_offset (fc_txb_tail x) (fc_txb_len x) tx_bump) |>) in
        Ok (oconn_unlock s o, Some (if txev then [FLEXTCP_EV_CONN_SENDBUF c] else []))
      else Ok (s, Some [])
    else
      let x := fconn s c in
      let hdr_at := obj_read (l_mem s) (fc_rxb_base x) (fc_rxb_len x) in
      let! (obj_len, obj_pos) :=
        if cc_obj_len_rem cc =? 0 then
          if rx_bump <? SZ_OBJ_HDR then Crash else Ok (u32 (obj_size (hdr_at rx_pos)), rx_pos)
        else Ok (cc_obj_len_rem cc, cc_obj_pos cc) in
      if obj_len <? rx_bump then Crash
      else
        let obj_len := u32 (obj_len - rx_bump) in
        let oh := hdr_at obj_pos in
        let data_len := u32 (oh_dstlen oh + f_beui32 (oh_len oh)) in
        let data_start := u32 (circ_offset obj_pos (fc_rxb_len x) SZ_OBJ_HDR) in
        let '((buf_1, l), buf_2) := circ_range (fc_rxb_base x) (fc_rxb_len x) data_start data_len in
        let obj_end := u32 (circ_offset obj_pos (fc_rxb_len x) (SZ_OBJ_HDR + data_len)) in
        let complete := obj_len =? 0 in
        let evs := if complete
                   then [FLEXTCP_EV_OBJ_CONN_RECEIVED o obj_pos (oh_dstlen oh) buf_1 (u32 l) buf_2 (u32 (data_len - l))]
                   else [] in
        let s := put_foconn s o (foconn s o <| oc_ctx := <[id := mk_fcc obj_pos obj_len]> (oc_ctx (foconn s o)) |>) in
        let! s := oconn_lock s o in
        let x := fconn s c in
        let x := if complete && circ_in_interval (fc_rxb_head x) (fc_rxb_tail x) (fc_rxb_len x) obj_end
                 then x <| fc_rxb_head := obj_end |> else x in
        let '(x, evs) :=
          if 0 <? tx_bump then
            let txev := flextcp_conn_txbuf_available x =? 0 in
            (x <| fc_txb_tail := u32 (circ_offset (fc_txb_tail x) (fc_txb_len x) tx_bump) |>,
             if txev then evs ++ [FLEXTCP_EV_OBJ_CONN_SENDBUF o] else evs)
          else (x, evs) in
        Ok (oconn_unlock (put_fconn s c x) o, Some evs).

(** ** Polling *)

(** The handler for an entry of the kernel's queue. *)
Definition poll_kout_entry (s : lib) (e : kernel_appin) (avail : Z) : outcome (lib * option (list flextcp_event)) :=
  match e with
  | KERNEL_APPIN_INVALID => Ok (s, Some [])
  | KERNEL_APPIN_CONN_OPENED opaque status i => event_kappin_conn_opened s opaque status i avail
  | KERNEL_APPIN_LISTEN_NEWCONN opaque remote_ip remote_port =>
      Ok (s, Some [event_kappin_listen_newconn opaque remote_ip remote_port])
  | KERNEL_APPIN_ACCEPTED_CONN opaque status i => event_kappin_accept_conn s opaque status i avail
  | KERNEL_APPIN_STATUS_LISTEN_OPEN opaque status => Ok (s, Some [event_kappin_st_listen_open opaque status])
  | KERNEL_APPIN_STATUS_CONN_MOVE opaque status => Ok (s, Some [event_kappin_st_conn_move opaque status])
  end.

(** The first loop: the events, and whether it ran out of room for them. *)
Fixpoint poll_kernel (fuel : nat) (s : lib) (ctx num pos : Z) (evs : list flextcp_event)
    : outcome (lib * Z * list flextcp_event * bool) :=
  let i := Z.of_nat (length evs) in
  if num <=? i then Ok (s, pos, evs, false)
  else
    match fuel, cx_kout (fctx s ctx) !!! pos with
    | _, KERNEL_APPIN_INVALID => Ok (s, pos, evs, false)
    | O, _ => Spin
    | S fuel, e =>
        let! (s, r) := poll_kout_entry s e (num - i) in
        match r with
        | None => Ok (s, pos, evs, true)
        | Some new =>
            let x := fctx s ctx in
            let s := put_fctx s ctx (x <| cx_kout := <[pos := KERNEL_APPIN_INVALID]> (cx_kout x) |>) in
            let pos := u32 (pos + 1) in
            let pos := if cx_kout_len x <=? pos then 0 else pos in
            poll_kernel fuel s ctx num pos (evs ++ new)
        end
    end.

(** An entry of a queue from the fast path; one of an unknown type is reported
    and skipped. *)
Definition poll_arx_entry (s : lib) (ctx : Z) (a : arx_entry) (avail core : Z)
    : outcome (lib * option (list flextcp_event)) :=
  if arx_type a =? FLEXTCP_PL_ARX_CONNUPDATE
  then event_arx_connupdate s (arx_opaque a) (arx_rx_bump a) (arx_tx_bump a) avail core
  else if arx_type a =? FLEXTCP_PL_ARX_OBJUPDATE
  then event_arx_objupdate s ctx (arx_opaque a) (arx_rx_bump a) (arx_rx_pos a) (arx_tx_bump a) avail
  else Ok (s, Some []).

(** The inner loop of the second part: the queue of one core. *)
Fixpoint poll_arx (fuel : nat) (s : lib) (ctx num core head : Z) (evs : list flextcp_event)
    : outcome (lib * Z * list flextcp_event * bool) :=
  let i := Z.of_nat (length evs) in
  if num <=? i then Ok (s, head, evs, false)
  else
    let slot := cq_rxq_base (cx_queues (fctx s ctx) !!! core) + head / SZ_ARX * SZ_ARX in
    let a := arx_at (l_mem s) slot in
    if arx_type a =? FLEXTCP_PL_ARX_INVALID then Ok (s, head, evs, false)
    else
      match fuel with
      | O => Spin
      | S fuel =>
          let! (s, r) := poll_arx_entry s ctx a (num - i) core in
          match r with
          | None => Ok (s, head, evs, true)
          | Some new =>
              let s := s <| l_mem := mem_write (l_mem s) (slot + 63) [0] |> in
              let len := cx_rxq_len (fctx s ctx) in
              let head := u32 (head + SZ_ARX) in
              let head := if len <=? head then u32 (head - len) else head in
              poll_arx fuel s ctx num core head (evs ++ new)
          end
      end.

(** The outer loop, [k] queues to go. *)
Fixpoint poll_queues (fuel k : nat) (s : lib) (ctx num : Z) (evs : list flextcp_event)
    : outcome (lib * list flextcp_event) :=
  match k with
  | O => Ok (s, evs)
  | S k =>
      if num <=? Z.of_nat (length evs) then Ok (s, evs)
      else
        let x := fctx s ctx in
        let core := cx_next_queue x in
        let! (s, head, evs, ran_out) :=
          poll_arx fuel s ctx num core (cq_rxq_head (cx_queues x !!! core)) evs in
        let x := fctx s ctx in
        let q := cx_queues x !!! core in
        let x := x <| cx_queues := <[core := q <| cq_rxq_head := head |>]> (cx_queues x) |> in
        if ran_out then Ok (put_fctx s ctx x, evs)
        else
          let next := u16 (core + 1) in
          let next := if cx_num_queues x <=? next then u16 (next - cx_num_queues x) else next in
          poll_queues fuel k (put_fctx s ctx (x <| cx_next_queue := next |>)) ctx num evs
  end.

(** [fuel] bounds the entries of each queue and of the list of connections. *)
Definition flextcp_context_poll (fuel : nat) (s : lib) (ctx num : Z) : outcome (lib * list flextcp_event) :=
  let! (s, pos, evs, ran_out) := poll_kernel fuel s ctx num (cx_kout_head (fctx s ctx)) [] in
  let s := put_fctx s ctx (fctx s ctx <| cx_kout_head := pos |>) in
  if ran_out then Ok (s, evs)
  else
    let! (s, evs) := poll_queues fuel (Z.to_nat (cx_num_queues (fctx s ctx))) s ctx num evs in
    let! s := conns_bump fuel s ctx in
    Ok (s, evs).

(** ** Creating a context *)

Definition NIC_RXQ_LEN : Z := 64 * 32 * 1024.
Definition NIC_TXQ_LEN : Z := 64 * 8192.
Definition FLEXTCP_MAX_FTCPCORES : Z := 16.

(** [struct kernel_uxsock_response]: the kernel's answer. *)
Record kernel_uxsock_response := mk_uxsock_response
  { ur_app_out_off : Z; ur_app_out_len : Z; ur_app_in_off : Z; ur_app_in_len : Z; ur_status : Z;
    ur_flexnic_db_id : Z; ur_flexnic_qs_num : Z; ur_flexnic_qs : list (Z * Z) }.  (* rxq_off, txq_off *)

(** [flextcp_kernel_newctx] once the answer has been read: the queues with the
    kernel start out empty. *)
Definition flextcp_kernel_newctx (x : flextcp_context) (r : kernel_uxsock_response)
    : outcome (flextcp_context * Z) :=
  if FLEXTCP_MAX_FTCPCORES <? ur_flexnic_qs_num r then Crash
  else if negb (ur_status r =? 0) then Ok (x, -1)
  else
    let queue (q : Z * Z) := mk_ctx_queue q.2 q.1 0 0 in
    Ok (x <| cx_kin := ∅ |> <| cx_kin_len := ur_app_out_len r / SZ_ARX |> <| cx_kin_head := 0 |>
          <| cx_kout := ∅ |> <| cx_kout_len := ur_app_in_len r / SZ_ATX |> <| cx_kout_head := 0 |>
          <| cx_db_id := ur_flexnic_db_id r |> <| cx_num_queues := ur_flexnic_qs_num r |>
          <| cx_next_queue := 0 |> <| cx_rxq_len := NIC_RXQ_LEN |> <| cx_txq_len := NIC_TXQ_LEN |>
          <| cx_queues := list_to_map (imap (fun i q => (Z.of_nat i, queue q)) (ur_flexnic_qs r)) ∪ cx_queues x |>, 0).
End Poll.
