(* ===== verification/AppRing.v ===== *)
(** What the pointers of the application library's connections mean: positions
    in the two byte streams of the connection.

    [app_view] counts bytes on unbounded integers: received from the fast path,
    freed by the application, reported free to the fast path; allocated,
    handed over for sending, acknowledged.  [AppRep] relates it to the ring
    positions of [struct flextcp_connection]. *)
From stdpp Require Import base numbers list gmap.
From Stdlib Require Import ZArith Lia.
From S2P Require Import Prelude Packet FlowState Dma Circ FastPath FastRx Stream Queues KernelState Appif AppConn AppPoll.

Record app_view := mk_app_view
  { av_told : Z; av_freed : Z; av_rcvd : Z; av_acked : Z; av_sent : Z; av_alloc : Z }.
#[export] Instance eta_app_view : Eta app_view := fun v => mk_app_view
  (av_told v) (av_freed v) (av_rcvd v) (av_acked v) (av_sent v) (av_alloc v).

Record AppRep (x : flextcp_connection) (v : app_view) : Prop := mk_AppRep
  { apr_rx_len : 0 < fc_rxb_len x < 2147483648;
    apr_tx_len : 0 < fc_txb_len x < 2147483648;
    apr_rx_order : av_told v <= av_freed v <= av_rcvd v;
    apr_rx_fits : av_rcvd v <= av_told v + fc_rxb_len x;
    apr_tx_order : av_acked v <= av_sent v <= av_alloc v;
    apr_tx_fits : av_alloc v < av_acked v + fc_txb_len x;
    apr_nictail : fc_rxb_nictail x = av_told v mod fc_rxb_len x;
    apr_rx_tail : fc_rxb_tail x = av_freed v mod fc_rxb_len x;
    apr_rx_head : fc_rxb_head x = av_rcvd v mod fc_rxb_len x;
    apr_tx_tail : fc_txb_tail x = av_acked v mod fc_txb_len x;
    apr_tx_head : fc_txb_head x = av_sent v mod fc_txb_len x;
    apr_tx_head_alloc : fc_txb_head_alloc x = av_alloc v mod fc_txb_len x }.

Ltac fc_cbn := cbn [upd eta_fconn fc_rxb_base fc_rxb_len fc_rxb_head fc_rxb_tail fc_rxb_nictail
  fc_txb_base fc_txb_len fc_txb_head fc_txb_head_alloc fc_txb_tail fc_txb_nichead fc_local_ip
  fc_remote_ip fc_local_port fc_remote_port fc_seq_rx fc_seq_tx fc_flow_id fc_bump_seq fc_bump_next
  fc_bump_prev fc_fn_core fc_bump_pending fc_status] in *.
Ltac av_cbn := cbn [upd eta_app_view av_told av_freed av_rcvd av_acked av_sent av_alloc] in *.

(** The fields [AppRep] speaks about. *)
Definition ring_view (x : flextcp_connection) : Z * Z * Z * Z * Z * (Z * Z * Z * Z * Z) :=
  (fc_rxb_base x, fc_rxb_len x, fc_rxb_head x, fc_rxb_tail x, fc_rxb_nictail x,
   (fc_txb_base x, fc_txb_len x, fc_txb_head x, fc_txb_head_alloc x, fc_txb_tail x)).

Lemma AppRep_view x x' v : ring_view x' = ring_view x -> AppRep x v -> AppRep x' v.
Proof. intros E []. injection E as ??????????. split; congruence. Qed.

(** A position moved by [k] with the code's wrap-around. *)
Lemma ring_move n k len :
  0 < len < 2147483648 -> 0 <= k <= len ->
  (if len <=? u32 (n mod len + k) then u32 (u32 (n mod len + k) - len) else u32 (n mod len + k)) =
  (n + k) mod len.
Proof.
  intros HL Hk. pose proof (Z.mod_pos_bound n len ltac:(lia)).
  rewrite (u32_small (n mod len + k)) by mlia.
  rewrite <- (ring_advance n k len) by lia. bsplit; rewrite ?u32_small by mlia; reflexivity.
Qed.

(** Distances between positions, as the fill levels compute them. *)
Lemma ring_fill n h len :
  0 < len < 2147483648 -> n <= h < n + len ->
  (if n mod len <=? h mod len then u32 (h mod len - n mod len)
   else u32 (u32 (len - n mod len) + h mod len)) = h - n.
Proof.
  intros HL Hh. pose proof (Z.mod_pos_bound n len ltac:(lia)). pose proof (Z.mod_pos_bound h len ltac:(lia)).
  rewrite <- (ring_distance n h len) by lia. bsplit; rewrite ?u32_small by mlia; lia.
Qed.

Section Fill.
Context (x : flextcp_connection) (v : app_view) (R : AppRep x v).

Lemma recvdbytes_rep : av_rcvd v - av_freed v < fc_rxb_len x ->
  conn_rx_recvdbytes x = av_rcvd v - av_freed v.
Proof.
  intros Hf. destruct R. unfold conn_rx_recvdbytes. rewrite apr_rx_tail0, apr_rx_head0.
  apply ring_fill; lia.
Qed.

Lemma recvdbytes_full : av_rcvd v - av_freed v = fc_rxb_len x -> conn_rx_recvdbytes x = 0.
Proof.
  intros Hf. destruct R. unfold conn_rx_recvdbytes. rewrite apr_rx_tail0, apr_rx_head0.
  replace (av_rcvd v) with (av_freed v + 1 * fc_rxb_len x) by lia. rewrite Z.mod_add by lia.
  rewrite Z.leb_refl, Z.sub_diag. reflexivity.
Qed.

Lemma sendbytes_rep : conn_tx_sendbytes x = av_alloc v - av_sent v.
Proof.
  destruct R. unfold conn_tx_sendbytes. rewrite apr_tx_head0, apr_tx_head_alloc0. apply ring_fill; lia.
Qed.

Lemma allocbytes_rep : conn_tx_allocbytes x = av_acked v + fc_txb_len x - 1 - av_alloc v.
Proof.
  destruct R. unfold conn_tx_allocbytes. rewrite apr_tx_tail0, apr_tx_head_alloc0.
  pose proof (ring_distance (av_acked v) (av_alloc v) (fc_txb_len x) ltac:(lia) ltac:(lia)) as D.
  pose proof (Z.mod_pos_bound (av_acked v) (fc_txb_len x) ltac:(lia)).
  pose proof (Z.mod_pos_bound (av_alloc v) (fc_txb_len x) ltac:(lia)).
  bsplit; rewrite u32_small by mlia; lia.
Qed.
End Fill.

(** ** The library's state around a connection *)

Lemma fconn_put s c x : fconn (put_fconn s c x) c = x.
Proof. unfold fconn, put_fconn. cbn. apply lookup_total_insert_eq. Qed.
Lemma fconn_put_ne s c c' x : c <> c' -> fconn (put_fconn s c x) c' = fconn s c'.
Proof. intros N. unfold fconn, put_fconn. cbn. apply lookup_total_insert_ne, N. Qed.
Lemma fconn_ctx s ctx x c : fconn (put_fctx s ctx x) c = fconn s c.
Proof. reflexivity. Qed.
Lemma fctx_conn s ctx x c : fctx (put_fconn s c x) ctx = fctx s ctx.
Proof. reflexivity. Qed.
Lemma fctx_put s ctx x : fctx (put_fctx s ctx x) ctx = x.
Proof. unfold fctx, put_fctx. cbn. apply lookup_total_insert_eq. Qed.
#[export] Hint Rewrite fconn_put fconn_ctx fctx_conn fctx_put : applib.

(** Marking a connection touches nothing but list fields. *)
Lemma conn_mark_bump_view s ctx c c' : ring_view (fconn (conn_mark_bump s ctx c) c') = ring_view (fconn s c').
Proof.
  unfold conn_mark_bump. destruct (negb _); [reflexivity|].
  destruct (cx_bump_pending_last (fctx s ctx)) as [p|].
  - destruct (decide (c' = c)) as [->|N]; [rewrite fconn_put | rewrite fconn_put_ne by congruence];
      rewrite ?fconn_ctx; (destruct (decide (p = c)) as [->|N']).
    all: repeat first [rewrite fconn_put | rewrite fconn_put_ne by congruence]; try reflexivity.
    destruct (decide (p = c')) as [->|N2]; repeat first [rewrite fconn_put | rewrite fconn_put_ne by congruence];
      reflexivity.
  - destruct (decide (c' = c)) as [->|N]; repeat first [rewrite fconn_put | rewrite fconn_ctx | rewrite fconn_put_ne by congruence];
      reflexivity.
Qed.

Lemma conn_mark_bump_pending s ctx c : fc_bump_pending (fconn (conn_mark_bump s ctx c) c) <> 0.
Proof.
  unfold conn_mark_bump. destruct (Z.eqb_spec (fc_bump_pending (fconn s c)) 0) as [E|E]; cbn [negb]; [|exact E].
  rewrite fconn_put. fc_cbn. lia.
Qed.

(** ** Reception *)

(** When [flextcp_connection_rx_done] decides to tell the fast path. The difference of
    the two ring positions is taken in 32 bits before it is reduced modulo the length, so
    2^32 is added to it when the position told is the larger one. *)
Definition rx_news (len : Z) (v : app_view) : bool :=
  let wrap := if av_rcvd v mod len <? av_told v mod len then 2 ^ 32 else 0 in
  len / 4 <=? (av_rcvd v - av_told v + wrap) mod len.

(** For a length that divides 2^32 this is the number of bytes received since then. *)
Lemma rx_news_pow2 len v : (len | 2 ^ 32) -> rx_news len v = (len / 4 <=? (av_rcvd v - av_told v) mod len).
Proof.
  intros [q Hq]. unfold rx_news. destruct (_ <? _); [|now rewrite Z.add_0_r].
  rewrite Hq. now rewrite Z_mod_plus_full.
Qed.

Lemma rx_ring_done_rep x v n :
  AppRep x v -> 0 <= n <= av_rcvd v - av_freed v ->
  AppRep (rx_ring_done x n) (v <| av_freed := av_freed v + n |>) /\
  fc_rxb_len (rx_ring_done x n) = fc_rxb_len x /\ fc_rxb_head (rx_ring_done x n) = fc_rxb_head x /\
  fc_rxb_nictail (rx_ring_done x n) = fc_rxb_nictail x /\
  fc_bump_pending (rx_ring_done x n) = fc_bump_pending x.
Proof.
  intros [] Hn. unfold rx_ring_done. fc_cbn.
  pose proof (ring_move (av_freed v) n (fc_rxb_len x) ltac:(lia) ltac:(lia)) as M.
  rewrite <- apr_rx_tail0 in M. destruct (fc_rxb_len x <=? _);
    (split; [split; fc_cbn; av_cbn; auto; lia | auto]).
Qed.

Lemma rx_news_mod x v :
  AppRep x v ->
  rx_news (fc_rxb_len x) v = (fc_rxb_len x / 4 <=? u32 (fc_rxb_head x - fc_rxb_nictail x) mod fc_rxb_len x).
Proof.
  intros []. unfold rx_news. rewrite apr_rx_head0, apr_nictail0. set (L := fc_rxb_len x) in *.
  pose proof (Z.mod_pos_bound (av_rcvd v) L ltac:(lia)) as Br. pose proof (Z.mod_pos_bound (av_told v) L ltac:(lia)) as Bt.
  set (a := av_rcvd v mod L) in *. set (b := av_told v mod L) in *. f_equal.
  assert (E : forall w, (av_rcvd v - av_told v + w) mod L = (a - b + w) mod L).
  { intros w. rewrite Z.add_mod, (Zminus_mod (av_rcvd v)), <- Z.add_mod by lia. reflexivity. }
  rewrite E. destruct (Z.ltb_spec a b); [|rewrite Z.add_0_r, u32_small by (unfold is_u32; lia); reflexivity].
  f_equal. symmetry. unfold u32. change (2 ^ 32) with 4294967296.
  rewrite <- (Z_mod_plus_full (a - b) 1). apply Z.mod_small. lia.
Qed.

Section RxDone.
Context (s : lib) (ctx c : Z) (v : app_view).
Hypothesis R : AppRep (fconn s c) v.

(** The call when it is accepted. *)
Lemma rx_done_accept n :
  0 <= n <= conn_rx_recvdbytes (fconn s c) -> n <= av_rcvd v - av_freed v ->
  let s1 := put_fconn s c (rx_ring_done (fconn s c) n) in
  flextcp_connection_rx_done s ctx c n =
    Ok (if rx_news (fc_rxb_len (fconn s c)) v then conn_mark_bump s1 ctx c else s1, 0) /\
  AppRep (fconn s1 c) (v <| av_freed := av_freed v + n |>) /\
  fc_bump_pending (fconn s1 c) = fc_bump_pending (fconn s c).
Proof.
  intros Hn Hn'. cbv zeta.
  destruct (rx_ring_done_rep (fconn s c) v n R ltac:(lia)) as (R1 & EL & EH & EN & EP).
  rewrite fconn_put. split; [|split; auto].
  unfold flextcp_connection_rx_done. destruct (Z.ltb_spec (conn_rx_recvdbytes (fconn s c)) n); [lia|].
  rewrite fconn_put, EL, EH, EN. pose proof (apr_rx_len _ _ R).
  destruct (Z.eqb_spec (fc_rxb_len (fconn s c)) 0); [lia|].
  rewrite (rx_news_mod _ _ R). destruct (_ <=? _); reflexivity.
Qed.
End RxDone.

(** C26.  Freeing received bytes, [flextcp_connection_rx_done], for a receive buffer of
    any length: unless every byte of the buffer is received and not freed, the
    call accepts exactly the lengths up to what was received, moves the position
    of the application by that many bytes and keeps the rest of the two streams.
    It marks the connection for an update to the fast path when [rx_news] holds:
    for a length that divides 2^32, when the bytes received since the last
    update, modulo the length, are a quarter of it; for another length 2^32
    is counted as well whenever the ring position told is ahead of the one received. *)
Theorem rx_done_refines s ctx c v n :
  AppRep (fconn s c) v -> 0 <= n ->
  av_rcvd v - av_freed v < fc_rxb_len (fconn s c) ->
  if n <=? av_rcvd v - av_freed v then
    exists s', flextcp_connection_rx_done s ctx c n = Ok (s', 0) /\
      AppRep (fconn s' c) (v <| av_freed := av_freed v + n |>) /\
      (fc_bump_pending (fconn s' c) <> 0 <->
       fc_bump_pending (fconn s c) <> 0 \/ rx_news (fc_rxb_len (fconn s c)) v = true) /\
      ((fc_rxb_len (fconn s c) | 2 ^ 32) ->
       rx_news (fc_rxb_len (fconn s c)) v =
         (fc_rxb_len (fconn s c) / 4 <=? (av_rcvd v - av_told v) mod fc_rxb_len (fconn s c)))
  else flextcp_connection_rx_done s ctx c n = Ok (s, -1).
Proof.
  intros R Hn Hf. pose proof (recvdbytes_rep _ _ R Hf) as E.
  destruct (Z.leb_spec n (av_rcvd v - av_freed v)).
  - destruct (rx_done_accept s ctx c v R n ltac:(lia) ltac:(lia)) as (-> & R1 & P). eexists.
    split; [reflexivity|]. generalize (rx_news_pow2 (fc_rxb_len (fconn s c)) v). destruct (rx_news _ _); intros Pw.
    + split; [eapply AppRep_view; [apply conn_mark_bump_view | exact R1]|].
      split; [|exact Pw]. split; [auto | intros _; apply conn_mark_bump_pending].
    + split; [exact R1|]. split; [|exact Pw]. rewrite P. intuition discriminate.
  - unfold flextcp_connection_rx_done. rewrite E. destruct (Z.ltb_spec (av_rcvd v - av_freed v) n); [reflexivity | lia].
Qed.

(** A sequence of calls, whatever they return. *)
Fixpoint rx_dones (s : lib) (ctx c : Z) (ns : list Z) : outcome lib :=
  match ns with
  | [] => Ok s
  | n :: ns => let! (s, _) := flextcp_connection_rx_done s ctx c n in rx_dones s ctx c ns
  end.

(** A receive window that has been used up is not given back: once the
    bytes received since the last update to the fast path fill the whole
    buffer, no sequence of calls of [flextcp_connection_rx_done] marks the
    connection for an update, even when everything is read; and if nothing had
    been freed before, every call for a positive length is refused. *)
Theorem rx_window_lost s ctx c v ns :
  AppRep (fconn s c) v -> 4 <= fc_rxb_len (fconn s c) ->
  Forall (fun n => 0 <= n) ns ->
  av_rcvd v = av_told v + fc_rxb_len (fconn s c) -> fc_bump_pending (fconn s c) = 0 ->
  exists s', rx_dones s ctx c ns = Ok s' /\ fc_bump_pending (fconn s' c) = 0 /\
    fc_rxb_nictail (fconn s' c) = fc_rxb_nictail (fconn s c) /\ l_ctxs s' = l_ctxs s /\
    (av_freed v = av_told v -> Forall (fun n => 0 < n) ns -> s' = s).
Proof.
  intros R H4 Hns Hfull Hp. revert s v R H4 Hfull Hp.
  induction Hns as [|n ns Hn Hns IH]; intros s v R H4 Hfull Hp; [exists s; auto|].
  cbn beta in Hn. cbn [rx_dones]. set (L := fc_rxb_len (fconn s c)) in *.
  assert (N : rx_news L v = false).
  { unfold rx_news. replace (av_rcvd v) with (av_told v + 1 * L) by lia. rewrite Z_mod_plus_full, Z.ltb_irrefl.
    replace (av_told v + 1 * L - av_told v + 0) with (1 * L) by lia. rewrite Z.mod_mul by lia. apply Z.leb_gt. apply Z.div_str_pos. lia. }
  destruct (Z.leb_spec n (conn_rx_recvdbytes (fconn s c))) as [H|H].
  - assert (Hle : n <= av_rcvd v - av_freed v).
    { destruct (decide (av_rcvd v - av_freed v < L)) as [Hf|Hf]; [rewrite (recvdbytes_rep _ _ R Hf) in H; exact H|].
      pose proof (apr_rx_order _ _ R). pose proof (apr_rx_len _ _ R).
      rewrite (recvdbytes_full _ _ R) in H; fold L; lia. }
    destruct (rx_done_accept s ctx c v R n ltac:(lia) Hle) as (E & R1 & P). fold L in E. rewrite N in E.
    rewrite E. cbn [obind].
    destruct (rx_ring_done_rep (fconn s c) v n R ltac:(lia)) as (_ & EL & _ & EN & _).
    destruct (IH _ _ R1) as (s' & E' & P' & T' & C' & Z'); rewrite ?fconn_put, ?EL; auto; [rewrite fconn_put in P; congruence|].
    rewrite fconn_put in T'.
    exists s'. split; [exact E'|]. split; [exact P'|]. split; [congruence|]. split; [exact C'|].
    intros Hf Hpos. apply Forall_cons in Hpos as [Hn0 _]. exfalso.
    rewrite (recvdbytes_full _ _ R) in H by (fold L; lia). lia.
  - unfold flextcp_connection_rx_done. destruct (Z.ltb_spec (conn_rx_recvdbytes (fconn s c)) n); [|lia].
    cbn [obind]. destruct (IH s v R H4 Hfull Hp) as (s' & E' & P' & T' & C' & Z'). exists s'. split_and!; auto.
    intros Hf Hpos. apply Forall_cons in Hpos as [_ Hpos]. auto.
Qed.

(** ** Transmission *)

(** Free space of the transmit buffer; one byte always stays unused. *)
Definition tx_free (x : flextcp_connection) (v : app_view) : Z :=
  av_acked v + fc_txb_len x - 1 - av_alloc v.

Lemma tx_ring_alloc_rep x v k :
  AppRep x v -> 0 <= k <= tx_free x v -> AppRep (tx_ring_alloc x k) (v <| av_alloc := av_alloc v + k |>).
Proof.
  unfold tx_free. intros [] Hk. unfold tx_ring_alloc. fc_cbn.
  pose proof (ring_move (av_alloc v) k (fc_txb_len x) ltac:(lia) ltac:(lia)) as M.
  rewrite <- apr_tx_head_alloc0 in M. destruct (fc_txb_len x <=? _); split; fc_cbn; av_cbn; auto; lia.
Qed.

(** Byte [i] of the stream lies at this address of the transmit buffer. *)
Definition tx_addr (x : flextcp_connection) (i : Z) : Z := fc_txb_base x + i mod fc_txb_len x.

Lemma tx_addr_split x v k i :
  AppRep x v -> 0 <= i < k -> k <= tx_free x v ->
  tx_addr x (av_alloc v + i) =
    if fc_txb_head_alloc x + i <? fc_txb_len x then fc_txb_base x + fc_txb_head_alloc x + i
    else fc_txb_base x + (i - (fc_txb_len x - fc_txb_head_alloc x)).
Proof.
  unfold tx_free, tx_addr. intros [] Hi Hk. rewrite <- (ring_advance _ i) by lia.
  rewrite <- apr_tx_head_alloc0. bsplit; lia.
Qed.

Section Alloc.
Context (x : flextcp_connection) (v : app_view) (n : Z).
Hypothesis R : AppRep x v.
Hypothesis Hn : 0 <= n < 18446744073709551616.

Lemma alloc_facts :
  conn_tx_allocbytes x = tx_free x v /\ 0 <= tx_free x v < 2147483648 /\ 0 <= fc_txb_head_alloc x < fc_txb_len x /\
  0 < fc_txb_len x < 2147483648.
Proof.
  pose proof (allocbytes_rep x v R) as E. destruct R.
  pose proof (Z.mod_pos_bound (av_alloc v) (fc_txb_len x) ltac:(lia)) as B. rewrite <- apr_tx_head_alloc0 in B.
  unfold tx_free. split_and!; auto; lia.
Qed.

Lemma tx_alloc2_rep :
  let '(x', k, buf_1, len_1, buf_2) := flextcp_connection_tx_alloc2 x n in
  k = Z.min n (tx_free x v) /\ x' = tx_ring_alloc x k /\ 0 <= len_1 <= k /\
  (forall i, 0 <= i < len_1 -> buf_1 + i = tx_addr x (av_alloc v + i)) /\
  (forall i, len_1 <= i < k -> exists b, buf_2 = Some b /\ b + (i - len_1) = tx_addr x (av_alloc v + i)).
Proof.
  destruct alloc_facts as (E & F & B & HL). unfold flextcp_connection_tx_alloc2. rewrite E.
  set (k := if tx_free x v <? n then tx_free x v else n).
  assert (Hk : k = Z.min n (tx_free x v)) by (unfold k; bsplit; lia). clearbody k.
  rewrite (u64_small (fc_txb_head_alloc x + k)) by lia. rewrite u32_small by mlia.
  destruct (Z.ltb_spec (fc_txb_len x) (fc_txb_head_alloc x + k)) as [W|W]; cbv beta iota zeta;
    (split_and!; try lia; try reflexivity).
  - intros i Hi. rewrite (tx_addr_split x v k) by (auto; lia). bsplit; lia.
  - intros i Hi. eexists. split; [reflexivity|]. rewrite (tx_addr_split x v k) by (auto; lia). bsplit; lia.
  - intros i Hi. rewrite (tx_addr_split x v k) by (auto; lia). bsplit; lia.
Qed.

Lemma tx_alloc_rep :
  let '(x', k, buf) := flextcp_connection_tx_alloc x n in
  k = Z.min n (Z.min (tx_free x v) (fc_txb_len x - fc_txb_head_alloc x)) /\ x' = tx_ring_alloc x k /\
  (forall i, 0 <= i < k -> buf + i = tx_addr x (av_alloc v + i)).
Proof.
  destruct alloc_facts as (E & F & B & HL). unfold flextcp_connection_tx_alloc. rewrite E.
  set (k := if tx_free x v <? n then tx_free x v else n).
  assert (Hk : k = Z.min n (tx_free x v)) by (unfold k; bsplit; lia). clearbody k.
  rewrite (u64_small (fc_txb_head_alloc x + k)) by lia. rewrite u32_small by mlia.
  destruct (Z.ltb_spec (fc_txb_len x) (fc_txb_head_alloc x + k)) as [W|W]; cbv beta iota zeta;
    (split_and!; try lia; try reflexivity); intros i Hi; rewrite (tx_addr_split x v k) by (auto; lia); bsplit; lia.
Qed.
End Alloc.

(** Sending, [flextcp_connection_tx_alloc2] and [flextcp_connection_tx_alloc]:
    an allocation gets as many bytes as asked for, up to the free space (and,
    for [tx_alloc], up to the end of the buffer); the addresses returned are
    those of the next bytes of the application's stream in the ring, so they
    belong to no byte that is allocated and not yet acknowledged, and the
    transmit positions represent the longer stream. *)
Theorem tx_alloc_refines x v n :
  AppRep x v -> 0 <= n < 18446744073709551616 ->
  (let '(x', k, buf_1, len_1, buf_2) := flextcp_connection_tx_alloc2 x n in
   k = Z.min n (tx_free x v) /\ AppRep x' (v <| av_alloc := av_alloc v + k |>) /\ 0 <= len_1 <= k /\
   (forall i, 0 <= i < len_1 -> buf_1 + i = tx_addr x (av_alloc v + i)) /\
   (forall i, len_1 <= i < k -> exists b, buf_2 = Some b /\ b + (i - len_1) = tx_addr x (av_alloc v + i))) /\
  (let '(x', k, buf) := flextcp_connection_tx_alloc x n in
   k = Z.min n (Z.min (tx_free x v) (fc_txb_len x - fc_txb_head_alloc x)) /\
   AppRep x' (v <| av_alloc := av_alloc v + k |>) /\
   (forall i, 0 <= i < k -> buf + i = tx_addr x (av_alloc v + i))).
Proof.
  intros R Hn. pose proof (tx_alloc2_rep x v n R Hn) as A2. pose proof (tx_alloc_rep x v n R Hn) as A1.
  pose proof (alloc_facts x v R) as (_ & F & B & _).
  destruct (flextcp_connection_tx_alloc2 x n) as [[[[x2 k2] b2] l2] c2]. destruct A2 as (Ek & -> & Hl & P & Q).
  destruct (flextcp_connection_tx_alloc x n) as [[x1 k1] b1]. destruct A1 as (Ek1 & -> & P1).
  split; (split_and!; auto); try lia; apply tx_ring_alloc_rep; auto; lia.
Qed.

(** The call when it is accepted. *)
Lemma tx_send_accept s ctx c v n :
  AppRep (fconn s c) v -> 0 <= n <= av_alloc v - av_sent v ->
  exists x, flextcp_connection_tx_send s ctx c n = (conn_mark_bump (put_fconn s c x) ctx c, 0) /\
    AppRep x (v <| av_sent := av_sent v + n |>) /\ fc_txb_base x = fc_txb_base (fconn s c) /\
    fc_txb_len x = fc_txb_len (fconn s c) /\ fc_rxb_base x = fc_rxb_base (fconn s c) /\ fc_rxb_len x = fc_rxb_len (fconn s c).
Proof.
  intros R Hn. unfold flextcp_connection_tx_send. rewrite (sendbytes_rep _ _ R).
  destruct (Z.ltb_spec (av_alloc v - av_sent v) n); [lia|]. eexists. split; [reflexivity|]. split; [|auto].
  destruct R. pose proof (ring_move (av_sent v) n (fc_txb_len (fconn s c)) ltac:(lia) ltac:(lia)) as M.
  rewrite <- apr_tx_head0 in M. split; fc_cbn; av_cbn; auto; lia.
Qed.

(** [flextcp_connection_tx_send] accepts exactly the lengths up to what is
    allocated and not yet sent; an accepted call hands over the next [n] bytes
    of the stream and marks the connection for an update to the fast path. *)
Theorem tx_send_refines s ctx c v n :
  AppRep (fconn s c) v -> 0 <= n ->
  if n <=? av_alloc v - av_sent v then
    exists s', flextcp_connection_tx_send s ctx c n = (s', 0) /\
      AppRep (fconn s' c) (v <| av_sent := av_sent v + n |>) /\ fc_bump_pending (fconn s' c) <> 0
  else flextcp_connection_tx_send s ctx c n = (s, -1).
Proof.
  intros R Hn. destruct (Z.leb_spec n (av_alloc v - av_sent v)).
  - destruct (tx_send_accept s ctx c v n R ltac:(lia)) as (x & -> & R' & _). eexists. split; [reflexivity|].
    split; [|apply conn_mark_bump_pending]. eapply AppRep_view; [apply conn_mark_bump_view|]. rewrite fconn_put. exact R'.
  - unfold flextcp_connection_tx_send. rewrite (sendbytes_rep _ _ R).
    destruct (Z.ltb_spec (av_alloc v - av_sent v) n); [reflexivity | lia].
Qed.

(** ** Updates of the fast path *)

(** The bytes of the receive buffer an event hands to the application. *)
Definition ev_range (c : Z) (e : flextcp_event) : list Z :=
  match e with
  | FLEXTCP_EV_CONN_RECEIVED c' buf len => if c' =? c then seqZ buf len else []
  | _ => []
  end.
Definition ev_ranges (c : Z) (evs : list flextcp_event) : list Z := evs ≫= ev_range c.

(** Byte [i] of the peer's stream lies at this address of the receive buffer. *)
Definition rx_addr (x : flextcp_connection) (i : Z) : Z := fc_rxb_base x + i mod fc_rxb_len x.

Lemma ring_addrs base len r k :
  0 < len -> 0 <= k <= len ->
  map (fun i => base + i mod len) (seqZ r k) =
    if len <? r mod len + k then seqZ (base + r mod len) (len - r mod len) ++ seqZ base (k - (len - r mod len))
    else seqZ (base + r mod len) k.
Proof.
  intros HL Hk. pose proof (Z.mod_pos_bound r len HL).
  assert (S : forall n q j, 0 <= q + j -> q + j + n <= len -> forall r', r' mod len = q ->
    map (fun i => base + i mod len) (seqZ (r' + j) n) = seqZ (base + q + j) n).
  { intros n q j H0 H1 r' <-. apply list_eq. intros i. rewrite list_lookup_fmap.
    destruct (decide (Z.of_nat i < n)) as [Hi|Hi].
    - rewrite !lookup_seqZ_lt by lia. cbn. f_equal. rewrite <- Z.add_assoc, <- Zplus_mod_idemp_l.
      rewrite Z.mod_small by lia. lia.
    - rewrite !lookup_seqZ_ge by lia. reflexivity. }
  destruct (Z.ltb_spec len (r mod len + k)).
  - replace k with ((len - r mod len) + (k - (len - r mod len))) at 1 by lia.
    rewrite seqZ_app, map_app by lia. f_equal.
    + specialize (S (len - r mod len) (r mod len) 0 ltac:(lia) ltac:(lia) r eq_refl). rewrite !Z.add_0_r in S. exact S.
    + specialize (S (k - (len - r mod len)) 0 0 ltac:(lia) ltac:(lia) (r + (len - r mod len))).
      rewrite !Z.add_0_r in S. apply S.
      rewrite <- Zplus_mod_idemp_l. replace (r mod len + (len - r mod len)) with len by lia. apply Z.mod_same. lia.
  - specialize (S k (r mod len) 0 ltac:(lia) ltac:(lia) r eq_refl). rewrite !Z.add_0_r in S. exact S.
Qed.

(** The number of events an update needs. *)
Definition update_events (x : flextcp_connection) (v : app_view) (rx_bump tx_bump : Z) : Z :=
  (if 0 <? rx_bump then (if fc_rxb_len x <? fc_rxb_head x + rx_bump then 2 else 1) else 0) +
  (if (0 <? tx_bump) && (tx_free x v =? 0) then 1 else 0).

(** The positions after an update. *)
Definition update_ring (x : flextcp_connection) (rx_bump tx_bump : Z) : flextcp_connection :=
  let x := if 0 <? rx_bump then
             let head := u32 (fc_rxb_head x + rx_bump) in
             x <| fc_seq_rx := u32 (fc_seq_rx x + rx_bump) |>
               <| fc_rxb_head := if fc_rxb_len x <=? head then u32 (head - fc_rxb_len x) else head |>
           else x in
  if 0 <? tx_bump then
    let tail := u32 (fc_txb_tail x + tx_bump) in
    x <| fc_txb_tail := if fc_txb_len x <=? tail then u32 (tail - fc_txb_len x) else tail |>
  else x.

Lemma update_ring_rep x v rx_bump tx_bump :
  AppRep x v -> 0 <= rx_bump -> av_rcvd v + rx_bump <= av_told v + fc_rxb_len x ->
  0 <= tx_bump <= av_sent v - av_acked v ->
  AppRep (update_ring x rx_bump tx_bump)
    (v <| av_rcvd := av_rcvd v + rx_bump |> <| av_acked := av_acked v + tx_bump |>).
Proof.
  intros [] Hr Hf Ht.
  pose proof (ring_move (av_rcvd v) rx_bump (fc_rxb_len x) ltac:(lia) ltac:(lia)) as M1.
  pose proof (ring_move (av_acked v) tx_bump (fc_txb_len x) ltac:(lia) ltac:(lia)) as M2.
  rewrite <- apr_rx_head0 in M1. rewrite <- apr_tx_tail0 in M2. unfold update_ring.
  destruct (Z.ltb_spec 0 rx_bump), (Z.ltb_spec 0 tx_bump);
    rewrite ?(Z.le_antisymm rx_bump 0), ?(Z.le_antisymm tx_bump 0) by lia; cbv zeta;
    split; fc_cbn; av_cbn; rewrite ?Z.add_0_r; auto; lia.
Qed.

(** The events of an update. *)
Definition rx_events (c : Z) (x : flextcp_connection) (rx_bump : Z) : list flextcp_event :=
  if 0 <? rx_bump then
    if fc_rxb_len x <? fc_rxb_head x + rx_bump
    then [FLEXTCP_EV_CONN_RECEIVED c (fc_rxb_base x + fc_rxb_head x) (fc_rxb_len x - fc_rxb_head x);
          FLEXTCP_EV_CONN_RECEIVED c (fc_rxb_base x) (rx_bump - (fc_rxb_len x - fc_rxb_head x))]
    else [FLEXTCP_EV_CONN_RECEIVED c (fc_rxb_base x + fc_rxb_head x) rx_bump]
  else [].
Definition tx_events (c : Z) (x : flextcp_connection) (v : app_view) (tx_bump : Z) : list flextcp_event :=
  if (0 <? tx_bump) && (tx_free x v =? 0) then [FLEXTCP_EV_CONN_SENDBUF c] else [].

Lemma connupdate_run s opaque rx_bump tx_bump outn core v :
  let c := OPAQUE_PTR opaque in
  let x := fconn s c in
  AppRep x v -> fc_status x = CONN_OPEN -> 0 <= rx_bump ->
  av_rcvd v + rx_bump <= av_told v + fc_rxb_len x -> 0 <= tx_bump <= av_sent v - av_acked v ->
  let x1 := x <| fc_fn_core := core |> in
  event_arx_connupdate s opaque rx_bump tx_bump outn core =
    if outn <? update_events x v rx_bump tx_bump then Ok (put_fconn s c x1, None)
    else Ok (put_fconn (put_fconn s c x1) c (update_ring x1 rx_bump tx_bump),
             Some (rx_events c x rx_bump ++ tx_events c x v tx_bump)).
Proof.
  intros c x R Hs Hr Hf Ht x1. unfold event_arx_connupdate. fold c. fold x. fold x1.
  assert (R1 : AppRep x1 v) by (eapply AppRep_view; [|exact R]; reflexivity).
  pose proof (allocbytes_rep _ _ R1) as EA. fold (tx_free x1 v) in EA. change (tx_free x1 v) with (tx_free x v) in EA.
  change (fc_status x1) with (fc_status x). rewrite Hs, bool_decide_true by reflexivity. cbn [negb].
  unfold flextcp_conn_txbuf_available. rewrite EA. destruct R.
  pose proof (Z.mod_pos_bound (av_rcvd v) (fc_rxb_len x) ltac:(lia)) as B. rewrite <- apr_rx_head0 in B.
  assert (U : u32 (fc_rxb_head x + rx_bump) = fc_rxb_head x + rx_bump) by (apply u32_small; mlia).
  change (fc_rxb_head x1) with (fc_rxb_head x). change (fc_rxb_len x1) with (fc_rxb_len x).
  change (fc_rxb_base x1) with (fc_rxb_base x). rewrite U. fold (update_events x v rx_bump tx_bump).
  destruct (outn <? update_events x v rx_bump tx_bump); [reflexivity|].
  unfold update_ring, rx_events, tx_events. change (fc_rxb_head x1) with (fc_rxb_head x).
  rewrite U, (u32_small (fc_rxb_len x - fc_rxb_head x)) by mlia.
  destruct (Z.ltb_spec 0 rx_bump); [|destruct (_ && _); reflexivity].
  destruct (Z.ltb_spec (fc_rxb_len x) (fc_rxb_head x + rx_bump)); [|destruct (_ && _); reflexivity].
  rewrite (u32_small (rx_bump - _)) by mlia. destruct (_ && _); reflexivity.
Qed.

(** An update of the fast path on an open connection: if the events it
    needs do not fit, the connection stays as it is and the update is left for
    later.  Otherwise the events hand the application exactly the addresses of
    the new bytes of the peer's stream, in order and split where the buffer
    wraps around; the acknowledged bytes become free, and the application is
    told so exactly when it had no space left. *)
Theorem connupdate_refines s opaque rx_bump tx_bump outn core v :
  let c := OPAQUE_PTR opaque in
  let x := fconn s c in
  AppRep x v -> fc_status x = CONN_OPEN -> 0 <= rx_bump ->
  av_rcvd v + rx_bump <= av_told v + fc_rxb_len x -> 0 <= tx_bump <= av_sent v - av_acked v ->
  if outn <? update_events x v rx_bump tx_bump then
    exists s', event_arx_connupdate s opaque rx_bump tx_bump outn core = Ok (s', None) /\
      AppRep (fconn s' c) v
  else
    exists s' evs, event_arx_connupdate s opaque rx_bump tx_bump outn core = Ok (s', Some evs) /\
      Z.of_nat (length evs) = update_events x v rx_bump tx_bump /\
      AppRep (fconn s' c) (v <| av_rcvd := av_rcvd v + rx_bump |> <| av_acked := av_acked v + tx_bump |>) /\
      ev_ranges c evs = map (rx_addr x) (seqZ (av_rcvd v) rx_bump) /\
      (FLEXTCP_EV_CONN_SENDBUF c ∈ evs <-> 0 < tx_bump /\ tx_free x v = 0).
Proof.
  intros c x R Hs Hr Hf Ht. pose proof (connupdate_run s opaque rx_bump tx_bump outn core v R Hs Hr Hf Ht) as E.
  fold c in E. fold x in E. set (x1 := x <| fc_fn_core := core |>) in E. cbv zeta in E.
  assert (R1 : AppRep x1 v) by (eapply AppRep_view; [|exact R]; reflexivity).
  pose proof (update_ring_rep x1 v rx_bump tx_bump R1 Hr Hf Ht) as R2. destruct R.
  pose proof (Z.mod_pos_bound (av_rcvd v) (fc_rxb_len x) ltac:(lia)) as B. rewrite <- apr_rx_head0 in B.
  destruct (outn <? update_events x v rx_bump tx_bump).
  { eexists. split; [exact E|]. rewrite fconn_put. exact R1. }
  eexists _, _. split; [exact E|]. rewrite fconn_put. split; [|split; [exact R2|]].
  - unfold update_events, rx_events, tx_events. rewrite length_app.
    destruct (0 <? rx_bump), (fc_rxb_len x <? fc_rxb_head x + rx_bump), ((0 <? tx_bump) && (tx_free x v =? 0)); reflexivity.
  - unfold rx_addr, rx_events, tx_events. rewrite ring_addrs by lia. rewrite <- apr_rx_head0. split.
    + destruct (Z.ltb_spec 0 rx_bump); [|replace rx_bump with 0 by lia; rewrite Z.add_0_r;
        destruct (Z.ltb_spec (fc_rxb_len x) (fc_rxb_head x)); [lia|]; destruct (_ && _); reflexivity].
      destruct (Z.ltb_spec (fc_rxb_len x) (fc_rxb_head x + rx_bump)); destruct (_ && _); unfold ev_ranges; cbn;
        rewrite ?Z.eqb_refl, ?app_nil_r; reflexivity.
    + rewrite elem_of_app. destruct (0 <? rx_bump), (fc_rxb_len x <? fc_rxb_head x + rx_bump), (Z.ltb_spec 0 tx_bump),
        (Z.eqb_spec (tx_free x v) 0); cbn [andb]; rewrite ?elem_of_cons, ?elem_of_nil; intuition (try discriminate; try lia).
Qed.

(** ** Data that arrives before the connection is reported *)

Fixpoint early_updates (s : lib) (opaque core : Z) (bumps : list (Z * Z)) : outcome lib :=
  match bumps with
  | [] => Ok s
  | (rx_bump, outn) :: bumps =>
      let! (s, _) := event_arx_connupdate s opaque rx_bump 0 outn core in
      early_updates s opaque core bumps
  end.

Lemma early_updates_head s opaque core bumps n :
  let c := OPAQUE_PTR opaque in
  fc_status (fconn s c) = CONN_OPEN_REQUESTED \/ fc_status (fconn s c) = CONN_ACCEPT_REQUESTED ->
  fc_rxb_head (fconn s c) = n -> 0 <= n -> Forall (fun b => 0 <= b) (map fst bumps) ->
  n + foldr Z.add 0 (map fst bumps) < 4294967296 ->
  exists s', early_updates s opaque core bumps = Ok s' /\
    fconn s' c = fconn s c <| fc_fn_core := fc_fn_core (fconn s' c) |>
                           <| fc_rxb_head := n + foldr Z.add 0 (map fst bumps) |>.
Proof.
  intros c. revert s n. induction bumps as [|[b o] bumps IH]; intros s n Hs Hn H0 Hb Hsum; cbn [early_updates map fst foldr] in *.
  - exists s. split; [reflexivity|]. rewrite Z.add_0_r, <- Hn. destruct (fconn s c); reflexivity.
  - apply Forall_cons in Hb as [Hb Hbs]. cbn beta in Hb.
    assert (P : 0 <= foldr Z.add 0 (map fst bumps)) by (clear -Hbs; induction Hbs; cbn; lia).
    unfold event_arx_connupdate. fold c. cbv zeta.
    change (fc_status (fconn s c <| fc_fn_core := core |>)) with (fc_status (fconn s c)).
    rewrite (bool_decide_false (_ = CONN_OPEN)) by (destruct Hs as [-> | ->]; discriminate). cbn [negb].
    replace (bool_decide _ || bool_decide _) with true
      by (destruct Hs as [-> | ->]; reflexivity). cbn [assert_ obind Z.eqb].
    change (fc_rxb_head (fconn s c <| fc_fn_core := core |>)) with (fc_rxb_head (fconn s c)).
    rewrite Hn, u32_small by (unfold is_u32; lia).
    match goal with |- context [early_updates ?s2 opaque core bumps] =>
      destruct (IH s2 (n + b)) as (s' & E & V); [..|exists s'; split; [exact E|]] end;
      rewrite ?fconn_put; auto; try lia.
    rewrite fconn_put in V. rewrite V at 1. rewrite Z.add_assoc. reflexivity.
Qed.

(**  Updates that arrive before the kernel reports the connection are not
    lost: their bytes are handed to the application by a second event when the
    kernel's report is processed, from the start of the receive buffer.  The
    report is put off while only one event fits.  If the early data fills the
    whole receive buffer (or more) an assertion fails. *)
Theorem early_data_delivered s opaque core bumps ci port outn :
  let c := OPAQUE_PTR opaque in
  let n := foldr Z.add 0 (map fst bumps) in
  OPAQUE_ISOBJ opaque = false -> fconn s c = connection_init (fconn s c) <| fc_status := CONN_OPEN_REQUESTED |> ->
  Forall (fun b => 0 <= b) (map fst bumps) -> 0 < n < 4294967296 -> 1 <= outn ->
  0 < ci_rx_len ci < 2147483648 -> 0 < ci_tx_len ci < 2147483648 ->
  exists s1, early_updates s opaque core bumps = Ok s1 /\
    if outn <? 2 then event_kappin_conn_opened s1 opaque 0 (Some (ci, port)) outn = Ok (s1, None)
    else if n <? ci_rx_len ci then
      exists s2, event_kappin_conn_opened s1 opaque 0 (Some (ci, port)) outn =
          Ok (s2, Some [FLEXTCP_EV_CONN_OPEN 0 c; FLEXTCP_EV_CONN_RECEIVED c (ci_rx_off ci) n]) /\
        AppRep (fconn s2 c) (mk_app_view 0 0 n 0 0 0) /\ fc_status (fconn s2 c) = CONN_OPEN /\
        fc_seq_rx (fconn s2 c) = u32 (ci_seq_rx ci + n)
    else event_kappin_conn_opened s1 opaque 0 (Some (ci, port)) outn = Crash.
Proof.
  intros c n Ho Hi Hb Hn Hout Hrl Htl.
  destruct (early_updates_head s opaque core bumps 0) as (s1 & E & V); auto; try lia.
  { left. change (OPAQUE_PTR opaque) with c. rewrite Hi. reflexivity. }
  { change (OPAQUE_PTR opaque) with c. rewrite Hi. reflexivity. }
  exists s1. split; [exact E|]. change (0 + foldr Z.add 0 (map fst bumps)) with n in V. change (OPAQUE_PTR opaque) with c in V.
  assert (Hh : fc_rxb_head (fconn s1 c) = n) by (rewrite V; reflexivity).
  unfold event_kappin_conn_opened, event_conn. rewrite Ho. fold c. change (negb (0 =? 0)) with false. cbv iota zeta.
  rewrite Hh. destruct (Z.ltb_spec 0 n); [|lia]. cbn [andb]. destruct (outn <? 2); [reflexivity|].
  cbn [default]. unfold id, inject_bump. cbv iota. rewrite fconn_put. unfold conn_set_params. fc_cbn. rewrite Hh.
  destruct (Z.ltb_spec 0 n); [|lia]. destruct (Z.ltb_spec n (ci_rx_len ci)); [|reflexivity].
  cbn [assert_ obind]. eexists. split; [reflexivity|]. rewrite fconn_put. fc_cbn. split; [|auto].
  rewrite Hi in V. split; fc_cbn; av_cbn; rewrite ?Z.mod_0_l, ?Z.mod_small by lia; try lia; try (rewrite V; reflexivity).
Qed.
