(* ===== verification/AppBump.v ===== *)
(** The application library's list of connections with news for the fast path:
    [conn_mark_bump] of stack/conn.c and [conns_bump] of stack/init.c. *)
From stdpp Require Import base numbers list gmap.
From Stdlib Require Import ZArith Lia.
From S2P Require Import Prelude LinkedList Packet FlowState Dma Circ FastPath FastRx Stream Queues KernelState Appif AppConn AppPoll AppRing.

(** ** The list *)

(** The connections [l] are linked from the first to the last, each once, and
    all are flagged. *)
Record bumps_ok (s : lib) (ctx : Z) (l : list Z) : Prop := mk_bumps_ok
  { bo_chain : chain (fun c => fc_bump_next (fconn s c)) (cx_bump_pending_first (fctx s ctx)) l None;
    bo_last : cx_bump_pending_last (fctx s ctx) = last l;
    bo_nodup : NoDup l;
    bo_flag : forall c, c ∈ l -> fc_bump_pending (fconn s c) <> 0 }.

(** The fields the list is made of. *)
Definition list_view (x : flextcp_connection) : option Z * Z := (fc_bump_next x, fc_bump_pending x).

Lemma bumps_ok_frame s s' ctx l :
  bumps_ok s ctx l -> (forall c, c ∈ l -> list_view (fconn s' c) = list_view (fconn s c)) ->
  cx_bump_pending_first (fctx s' ctx) = cx_bump_pending_first (fctx s ctx) ->
  cx_bump_pending_last (fctx s' ctx) = cx_bump_pending_last (fctx s ctx) -> bumps_ok s' ctx l.
Proof.
  intros [C La N F] E E1 E2. split; rewrite ?E1, ?E2; auto.
  - eapply chain_ext; [|exact C]. intros c Hc. injection (E c Hc) as -> _. reflexivity.
  - intros c Hc. injection (E c Hc) as _ ->. auto.
Qed.

Lemma fconn_put_if s c x y : fconn (put_fconn s c x) y = if decide (y = c) then x else fconn s y.
Proof. case_decide; subst; [apply fconn_put | apply fconn_put_ne; congruence]. Qed.

(** What marking a connection does to the list's fields. *)
Lemma conn_mark_bump_list s ctx c :
  let p := cx_bump_pending_last (fctx s ctx) in
  let s' := conn_mark_bump s ctx c in
  fc_bump_pending (fconn s c) = 0 -> p <> Some c ->
  (forall y, list_view (fconn s' y) =
     if decide (y = c) then (None, 1)
     else if decide (p = Some y) then (Some c, fc_bump_pending (fconn s y)) else list_view (fconn s y)) /\
  cx_bump_pending_last (fctx s' ctx) = Some c /\
  cx_bump_pending_first (fctx s' ctx) = if decide (p = None) then Some c else cx_bump_pending_first (fctx s ctx).
Proof.
  intros p s' Hp Hpc. subst s'. unfold conn_mark_bump. rewrite Hp. cbn [negb Z.eqb]. fold p.
  destruct p as [p|]; (split; [intros y|]).
  - assert (p <> c) by congruence.
    repeat (rewrite fconn_put_if || rewrite fconn_ctx). repeat case_decide; simplify_eq; reflexivity.
  - repeat (rewrite fctx_conn || rewrite fctx_put). split; reflexivity.
  - repeat (rewrite fconn_put_if || rewrite fconn_ctx). repeat case_decide; simplify_eq; reflexivity.
  - repeat (rewrite fctx_conn || rewrite fctx_put). split; reflexivity.
Qed.

(** Appending a connection that is not flagged. *)
Lemma conn_mark_bump_appends s ctx l c :
  bumps_ok s ctx l -> fc_bump_pending (fconn s c) = 0 -> bumps_ok (conn_mark_bump s ctx c) ctx (l ++ [c]).
Proof.
  intros [C La N F] Hp. assert (Nc : c ∉ l) by (intros Hc; apply (F _ Hc), Hp).
  assert (Lc : last l <> Some c).
  { intros E. apply last_Some in E as [l' ->]. apply Nc, elem_of_app. right. left. }
  rewrite <- La in Lc. destruct (conn_mark_bump_list s ctx c Hp Lc) as (V & EL & EF). rewrite La in *.
  set (s' := conn_mark_bump s ctx c) in *.
  assert (VN : forall y, fc_bump_next (fconn s' y) =
    if decide (y = c) then None else if decide (last l = Some y) then Some c else fc_bump_next (fconn s y)).
  { intros y. specialize (V y). apply (f_equal fst) in V. cbn in V. rewrite V. repeat case_decide; reflexivity. }
  split.
  - rewrite EF. apply chain_snoc. rewrite VN. destruct (decide (c = c)) as [_|]; [|congruence]. split; [|reflexivity].
    destruct (last l) as [p|] eqn:El.
    + apply last_Some in El as [l' ->]. rewrite decide_False by congruence.
      apply chain_redirect with (nxt := fun y => fc_bump_next (fconn s y)) (l2 := []) (q := None); [exact C | |].
      * intros y Hy. rewrite VN. apply NoDup_app in N as (_ & D & _). rewrite !decide_False; [reflexivity | |].
        -- intros [= ->]. apply (D y Hy). left.
        -- intros ->. apply Nc, elem_of_app. auto.
      * rewrite VN, decide_False, decide_True by (congruence || reflexivity). reflexivity.
    + apply last_None in El as ->. rewrite decide_True by reflexivity. constructor.
  - rewrite EL, last_snoc. reflexivity.
  - apply NoDup_app. split; [exact N|]. split; [|repeat constructor; inversion 1].
    intros y Hy Hc. apply list_elem_of_singleton in Hc as ->. contradiction.
  - intros y Hy. specialize (V y). apply (f_equal snd) in V. cbn in V. rewrite V.
    destruct (decide (y = c)) as [->|Ny]; [discriminate|].
    apply elem_of_app in Hy as [Hy|Hy]; [|apply list_elem_of_singleton in Hy; contradiction].
    destruct (decide _); apply F, Hy.
Qed.

(** ** Messages *)

Record atx_entry := mk_atx
  { atx_rx_tail : Z; atx_tx_head : Z; atx_flow_id : Z; atx_bump_seq : Z; atx_type : Z }.

(** What the fast path reads from the entry at [slot]. *)
Definition atx_at (m : mem) (slot : Z) : atx_entry :=
  mk_atx (mem_le m slot 4) (mem_le m (slot + 4) 4) (mem_le m (slot + 8) 4) (mem_le m (slot + 12) 4)
    (mem_byte m (slot + 63)).

Lemma mem_le_same m a n x : 0 <= x < 256 ^ Z.of_nat n -> mem_le (mem_write m a (le_bytes n x)) a n = x.
Proof.
  intros Hx. unfold mem_le. pose proof (mem_read_write m a (le_bytes n x)) as E.
  rewrite length_le_bytes in E. rewrite E, le_value_bytes. apply Z.mod_small, Hx.
Qed.

Lemma mem_le_other m a bs off n :
  off + Z.of_nat n <= a \/ a + Z.of_nat (length bs) <= off ->
  mem_le (mem_write m a bs) off n = mem_le m off n.
Proof.
  intros Ha. unfold mem_le. f_equal. apply mem_read_ext. intros x Hx. apply mem_write_out. lia.
Qed.

Lemma atx_connupdate_reads m slot rx_tail tx_head flow_id bump_seq :
  is_u32 rx_tail -> is_u32 tx_head -> is_u32 flow_id -> is_u32 bump_seq ->
  atx_at (atx_connupdate m slot rx_tail tx_head flow_id bump_seq) slot =
    mk_atx rx_tail tx_head flow_id bump_seq FLEXTCP_PL_ATX_CONNUPDATE /\
  (forall x, x < slot \/ slot + 64 <= x ->
     mem_byte (atx_connupdate m slot rx_tail tx_head flow_id bump_seq) x = mem_byte m x).
Proof.
  intros H1 H2 H3 H4. unfold is_u32 in *. split.
  - unfold atx_at, atx_connupdate. f_equal.
    all: repeat (rewrite mem_le_other by (rewrite ?length_le_bytes; cbn; lia));
      try (rewrite mem_le_same by (cbn; lia); reflexivity).
    replace (slot + 63) with (slot + 63 + Z.of_nat 0) at 2 by lia. apply mem_write_in. reflexivity.
  - intros x Hx. unfold atx_connupdate. rewrite !mem_write_out by (rewrite ?length_le_bytes; cbn; lia). reflexivity.
Qed.

(** ** Sending an update *)

(** A queue to a core: aligned entries in a ring. *)
Record txq_ok (x : flextcp_context) (core : Z) : Prop := mk_txq_ok
  { tq_len : 64 <= cx_txq_len x < 2147483648; tq_div : (64 | cx_txq_len x);
    tq_align : (64 | cq_txq_tail (cx_queues x !!! core));
    tq_tail : 0 <= cq_txq_tail (cx_queues x !!! core) < cx_txq_len x }.

Definition atx_slot (x : flextcp_context) (core : Z) : Z :=
  cq_txq_base (cx_queues x !!! core) + cq_txq_tail (cx_queues x !!! core).

(** The connection after its update went out. *)
Definition update_sent (x : flextcp_connection) : flextcp_connection :=
  x <| fc_bump_seq := u32 (fc_bump_seq x + 1) |> <| fc_rxb_nictail := fc_rxb_tail x |> <| fc_bump_pending := 0 |>.

Definition conn_words (x : flextcp_connection) : Prop :=
  is_u32 (fc_rxb_tail x) /\ is_u32 (fc_txb_head x) /\ is_u32 (fc_flow_id x) /\ is_u32 (fc_bump_seq x).

Section Bump.
Context `{Platform}.

Lemma flexnic_kick_frame s core :
  l_mem (flextcp_flexnic_kick s core) = l_mem s /\ l_conns (flextcp_flexnic_kick s core) = l_conns s /\
  l_ctxs (flextcp_flexnic_kick s core) = l_ctxs s /\ l_oconns (flextcp_flexnic_kick s core) = l_oconns s.
Proof. unfold flextcp_flexnic_kick. destruct (_ <? _); repeat split. Qed.

(** The fields of a context that sending leaves alone. *)
Definition ctx_same (x x' : flextcp_context) : Prop :=
  cx_bump_pending_first x' = cx_bump_pending_first x /\ cx_bump_pending_last x' = cx_bump_pending_last x /\
  cx_txq_len x' = cx_txq_len x /\ cx_rxq_len x' = cx_rxq_len x.

(** The register of a queue after an entry was filled. *)
Definition txq_next (x : flextcp_context) (core : Z) : Z :=
  let tail := u32 (cq_txq_tail (cx_queues x !!! core) + SZ_ATX) in
  if cx_txq_len x <=? tail then u32 (tail - cx_txq_len x) else tail.

Lemma txq_next_ring x core : txq_ok x core ->
  txq_next x core = (cq_txq_tail (cx_queues x !!! core) + 64) mod cx_txq_len x /\
  (64 | txq_next x core) /\ 0 <= txq_next x core < cx_txq_len x.
Proof.
  intros [HL Hd Ha Ht].
  pose proof (ring_move (cq_txq_tail (cx_queues x !!! core)) 64 (cx_txq_len x) ltac:(lia) ltac:(lia)) as M.
  rewrite (Z.mod_small (cq_txq_tail _)) in M by lia. unfold txq_next, SZ_ATX. cbv zeta. rewrite M.
  split; [reflexivity|]. split; [|apply Z.mod_pos_bound; lia].
  rewrite Z.mod_eq by lia. apply Z.divide_sub_r; [apply Z.divide_add_r; [exact Ha | exists 1; lia]|].
  apply Z.divide_mul_l, Hd.
Qed.

Lemma tx_done_frame s ctx core :
  let s' := flextcp_context_tx_done s ctx core in
  let x := fctx s ctx in
  l_mem s' = l_mem s /\ l_conns s' = l_conns s /\ l_oconns s' = l_oconns s /\
  fctx s' ctx = x <| cx_queues := <[core := (cx_queues x !!! core) <| cq_txq_tail := txq_next x core |>]> (cx_queues x) |>.
Proof.
  intros s' x.
  set (s0 := put_fctx s ctx (x <| cx_queues := <[core := (cx_queues x !!! core) <| cq_txq_tail := txq_next x core |>]> (cx_queues x) |>)).
  assert (Es : s' = flextcp_flexnic_kick s0 core) by reflexivity. clearbody s'. subst s'.
  destruct (flexnic_kick_frame s0 core) as (F1 & F2 & F3 & F4).
  unfold fctx at 1. rewrite F1, F2, F3, F4. split_and!; try reflexivity. exact (fctx_put s ctx _).
Qed.

(** A round that finds a free entry takes the head off the list. *)
Lemma conns_bump_step_pops s ctx c l slot :
  let x := fconn s c in
  bumps_ok s ctx (c :: l) -> flextcp_context_tx_alloc s ctx (fc_fn_core x) = Some slot ->
  exists s', conns_bump_step s ctx = Some s' /\ bumps_ok s' ctx l /\
    l_mem s' = atx_connupdate (l_mem s) slot (fc_rxb_tail x) (fc_txb_head x) (fc_flow_id x) (fc_bump_seq x) /\
    l_oconns s' = l_oconns s /\
    (forall y, fconn s' y = if decide (y = c) then update_sent x else fconn s y) /\
    cx_txq_len (fctx s' ctx) = cx_txq_len (fctx s ctx) /\
    cx_queues (fctx s' ctx) = <[fc_fn_core x := (cx_queues (fctx s ctx) !!! fc_fn_core x)
        <| cq_txq_tail := txq_next (fctx s ctx) (fc_fn_core x) |>]> (cx_queues (fctx s ctx)).
Proof.
  intros x B A. pose proof B as [C La N F]. apply chain_cons_inv in C as [C0 C]. fold x in C.
  unfold conns_bump_step. rewrite C0. fold x. rewrite A. unfold conn_send_update. fold x.
  set (m' := atx_connupdate _ _ _ _ _ _). set (s1 := put_fconn (s <| l_mem := m' |>) c _).
  destruct (tx_done_frame s1 ctx (fc_fn_core x)) as (M & K & O & X).
  change (fctx s1 ctx) with (fctx s ctx) in X. change (l_mem s1) with m' in M. change (l_oconns s1) with (l_oconns s) in O.
  set (s2 := flextcp_context_tx_done s1 ctx (fc_fn_core x)) in *.
  assert (V : forall y, fconn s2 y = if decide (y = c) then x <| fc_bump_seq := u32 (fc_bump_seq x + 1) |> else fconn s y).
  { intros y. unfold fconn at 1. rewrite K. exact (fconn_put_if (s <| l_mem := m' |>) c _ y). }
  rewrite V, decide_True by reflexivity. rewrite fconn_put. set (s3 := put_fconn s2 c _).
  assert (V3 : forall y, fconn s3 y = if decide (y = c) then update_sent x else fconn s y).
  { intros y. unfold s3. rewrite fconn_put_if. case_decide; [reflexivity|]. rewrite V, decide_False by assumption. reflexivity. }
  set (next := fc_bump_next _). assert (En : next = fc_bump_next x) by reflexivity. clearbody next. subst next.
  apply NoDup_cons in N as [Nc N].
  set (s4 := match fc_bump_next x with Some _ => s3 | None => _ end).
  assert (P4 : l_conns s4 = l_conns s3 /\ l_mem s4 = m' /\ l_oconns s4 = l_oconns s /\
               cx_queues (fctx s4 ctx) = cx_queues (fctx s2 ctx) /\
               cx_txq_len (fctx s4 ctx) = cx_txq_len (fctx s2 ctx) /\ cx_bump_pending_last (fctx s4 ctx) = last l).
  { unfold s4. destruct (fc_bump_next x) as [n|] eqn:E2; split_and!; auto; rewrite ?fctx_put; auto.
    - change (fctx s3 ctx) with (fctx s2 ctx). rewrite X. cbn. rewrite La. destruct l; [inversion C | apply last_cons_cons].
    - inversion C. reflexivity. }
  destruct P4 as (P1 & P2 & P3 & P4 & P5 & P6). clearbody s4. rewrite X in P4, P5. cbn in P4, P5.
  set (s5 := put_fctx s4 ctx _).
  assert (V5 : forall y, fconn s5 y = if decide (y = c) then update_sent x else fconn s y)
    by (intros y; unfold s5; rewrite fconn_ctx; unfold fconn at 1; rewrite P1; apply V3).
  assert (X5 : fctx s5 ctx = fctx s4 ctx <| cx_bump_pending_first := fc_bump_next x |>) by apply fctx_put.
  exists s5. split; [reflexivity|]. rewrite X5. split_and!; auto.
  split; rewrite ?X5; auto.
  - eapply chain_ext; [|exact C]. intros y Hy. rewrite V5, decide_False; [reflexivity | intros ->; contradiction].
  - intros y Hy. rewrite V5, decide_False by (intros ->; contradiction). apply F. right. exact Hy.
Qed.

(** One round of [conns_bump]: the connection at the head of the list gets
    the next entry of its core's queue, where the fast path reads its two
    buffer positions, its flow and its update number; the connection leaves
    the list, its flag is cleared, and every other connection, list member and
    byte of memory stays as it was. *)
Theorem conns_bump_step_sends s ctx c l :
  let x := fconn s c in
  let slot := atx_slot (fctx s ctx) (fc_fn_core x) in
  bumps_ok s ctx (c :: l) -> txq_ok (fctx s ctx) (fc_fn_core x) -> conn_words x ->
  mem_byte (l_mem s) (slot + 63) = 0 ->
  exists s', conns_bump_step s ctx = Some s' /\ bumps_ok s' ctx l /\
    atx_at (l_mem s') slot =
      mk_atx (fc_rxb_tail x) (fc_txb_head x) (fc_flow_id x) (fc_bump_seq x) FLEXTCP_PL_ATX_CONNUPDATE /\
    (forall a, a < slot \/ slot + 64 <= a -> mem_byte (l_mem s') a = mem_byte (l_mem s) a) /\
    (forall y, fconn s' y = if decide (y = c) then update_sent x else fconn s y) /\
    cq_txq_tail (cx_queues (fctx s' ctx) !!! fc_fn_core x) =
      (cq_txq_tail (cx_queues (fctx s ctx) !!! fc_fn_core x) + 64) mod cx_txq_len (fctx s ctx) /\
    (forall k, k <> fc_fn_core x -> cx_queues (fctx s' ctx) !!! k = cx_queues (fctx s ctx) !!! k).
Proof.
  intros x slot B Q (W1 & W2 & W3 & W4) Hfree.
  destruct (conns_bump_step_pops s ctx c l slot B) as (s' & E & B' & M & _ & V & _ & Qs).
  { unfold flextcp_context_tx_alloc. fold x. fold (atx_slot (fctx s ctx) (fc_fn_core x)). fold slot. rewrite Hfree. reflexivity. }
  fold x in M, Qs, V. destruct (atx_connupdate_reads (l_mem s) slot _ _ _ _ W1 W2 W3 W4) as [A1 A2].
  exists s'. rewrite M, Qs. split_and!; auto.
  - rewrite lookup_total_insert_eq. apply (txq_next_ring _ _ Q).
  - intros k Hk. rewrite lookup_total_insert_ne by congruence. reflexivity.
Qed.

(** Rounds of the loop, and the connections they served. *)
Inductive bump_rounds (ctx : Z) : lib -> list Z -> lib -> Prop :=
| br_nil s : bump_rounds ctx s [] s
| br_cons s c l s1 s2 : cx_bump_pending_first (fctx s ctx) = Some c -> conns_bump_step s ctx = Some s1 ->
    bump_rounds ctx s1 l s2 -> bump_rounds ctx s (c :: l) s2.

Lemma conns_bump_drains s ctx l fuel :
  bumps_ok s ctx l -> (length l < fuel)%nat ->
  exists s' l1 l2, conns_bump fuel s ctx = Ok s' /\ l = l1 ++ l2 /\ bump_rounds ctx s l1 s' /\ bumps_ok s' ctx l2 /\
    match head l2 with
    | None => True
    | Some c => flextcp_context_tx_alloc s' ctx (fc_fn_core (fconn s' c)) = None
    end.
Proof.
  revert s fuel. induction l as [|c l IH]; intros s fuel B Hf; (destruct fuel as [|fuel]; [cbn in Hf; lia|]); cbn [conns_bump].
  - exists s, [], []. unfold conns_bump_step. pose proof B as [C _ _ _]. apply chain_nil_inv in C. rewrite C.
    split_and!; auto using br_nil. exact I.
  - pose proof B as [C _ _ _]. apply chain_cons_inv in C as [C0 _].
    destruct (flextcp_context_tx_alloc s ctx (fc_fn_core (fconn s c))) as [slot|] eqn:A.
    + destruct (conns_bump_step_pops s ctx c l slot B A) as (s1 & E & B1 & _). rewrite E.
      destruct (IH s1 fuel B1 ltac:(cbn in Hf; lia)) as (s' & l1 & l2 & E' & -> & R & B' & T).
      exists s', (c :: l1), l2. split_and!; auto. econstructor; eauto.
    + exists s, [], (c :: l). unfold conns_bump_step. rewrite C0, A. split_and!; auto using br_nil.
Qed.

(**  [conns_bump] returns, having served connections in the order in which
    they were marked; it stops at the end of the list or at the first
    connection whose core's queue is full.  Marking appends a connection that
    is not in the list, and leaves one that is where it is. *)
Theorem bumps_fifo s ctx l fuel :
  bumps_ok s ctx l ->
  (forall c, conn_mark_bump s ctx c = s /\ fc_bump_pending (fconn s c) <> 0 \/
             bumps_ok (conn_mark_bump s ctx c) ctx (l ++ [c])) /\
  ((length l < fuel)%nat ->
   exists s' l1 l2, conns_bump fuel s ctx = Ok s' /\ l = l1 ++ l2 /\ bump_rounds ctx s l1 s' /\ bumps_ok s' ctx l2 /\
     match head l2 with
     | None => True
     | Some c => flextcp_context_tx_alloc s' ctx (fc_fn_core (fconn s' c)) = None
     end).
Proof.
  intros B. split; [|apply conns_bump_drains, B]. intros c.
  destruct (Z.eqb_spec (fc_bump_pending (fconn s c)) 0) as [E|E].
  - right. apply conn_mark_bump_appends; auto.
  - left. split; [|exact E]. unfold conn_mark_bump. apply Z.eqb_neq in E. rewrite E. reflexivity.
Qed.
End Bump.
