(* ===== verification/AppObj.v ===== *)
(** Objects of the application library (stack/conn.c): however the application
    completes them, objects leave the transmit buffer in the order in which
    they were allocated, and the space of received objects is given back in
    the order of the stream.

    The objects of a buffer are a list of their sizes and "done" flags; a
    header in the ring holds both. *)
From stdpp Require Import base numbers list gmap.
From Stdlib Require Import ZArith Lia.
From S2P Require Import Prelude Packet FlowState Dma Circ FastPath FastRx Stream Queues KernelState Appif AppConn AppPoll AppRing AppBump.

(** ** Headers in a ring *)

Definition hdr_ok (h : obj_hdr) : Prop :=
  is_u32 (be32_x (oh_len h)) /\ is_u16 (be16_x (oh_magic h)) /\ 0 <= oh_src h < 256 /\ 0 <= oh_dstlen h < 256.

Lemma hdr_roundtrip h : hdr_ok h -> bytes_obj_hdr (obj_hdr_bytes h) = h.
Proof.
  unfold hdr_ok, is_u32, is_u16. destruct h as [[l] [mg] sr dl]. cbn [oh_len oh_magic oh_src oh_dstlen be32_x be16_x].
  intros (H1 & H2 & H3 & H4).
  unfold bytes_obj_hdr, obj_hdr_bytes. cbn [oh_len oh_magic oh_src oh_dstlen be32_x be16_x].
  repeat f_equal.
  - change (slice _ 0 4) with (le_bytes 4 l). rewrite le_value_bytes. apply Z.mod_small. cbn. lia.
  - change (slice _ 4 2) with (le_bytes 2 mg). rewrite le_value_bytes. apply Z.mod_small. cbn. lia.
  - change (slice _ 6 1) with (le_bytes 1 sr). rewrite le_value_bytes. apply Z.mod_small. cbn. lia.
  - change (slice _ 7 1) with (le_bytes 1 dl). rewrite le_value_bytes. apply Z.mod_small. cbn. lia.
Qed.

Lemma le_value_bound l : Forall (fun b => 0 <= b < 256) l -> 0 <= le_value l < 256 ^ Z.of_nat (length l).
Proof.
  induction 1 as [|b l Hb _ IH]; [cbn; lia|]. cbn [le_value length]. rewrite Nat2Z.inj_succ, Z.pow_succ_r by lia. lia.
Qed.

Lemma length_obj_hdr_bytes h : length (obj_hdr_bytes h) = 8%nat.
Proof. unfold obj_hdr_bytes. rewrite !length_app, !length_le_bytes. reflexivity. Qed.

Lemma obj_hdr_bytes_ok h : Forall (fun b => 0 <= b < 256) (obj_hdr_bytes h).
Proof.
  assert (B : forall n x, Forall (fun b => 0 <= b < 256) (le_bytes n x)).
  { intros n x. unfold le_bytes. apply Forall_map, Forall_true. intros i. cbn. apply Z.mod_pos_bound. lia. }
  unfold obj_hdr_bytes. repeat (apply Forall_app; split); apply B.
Qed.

Section Ring.
Context (base len : Z).
Hypothesis Hlen : SZ_OBJ_HDR <= len < 2147483648.

Lemma circ_read_bytes m pos n : bytes_ok m -> 0 <= pos < len -> 0 <= n <= len ->
  Forall (fun b => 0 <= b < 256) (circ_read m base len pos n).
Proof.
  intros B Hp Hn. apply Forall_lookup. intros i b E.
  assert (Hi : (i < Z.to_nat n)%nat).
  { apply lookup_lt_Some in E. rewrite length_circ_read in E; auto. unfold SZ_OBJ_HDR in *. lia. }
  replace i with (Z.to_nat (Z.of_nat i)) in E by lia. unfold SZ_OBJ_HDR in *.
  rewrite circ_read_lookup in E by lia. injection E as <-. apply B.
Qed.

Lemma obj_read_ok m pos : bytes_ok m -> 0 <= pos < len -> hdr_ok (obj_read m base len pos).
Proof.
  intros B Hp. unfold obj_read. pose proof (circ_read_bytes m pos SZ_OBJ_HDR B Hp ltac:(unfold SZ_OBJ_HDR in *; lia)) as F.
  assert (L : length (circ_read m base len pos SZ_OBJ_HDR) = 8%nat)
    by (rewrite length_circ_read; unfold SZ_OBJ_HDR in *; auto; lia).
  revert F L. generalize (circ_read m base len pos SZ_OBJ_HDR). intros l F L.
  assert (V : forall i n, 0 <= i -> 0 <= n -> i + n <= 8 -> 0 <= le_value (slice l i n) < 256 ^ n).
  { intros i n H1 H2 H3. rewrite <- (Z2Nat.id n) at 3 by lia. rewrite <- (length_slice l i n) by lia.
    apply le_value_bound. apply Forall_take, Forall_drop, F. }
  unfold hdr_ok, bytes_obj_hdr, is_u32, is_u16. cbn [oh_len oh_magic oh_src oh_dstlen be32_x be16_x].
  pose proof (V 0 4 ltac:(lia) ltac:(lia) ltac:(lia)). pose proof (V 4 2 ltac:(lia) ltac:(lia) ltac:(lia)).
  pose proof (V 6 1 ltac:(lia) ltac:(lia) ltac:(lia)). pose proof (V 7 1 ltac:(lia) ltac:(lia) ltac:(lia)).
  repeat split; lia.
Qed.

(** A header just written. *)
Lemma obj_read_same m h p : hdr_ok h -> obj_read (obj_write m h base len (p mod len)) base len (p mod len) = h.
Proof.
  intros Hh. unfold obj_read, obj_write, SZ_OBJ_HDR in *. pose proof (Z.mod_pos_bound p len ltac:(lia)).
  assert (E : circ_read (circ_write m (obj_hdr_bytes h) base len (p mod len)) base len (p mod len) 8 = obj_hdr_bytes h).
  { apply list_eq. intros k. destruct (decide (k < 8)%nat) as [Hk|Hk].
    - replace k with (Z.to_nat (Z.of_nat k)) at 1 by lia. rewrite circ_read_lookup by lia.
      rewrite circ_write_byte by (rewrite ?length_obj_hdr_bytes; try lia; apply Z.mod_pos_bound; lia).
      rewrite Zminus_mod_idemp_l. replace (p mod len + Z.of_nat k - p mod len) with (Z.of_nat k) by lia.
      rewrite (Z.mod_small (Z.of_nat k)), Nat2Z.id by lia.
      destruct (lookup_lt_is_Some_2 (obj_hdr_bytes h) k) as [b ->]; [rewrite length_obj_hdr_bytes; lia | reflexivity].
    - rewrite (lookup_ge_None_2 (obj_hdr_bytes h)) by (rewrite length_obj_hdr_bytes; lia).
      apply lookup_ge_None_2. rewrite length_circ_read; lia. }
  rewrite E. apply hdr_roundtrip, Hh.
Qed.

(** Headers elsewhere in the ring stay. *)
Lemma obj_read_other m h p q : p + 8 <= q \/ q + 8 <= p -> q + 8 <= p + len -> p + 8 <= q + len ->
  obj_read (obj_write m h base len (p mod len)) base len (q mod len) = obj_read m base len (q mod len).
Proof.
  intros H1 H2 H3. unfold obj_read, obj_write, SZ_OBJ_HDR in *. f_equal.
  pose proof (Z.mod_pos_bound p len ltac:(lia)). pose proof (Z.mod_pos_bound q len ltac:(lia)).
  apply list_eq. intros k. destruct (decide (k < 8)%nat) as [Hk|Hk].
  - replace k with (Z.to_nat (Z.of_nat k)) by lia. rewrite !circ_read_lookup by lia. f_equal.
    rewrite circ_write_byte by (rewrite ?length_obj_hdr_bytes; try lia; apply Z.mod_pos_bound; lia).
    rewrite lookup_ge_None_2; [reflexivity|]. rewrite length_obj_hdr_bytes.
    rewrite Zminus_mod_idemp_l.
    replace ((q mod len + Z.of_nat k - p mod len) mod len) with ((q - p + Z.of_nat k) mod len).
    2:{ rewrite (Zminus_mod (q mod len + Z.of_nat k) (p mod len)), Z.mod_mod, Zplus_mod_idemp_l, <- Zminus_mod by lia.
        f_equal. lia. }
    assert (8 <= (q - p + Z.of_nat k) mod len); [|lia]. destruct (decide (p + 8 <= q)).
    + rewrite Z.mod_small; lia.
    + rewrite <- (Z.mod_unique_pos (q - p + Z.of_nat k) len (-1) (q - p + Z.of_nat k + len)) by lia. lia.
  - rewrite !(lookup_ge_None_2 (circ_read _ _ _ _ _)) by (rewrite length_circ_read; lia). reflexivity.
Qed.

Lemma obj_write_bytes_ok m h p : bytes_ok m -> bytes_ok (obj_write m h base len p).
Proof.
  intros B. pose proof (obj_hdr_bytes_ok h) as F. unfold obj_write, circ_write. destruct (circ_range _ _ _ _) as [[b1 l] [b2|]];
    repeat apply mem_write_bytes_ok; auto using Forall_take, Forall_drop.
Qed.
End Ring.

(** ** Objects in a ring *)

Fixpoint objs_at (m : mem) (base len p : Z) (os : list (Z * bool)) : Prop :=
  match os with
  | [] => True
  | (sz, r) :: os =>
      SZ_OBJ_HDR <= sz /\ obj_size (obj_read m base len (p mod len)) = sz /\
      obj_done (obj_read m base len (p mod len)) = r /\ objs_at m base len (p + sz) os
  end.

Definition objs_len (os : list (Z * bool)) : Z := foldr (fun o n => o.1 + n) 0 os.

(** The headers of sent objects carry the magic number. *)
Fixpoint objs_sent (m : mem) (base len p : Z) (os : list (Z * bool)) : Prop :=
  match os with
  | [] => True
  | (sz, _) :: os =>
      f_beui16 (oh_magic (obj_read m base len (p mod len))) = OBJ_MAGIC /\ objs_sent m base len (p + sz) os
  end.

(** The objects at the front that are done, and the rest. *)
Fixpoint ready_prefix (os : list (Z * bool)) : list (Z * bool) :=
  match os with (sz, true) :: os => (sz, true) :: ready_prefix os | _ => [] end.
Fixpoint after_ready (os : list (Z * bool)) : list (Z * bool) :=
  match os with (_, true) :: os => after_ready os | _ => os end.

Lemma ready_split os : os = ready_prefix os ++ after_ready os.
Proof. induction os as [|[sz [|]] os IH]; cbn; congruence. Qed.

Lemma objs_len_app os1 os2 : objs_len (os1 ++ os2) = objs_len os1 + objs_len os2.
Proof. induction os1 as [|[sz r] os1 IH]; cbn; [reflexivity|]. unfold objs_len in *. cbn. lia. Qed.

Lemma objs_len_cons sz r os : objs_len ((sz, r) :: os) = sz + objs_len os.
Proof. reflexivity. Qed.

Section Objs.
Context (base len : Z).
Hypothesis Hlen : SZ_OBJ_HDR <= len < 2147483648.

Lemma objs_len_nonneg m p os : objs_at m base len p os -> 0 <= objs_len os.
Proof.
  unfold SZ_OBJ_HDR in *. revert p. induction os as [|[sz r] os IH]; intros p O; [cbn; lia|].
  destruct O as (H1 & _ & _ & O). apply IH in O. rewrite objs_len_cons. unfold SZ_OBJ_HDR in H1. lia.
Qed.

Lemma objs_at_app m p os1 os2 :
  objs_at m base len p (os1 ++ os2) <-> objs_at m base len p os1 /\ objs_at m base len (p + objs_len os1) os2.
Proof.
  clear Hlen. revert p. induction os1 as [|[sz r] os1 IH]; intros p; cbn [app objs_at].
  - cbn. rewrite Z.add_0_r. tauto.
  - rewrite IH, objs_len_cons, Z.add_assoc. tauto.
Qed.

Lemma objs_at_frame m m' p os :
  objs_at m base len p os ->
  (forall q, p <= q -> q + 8 <= p + objs_len os -> obj_read m' base len (q mod len) = obj_read m base len (q mod len)) ->
  objs_at m' base len p os.
Proof.
  revert p. induction os as [|[sz r] os IH]; intros p O F; [exact I|]. destruct O as (H1 & H2 & H3 & O).
  pose proof (objs_len_nonneg _ _ _ O). unfold SZ_OBJ_HDR in H1. rewrite objs_len_cons in F.
  cbn [objs_at]. rewrite F by lia. unfold SZ_OBJ_HDR. split_and!; auto.
  apply IH; [exact O|]. intros q Hq1 Hq2. apply F; lia.
Qed.

(** The next object's position, and the test for the end. *)
Lemma obj_next p sz : 0 <= sz <= len -> u32 (circ_offset (p mod len) len sz) = (p + sz) mod len.
Proof.
  unfold SZ_OBJ_HDR in Hlen. intros Hs. pose proof (Z.mod_pos_bound p len ltac:(lia)).
  rewrite circ_offset_mod by lia. rewrite Zplus_mod_idemp_l.
  pose proof (Z.mod_pos_bound (p + sz) len ltac:(lia)). apply u32_small. unfold is_u32. lia.
Qed.

Lemma ring_pos_eqb p e : p <= e < p + len -> (p mod len =? e mod len) = (p =? e).
Proof.
  unfold SZ_OBJ_HDR in Hlen. intros He. destruct (Z.eqb_spec p e) as [->|N]; [apply Z.eqb_refl|].
  apply Z.eqb_neq. intros E. apply N.
  assert (D : (e - p) mod len = 0) by (rewrite Zminus_mod, E, Z.sub_diag; apply Z.mod_0_l; lia).
  rewrite Z.mod_small in D by lia. lia.
Qed.

Lemma magic_done : f_beui16 (t_beui16 OBJ_MAGIC) = OBJ_MAGIC.
Proof. reflexivity. Qed.

Lemma set_magic_ok h mg : hdr_ok h -> hdr_ok (h <| oh_magic := t_beui16 mg |>).
Proof.
  intros (H1 & H2 & H3 & H4). split; [exact H1|]. split; [|split; assumption].
  unfold t_beui16. cbn. apply bswap16_range.
Qed.

Lemma mod_inside p : 0 <= p mod len < len.
Proof. unfold SZ_OBJ_HDR in Hlen. apply Z.mod_pos_bound. lia. Qed.

(** Changing the magic number of one header. *)
Lemma set_magic_reads m p mg q :
  bytes_ok m ->
  let h := obj_read m base len (p mod len) <| oh_magic := t_beui16 mg |> in
  let m' := obj_write m h base len (p mod len) in
  bytes_ok m' /\ obj_read m' base len (p mod len) = h /\
  (p + 8 <= q \/ q + 8 <= p -> q + 8 <= p + len -> p + 8 <= q + len ->
   obj_read m' base len (q mod len) = obj_read m base len (q mod len)).
Proof.
  intros B h m'. split; [apply obj_write_bytes_ok, B|]. split.
  - apply obj_read_same; [exact Hlen|]. apply set_magic_ok, obj_read_ok; auto using mod_inside.
  - intros H1 H2 H3. apply obj_read_other; auto.
Qed.

(** The loop of a send: from an object at [p] to the end of the done ones. *)
Lemma obj_tx_scan_rep fuel m p sz r os :
  bytes_ok m -> objs_at m base len p ((sz, r) :: os) -> sz + objs_len os < len -> (length os < fuel)%nat ->
  let p' := p + sz + objs_len (ready_prefix os) in
  exists m', obj_tx_scan fuel m base len ((p + sz + objs_len os) mod len) (p mod len) (obj_read m base len (p mod len)) =
      Ok (m', p' mod len) /\ bytes_ok m' /\ objs_at m' base len p' (after_ready os) /\
    objs_sent m' base len p ((sz, r) :: ready_prefix os) /\
    (forall q, q + 8 <= p -> p + sz + objs_len os <= q + len ->
       obj_read m' base len (q mod len) = obj_read m base len (q mod len)).
Proof.
  revert fuel m p sz r. induction os as [|[sz2 r2] os IH]; intros fuel m p sz r B O Hf Hfu;
    (destruct fuel as [|fuel]; [cbn in Hfu; lia|]); cbn [obj_tx_scan]; cbv zeta;
    destruct O as (H1 & H2 & H3 & O); pose proof (objs_len_nonneg _ _ _ O) as Hn; unfold SZ_OBJ_HDR in H1;
    set (h := obj_read m base len (p mod len) <| oh_magic := t_beui16 OBJ_MAGIC |>);
    set (m1 := obj_write m h base len (p mod len));
    change (obj_size h) with (obj_size (obj_read m base len (p mod len))); rewrite H2, obj_next by lia;
    rewrite ring_pos_eqb by (unfold SZ_OBJ_HDR in Hlen; lia);
    assert (W : forall q, bytes_ok m1 /\ obj_read m1 base len (p mod len) = h /\
       (p + 8 <= q \/ q + 8 <= p -> q + 8 <= p + len -> p + 8 <= q + len ->
        obj_read m1 base len (q mod len) = obj_read m base len (q mod len)))
      by (intros q; apply set_magic_reads, B).
  - cbn [objs_len foldr ready_prefix after_ready]. rewrite Z.add_0_r, Z.eqb_refl. exists m1. split; [reflexivity|].
    split; [apply (W 0)|]. split; [exact I|]. split.
    + cbn [objs_sent]. rewrite (proj1 (proj2 (W 0))). split; [exact magic_done | exact I].
    + intros q Hq1 Hq2. apply W; cbn in *; lia.
  - rewrite objs_len_cons in *. pose proof O as (G1 & _ & _ & O2). pose proof (objs_len_nonneg _ _ _ O2). unfold SZ_OBJ_HDR in G1.
    destruct (Z.eqb_spec (p + sz) (p + sz + (sz2 + objs_len os))); [lia|].
    assert (O1 : objs_at m1 base len (p + sz) ((sz2, r2) :: os)).
    { eapply objs_at_frame; [exact O|]. rewrite objs_len_cons. intros q Hq1 Hq2. apply W; lia. }
    pose proof O1 as (_ & _ & R2 & _). rewrite R2. destruct r2; cbn [ready_prefix after_ready].
    + destruct (IH fuel m1 (p + sz) sz2 true (proj1 (W 0)) O1 ltac:(lia) ltac:(cbn in Hfu; lia)) as (m' & E & B' & O' & S' & F').
      rewrite objs_len_cons. exists m'. rewrite !Z.add_assoc in *. split; [exact E|]. split; [exact B'|].
      split; [exact O'|]. split.
      * cbn [objs_sent]. rewrite F' by lia. rewrite (proj1 (proj2 (W 0))). split; [exact magic_done | exact S'].
      * intros q Hq1 Hq2. rewrite F' by lia. apply W; lia.
    + cbn [objs_len foldr]. rewrite Z.add_0_r. exists m1. split; [reflexivity|]. split; [apply (W 0)|]. split; [exact O1|]. split.
      * cbn [objs_sent]. rewrite (proj1 (proj2 (W 0))). split; [exact magic_done | exact I].
      * intros q Hq1 Hq2. apply W; lia.
Qed.

(** Marking an object in the middle. *)
Lemma obj_mark_rep m p os1 sz r os2 :
  bytes_ok m -> objs_at m base len p (os1 ++ (sz, r) :: os2) -> objs_len (os1 ++ (sz, r) :: os2) < len ->
  let q := p + objs_len os1 in
  let h := obj_read m base len (q mod len) <| oh_magic := t_beui16 OBJ_FLAG_DONE |> in
  let m' := obj_write m h base len (q mod len) in
  bytes_ok m' /\ objs_at m' base len p (os1 ++ (sz, true) :: os2).
Proof.
  intros B O Hf q h m'. apply objs_at_app in O as [O1 (H1 & H2 & H3 & O2)]. fold q in H2, H3, O2. unfold SZ_OBJ_HDR in H1.
  pose proof (objs_len_nonneg _ _ _ O1). pose proof (objs_len_nonneg _ _ _ O2).
  rewrite objs_len_app, objs_len_cons in Hf.
  assert (W : forall k, bytes_ok m' /\ obj_read m' base len (q mod len) = h /\
     (q + 8 <= k \/ k + 8 <= q -> k + 8 <= q + len -> q + 8 <= k + len ->
      obj_read m' base len (k mod len) = obj_read m base len (k mod len)))
    by (intros k; apply set_magic_reads, B).
  split; [apply (W 0)|]. apply objs_at_app. split.
  - eapply objs_at_frame; [exact O1|]. intros k Hk1 Hk2. apply W; lia.
  - cbn [objs_at]. fold q. rewrite (proj1 (proj2 (W 0))). unfold SZ_OBJ_HDR. split_and!; auto.
    eapply objs_at_frame; [exact O2|]. intros k Hk1 Hk2. apply W; lia.
Qed.
End Objs.

(** ** Sending objects *)

(** The objects of a connection that are allocated and not yet handed over. *)
Record ObjTxRep (s : lib) (o : Z) (v : app_view) (os : list (Z * bool)) : Prop := mk_ObjTxRep
  { otr_ring : AppRep (fconn s (oconn_c o)) v;
    otr_len : SZ_OBJ_HDR <= fc_txb_len (fconn s (oconn_c o));
    otr_lock : oc_lock (foconn s o) <> 1; otr_bytes : bytes_ok (l_mem s);
    otr_size : av_alloc v = av_sent v + objs_len os;
    otr_objs : objs_at (l_mem s) (fc_txb_base (fconn s (oconn_c o))) (fc_txb_len (fconn s (oconn_c o))) (av_sent v) os }.

Lemma oconn_lock_free s o : oc_lock (foconn s o) <> 1 ->
  oconn_lock s o = Ok (put_foconn s o (foconn s o <| oc_lock := 1 |>)).
Proof. intros N. unfold oconn_lock. apply Z.eqb_neq in N. rewrite N. reflexivity. Qed.

Lemma unlocked s o : oc_lock (foconn (oconn_unlock s o) o) <> 1.
Proof. unfold oconn_unlock, foconn, put_foconn. cbn. rewrite lookup_total_insert_eq. cbn. lia. Qed.

(** C28.  However the application finishes its objects, they are sent in the
    order in which they were allocated: finishing the first one hands over it
    and the done objects right behind it, each with the magic number in its
    header; finishing a later one only marks it.  The loop ends after at most
    as many rounds as there are objects. *)
Theorem obj_tx_in_order fuel s o v os1 sz r os2 :
  ObjTxRep s o v (os1 ++ (sz, r) :: os2) -> (length os2 < fuel)%nat ->
  let x := fconn s (oconn_c o) in
  exists s', flextcp_obj_connection_tx_send fuel s o ((av_sent v + objs_len os1) mod fc_txb_len x) = Ok s' /\
    match os1 with
    | [] => ObjTxRep s' o (v <| av_sent := av_sent v + sz + objs_len (ready_prefix os2) |>) (after_ready os2) /\
            objs_sent (l_mem s') (fc_txb_base x) (fc_txb_len x) (av_sent v) ((sz, r) :: ready_prefix os2)
    | _ => ObjTxRep s' o v (os1 ++ (sz, true) :: os2)
    end.
Proof.
  intros [R HL Lk B Hs O] Hfu x. fold x in R, HL, O. pose proof R as [_ HtL _ _ Hto Htf _ _ _ _ Eh Ea].
  assert (Hl : SZ_OBJ_HDR <= fc_txb_len x < 2147483648) by lia.
  assert (Hf : objs_len (os1 ++ (sz, r) :: os2) < fc_txb_len x) by lia.
  unfold flextcp_obj_connection_tx_send. rewrite oconn_lock_free by exact Lk. cbn [obind].
  set (s1 := put_foconn s o _). change (fconn s1 (oconn_c o)) with x. change (l_mem s1) with (l_mem s).
  pose proof O as O0. apply objs_at_app in O0 as [O1 O2]. pose proof O2 as (H1 & _ & _ & O3).
  pose proof (objs_len_nonneg _ _ _ _ _ O1). pose proof (objs_len_nonneg _ _ _ _ _ O3).
  rewrite objs_len_app, objs_len_cons in Hf, Hs. unfold SZ_OBJ_HDR in H1.
  rewrite Eh, (Z.eqb_sym _ (av_sent v mod _)), (ring_pos_eqb _ Hl) by lia.
  destruct os1 as [|[sz0 r0] os1].
  - cbn [objs_len foldr] in *. rewrite Z.add_0_r, Z.eqb_refl in *.
    destruct (obj_tx_scan_rep (fc_txb_base x) (fc_txb_len x) Hl fuel (l_mem s) (av_sent v) sz r os2 B O2 ltac:(lia) Hfu)
      as (m' & E & B' & O' & S' & _).
    rewrite Ea, Hs, !Z.add_assoc, Z.add_0_r. rewrite E. cbn [obind]. eexists. split; [reflexivity|]. split; [|exact S'].
    assert (V : fconn (oconn_unlock (put_fconn (s1 <| l_mem := m' |>) (oconn_c o)
       (x <| fc_txb_head := (av_sent v + sz + objs_len (ready_prefix os2)) mod fc_txb_len x |>)) o) (oconn_c o) =
       x <| fc_txb_head := (av_sent v + sz + objs_len (ready_prefix os2)) mod fc_txb_len x |>) by apply fconn_put.
    pose proof (f_equal objs_len (ready_split os2)) as Es. rewrite objs_len_app in Es.
    pose proof (objs_len_nonneg _ _ _ _ _ O') as Hr.
    assert (Hr2 : 0 <= objs_len (ready_prefix os2)).
    { pose proof O3 as O4. rewrite (ready_split os2) in O4. apply objs_at_app in O4 as [O4 _]. exact (objs_len_nonneg _ _ _ _ _ O4). }
    split; rewrite ?V; auto using unlocked; av_cbn; [|lia].
    destruct R. split; fc_cbn; av_cbn; auto; lia.
  - rewrite objs_len_cons in *. pose proof O1 as (G1 & _ & _ & G2). pose proof (objs_len_nonneg _ _ _ _ _ G2). unfold SZ_OBJ_HDR in G1.
    destruct (Z.eqb_spec (av_sent v) (av_sent v + (sz0 + objs_len os1))); [lia|]. cbn [obind].
    eexists. split; [reflexivity|].
    destruct (obj_mark_rep (fc_txb_base x) (fc_txb_len x) Hl (l_mem s) (av_sent v) ((sz0, r0) :: os1) sz r os2 B O) as [B' O'].
    { rewrite objs_len_app, !objs_len_cons. lia. }
    split; auto using unlocked. rewrite objs_len_app, !objs_len_cons. lia.
Qed.

(** Allocating: the object is appended, not done, if it fits. *)
Lemma obj_tx_alloc_appends s o v os dstlen n :
  ObjTxRep s o v os -> 0 <= dstlen < 256 -> 0 <= n -> SZ_OBJ_HDR + dstlen + n < 4294967296 ->
  let x := fconn s (oconn_c o) in
  let total := SZ_OBJ_HDR + dstlen + n in
  exists s' r, flextcp_obj_connection_tx_alloc s o dstlen n = Ok (s', r) /\
    if total <=? tx_free x v then
      (exists bufs, r = Some (av_alloc v mod fc_txb_len x, bufs)) /\
      ObjTxRep s' o (v <| av_alloc := av_alloc v + total |>) (os ++ [(total, false)])
    else r = None /\ ObjTxRep s' o v os.
Proof.
  intros [R HL Lk B Hs O] Hd Hn Hov x total. fold x in R, HL, O. pose proof R as [_ HtL _ _ Hto Htf _ _ _ _ Eh Ea].
  assert (Hl : SZ_OBJ_HDR <= fc_txb_len x < 2147483648) by lia. pose proof (objs_len_nonneg _ _ _ _ _ O) as Hp.
  unfold flextcp_obj_connection_tx_alloc. rewrite oconn_lock_free by exact Lk. cbn [obind].
  set (s1 := put_foconn s o _). change (fconn s1 (oconn_c o)) with x. change (l_mem s1) with (l_mem s).
  rewrite (u32_small (SZ_OBJ_HDR + dstlen + n)) by (unfold is_u32, SZ_OBJ_HDR in *; lia). fold total.
  rewrite (allocbytes_rep _ _ R). fold (tx_free x v). unfold SZ_OBJ_HDR in Hov, total.
  destruct (Z.leb_spec total (tx_free x v)), (Z.ltb_spec (tx_free x v) total); try lia; (eexists _, _; split; [reflexivity|]).
  2:{ split; [reflexivity|]. split; auto using unlocked. }
  assert (Ht : SZ_OBJ_HDR <= total <= fc_txb_len x) by (unfold tx_free, SZ_OBJ_HDR in *; lia).
  rewrite Ea. split; [eexists; reflexivity|]. rewrite obj_next by lia.
  set (h := mk_obj_hdr (t_beui32 n) (t_beui16 0) 0 dstlen).
  set (m' := obj_write (l_mem s) h (fc_txb_base x) (fc_txb_len x) (av_alloc v mod fc_txb_len x)).
  set (s2 := oconn_unlock _ o).
  assert (V : fconn s2 (oconn_c o) = x <| fc_txb_head_alloc := (av_alloc v + total) mod fc_txb_len x |>) by apply fconn_put.
  split; rewrite ?V; av_cbn; auto; try apply unlocked.
  - destruct R. unfold tx_free, SZ_OBJ_HDR in *. split; fc_cbn; av_cbn; auto; lia.
  - apply (obj_write_bytes_ok (fc_txb_base x) (fc_txb_len x)); exact B.
  - rewrite objs_len_app. cbn. lia.
  - change (l_mem s2) with m'. fc_cbn. unfold tx_free in *. unfold SZ_OBJ_HDR in Ht. apply objs_at_app. split.
    + eapply objs_at_frame; [exact O |]. intros q Hq1 Hq2. apply obj_read_other; auto; lia.
    + rewrite <- Hs. cbn [objs_at]. unfold m'. rewrite obj_read_same.
      * unfold SZ_OBJ_HDR. split; [lia|]. split; [|split; [reflexivity | exact I]].
        unfold obj_size. cbn [oh_len oh_dstlen h]. rewrite f_t_beui32, u32_small by (unfold is_u32; lia). reflexivity.
      * exact Hl.
      * split; [apply bswap32_range|]. split; [apply bswap16_range|]. cbn. lia.
Qed.
