(* ===== verification/AppPollSafe.v ===== *)
(** Polling a context of the application library: [flextcp_context_poll]
    returns, with at most as many events as it was given room for. *)
From stdpp Require Import base numbers list gmap.
From Stdlib Require Import ZArith Lia.
From S2P Require Import Prelude LinkedList Packet FlowState Dma Circ FastPath FastRx Stream Queues KernelState Appif AppConn AppPoll AppRing AppBump.

(** A computation that ends, normally with [P] or by [abort]. *)
Definition ends {A} (P : A -> Prop) (m : outcome A) : Prop :=
  match m with Ok a => P a | Crash => True | Spin => False end.

Lemma ends_bind {A B} (P : A -> Prop) (Q : B -> Prop) m k :
  ends P m -> (forall a, P a -> ends Q (k a)) -> ends Q (obind m k).
Proof. destruct m; cbn; auto. Qed.
Lemma ends_assert {B} (Q : B -> Prop) b k : (b = true -> ends Q (k tt)) -> ends Q (obind (assert_ b) k).
Proof. destruct b; cbn; auto. Qed.

(** ** What handlers of entries leave alone *)

Definition locks_free (s : lib) : Prop := forall o, oc_lock (foconn s o) <> 1.

(** Shared memory, contexts and the list of marked connections stay. *)
Record entry_frame (s s' : lib) : Prop := mk_entry_frame
  { ef_mem : l_mem s' = l_mem s; ef_ctxs : l_ctxs s' = l_ctxs s;
    ef_list : forall y, list_view (fconn s' y) = list_view (fconn s y);
    ef_locks : locks_free s -> locks_free s' }.

Lemma entry_frame_refl s : entry_frame s s.
Proof. split; auto. Qed.
Lemma entry_frame_trans s1 s2 s3 : entry_frame s1 s2 -> entry_frame s2 s3 -> entry_frame s1 s3.
Proof. intros [] []. split; auto; congruence. Qed.
Lemma entry_frame_put s c x : list_view x = list_view (fconn s c) -> entry_frame s (put_fconn s c x).
Proof. intros E. split; auto. intros y. rewrite fconn_put_if. case_decide; subst; auto. Qed.
#[local] Hint Resolve entry_frame_refl : frames.

Lemma foconn_put s o x o' : foconn (put_foconn s o x) o' = if decide (o' = o) then x else foconn s o'.
Proof.
  unfold foconn, put_foconn. cbn. case_decide; subst; [apply lookup_total_insert_eq | apply lookup_total_insert_ne; congruence].
Qed.

Lemma entry_frame_oput s o x : oc_lock x = oc_lock (foconn s o) -> entry_frame s (put_foconn s o x).
Proof. intros E. split; auto. intros F o'. rewrite foconn_put. case_decide; subst; [rewrite E|]; apply F. Qed.

(** A locked section that rewrites the connection. *)
Lemma entry_frame_unlock s o c x :
  list_view x = list_view (fconn s c) ->
  entry_frame s (oconn_unlock (put_fconn (put_foconn s o (foconn s o <| oc_lock := 1 |>)) c x) o).
Proof.
  intros E. split; auto.
  - intros y. change (fconn (oconn_unlock ?t o) y) with (fconn t y). rewrite fconn_put_if. case_decide; subst; auto.
  - intros F o'. unfold oconn_unlock. rewrite foconn_put. case_decide; [cbn; lia|].
    change (foconn (put_fconn ?t c x) o') with (foconn t o'). rewrite foconn_put, decide_False by assumption. apply F.
Qed.

Definition fits (s : lib) (avail lo : Z) (r : lib * option (list flextcp_event)) : Prop :=
  entry_frame s r.1 /\ match r.2 with Some new => lo <= Z.of_nat (length new) <= avail | None => True end.

Lemma list_view_params x i : list_view (conn_set_params x i) = list_view x.
Proof. reflexivity. Qed.

(** The report of an opened connection. *)
Lemma inject_bump_fits s c x ev avail :
  1 <= avail -> (0 <? fc_rxb_head x) && (avail <? 2) = false -> list_view x = list_view (fconn s c) ->
  ends (fits s avail 1) (inject_bump (put_fconn s c x) c ev).
Proof.
  intros H1 H2 E. unfold inject_bump. rewrite fconn_put. destruct (0 <? fc_rxb_head x) eqn:H0.
  - apply ends_assert. intros _. cbn in H2. apply Z.ltb_ge in H2. split; cbn [fst snd length]; [|lia].
    eapply entry_frame_trans; [apply entry_frame_put, E|]. apply entry_frame_put. rewrite fconn_put. reflexivity.
  - split; cbn [fst snd length]; [apply entry_frame_put, E | lia].
Qed.

Section Poll.
Context `{Platform}.

Lemma poll_kout_entry_fits s e avail :
  e <> KERNEL_APPIN_INVALID -> 1 <= avail -> ends (fits s avail 1) (poll_kout_entry s e avail).
Proof.
  intros He Ha.
  assert (One : forall ev, ends (fits s avail 1) (Ok (s, Some [ev])))
    by (intros ev; split; cbn; [auto with frames | lia]).
  assert (Closed : forall c ev, ends (fits s avail 1)
    (Ok (put_fconn s c (fconn s c <| fc_status := CONN_CLOSED |>), Some [ev])))
    by (intros c ev; split; cbn [fst snd length]; [apply entry_frame_put; reflexivity | lia]).
  destruct e as [|op st|op st|op st i|op ip port|op st i]; cbn [poll_kout_entry]; auto; [congruence | |].
  - unfold event_kappin_conn_opened. destruct (negb _); [apply Closed|].
    destruct (_ && _) eqn:E; [split; cbn; auto with frames|]. destruct (default inhabitant i) as [ci port].
    apply inject_bump_fits; auto.
  - unfold event_kappin_accept_conn. destruct (negb _); [apply Closed|].
    destruct (_ && _) eqn:E; [split; cbn; auto with frames|]. destruct (default inhabitant i) as [[ci ip] port].
    apply inject_bump_fits; auto.
Qed.

Lemma connupdate_fits s opaque rx tx outn core :
  0 <= outn -> ends (fits s outn 0) (event_arx_connupdate s opaque rx tx outn core).
Proof.
  intros Ho. unfold event_arx_connupdate. cbv zeta. set (c := OPAQUE_PTR opaque).
  set (x := fconn s c <| fc_fn_core := core |>).
  assert (F : forall y, list_view y = list_view x -> entry_frame s (put_fconn (put_fconn s c x) c y)).
  { intros y E. eapply entry_frame_trans; [|apply entry_frame_put; rewrite fconn_put; exact E].
    apply entry_frame_put. reflexivity. }
  destruct (negb _).
  - apply ends_assert. intros _. apply ends_assert. intros _. split; cbn [fst snd length]; [apply F; reflexivity | lia].
  - match goal with |- context [if outn <? ?n then _ else _] => destruct (Z.ltb_spec outn n) as [|L] end.
    + split; cbn [fst snd]; [apply entry_frame_put; reflexivity | exact I].
    + split; cbn [fst snd].
      * apply F. destruct (0 <? rx), (0 <? tx); reflexivity.
      * split; [lia|]. revert L. destruct (0 <? rx), (fc_rxb_len x <? u32 (fc_rxb_head x + rx)),
          ((0 <? tx) && (flextcp_conn_txbuf_available x =? 0)); cbn; lia.
Qed.

Lemma objupdate_fits s ctx opaque rx pos tx outn :
  locks_free s -> 0 <= outn -> ends (fits s outn 0) (event_arx_objupdate s ctx opaque rx pos tx outn).
Proof.
  intros Lf Ho. unfold event_arx_objupdate. destruct (Z.ltb_spec outn 2); [split; cbn; auto with frames|].
  cbv zeta. set (o := OPAQUE_PTR opaque). set (c := oconn_c o). apply ends_assert. intros _.
  assert (Lk : forall t, locks_free t -> oconn_lock t o = Ok (put_foconn t o (foconn t o <| oc_lock := 1 |>))).
  { intros t F. unfold oconn_lock. destruct (Z.eqb_spec (oc_lock (foconn t o)) 1); [exfalso; apply (F o); auto | reflexivity]. }
  destruct (rx =? 0).
  - destruct (0 <? tx); [|split; cbn; [auto with frames | lia]]. rewrite Lk by exact Lf. cbn [obind].
    split; cbn [fst snd]; [apply entry_frame_unlock; reflexivity|]. destruct (_ =? 0); cbn; lia.
  - apply (ends_bind (fun _ => True)); [destruct (_ =? 0); [destruct (_ <? _)|]; exact I|].
    intros [obj_len obj_pos] _. destruct (_ <? rx); [exact I|]. destruct (circ_range _ _ _ _) as [[b1 l1] b2].
    set (s1 := put_foconn s o _).
    assert (F1 : entry_frame s s1) by (apply entry_frame_oput; reflexivity).
    rewrite (Lk s1) by (apply F1, Lf). cbn [obind]. set (s2 := put_foconn s1 o _).
    destruct (u32 (obj_len - rx) =? 0); (destruct (0 <? tx); cbn [fst snd]);
      split; cbn [fst snd andb app length];
      try (eapply entry_frame_trans; [exact F1|]; apply entry_frame_unlock; repeat case_match; reflexivity);
      repeat case_match; cbn; lia.
Qed.

Lemma poll_arx_entry_fits s ctx a avail core :
  locks_free s -> 0 <= avail -> ends (fits s avail 0) (poll_arx_entry s ctx a avail core).
Proof.
  intros Lf Ha. unfold poll_arx_entry. destruct (_ =? _); [apply connupdate_fits, Ha|].
  destruct (_ =? _); [apply objupdate_fits; auto|]. split; cbn; [auto with frames | lia].
Qed.

(** ** The queues *)

(** What polling the queues keeps: the list, the locks, and the shape of the
    context. *)
Record poll_frame (ctx : Z) (s s' : lib) : Prop := mk_poll_frame
  { pf_list : forall y, list_view (fconn s' y) = list_view (fconn s y);
    pf_locks : locks_free s -> locks_free s';
    pf_first : cx_bump_pending_first (fctx s' ctx) = cx_bump_pending_first (fctx s ctx);
    pf_last : cx_bump_pending_last (fctx s' ctx) = cx_bump_pending_last (fctx s ctx);
    pf_rxq_len : cx_rxq_len (fctx s' ctx) = cx_rxq_len (fctx s ctx) }.

Lemma poll_frame_refl ctx s : poll_frame ctx s s.
Proof. split; auto. Qed.
Lemma poll_frame_trans ctx s1 s2 s3 : poll_frame ctx s1 s2 -> poll_frame ctx s2 s3 -> poll_frame ctx s1 s3.
Proof. intros [] []. split; auto; congruence. Qed.
Lemma poll_frame_entry ctx s s' : entry_frame s s' -> poll_frame ctx s s'.
Proof. intros [M C L F]. split; auto; unfold fctx; rewrite C; reflexivity. Qed.
Lemma poll_frame_ctx ctx s x :
  cx_bump_pending_first x = cx_bump_pending_first (fctx s ctx) ->
  cx_bump_pending_last x = cx_bump_pending_last (fctx s ctx) -> cx_rxq_len x = cx_rxq_len (fctx s ctx) ->
  poll_frame ctx s (put_fctx s ctx x).
Proof. intros. split; auto; rewrite fctx_put; auto. Qed.

(** A queue from a core: aligned entries in a ring. *)
Record rxq_ok (len head : Z) : Prop := mk_rxq_ok
  { rq_len : 64 <= len < 2147483648; rq_div : (64 | len); rq_align : (64 | head); rq_head : 0 <= head < len }.

Definition all_rxq_ok (s : lib) (ctx : Z) : Prop :=
  forall core, rxq_ok (cx_rxq_len (fctx s ctx)) (cq_rxq_head (cx_queues (fctx s ctx) !!! core)).

Lemma poll_kernel_ends fuel s ctx num pos evs :
  locks_free s -> Z.of_nat (length evs) <= num -> num - Z.of_nat (length evs) <= Z.of_nat fuel ->
  ends (fun '(s', _, evs', _) => poll_frame ctx s s' /\ cx_queues (fctx s' ctx) = cx_queues (fctx s ctx) /\
                                 Z.of_nat (length evs') <= num)
    (poll_kernel fuel s ctx num pos evs).
Proof.
  revert s pos evs. induction fuel as [|fuel IH]; intros s pos evs Lf Hn Hf; cbn [poll_kernel];
    (destruct (Z.leb_spec num (Z.of_nat (length evs))); [cbn; auto using poll_frame_refl|]); [lia|].
  generalize (cx_kout (fctx s ctx) !!! pos). intros e.
  assert (G : e <> KERNEL_APPIN_INVALID -> ends (fun '(s', _, evs', _) => poll_frame ctx s s' /\ cx_queues (fctx s' ctx) = cx_queues (fctx s ctx) /\
                                 Z.of_nat (length evs') <= num)
    (let! (s, r) := poll_kout_entry s e (num - Z.of_nat (length evs)) in
     match r with
     | None => Ok (s, pos, evs, true)
     | Some new =>
         let x := fctx s ctx in
         let s := put_fctx s ctx (x <| cx_kout := <[pos := KERNEL_APPIN_INVALID]> (cx_kout x) |>) in
         let pos := u32 (pos + 1) in
         let pos := if cx_kout_len x <=? pos then 0 else pos in
         poll_kernel fuel s ctx num pos (evs ++ new)
     end)).
  { intros He. eapply ends_bind; [apply (poll_kout_entry_fits s e); [exact He | lia]|].
    intros [s1 r] [F N]. cbn [fst snd] in F, N.
    assert (Q1 : cx_queues (fctx s1 ctx) = cx_queues (fctx s ctx)) by (unfold fctx; rewrite (ef_ctxs _ _ F); reflexivity).
    destruct r as [new|]; [|cbn; split_and!; auto using poll_frame_entry]. cbv zeta.
    set (s2 := put_fctx s1 ctx _).
    assert (F2 : poll_frame ctx s s2) by (eapply poll_frame_trans; [apply poll_frame_entry, F|]; apply poll_frame_ctx; reflexivity).
    assert (Q2 : cx_queues (fctx s2 ctx) = cx_queues (fctx s ctx)) by (unfold s2; rewrite fctx_put; exact Q1).
    match goal with |- ends _ (poll_kernel _ _ _ _ ?p ?l) =>
      pose proof (IH s2 p l ltac:(apply F2, Lf) ltac:(rewrite length_app; lia) ltac:(rewrite length_app; lia)) as D;
      destruct (poll_kernel fuel s2 ctx num p l) as [[[[s3 p3] e3] b3]| |]; cbn in D |- *; auto end.
    destruct D as (D1 & D2 & D3). split_and!; [eapply poll_frame_trans; eauto | congruence | exact D3]. }
  destruct e; [cbn; auto using poll_frame_refl | apply G; discriminate..].
Qed.

(** The entries behind the head that have been released. *)
Definition released_behind (m : mem) (base len head : Z) (k : nat) : Prop :=
  forall j, 1 <= j <= Z.of_nat k -> mem_byte m (base + (head - 64 * j) mod len + 63) = 0.

Lemma released_step m base len head k :
  rxq_ok len head -> released_behind m base len head k ->
  released_behind (mem_write m (base + head + 63) [0]) base len ((head + 64) mod len) (S k).
Proof.
  intros [HL Hd Ha Hh] R j Hj. rewrite Zminus_mod_idemp_l.
  replace (head + 64 - 64 * j) with (head - 64 * (j - 1)) by lia.
  destruct (decide (base + (head - 64 * (j - 1)) mod len + 63 = base + head + 63)) as [->|N].
  - replace (base + head + 63) with (base + head + 63 + Z.of_nat 0) at 2 by lia. apply mem_write_in. reflexivity.
  - rewrite mem_write_out by (cbn; lia).
    assert (j <> 1) by (intros ->; apply N; rewrite Z.sub_diag, Z.mul_0_r, Z.sub_0_r, Z.mod_small; lia).
    apply R. lia.
Qed.

Lemma rxq_next len head : rxq_ok len head ->
  (let h := u32 (head + SZ_ARX) in if len <=? h then u32 (h - len) else h) = (head + 64) mod len /\
  rxq_ok len ((head + 64) mod len).
Proof.
  intros [HL Hd Ha Hh]. pose proof (ring_move head 64 len ltac:(lia) ltac:(lia)) as M.
  rewrite (Z.mod_small head) in M by lia. split; [exact M|].
  split; auto; [|apply Z.mod_pos_bound; lia].
  rewrite Z.mod_eq by lia. apply Z.divide_sub_r; [apply Z.divide_add_r; [exact Ha | exists 1; lia]|].
  apply Z.divide_mul_l, Hd.
Qed.

Lemma rxq_slot len head : rxq_ok len head -> head / SZ_ARX * SZ_ARX = head.
Proof. intros [_ _ [q ->] _]. unfold SZ_ARX. rewrite Z.div_mul by lia. reflexivity. Qed.

Lemma poll_arx_ends fuel k s ctx num core head evs :
  let len := cx_rxq_len (fctx s ctx) in
  let base := cq_rxq_base (cx_queues (fctx s ctx) !!! core) in
  locks_free s -> rxq_ok len head -> Z.of_nat (length evs) <= num ->
  released_behind (l_mem s) base len head k -> len <= 64 * (Z.of_nat k + Z.of_nat fuel) ->
  ends (fun '(s', head', evs', _) => poll_frame ctx s s' /\ l_ctxs s' = l_ctxs s /\ rxq_ok len head' /\
                                     Z.of_nat (length evs') <= num)
    (poll_arx fuel s ctx num core head evs).
Proof.
  revert k s head evs. induction fuel as [|fuel IH]; intros k s head evs len base Lf Q Hn R Hk; cbn [poll_arx];
    (destruct (num <=? _); [cbn; auto using poll_frame_refl|]); cbv zeta; fold base; rewrite (rxq_slot _ _ Q).
  - assert (E : mem_byte (l_mem s) (base + head + 63) = 0).
    { destruct Q as [HL [q Hq] Ha Hh]. rewrite <- (R q) by lia. do 3 f_equal.
      rewrite Hq. replace (head - 64 * q) with (head + (-1) * (q * 64)) by lia.
      rewrite Z.mod_add by lia. symmetry. apply Z.mod_small. lia. }
    unfold arx_at at 1. cbn [arx_type]. rewrite E. cbn. auto using poll_frame_refl.
  - destruct (_ =? FLEXTCP_PL_ARX_INVALID) eqn:En; [cbn; auto using poll_frame_refl|]. apply Z.eqb_neq in En.
    eapply ends_bind.
    { apply poll_arx_entry_fits; [exact Lf | lia]. }
    intros [s1 r] [F N]. cbn [fst snd] in F, N.
    destruct r as [new|]; [|cbn; split_and!; auto using poll_frame_entry; apply F].
    set (s2 := s1 <| l_mem := _ |>). change (fctx s2 ctx) with (fctx s1 ctx).
    assert (C2 : l_ctxs s2 = l_ctxs s) by apply F.
    assert (X2 : fctx s1 ctx = fctx s ctx) by (unfold fctx; rewrite (ef_ctxs _ _ F); reflexivity).
    assert (F2 : poll_frame ctx s s2) by (destruct F as [M C L F]; split; auto; unfold fctx; rewrite C2; reflexivity).
    rewrite X2. fold len. destruct (rxq_next _ _ Q) as [En2 Q2]. cbv zeta in En2. rewrite En2.
    pose proof (IH (S k) s2 ((head + 64) mod len) (evs ++ new)) as D. cbv zeta in D.
    unfold fctx in D. rewrite C2 in D. fold (fctx s ctx) in D. fold len base in D.
    match type of D with ?A -> ?B -> ?C -> ?E -> ?G -> _ =>
      assert (P1 : A) by (apply F2, Lf); assert (P2 : C) by (rewrite length_app; lia);
      assert (P3 : E) by (unfold s2; cbn [l_mem upd eta_lib]; rewrite (ef_mem _ _ F); apply released_step; auto) end.
    specialize (D P1 Q2 P2 P3 ltac:(lia)).
    destruct (poll_arx fuel s2 ctx num core _ (evs ++ new)) as [[[[s3 h3] e3] b3]| |]; cbn in D |- *; auto.
    destruct D as (D1 & D2 & D3 & D4). split_and!; [eapply poll_frame_trans; [exact F2|] | congruence | auto | auto].
    destruct D1; split; auto.
Qed.

Lemma poll_queues_ends fuel k s ctx num evs :
  locks_free s -> all_rxq_ok s ctx -> Z.of_nat (length evs) <= num ->
  cx_rxq_len (fctx s ctx) <= 64 * Z.of_nat fuel ->
  ends (fun '(s', evs') => poll_frame ctx s s' /\ Z.of_nat (length evs') <= num)
    (poll_queues fuel k s ctx num evs).
Proof.
  revert s evs. induction k as [|k IH]; intros s evs Lf Q Hn Hf; cbn [poll_queues]; [cbn; auto using poll_frame_refl|].
  destruct (num <=? _); [cbn; auto using poll_frame_refl|]. cbv zeta.
  set (core := cx_next_queue (fctx s ctx)).
  eapply ends_bind.
  { apply (poll_arx_ends fuel 0 s ctx num core); [exact Lf | apply Q | exact Hn | intros j Hj; lia | lia]. }
  intros [[[s1 h1] e1] ro] (F1 & C1 & Q1 & N1).
  assert (X1 : fctx s1 ctx = fctx s ctx) by (unfold fctx; rewrite C1; reflexivity). rewrite X1.
  assert (P : forall x, cx_bump_pending_first x = cx_bump_pending_first (fctx s ctx) ->
    cx_bump_pending_last x = cx_bump_pending_last (fctx s ctx) -> cx_rxq_len x = cx_rxq_len (fctx s ctx) ->
    poll_frame ctx s (put_fctx s1 ctx x)).
  { intros x E1 E2 E3. eapply poll_frame_trans; [exact F1|]. rewrite <- X1 in E1, E2, E3. apply poll_frame_ctx; auto. }
  destruct ro; [cbn; split; [apply P; reflexivity | exact N1]|].
  set (s2 := put_fctx s1 ctx _).
  assert (F2 : poll_frame ctx s s2) by (apply P; reflexivity).
  assert (Q2 : all_rxq_ok s2 ctx).
  { intros c. unfold s2. rewrite fctx_put. cbn [cx_rxq_len cx_queues upd eta_fctx].
    destruct (decide (c = core)) as [->|N]; [rewrite lookup_total_insert_eq; exact Q1|].
    rewrite lookup_total_insert_ne by congruence. apply Q. }
  pose proof (IH s2 e1 ltac:(apply F2, Lf) Q2 N1 ltac:(rewrite (pf_rxq_len _ _ _ F2); exact Hf)) as D.
  destruct (poll_queues fuel k s2 ctx num e1) as [[s3 e3]| |]; cbn in D |- *; auto.
  destruct D as [D1 D2]. split; [eapply poll_frame_trans; eauto | exact D2].
Qed.

Lemma bumps_ok_poll s s' ctx l : poll_frame ctx s s' -> bumps_ok s ctx l -> bumps_ok s' ctx l.
Proof. intros [] B. eapply bumps_ok_frame; eauto. Qed.

(** C27.  Polling a context ends, whatever the kernel and the fast path have put
    into its queues: it returns (or hits an assertion) after at most as many
    rounds of each loop as there are events to fill in, entries in a queue, or
    connections marked.  It returns at most [num] events, and what remains of
    the list of marked connections is well formed, in its order. *)
Theorem context_poll_ends fuel s ctx num l :
  locks_free s -> all_rxq_ok s ctx -> bumps_ok s ctx l -> 0 <= num ->
  num <= Z.of_nat fuel -> cx_rxq_len (fctx s ctx) <= 64 * Z.of_nat fuel -> (length l < fuel)%nat ->
  match flextcp_context_poll fuel s ctx num with
  | Ok (s', evs) => Z.of_nat (length evs) <= num /\ exists l1 l2, l = l1 ++ l2 /\ bumps_ok s' ctx l2
  | Crash => True
  | Spin => False
  end.
Proof.
  intros Lf Q B Hn H1 H2 H3.
  change (ends (fun '(s', evs) => Z.of_nat (length evs) <= num /\ exists l1 l2, l = l1 ++ l2 /\ bumps_ok s' ctx l2)
            (flextcp_context_poll fuel s ctx num)).
  unfold flextcp_context_poll.
  eapply ends_bind; [apply poll_kernel_ends; auto; cbn; lia|].
  intros [[[s1 pos] e1] ro] (F1 & Q1 & N1). cbv zeta. set (s2 := put_fctx s1 ctx _).
  assert (F2 : poll_frame ctx s s2) by (eapply poll_frame_trans; [exact F1|]; apply poll_frame_ctx; reflexivity).
  destruct ro; [cbn; split; [exact N1|]; exists [], l; split; [reflexivity | eapply bumps_ok_poll; eauto]|].
  assert (Q2 : all_rxq_ok s2 ctx).
  { intros c. unfold s2. rewrite fctx_put. cbn [cx_rxq_len cx_queues upd eta_fctx].
    rewrite Q1, (pf_rxq_len _ _ _ F1). apply Q. }
  eapply ends_bind.
  { apply poll_queues_ends; [apply F2, Lf | exact Q2 | exact N1 | rewrite (pf_rxq_len _ _ _ F2); exact H2]. }
  intros [s3 e3] [F3 N3].
  destruct (conns_bump_drains s3 ctx l fuel) as (s4 & l1 & l2 & -> & El & _ & B4 & _);
    [apply (bumps_ok_poll s); [exact (poll_frame_trans _ _ _ _ F2 F3) | exact B] | exact H3 |].
  cbn. split; [exact N3|]. exists l1, l2. auto.
Qed.
End Poll.
