(* ===== verification/AppSystem.v ===== *)
(** The application library and the fast path together: an update travels from
    [conns_bump] (stack/init.c) through the queue in shared memory to
    [fast_appctx_poll] (flexnic/fast_appctx.c) and [flast_flows_bump]. *)
From stdpp Require Import base numbers list gmap relations.
From Stdlib Require Import ZArith Lia.
From S2P Require Import Prelude LinkedList Packet FlowState TcpCommon Qman Dma Circ FastPath FastRx Stream TxPath RxPath Handlers Queues KernelState Appif System AppConn AppPoll AppRing AppBump.

(** The library's view [v] of a connection and the fast path's [cn]: the
    window the fast path announces ends a buffer's length after the last byte
    it was told is free; the library knows of no byte the fast path does not. *)
Record linked (x : flextcp_connection) (v : app_view) (fs : flowst) (cn : conn) : Prop := mk_linked
  { lk_rx_len : fs_rx_len fs = fc_rxb_len x; lk_tx_len : fs_tx_len fs = fc_txb_len x;
    lk_wend : rxs_wend (c_rx cn) = av_told v + fc_rxb_len x;
    lk_rcvd : av_rcvd v <= rxs_next (c_rx cn);
    lk_acked : av_acked v <= txs_acked (c_tx cn);
    lk_head : txs_head (c_tx cn) <= av_sent v }.

(** The library's queue and the fast path's registers for it agree. *)
Record same_ring (a : appctx) (slot : Z) : Prop := mk_same_ring
  { sr_len : 64 <= ac_tx_len a; sr_slot : ac_tx_base a + ac_tx_head a = slot;
    sr_mem : 0 <= slot /\ slot + 64 <= FLEXNIC_DMA_MEM_SIZE }.

Section Update.
Context `{Platform} {nbh : Z} (id isn irs : Z) (app peer : Z -> Z).

(** An entry the library wrote, read by [fast_appctx_poll]. *)
Lemma appctx_poll_reads w db ts slot rx_tail tx_head bump_seq :
  same_ring (fp_appctx w !!! db) slot -> 0 <= id < FLEXNIC_PL_FLOWST_NUM ->
  atx_at (fp_mem w) slot = mk_atx rx_tail tx_head id bump_seq FLEXTCP_PL_ATX_CONNUPDATE ->
  fast_appctx_poll w nbh db ts =
    let! (ret, w) := flast_flows_bump w nbh id bump_seq rx_tail tx_head ts in
    let w := w <| fp_mem := mem_write (fp_mem w) (slot + 63) [0] |> in
    let actx := fp_appctx w !!! db in
    Ok (if negb (ret =? 0) then 1 else ret,
        w <| fp_appctx := <[db := actx <| ac_tx_head := ring_next (ac_tx_head actx) 64 (ac_tx_len actx) |>]> (fp_appctx w) |>).
Proof.
  intros [HL Hs [Hm1 Hm2]] Hid A. unfold fast_appctx_poll. destruct (Z.eqb_spec (ac_tx_len (fp_appctx w !!! db)) 0); [lia|].
  unfold FLEXNIC_DMA_MEM_SIZE in Hm2. rewrite Hs, u64_small by lia. unfold dma_pointer.
  rewrite (proj2 (dma_valid_iff slot 64 ltac:(lia) ltac:(lia))) by (unfold FLEXNIC_DMA_MEM_SIZE; lia).
  injection A as E1 E2 E3 E4 E5. rewrite E1, E2, E3, E4, E5. change (FLEXTCP_PL_ATX_CONNUPDATE =? 0) with false.
  rewrite Z.eqb_refl. cbv zeta iota. destruct (Z.leb_spec FLEXNIC_PL_FLOWST_NUM id); [lia|]. reflexivity.
Qed.

(** Bytes outside of the flow's buffers do not matter to it. *)
Lemma flow_inv_mem w cn m base len :
  flow_inv id isn irs app peer w cn -> mem_same_outside (fp_mem w) m base len ->
  apart base len (rx_base (get_flow w id)) (fs_rx_len (get_flow w id)) ->
  apart base len (fs_tx_base (get_flow w id)) (fs_tx_len (get_flow w id)) ->
  forall ctxs, ctx_kept w (w <| fp_mem := m |> <| fp_appctx := ctxs |>) (fs_db_id (get_flow w id)) ->
  flow_inv id isn irs app peer (w <| fp_mem := m |> <| fp_appctx := ctxs |>) cn.
Proof.
  intros I M A1 A2 ctxs K. eapply flow_inv_env; [exact I | reflexivity | exact K | |].
  - eapply same_on_apart; eauto.
  - pose proof (txr_len _ _ _ (fi_tx _ _ _ _ _ _ _ I)).
    apply (tx_holds_mem app (fp_mem w) m (get_flow w id) (get_flow w id) (c_tx cn) (c_tx cn)); [eapply same_on_apart; [exact M | exact A2] | lia | reflexivity | reflexivity | lia | reflexivity | apply I].
Qed.

(** Reading the entry moves the transmit register of its queue only. *)
Lemma ctx_kept_tx w w' a db x :
  queue_ok (fp_appctx w !!! db) -> fp_appctx w' = <[a := x]> (fp_appctx w) ->
  ac_rx_base x = ac_rx_base (fp_appctx w !!! a) -> ac_rx_len x = ac_rx_len (fp_appctx w !!! a) ->
  ac_rx_head x = ac_rx_head (fp_appctx w !!! a) -> ctx_kept w w' db.
Proof.
  intros Q E E1 E2 E3. unfold ctx_kept. rewrite E.
  destruct (decide (db = a)) as [->|N]; [rewrite lookup_total_insert_eq | rewrite lookup_total_insert_ne by congruence; auto].
  split; [|auto]. destruct Q. split; rewrite ?E1, ?E2, ?E3; auto.
Qed.

(** The fast path's part: an entry in the queue takes effect and is released. *)
Lemma update_consumed w cn db ts slot bump_seq head' wend' r w1 :
  flow_inv id isn irs app peer w cn ->
  apart slot 64 (rx_base (get_flow w id)) (fs_rx_len (get_flow w id)) ->
  apart slot 64 (fs_tx_base (get_flow w id)) (fs_tx_len (get_flow w id)) ->
  same_ring (fp_appctx w !!! db) slot -> 0 <= id < FLEXNIC_PL_FLOWST_NUM ->
  atx_at (fp_mem w) slot = mk_atx (wend' mod fs_rx_len (get_flow w id)) (head' mod fs_tx_len (get_flow w id)) id
                             bump_seq FLEXTCP_PL_ATX_CONNUPDATE ->
  bump_stale bump_seq (fs_bump_seq (get_flow w id)) = false ->
  txs_head (c_tx cn) <= head' -> head' - txs_acked (c_tx cn) < fs_tx_len (get_flow w id) ->
  tx_holds app (fp_mem w) (get_flow w id) (mk_tx_stream (txs_acked (c_tx cn)) (txs_next (c_tx cn)) head') ->
  rxs_wend (c_rx cn) <= wend' < rxs_wend (c_rx cn) + fs_rx_len (get_flow w id) ->
  wend' <= rxs_next (c_rx cn) + fs_rx_len (get_flow w id) ->
  flast_flows_bump w nbh id bump_seq (wend' mod fs_rx_len (get_flow w id)) (head' mod fs_tx_len (get_flow w id)) ts =
    Ok (r, w1) ->
  exists w2, fast_appctx_poll w nbh db ts = Ok (if negb (r =? 0) then 1 else r, w2) /\
    flow_inv id isn irs app peer w2 (bumped cn head' wend') /\ mem_byte (fp_mem w2) (slot + 63) = 0 /\
    fs_rx_len (get_flow w2 id) = fs_rx_len (get_flow w id) /\ fs_tx_len (get_flow w2 id) = fs_tx_len (get_flow w id).
Proof.
  intros I A1 A2 Rg Hid Atx St Hh Hfit Happ Hw1 Hw2 E.
  destruct (bump_effect id isn irs app peer w cn bump_seq head' wend' ts r w1 I Hh Hfit Happ Hw1 Hw2 E) as (I1 & S & M & C).
  rewrite St in I1. rewrite (appctx_poll_reads w db ts slot _ _ bump_seq Rg Hid Atx), E. cbn [obind].
  eexists. split; [reflexivity|]. apply static_inv in S as (Sb & Sl & Stb & Stl & _ & _). split.
  - rewrite <- Sb, <- Sl in A1. rewrite <- Stb, <- Stl in A2.
    apply (flow_inv_mem w1 _ _ slot 64 I1); auto.
    + intros x Hx. apply mem_write_out. cbn. lia.
    + eapply (ctx_kept_tx w1 _ db); [apply (fi_lay _ _ _ _ _ _ _ I1) | reflexivity..].
  - split; [|split; [exact Sl | exact Stl]]. cbn [fp_mem upd eta_fp]. replace (slot + 63) with (slot + 63 + Z.of_nat 0) at 2 by lia.
    apply mem_write_in. reflexivity.
Qed.

(** C6.  What the application freed and handed over reaches the flow: when
    [conns_bump] serves a connection whose library view is linked to the fast
    path's, and the fast path then polls the queue, the flow's window ends a
    buffer's length after the last byte the application has freed, everything
    the application handed over is queued for sending, the entry is free
    again, and the two views are linked.  This needs the application to have
    freed less than a whole buffer since the last update. *)
Theorem update_reaches_flow s ctx c l v w cn db ts :
  let x := fconn s c in
  let fs := get_flow w id in
  let slot := atx_slot (fctx s ctx) (fc_fn_core x) in
  let head := av_sent v mod fs_tx_len fs in
  let wend := av_freed v + fc_rxb_len x in
  bumps_ok s ctx (c :: l) -> txq_ok (fctx s ctx) (fc_fn_core x) -> conn_words x -> AppRep x v ->
  fc_flow_id x = id -> 0 <= id < FLEXNIC_PL_FLOWST_NUM -> mem_byte (l_mem s) (slot + 63) = 0 ->
  fp_mem w = l_mem s -> flow_inv id isn irs app peer w cn -> linked x v fs cn ->
  same_ring (fp_appctx w !!! db) slot ->
  apart slot 64 (rx_base fs) (fs_rx_len fs) -> apart slot 64 (fs_tx_base fs) (fs_tx_len fs) ->
  bump_stale (fc_bump_seq x) (fs_bump_seq fs) = false ->
  tx_holds app (fp_mem w) fs (mk_tx_stream (txs_acked (c_tx cn)) (txs_next (c_tx cn)) (av_sent v)) ->
  av_freed v < av_told v + fc_rxb_len x ->
  Z.of_nat (length (fp_tx w)) < TXBUF_SIZE ->
  (tcp_txavail fs None < tcp_txavail fs (Some head) ->
   exists t, qman_set qfuel (fp_qman w) (fs_qman_qid fs) (fs_tx_rate fs)
               (tcp_txavail fs (Some head) - tcp_txavail fs None) FastPath.TCP_MSS APP_QMAN_FLOW QSET_ADD = Ok (0, t)) ->
  exists s' r w', conns_bump_step s ctx = Some s' /\ bumps_ok s' ctx l /\
    fast_appctx_poll (w <| fp_mem := l_mem s' |>) nbh db ts = Ok (r, w') /\
    flow_inv id isn irs app peer w' (bumped cn (av_sent v) wend) /\
    AppRep (fconn s' c) (v <| av_told := av_freed v |>) /\
    linked (fconn s' c) (v <| av_told := av_freed v |>) (get_flow w' id) (bumped cn (av_sent v) wend) /\
    mem_byte (fp_mem w') (slot + 63) = 0.
Proof.
  intros x fs slot head wend B Q W R Hf Hid Hfree Hmem I [K1 K2 K3 K4 K5 K6] Rg A1 A2 St Happ Hlt Htx Hq.
  pose proof B as B0. destruct W as (W1 & W2 & W3 & W4).
  destruct (conns_bump_step_pops s ctx c l slot B) as (s' & E & B' & M & _ & V & _ & _).
  { unfold flextcp_context_tx_alloc. fold x. fold (atx_slot (fctx s ctx) (fc_fn_core x)). fold slot. rewrite Hfree. reflexivity. }
  fold x in M, V. destruct (atx_connupdate_reads (l_mem s) slot _ _ _ _ W1 W2 W3 W4) as [T1 T2]. rewrite <- M in T1, T2.
  set (w0 := w <| fp_mem := l_mem s' |>).
  assert (I0 : flow_inv id isn irs app peer w0 cn).
  { apply (flow_inv_mem w cn (l_mem s') slot 64 I) with (ctxs := fp_appctx w); auto.
    - intros a Ha. rewrite Hmem. apply T2. lia.
    - split; [apply (fi_lay _ _ _ _ _ _ _ I) | auto]. }
  pose proof R as [HrL HtL Hro Hrf Hto Htf E1 E2 E3 E4 E5 E6].
  assert (Hw : wend mod fs_rx_len fs = fc_rxb_tail x).
  { rewrite K1. unfold wend. replace (av_freed v + fc_rxb_len x) with (av_freed v + 1 * fc_rxb_len x) by lia.
    rewrite Z.mod_add by lia. symmetry. exact E2. }
  assert (Hhd : head = fc_txb_head x) by (unfold head; rewrite K2; symmetry; exact E5).
  assert (Happ0 : tx_holds app (fp_mem w0) (get_flow w0 id)
                    (mk_tx_stream (txs_acked (c_tx cn)) (txs_next (c_tx cn)) (av_sent v))).
  { eapply (tx_holds_mem app (fp_mem w) (fp_mem w0) fs fs); [| apply (fi_tx _ _ _ _ _ _ _ I) | reflexivity | reflexivity |
      | | exact Happ]; [|cbn; lia | reflexivity].
    eapply same_on_apart; [|exact A2]. intros a Ha. rewrite Hmem. apply T2. lia. }
  assert (Hwin : rxs_wend (c_rx cn) <= wend < rxs_wend (c_rx cn) + fs_rx_len (get_flow w0 id) /\
                 wend <= rxs_next (c_rx cn) + fs_rx_len (get_flow w0 id)).
  { change (get_flow w0 id) with fs. rewrite K1, K3. unfold wend. lia. }
  assert (Hfit : av_sent v - txs_acked (c_tx cn) < fs_tx_len (get_flow w0 id)).
  { change (get_flow w0 id) with fs. rewrite K2. lia. }
  assert (G : exists r w1, flast_flows_bump w0 nbh id (fc_bump_seq x) (wend mod fs_rx_len (get_flow w0 id))
                             (av_sent v mod fs_tx_len (get_flow w0 id)) ts = Ok (r, w1)).
  { destruct cn as [[ta tn th] [rn rw ro]]. cbn [c_tx c_rx] in *. txs_cbn. cbn [rxs_wend rxs_next] in *.
    pose proof (flast_flows_bump_rep (nbh := nbh) w0 id (fc_bump_seq x) ts isn irs peer ta tn th rn rw ro (av_sent v) wend) as G.
    cbv zeta in G. destruct G as (w1 & G & _); auto; try apply Hwin; try apply I0. eauto. }
  destruct G as (r & w1 & G).
  destruct (update_consumed w0 cn db ts slot (fc_bump_seq x) (av_sent v) wend r w1 I0 A1 A2) as (w2 & P & I2 & F2 & L2 & L2');
    auto; try apply Hwin.
  { change (get_flow w0 id) with fs. rewrite Hw. fold head. rewrite Hhd, <- Hf. exact T1. }
  eexists s', _, w2. split; [exact E|]. split; [exact B'|]. split; [exact P|]. split; [exact I2|].
  assert (Rs : AppRep (fconn s' c) (v <| av_told := av_freed v |>)).
  { rewrite V, decide_True by reflexivity. split; unfold update_sent; fc_cbn; av_cbn; auto; lia. }
  split; [exact Rs|]. split; [|exact F2].
  change (get_flow w0 id) with fs in L2, L2'. split; rewrite ?L2, ?L2', ?V; rewrite ?decide_True by reflexivity; auto;
    unfold bumped; cbn; auto; lia.
Qed.
End Update.
