(* ===== verification/Config.v ===== *)
(** The command line of the kernel: kernel/config.c and [util_parse_ipv4] of
    utils/utils.c.

    A C string is the list of its bytes, without the terminator.  The names of
    the options and their codes are the table [opts]; [getopt_long] splits the
    command line, so an argument of [config_parse] is the list of options given,
    by their full names, each with its value and whether [calloc] succeeds while
    it is handled. *)
From stdpp Require Import base numbers list strings.
From Stdlib Require Import ZArith Lia Ascii String.
From S2P Require Import Prelude CC PacketMem KernelState.
Open Scope Z_scope.

(** ** Strings of C *)

Definition str (s : string) : list Z := map (fun a => Z.of_nat (nat_of_ascii a)) (list_ascii_of_string s).
Definition isdigit (c : Z) : bool := (48 <=? c) && (c <=? 57).
Definition isspace (c : Z) : bool := (c =? 32) || ((9 <=? c) && (c <=? 13)).
Definition CH_PLUS : Z := 43.
Definition CH_MINUS : Z := 45.
Definition CH_DOT : Z := 46.
Definition CH_SLASH : Z := 47.
Definition CH_COMMA : Z := 44.

Fixpoint skip_spaces (s : list Z) : list Z :=
  match s with c :: t => if isspace c then skip_spaces t else s | [] => [] end.
Fixpoint digits_value (s : list Z) (v : Z) : Z * list Z :=
  match s with
  | c :: t => if isdigit c then digits_value t (v * 10 + (c - 48)) else (v, s)
  | [] => (v, [])
  end.

Definition ULONG_MAX : Z := 18446744073709551615.
(** [strtoul] for base 10: the value, and where the number ends. *)
Definition strtoul (s : list Z) : Z * list Z :=
  let t := skip_spaces s in
  let '(neg, t) := match t with
    | c :: t' => if c =? CH_MINUS then (true, t') else if c =? CH_PLUS then (false, t') else (false, t)
    | [] => (false, t)
    end in
  match t with
  | c :: _ =>
      if isdigit c then
        let '(v, rest) := digits_value t 0 in
        (if ULONG_MAX <? v then ULONG_MAX else if neg then u64 (- v) else v, rest)
      else (0, s)
  | [] => (0, s)
  end.

(** [strchr] and [strrchr]: what is in front of the character and behind it. *)
Fixpoint strchr (s : list Z) (ch : Z) : option (list Z * list Z) :=
  match s with
  | [] => None
  | c :: t =>
      if c =? ch then Some ([], t)
      else match strchr t ch with Some (a, b) => Some (c :: a, b) | None => None end
  end.
Fixpoint strrchr (s : list Z) (ch : Z) : option (list Z * list Z) :=
  match s with
  | [] => None
  | c :: t =>
      match strrchr t ch with
      | Some (a, b) => Some (c :: a, b)
      | None => if c =? ch then Some ([], t) else None
      end
  end.

(** [inet_pton] for AF_INET: [octets] are the finished ones, latest first,
    [cur] the one being read, if it has a digit. *)
Fixpoint inet_pton (s : list Z) (octets : list Z) (cur : option Z) : option (list Z) :=
  match s with
  | [] => match cur with
          | Some o => if Nat.eqb (List.length octets) 3 then Some (rev (o :: octets)) else None
          | None => None
          end
  | c :: t =>
      if isdigit c then
        match cur with
        | Some o =>
            if o =? 0 then None
            else if 255 <? o * 10 + (c - 48) then None else inet_pton t octets (Some (o * 10 + (c - 48)))
        | None => inet_pton t octets (Some (c - 48))
        end
      else if c =? CH_DOT then
        match cur with
        | Some o => if Nat.eqb (List.length octets) 3 then None else inet_pton t (o :: octets) None
        | None => None
        end
      else None
  end.

(** The address in the byte order of the host. *)
Definition util_parse_ipv4 (s : list Z) : option Z :=
  match inet_pton s [] None with
  | Some os => Some (foldl (fun v o => v * 256 + o) 0 os)
  | None => None
  end.

(** ** The configuration *)

Record configuration := mk_configuration
  { g_nic_rx_len : Z; g_nic_tx_len : Z; g_app_kin_len : Z; g_app_kout_len : Z;
    g_tcp_rxbuf_len : Z; g_tcp_txbuf_len : Z; g_tcp_rtt_init : Z; g_tcp_link_bw : Z;
    g_tcp_handshake_to : Z; g_tcp_handshake_retries : Z; g_ip : Z; g_ip_prefix : Z;
    g_routes : list (Z * Z * Z); g_arp_to : Z; g_arp_to_max : Z; g_cc_algorithm : config_cc_algorithm;
    g_cc_control_granularity : Z; g_cc_control_interval : Z; g_cc_rexmit_ints : Z;
    g_cc_dctcp_weight : Z; g_cc_dctcp_init : Z; g_cc_dctcp_step : Z; g_cc_dctcp_mimd : Z;
    g_cc_dctcp_min : Z; g_cc_dctcp_minpkts : Z; g_cc_const_rate : Z;
    g_cc_timely_tlow : Z; g_cc_timely_thigh : Z; g_cc_timely_step : Z; g_cc_timely_init : Z;
    g_cc_timely_alpha : Z; g_cc_timely_beta : Z; g_cc_timely_min_rtt : Z; g_cc_timely_min_rate : Z }.
#[export] Instance eta_configuration : Eta configuration := fun c => mk_configuration
  (g_nic_rx_len c) (g_nic_tx_len c) (g_app_kin_len c) (g_app_kout_len c) (g_tcp_rxbuf_len c)
  (g_tcp_txbuf_len c) (g_tcp_rtt_init c) (g_tcp_link_bw c) (g_tcp_handshake_to c)
  (g_tcp_handshake_retries c) (g_ip c) (g_ip_prefix c) (g_routes c) (g_arp_to c) (g_arp_to_max c)
  (g_cc_algorithm c) (g_cc_control_granularity c) (g_cc_control_interval c) (g_cc_rexmit_ints c)
  (g_cc_dctcp_weight c) (g_cc_dctcp_init c) (g_cc_dctcp_step c) (g_cc_dctcp_mimd c) (g_cc_dctcp_min c)
  (g_cc_dctcp_minpkts c) (g_cc_const_rate c) (g_cc_timely_tlow c) (g_cc_timely_thigh c)
  (g_cc_timely_step c) (g_cc_timely_init c) (g_cc_timely_alpha c) (g_cc_timely_beta c)
  (g_cc_timely_min_rtt c) (g_cc_timely_min_rate c).

(** The address, its prefix length and the routes keep their value, apart from
    the address itself. *)
Definition config_defaults (c : configuration) : configuration :=
  mk_configuration (16 * 1024) (16 * 1024) (1024 * 1024) (1024 * 1024) (1024 * 1024) (1024 * 1024) 50 10 10000 10
    0 (g_ip_prefix c) (g_routes c) 500 1000000 CONFIG_CC_DCTCP_RATE 50 2 4 (UINT32_MAX / 16) 10000 10000 0 0 50 0
    30 150 10000 10000 (2 * UINT32_MAX / 100) (8 * UINT32_MAX / 10) 11 10000.

(** The parameters the model of the kernel uses. *)
Definition kernel_config (c : configuration) : kconfig :=
  mk_kconfig (g_tcp_rxbuf_len c) (g_tcp_txbuf_len c) (g_tcp_handshake_to c) (g_tcp_handshake_retries c)
    (g_ip c) (g_ip_prefix c) (g_routes c) (g_arp_to c) (g_arp_to_max c)
    (mk_cc_config (g_cc_algorithm c) (g_tcp_rtt_init c) (g_tcp_link_bw c) (g_cc_control_granularity c)
       (g_cc_control_interval c) (g_cc_rexmit_ints c) (g_cc_dctcp_weight c) (g_cc_dctcp_init c)
       (g_cc_dctcp_step c) (g_cc_dctcp_mimd c) (g_cc_dctcp_min c) (g_cc_dctcp_minpkts c) (g_cc_const_rate c)
       (g_cc_timely_tlow c) (g_cc_timely_thigh c) (g_cc_timely_step c) (g_cc_timely_init c)
       (g_cc_timely_alpha c) (g_cc_timely_beta c) (g_cc_timely_min_rtt c) (g_cc_timely_min_rate c)).

(** ** Values *)

(** What is stored, and whether the call returns 0. *)
Definition parse_int (width : Z -> Z) (s : list Z) : Z * bool :=
  let '(v, rest) := strtoul s in (width v, negb (bool_decide (s = [])) && bool_decide (rest = [])).
Definition parse_int64 : list Z -> Z * bool := parse_int u64.
Definition parse_int32 : list Z -> Z * bool := parse_int u32.
Definition parse_int8 : list Z -> Z * bool := parse_int u8.

(** The address and the prefix length that are stored, and success. *)
Definition parse_cidr (s : list Z) (ip prefix : Z) : Z * Z * bool :=
  let '(s, prefix, ok) := match strrchr s CH_SLASH with
    | Some (a, b) => let '(p, ok) := parse_int8 b in (a, p, ok)
    | None => (s, prefix, true)
    end in
  if negb ok then (ip, prefix, false)
  else match util_parse_ipv4 s with Some i => (i, prefix, true) | None => (ip, prefix, false) end.

(** The entry for the end of the list of routes. *)
Definition parse_route (s : list Z) (alloc : bool) : option (Z * Z * Z) :=
  if negb alloc then None
  else
    match strchr s CH_COMMA with
    | None => None
    | Some (dest, hop) =>
        let '(ip, prefix, ok) := parse_cidr dest 0 32 in
        if negb ok then None
        else match util_parse_ipv4 hop with Some h => Some (ip, prefix, h) | None => None end
    end.

(** ** Options *)

Inductive cfg_params :=
| CP_NIC_RX_LEN | CP_NIC_TX_LEN | CP_APP_KIN_LEN | CP_APP_KOUT_LEN | CP_ARP_TO | CP_ARP_TO_MAX
| CP_TCP_RTT_INIT | CP_TCP_LINK_BW | CP_TCP_RXBUF_LEN | CP_TCP_TXBUF_LEN | CP_TCP_HANDSHAKE_TO
| CP_TCP_HANDSHAKE_RETRIES | CP_CC | CP_CC_CONTROL_GRANULARITY | CP_CC_CONTROL_INTERVAL | CP_CC_REXMIT_INTS
| CP_CC_DCTCP_WEIGHT | CP_CC_DCTCP_INIT | CP_CC_DCTCP_STEP | CP_CC_DCTCP_MIMD | CP_CC_DCTCP_MIN
| CP_CC_DCTCP_MINPKTS | CP_CC_CONST_RATE | CP_CC_TIMELY_TLOW | CP_CC_TIMELY_THIGH | CP_CC_TIMELY_STEP
| CP_CC_TIMELY_INIT | CP_CC_TIMELY_ALPHA | CP_CC_TIMELY_BETA | CP_CC_TIMELY_MINRTT | CP_CC_TIMELY_MINRATE
| CP_IP_ROUTE | CP_IP_ADDR.

Definition opts : list (string * cfg_params) :=
  [("nic-rx-len", CP_NIC_RX_LEN); ("nic-tx-len", CP_NIC_TX_LEN); ("app-kin-len", CP_APP_KIN_LEN);
   ("app-kout-len", CP_APP_KOUT_LEN); ("arp-timout", CP_ARP_TO); ("arp-timeout-max", CP_ARP_TO);
   ("tcp-rtt-init", CP_TCP_RTT_INIT); ("tcp-link-bw", CP_TCP_LINK_BW); ("tcp-rxbuf-len", CP_TCP_RXBUF_LEN);
   ("tcp-txbuf-len", CP_TCP_TXBUF_LEN); ("tcp-handshake-timeout", CP_TCP_HANDSHAKE_TO);
   ("tcp-handshake-retries", CP_TCP_HANDSHAKE_RETRIES); ("cc", CP_CC);
   ("cc-control-granularity", CP_CC_CONTROL_GRANULARITY); ("cc-control-interval", CP_CC_CONTROL_INTERVAL);
   ("cc-rexmit-ints", CP_CC_REXMIT_INTS); ("cc-dctcp-weight", CP_CC_DCTCP_WEIGHT);
   ("cc-dctcp-init", CP_CC_DCTCP_INIT); ("cc-dctcp-step", CP_CC_DCTCP_STEP); ("cc-dctcp-mimd", CP_CC_DCTCP_MIMD);
   ("cc-dctcp-min", CP_CC_DCTCP_MIN); ("cc-dctcp-minpkts", CP_CC_DCTCP_MINPKTS);
   ("cc-const-rate", CP_CC_CONST_RATE); ("cc-timely-tlow", CP_CC_TIMELY_TLOW);
   ("cc-timely-thigh", CP_CC_TIMELY_THIGH); ("cc-timely-step", CP_CC_TIMELY_STEP);
   ("cc-timely-init", CP_CC_TIMELY_INIT); ("cc-timely-alpha", CP_CC_TIMELY_ALPHA);
   ("cc-timely-beta", CP_CC_TIMELY_BETA); ("cc-timely-minrtt", CP_CC_TIMELY_MINRTT);
   ("cc-timely-minrate", CP_CC_TIMELY_MINRATE); ("ip-route", CP_IP_ROUTE); ("ip-addr", CP_IP_ADDR)]%string.

Fixpoint opt_val (l : list (string * cfg_params)) (name : string) : option cfg_params :=
  match l with [] => None | (n, v) :: l => if String.eqb n name then Some v else opt_val l name end.

Section Parse.
(** [parse_double] with the check of the range and the scaling that follow it:
    [UINT32_MAX * d] for d in [0, 1], and [UINT32_MAX * (d - 1)] for d in [1, 2]. *)
Context (fraction factor : list Z -> option Z).

(** Store a value, and fail after that where the parser says so. *)
Definition store (v : Z * bool) (f : Z -> configuration) : configuration * bool := (f v.1, v.2).
Definition store_fraction (v : option Z) (c : configuration) (f : Z -> configuration) : configuration * bool :=
  match v with Some x => (f x, true) | None => (c, false) end.

Definition parse_cc (s : list Z) : option config_cc_algorithm :=
  if bool_decide (s = str "dctcp-win") then Some CONFIG_CC_DCTCP_WIN
  else if bool_decide (s = str "dctcp-rate") then Some CONFIG_CC_DCTCP_RATE
  else if bool_decide (s = str "const-rate") then Some CONFIG_CC_CONST_RATE
  else if bool_decide (s = str "timely") then Some CONFIG_CC_TIMELY
  else None.

(** One case of the switch; false is the jump to [failed]. *)
Definition config_option (c : configuration) (o : cfg_params) (arg : list Z) (alloc : bool) : configuration * bool :=
  match o with
  | CP_NIC_RX_LEN => store (parse_int64 arg) (fun v => c <| g_nic_rx_len := v |>)
  | CP_NIC_TX_LEN => store (parse_int64 arg) (fun v => c <| g_nic_tx_len := v |>)
  | CP_APP_KIN_LEN => store (parse_int64 arg) (fun v => c <| g_app_kin_len := v |>)
  | CP_APP_KOUT_LEN => store (parse_int64 arg) (fun v => c <| g_app_kout_len := v |>)
  | CP_ARP_TO => store (parse_int32 arg) (fun v => c <| g_arp_to := v |>)
  | CP_ARP_TO_MAX => store (parse_int32 arg) (fun v => c <| g_arp_to_max := v |>)
  | CP_TCP_RTT_INIT => store (parse_int32 arg) (fun v => c <| g_tcp_rtt_init := v |>)
  | CP_TCP_LINK_BW => store (parse_int32 arg) (fun v => c <| g_tcp_link_bw := v |>)
  | CP_TCP_RXBUF_LEN => store (parse_int64 arg) (fun v => c <| g_tcp_rxbuf_len := v |>)
  | CP_TCP_TXBUF_LEN => store (parse_int64 arg) (fun v => c <| g_tcp_txbuf_len := v |>)
  | CP_TCP_HANDSHAKE_TO => store (parse_int32 arg) (fun v => c <| g_tcp_handshake_to := v |>)
  | CP_TCP_HANDSHAKE_RETRIES => store (parse_int32 arg) (fun v => c <| g_tcp_handshake_retries := v |>)
  | CP_CC => match parse_cc arg with Some a => (c <| g_cc_algorithm := a |>, true) | None => (c, false) end
  | CP_CC_CONTROL_GRANULARITY => store (parse_int32 arg) (fun v => c <| g_cc_control_granularity := v |>)
  | CP_CC_CONTROL_INTERVAL => store (parse_int32 arg) (fun v => c <| g_cc_control_interval := v |>)
  | CP_CC_REXMIT_INTS => store (parse_int32 arg) (fun v => c <| g_cc_rexmit_ints := v |>)
  | CP_CC_DCTCP_WEIGHT => store_fraction (fraction arg) c (fun v => c <| g_cc_dctcp_weight := v |>)
  | CP_CC_DCTCP_INIT => store (parse_int32 arg) (fun v => c <| g_cc_dctcp_init := v |>)
  | CP_CC_DCTCP_STEP => store (parse_int32 arg) (fun v => c <| g_cc_dctcp_step := v |>)
  | CP_CC_DCTCP_MIMD => store_fraction (factor arg) c (fun v => c <| g_cc_dctcp_mimd := v |>)
  | CP_CC_DCTCP_MIN => store (parse_int32 arg) (fun v => c <| g_cc_dctcp_min := v |>)
  | CP_CC_DCTCP_MINPKTS => store (parse_int32 arg) (fun v => c <| g_cc_dctcp_minpkts := v |>)
  | CP_CC_CONST_RATE => store (parse_int32 arg) (fun v => c <| g_cc_const_rate := v |>)
  | CP_CC_TIMELY_TLOW => store (parse_int32 arg) (fun v => c <| g_cc_timely_tlow := v |>)
  | CP_CC_TIMELY_THIGH => store (parse_int32 arg) (fun v => c <| g_cc_timely_thigh := v |>)
  | CP_CC_TIMELY_STEP => store (parse_int32 arg) (fun v => c <| g_cc_timely_step := v |>)
  | CP_CC_TIMELY_INIT => store (parse_int32 arg) (fun v => c <| g_cc_timely_init := v |>)
  | CP_CC_TIMELY_ALPHA => store_fraction (fraction arg) c (fun v => c <| g_cc_timely_alpha := v |>)
  | CP_CC_TIMELY_BETA => store_fraction (fraction arg) c (fun v => c <| g_cc_timely_beta := v |>)
  | CP_CC_TIMELY_MINRTT => store (parse_int32 arg) (fun v => c <| g_cc_timely_min_rtt := v |>)
  | CP_CC_TIMELY_MINRATE => store (parse_int32 arg) (fun v => c <| g_cc_timely_min_rate := v |>)
  | CP_IP_ROUTE =>
      match parse_route arg alloc with
      | Some r => (c <| g_routes := g_routes c ++ [r] |>, true)
      | None => (c, false)
      end
  | CP_IP_ADDR =>
      let '(ip, prefix, ok) := parse_cidr arg (g_ip c) 0 in (c <| g_ip := ip |> <| g_ip_prefix := prefix |>, ok)
  end.

(** An unknown name is the result '?' of [getopt_long]. *)
Fixpoint config_loop (c : configuration) (args : list (string * list Z * bool)) : configuration * bool :=
  match args with
  | [] => (c, true)
  | (name, arg, alloc) :: args =>
      match opt_val opts name with
      | None => (c, false)
      | Some o =>
          let '(c, ok) := config_option c o arg alloc in
          if ok then config_loop c args else (c, false)
      end
  end.

(** [operands]: there are arguments that are not options ([optind != argc]).
    A missing address is reported, but not a failure. *)
Definition config_parse (c : configuration) (args : list (string * list Z * bool)) (operands : bool) : configuration * Z :=
  let '(c, ok) := config_loop (config_defaults c) args in
  if negb ok || operands then (config_defaults c, -1) else (c, 0).
End Parse.
