(* ===== verification/ConfigParse.v ===== *)
(** What the kernel's parsers of kernel/config.c accept: numbers, addresses,
    prefixes, routes, and a whole command line against the configuration it was
    printed from. *)
From stdpp Require Import base numbers list strings.
From Stdlib Require Import ZArith Lia Ascii String.
From S2P Require Import Prelude CC PacketMem KernelState Config.
Open Scope Z_scope.

(** ** Decimal numbers *)

Fixpoint dec_digits (f : nat) (n : Z) : list Z :=
  match f with
  | O => []
  | S f => if n <? 10 then [48 + n] else dec_digits f (n / 10) ++ [48 + n mod 10]
  end.
Definition dec (n : Z) : list Z := dec_digits 20 n.

Definition digit (c : Z) : Prop := 48 <= c <= 57.
Lemma digit_isdigit c : digit c -> isdigit c = true.
Proof. unfold digit, isdigit. intros. bsplit; lia. Qed.
Lemma isdigit_digit c : isdigit c = true -> digit c.
Proof. unfold digit, isdigit. bsplit; intros; lia. Qed.

Lemma dec_digits_spec f : forall n, 0 <= n < 10 ^ Z.of_nat (S f) ->
  Forall digit (dec_digits (S f) n) /\ (exists c t, dec_digits (S f) n = c :: t) /\
  foldl (fun v c => v * 10 + (c - 48)) 0 (dec_digits (S f) n) = n.
Proof.
  induction f as [|f IH]; intros n Hn.
  - change (10 ^ Z.of_nat 1) with 10 in Hn. cbn [dec_digits]. destruct (Z.ltb_spec n 10); [|lia].
    split_and!; [repeat constructor; lia|eauto|cbn; lia].
  - remember (S f) as g. cbn [dec_digits]. destruct (Z.ltb_spec n 10).
    { split_and!; [repeat constructor; lia|eauto|cbn; lia]. }
    rewrite Nat2Z.inj_succ, Z.pow_succ_r in Hn by lia.
    destruct (IH (n / 10)) as (F & (c & t & E) & V).
    { split; [apply Z.div_pos; lia|]. apply Z.div_lt_upper_bound; lia. }
    split_and!.
    + apply Forall_app. split; [exact F|]. repeat constructor; pose proof (Z.mod_pos_bound n 10); lia.
    + rewrite E. cbn. eauto.
    + rewrite foldl_app, V. cbn. pose proof (Z.div_mod n 10). lia.
Qed.

Lemma dec_spec n : 0 <= n <= ULONG_MAX -> Forall digit (dec n) /\ (exists c t, dec n = c :: t) /\
  foldl (fun v c => v * 10 + (c - 48)) 0 (dec n) = n.
Proof. intros Hn. apply (dec_digits_spec 19). unfold ULONG_MAX in Hn. change (10 ^ Z.of_nat 20) with 100000000000000000000. lia. Qed.

Lemma digits_value_app a t v : Forall digit a ->
  digits_value (a ++ t) v = digits_value t (foldl (fun v c => v * 10 + (c - 48)) v a).
Proof.
  intros F. revert v. induction F as [|c a D F IH]; intros v; [reflexivity|]. cbn.
  rewrite (digit_isdigit c D). apply IH.
Qed.

Lemma strtoul_dec n : 0 <= n <= ULONG_MAX -> strtoul (dec n) = (n, []).
Proof.
  intros Hn. destruct (dec_spec n Hn) as (F & (c & t & E) & V). unfold strtoul.
  assert (D : digit c) by (rewrite E in F; now apply Forall_cons in F as [D _]). unfold digit in D.
  assert (Sk : skip_spaces (dec n) = dec n).
  { rewrite E. cbn. replace (isspace c) with false; [reflexivity|]. unfold isspace. bsplit; lia. }
  rewrite Sk. pose proof (digits_value_app (dec n) [] 0 F) as A. rewrite app_nil_r, V in A. rewrite E in *.
  unfold CH_MINUS, CH_PLUS. destruct (Z.eqb_spec c 45); [lia|]. destruct (Z.eqb_spec c 43); [lia|].
  rewrite (digit_isdigit c) by exact D. rewrite A. cbn [digits_value].
  destruct (Z.ltb_spec ULONG_MAX n); [lia|reflexivity].
Qed.

Lemma parse_int_dec w n : 0 <= n <= ULONG_MAX -> parse_int w (dec n) = (w n, true).
Proof.
  intros Hn. unfold parse_int. rewrite (strtoul_dec n Hn). f_equal. destruct (dec_spec n Hn) as (_ & (c & t & E) & _).
  rewrite E. rewrite bool_decide_false by discriminate. reflexivity.
Qed.

(** ** Addresses *)

Fixpoint join (os : list Z) : list Z :=
  match os with
  | [] => []
  | o :: l => match l with [] => dec o | _ => dec o ++ CH_DOT :: join l end
  end.
Definition print_ipv4 (ip : Z) : list Z := join [ip / 2 ^ 24; ip / 2 ^ 16 mod 256; ip / 2 ^ 8 mod 256; ip mod 256].

Definition octet (o : Z) : Prop := 0 <= o < 256.

Lemma dec_small d : 0 <= d < 10 -> dec d = [48 + d].
Proof. intros. unfold dec. cbn [dec_digits]. destruct (Z.ltb_spec d 10); [reflexivity|lia]. Qed.
Lemma dec_digits_more f n : 0 <= n < 10 ^ Z.of_nat (S f) -> dec_digits (S (S f)) n = dec_digits (S f) n.
Proof.
  revert n. induction f as [|f IH]; intros n Hn.
  - change (10 ^ Z.of_nat 1) with 10 in Hn. cbn [dec_digits]. destruct (Z.ltb_spec n 10); [reflexivity|lia].
  - remember (S f) as g. rewrite Nat2Z.inj_succ, Z.pow_succ_r in Hn by lia.
    change (dec_digits (S (S g)) n) with (if n <? 10 then [48 + n] else dec_digits (S g) (n / 10) ++ [48 + n mod 10]).
    change (dec_digits (S g) n) with (if n <? 10 then [48 + n] else dec_digits g (n / 10) ++ [48 + n mod 10]).
    destruct (Z.ltb_spec n 10); [reflexivity|]. subst g. rewrite IH; [reflexivity|].
    split; [apply Z.div_pos; lia|]. apply Z.div_lt_upper_bound; lia.
Qed.
Lemma dec_snoc o d : 0 < o < 256 -> 0 <= d < 10 -> dec (o * 10 + d) = dec o ++ [48 + d].
Proof.
  intros Ho Hd. unfold dec. change 20%nat with (S 19) at 1.
  change (dec_digits (S 19) (o * 10 + d)) with
    (if o * 10 + d <? 10 then [48 + (o * 10 + d)] else dec_digits 19 ((o * 10 + d) / 10) ++ [48 + (o * 10 + d) mod 10]).
  destruct (Z.ltb_spec (o * 10 + d) 10); [lia|].
  rewrite Z.div_add_l, Z.div_small, Z.add_0_r by lia.
  assert (M : (o * 10 + d) mod 10 = d) by (symmetry; apply (Z.mod_unique_pos _ _ o); lia). rewrite M.
  apply (f_equal (fun l => l ++ [48 + d])). symmetry. apply (dec_digits_more 18). change (10 ^ Z.of_nat 19) with 10000000000000000000. lia.
Qed.

(** Reading the digits of one octet. *)
Lemma inet_pton_octet o t octets : octet o -> inet_pton (dec o ++ t) octets None = inet_pton t octets (Some o).
Proof.
  unfold octet. intros Ho.
  assert (D1 : forall d t, 0 <= d < 10 -> inet_pton ([48 + d] ++ t) octets None = inet_pton t octets (Some d)).
  { intros d u Hd. cbn [app inet_pton]. rewrite (digit_isdigit (48 + d)) by (unfold digit; lia). do 2 f_equal. lia. }
  assert (D2 : forall p d t, 0 < p -> 0 <= d < 10 -> p * 10 + d < 256 ->
     inet_pton ([48 + d] ++ t) octets (Some p) = inet_pton t octets (Some (p * 10 + d))).
  { intros p d u Hp Hd L. cbn [app inet_pton]. rewrite (digit_isdigit (48 + d)) by (unfold digit; lia).
    destruct (Z.eqb_spec p 0); [lia|]. replace (p * 10 + (48 + d - 48)) with (p * 10 + d) by lia.
    destruct (Z.ltb_spec 255 (p * 10 + d)); [lia|reflexivity]. }
  pose proof (Z.div_mod o 10 ltac:(lia)). pose proof (Z.mod_pos_bound o 10 ltac:(lia)).
  destruct (Z.ltb_spec o 10); [rewrite dec_small by lia; apply D1; lia|].
  assert (S1 : dec o = dec (o / 10) ++ [48 + o mod 10]) by (rewrite <- dec_snoc by lia; f_equal; lia).
  rewrite S1, <- app_assoc. set (q := o / 10) in *. pose proof (Z.div_mod q 10 ltac:(lia)). pose proof (Z.mod_pos_bound q 10 ltac:(lia)).
  destruct (Z.ltb_spec q 10).
  - rewrite dec_small, D1, D2 by lia. do 2 f_equal. lia.
  - assert (S2 : dec q = dec (q / 10) ++ [48 + q mod 10]) by (rewrite <- dec_snoc by lia; f_equal; lia).
    rewrite S2, <- app_assoc, dec_small, D1, !D2 by lia. do 2 f_equal. lia.
Qed.

Lemma inet_pton_join os : forall octets, os <> [] -> Forall octet os -> (List.length octets + List.length os = 4)%nat ->
  inet_pton (join os) octets None = Some (rev octets ++ os).
Proof.
  induction os as [|o os IH]; intros octets N F L; [congruence|]. apply Forall_cons in F as [Ho F].
  destruct os as [|o' os].
  - cbn [join]. rewrite <- (app_nil_r (dec o)), inet_pton_octet by exact Ho. cbn in L |- *.
    destruct (Nat.eqb_spec (List.length octets) 3); [reflexivity|lia].
  - change (join (o :: o' :: os)) with (dec o ++ CH_DOT :: join (o' :: os)). rewrite inet_pton_octet by exact Ho.
    cbn [inet_pton]. change (isdigit CH_DOT) with false. change (CH_DOT =? CH_DOT) with true. cbn [List.length] in L.
    destruct (Nat.eqb_spec (List.length octets) 3); [lia|]. rewrite IH; [|discriminate|exact F|cbn; lia].
    cbn. now rewrite <- app_assoc.
Qed.

(** Conversely, what is read is printed like this. *)
Lemma inet_pton_sound s : forall octets cur os, inet_pton s octets cur = Some os ->
  (forall o, cur = Some o -> octet o) ->
  exists rest, rest <> [] /\ os = rev octets ++ rest /\ Forall octet rest /\ List.length os = 4%nat /\
    match cur with Some o => dec o ++ s | None => s end = join rest.
Proof.
  unfold octet. induction s as [|c s IH]; intros octets cur os E Hc; cbn [inet_pton] in E.
  - destruct cur as [o|]; [|discriminate]. destruct (Nat.eqb_spec (List.length octets) 3) as [L|]; [|discriminate].
    injection E as <-. exists [o]. cbn [rev]. split_and!; [discriminate|reflexivity|constructor; [auto|constructor]| |apply app_nil_r].
    rewrite length_app, length_rev. cbn. lia.
  - destruct (isdigit c) eqn:Dc.
    + apply isdigit_digit in Dc. unfold digit in Dc. destruct cur as [o|].
      * destruct (Z.eqb_spec o 0) as [|N0]; [discriminate|]. destruct (Z.ltb_spec 255 (o * 10 + (c - 48))) as [|L]; [discriminate|].
        specialize (Hc o eq_refl).
        destruct (IH _ _ _ E) as (rest & N & Eo & F & Ln & J); [intros ? [= <-]; lia|]. exists rest. split_and!; auto.
        rewrite dec_snoc, <- app_assoc in J by lia. replace (48 + (c - 48)) with c in J by lia. exact J.
      * destruct (IH _ _ _ E) as (rest & N & Eo & F & Ln & J); [intros ? [= <-]; lia|]. exists rest. split_and!; auto.
        rewrite dec_small in J by lia. replace (48 + (c - 48)) with c in J by lia. exact J.
    + destruct (Z.eqb_spec c CH_DOT) as [->|]; [|discriminate]. destruct cur as [o|]; [|discriminate].
      destruct (Nat.eqb_spec (List.length octets) 3); [discriminate|].
      destruct (IH _ _ _ E) as (rest & N & Eo & F & Ln & J); [discriminate|]. exists (o :: rest).
      cbn [rev] in Eo. rewrite <- app_assoc in Eo. split_and!; [discriminate|exact Eo|constructor; [apply Hc; reflexivity|exact F]|exact Ln|].
      rewrite J. destruct rest; [congruence|reflexivity].
Qed.

Definition ipv4_value (os : list Z) : Z := foldl (fun v o => v * 256 + o) 0 os.

Lemma octets_of_value a b c d : octet a -> octet b -> octet c -> octet d ->
  let ip := ipv4_value [a; b; c; d] in
  0 <= ip < 2 ^ 32 /\ [ip / 2 ^ 24; ip / 2 ^ 16 mod 256; ip / 2 ^ 8 mod 256; ip mod 256] = [a; b; c; d].
Proof.
  unfold octet, ipv4_value. cbn [foldl]. intros. set (ip := (((0 * 256 + a) * 256 + b) * 256 + c) * 256 + d).
  assert (E : ip = 16777216 * a + 65536 * b + 256 * c + d) by (unfold ip; lia). clearbody ip.
  change (2 ^ 32) with 4294967296. change (2 ^ 24) with 16777216. change (2 ^ 16) with 65536. change (2 ^ 8) with 256.
  split; [lia|].
  rewrite <- (Z.div_unique_pos ip 16777216 a (65536 * b + 256 * c + d)) by lia.
  rewrite <- (Z.div_unique_pos ip 65536 (256 * a + b) (256 * c + d)) by lia.
  rewrite <- (Z.div_unique_pos ip 256 (65536 * a + 256 * b + c) d) by lia.
  rewrite <- (Z.mod_unique_pos (256 * a + b) 256 a b) by lia.
  rewrite <- (Z.mod_unique_pos (65536 * a + 256 * b + c) 256 (256 * a + b) c) by lia.
  rewrite <- (Z.mod_unique_pos ip 256 (65536 * a + 256 * b + c) d) by lia. reflexivity.
Qed.

Lemma value_of_octets ip : 0 <= ip < 2 ^ 32 ->
  let os := [ip / 2 ^ 24; ip / 2 ^ 16 mod 256; ip / 2 ^ 8 mod 256; ip mod 256] in Forall octet os /\ ipv4_value os = ip.
Proof.
  change (2 ^ 32) with 4294967296. change (2 ^ 24) with (256 * (256 * 256)). change (2 ^ 16) with (256 * 256). change (2 ^ 8) with 256.
  intros L. cbv zeta. rewrite <- !Z.div_div by lia. unfold ipv4_value. cbn [foldl].
  pose proof (Z.div_mod ip 256 ltac:(lia)). pose proof (Z.mod_pos_bound ip 256 ltac:(lia)). set (q := ip / 256) in *.
  pose proof (Z.div_mod q 256 ltac:(lia)). pose proof (Z.mod_pos_bound q 256 ltac:(lia)). set (p := q / 256) in *.
  pose proof (Z.div_mod p 256 ltac:(lia)). pose proof (Z.mod_pos_bound p 256 ltac:(lia)). unfold octet.
  split; [repeat constructor; lia|lia].
Qed.

(** An address is read exactly when it is four decimal numbers below 256
    with dots between them and no superfluous zeros, and then as the number these
    octets make, most significant first. *)
Lemma parse_ipv4_iff s ip : util_parse_ipv4 s = Some ip <-> 0 <= ip < 2 ^ 32 /\ s = print_ipv4 ip.
Proof.
  unfold util_parse_ipv4, print_ipv4. split.
  - intros E. destruct (inet_pton s [] None) as [os|] eqn:Eo; [|discriminate]. injection E as <-.
    destruct (inet_pton_sound s [] None os Eo) as (rest & _ & -> & F & L & ->); [discriminate|]. cbn [rev app] in *.
    destruct rest as [|a [|b [|c [|d [|? ?]]]]]; try discriminate L.
    apply Forall_cons in F as [Fa F]. apply Forall_cons in F as [Fb F]. apply Forall_cons in F as [Fc F]. apply Forall_cons in F as [Fd _].
    destruct (octets_of_value a b c d Fa Fb Fc Fd) as [R Os]. unfold ipv4_value in R, Os. split; [exact R|]. now rewrite Os.
  - intros [R ->]. destruct (value_of_octets ip R) as [F V]. rewrite inet_pton_join; [|discriminate|exact F|reflexivity].
    cbn [rev app]. f_equal. exact V.
Qed.

Lemma parse_ipv4_print ip : 0 <= ip < 2 ^ 32 -> util_parse_ipv4 (print_ipv4 ip) = Some ip.
Proof. intros R. now apply parse_ipv4_iff. Qed.

(** ** Prefixes and routes *)

Lemma dec_digits_chars f n : 0 <= n -> Forall digit (dec_digits f n).
Proof.
  revert n. induction f as [|f IH]; intros n Hn; cbn [dec_digits]; [constructor|].
  destruct (Z.ltb_spec n 10); [repeat constructor; lia|]. apply Forall_app. split; [apply IH, Z.div_pos; lia|].
  repeat constructor; pose proof (Z.mod_pos_bound n 10); lia.
Qed.

Definition addr_char (c : Z) : Prop := c = CH_DOT \/ digit c.
Lemma join_chars os : Forall octet os -> Forall addr_char (join os).
Proof.
  assert (D : forall o, octet o -> Forall addr_char (dec o)).
  { intros o [L _]. eapply Forall_impl; [apply dec_digits_chars, L|]. right. assumption. }
  induction 1 as [|o os Ho F IH]; [constructor|]. destruct os as [|o' os]; [apply D, Ho|].
  change (join (o :: o' :: os)) with (dec o ++ CH_DOT :: join (o' :: os)). apply Forall_app. split; [apply D, Ho|].
  constructor; [now left|exact IH].
Qed.
Lemma print_ipv4_chars ip : 0 <= ip < 2 ^ 32 -> Forall addr_char (print_ipv4 ip).
Proof. intros R. apply join_chars. exact (proj1 (value_of_octets ip R)). Qed.

Lemma strchr_app a b ch : Forall (fun c => c <> ch) a -> strchr (a ++ ch :: b) ch = Some (a, b).
Proof.
  induction 1 as [|c a N F IH]; cbn; [now rewrite Z.eqb_refl|]. destruct (Z.eqb_spec c ch); [congruence|]. now rewrite IH.
Qed.
Lemma strrchr_none a ch : Forall (fun c => c <> ch) a -> strrchr a ch = None.
Proof. induction 1 as [|c a N F IH]; cbn; [reflexivity|]. rewrite IH. now destruct (Z.eqb_spec c ch). Qed.
Lemma strrchr_app a b ch : Forall (fun c => c <> ch) b -> strrchr (a ++ ch :: b) ch = Some (a, b).
Proof.
  intros F. induction a as [|c a IH]; cbn; [now rewrite (strrchr_none b ch F), Z.eqb_refl|]. now rewrite IH.
Qed.

Definition print_cidr (ip prefix : Z) : list Z := print_ipv4 ip ++ CH_SLASH :: dec prefix.
Definition print_route (r : Z * Z * Z) : list Z := print_cidr r.1.1 r.1.2 ++ CH_COMMA :: print_ipv4 r.2.

Lemma parse_cidr_print ip prefix ip0 p0 : 0 <= ip < 2 ^ 32 -> 0 <= prefix < 256 ->
  parse_cidr (print_cidr ip prefix) ip0 p0 = (ip, prefix, true).
Proof.
  intros Ri Rp. unfold parse_cidr, print_cidr.
  rewrite strrchr_app by (eapply Forall_impl; [apply dec_digits_chars; lia|]; unfold digit, CH_SLASH; cbn; lia).
  unfold parse_int8. rewrite (parse_int_dec u8 prefix) by (unfold ULONG_MAX; lia). cbn [negb].
  rewrite (parse_ipv4_print ip Ri). unfold u8. now rewrite Z.mod_small by lia.
Qed.

Definition route_ok (r : Z * Z * Z) : Prop := 0 <= r.1.1 < 2 ^ 32 /\ 0 <= r.1.2 < 256 /\ 0 <= r.2 < 2 ^ 32.

Lemma parse_route_print r : route_ok r -> parse_route (print_route r) true = Some r.
Proof.
  destruct r as [[ip p] h]. unfold route_ok. cbn [fst snd]. intros (Ri & Rp & Rh). unfold parse_route, print_route. cbn [negb fst snd].
  rewrite strchr_app.
  - rewrite (parse_cidr_print ip p 0 32 Ri Rp). cbn [negb]. now rewrite (parse_ipv4_print h Rh).
  - unfold print_cidr. apply Forall_app. split.
    + eapply Forall_impl; [apply print_ipv4_chars, Ri|]. unfold addr_char, digit, CH_DOT, CH_COMMA. cbn. lia.
    + constructor; [discriminate|]. eapply Forall_impl; [apply dec_digits_chars; lia|]. unfold digit, CH_COMMA. cbn. lia.
Qed.

(** ** The command line of a configuration *)

Definition cc_name (a : config_cc_algorithm) : list Z :=
  match a with
  | CONFIG_CC_DCTCP_WIN => str "dctcp-win"
  | CONFIG_CC_DCTCP_RATE => str "dctcp-rate"
  | CONFIG_CC_TIMELY => str "timely"
  | CONFIG_CC_CONST_RATE => str "const-rate"
  end.

(** The integers with their options; [arp_to_max] has none that works. *)
Definition int64_options : list (string * (configuration -> Z)) :=
  [("nic-rx-len", g_nic_rx_len); ("nic-tx-len", g_nic_tx_len); ("app-kin-len", g_app_kin_len);
   ("app-kout-len", g_app_kout_len); ("tcp-rxbuf-len", g_tcp_rxbuf_len); ("tcp-txbuf-len", g_tcp_txbuf_len)]%string.
Definition int32_options : list (string * (configuration -> Z)) :=
  [("arp-timout", g_arp_to); ("tcp-rtt-init", g_tcp_rtt_init); ("tcp-link-bw", g_tcp_link_bw);
   ("tcp-handshake-timeout", g_tcp_handshake_to); ("tcp-handshake-retries", g_tcp_handshake_retries);
   ("cc-control-granularity", g_cc_control_granularity); ("cc-control-interval", g_cc_control_interval);
   ("cc-rexmit-ints", g_cc_rexmit_ints); ("cc-dctcp-init", g_cc_dctcp_init); ("cc-dctcp-step", g_cc_dctcp_step);
   ("cc-dctcp-min", g_cc_dctcp_min); ("cc-dctcp-minpkts", g_cc_dctcp_minpkts); ("cc-const-rate", g_cc_const_rate);
   ("cc-timely-tlow", g_cc_timely_tlow); ("cc-timely-thigh", g_cc_timely_thigh); ("cc-timely-step", g_cc_timely_step);
   ("cc-timely-init", g_cc_timely_init); ("cc-timely-minrtt", g_cc_timely_min_rtt);
   ("cc-timely-minrate", g_cc_timely_min_rate)]%string.
Definition int_args (l : list (string * (configuration -> Z))) (c : configuration) : list (string * list Z * bool) :=
  map (fun o => (o.1, dec (o.2 c), true)) l.
(** Texts for the four parameters that are given as floating-point numbers. *)
Record fraction_texts := mk_fraction_texts
  { ft_weight : list Z; ft_mimd : list Z; ft_alpha : list Z; ft_beta : list Z }.
Definition fraction_args (t : fraction_texts) : list (string * list Z * bool) :=
  [("cc-dctcp-weight", ft_weight t, true); ("cc-dctcp-mimd", ft_mimd t, true);
   ("cc-timely-alpha", ft_alpha t, true); ("cc-timely-beta", ft_beta t, true)]%string.
Definition options_of (t : fraction_texts) (c : configuration) : list (string * list Z * bool) :=
  int_args int64_options c ++ int_args int32_options c ++ fraction_args t ++
  [("cc", cc_name (g_cc_algorithm c), true); ("ip-addr", print_cidr (g_ip c) (g_ip_prefix c), true)]%string ++
  map (fun r => ("ip-route"%string, print_route r, true)) (g_routes c).

Section Roundtrip.
Context (fraction factor : list Z -> option Z).

(** Every parameter fits its field, and the texts are ones that the floating-point
    parser reads as the four scaled parameters. *)
Record config_fits (t : fraction_texts) (c : configuration) : Prop := mk_config_fits
  { fits_int64 : Forall (fun o => 0 <= o.2 c < 2 ^ 64) int64_options;
    fits_int32 : Forall (fun o => 0 <= o.2 c < 2 ^ 32) int32_options;
    fits_ip : 0 <= g_ip c < 2 ^ 32 /\ 0 <= g_ip_prefix c < 256;
    fits_routes : Forall route_ok (g_routes c);
    fits_fractions : fraction (ft_weight t) = Some (g_cc_dctcp_weight c) /\
      factor (ft_mimd t) = Some (g_cc_dctcp_mimd c) /\
      fraction (ft_alpha t) = Some (g_cc_timely_alpha c) /\ fraction (ft_beta t) = Some (g_cc_timely_beta c) }.

Lemma parse_cc_name a : parse_cc (cc_name a) = Some a.
Proof. destruct a; reflexivity. Qed.

Lemma config_loop_routes rs : Forall route_ok rs -> forall c,
  config_loop fraction factor c (map (fun r => ("ip-route"%string, print_route r, true)) rs) =
  (c <| g_routes := g_routes c ++ rs |>, true).
Proof.
  induction 1 as [|r rs Hr F IH]; intros c; cbn [map config_loop].
  - rewrite app_nil_r. now destruct c.
  - change (opt_val opts "ip-route") with (Some CP_IP_ROUTE). cbn [config_option]. rewrite (parse_route_print r Hr), IH.
    cbn. now rewrite <- app_assoc.
Qed.

(** One integer option after the other. *)
Lemma config_int c n o arg args v : opt_val opts n = Some o ->
  config_option fraction factor c o arg true = (v, true) ->
  config_loop fraction factor c ((n, arg, true) :: args) = config_loop fraction factor v args.
Proof. intros E1 E2. cbn [config_loop]. now rewrite E1, E2. Qed.

Lemma parse_int64_dec n : 0 <= n < 2 ^ 64 -> parse_int64 (dec n) = (n, true).
Proof. intros R. unfold parse_int64. rewrite parse_int_dec by (unfold ULONG_MAX; lia). unfold u64. now rewrite Z.mod_small by lia. Qed.
Lemma parse_int32_dec n : 0 <= n < 2 ^ 32 -> parse_int32 (dec n) = (n, true).
Proof. intros R. unfold parse_int32. rewrite parse_int_dec by (unfold ULONG_MAX; lia). unfold u32. now rewrite Z.mod_small by lia. Qed.

Ltac int_option parse :=
  erewrite config_int; [|reflexivity|cbn [config_option]; rewrite parse by assumption; reflexivity].

Ltac fraction_option :=
  erewrite config_int;
    [|reflexivity|cbn [config_option]; match goal with H : _ = Some _ |- _ => rewrite H; clear H end; reflexivity].

(** No option stores into [arp_to_max]: the table gives both names of ARP timeouts the
    value of the first one. *)
Lemma opts_no_arp_to_max n : opt_val opts n <> Some CP_ARP_TO_MAX.
Proof.
  assert (N : forall l, Forall (fun e => e.2 <> CP_ARP_TO_MAX) l -> opt_val l n <> Some CP_ARP_TO_MAX).
  { induction 1 as [|[m v] l Hv F IH]; cbn; [discriminate|]. destruct (String.eqb m n); [|exact IH]. intros [= E]; exact (Hv E). }
  apply N. repeat constructor; discriminate.
Qed.

Lemma config_option_arp_to_max c o arg alloc : o <> CP_ARP_TO_MAX ->
  g_arp_to_max (config_option fraction factor c o arg alloc).1 = g_arp_to_max c.
Proof.
  intros N. destruct o; try congruence; cbn [config_option]; unfold store, store_fraction;
    repeat match goal with
      | |- context [match ?x with _ => _ end] => destruct x
      end; reflexivity.
Qed.

Lemma config_loop_arp_to_max args : forall c,
  g_arp_to_max (config_loop fraction factor c args).1 = g_arp_to_max c.
Proof.
  induction args as [|[[n arg] alloc] args IH]; intros c; cbn [config_loop]; [reflexivity|].
  pose proof (opts_no_arp_to_max n) as N. destruct (opt_val opts n) as [o|]; [|reflexivity].
  pose proof (config_option_arp_to_max c o arg alloc ltac:(congruence)) as K.
  destruct (config_option fraction factor c o arg alloc) as [c' ok]. cbn [fst] in K. destruct ok; [|exact K].
  now rewrite IH.
Qed.

(** C38. The command line printed from a configuration, whose integers fit the fields
    of the struct, is parsed into a struct without routes as exactly that configuration,
    its routes in their order included, but for the maximal ARP timeout: that one keeps
    its default, whatever the command line, because the table of options gives
    arp-timeout-max the number of the other ARP option. The texts of the four fractional
    parameters are any that the floating-point parser, a parameter, reads as their scaled
    values. *)
Theorem config_roundtrip t c0 c : config_fits t c -> g_routes c0 = [] ->
  config_parse fraction factor c0 (options_of t c) false = (c <| g_arp_to_max := 1000000 |>, 0) /\
  (forall args operands, g_arp_to_max (config_parse fraction factor c0 args operands).1 = 1000000).
Proof.
  intros [O64 O32 [Rip Rp] Rr (W1 & W2 & W3 & W4)] N. split.
  - unfold config_parse, options_of.
    unfold int64_options, int32_options in O64, O32. repeat (apply Forall_cons in O64 as [? O64]). repeat (apply Forall_cons in O32 as [? O32]).
    cbn [snd] in *. clear O64 O32.
    cbn [int_args int64_options int32_options fraction_args map fst snd app].
    repeat int_option parse_int64_dec. repeat int_option parse_int32_dec. do 4 fraction_option.
    erewrite config_int; [|reflexivity|cbn [config_option]; rewrite parse_cc_name; reflexivity].
    erewrite config_int; [|reflexivity|cbn [config_option]; rewrite (parse_cidr_print _ _ _ _ Rip Rp); reflexivity].
    rewrite (config_loop_routes _ Rr). cbn [negb orb]. f_equal.
    destruct c. cbn in *. now rewrite N.
  - intros args operands. unfold config_parse. pose proof (config_loop_arp_to_max args (config_defaults c0)) as K.
    destruct (config_loop fraction factor (config_defaults c0) args) as [c' ok]. cbn [fst] in K.
    destruct (negb ok || operands); [reflexivity|exact K].
Qed.
End Roundtrip.
