(* ===== verification/UxSocket.v ===== *)
(** Registration of applications: kernel/appif.c.

    Two threads share an application's struct: the thread of the unix socket
    runs [uxsocket_accept], [uxsocket_receive], [uxsocket_notify] and
    [uxsocket_error]; the main loop runs [appif_poll].  They pass the struct to
    each other through two queues (utils_nbqueue.h), here lists with the oldest
    element first.  Each of these functions is one step.

    What system calls return is an argument: descriptors, received bytes, the
    number of bytes sent, addresses of [malloc].  The fields of an application
    that appif_ctx.c uses ([contexts], [conns], [listeners]) and those of a
    context that it uses are in the records of KernelState; [app_reg] and
    [ctx_reg] hold the others. *)
From stdpp Require Import base numbers list gmap.
From Stdlib Require Import ZArith Lia.
From S2P Require Import Prelude Packet FlowState Dma FastPath FastRx PacketMem NicIf KernelState Appif AppConn AppPoll.

(** ** State *)

Record app_reg := mk_app_reg
  { rg_fd : Z; rg_req_rx : Z; rg_req : list Z; rg_resp : kernel_uxsock_response;
    rg_need_reg_ctx : option Z; rg_need_reg_ctx_done : option Z; rg_comp_status : Z; rg_id : Z;
    rg_closed : bool;
    rg_epollin : bool }.   (* the events epoll reports include EPOLLIN *)
#[export] Instance eta_app_reg : Eta app_reg := fun a => mk_app_reg (rg_fd a) (rg_req_rx a) (rg_req a) (rg_resp a)
  (rg_need_reg_ctx a) (rg_need_reg_ctx_done a) (rg_comp_status a) (rg_id a) (rg_closed a) (rg_epollin a).
Definition no_response : kernel_uxsock_response := mk_uxsock_response 0 0 0 0 0 0 0 [].
#[export] Instance app_reg_inhabited : Inhabited app_reg :=
  populate (mk_app_reg 0 0 [] no_response None None 0 0 false false).

Record ctx_reg := mk_ctx_reg
  { cg_kin_handle : block; cg_kout_handle : block; cg_handles : list (block * block); cg_ready : Z }.
#[export] Instance eta_ctx_reg : Eta ctx_reg := fun c =>
  mk_ctx_reg (cg_kin_handle c) (cg_kout_handle c) (cg_handles c) (cg_ready c).
#[export] Instance ctx_reg_inhabited : Inhabited ctx_reg := populate (mk_ctx_reg (mk_block 0 0) (mk_block 0 0) [] 0).

(** [us_sent]: the messages sent, latest first: the descriptor used, the bytes
    and the descriptors passed with them. *)
Record ust := mk_ust
  { us_k : kst; us_apps : gmap Z app_reg; us_ctxs : gmap Z ctx_reg;
    us_free_doorbells : list Z; us_app_id_next : Z; us_applications : list Z;
    us_ux_to_poll : list Z; us_poll_to_ux : list Z;
    us_sent : list (Z * (list Z * list Z)) }.
#[export] Instance eta_ust : Eta ust := fun u => mk_ust (us_k u) (us_apps u) (us_ctxs u) (us_free_doorbells u)
  (us_app_id_next u) (us_applications u) (us_ux_to_poll u) (us_poll_to_ux u) (us_sent u).

Definition uapp (u : ust) (a : Z) : app_reg := us_apps u !!! a.
Definition put_uapp (u : ust) (a : Z) (x : app_reg) : ust := u <| us_apps := <[a := x]> (us_apps u) |>.
Definition uctx (u : ust) (c : Z) : ctx_reg := us_ctxs u !!! c.
Definition put_uctx (u : ust) (c : Z) (x : ctx_reg) : ust := u <| us_ctxs := <[c := x]> (us_ctxs u) |>.

(** ** Messages *)

Definition SZ_UXSOCK_REQ : Z := 8.
Definition SZ_UXSOCK_RESP : Z := 32.
Definition req_rxq_len (req : list Z) : Z := le_value (take 4 req).
Definition req_txq_len (req : list Z) : Z := le_value (take 4 (drop 4 req)).

Definition ux_queue_bytes (q : Z * Z) : list Z := le_bytes 8 q.1 ++ le_bytes 8 q.2.
Definition ux_resp_bytes (r : kernel_uxsock_response) : list Z :=
  le_bytes 8 (ur_app_out_off r) ++ le_bytes 8 (ur_app_in_off r) ++ le_bytes 4 (ur_app_out_len r) ++
  le_bytes 4 (ur_app_in_len r) ++ le_bytes 4 (ur_status r) ++ le_bytes 2 (ur_flexnic_db_id r) ++
  le_bytes 2 (ur_flexnic_qs_num r) ++ concat (map ux_queue_bytes (ur_flexnic_qs r)).

(** The struct the library reads the answer into (stack/kernel.c). *)
Definition bytes_ux_resp (bs : list Z) : kernel_uxsock_response :=
  let n := le_value (slice bs 30 2) in
  mk_uxsock_response (le_value (slice bs 0 8)) (le_value (slice bs 16 4)) (le_value (slice bs 8 8))
    (le_value (slice bs 20 4)) (le_value (slice bs 24 4)) (le_value (slice bs 28 2)) n
    (map (fun i => (le_value (slice bs (32 + 16 * i) 8), le_value (slice bs (40 + 16 * i) 8))) (seqZ 0 n)).

(** ** appif_init *)

(** The freelist of doorbells; the kernel uses doorbell 0. *)
Definition doorbells_init (db_num : Z) : list Z := seqZ 1 (db_num - 1).

(** ** The socket thread *)

(** The descriptors of the cores are sent in messages of up to four. *)
Fixpoint fd_batches (fuel : nat) (fds : list Z) : list (list Z) :=
  match fuel, fds with
  | O, _ | _, [] => []
  | S fuel, _ => take 4 fds :: fd_batches fuel (drop 4 fds)
  end.

Section UxSocket.
Context `{Platform} `{KEnv}.
(** [flexnic_info->cores_num] and [config.app_kin_len], [config.app_kout_len]. *)
Context (cores_num app_kin_len app_kout_len : Z).

Definition close_app (u : ust) (a : Z) : ust := put_uapp u a (uapp u a <| rg_closed := true |>).
Definition uxsocket_error := close_app.

Definition send_msg (u : ust) (fd : Z) (bs fds : list Z) : ust := u <| us_sent := (fd, (bs, fds)) :: us_sent u |>.

(** [cfd]: what [accept] returns; [tx_ok]: the descriptors are sent completely;
    [p], [resp_ok]: the two [malloc]s; [junk]: what the struct holds then;
    [ep_ok]: [epoll_ctl] succeeds. *)
Definition uxsocket_accept (u : ust) (notifyfd : Z) (evfds : list Z) (cfd : Z) (tx_ok : bool) (p : option Z)
    (resp_ok : bool) (junk : app_reg) (ep_ok : bool) : outcome ust :=
  if cfd <? 0 then Ok u
  else
    let u := send_msg u cfd (le_bytes 4 cores_num) [notifyfd] in
    let fds := take (Z.to_nat cores_num) evfds in
    if negb tx_ok && (0 <? cores_num) then Crash
    else
      let u := foldl (fun u b => send_msg u cfd [0] b) u (fd_batches (length fds) fds) in
      match p with
      | None => Ok u
      | Some a =>
          if negb resp_ok || negb ep_ok then Ok u
          else
            let x := junk <| rg_fd := cfd |> <| rg_need_reg_ctx := None |> <| rg_closed := false |>
                       <| rg_id := us_app_id_next u |> <| rg_epollin := true |> in
            let k := us_k u <| k_app := <[a := mk_application [] [] []]> (k_app (us_k u)) |> in
            Ok (put_uapp u a x <| us_k := k |> <| us_app_id_next := u16 (us_app_id_next u + 1) |>
                  <| us_ux_to_poll := us_ux_to_poll u ++ [a] |>)
      end.

(** The queues of the cores: the handles in their order, and the bytes zeroed.
    [inr]: an allocation failed; its handles are lost, except for a receive
    queue whose transmit queue could not be had. *)
Fixpoint alloc_queues (n : nat) (pm : list block) (rxq_len txq_len : Z) (m : mem)
    : list block * mem * option (list (block * block)) :=
  match n with
  | O => (pm, m, Some [])
  | S n =>
      match packetmem_alloc pm rxq_len with
      | None => (pm, m, None)
      | Some (pm, hr) =>
          match packetmem_alloc pm txq_len with
          | None => (packetmem_free pm hr, m, None)
          | Some (pm, ht) =>
              let m := mem_write m (pm_base hr) (repeat 0 (Z.to_nat rxq_len)) in
              let m := mem_write m (pm_base ht) (repeat 0 (Z.to_nat txq_len)) in
              let '(pm, m, r) := alloc_queues n pm rxq_len txq_len m in
              (pm, m, match r with Some hs => Some ((hr, ht) :: hs) | None => None end)
          end
      end
  end.

Definition set_pm (u : ust) (pm : list block) : ust := u <| us_k := us_k u <| k_pm := pm |> |>.
Definition set_kmem (u : ust) (m : mem) : ust :=
  u <| us_k := us_k u <| k_nic := k_nic (us_k u) <| nc_mem := m |> |> |>.

(** The answer to a complete request. *)
Definition ctx_response (db : Z) (pm_in pm_out : block) (handles : list (block * block)) : kernel_uxsock_response :=
  mk_uxsock_response (pm_base pm_in) app_kin_len (pm_base pm_out) app_kout_len 0 db cores_num
    (map (fun h => (pm_base h.1, pm_base h.2)) handles).

(** A complete request (the answer is filled in at once: if the call fails it is
    not used any more); [c]: what [malloc] returns for the context, [evfd]: the
    descriptor that came with the bytes, or 0. *)
Definition new_context (u : ust) (a : Z) (c : option Z) (evfd : Z) : outcome ust :=
  match c with
  | None => Ok (uxsocket_error u a)
  | Some c =>
      match packetmem_alloc (k_pm (us_k u)) app_kin_len with
      | None => Ok (uxsocket_error u a)
      | Some (pm, pm_in) =>
          match packetmem_alloc pm app_kout_len with
          | None => Ok (uxsocket_error (set_pm u (packetmem_free pm pm_in)) a)
          | Some (pm, pm_out) =>
              let x := uapp u a in
              let fail pm u := Ok (uxsocket_error (set_pm u (packetmem_free (packetmem_free pm pm_out) pm_in)) a) in
              let '(pm, m, r) := alloc_queues (Z.to_nat cores_num) pm (req_rxq_len (rg_req x)) (req_txq_len (rg_req x))
                                   (nc_mem (k_nic (us_k u))) in
              let u := set_kmem u m in
              match r, us_free_doorbells u with
              | None, _ | Some _, [] => fail pm u
              | Some handles, db :: dbs =>
                  let! _ := assert_ (negb (evfd =? 0)) in
                  let u := set_pm u pm <| us_free_doorbells := dbs |> in
                  let ap := k_app (us_k u) !!! a in
                  let k := put_ctx (us_k u) c (mk_app_context a ∅ (app_kin_len / 64) 0 ∅ (app_kout_len / 64) 0 db evfd
                                                 (ax_last_ts (kctx (us_k u) c))) in
                  let k := k <| k_app := <[a := ap <| ap_contexts := c :: ap_contexts ap |>]> (k_app k) |> in
                  let u := put_uctx (u <| us_k := k |>) c (mk_ctx_reg pm_in pm_out handles 0) in
                  Ok (put_uapp u a (x <| rg_resp := ctx_response db pm_in pm_out handles |> <| rg_epollin := false |>
                                      <| rg_need_reg_ctx_done := Some c |> <| rg_need_reg_ctx := Some c |>))
              end
          end
      end
  end.

(** [rx]: the bytes received, at most as many as are missing, or [None] if
    [recvmsg] failed; [fds]: the descriptors that came with them (the control
    buffer has room for two; with none there is no control message). *)
Definition uxsocket_receive (u : ust) (a : Z) (rx : option (list Z)) (fds : list Z) (c : option Z) : outcome ust :=
  let! _ := assert_ (length fds <=? 1)%nat in
  match rx with
  | None => Ok (uxsocket_error u a)
  | Some bs =>
      let x := uapp u a in
      let n := Z.of_nat (length bs) in
      let x := x <| rg_req := bs ++ drop (length bs) (rg_req x) |> in
      if n + rg_req_rx x <? SZ_UXSOCK_REQ
      then Ok (put_uapp u a (x <| rg_req_rx := rg_req_rx x + n |>))
      else new_context (put_uapp u a (x <| rg_req_rx := 0 |>)) a c (hd 0 fds)
  end.

(** [tx]: what [send] returns. *)
Definition uxsocket_notify_app (u : ust) (a tx : Z) : outcome ust :=
  let x := uapp u a in
  if negb (rg_comp_status x =? 0) then Ok (uxsocket_error u a)
  else
    match rg_need_reg_ctx_done x with
    | None => Crash
    | Some c =>
        let u := put_uctx u c (uctx u c <| cg_ready := 1 |>) in
        let bs := ux_resp_bytes (rg_resp x) in
        if tx <? Z.of_nat (length bs) then Ok (uxsocket_error u a)
        else Ok (put_uapp (send_msg u (rg_fd x) bs []) a (x <| rg_epollin := true |>))
    end.

(** The loop that takes completions from the queue [poll_to_ux], [l]. *)
Fixpoint notify_loop (u : ust) (l : list Z) (tx : Z -> Z) : outcome ust :=
  match l with
  | [] => Ok u
  | a :: l => let! u := uxsocket_notify_app (u <| us_poll_to_ux := l |>) a (tx a) in notify_loop u l tx
  end.
Definition uxsocket_notify (u : ust) (tx : Z -> Z) : outcome ust := notify_loop u (us_poll_to_ux u) tx.

(** ** The main loop *)

(** The part of [appif_poll] that registers an application's new context; the
    flag says that its contexts are polled then. *)
Definition appif_register (u : ust) (a : Z) : ust * bool :=
  let x := uapp u a in
  match rg_need_reg_ctx x with
  | None => (u, true)
  | Some c =>
      let u := put_uapp u a (x <| rg_need_reg_ctx := None |>) in
      let qs := ur_flexnic_qs (rg_resp x) in
      let '(nic, r) := nicif_appctx_add (k_nic (us_k u)) (rg_id x) (ax_doorbell_id (kctx (us_k u) c))
                         (map fst qs) (map snd qs) (req_rxq_len (rg_req x)) (req_txq_len (rg_req x))
                         (ax_evfd (kctx (us_k u) c)) in
      let u := u <| us_k := us_k u <| k_nic := nic |> |> in
      if negb (r =? 0) then (uxsocket_error u a, false)
      else (u <| us_poll_to_ux := us_poll_to_ux u ++ [a] |>, true)
  end.

(** [ml]: what [malloc] returns while a context is polled. *)
Fixpoint poll_contexts (u : ust) (ml : Z -> mallocs) (a : Z) (cs : list Z) (n : Z) : outcome (ust * Z) :=
  match cs with
  | [] => Ok (u, n)
  | c :: cs =>
      if cg_ready (uctx u c) =? 0 then poll_contexts u ml a cs n
      else
        let! (k, r) := appif_ctx_poll (us_k u) (ml c) a c in
        poll_contexts (u <| us_k := k |>) ml a cs (n + r)
  end.

Fixpoint poll_apps (u : ust) (ml : Z -> mallocs) (apps : list Z) (n : Z) : outcome (ust * Z) :=
  match apps with
  | [] => Ok (u, n)
  | a :: apps =>
      let '(u, go) := appif_register u a in
      let! (u, n) := if go then poll_contexts u ml a (ap_contexts (k_app (us_k u) !!! a)) n else Ok (u, n) in
      poll_apps u ml apps n
  end.

Definition appif_poll (u : ust) (ml : Z -> mallocs) : outcome (ust * Z) :=
  let u := u <| us_applications := rev (us_ux_to_poll u) ++ us_applications u |> <| us_ux_to_poll := [] |> in
  poll_apps u ml (us_applications u) 0.
End UxSocket.

(** ** The application's side: stack/kernel.c *)

Section Application.
Context `{Platform}.

(** [msgs]: what each [recvmsg] returns; it waits when there is no more. *)
Fixpoint recv_fds (msgs : list (list Z * list Z)) (left : Z) (evfds : list Z) : outcome (list Z) :=
  if left <=? 0 then Ok evfds
  else
    match msgs with
    | [] => Spin
    | (bs, fds) :: msgs =>
        let! _ := assert_ (Nat.eqb (length bs) 1) in
        let n := if 4 <=? left then 4 else left in
        let! _ := assert_ (Z.of_nat (length fds) =? n) in
        recv_fds msgs (left - n) (evfds ++ fds)
    end.

(** Result, [kernel_evfd] and [flexnic_evfd]; [ok]: the socket could be
    connected. *)
Definition flextcp_kernel_connect (ok : bool) (msgs : list (list Z * list Z)) : outcome (Z * Z * list Z) :=
  if negb ok then Ok (-1, 0, [])
  else
    match msgs with
    | [] => Spin
    | (bs, fds) :: msgs =>
        let! _ := assert_ (Nat.eqb (length bs) 4) in
        let! _ := assert_ (Nat.eqb (length fds) 1) in
        let! evfds := recv_fds msgs (le_value bs) [] in
        Ok (0, byte_at fds 0, evfds)
    end.

(** The request [flextcp_kernel_newctx] sends, in one message. *)
Definition newctx_request : list Z := le_bytes 4 NIC_RXQ_LEN ++ le_bytes 4 NIC_TXQ_LEN.

(** A loop of [read]s up to [total] bytes; [rs]: how much each of them can
    return, [None] for -1. *)
Fixpoint read_full (total : nat) (buf stream : list Z) (rs : list (option nat))
    : outcome (option (list Z * list Z * list (option nat))) :=
  if Nat.leb total (length buf) then Ok (Some (buf, stream, rs))
  else
    match rs with
    | [] => Spin
    | None :: _ => Ok None
    | Some n :: rs =>
        let n := Nat.min n (total - length buf) in
        read_full total (buf ++ take n stream) (drop n stream) rs
    end.

(** [flextcp_kernel_newctx] from its answer on. *)
Definition newctx_answer (x : flextcp_context) (stream : list Z) (rs : list (option nat)) : outcome (flextcp_context * Z) :=
  let! r := read_full (Z.to_nat SZ_UXSOCK_RESP) [] stream rs in
  match r with
  | None => Ok (x, -1)
  | Some (buf, stream, rs) =>
      let n := le_value (slice buf 30 2) in
      if FLEXTCP_MAX_FTCPCORES <? n then Crash
      else
        let! r := read_full (Z.to_nat (SZ_UXSOCK_RESP + 16 * n)) buf stream rs in
        match r with
        | None => Ok (x, -1)
        | Some (buf, _, _) => flextcp_kernel_newctx x (bytes_ux_resp buf)
        end
  end.
End Application.
