(* ===== verification/UxSafe.v ===== *)
(** What registering applications guarantees, however the two threads of
    kernel/appif.c and the rest of the kernel interleave: queues never overlap,
    doorbells are never shared, and no context is used before the fast path
    knows it. *)
From stdpp Require Import base numbers list gmap relations.
From Stdlib Require Import ZArith Lia.
From S2P Require Import Prelude Packet FlowState Dma FastPath FastRx Queues PacketMem NicIf KernelState Appif AppConn AppPoll UxSocket.

(** ** Packet memory *)

Lemma owners_perm l k x : l ≡ₚ k -> owners l x = owners k x.
Proof. induction 1; cbn; lia. Qed.
Lemma owners_nonneg l x : 0 <= owners l x.
Proof. induction l as [|b l IH]; cbn; [lia|]. unfold in_block. bsplit; lia. Qed.
#[export] Instance owners_proper : Proper ((≡ₚ) ==> eq ==> eq) owners.
Proof. intros l k E x y ->. apply owners_perm, E. Qed.

Definition queue_blocks (hs : list (block * block)) : list block := hs ≫= fun h => [h.1; h.2].
Definition ctx_blocks (c : ctx_reg) : list block := cg_kin_handle c :: cg_kout_handle c :: queue_blocks (cg_handles c).

Definition is_zero (m : mem) (b : block) : Prop := forall x, pm_base b <= x < pm_base b + pm_len b -> mem_byte m x = 0.

Lemma repeat_lookup_lt {A} (v : A) n i : (i < n)%nat -> repeat v n !! i = Some v.
Proof. revert i. induction n as [|n IH]; intros [|i] L; cbn; [lia..|reflexivity|apply IH; lia]. Qed.

Lemma zeros_write m a n x : mem_byte m x = 0 \/ a <= x < a + Z.of_nat n -> mem_byte (mem_write m a (repeat 0 n)) x = 0.
Proof.
  intros H. destruct (decide (a <= x < a + Z.of_nat n)) as [I|O].
  - replace x with (a + Z.of_nat (Z.to_nat (x - a))) by lia. apply mem_write_in.
    apply repeat_lookup_lt. lia.
  - rewrite mem_write_out; [tauto|]. rewrite repeat_length. lia.
Qed.

(** What a loop of allocations takes out of the pool: [r] the queues, or
    [lost], blocks nobody owns any more. *)
Lemma alloc_queues_spec n : forall pm rl tl m pm' m' r,
  Forall block_ok pm -> 0 <= rl -> 0 <= tl -> alloc_queues n pm rl tl m = (pm', m', r) ->
  Forall block_ok pm' /\ (forall x, mem_byte m x = 0 -> mem_byte m' x = 0) /\
  exists l, Forall block_ok l /\ (forall x, owners pm x = owners pm' x + owners l x) /\
    match r with
    | Some hs => l = queue_blocks hs /\ length hs = n /\
        Forall (fun h => pm_len h.1 = rl /\ pm_len h.2 = tl /\ is_zero m' h.1 /\ is_zero m' h.2) hs
    | None => True
    end.
Proof.
  induction n as [|n IH]; intros pm rl tl m pm' m' r Ok0 Hr Ht; cbn [alloc_queues].
  - intros [= <- <- <-]. split; [exact Ok0|]. split; [auto|]. exists []. split_and!; auto. intros x. cbn. lia.
  - destruct (packetmem_alloc pm rl) as [[pm1 hr]|] eqn:E1.
    2:{ intros [= <- <- <-]. split; [exact Ok0|]. split; [auto|]. exists []. split_and!; auto. intros x. cbn. lia. }
    destruct (alloc_owners _ _ _ _ Ok0 Hr E1) as (Ok1 & B1 & L1 & D1).
    destruct (packetmem_alloc pm1 tl) as [[pm2 ht]|] eqn:E2.
    2:{ intros [= <- <- <-]. destruct (free_owners _ _ Ok1 B1) as [Ok2 D2]. split; [exact Ok2|]. split; [auto|].
        exists []. split_and!; auto. intros x. specialize (D1 x). specialize (D2 x). cbn. lia. }
    destruct (alloc_owners _ _ _ _ Ok1 Ht E2) as (Ok2 & B2 & L2 & D2).
    set (m1 := mem_write (mem_write m _ _) _ _).
    destruct (alloc_queues n pm2 rl tl m1) as [[pm3 m3] r3] eqn:E3. intros [= <- <- <-].
    destruct (IH _ _ _ _ _ _ _ Ok2 Hr Ht E3) as (Ok3 & Z3 & l & Bl & D3 & R).
    split; [exact Ok3|]. split.
    { intros x Hx. apply Z3. unfold m1. apply zeros_write. left. apply zeros_write. auto. }
    exists (hr :: ht :: l). split; [auto|]. split.
    { intros x. specialize (D1 x). specialize (D2 x). specialize (D3 x). cbn [owners]. lia. }
    destruct r3 as [hs|]; [|exact I]. destruct R as (-> & Ln & F). split; [reflexivity|]. split; [cbn; lia|].
    constructor; [|exact F]. cbn. split_and!; auto; intros x Hx; apply Z3; unfold m1; apply zeros_write.
    + left. apply zeros_write. right. lia.
    + right. lia.
Qed.

Lemma queue_blocks_cons h hs : queue_blocks (h :: hs) = h.1 :: h.2 :: queue_blocks hs.
Proof. reflexivity. Qed.

(** ** Registers of contexts *)

Lemma for_cores_other n f db m i d : d <> db -> for_cores n f db m !!! (i, d) = m !!! (i, d).
Proof. intros N. induction n as [|n IH]; cbn [for_cores]; [reflexivity|]. rewrite lookup_total_insert_ne by congruence. exact IH. Qed.
Lemma for_cores_above n f db m i : Z.of_nat n <= i -> for_cores n f db m !!! (i, db) = m !!! (i, db).
Proof.
  induction n as [|n IH]; intros L; cbn [for_cores]; [reflexivity|].
  rewrite lookup_total_insert_ne by (intros [= ?]; lia). apply IH. lia.
Qed.
Lemma for_cores_at n f db m i : 0 <= i < Z.of_nat n -> for_cores n f db m !!! (i, db) = f i (m !!! (i, db)).
Proof.
  induction n as [|n IH]; intros L; cbn [for_cores]; [lia|].
  destruct (decide (i = Z.of_nat n)) as [->|N].
  - rewrite lookup_total_insert_eq. f_equal. apply for_cores_above. lia.
  - rewrite lookup_total_insert_ne by (intros [= ?]; lia). apply IH. lia.
Qed.

(** What the fast path knows of a context: base addresses, lengths, event
    descriptor. *)
Definition queue_regs (ac : appctx) : Z * Z * Z * Z * Z :=
  (ac_rx_base ac, ac_tx_base ac, ac_rx_len ac, ac_tx_len ac, ac_evfd ac).
Definition nic_regs (s : nic) (core db : Z) : Z * Z * Z * Z * Z := queue_regs (nc_appctx s !!! (core, db)).

Lemma qman_alloc_ctx_frame n s s' r : qman_alloc_ctx n s = (s', r) ->
  nc_appctx s' = nc_appctx s /\ nc_fn_cores s' = nc_fn_cores s /\ nc_mem s' = nc_mem s.
Proof.
  revert s. induction n as [|n IH]; intros s; cbn [qman_alloc_ctx]; [intros [= <- <-]; auto|].
  cbv zeta. destruct (nc_qman_queues _ !!! _); [|intros [= <- <-]; auto]. intros E. apply IH in E. exact E.
Qed.

Lemma appctx_add_spec s appid db rb tb rl tl ev s' r : nicif_appctx_add s appid db rb tb rl tl ev = (s', r) ->
  nc_fn_cores s' = nc_fn_cores s /\ (forall i d, d <> db -> nic_regs s' i d = nic_regs s i d) /\
  (r = 0 -> forall i, 0 <= i < nc_fn_cores s -> nic_regs s' i db = (byte_at rb i, byte_at tb i, rl, tl, ev)) /\
  (r <> 0 -> forall i d, nic_regs s' i d = nic_regs s i d).
Proof.
  unfold nicif_appctx_add. destruct (_ <=? appid); [intros [= <- <-]; split_and!; auto; lia|]. cbv zeta.
  destruct (_ <=? _); [intros [= <- <-]; split_and!; auto; lia|].
  destruct (qman_alloc_ctx _ s) as [s1 o] eqn:E. destruct (qman_alloc_ctx_frame _ _ _ _ E) as (A & B & _).
  destruct o as [q|]; intros [= <- <-].
  - cbn. split_and!; [exact B| | |lia].
    + intros i d N. unfold nic_regs. cbn. rewrite !for_cores_other by exact N. f_equal. now rewrite A.
    + intros _ i L. unfold nic_regs. cbn. rewrite B. rewrite for_cores_at, for_cores_at by lia. reflexivity.
  - unfold nic_regs. rewrite A. split_and!; auto; lia.
Qed.

(** ** The two threads *)

Section System.
Context `{Platform} `{KEnv}.
Context (cores_num app_kin_len app_kout_len size db_num : Z).
Context (Cores : 0 <= cores_num) (Kin : 0 <= app_kin_len) (Kout : 0 <= app_kout_len)
        (Size : 0 <= size < 18446744073709551616).

(** Registration, and the buffers of the connections, which the rest of the
    kernel takes from the same memory. *)
Record usys := mk_usys { sy_u : ust; sy_conns : list block }.

Definition db_of (u : ust) (c : Z) : Z := ax_doorbell_id (kctx (us_k u) c).
Definition evfd_of (u : ust) (c : Z) : Z := ax_evfd (kctx (us_k u) c).
Definition handle_regs (ev : Z) (h : block * block) : Z * Z * Z * Z * Z :=
  (pm_base h.1, pm_base h.2, pm_len h.1, pm_len h.2, ev).

(** The fast path has the queues of context [c]. *)
Definition registered (u : ust) (c : Z) (r : ctx_reg) : Prop :=
  forall i h, cg_handles r !! i = Some h -> nic_regs (k_nic (us_k u)) (Z.of_nat i) (db_of u c) = handle_regs (evfd_of u c) h.

(** What the rest of the kernel may change. *)
Definition kernel_frame (k : kst) (l : list block) (k' : kst) (l' : list block) : Prop :=
  rtc pm_step (mk_pm_state (k_pm k) l) (mk_pm_state (k_pm k') l') /\
  (forall c, ax_doorbell_id (kctx k' c) = ax_doorbell_id (kctx k c) /\ ax_evfd (kctx k' c) = ax_evfd (kctx k c)) /\
  (forall i d, nic_regs (k_nic k') i d = nic_regs (k_nic k) i d) /\ nc_fn_cores (k_nic k') = nc_fn_cores (k_nic k).

Definition request_ok (x : app_reg) : Prop := length (rg_req x) = 8%nat /\ Forall (fun b => 0 <= b < 256) (rg_req x).

Definition usys_init (u : ust) : Prop :=
  us_apps u = ∅ /\ us_ctxs u = ∅ /\ us_poll_to_ux u = [] /\ us_free_doorbells u = doorbells_init db_num /\
  k_pm (us_k u) = packetmem_init size /\ nc_fn_cores (k_nic (us_k u)) = cores_num.

(** One function of one of the two threads, run as a whole; [malloc] returns fresh
    addresses, and [recvmsg] is called when epoll reports input.  The threads' functions
    follow one another in any order, but do not overlap.  Nothing in the code keeps two
    calls of the packet memory's allocator apart that come from different threads, so
    here the steps exclude executions the code does not (PacketMem shows one). *)
Inductive usys_step : usys -> usys -> Prop :=
| us_accept u l nfd evfds cfd tx p rok junk ep u' :
    (forall a, p = Some a -> us_apps u !! a = None) -> request_ok junk ->
    uxsocket_accept cores_num u nfd evfds cfd tx p rok junk ep = Ok u' ->
    usys_step (mk_usys u l) (mk_usys u' l)
| us_receive u l a rx fds c u' :
    is_Some (us_apps u !! a) -> rg_epollin (uapp u a) = true ->
    (forall bs, rx = Some bs -> Forall (fun b => 0 <= b < 256) bs /\ Z.of_nat (length bs) <= 8 - rg_req_rx (uapp u a)) ->
    0 <= rg_req_rx (uapp u a) -> (forall i, c = Some i -> us_ctxs u !! i = None) ->
    uxsocket_receive cores_num app_kin_len app_kout_len u a rx fds c = Ok u' ->
    usys_step (mk_usys u l) (mk_usys u' l)
| us_error u l a : is_Some (us_apps u !! a) -> usys_step (mk_usys u l) (mk_usys (uxsocket_error u a) l)
| us_notify u l a q tx u' :
    us_poll_to_ux u = a :: q -> uxsocket_notify_app (u <| us_poll_to_ux := q |>) a tx = Ok u' ->
    usys_step (mk_usys u l) (mk_usys u' l)
| us_add u l : usys_step (mk_usys u l)
    (mk_usys (u <| us_applications := rev (us_ux_to_poll u) ++ us_applications u |> <| us_ux_to_poll := [] |>) l)
| us_register u l a : is_Some (us_apps u !! a) -> usys_step (mk_usys u l) (mk_usys (appif_register u a).1 l)
| us_kernel u l k l' : kernel_frame (us_k u) l k l' -> usys_step (mk_usys u l) (mk_usys (u <| us_k := k |>) l').

Definition held (u : ust) : list block := map_to_list (ctx_blocks <$> us_ctxs u) ≫= snd.

(** A registration under way: the answer describes context [c]. *)
Definition pending (u : ust) (x : app_reg) (c : Z) : Prop :=
  rg_need_reg_ctx_done x = Some c /\ exists r, us_ctxs u !! c = Some r /\
    rg_resp x = ctx_response cores_num app_kin_len app_kout_len (db_of u c) (cg_kin_handle r) (cg_kout_handle r) (cg_handles r) /\
    length (cg_handles r) = Z.to_nat cores_num /\
    Forall (fun h => pm_len h.1 = req_rxq_len (rg_req x) /\ pm_len h.2 = req_txq_len (rg_req x)) (cg_handles r).

Definition app_inv (u : ust) (a : Z) (x : app_reg) : Prop :=
  request_ok x /\
  (rg_epollin x = true -> rg_need_reg_ctx x = None /\ a ∉ us_poll_to_ux u) /\
  (forall c, rg_need_reg_ctx x = Some c -> pending u x c /\ a ∉ us_poll_to_ux u) /\
  (a ∈ us_poll_to_ux u -> exists c, pending u x c /\ registered u c (uctx u c)).

Record usys_inv (s : usys) : Prop := mk_usys_inv
  { ui_ok : Forall block_ok (k_pm (us_k (sy_u s))) /\ Forall block_ok (sy_conns s) /\ Forall block_ok (held (sy_u s));
    ui_mem : exists lost, forall x, owners (k_pm (us_k (sy_u s))) x + owners (sy_conns s) x + owners (held (sy_u s)) x
                + owners lost x = in_block (mk_block 0 size) x;
    ui_free : NoDup (us_free_doorbells (sy_u s)) /\ Forall (fun d => 1 <= d < db_num) (us_free_doorbells (sy_u s));
    ui_db : forall c, is_Some (us_ctxs (sy_u s) !! c) ->
              1 <= db_of (sy_u s) c < db_num /\ db_of (sy_u s) c ∉ us_free_doorbells (sy_u s);
    ui_db_inj : forall c c', is_Some (us_ctxs (sy_u s) !! c) -> is_Some (us_ctxs (sy_u s) !! c') ->
                  db_of (sy_u s) c = db_of (sy_u s) c' -> c = c';
    ui_ready : forall c r, us_ctxs (sy_u s) !! c = Some r -> cg_ready r <> 0 -> registered (sy_u s) c r;
    ui_apps : forall a x, us_apps (sy_u s) !! a = Some x -> app_inv (sy_u s) a x;
    ui_queue : NoDup (us_poll_to_ux (sy_u s)) /\ forall a, a ∈ us_poll_to_ux (sy_u s) -> is_Some (us_apps (sy_u s) !! a);
    ui_cores : nc_fn_cores (k_nic (us_k (sy_u s))) = cores_num }.

(** ** Changes to one application *)

Lemma uapp_some u a x : us_apps u !! a = Some x -> uapp u a = x.
Proof. intros E. unfold uapp. now apply lookup_total_correct. Qed.
Lemma uctx_some u c r : us_ctxs u !! c = Some r -> uctx u c = r.
Proof. intros E. unfold uctx. now apply lookup_total_correct. Qed.

Lemma uapp_same u a x : us_apps u !! a = Some x -> forall v, us_apps v = us_apps u -> uapp v a = x.
Proof. intros E v Ev. apply uapp_some. now rewrite Ev. Qed.
Lemma uctx_same u c r : us_ctxs u !! c = Some r -> forall v, us_ctxs v = us_ctxs u -> uctx v c = r.
Proof. intros E v Ev. apply uctx_some. now rewrite Ev. Qed.

Lemma inv_put_uapp u l a x : usys_inv (mk_usys u l) -> app_inv u a x -> usys_inv (mk_usys (put_uapp u a x) l).
Proof.
  intros [] A. constructor; cbn in *; try assumption.
  - intros b y. rewrite lookup_insert. case_decide; [intros [= <-]; subst; exact A | apply ui_apps0].
  - destruct ui_queue0 as [N I]. split; [exact N|]. intros b Hb. rewrite lookup_insert_is_Some'. right. auto.
Qed.

Lemma inv_error u l a : usys_inv (mk_usys u l) -> is_Some (us_apps u !! a) ->
  usys_inv (mk_usys (uxsocket_error u a) l).
Proof.
  intros I [x E]. apply inv_put_uapp; [exact I|]. rewrite (uapp_some u a x E). exact (ui_apps _ I _ _ E).
Qed.

(** Messages sent, lists of applications and other parts of the state the
    invariant does not mention. *)
Lemma inv_frame u u' l : usys_inv (mk_usys u l) -> us_k u' = us_k u -> us_apps u' = us_apps u -> us_ctxs u' = us_ctxs u ->
  us_free_doorbells u' = us_free_doorbells u -> us_poll_to_ux u' = us_poll_to_ux u -> usys_inv (mk_usys u' l).
Proof.
  destruct u, u'. cbn. intros [] -> -> -> -> ->. now constructor.
Qed.

Lemma inv_kapp u l ap : usys_inv (mk_usys u l) -> usys_inv (mk_usys (u <| us_k := us_k u <| k_app := ap |> |>) l).
Proof. intros []. now constructor. Qed.

Lemma inv_new_app u l a x : usys_inv (mk_usys u l) -> us_apps u !! a = None -> request_ok x ->
  rg_need_reg_ctx x = None -> usys_inv (mk_usys (put_uapp u a x) l).
Proof.
  intros I E R N. apply inv_put_uapp; [exact I|].
  assert (Q : a ∉ us_poll_to_ux u).
  { intros Q. apply (proj2 (ui_queue _ I)) in Q. cbn in Q. rewrite E in Q. now destruct Q. }
  split_and!; [exact R|auto| |tauto]. intros c. rewrite N. discriminate.
Qed.

Lemma inv_send u l fd bs fds : usys_inv (mk_usys u l) -> usys_inv (mk_usys (send_msg u fd bs fds) l).
Proof. intros I. now apply (inv_frame u). Qed.

Lemma inv_batches cfd bss l : forall u, usys_inv (mk_usys u l) ->
  let u' := foldl (fun u b => send_msg u cfd [0] b) u bss in
  usys_inv (mk_usys u' l) /\ us_apps u' = us_apps u.
Proof.
  induction bss as [|b bss IH]; intros u I; cbn; [auto|].
  destruct (IH _ (inv_send u l cfd [0] b I)) as [J E]. split; [exact J|]. now rewrite E.
Qed.

Lemma inv_accept u l nfd evfds cfd tx p rok junk ep u' :
  (forall a, p = Some a -> us_apps u !! a = None) -> request_ok junk ->
  uxsocket_accept cores_num u nfd evfds cfd tx p rok junk ep = Ok u' ->
  usys_inv (mk_usys u l) -> usys_inv (mk_usys u' l).
Proof.
  unfold uxsocket_accept. cbv zeta. intros F R E I. destruct (cfd <? 0); [now injection E as <-|].
  destruct (negb tx && _); [discriminate|].
  set (bss := fd_batches _ _) in E.
  destruct (inv_batches cfd bss l _ (inv_send u l cfd (le_bytes 4 cores_num) [nfd] I)) as [J A].
  set (v := foldl _ _ bss) in *. cbn in A.
  destruct p as [a|]; [|now injection E as <-]. destruct (negb rok || negb ep); [now injection E as <-|].
  injection E as <-.
  eapply (inv_frame (put_uapp (v <| us_k := us_k v <| k_app := _ |> |>) a _)); [|reflexivity..].
  apply inv_new_app; [apply inv_kapp, J | cbn; rewrite A; auto | exact R | reflexivity].
Qed.

Lemma inv_add u l : usys_inv (mk_usys u l) ->
  usys_inv (mk_usys (u <| us_applications := rev (us_ux_to_poll u) ++ us_applications u |> <| us_ux_to_poll := [] |>) l).
Proof. intros I. now apply (inv_frame u). Qed.

Lemma inv_init u : usys_init u -> usys_inv (mk_usys u []).
Proof.
  intros (A & C & P & D & M & N). constructor; cbn; unfold held; rewrite ?C, ?M, ?D, ?P, ?A, ?N; cbn.
  - rewrite fmap_empty, map_to_list_empty. split_and!; auto. repeat constructor; cbn; lia.
  - exists []. intros x. rewrite fmap_empty, map_to_list_empty. cbn. lia.
  - split; [apply NoDup_seqZ|]. apply Forall_forall. intros d. unfold doorbells_init. rewrite elem_of_seqZ. lia.
  - intros c. rewrite lookup_empty. intros [? [=]].
  - intros c c'. rewrite lookup_empty. intros [? [=]].
  - intros c r. now rewrite lookup_empty.
  - intros a x. now rewrite lookup_empty.
  - split; [constructor|]. intros a Ha. now apply not_elem_of_nil in Ha.
  - reflexivity.
Qed.

(** ** Completing a registration *)

Lemma inv_dequeue u l a q : usys_inv (mk_usys u l) -> us_poll_to_ux u = a :: q ->
  usys_inv (mk_usys (u <| us_poll_to_ux := q |>) l).
Proof.
  intros [] E. constructor; cbn in *; try assumption.
  - intros b x Hb. destruct (ui_apps0 b x Hb) as (R & A & B & C). rewrite E in A, B, C. split_and!; [exact R| | |].
    + intros e. destruct (A e) as [? N]. rewrite not_elem_of_cons in N. tauto.
    + intros c e. destruct (B c e) as [? N]. rewrite not_elem_of_cons in N. tauto.
    + intros Q. apply C. now right.
  - rewrite E in ui_queue0. destruct ui_queue0 as [N I]. apply NoDup_cons in N as [_ N]. split; [exact N|].
    intros b Hb. apply I. now right.
Qed.

Lemma held_ready u c r : us_ctxs u !! c = Some r -> held (put_uctx u c (r <| cg_ready := 1 |>)) = held u.
Proof.
  intros E. unfold held. cbn. rewrite fmap_insert. change (ctx_blocks (r <| cg_ready := 1 |>)) with (ctx_blocks r).
  rewrite insert_id; [reflexivity|]. now rewrite lookup_fmap, E.
Qed.

Lemma inv_ready u l c r : usys_inv (mk_usys u l) -> us_ctxs u !! c = Some r -> registered u c r ->
  usys_inv (mk_usys (put_uctx u c (r <| cg_ready := 1 |>)) l).
Proof.
  intros [] E Rg.
  assert (Dom : forall c', is_Some (<[c := r <| cg_ready := 1 |>]> (us_ctxs u) !! c') -> is_Some (us_ctxs u !! c')).
  { intros c' D. destruct (decide (c' = c)) as [->|N]; [eauto|]. now rewrite lookup_insert_ne in D. }
  constructor; cbn [sy_u sy_conns] in *; rewrite ?(held_ready u c r E); cbn in *; try assumption.
  - intros c' D. apply ui_db0, Dom, D.
  - intros c1 c2 D1 D2. apply ui_db_inj0; apply Dom; assumption.
  - intros c' r'. rewrite lookup_insert. case_decide as N; [subst c'; intros [= <-] _; exact Rg | apply ui_ready0].
  - intros a x Hx. destruct (ui_apps0 a x Hx) as (R & A & B & C).
    assert (Pend : forall c', pending u x c' -> pending (put_uctx u c (r <| cg_ready := 1 |>)) x c').
    { intros c' (D & r' & Er & P). split; [exact D|]. cbn. destruct (decide (c' = c)) as [->|N].
      - rewrite E in Er. injection Er as <-. exists (r <| cg_ready := 1 |>). rewrite lookup_insert_eq. split; [reflexivity | exact P].
      - exists r'. rewrite lookup_insert_ne by congruence. split; [exact Er | exact P]. }
    split_and!; [exact R|exact A| |].
    + intros c' e. destruct (B c' e) as [? ?]. auto.
    + intros Q. destruct (C Q) as (c' & P & Rg'). exists c'. split; [auto|].
      unfold uctx. cbn. destruct (decide (c' = c)) as [->|N].
      * rewrite lookup_total_insert_eq. exact Rg.
      * rewrite lookup_total_insert_ne by congruence. exact Rg'.
Qed.

Lemma inv_notify u l a q tx u' : usys_inv (mk_usys u l) -> us_poll_to_ux u = a :: q ->
  uxsocket_notify_app (u <| us_poll_to_ux := q |>) a tx = Ok u' -> usys_inv (mk_usys u' l).
Proof.
  intros I Q E. pose proof (inv_dequeue _ _ _ _ I Q) as J.
  assert (Ha : a ∈ us_poll_to_ux u) by (rewrite Q; left).
  destruct (proj2 (ui_queue _ I) a Ha) as [x Hx]. cbn in Hx.
  destruct (ui_apps _ I _ _ Hx) as (R & _ & B & C). destruct (C Ha) as (c & (D & r & Er & _) & Rg).
  cbn [sy_u] in Rg, Er, D. rewrite (uctx_some u c r Er) in Rg.
  assert (Qn : a ∉ q). { pose proof (proj1 (ui_queue _ I)) as N. cbn in N. rewrite Q in N. now apply NoDup_cons in N as [N _]. }
  pose proof (inv_ready _ l c r J Er Rg) as K.
  unfold uxsocket_notify_app in E. rewrite (uapp_same u a x Hx) in E by reflexivity. cbv zeta in E.
  destruct (negb _); [injection E as <-; apply inv_error; [exact J|]; cbn; eauto|].
  rewrite D, (uctx_same u c r Er) in E by reflexivity.
  destruct (tx <? _); injection E as <-; [apply inv_error; [exact K|]; cbn; eauto|].
  eapply inv_put_uapp; [now apply (inv_frame _ _ _ K)|].
  destruct (ui_apps _ K a x Hx) as (R' & _ & B' & C'). split_and!; [exact R| |exact B'|exact C'].
  intros _. split; [|exact Qn]. change (rg_need_reg_ctx x = None). destruct (rg_need_reg_ctx x) as [c'|] eqn:Nx; [|reflexivity].
  now destruct (B c' eq_refl) as [_ []].
Qed.

(** ** The rest of the kernel, and registering with the fast path *)

(** Another state of the kernel with the same doorbells, in which the
    registered contexts stay registered. *)
Lemma app_inv_kernel u k a x :
  (forall c, ax_doorbell_id (kctx k c) = ax_doorbell_id (kctx (us_k u) c)) ->
  (forall c r, registered u c r -> registered (u <| us_k := k |>) c r) ->
  app_inv u a x -> app_inv (u <| us_k := k |>) a x.
Proof.
  intros D Rg (R & A & B & C).
  assert (Pend : forall c, pending u x c -> pending (u <| us_k := k |>) x c).
  { intros c (E & r & Er & P). split; [exact E|]. exists r. split; [exact Er|]. unfold db_of. cbn. now rewrite D. }
  split_and!; [exact R|exact A| |].
  - intros c e. destruct (B c e). auto.
  - intros Q. destruct (C Q) as (c & P & G). exists c. split; [auto|]. exact (Rg _ _ G).
Qed.

Lemma inv_kernel u l k l' : usys_inv (mk_usys u l) -> kernel_frame (us_k u) l k l' ->
  usys_inv (mk_usys (u <| us_k := k |>) l').
Proof.
  intros [] (St & Cx & Rg & Nc). cbn in *. destruct ui_ok0 as (O1 & O2 & O3).
  destruct (pm_steps_owners _ _ St) as [[P1 P2] Ow]; [now split|]. cbn in *.
  assert (Db : forall c, db_of (u <| us_k := k |>) c = db_of u c) by (intros c; apply Cx).
  assert (G : forall c r, registered u c r -> registered (u <| us_k := k |>) c r).
  { intros c r g i h Hh. rewrite Db. cbn. rewrite Rg, (g i h Hh). unfold evfd_of. cbn. now rewrite (proj2 (Cx c)). }
  constructor; cbn; try assumption.
  - auto.
  - destruct ui_mem0 as [lost L]. exists lost. intros x. change (held (u <| us_k := k |>)) with (held u).
    rewrite <- L. specialize (Ow x). lia.
  - intros c Hc. rewrite Db. auto.
  - intros c c' Hc Hc'. rewrite !Db. auto.
  - intros c r E Rd. apply G. eauto.
  - intros a x E. apply app_inv_kernel; [intros c; apply Cx | exact G | eauto].
  - now rewrite Nc.
Qed.

(** Registering context [c] does not touch the registers of the others. *)
Lemma registered_other u c c' r s : db_of u c' <> db_of u c ->
  (forall i d, d <> db_of u c -> nic_regs s i d = nic_regs (k_nic (us_k u)) i d) ->
  registered u c' r -> registered (u <| us_k := us_k u <| k_nic := s |> |>) c' r.
Proof. intros N F G i h Hh. cbn. rewrite F by exact N. exact (G i h Hh). Qed.

Lemma bases_at (f : block * block -> Z) hs i h : hs !! i = Some h -> byte_at (map f hs) (Z.of_nat i) = f h.
Proof. intros E. unfold byte_at. rewrite Nat2Z.id. change (map f hs) with (f <$> hs). now rewrite list_lookup_fmap, E. Qed.

Lemma pending_registered u x c appid s' : nc_fn_cores (k_nic (us_k u)) = cores_num -> pending u x c ->
  nicif_appctx_add (k_nic (us_k u)) appid (db_of u c) (map fst (ur_flexnic_qs (rg_resp x)))
    (map snd (ur_flexnic_qs (rg_resp x))) (req_rxq_len (rg_req x)) (req_txq_len (rg_req x)) (evfd_of u c) = (s', 0) ->
  registered (u <| us_k := us_k u <| k_nic := s' |> |>) c (uctx u c).
Proof.
  intros Nc (_ & r & Er & Rs & Ln & F) E i h Hh. rewrite (uctx_some u c r Er) in Hh.
  destruct (appctx_add_spec _ _ _ _ _ _ _ _ _ _ E) as (_ & _ & A & _). cbn.
  pose proof (lookup_lt_Some _ _ _ Hh) as Li. rewrite Ln in Li.
  etrans; [apply (A eq_refl (Z.of_nat i)); lia|].
  rewrite Rs. cbn [ctx_response ur_flexnic_qs]. rewrite !map_map. cbn [fst snd].
  rewrite (bases_at (fun h => pm_base h.1) _ _ _ Hh), (bases_at (fun h => pm_base h.2) _ _ _ Hh).
  rewrite Forall_lookup in F. destruct (F i h Hh) as [L1 L2]. unfold handle_regs. rewrite L1, L2. reflexivity.
Qed.

Lemma inv_nic u l s : usys_inv (mk_usys u l) -> nc_fn_cores s = cores_num ->
  (forall c r, us_ctxs u !! c = Some r -> registered u c r -> registered (u <| us_k := us_k u <| k_nic := s |> |>) c r) ->
  usys_inv (mk_usys (u <| us_k := us_k u <| k_nic := s |> |>) l).
Proof.
  intros [] Nc G. constructor; cbn in *; try assumption.
  - intros c r E Rd. apply G; eauto.
  - intros a x E. destruct (ui_apps0 a x E) as (R & A & B & C). split_and!; [exact R|exact A|exact B|].
    intros Q. destruct (C Q) as (c & P & Rg). exists c. split; [exact P|]. destruct P as (_ & r & Er & _).
    apply (G c); [|exact Rg]. change (us_ctxs u !! c = Some (uctx u c)). now rewrite (uctx_some u c r Er).
Qed.

Lemma inv_enqueue u l a x c : usys_inv (mk_usys u l) -> us_apps u !! a = Some x -> rg_epollin x = false ->
  rg_need_reg_ctx x = None -> a ∉ us_poll_to_ux u -> pending u x c -> registered u c (uctx u c) ->
  usys_inv (mk_usys (u <| us_poll_to_ux := us_poll_to_ux u ++ [a] |>) l).
Proof.
  intros [] Hx Ep Nx Q P G. constructor; cbn in *; try assumption.
  - intros b y Hy. destruct (ui_apps0 b y Hy) as (R & A & B & C). destruct (decide (b = a)) as [->|N].
    + rewrite Hx in Hy. injection Hy as <-. split_and!; [exact R|rewrite Ep; discriminate|rewrite Nx; discriminate|].
      intros _. exists c. split; [exact P|exact G].
    + assert (In : b ∈ us_poll_to_ux u ++ [a] <-> b ∈ us_poll_to_ux u) by set_solver.
      split_and!; [exact R| | |]; cbn; rewrite ?In; [exact A| |exact C]. intros c' e. rewrite In. exact (B c' e).
  - destruct ui_queue0 as [N I]. split.
    + apply NoDup_app. split_and!; [exact N| |apply NoDup_singleton]. intros b Hb Hb'.
      apply list_elem_of_singleton in Hb' as ->. auto.
    + intros b. rewrite elem_of_app, list_elem_of_singleton. intros [Hb| ->]; eauto.
Qed.

Lemma inv_register u l a : usys_inv (mk_usys u l) -> is_Some (us_apps u !! a) ->
  usys_inv (mk_usys (appif_register u a).1 l).
Proof.
  intros I [x Hx]. pose proof (ui_apps _ I a x Hx) as Ia. cbn in Ia. destruct Ia as (R & A & B & C).
  unfold appif_register. rewrite (uapp_some u a x Hx). destruct (rg_need_reg_ctx x) as [c|] eqn:Nx; [|exact I].
  destruct (B c eq_refl) as [P Q]. cbv zeta.
  set (y := x <| rg_need_reg_ctx := None |>). set (u1 := put_uapp u a y).
  assert (J1 : usys_inv (mk_usys u1 l)) by (apply inv_put_uapp; [exact I|]; split_and!; [exact R| |discriminate|tauto]; auto).
  change (k_nic (us_k u1)) with (k_nic (us_k u)). change (ax_doorbell_id (kctx (us_k u1) c)) with (db_of u c).
  change (ax_evfd (kctx (us_k u1) c)) with (evfd_of u c).
  destruct (nicif_appctx_add _ _ _ _ _ _ _ _) as [s r] eqn:E.
  destruct (appctx_add_spec _ _ _ _ _ _ _ _ _ _ E) as (Nc & Oth & _ & Fl).
  assert (J2 : usys_inv (mk_usys (u1 <| us_k := us_k u1 <| k_nic := s |> |>) l)).
  { apply inv_nic; [exact J1|rewrite Nc; exact (ui_cores _ I)|]. intros c' r' Er' G.
    destruct (decide (r = 0)) as [->|N0].
    - destruct (decide (c' = c)) as [->|N].
      + pose proof (pending_registered u x c _ _ (ui_cores _ I) P E) as G'. now rewrite (uctx_some u c r' Er') in G'.
      + apply (registered_other u1 c c' r' s); [|exact Oth|exact G]. intros e. apply N.
        destruct P as (_ & rc & Erc & _). apply (ui_db_inj _ I); eauto.
    - intros i h Hh. cbn. rewrite (Fl N0). exact (G i h Hh). }
  destruct (r =? 0) eqn:R0; cbn [negb fst].
  - apply Z.eqb_eq in R0 as ->. apply (inv_enqueue _ _ _ y c J2); try reflexivity; try assumption.
    + apply lookup_insert_eq.
    + destruct (rg_epollin x) eqn:Ep; [|exact Ep]. destruct (A eq_refl). discriminate.
    + exact (pending_registered u x c _ _ (ui_cores _ I) P E).
  - apply inv_error; [exact J2|]. cbn. rewrite lookup_insert_eq. eauto.
Qed.

(** ** A new context *)

Lemma inv_set_pm u l pm lost' : usys_inv (mk_usys u l) -> Forall block_ok pm ->
  (forall x, owners (k_pm (us_k u)) x = owners pm x + owners lost' x) -> usys_inv (mk_usys (set_pm u pm) l).
Proof.
  intros [] O D. constructor; cbn in *; try assumption.
  - tauto.
  - destruct ui_mem0 as [lost L]. exists (lost ++ lost'). intros x. specialize (L x). specialize (D x).
    rewrite owners_app. change (held (set_pm u pm)) with (held u). lia.
Qed.

Lemma inv_kmem u l m : usys_inv (mk_usys u l) -> usys_inv (mk_usys (set_kmem u m) l).
Proof. intros []. now constructor. Qed.

Lemma held_new u c r : us_ctxs u !! c = None -> held (put_uctx u c r) ≡ₚ ctx_blocks r ++ held u.
Proof.
  intros E. unfold held. cbn. rewrite fmap_insert.
  rewrite map_to_list_insert by (now rewrite lookup_fmap, E). reflexivity.
Qed.

Section NewContext.
Context (u : ust) (l : list block) (c db : Z) (dbs : list Z) (pm : list block) (ax : app_context) (rg : ctx_reg)
        (ap : gmap Z application).
Context (I : usys_inv (mk_usys u l)) (Fresh : us_ctxs u !! c = None) (Free : us_free_doorbells u = db :: dbs)
        (Db : ax_doorbell_id ax = db) (Rdy : cg_ready rg = 0) (Pm : Forall block_ok pm) (Bl : Forall block_ok (ctx_blocks rg))
        (Ow : forall x, owners (k_pm (us_k u)) x = owners pm x + owners (ctx_blocks rg) x).
Let v : ust := put_uctx (u <| us_k := put_ctx (us_k u) c ax <| k_pm := pm |> <| k_app := ap |> |>
                           <| us_free_doorbells := dbs |>) c rg.

Lemma new_db_at : db_of v c = db.
Proof. unfold db_of, kctx. cbn. now rewrite lookup_total_insert_eq. Qed.
Lemma new_kctx_other c' : c' <> c -> kctx (us_k v) c' = kctx (us_k u) c'.
Proof. intros N. unfold kctx. cbn. now rewrite lookup_total_insert_ne by congruence. Qed.
Lemma new_known c' : is_Some (us_ctxs u !! c') -> c' <> c.
Proof. intros [? E] ->. congruence. Qed.
Lemma new_db_old c' : is_Some (us_ctxs u !! c') -> db_of v c' = db_of u c'.
Proof. intros D. unfold db_of. now rewrite new_kctx_other by (now apply new_known). Qed.
Lemma new_dom c' : is_Some (us_ctxs v !! c') -> c' = c \/ is_Some (us_ctxs u !! c').
Proof. cbn. destruct (decide (c' = c)) as [->|N]; [auto|]. rewrite lookup_insert_ne by congruence. auto. Qed.

Lemma new_registered c' rg' : us_ctxs u !! c' = Some rg' -> registered u c' rg' -> registered v c' rg'.
Proof.
  intros E G i h Hh. assert (K : is_Some (us_ctxs u !! c')) by eauto. rewrite (new_db_old c' K).
  unfold evfd_of. rewrite new_kctx_other by (now apply new_known). exact (G i h Hh).
Qed.

Lemma new_app_inv a x : app_inv u a x -> app_inv v a x.
Proof.
  intros (R & A & B & C).
  assert (Old : forall c' rg', us_ctxs u !! c' = Some rg' -> us_ctxs v !! c' = Some rg').
  { intros c' rg' E. cbn. rewrite lookup_insert_ne; [exact E|]. intros ->. congruence. }
  assert (Pend : forall c', pending u x c' -> pending v x c').
  { intros c' (E & rg' & Er & P). split; [exact E|]. exists rg'. rewrite (new_db_old c') by eauto. split; [exact (Old _ _ Er)|exact P]. }
  split_and!; [exact R|exact A| |].
  - intros c' e. destruct (B c' e). auto.
  - intros Q. destruct (C Q) as (c' & P & G). exists c'. split; [auto|]. destruct P as (_ & rg' & Er & _).
    rewrite (uctx_some v c' rg' (Old _ _ Er)). apply new_registered; [exact Er|]. now rewrite (uctx_some u c' rg' Er) in G.
Qed.

Lemma inv_new_ctx : usys_inv (mk_usys v l).
Proof.
  pose proof (held_new u c rg Fresh) as Hd. change (held (put_uctx u c rg)) with (held v) in Hd.
  pose proof I as []. cbn [sy_u sy_conns] in *. rewrite Free in *. destruct ui_free0 as [Nd Fd].
  apply NoDup_cons in Nd as [Nin Nd]. apply Forall_cons in Fd as [Rdb Fd].
  constructor; cbn [sy_u sy_conns].
  - destruct ui_ok0 as (O1 & O2 & O3). split_and!; [exact Pm|exact O2|]. rewrite Hd. now apply Forall_app.
  - destruct ui_mem0 as [lost L]. exists lost. intros x. rewrite (owners_perm _ _ x Hd), owners_app.
    specialize (L x). specialize (Ow x). change (k_pm (us_k v)) with pm. lia.
  - now split.
  - intros c' D. destruct (new_dom c' D) as [->|K]; [rewrite new_db_at; auto|]. rewrite (new_db_old c' K).
    destruct (ui_db0 c' K) as [Rg N]. split; [exact Rg|]. rewrite not_elem_of_cons in N. tauto.
  - assert (Apart : forall c', is_Some (us_ctxs u !! c') -> db_of u c' <> db).
    { intros c' K e. destruct (ui_db0 c' K) as [_ N]. rewrite not_elem_of_cons in N. tauto. }
    intros c1 c2 D1 D2. destruct (new_dom c1 D1) as [->|K1], (new_dom c2 D2) as [->|K2];
      rewrite ?new_db_at, ?(new_db_old c1 K1), ?(new_db_old c2 K2); [auto| | |auto].
    + intros e. now destruct (Apart c2 K2).
    + intros e. now destruct (Apart c1 K1).
  - intros c' rg' E Rd. destruct (decide (c' = c)) as [->|N].
    + cbn in E. rewrite lookup_insert_eq in E. injection E as <-. contradiction.
    + cbn in E. rewrite lookup_insert_ne in E by congruence. apply new_registered; eauto.
  - intros a x E. apply new_app_inv. eauto.
  - exact ui_queue0.
  - exact ui_cores0.
Qed.
End NewContext.

(** The memory a request takes before its doorbell: two queues for the kernel
    and what the loop over the cores took. *)
Lemma request_memory pm pm1 pi pm2 po rl tl m pm3 m' r : Forall block_ok pm -> 0 <= rl -> 0 <= tl ->
  packetmem_alloc pm app_kin_len = Some (pm1, pi) -> packetmem_alloc pm1 app_kout_len = Some (pm2, po) ->
  alloc_queues (Z.to_nat cores_num) pm2 rl tl m = (pm3, m', r) ->
  block_ok pi /\ block_ok po /\ Forall block_ok pm3 /\
  exists q, Forall block_ok q /\
    (forall x, owners pm x = owners pm3 x + in_block pi x + in_block po x + owners q x) /\
    forall hs, r = Some hs -> q = queue_blocks hs /\ length hs = Z.to_nat cores_num /\
      Forall (fun h => pm_len h.1 = rl /\ pm_len h.2 = tl) hs.
Proof.
  intros Op Rl Tl E1 E2 E3.
  destruct (alloc_owners _ _ _ _ Op Kin E1) as (O1 & B1 & _ & D1).
  destruct (alloc_owners _ _ _ _ O1 Kout E2) as (O2 & B2 & _ & D2).
  destruct (alloc_queues_spec _ _ _ _ _ _ _ _ O2 Rl Tl E3) as (O3 & _ & q & Bq & D3 & R).
  split_and!; try assumption. exists q. split_and!; [exact Bq| |].
  - intros x. specialize (D1 x). specialize (D2 x). specialize (D3 x). lia.
  - intros hs ->. destruct R as (-> & Ln & F). split_and!; [reflexivity|exact Ln|].
    eapply Forall_impl; [exact F|]. tauto.
Qed.

Lemma free_both pm pi po q pm0 : Forall block_ok pm -> block_ok pi -> block_ok po ->
  (forall x, owners pm0 x = owners pm x + in_block pi x + in_block po x + owners q x) ->
  Forall block_ok (packetmem_free (packetmem_free pm po) pi) /\
  forall x, owners pm0 x = owners (packetmem_free (packetmem_free pm po) pi) x + owners q x.
Proof.
  intros O Bi Bo D. destruct (free_owners _ _ O Bo) as [O1 D1]. destruct (free_owners _ _ O1 Bi) as [O2 D2].
  split; [exact O2|]. intros x. rewrite D, D2, D1. lia.
Qed.

Lemma le_value_nonneg l : Forall (fun b => 0 <= b < 256) l -> 0 <= le_value l.
Proof. induction 1; cbn; lia. Qed.

Lemma request_lens x : request_ok x -> 0 <= req_rxq_len (rg_req x) /\ 0 <= req_txq_len (rg_req x).
Proof. intros [_ B]. split; apply le_value_nonneg; auto using Forall_take, Forall_drop. Qed.

Lemma inv_request_fails u l a pm m q : usys_inv (mk_usys u l) -> is_Some (us_apps u !! a) -> Forall block_ok pm ->
  (forall x, owners (k_pm (us_k u)) x = owners pm x + owners q x) ->
  usys_inv (mk_usys (uxsocket_error (set_pm (set_kmem u m) pm) a) l).
Proof.
  intros I Ha O D. apply inv_error; [|exact Ha]. apply (inv_set_pm _ _ _ q); [apply inv_kmem, I|exact O|exact D].
Qed.

Lemma inv_new_context u l a x c evfd u' : usys_inv (mk_usys u l) -> us_apps u !! a = Some x -> rg_epollin x = true ->
  (forall i, c = Some i -> us_ctxs u !! i = None) ->
  new_context cores_num app_kin_len app_kout_len u a c evfd = Ok u' -> usys_inv (mk_usys u' l).
Proof.
  intros I Hx Ep Fr E. assert (Ha : is_Some (us_apps u !! a)) by eauto.
  pose proof (ui_apps _ I a x Hx) as Ia. cbn in Ia. destruct Ia as (R & A & B & C). destruct (A Ep) as [Nx Q].
  destruct (ui_ok _ I) as (Opm & _ & _). cbn in Opm. unfold new_context in E. rewrite (uapp_some u a x Hx) in E.
  destruct c as [c|]; [|injection E as <-; now apply inv_error].
  destruct (packetmem_alloc (k_pm (us_k u)) app_kin_len) as [[pm1 pi]|] eqn:E1; [|injection E as <-; now apply inv_error].
  destruct (packetmem_alloc pm1 app_kout_len) as [[pm2 po]|] eqn:E2.
  2:{ injection E as <-. destruct (alloc_owners _ _ _ _ Opm Kin E1) as (O1 & B1 & _ & D1).
      destruct (free_owners _ _ O1 B1) as [O2 D2]. apply inv_error; [|exact Ha].
      apply (inv_set_pm _ _ _ []); [exact I|exact O2|]. intros y. cbn. rewrite D2, D1. lia. }
  cbv zeta in E. destruct (alloc_queues _ _ _ _ _) as [[pm3 m] r] eqn:E3.
  destruct (request_lens x R) as [Rl Tl].
  destruct (request_memory _ _ _ _ _ _ _ _ _ _ _ Opm Rl Tl E1 E2 E3) as (Bi & Bo & O3 & q & Bq & D & Hs).
  destruct (free_both pm3 pi po q _ O3 Bi Bo D) as [Of Df].
  destruct r as [hs|]; [|injection E as <-; exact (inv_request_fails _ _ _ _ _ _ I Ha Of Df)].
  change (us_free_doorbells (set_kmem u m)) with (us_free_doorbells u) in E.
  destruct (us_free_doorbells u) as [|db dbs] eqn:Fd; [injection E as <-; exact (inv_request_fails _ _ _ _ _ _ I Ha Of Df)|].
  bind_inv E. injection E as <-. destruct (Hs hs eq_refl) as (-> & Ln & F).
  set (ax := mk_app_context a ∅ (app_kin_len / 64) 0 ∅ (app_kout_len / 64) 0 db evfd (ax_last_ts (kctx (us_k u) c))).
  assert (Ow : forall y, owners (k_pm (us_k (set_kmem u m))) y = owners pm3 y + owners (ctx_blocks (mk_ctx_reg pi po hs 0)) y).
  { intros y. specialize (D y). unfold ctx_blocks. cbn [owners cg_kin_handle cg_kout_handle cg_handles].
    change (k_pm (us_k (set_kmem u m))) with (k_pm (us_k u)). lia. }
  assert (Bl : Forall block_ok (ctx_blocks (mk_ctx_reg pi po hs 0))) by (do 2 (constructor; [assumption|]); exact Bq).
  refine (inv_put_uapp _ l a _ (inv_new_ctx (set_kmem u m) l c db dbs pm3 ax (mk_ctx_reg pi po hs 0) _
            (inv_kmem _ _ m I) (Fr c eq_refl) Fd eq_refl eq_refl O3 Bl Ow) _).
  split_and!; [exact R|discriminate| |].
  - intros c' [= <-]. split; [|exact Q]. split; [reflexivity|]. exists (mk_ctx_reg pi po hs 0). cbn.
    rewrite lookup_insert_eq. split_and!; auto. unfold db_of, kctx. cbn. now rewrite lookup_total_insert_eq.
  - intros Q'. now destruct Q.
Qed.

Lemma inv_receive u l a rx fds c u' : usys_inv (mk_usys u l) -> is_Some (us_apps u !! a) -> rg_epollin (uapp u a) = true ->
  (forall bs, rx = Some bs -> Forall (fun b => 0 <= b < 256) bs /\ Z.of_nat (length bs) <= 8 - rg_req_rx (uapp u a)) ->
  0 <= rg_req_rx (uapp u a) -> (forall i, c = Some i -> us_ctxs u !! i = None) ->
  uxsocket_receive cores_num app_kin_len app_kout_len u a rx fds c = Ok u' -> usys_inv (mk_usys u' l).
Proof.
  intros I Ha Ep Rx Pos Fr E. unfold uxsocket_receive in E. apply obind_ok in E as ([] & _ & E).
  destruct rx as [bs|]; [|injection E as <-; now apply inv_error].
  destruct Ha as [x Hx]. rewrite (uapp_some u a x Hx) in *. destruct (Rx bs eq_refl) as [Bb Lb]. cbv zeta in E.
  pose proof (ui_apps _ I a x Hx) as Ia. cbn in Ia. destruct Ia as ([R1 R2] & A & B & C). destruct (A Ep) as [Nx Q].
  assert (J : forall n, usys_inv (mk_usys (put_uapp u a (x <| rg_req := bs ++ drop (length bs) (rg_req x) |> <| rg_req_rx := n |>)) l)).
  { intros n. apply inv_put_uapp; [exact I|]. split_and!; [split; cbn|intros _; split; [exact Nx|exact Q]| |tauto].
    - rewrite length_app, length_drop. lia.
    - apply Forall_app. split; [exact Bb|]. now apply Forall_drop.
    - intros c' e. cbn in e. congruence. }
  destruct (_ <? SZ_UXSOCK_REQ); [injection E as <-; apply J|].
  eapply (inv_new_context _ _ _ _ _ _ _ (J 0)); [apply lookup_insert_eq|exact Ep|exact Fr|exact E].
Qed.

Lemma usys_step_inv s s' : usys_inv s -> usys_step s s' -> usys_inv s'.
Proof.
  intros I St. destruct St; eauto using inv_accept, inv_receive, inv_error, inv_notify, inv_add, inv_register, inv_kernel.
Qed.

Lemma usys_reachable_inv u s : usys_init u -> rtc usys_step (mk_usys u []) s -> usys_inv s.
Proof.
  intros I0 R. assert (I : usys_inv (mk_usys u [])) by now apply inv_init.
  clear I0. induction R; eauto using usys_step_inv.
Qed.

(** A run of [uxsocket_notify] is a sequence of these steps. *)
Lemma notify_app_queue u a tx u' : uxsocket_notify_app u a tx = Ok u' -> us_poll_to_ux u' = us_poll_to_ux u.
Proof.
  unfold uxsocket_notify_app. cbv zeta. destruct (negb _); [now intros [= <-]|].
  destruct (rg_need_reg_ctx_done _); [|discriminate]. now destruct (tx <? _); intros [= <-].
Qed.

Lemma notify_steps l tx q : forall u u', us_poll_to_ux u = q -> notify_loop u q tx = Ok u' ->
  rtc usys_step (mk_usys u l) (mk_usys u' l).
Proof.
  induction q as [|a q IH]; intros u u' Q E; cbn [notify_loop] in E; [injection E as <-; constructor|].
  bind_inv E. eapply rtc_l; [eapply us_notify; eassumption|]. apply IH; [|exact E]. now rewrite (notify_app_queue _ _ _ _ E0).
Qed.

Lemma uxsocket_notify_steps l tx u u' : uxsocket_notify u tx = Ok u' -> rtc usys_step (mk_usys u l) (mk_usys u' l).
Proof. now apply notify_steps. Qed.

End System.
