(* ===== verification/UxAgree.v ===== *)
(** An application and the kernel agree on what was registered: the messages of
    kernel/appif.c as stack/kernel.c reads them. *)
From stdpp Require Import base numbers list gmap relations.
From Stdlib Require Import ZArith Lia.
From S2P Require Import Prelude Packet FlowState Dma FastPath FastRx Queues PacketMem NicIf KernelState Appif AppConn AppPoll UxSocket UxSafe.

(** ** Connecting *)

Lemma recv_batches fuel fds got : (length fds <= fuel)%nat ->
  recv_fds (map (fun b => ([0], b)) (fd_batches fuel fds)) (Z.of_nat (length fds)) got = Ok (got ++ fds).
Proof.
  revert fds got. induction fuel as [|fuel IH]; intros fds got L.
  { destruct fds; cbn in L; [|lia]. cbn. now rewrite app_nil_r. }
  destruct fds as [|f fds]; [cbn; now rewrite app_nil_r|]. set (all := f :: fds) in *.
  assert (P : (0 < length all)%nat) by (cbn; lia).
  change (fd_batches (S fuel) all) with (take 4 all :: fd_batches fuel (drop 4 all)). cbn [map recv_fds].
  destruct (Z.leb_spec (Z.of_nat (length all)) 0); [lia|]. cbn [length Nat.eqb assert_ obind]. cbv zeta.
  assert (N : Z.of_nat (length (take 4 all)) = if 4 <=? Z.of_nat (length all) then 4 else Z.of_nat (length all)).
  { rewrite length_take. destruct (Z.leb_spec 4 (Z.of_nat (length all))); lia. }
  rewrite <- N, Z.eqb_refl. cbn [assert_ obind].
  replace (Z.of_nat (length all) - Z.of_nat (length (take 4 all))) with (Z.of_nat (length (drop 4 all)))
    by (rewrite length_take, length_drop; lia).
  rewrite IH by (rewrite length_drop; lia). now rewrite <- app_assoc, take_drop.
Qed.

(** ** The answer *)

Record resp_ok (r : kernel_uxsock_response) : Prop := mk_resp_ok
  { ro_offs : 0 <= ur_app_out_off r < 2 ^ 64 /\ 0 <= ur_app_in_off r < 2 ^ 64;
    ro_lens : 0 <= ur_app_out_len r < 2 ^ 32 /\ 0 <= ur_app_in_len r < 2 ^ 32;
    ro_status : 0 <= ur_status r < 2 ^ 32;
    ro_db : 0 <= ur_flexnic_db_id r < 2 ^ 16;
    ro_num : ur_flexnic_qs_num r = Z.of_nat (length (ur_flexnic_qs r)) /\ ur_flexnic_qs_num r < 2 ^ 16;
    ro_qs : Forall (fun q => 0 <= q.1 < 2 ^ 64 /\ 0 <= q.2 < 2 ^ 64) (ur_flexnic_qs r) }.

Lemma length_queue_bytes qs : length (concat (map ux_queue_bytes qs)) = (16 * length qs)%nat.
Proof. induction qs as [|q qs IH]; [reflexivity|]. cbn [map concat length]. rewrite length_app, IH. unfold ux_queue_bytes. rewrite length_app, !length_le_bytes. lia. Qed.

Lemma queue_fields b b' qs : b' = b + 8 -> Forall (fun q => 0 <= q.1 < 2 ^ 64 /\ 0 <= q.2 < 2 ^ 64) qs -> forall pre j,
  Z.of_nat (length pre) = b + 16 * j ->
  let l := pre ++ concat (map ux_queue_bytes qs) in
  map (fun i => (le_value (slice l (b + 16 * i) 8), le_value (slice l (b' + 16 * i) 8))) (seqZ j (Z.of_nat (length qs))) = qs.
Proof.
  intros ->. induction 1 as [|[r t] qs [Fr Ft] F IH]; intros pre j E; [reflexivity|]. cbn [fst snd] in Fr, Ft. cbv zeta.
  rewrite seqZ_cons by (cbn [length]; lia). cbn [map concat]. unfold ux_queue_bytes at 1 2 3. cbn [fst snd].
  rewrite <- !app_assoc. f_equal.
  - f_equal; [apply le_field; lia|].
    rewrite (app_assoc pre). apply le_field; [rewrite length_app, length_le_bytes|..]; lia.
  - replace (Z.pred (Z.of_nat (length ((r, t) :: qs)))) with (Z.of_nat (length qs)) by (cbn [length]; lia).
    specialize (IH (pre ++ le_bytes 8 r ++ le_bytes 8 t) (Z.succ j)). rewrite <- !app_assoc in IH. apply IH.
    rewrite !length_app, !length_le_bytes. lia.
Qed.

(** Field by field of [ux_resp_bytes]. *)
Ltac skip_fields :=
  repeat (rewrite slice_skip by (rewrite length_le_bytes; lia); rewrite length_le_bytes);
  cbn [Z.of_nat Pos.of_succ_nat Pos.succ Z.sub Z.add Z.opp Z.pos_sub Pos.pred_double Z.succ_double Z.pred_double Z.double].

Definition ux_header (r : kernel_uxsock_response) : list Z :=
  le_bytes 8 (ur_app_out_off r) ++ le_bytes 8 (ur_app_in_off r) ++ le_bytes 4 (ur_app_out_len r) ++
  le_bytes 4 (ur_app_in_len r) ++ le_bytes 4 (ur_status r) ++ le_bytes 2 (ur_flexnic_db_id r) ++
  le_bytes 2 (ur_flexnic_qs_num r).

Lemma resp_bytes_split r : ux_resp_bytes r = ux_header r ++ concat (map ux_queue_bytes (ur_flexnic_qs r)).
Proof. unfold ux_resp_bytes, ux_header. now rewrite <- !app_assoc. Qed.
Lemma length_ux_header r : length (ux_header r) = 32%nat.
Proof. unfold ux_header. now rewrite !length_app, !length_le_bytes. Qed.

Lemma header_num r c : resp_ok r -> le_value (slice (ux_header r ++ c) 30 2) = ur_flexnic_qs_num r.
Proof.
  intros []. unfold ux_header. rewrite <- !app_assoc. skip_fields. apply le_first; [reflexivity|]. lia.
Qed.

Lemma answer_parses r : resp_ok r -> bytes_ux_resp (ux_resp_bytes r) = r.
Proof.
  intros R. pose proof R as []. rewrite resp_bytes_split. unfold bytes_ux_resp. cbv zeta.
  rewrite (header_num r _ R), (proj1 ro_num0), (queue_fields 32 40 _ eq_refl ro_qs0 (ux_header r) 0) by (now rewrite length_ux_header).
  rewrite <- (proj1 ro_num0). unfold ux_header. rewrite <- !app_assoc. destruct r as [oo ol io il st db n qs].
  cbn [ur_app_out_off ur_app_in_off ur_app_out_len ur_app_in_len ur_status ur_flexnic_db_id ur_flexnic_qs_num ur_flexnic_qs] in *.
  f_equal; skip_fields; apply le_first; tauto || lia.
Qed.

(** ** Reading in pieces *)

Lemma read_full_ok total rs : forall buf stream,
  (length buf <= total)%nat -> (total <= length buf + length stream)%nat -> (total - length buf <= length rs)%nat ->
  Forall (fun r => exists n, r = Some (S n)) rs ->
  exists rs', read_full total buf stream rs =
      Ok (Some (buf ++ take (total - length buf) stream, drop (total - length buf) stream, rs')) /\
    Forall (fun r => exists n, r = Some (S n)) rs' /\ (length rs <= length rs' + (total - length buf))%nat.
Proof.
  induction rs as [|r rs IH]; intros buf stream Lb Ls Lr F.
  - cbn in Lr. exists []. cbn [read_full]. destruct (Nat.leb_spec total (length buf)); [|lia].
    replace (total - length buf)%nat with 0%nat by lia. cbn. rewrite app_nil_r. auto.
  - cbn [read_full]. destruct (Nat.leb_spec total (length buf)) as [L|L].
    { replace (total - length buf)%nat with 0%nat by lia. cbn [take drop]. rewrite app_nil_r. exists (r :: rs). split_and!; auto. lia. }
    apply Forall_cons in F as [[n ->] F]. cbv zeta. set (k := Nat.min (S n) (total - length buf)).
    cbn in Lr. assert (K : (1 <= k <= total - length buf)%nat) by lia.
    assert (Lt : length (take k stream) = k) by (rewrite length_take; lia).
    destruct (IH (buf ++ take k stream) (drop k stream)) as (rs' & E & F' & L'); rewrite ?length_app, ?length_drop, ?Lt; try lia; auto.
    exists rs'. rewrite E. rewrite length_app, Lt in *. split_and!; [|exact F'|cbn; lia].
    rewrite <- app_assoc, take_take_drop, drop_drop.
    replace (k + (total - (length buf + k)))%nat with (total - length buf)%nat by lia. reflexivity.
Qed.

(** However the answer arrives, the application builds its context from it. *)
Lemma newctx_answer_ok x r rest rs : resp_ok r -> ur_flexnic_qs_num r <= FLEXTCP_MAX_FTCPCORES ->
  Forall (fun r => exists n, r = Some (S n)) rs -> (length (ux_resp_bytes r) <= length rs)%nat ->
  newctx_answer x (ux_resp_bytes r ++ rest) rs = flextcp_kernel_newctx x r.
Proof.
  intros R M F L. pose proof (ro_num _ R) as [N _]. pose proof (length_ux_header r) as Lh.
  pose proof (length_queue_bytes (ur_flexnic_qs r)) as Lq. pose proof (resp_bytes_split r) as S.
  assert (Lb : length (ux_resp_bytes r) = (32 + 16 * length (ur_flexnic_qs r))%nat) by (rewrite S, length_app, Lh, Lq; lia).
  unfold newctx_answer. change (Z.to_nat SZ_UXSOCK_RESP) with 32%nat.
  destruct (read_full_ok 32 rs [] (ux_resp_bytes r ++ rest)) as (rs1 & E1 & F1 & L1);
    rewrite ?length_app; cbn [length]; try lia; [exact F|].
  rewrite E1. cbn [obind app]. change (32 - length [])%nat with 32%nat. rewrite S, <- app_assoc, <- Lh, take_app_length, drop_app_length.
  cbv zeta. pose proof (header_num r [] R) as Hn. rewrite app_nil_r in Hn. rewrite Hn.
  destruct (Z.ltb_spec FLEXTCP_MAX_FTCPCORES (ur_flexnic_qs_num r)); [lia|].
  set (q := concat (map ux_queue_bytes (ur_flexnic_qs r))) in *.
  assert (T : Z.to_nat (SZ_UXSOCK_RESP + 16 * ur_flexnic_qs_num r) = (length (ux_header r) + length q)%nat)
    by (rewrite N, Lh, Lq; unfold SZ_UXSOCK_RESP; lia).
  cbn [length] in L1. destruct (read_full_ok (length (ux_header r) + length q) rs1 (ux_header r) (q ++ rest)) as (rs2 & E2 & _);
    rewrite ?length_app; try lia; [exact F1|].
  rewrite T, E2. cbn [obind]. rewrite Nat.add_comm, Nat.add_sub, take_app_length, <- S, (answer_parses r R). reflexivity.
Qed.

Section Agree.
Context `{Platform} `{KEnv}.
Context (cores_num app_kin_len app_kout_len size db_num : Z).

(** ** Connecting *)

Lemma batches_sent cfd bss : forall u,
  let u' := foldl (fun u b => send_msg u cfd [0] b) u bss in
  us_sent u' = rev (map (pair cfd) (map (pair [0]) bss)) ++ us_sent u.
Proof.
  induction bss as [|b bss IH]; intros u; [reflexivity|]. cbn [foldl map rev]. cbv zeta in *. rewrite IH.
  now rewrite <- app_assoc.
Qed.

(** A client that connects gets the kernel's and every core's descriptor, in
    the order of the cores, whatever becomes of its application struct. *)
Theorem connect_gets_descriptors u notifyfd evfds cfd p resp_ok junk ep_ok :
  0 <= cfd -> cores_num < 2 ^ 32 -> Z.of_nat (length evfds) = cores_num ->
  exists u' msgs, uxsocket_accept cores_num u notifyfd evfds cfd true p resp_ok junk ep_ok = Ok u' /\
    us_sent u' = rev (map (pair cfd) msgs) ++ us_sent u /\
    flextcp_kernel_connect true msgs = Ok (0, notifyfd, evfds).
Proof.
  intros F C L. unfold uxsocket_accept. cbv zeta. destruct (Z.ltb_spec cfd 0); [lia|]. cbn [negb andb].
  rewrite firstn_all2 by lia. set (bss := fd_batches (length evfds) evfds).
  pose proof (batches_sent cfd bss (send_msg u cfd (le_bytes 4 cores_num) [notifyfd])) as S. cbv zeta in S.
  set (v := foldl _ _ bss) in *.
  assert (Rx : flextcp_kernel_connect true ((le_bytes 4 cores_num, [notifyfd]) :: map (pair [0]) bss) = Ok (0, notifyfd, evfds)).
  { cbn [flextcp_kernel_connect negb]. rewrite length_le_bytes. cbn [Nat.eqb assert_ obind length].
    rewrite le_value_bytes, Z.mod_small by (change (256 ^ Z.of_nat 4) with (2 ^ 32); lia).
    rewrite <- L. unfold bss. now rewrite (recv_batches _ evfds []) by lia. }
  assert (E : us_sent v = rev (map (pair cfd) ((le_bytes 4 cores_num, [notifyfd]) :: map (pair [0]) bss)) ++ us_sent u).
  { rewrite S. cbn [map rev]. now rewrite <- app_assoc. }
  destruct p as [a|]; [|eauto]. destruct (negb resp_ok || negb ep_ok); eauto.
Qed.

(** ** A request in two pieces *)

Lemma new_context_no_fd u a c :
  match new_context cores_num app_kin_len app_kout_len u a c 0 with
  | Ok u' => rg_closed (uapp u' a) = true /\ us_ctxs u' = us_ctxs u
  | Crash => True
  | Spin => False
  end.
Proof.
  assert (E : forall v, us_ctxs v = us_ctxs u -> rg_closed (uapp (uxsocket_error v a) a) = true /\ us_ctxs (uxsocket_error v a) = us_ctxs u).
  { intros v Ev. split; [|exact Ev]. unfold uapp. cbn. now rewrite lookup_total_insert_eq. }
  unfold new_context. destruct c as [c|]; [|now apply E].
  destruct (packetmem_alloc _ _) as [[pm pi]|]; [|now apply E].
  destruct (packetmem_alloc pm _) as [[pm' po]|]; [|now apply E]. cbv zeta.
  destruct (alloc_queues _ _ _ _ _) as [[pm3 m] [hs|]]; [|now apply E].
  destruct (us_free_doorbells _) as [|d ds]; [now apply E|]. exact I.
Qed.

Lemma new_context_aborts u a c fd u' : new_context cores_num app_kin_len app_kout_len u a c fd = Ok u' ->
  us_ctxs u' <> us_ctxs u -> new_context cores_num app_kin_len app_kout_len u a c 0 = Crash.
Proof.
  unfold new_context. destruct c as [c|]; [|now intros [= <-] []].
  destruct (packetmem_alloc _ _) as [[pm pi]|]; [|now intros [= <-] []].
  destruct (packetmem_alloc pm _) as [[pm' po]|]; [|now intros [= <-] []]. cbv zeta.
  destruct (alloc_queues _ _ _ _ _) as [[pm3 m] [hs|]]; [|now intros [= <-] []].
  destruct (us_free_doorbells _) as [|d ds]; [now intros [= <-] []|]. reflexivity.
Qed.

(** C39. A request whose bytes arrive in two pieces, its descriptor with the first,
    is never served: the kernel aborts where the same request with a descriptor
    in its last piece is served, and otherwise the application is closed. *)
Theorem split_request_never_served u a x b1 b2 fd c1 c2 :
  us_apps u !! a = Some x -> rg_req_rx x = 0 -> b1 <> [] -> b2 <> [] -> (length b1 + length b2 = 8)%nat -> (length fd <= 1)%nat ->
  let receive := uxsocket_receive cores_num app_kin_len app_kout_len in
  exists u1, receive u a (Some b1) fd c1 = Ok u1 /\ us_ctxs u1 = us_ctxs u /\
    match receive u1 a (Some b2) [] c2 with
    | Ok u2 => rg_closed (uapp u2 a) = true /\ us_ctxs u2 = us_ctxs u
    | Crash => True
    | Spin => False
    end /\
    forall fd2 u2, receive u1 a (Some b2) [fd2] c2 = Ok u2 -> us_ctxs u2 <> us_ctxs u ->
      receive u1 a (Some b2) [] c2 = Crash.
Proof.
  intros Ex R0 N1 N2 L Lf. assert (L1 : (0 < length b1)%nat) by (destruct b1; cbn; [congruence|lia]).
  assert (L2 : (0 < length b2)%nat) by (destruct b2; cbn; [congruence|lia]).
  cbv zeta. unfold uxsocket_receive at 1. rewrite (proj2 (Nat.leb_le _ _) Lf). cbn [assert_ obind]. cbv zeta. rewrite (uapp_some u a x Ex).
  change (rg_req_rx (x <| rg_req := _ |>)) with (rg_req_rx x). rewrite R0. unfold SZ_UXSOCK_REQ.
  destruct (Z.ltb_spec (Z.of_nat (length b1) + 0) 8); [|lia].
  eexists. split; [reflexivity|]. split; [reflexivity|]. set (u1 := put_uapp u a _).
  assert (E : forall fds, (length fds <= 1)%nat -> uxsocket_receive cores_num app_kin_len app_kout_len u1 a (Some b2) fds c2 =
    new_context cores_num app_kin_len app_kout_len (put_uapp u1 a (uapp u1 a <| rg_req := b2 ++ drop (length b2) (rg_req (uapp u1 a)) |>
      <| rg_req_rx := 0 |>)) a c2 (hd 0 fds)).
  { intros fds Lf2. unfold uxsocket_receive. rewrite (proj2 (Nat.leb_le _ _) Lf2). cbn [assert_ obind]. cbv zeta.
    change (rg_req_rx (uapp u1 a <| rg_req := _ |>)) with (rg_req_rx (uapp u1 a)).
    assert (Rx : rg_req_rx (uapp u1 a) = Z.of_nat (length b1)).
    { unfold uapp, u1. cbn. rewrite lookup_total_insert_eq. cbn. lia. }
    rewrite Rx. unfold SZ_UXSOCK_REQ. destruct (Z.ltb_spec (Z.of_nat (length b2) + Z.of_nat (length b1)) 8); [lia|reflexivity]. }
  rewrite !E by (cbn; lia). cbn [hd]. set (u2 := put_uapp u1 a _). split; [exact (new_context_no_fd u2 a c2)|].
  intros fd2 u3. rewrite E by (cbn; lia). intros E3 N. exact (new_context_aborts u2 a c2 fd2 u3 E3 N).
Qed.

End Agree.

Section AgreeSystem.
Context `{Platform} `{KEnv}.
Context (cores_num app_kin_len app_kout_len size db_num : Z).
Context (Cores : 0 <= cores_num) (Kin : 0 <= app_kin_len) (Kout : 0 <= app_kout_len)
        (Size : 0 <= size < 18446744073709551616).

(** C7. When the functions of the socket thread, those of the main loop and the rest of
    the kernel run one at a time, in any order and any number of times, every byte of
    packet memory has at most one owner among the free list, the connections and the
    queues of contexts; contexts have different doorbells, none of them free, and none
    the kernel's; and a context the kernel polls is known to the fast path, with the
    queues allocated for it. That they run one at a time is an assumption: both
    threads use the allocator of packet memory, around which the code takes no lock. Two
    calls of it that do overlap can get the same block ([packetmem_alloc_overlaps]). *)
Theorem registration_safe u0 s : usys_init cores_num size db_num u0 ->
  rtc (usys_step cores_num app_kin_len app_kout_len) (mk_usys u0 []) s ->
  let u := sy_u s in
  (forall x, owners (k_pm (us_k u)) x + owners (sy_conns s) x + owners (held u) x <= in_block (mk_block 0 size) x) /\
  (forall c c', is_Some (us_ctxs u !! c) -> is_Some (us_ctxs u !! c') -> db_of u c = db_of u c' -> c = c') /\
  (forall c, is_Some (us_ctxs u !! c) -> 1 <= db_of u c < db_num /\ db_of u c ∉ us_free_doorbells u) /\
  (forall c r, us_ctxs u !! c = Some r -> cg_ready r <> 0 -> registered u c r).
Proof.
  intros I0 R. destruct (usys_reachable_inv _ _ _ _ _ Cores Kin Kout Size _ _ I0 R) as [_ [lost L] _ Db Inj Rdy _ _ _].
  cbv zeta. split_and!; auto. intros x. specialize (L x). pose proof (owners_nonneg lost x). lia.
Qed.

(** What the answer of a pending registration holds fits its fields. *)
Lemma pending_resp_ok s x c : usys_inv cores_num app_kin_len app_kout_len size db_num s ->
  app_kin_len < 2 ^ 32 -> app_kout_len < 2 ^ 32 -> db_num <= 2 ^ 16 -> cores_num < 2 ^ 16 ->
  pending cores_num app_kin_len app_kout_len (sy_u s) x c -> resp_ok (rg_resp x).
Proof using Cores Kin Kout.
  intros I K1 K2 Db C (_ & r & Er & -> & Ln & F). destruct (ui_db _ _ _ _ _ _ I c) as [Rd _]; [eauto|].
  assert (Ok0 : Forall block_ok (ctx_blocks r)).
  { pose proof (proj2 (proj2 (ui_ok _ _ _ _ _ _ I))) as O. rewrite Forall_forall in O |- *. intros b Hb. apply O.
    unfold held. apply list_elem_of_bind. exists (c, ctx_blocks r). split; [exact Hb|].
    apply elem_of_map_to_list. now rewrite lookup_fmap, Er. }
  apply Forall_cons in Ok0 as [B1 Ok0]. apply Forall_cons in Ok0 as [B2 Ok0]. unfold block_ok in B1, B2.
  constructor; cbn; rewrite ?length_map; try lia.
  apply Forall_map, Forall_forall. intros h Hh. cbn.
  rewrite Forall_forall in Ok0. assert (In : forall b, b ∈ [h.1; h.2] -> block_ok b).
  { intros b Hb. apply Ok0. unfold queue_blocks. apply list_elem_of_bind. eauto. }
  assert (block_ok h.1) by (apply In; left). assert (block_ok h.2) by (apply In; right; left). unfold block_ok in *. lia.
Qed.

Lemma newctx_queues x r : ur_flexnic_qs_num r <= FLEXTCP_MAX_FTCPCORES -> ur_status r = 0 ->
  exists x', flextcp_kernel_newctx x r = Ok (x', 0) /\ cx_db_id x' = ur_flexnic_db_id r /\
    cx_num_queues x' = ur_flexnic_qs_num r /\ cx_rxq_len x' = NIC_RXQ_LEN /\ cx_txq_len x' = NIC_TXQ_LEN /\
    forall i q, ur_flexnic_qs r !! i = Some q -> cx_queues x' !! Z.of_nat i = Some (mk_ctx_queue q.2 q.1 0 0).
Proof using Type.
  intros M S. unfold flextcp_kernel_newctx. destruct (Z.ltb_spec FLEXTCP_MAX_FTCPCORES (ur_flexnic_qs_num r)); [lia|].
  rewrite S. cbn [negb Z.eqb]. eexists. split; [reflexivity|]. split_and!; try reflexivity.
  intros i q Hq. cbn. apply lookup_union_Some_l. apply elem_of_list_to_map_1'.
  - intros y Hy. apply elem_of_lookup_imap in Hy as (j & q' & [= Ej ->] & Hj). apply Nat2Z.inj in Ej as <-. congruence.
  - apply elem_of_lookup_imap. eauto.
Qed.

(** A notification that sends something sends the application's answer, and
    marks its context as ready. *)
Lemma notify_sends u a x tx u' c : us_apps u !! a = Some x -> rg_need_reg_ctx_done x = Some c ->
  uxsocket_notify_app u a tx = Ok u' -> us_sent u' <> us_sent u ->
  us_sent u' = (rg_fd x, (ux_resp_bytes (rg_resp x), [])) :: us_sent u /\ us_k u' = us_k u /\ cg_ready (uctx u' c) = 1.
Proof using Type.
  intros Ex Ed E N. unfold uxsocket_notify_app in E. rewrite (uapp_some u a x Ex), Ed in E. cbv zeta in E.
  destruct (negb _); [injection E as <-; now destruct N|].
  destruct (tx <? _); injection E as <-; [now destruct N|]. split_and!; try reflexivity.
  unfold uctx. cbn. now rewrite lookup_total_insert_eq.
Qed.

(** C8. The answer an application gets describes what the fast path has: read in
    whatever pieces it arrives, it gives the application a context whose queue
    with each core is at the addresses in that core's registers, empty, with
    the lengths the application asked for. *)
Theorem registration_agrees u0 s a q tx u' x :
  app_kin_len < 2 ^ 32 -> app_kout_len < 2 ^ 32 -> db_num <= 2 ^ 16 -> cores_num <= FLEXTCP_MAX_FTCPCORES ->
  usys_init cores_num size db_num u0 -> rtc (usys_step cores_num app_kin_len app_kout_len) (mk_usys u0 []) s ->
  us_poll_to_ux (sy_u s) = a :: q -> uxsocket_notify_app (sy_u s <| us_poll_to_ux := q |>) a tx = Ok u' ->
  us_sent u' <> us_sent (sy_u s) ->
  exists c bs, us_sent u' = (rg_fd (uapp (sy_u s) a), (bs, [])) :: us_sent (sy_u s) /\ cg_ready (uctx u' c) = 1 /\
    forall rest rs, Forall (fun r => exists n, r = Some (S n)) rs -> (length bs <= length rs)%nat ->
      exists x', newctx_answer x (bs ++ rest) rs = Ok (x', 0) /\ cx_db_id x' = db_of u' c /\ cx_num_queues x' = cores_num /\
        forall i, 0 <= i < cores_num -> exists rb tb rl tl,
          cx_queues x' !! i = Some (mk_ctx_queue tb rb 0 0) /\
          nic_regs (k_nic (us_k u')) i (cx_db_id x') = (rb, tb, rl, tl, evfd_of u' c) /\
          (rg_req (uapp (sy_u s) a) = newctx_request -> rl = cx_rxq_len x' /\ tl = cx_txq_len x').
Proof.
  intros K1 K2 Db C I0 R Q E N. unfold FLEXTCP_MAX_FTCPCORES in C.
  pose proof (usys_reachable_inv _ _ _ _ _ Cores Kin Kout Size _ _ I0 R) as I.
  assert (Ha : a ∈ us_poll_to_ux (sy_u s)) by (rewrite Q; left).
  destruct (proj2 (ui_queue _ _ _ _ _ _ I) a Ha) as [y Hy].
  destruct (ui_apps _ _ _ _ _ _ I a y Hy) as (_ & _ & _ & D). destruct (D Ha) as (c & P & G).
  pose proof (pending_resp_ok s y c I K1 K2 Db ltac:(lia) P) as Ro. destruct P as (Ed & r & Er & Rs & Ln & F).
  edestruct (fun Hx => notify_sends _ a y tx u' c Hx Ed E) as (Es & Ek & Rdy); [exact Hy|exact N|].
  rewrite (uapp_some _ a y Hy). exists c, (ux_resp_bytes (rg_resp y)). split_and!; [exact Es|exact Rdy|].
  intros rest rs Frs Lrs. rewrite (newctx_answer_ok x (rg_resp y) rest rs Ro) by (assumption || (rewrite Rs; exact C)).
  destruct (newctx_queues x (rg_resp y)) as (x' & En & Edb & Enum & Erl & Etl & Qs); [rewrite Rs; exact C|now rewrite Rs|].
  exists x'. unfold db_of, evfd_of. rewrite Ek, Edb, Enum. split; [exact En|]. rewrite Rs. cbn.
  split_and!; [reflexivity..|].
  intros i Hi. destruct (lookup_lt_is_Some_2 (cg_handles r) (Z.to_nat i)) as [h Hh]; [lia|].
  rewrite (uctx_some _ c r Er) in G. specialize (G _ _ Hh). rewrite Z2Nat.id in G by lia.
  rewrite Forall_lookup in F. destruct (F _ _ Hh) as [Lr Lt]. unfold handle_regs in G. rewrite Lr, Lt in G.
  eexists _, _, _, _. split_and!; [|exact G|intros Rq; rewrite Rq, Erl, Etl; split; reflexivity].
  specialize (Qs (Z.to_nat i) (pm_base h.1, pm_base h.2)). rewrite Z2Nat.id in Qs by lia. apply Qs.
  rewrite Rs. cbn. change (map ?f ?l) with (f <$> l). now rewrite list_lookup_fmap, Hh.
Qed.
End AgreeSystem.
