(* ===== verification/SockState.v ===== *)
(** The POSIX layer over the application library: its structs
    (sockets/internal.h) and the table of file descriptors
    (sockets/manage_fd.c).

    Structs are in finite maps indexed by their address; freeing one deletes
    it.  The first member of [struct socket] is the union that starts with the
    connection or the listener of the library, so all three have one address,
    and [offsetof] in the event handlers is 0.  The two variants of the union
    are separate fields here: [so_type] says which one is in use.  Addresses
    returned by [calloc] and descriptors returned by [eventfd] are arguments. *)
From stdpp Require Import base numbers list gmap.
From Stdlib Require Import ZArith Lia.
From S2P Require Import Prelude Packet Dma FastPath AppConn.

(** ** Constants of the operating system's headers *)

Definition EBADF : Z := 9.
Definition EAGAIN : Z := 11.
Definition ENOMEM : Z := 12.
Definition EEXIST : Z := 17.
Definition EINVAL : Z := 22.
Definition ENOENT : Z := 2.
Definition EMFILE : Z := 24.
Definition ENOPROTOOPT : Z := 92.
Definition EOPNOTSUPP : Z := 95.
Definition ENOTSUP : Z := 95.
Definition EADDRINUSE : Z := 98.
Definition ENOBUFS : Z := 105.
Definition EISCONN : Z := 106.
Definition ENOTCONN : Z := 107.
Definition ECONNREFUSED : Z := 111.
Definition EALREADY : Z := 114.
Definition EINPROGRESS : Z := 115.

Definition EPOLLIN : Z := 1.
Definition EPOLLOUT : Z := 4.
Definition EPOLLERR : Z := 8.
Definition EPOLLHUP : Z := 16.
Definition EPOLLET : Z := 2147483648.
Definition EPOLL_CTL_ADD : Z := 1.
Definition EPOLL_CTL_DEL : Z := 2.
Definition EPOLL_CTL_MOD : Z := 3.

Definition AF_INET : Z := 2.
Definition SOCK_STREAM : Z := 1.
Definition SOCK_NONBLOCK : Z := 2048.
Definition SOCK_CLOEXEC : Z := 524288.
Definition O_NONBLOCK : Z := 2048.
Definition F_GETFL : Z := 3.
Definition F_SETFL : Z := 4.
Definition IPPROTO_TCP : Z := 6.
Definition TCP_NODELAY : Z := 1.
Definition SOL_SOCKET : Z := 1.
Definition SO_REUSEADDR : Z := 2.
Definition SO_ERROR : Z := 4.
Definition SO_SNDBUF : Z := 7.
Definition SO_RCVBUF : Z := 8.
Definition SO_REUSEPORT : Z := 15.
Definition INT_MIN : Z := -2147483648.

(** ** Structs *)

Inductive filehandle_type := SOCK_UNUSED | SOCK_SOCKET | SOCK_CONNECTION | SOCK_LISTENER.
#[export] Instance filehandle_type_eq_dec : EqDecision filehandle_type.
Proof. solve_decision. Defined.

Definition SOF_NONBLOCK : Z := 1.
Definition SOF_BOUND : Z := 2.
Definition SOF_REUSEPORT : Z := 4.

Inductive conn_status := SOC_CONNECTING | SOC_CONNECTED | SOC_FAILED.
#[export] Instance conn_status_eq_dec : EqDecision conn_status.
Proof. solve_decision. Defined.

Inductive listen_status := SOL_OPENING | SOL_OPEN | SOL_FAILED.
#[export] Instance listen_status_eq_dec : EqDecision listen_status.
Proof. solve_decision. Defined.

(** The list of pending accepts is the list of its nodes in their order. *)
Record socket_pending := mk_pending { sp_s : Z; sp_ctx : Z; sp_fd : Z }.
#[export] Instance socket_pending_eq_dec : EqDecision socket_pending.
Proof. solve_decision. Defined.

(** [data.connection] beside the embedded connection, and [data.listener]. *)
Record sock_conn := mk_sock_conn
  { sc_status : conn_status; sc_listener : option Z; sc_rx_buf_1 : Z; sc_rx_buf_2 : Z;
    sc_rx_len_1 : Z; sc_rx_len_2 : Z; sc_ctx : Z; sc_move_status : Z }.
#[export] Instance eta_sock_conn : Eta sock_conn := fun c => mk_sock_conn
  (sc_status c) (sc_listener c) (sc_rx_buf_1 c) (sc_rx_buf_2 c) (sc_rx_len_1 c) (sc_rx_len_2 c)
  (sc_ctx c) (sc_move_status c).
Record sock_listener := mk_sock_listener
  { sl_pending : list socket_pending; sl_backlog : Z; sl_status : listen_status }.
#[export] Instance eta_sock_listener : Eta sock_listener := fun l => mk_sock_listener
  (sl_pending l) (sl_backlog l) (sl_status l).

(** The members of [struct sockaddr_in] as they are in memory. *)
Record sockaddr_in := mk_sockaddr_in { sin_family : Z; sin_port : Z; s_addr : Z; sin_zero : Z }.
Definition SZ_SOCKADDR_IN : Z := 16.
Definition sockaddr_bytes (a : sockaddr_in) : list Z :=
  le_bytes 2 (sin_family a) ++ le_bytes 2 (sin_port a) ++ le_bytes 4 (s_addr a) ++ le_bytes 8 (sin_zero a).

Record socket := mk_socket
  { so_conn : sock_conn; so_listener : sock_listener; so_addr : sockaddr_in; so_flags : Z;
    so_type : filehandle_type; so_ep_events : Z; so_eps : option Z }.
#[export] Instance eta_socket : Eta socket := fun s => mk_socket
  (so_conn s) (so_listener s) (so_addr s) (so_flags s) (so_type s) (so_ep_events s) (so_eps s).
(** What [calloc] leaves. *)
#[export] Instance socket_inhabited : Inhabited socket := populate (mk_socket
  (mk_sock_conn SOC_CONNECTING None 0 0 0 0 0 0) (mk_sock_listener [] 0 SOL_OPENING)
  (mk_sockaddr_in 0 0 0 0) 0 SOCK_UNUSED 0 None).

Record epoll := mk_epoll
  { ep_inactive : option Z; ep_active_first : option Z; ep_active_last : option Z;
    ep_num_linux : Z; ep_num_active : Z; ep_linux_cnt : Z }.
#[export] Instance eta_epoll : Eta epoll := fun e => mk_epoll
  (ep_inactive e) (ep_active_first e) (ep_active_last e) (ep_num_linux e) (ep_num_active e) (ep_linux_cnt e).
#[export] Instance epoll_inhabited : Inhabited epoll := populate (mk_epoll None None None 0 0 0).

Record epoll_socket := mk_epoll_socket
  { es_ep : Z; es_s : Z; es_ep_next : option Z; es_ep_prev : option Z;
    es_so_prev : option Z; es_so_next : option Z; es_data : Z; es_mask : Z; es_active : Z }.
#[export] Instance eta_epoll_socket : Eta epoll_socket := fun e => mk_epoll_socket
  (es_ep e) (es_s e) (es_ep_next e) (es_ep_prev e) (es_so_prev e) (es_so_next e) (es_data e)
  (es_mask e) (es_active e).
#[export] Instance epoll_socket_inhabited : Inhabited epoll_socket :=
  populate (mk_epoll_socket 0 0 None None None None 0 0 0).

(** [struct filehandle]: the tag and the pointer of its union. *)
Inductive filehandle := FH_UNUSED | FH_SOCKET (s : Z) | FH_EPOLL (e : Z).
#[export] Instance filehandle_inhabited : Inhabited filehandle := populate FH_UNUSED.

(** The process: the library, the layer's structs, the table of descriptors,
    [errno] and the thread-local [startwait] of [epoll_wait]. *)
Record sst := mk_sst
  { ss_lib : lib; ss_socks : gmap Z socket; ss_epolls : gmap Z epoll; ss_ess : gmap Z epoll_socket;
    ss_fhs : gmap Z filehandle; ss_errno : Z; ss_startwait : Z }.
#[export] Instance eta_sst : Eta sst := fun s => mk_sst
  (ss_lib s) (ss_socks s) (ss_epolls s) (ss_ess s) (ss_fhs s) (ss_errno s) (ss_startwait s).

Definition sk (st : sst) (s : Z) : socket := ss_socks st !!! s.
Definition put_sk (st : sst) (s : Z) (x : socket) : sst := st <| ss_socks := <[s := x]> (ss_socks st) |>.
Definition sep (st : sst) (e : Z) : epoll := ss_epolls st !!! e.
Definition put_sep (st : sst) (e : Z) (x : epoll) : sst := st <| ss_epolls := <[e := x]> (ss_epolls st) |>.
Definition ses (st : sst) (e : Z) : epoll_socket := ss_ess st !!! e.
Definition put_ses (st : sst) (e : Z) (x : epoll_socket) : sst := st <| ss_ess := <[e := x]> (ss_ess st) |>.
Definition set_errno (st : sst) (e : Z) : sst := st <| ss_errno := e |>.

(** ** manage_fd.c *)

Definition MAXSOCK : Z := 128 * 1024.

Definition flextcp_fd_init : Z := 0.

(** [calloc] clears the connection or listener embedded in the socket, too. *)
Definition clear_embedded (st : sst) (s : Z) : sst :=
  st <| ss_lib := ss_lib st <| l_conns := <[s := inhabitant]> (l_conns (ss_lib st)) |>
                            <| l_listeners := <[s := inhabitant]> (l_listeners (ss_lib st)) |> |>.

(** [s]: what [calloc] returns; [fd]: what [eventfd] returns. *)
Definition flextcp_fd_salloc (st : sst) (s : option Z) (fd : Z) : sst * option (Z * Z) :=
  match s with
  | None => (set_errno st ENOMEM, None)
  | Some s =>
      if fd <? 0 then (st, None)
      else if MAXSOCK <=? fd then (set_errno st EMFILE, None)
      else (put_sk (clear_embedded st s) s (inhabitant <| so_type := SOCK_SOCKET |>)
              <| ss_fhs := <[fd := FH_SOCKET s]> (ss_fhs st) |>, Some (fd, s))
  end.

(** A negative descriptor reads in front of the array, which C leaves
    undefined: the model crashes. *)
Definition flextcp_fd_slookup (st : sst) (fd : Z) : outcome (sst * option Z) :=
  if fd <? 0 then Crash
  else if MAXSOCK <=? fd then Ok (set_errno st EBADF, None)
  else match ss_fhs st !!! fd with
       | FH_SOCKET s => Ok (st, Some s)
       | _ => Ok (set_errno st EBADF, None)
       end.

(** [e]: what [calloc] returns. *)
Definition flextcp_fd_ealloc (st : sst) (e : option Z) (fd : Z) : outcome (sst * option Z) :=
  if MAXSOCK <=? fd then Ok (set_errno st EMFILE, None)
  else if fd <? 0 then Crash
  else match ss_fhs st !!! fd, e with
       | FH_UNUSED, None => Ok (set_errno st ENOMEM, None)
       | FH_UNUSED, Some e =>
           Ok (put_sep st e inhabitant <| ss_fhs := <[fd := FH_EPOLL e]> (ss_fhs st) |>, Some e)
       | _, _ => Crash
       end.

Definition flextcp_fd_elookup (st : sst) (fd : Z) : outcome (sst * option Z) :=
  if fd <? 0 then Crash
  else if MAXSOCK <=? fd then Ok (set_errno st EBADF, None)
  else match ss_fhs st !!! fd with
       | FH_EPOLL e => Ok (st, Some e)
       | _ => Ok (set_errno st EBADF, None)
       end.

(** Called for descriptors of sockets only. *)
Definition flextcp_fd_close (st : sst) (fd : Z) : sst :=
  let st' := st <| ss_fhs := <[fd := FH_UNUSED]> (ss_fhs st) |> in
  match ss_fhs st !!! fd with
  | FH_SOCKET s => st' <| ss_socks := delete s (ss_socks st) |>
  | _ => st'
  end.
