(* ===== verification/SockEpoll.v ===== *)
(** Epoll instances of the POSIX layer: sockets/epoll.c, except for
    [epoll_wait], which polls the library and is in SockCalls.

    An [epoll_socket] is in two doubly linked lists: one of the two lists of
    its epoll instance (active: events may be pending; inactive) and the list
    of its socket. *)
From stdpp Require Import base numbers list gmap.
From Stdlib Require Import ZArith Lia.
From S2P Require Import Prelude SockState.

Definition upd_es (st : sst) (e : Z) (f : epoll_socket -> epoll_socket) : sst := put_ses st e (f (ses st e)).
Definition upd_ep (st : sst) (e : Z) (f : epoll -> epoll) : sst := put_sep st e (f (sep st e)).

(** ** The lists of an instance *)

Definition es_remove_inactive (st : sst) (es : Z) : outcome sst :=
  let ep := es_ep (ses st es) in
  let! _ := assert_ (es_active (ses st es) =? 0) in
  let st := match es_ep_prev (ses st es) with
            | Some p => upd_es st p (fun x => x <| es_ep_next := es_ep_next (ses st es) |>)
            | None => upd_ep st ep (fun x => x <| ep_inactive := es_ep_next (ses st es) |>)
            end in
  Ok match es_ep_next (ses st es) with
     | Some n => upd_es st n (fun x => x <| es_ep_prev := es_ep_prev (ses st es) |>)
     | None => st
     end.

Definition es_add_inactive (st : sst) (es : Z) : sst :=
  let ep := es_ep (ses st es) in
  let st := upd_es st es (fun x => x <| es_ep_prev := None |>) in
  let st := match ep_inactive (sep st ep) with
            | None => upd_es st es (fun x => x <| es_ep_next := None |>)
            | Some i => upd_es (upd_es st es (fun x => x <| es_ep_next := Some i |>)) i
                          (fun x => x <| es_ep_prev := Some es |>)
            end in
  upd_ep st ep (fun x => x <| ep_inactive := Some es |>).

Definition es_remove_active (st : sst) (es : Z) : outcome sst :=
  let ep := es_ep (ses st es) in
  let! _ := assert_ (es_active (ses st es) =? 1) in
  let! _ := assert_ (0 <? ep_num_active (sep st ep)) in
  let st := match es_ep_prev (ses st es) with
            | Some p => upd_es st p (fun x => x <| es_ep_next := es_ep_next (ses st es) |>)
            | None => upd_ep st ep (fun x => x <| ep_active_first := es_ep_next (ses st es) |>)
            end in
  let st := match es_ep_next (ses st es) with
            | Some n => upd_es st n (fun x => x <| es_ep_prev := es_ep_prev (ses st es) |>)
            | None => upd_ep st ep (fun x => x <| ep_active_last := es_ep_prev (ses st es) |>)
            end in
  Ok (upd_ep st ep (fun x => x <| ep_num_active := u32 (ep_num_active x - 1) |>)).

Definition es_add_active (st : sst) (es : Z) : sst :=
  let ep := es_ep (ses st es) in
  let st :=
    match ep_active_last (sep st ep) with
    | None =>
        let st := upd_es st es (fun x => x <| es_ep_prev := None |> <| es_ep_next := None |>) in
        upd_ep st ep (fun x => x <| ep_active_first := Some es |> <| ep_active_last := Some es |>)
    | Some l =>
        let st := upd_es st es (fun x => x <| es_ep_next := None |> <| es_ep_prev := Some l |>) in
        let st := upd_es st l (fun x => x <| es_ep_next := Some es |>) in
        upd_ep st ep (fun x => x <| ep_active_last := Some es |>)
    end in
  upd_ep st ep (fun x => x <| ep_num_active := u32 (ep_num_active x + 1) |>).

Definition es_activate (st : sst) (es : Z) : outcome sst :=
  if negb (es_active (ses st es) =? 0) then Ok st
  else
    let! st := es_remove_inactive st es in
    Ok (es_add_active (upd_es st es (fun x => x <| es_active := 1 |>)) es).

Definition es_deactivate (st : sst) (es : Z) : outcome sst :=
  if es_active (ses st es) =? 0 then Ok st
  else
    let! st := es_remove_active st es in
    Ok (es_add_inactive (upd_es st es (fun x => x <| es_active := 0 |>)) es).

Definition es_active_pushback (st : sst) (es : Z) : outcome sst :=
  let! _ := assert_ (negb (es_active (ses st es) =? 0)) in
  let! st := es_remove_active st es in
  Ok (es_add_active st es).

Definition es_remove_ep (st : sst) (es : Z) : outcome sst :=
  if negb (es_active (ses st es) =? 0) then es_remove_active st es else es_remove_inactive st es.

(** ** The list of a socket *)

Definition es_remove_sock (st : sst) (es : Z) : sst :=
  let s := es_s (ses st es) in
  let st := match es_so_prev (ses st es) with
            | None => put_sk st s (sk st s <| so_eps := es_so_next (ses st es) |>)
            | Some p => upd_es st p (fun x => x <| es_so_next := es_so_next (ses st es) |>)
            end in
  match es_so_next (ses st es) with
  | Some n => upd_es st n (fun x => x <| es_so_prev := es_so_prev (ses st es) |>)
  | None => st
  end.

(** Adding at the front; part of [epoll_ctl]. *)
Definition es_add_sock (st : sst) (es s : Z) : sst :=
  let st := upd_es st es (fun x => x <| es_so_prev := None |>) in
  match so_eps (sk st s) with
  | None =>
      let st := upd_es st es (fun x => x <| es_so_next := None |>) in
      put_sk st s (sk st s <| so_eps := Some es |>)
  | Some h =>
      let st := upd_es st es (fun x => x <| es_so_next := Some h |>) in
      let st := upd_es st h (fun x => x <| es_so_prev := Some es |>) in
      put_sk st s (sk st s <| so_eps := Some es |>)
  end.

(** Loops over the list of a socket: more rounds than there are entries. *)
Definition es_fuel (st : sst) : nat := S (size (ss_ess st)).

(** ** Events of a socket *)

Definition flextcp_epoll_sockinit (st : sst) (s : Z) : sst :=
  put_sk st s (sk st s <| so_ep_events := 0 |> <| so_eps := None |>).

Fixpoint epoll_set_loop (fuel : nat) (st : sst) (newevs : Z) (es : option Z) : outcome sst :=
  match es, fuel with
  | None, _ => Ok st
  | Some _, O => Spin
  | Some es, S fuel =>
      let! st := if Z.land newevs (es_mask (ses st es)) =? 0 then Ok st else es_activate st es in
      epoll_set_loop fuel st newevs (es_so_next (ses st es))
  end.

Definition flextcp_epoll_set (st : sst) (s evts : Z) : outcome sst :=
  let newevs := Z.ldiff evts (so_ep_events (sk st s)) in
  if newevs =? 0 then Ok st
  else
    let st := put_sk st s (sk st s <| so_ep_events := Z.lor (so_ep_events (sk st s)) evts |>) in
    epoll_set_loop (es_fuel st) st newevs (so_eps (sk st s)).

Definition flextcp_epoll_clear (st : sst) (s evts : Z) : sst :=
  put_sk st s (sk st s <| so_ep_events := Z.ldiff (so_ep_events (sk st s)) evts |>).

(** ** Creating and changing instances *)

(** [fd]: what the system's [epoll_create1] returns; [e]: what [calloc] does. *)
Definition lwip_epoll_create1 (st : sst) (fd : Z) (e : option Z) : outcome (sst * Z) :=
  if fd =? -1 then Ok (st, -1)
  else
    let! (st, r) := flextcp_fd_ealloc st e fd in
    match r with
    | None => Ok (st, -1)
    | Some ep => Ok (upd_ep st ep (fun x => x <| ep_inactive := None |> <| ep_active_first := None |>
                       <| ep_active_last := None |> <| ep_num_linux := 0 |> <| ep_linux_cnt := 0 |>), fd)
    end.

Definition lwip_epoll_create (st : sst) (sz fd : Z) (e : option Z) : outcome (sst * Z) :=
  if sz <=? 0 then Ok (set_errno st EINVAL, -1) else lwip_epoll_create1 st fd e.

Fixpoint es_find (fuel : nat) (st : sst) (ep : Z) (es : option Z) : outcome (option Z) :=
  match es, fuel with
  | None, _ => Ok None
  | Some _, O => Spin
  | Some es, S fuel => if es_ep (ses st es) =? ep then Ok (Some es) else es_find fuel st ep (es_so_next (ses st es))
  end.

Definition EPOLL_EVENTS : Z := Z.lor (Z.lor (Z.lor EPOLLIN EPOLLOUT) EPOLLERR) EPOLLHUP.

(** [EPOLL_CTL_ADD]; [new]: what [calloc] returns. *)
Definition epoll_ctl_add (st : sst) (ep s : Z) (es : option Z) (events data : Z) (new : option Z)
    : outcome (sst * Z) :=
  match es, new with
  | Some _, _ => Ok (set_errno st EEXIST, -1)
  | None, None => Ok (set_errno st ENOMEM, -1)
  | None, Some es =>
      let st := put_ses st es (mk_epoll_socket ep s None None None None data (Z.lor events EPOLLERR) 0) in
      let st := es_add_sock st es s in
      let st := es_add_inactive st es in
      let! st := if negb (Z.land (so_ep_events (sk st s)) (es_mask (ses st es)) =? 0)
                 then es_activate st es else Ok st in
      Ok (st, 0)
  end.

Definition epoll_ctl_mod (st : sst) (s : Z) (es : option Z) (events : Z) : outcome (sst * Z) :=
  match es with
  | None => Ok (set_errno st ENOENT, -1)
  | Some es =>
      let st := upd_es st es (fun x => x <| es_mask := Z.lor events EPOLLERR |>) in
      let! st := if negb (Z.land (so_ep_events (sk st s)) (es_mask (ses st es)) =? 0)
                 then es_activate st es else Ok st in
      Ok (st, 0)
  end.

Definition epoll_ctl_del (st : sst) (es : option Z) : outcome (sst * Z) :=
  match es with
  | None => Ok (set_errno st ENOENT, -1)
  | Some es =>
      let st := es_remove_sock st es in
      let! st := es_remove_ep st es in
      Ok (st <| ss_ess := delete es (ss_ess st) |>, 0)
  end.

(** A descriptor of the operating system: [r] is what its [epoll_ctl] returns. *)
Definition epoll_ctl_linux (st : sst) (ep op r : Z) : outcome (sst * Z) :=
  if negb (r =? 0) then Ok (st, r)
  else if op =? EPOLL_CTL_ADD then Ok (upd_ep st ep (fun x => x <| ep_num_linux := u32 (ep_num_linux x + 1) |>), 0)
  else if op =? EPOLL_CTL_DEL then
    let! _ := assert_ (0 <? ep_num_linux (sep st ep)) in
    Ok (upd_ep st ep (fun x => x <| ep_num_linux := u32 (ep_num_linux x - 1) |>), 0)
  else Ok (st, 0).

(** The flag for edge-triggered events is cleared in the caller's [event]. *)
Definition lwip_epoll_ctl (st : sst) (epfd op fd events data r : Z) (new : option Z) : outcome (sst * Z) :=
  let! (st, ep) := flextcp_fd_elookup st epfd in
  match ep with
  | None => Ok (set_errno st EBADF, -1)
  | Some ep =>
      let! (st, s) := flextcp_fd_slookup st fd in
      match s with
      | None => epoll_ctl_linux st ep op r
      | Some s =>
          let! es := es_find (es_fuel st) st ep (so_eps (sk st s)) in
          let events := Z.ldiff events EPOLLET in
          if ((op =? EPOLL_CTL_ADD) || (op =? EPOLL_CTL_MOD)) && negb (Z.ldiff events EPOLL_EVENTS =? 0)
          then Ok (set_errno st EINVAL, -1)
          else if op =? EPOLL_CTL_ADD then epoll_ctl_add st ep s es events data new
          else if op =? EPOLL_CTL_MOD then epoll_ctl_mod st s es events
          else if op =? EPOLL_CTL_DEL then epoll_ctl_del st es
          else Ok (set_errno st EINVAL, -1)
      end
  end.

(** Not supported. *)
Definition lwip_select (st : sst) : outcome (sst * Z) := let! _ := assert_ false in Ok (set_errno st ENOTSUP, -1).
Definition lwip_epoll_pwait (st : sst) : sst * Z := (set_errno st EINVAL, -1).

(** ** The scan of [epoll_wait]

    [k]: rounds left of [num_active]; an entry of [events] is the events and
    the data of one socket. *)
Fixpoint epoll_scan (k : nat) (st : sst) (ep maxevents : Z) (events : list (Z * Z))
    : outcome (sst * list (Z * Z)) :=
  match k with
  | O => Ok (st, events)
  | S k =>
      if maxevents <=? Z.of_nat (length events) then Ok (st, events)
      else
        match ep_active_first (sep st ep) with
        | None => Ok (st, events)
        | Some es =>
            let x := ses st es in
            let evs := Z.land (so_ep_events (sk st (es_s x))) (es_mask x) in
            if negb (evs =? 0) then
              let! st := es_active_pushback st es in
              epoll_scan k st ep maxevents (events ++ [(evs, es_data x)])
            else
              let! st := es_deactivate st es in
              epoll_scan k st ep maxevents events
        end
  end.
