(* ===== verification/SockEpollInv.v ===== *)
(** The lists of the epoll layer: the invariant of an instance and its entries,
    which every operation of sockets/epoll.c keeps, and what a scan of
    [epoll_wait] reports. *)
From stdpp Require Import base numbers list gmap.
From Stdlib Require Import ZArith Lia.
From S2P Require Import Prelude LinkedList SockState SockEpoll.

(** ** Reading through updates *)

Definition live (st : sst) (e : Z) : Prop := e ∈ dom (ss_ess st).
Definition enxt (st : sst) (e : Z) : option Z := es_ep_next (ses st e).
Definition eprv (st : sst) (e : Z) : option Z := es_ep_prev (ses st e).
Definition snxt (st : sst) (e : Z) : option Z := es_so_next (ses st e).
Definition sprv (st : sst) (e : Z) : option Z := es_so_prev (ses st e).
Definition es_events (st : sst) (e : Z) : Z := Z.land (so_ep_events (sk st (es_s (ses st e)))) (es_mask (ses st e)).

Lemma ses_put st e x y : ses (put_ses st e x) y = if decide (y = e) then x else ses st y.
Proof.
  unfold ses, put_ses. cbn. case_decide; subst; [apply lookup_total_insert_eq | apply lookup_total_insert_ne; congruence].
Qed.
Lemma sep_put st e x y : sep (put_sep st e x) y = if decide (y = e) then x else sep st y.
Proof.
  unfold sep, put_sep. cbn. case_decide; subst; [apply lookup_total_insert_eq | apply lookup_total_insert_ne; congruence].
Qed.
Lemma sk_put st s x y : sk (put_sk st s x) y = if decide (y = s) then x else sk st y.
Proof.
  unfold sk, put_sk. cbn. case_decide; subst; [apply lookup_total_insert_eq | apply lookup_total_insert_ne; congruence].
Qed.
Lemma ses_upd st e f y : ses (upd_es st e f) y = if decide (y = e) then f (ses st e) else ses st y.
Proof. apply ses_put. Qed.
Lemma sep_upd st e f y : sep (upd_ep st e f) y = if decide (y = e) then f (sep st e) else sep st y.
Proof. apply sep_put. Qed.
Lemma ses_ep st e f y : ses (upd_ep st e f) y = ses st y.
Proof. reflexivity. Qed.
Lemma sep_es st e f y : sep (upd_es st e f) y = sep st y.
Proof. reflexivity. Qed.
Lemma ses_sk st s x y : ses (put_sk st s x) y = ses st y.
Proof. reflexivity. Qed.
Lemma sep_sk st s x y : sep (put_sk st s x) y = sep st y.
Proof. reflexivity. Qed.
Lemma sk_es st e f s : sk (upd_es st e f) s = sk st s.
Proof. reflexivity. Qed.
Lemma sk_ep st e f s : sk (upd_ep st e f) s = sk st s.
Proof. reflexivity. Qed.
Create Rewrite HintDb sock.
Hint Rewrite ses_upd sep_upd ses_ep sep_es ses_sk sep_sk sk_es sk_ep sk_put ses_put sep_put : sock.

Ltac es_cbn := cbn [upd eta_epoll_socket eta_epoll eta_socket es_ep es_s es_ep_next es_ep_prev es_so_prev es_so_next es_data
  es_mask es_active ep_inactive ep_active_first ep_active_last ep_num_linux ep_num_active ep_linux_cnt
  so_conn so_listener so_addr so_flags so_type so_ep_events so_eps] in *.
Ltac es_cases := autorewrite with sock; repeat case_decide; subst; es_cbn; try congruence; auto.

Lemma dom_upd st e f D : dom (ss_ess st) = D -> e ∈ D -> dom (ss_ess (upd_es st e f)) = D.
Proof. unfold upd_es, put_ses. cbn. intros <- H. rewrite dom_insert_L. set_solver. Qed.
Lemma dom_ep st e f D : dom (ss_ess st) = D -> dom (ss_ess (upd_ep st e f)) = D.
Proof. auto. Qed.
Ltac dom_tac := lazymatch goal with |- dom _ = dom _ =>
  repeat first [reflexivity | apply dom_ep | apply dom_upd; [|assumption]] end.

(** ** What the list operations leave alone *)

Definition es_rest (x : epoll_socket) : Z * Z * option Z * option Z * Z * Z * Z :=
  (es_ep x, es_s x, es_so_prev x, es_so_next x, es_data x, es_mask x, es_active x).
Definition st_rest (st : sst) := (ss_lib st, ss_socks st, ss_fhs st, ss_errno st, ss_startwait st).

Record relinked (ep : Z) (st st' : sst) : Prop := mk_relinked
  { rl_rest : forall y, es_rest (ses st' y) = es_rest (ses st y);
    rl_dom : dom (ss_ess st') = dom (ss_ess st);
    rl_eps : forall ep', ep' <> ep -> sep st' ep' = sep st ep';
    rl_linux : ep_num_linux (sep st' ep) = ep_num_linux (sep st ep);
    rl_st : st_rest st' = st_rest st }.

#[export] Instance relinked_preorder ep : PreOrder (relinked ep).
Proof.
  split; [split; auto|]. intros a b c [A1 A2 A3 A4 A5] [B1 B2 B3 B4 B5].
  split; [intros y; rewrite B1; apply A1 | congruence | | congruence..].
  intros y N. rewrite B3, A3; auto.
Qed.

Definition nbrs_live (st : sst) (es : Z) : Prop :=
  (forall y, eprv st es = Some y -> live st y /\ y <> es) /\ (forall y, enxt st es = Some y -> live st y /\ y <> es).

(** Unlinking from the inactive and from the active list. *)
Lemma remove_inactive_run st es :
  es_active (ses st es) = 0 -> nbrs_live st es ->
  let ep := es_ep (ses st es) in
  exists st', es_remove_inactive st es = Ok st' /\ relinked ep st st' /\
    unlinks (enxt st) (eprv st) (enxt st') (eprv st') es /\
    ep_inactive (sep st' ep) = (if eprv st es then ep_inactive (sep st ep) else enxt st es) /\
    ep_active_first (sep st' ep) = ep_active_first (sep st ep) /\
    ep_active_last (sep st' ep) = ep_active_last (sep st ep) /\
    ep_num_active (sep st' ep) = ep_num_active (sep st ep).
Proof.
  intros Ha [Lp Ln]. cbv zeta. unfold es_remove_inactive. rewrite Ha. cbn [Z.eqb assert_ obind]. cbv zeta.
  unfold enxt, eprv in *. set (ep := es_ep (ses st es)).
  destruct (es_ep_prev (ses st es)) as [p|] eqn:Ep.
  - destruct (Lp p eq_refl) as [Lp1 Lp2].
    rewrite !ses_upd, (decide_False (P := es = p)) by congruence. rewrite Ep.
    destruct (es_ep_next (ses st es)) as [n|] eqn:En.
    + destruct (Ln n eq_refl) as [Ln1 Ln2]. eexists. split; [reflexivity|].
      split; [split|]; try reflexivity.
      * intros y. unfold es_rest. es_cases.
      * dom_tac.
      * split; [|es_cases]. intros y. rewrite Ep, En. split; es_cases.
    + eexists. split; [reflexivity|]. split; [split|]; try reflexivity.
      * intros y. unfold es_rest. es_cases.
      * dom_tac.
      * split; [|es_cases]. intros y. rewrite Ep, En. split; es_cases.
  - rewrite !ses_ep, Ep. destruct (es_ep_next (ses st es)) as [n|] eqn:En.
    + destruct (Ln n eq_refl) as [Ln1 Ln2]. eexists. split; [reflexivity|]. split; [split|]; try reflexivity.
      * intros y. unfold es_rest. es_cases.
      * dom_tac.
      * intros ep' N. es_cases.
      * es_cases.
      * split; [|es_cases]. intros y. rewrite Ep, En. split; es_cases.
    + eexists. split; [reflexivity|]. split; [split|]; try reflexivity.
      * intros ep' N. es_cases.
      * es_cases.
      * split; [|es_cases]. intros y. rewrite Ep, En. split; es_cases.
Qed.

Lemma remove_active_run st es :
  let ep := es_ep (ses st es) in
  es_active (ses st es) = 1 -> 0 < ep_num_active (sep st ep) -> nbrs_live st es ->
  exists st', es_remove_active st es = Ok st' /\ relinked ep st st' /\
    unlinks (enxt st) (eprv st) (enxt st') (eprv st') es /\
    ep_inactive (sep st' ep) = ep_inactive (sep st ep) /\
    ep_active_first (sep st' ep) = (if eprv st es then ep_active_first (sep st ep) else enxt st es) /\
    ep_active_last (sep st' ep) = (if enxt st es then ep_active_last (sep st ep) else eprv st es) /\
    ep_num_active (sep st' ep) = u32 (ep_num_active (sep st ep) - 1).
Proof.
  cbv zeta. set (ep := es_ep (ses st es)). intros Ha Hn [Lp Ln]. unfold es_remove_active. fold ep. rewrite Ha.
  apply Z.ltb_lt in Hn. rewrite Hn. cbn [Z.eqb Pos.eqb assert_ obind]. cbv zeta. unfold enxt, eprv in *.
  destruct (es_ep_prev (ses st es)) as [p|] eqn:Ep; [destruct (Lp p eq_refl) as [Lp1 Lp2]|];
    rewrite ?ses_upd, ?ses_ep, ?(decide_False (P := es = p)), ?Ep by congruence;
    (destruct (es_ep_next (ses st es)) as [n|] eqn:En; [destruct (Ln n eq_refl) as [Ln1 Ln2]|]);
    (eexists; split; [reflexivity|]; split; [split; try reflexivity | split_and!]).
  all: try (intros y; rewrite ?Ep, ?En; unfold es_rest; split; es_cases; fail).
  all: try (intros y; unfold es_rest; es_cases; fail).
  all: try (dom_tac; fail).
  all: try (intros ep' N; es_cases; fail).
  all: es_cases.
Qed.

Lemma add_inactive_run st es l :
  let ep := es_ep (ses st es) in
  live st es -> ep_inactive (sep st ep) = head l -> (forall y, y ∈ l -> live st y /\ y <> es) ->
  let st' := es_add_inactive st es in
  relinked ep st st' /\ pushes (enxt st) (eprv st) (enxt st') (eprv st') es l /\
  ep_inactive (sep st' ep) = Some es /\ ep_active_first (sep st' ep) = ep_active_first (sep st ep) /\
  ep_active_last (sep st' ep) = ep_active_last (sep st ep) /\ ep_num_active (sep st' ep) = ep_num_active (sep st ep).
Proof.
  cbv zeta. set (ep := es_ep (ses st es)). intros Le Hi Hl. unfold es_add_inactive. fold ep. cbv zeta.
  rewrite sep_es, Hi. unfold enxt, eprv, pushes.
  assert (Hh : forall y, head l = Some y -> live st y /\ y <> es) by (intros y H; apply Hl, head_in, H).
  destruct (head l) as [i|]; [destruct (Hh i eq_refl) as [Li Ni]|]; (split; [split; try reflexivity | split_and!]).
  all: try (intros y; unfold es_rest; try split; es_cases; fail).
  all: try (intros ep' N; es_cases; fail).
  all: try (dom_tac; fail).
  all: es_cases.
Qed.

Lemma add_active_run st es l :
  let ep := es_ep (ses st es) in
  live st es -> ep_active_last (sep st ep) = last l -> (forall y, y ∈ l -> live st y /\ y <> es) ->
  let st' := es_add_active st es in
  relinked ep st st' /\ appends (enxt st) (eprv st) (enxt st') (eprv st') es l /\
  ep_inactive (sep st' ep) = ep_inactive (sep st ep) /\
  ep_active_first (sep st' ep) = (if last l then ep_active_first (sep st ep) else Some es) /\
  ep_active_last (sep st' ep) = Some es /\ ep_num_active (sep st' ep) = u32 (ep_num_active (sep st ep) + 1).
Proof.
  cbv zeta. set (ep := es_ep (ses st es)). intros Le Hi Hl. unfold es_add_active. fold ep. cbv zeta.
  rewrite Hi. unfold enxt, eprv, appends.
  assert (Hh : forall y, last l = Some y -> live st y /\ y <> es) by (intros y H; apply Hl, last_in, H).
  destruct (last l) as [i|]; [destruct (Hh i eq_refl) as [Li Ni]|]; (split; [split; try reflexivity | split_and!]).
  all: try (intros y; unfold es_rest; try split; es_cases; fail).
  all: try (intros ep' N; es_cases; fail).
  all: try (dom_tac; fail).
  all: es_cases.
Qed.

(** ** The two lists of an instance *)

Record ep_links (st : sst) (ep : Z) (A I : list Z) : Prop := mk_ep_links
  { el_A : dlist (enxt st) (eprv st) A; el_I : dlist (enxt st) (eprv st) I; el_nd : NoDup (A ++ I);
    el_first : ep_active_first (sep st ep) = head A; el_last : ep_active_last (sep st ep) = last A;
    el_inactive : ep_inactive (sep st ep) = head I;
    el_num : ep_num_active (sep st ep) = Z.of_nat (length A) }.

Definition same_links (st st' : sst) (y : Z) : Prop := enxt st' y = enxt st y /\ eprv st' y = eprv st y.

Lemma links_frame st st' ep A I :
  ep_links st ep A I -> (forall y, y ∈ A ++ I -> same_links st st' y) -> sep st' ep = sep st ep ->
  ep_links st' ep A I.
Proof.
  intros [DA DI ND F L Ia N] E Es. pose proof ND as ND'. apply NoDup_app in ND' as (NA & _ & NI).
  split; rewrite ?Es; auto; (eapply dlist_ext; [| |eassumption]; auto; intros y Hy; apply E, elem_of_app; auto).
Qed.

Lemma nbrs_of st l1 es l2 :
  NoDup (l1 ++ es :: l2) -> dlist (enxt st) (eprv st) (l1 ++ es :: l2) ->
  (forall y, y ∈ l1 ++ l2 -> live st y) -> nbrs_live st es.
Proof.
  intros ND D L. destruct (dlist_at _ _ _ _ _ D) as [P N]. apply NoDup_app in ND as (_ & Dis & ND2).
  apply NoDup_cons in ND2 as [Hx _]. split; intros y; rewrite ?P, ?N; intros H.
  - apply last_in in H. split; [apply L, elem_of_app; auto|]. intros ->. apply (Dis es H). left.
  - apply head_in in H. split; [apply L, elem_of_app; auto|]. intros ->. contradiction.
Qed.

Lemma NoDup_skip {A} (x : A) l1 l2 : NoDup (l1 ++ x :: l2) -> NoDup (l1 ++ l2).
Proof.
  intros ND. apply NoDup_app in ND as (N1 & Dis & N2). apply NoDup_cons in N2 as [_ N2].
  apply NoDup_app. split_and!; auto. intros y Hy H. apply (Dis y Hy). right. exact H.
Qed.

Section ListOps.
Context (st : sst) (ep es : Z).
Hypothesis Eep : es_ep (ses st es) = ep.

Lemma remove_inactive_links A I1 I2 :
  ep_links st ep A (I1 ++ es :: I2) -> es_active (ses st es) = 0 -> (forall y, y ∈ I1 ++ I2 -> live st y) ->
  exists st', es_remove_inactive st es = Ok st' /\ relinked ep st st' /\ ep_links st' ep A (I1 ++ I2) /\
    (forall y, y ∉ I1 ++ I2 -> same_links st st' y).
Proof.
  intros [DA DI ND F L Ia N] Ha Lv. pose proof ND as ND'. apply NoDup_app in ND' as (NA & Dis & NI).
  pose proof (nbrs_of _ _ _ _ NI DI Lv) as Nb.
  destruct (remove_inactive_run st es Ha Nb) as (st' & E & R & U & Ei & Ef & El & En). rewrite Eep in *.
  assert (O : forall y, y ∉ I1 ++ I2 -> same_links st st' y) by (intros y; apply (unlinks_other _ _ _ _ _ _ _ y DI U)).
  exists st'. split; [exact E|]. split; [exact R|]. split; [|exact O].
  assert (Sub : forall y, y ∈ I1 ++ I2 -> y ∈ I1 ++ es :: I2) by (intros y; rewrite !elem_of_app, elem_of_cons; tauto).
  split; try congruence.
  - eapply dlist_ext; [exact NA | | exact DA]. intros y Hy. apply O. intros H. exact (Dis y Hy (Sub y H)).
  - exact (unlinks_self _ _ _ _ _ _ _ NI DI U).
  - rewrite app_assoc. apply (NoDup_skip es). rewrite <- app_assoc. exact ND.
  - rewrite Ei, Ia. destruct (dlist_at _ _ _ _ _ DI) as [-> ->].
    destruct I1 as [|z I1]; [reflexivity|]. rewrite last_cons. destruct (last I1); reflexivity.
Qed.

Lemma remove_active_links A1 A2 I :
  ep_links st ep (A1 ++ es :: A2) I -> es_active (ses st es) = 1 -> (forall y, y ∈ A1 ++ A2 -> live st y) ->
  Z.of_nat (length (A1 ++ A2)) < 4294967295 ->
  exists st', es_remove_active st es = Ok st' /\ relinked ep st st' /\ ep_links st' ep (A1 ++ A2) I /\
    (forall y, y ∉ A1 ++ A2 -> same_links st st' y).
Proof.
  intros [DA DI ND F L Ia N] Ha Lv Hb. pose proof ND as ND'. apply NoDup_app in ND' as (NA & Dis & NI).
  pose proof (nbrs_of _ _ _ _ NA DA Lv) as Nb. rewrite length_app in N, Hb. cbn in N.
  pose proof (remove_active_run st es) as RA. cbv zeta in RA. rewrite Eep in RA.
  destruct (RA Ha ltac:(lia) Nb) as (st' & E & R & U & Ei & Ef & El & En).
  assert (O : forall y, y ∉ A1 ++ A2 -> same_links st st' y) by (intros y; apply (unlinks_other _ _ _ _ _ _ _ y DA U)).
  exists st'. split; [exact E|]. split; [exact R|]. split; [|exact O].
  assert (Sub : forall y, y ∈ A1 ++ A2 -> y ∈ A1 ++ es :: A2) by (intros y; rewrite !elem_of_app, elem_of_cons; tauto).
  destruct (dlist_at _ _ _ _ _ DA) as [P Q]. rewrite P, Q in *. split; try congruence.
  - exact (unlinks_self _ _ _ _ _ _ _ NA DA U).
  - eapply dlist_ext; [exact NI | | exact DI]. intros y Hy. apply O. intros H. exact (Dis y (Sub y H) Hy).
  - rewrite <- app_assoc. apply (NoDup_skip es). rewrite <- app_assoc in ND. exact ND.
  - rewrite Ef, F. destruct A1 as [|z A1]; [reflexivity|]. rewrite last_cons. destruct (last A1); reflexivity.
  - rewrite El, L. destruct A2 as [|z A2]; [rewrite app_nil_r; reflexivity|].
    cbn [head]. rewrite !last_app, last_cons. destruct (last (z :: A2)) eqn:E'; [reflexivity|].
    apply last_None in E'. discriminate.
  - rewrite En, N, length_app, u32_small by (unfold is_u32; lia). lia.
Qed.

Lemma add_inactive_links A I :
  ep_links st ep A I -> live st es -> es ∉ A ++ I -> (forall y, y ∈ I -> live st y) ->
  let st' := es_add_inactive st es in
  relinked ep st st' /\ ep_links st' ep A (es :: I) /\ (forall y, y <> es -> y ∉ I -> same_links st st' y).
Proof.
  intros [DA DI ND F L Ia N] Le Hx Lv. pose proof ND as ND'. apply NoDup_app in ND' as (NA & Dis & NI).
  assert (Hne : forall y, y ∈ I -> live st y /\ y <> es).
  { intros y Hy. split; [auto|]. intros ->. apply Hx, elem_of_app. auto. }
  pose proof (add_inactive_run st es I) as R. cbv zeta in R. rewrite Eep in R.
  destruct (R Le Ia Hne) as (RL & U & Ei & Ef & El & En).
  set (st' := es_add_inactive st es) in *. cbv zeta.
  assert (O : forall y, y <> es -> y ∉ I -> same_links st st' y) by (intros y; apply (pushes_other _ _ _ _ _ _ y U)).
  assert (NDx : NoDup (es :: I)) by (apply NoDup_cons; split; [intros H; apply Hx, elem_of_app; auto | exact NI]).
  split; [exact RL|]. split; [|exact O]. split; cbn [head]; try congruence.
  - eapply dlist_ext; [exact NA | | exact DA]. intros y Hy. apply O; [intros ->; apply Hx, elem_of_app; auto|].
    intros H. exact (Dis y Hy H).
  - exact (pushes_self _ _ _ _ _ _ NDx DI U).
  - apply NoDup_app. split; [exact NA|]. split; [|exact NDx]. intros y Hy H.
    apply elem_of_cons in H as [->|H]; [apply Hx, elem_of_app; auto | exact (Dis y Hy H)].
Qed.

Lemma add_active_links A I :
  ep_links st ep A I -> live st es -> es ∉ A ++ I -> (forall y, y ∈ A -> live st y) ->
  Z.of_nat (length A) < 4294967295 ->
  let st' := es_add_active st es in
  relinked ep st st' /\ ep_links st' ep (A ++ [es]) I /\ (forall y, y <> es -> y ∉ A -> same_links st st' y).
Proof.
  intros [DA DI ND F L Ia N] Le Hx Lv Hb. pose proof ND as ND'. apply NoDup_app in ND' as (NA & Dis & NI).
  assert (Hne : forall y, y ∈ A -> live st y /\ y <> es).
  { intros y Hy. split; [auto|]. intros ->. apply Hx, elem_of_app. auto. }
  pose proof (add_active_run st es A) as R. cbv zeta in R. rewrite Eep in R.
  destruct (R Le L Hne) as (RL & U & Ei & Ef & El & En).
  set (st' := es_add_active st es) in *. cbv zeta.
  assert (O : forall y, y <> es -> y ∉ A -> same_links st st' y) by (intros y; apply (appends_other _ _ _ _ _ _ y U)).
  assert (NDx : NoDup (es :: A)) by (apply NoDup_cons; split; [intros H; apply Hx, elem_of_app; auto | exact NA]).
  split; [exact RL|]. split; [|exact O]. split; try congruence.
  - exact (appends_self _ _ _ _ _ _ NDx DA U).
  - eapply dlist_ext; [exact NI | | exact DI]. intros y Hy. apply O; [intros ->; apply Hx, elem_of_app; auto|].
    intros H. exact (Dis y H Hy).
  - rewrite <- app_assoc. apply NoDup_app. split; [exact NA|]. split.
    + intros y Hy H. cbn in H. apply elem_of_cons in H as [->|H]; [apply Hx, elem_of_app; auto | exact (Dis y Hy H)].
    + cbn. apply NoDup_cons. split; [intros H; apply Hx, elem_of_app; auto | exact NI].
  - rewrite Ef, F. destruct A as [|z A]; [reflexivity|]. cbn [app head]. rewrite last_cons. destruct (last A); reflexivity.
  - rewrite El, last_snoc. reflexivity.
  - rewrite En, N, length_app, u32_small by (unfold is_u32; lia). cbn. lia.
Qed.
End ListOps.
