(* ===== verification/SockEpollSafe.v ===== *)
(** The invariant of the epoll layer, kept by every call of sockets/epoll.c;
    none of its assertions fails. *)
From stdpp Require Import base numbers list gmap.
From Stdlib Require Import ZArith Lia.
From S2P Require Import Prelude LinkedList SockState SockEpoll SockEpollInv.

(** ** The invariant *)

(** [A]: the active entries of an instance in their order; [I]: the others. *)
Record ep_has (st : sst) (ep : Z) (A I : list Z) : Prop := mk_ep_has
  { eh_links : ep_links st ep A I;
    eh_A : forall e, e ∈ A <-> live st e /\ es_ep (ses st e) = ep /\ es_active (ses st e) = 1;
    eh_I : forall e, e ∈ I <-> live st e /\ es_ep (ses st e) = ep /\ es_active (ses st e) = 0 }.

(** [S]: the entries of a socket. *)
Record so_has (st : sst) (s : Z) (S : list Z) : Prop := mk_so_has
  { sh_list : dlist (snxt st) (sprv st) S; sh_nd : NoDup S; sh_head : so_eps (sk st s) = head S;
    sh_in : forall e, e ∈ S <-> live st e /\ es_s (ses st e) = s }.

(** [bad]: an instance whose lists are being changed. *)
Record wf_but (bad : option Z) (st : sst) : Prop := mk_wf_but
  { ew_eps : forall ep, bad <> Some ep -> exists A I, ep_has st ep A I;
    ew_socks : forall s, exists S, so_has st s S;
    ew_flag : forall e, live st e -> es_active (ses st e) = 0 \/ es_active (ses st e) = 1;
    ew_one : forall e1 e2, live st e1 -> live st e2 -> es_s (ses st e1) = es_s (ses st e2) ->
             es_ep (ses st e1) = es_ep (ses st e2) -> e1 = e2;
    ew_size : Z.of_nat (size (ss_ess st)) < 4294967295 }.
Definition epoll_wf : sst -> Prop := wf_but None.

Lemma wf_eps st ep : epoll_wf st -> exists A I, ep_has st ep A I.
Proof. intros W. apply (ew_eps _ _ W). discriminate. Qed.
Lemma wf_weaken st ep : epoll_wf st -> wf_but (Some ep) st.
Proof. intros W. pose proof (fun e => wf_eps st e W). destruct W. split; auto. Qed.

(** No event is lost: an entry whose socket has an event it asks for is in the
    active list of its instance. *)
Record epoll_ok (st : sst) : Prop := mk_epoll_ok
  { eo_wf : epoll_wf st;
    eo_ready : forall e, live st e -> es_events st e <> 0 -> es_active (ses st e) = 1 }.

(** ** Changes inside one instance *)

Definition es_core (x : epoll_socket) : Z * Z * option Z * option Z * Z * Z :=
  (es_ep x, es_s x, es_so_prev x, es_so_next x, es_data x, es_mask x).

Record ep_change (ep : Z) (st st' : sst) : Prop := mk_ep_change
  { ec_core : forall y, es_core (ses st' y) = es_core (ses st y);
    ec_dom : dom (ss_ess st') = dom (ss_ess st);
    ec_eps : forall ep', ep' <> ep -> sep st' ep' = sep st ep';
    ec_linux : ep_num_linux (sep st' ep) = ep_num_linux (sep st ep);
    ec_rest : st_rest st' = st_rest st;
    ec_nodes : forall y, es_ep (ses st y) <> ep -> ses st' y = ses st y }.

Lemma es_core_ep x y : es_core x = es_core y -> es_ep x = es_ep y.
Proof. intros [= ]; auto. Qed.

#[export] Instance ep_change_preorder ep : PreOrder (ep_change ep).
Proof.
  split; [split; auto|]. intros a b c [A1 A2 A3 A4 A5 A6] [B1 B2 B3 B4 B5 B6].
  split; [intros y; rewrite B1; apply A1 | congruence | | congruence | congruence |].
  - intros y N. rewrite B3, A3; auto.
  - intros y N. rewrite B6, A6; auto. rewrite (es_core_ep _ _ (A1 y)). exact N.
Qed.

Lemma change_live ep st st' e : ep_change ep st st' -> live st' e <-> live st e.
Proof. intros C. unfold live. rewrite (ec_dom _ _ _ C). reflexivity. Qed.
Lemma change_sk ep st st' s : ep_change ep st st' -> sk st' s = sk st s.
Proof. intros C. pose proof (ec_rest _ _ _ C) as R. injection R as _ R _ _. unfold sk. congruence. Qed.
Lemma change_size ep st st' : ep_change ep st st' -> size (ss_ess st') = size (ss_ess st).
Proof. intros C. rewrite <- !(size_dom (D := gset Z)), (ec_dom _ _ _ C). reflexivity. Qed.
Lemma change_events ep st st' e : ep_change ep st st' -> es_events st' e = es_events st e.
Proof.
  intros C. unfold es_events. pose proof (ec_core _ _ _ C e) as K. injection K as _ K1 _ _ _ K2.
  rewrite K1, K2, (change_sk _ _ _ _ C). reflexivity.
Qed.

Lemma relinked_change ep st st' (L : list Z) :
  relinked ep st st' -> (forall y, y ∉ L -> same_links st st' y) -> (forall y, y ∈ L -> es_ep (ses st y) = ep) ->
  ep_change ep st st'.
Proof.
  intros [R D E Li S] O In. split; auto.
  - intros y. pose proof (R y) as K. unfold es_rest in K. unfold es_core. congruence.
  - intros y N. assert (Ny : y ∉ L) by (intros H; apply N, In, H). destruct (O y Ny) as [O1 O2].
    pose proof (R y) as K. unfold enxt, eprv, es_rest in *. destruct (ses st y), (ses st' y). cbn in *. congruence.
Qed.

Lemma flag_change st es v :
  live st es -> ep_change (es_ep (ses st es)) st (upd_es st es (fun x => x <| es_active := v |>)).
Proof.
  intros L. split; auto.
  - intros y. unfold es_core. es_cases.
  - dom_tac.
  - intros y N. es_cases.
Qed.

Lemma wf_change ep st st' A I :
  wf_but (Some ep) st -> ep_change ep st st' -> ep_has st' ep A I ->
  (forall y, live st y -> es_ep (ses st y) = ep -> es_active (ses st' y) = 0 \/ es_active (ses st' y) = 1) ->
  epoll_wf st'.
Proof.
  intros [We Ws Wf Wo Wz] C H Fl. pose proof (fun y => change_live _ _ _ y C) as CL.
  assert (Cep : forall y, es_ep (ses st' y) = es_ep (ses st y)) by (intros y; apply es_core_ep, C).
  assert (Cs : forall y, es_s (ses st' y) = es_s (ses st y))
    by (intros y; pose proof (ec_core _ _ _ C y) as K; unfold es_core in K; congruence).
  split.
  - intros ep' _. destruct (decide (ep' = ep)) as [->|N]; [eauto|]. destruct (We ep' ltac:(congruence)) as (A' & I' & [L MA MI]).
    exists A', I'. assert (Sn : forall y, es_ep (ses st y) = ep' -> ses st' y = ses st y)
      by (intros y E; apply (ec_nodes _ _ _ C); congruence).
    split.
    + apply (links_frame st); [exact L | | apply (ec_eps _ _ _ C), N].
      intros y Hy. assert (E : ses st' y = ses st y).
      { apply Sn. apply elem_of_app in Hy as [Hy|Hy]; [apply MA in Hy | apply MI in Hy]; apply Hy. }
      split; unfold enxt, eprv; rewrite E; reflexivity.
    + intros e. rewrite MA, CL. split; intros (L1 & E1 & E2); [rewrite Sn by exact E1; auto|].
      rewrite Cep in E1. rewrite Sn in E2 by exact E1. auto.
    + intros e. rewrite MI, CL. split; intros (L1 & E1 & E2); [rewrite Sn by exact E1; auto|].
      rewrite Cep in E1. rewrite Sn in E2 by exact E1. auto.
  - intros s. destruct (Ws s) as (S & [DS ND Hd M]). exists S. split; auto.
    + eapply dlist_ext; [exact ND | | exact DS]. intros y _. pose proof (ec_core _ _ _ C y) as K.
      unfold es_core in K. unfold snxt, sprv. split; congruence.
    + rewrite (change_sk _ _ _ _ C). exact Hd.
    + intros e. rewrite M, CL, Cs. reflexivity.
  - intros e Le. apply CL in Le. destruct (decide (es_ep (ses st e) = ep)) as [E|N]; [auto|].
    rewrite (ec_nodes _ _ _ C) by exact N. auto.
  - intros e1 e2 L1 L2. rewrite !Cs, !Cep. apply CL in L1, L2. auto.
  - rewrite (change_size _ _ _ C). exact Wz.
Qed.

(** An entry's list fits the counter of active entries. *)
Lemma list_bound st (l : list Z) : Z.of_nat (size (ss_ess st)) < 4294967295 -> NoDup l -> (forall y, y ∈ l -> live st y) ->
  Z.of_nat (length l) < 4294967295.
Proof.
  intros B ND L. assert (length l <= size (ss_ess st))%nat; [|lia].
  rewrite <- (size_dom (D := gset Z)), <- (size_list_to_set (C := gset Z) l ND).
  apply subseteq_size. intros y Hy. apply elem_of_list_to_set in Hy. exact (L y Hy).
Qed.

(** ** Moving an entry between the lists of its instance *)

(** [es] is in neither list of [ep] in [s]; otherwise [s] is as [st]. *)
Record detached (st s : sst) (ep es : Z) (A I : list Z) : Prop := mk_detached
  { dt_change : ep_change ep st s; dt_links : ep_links s ep A I;
    dt_live : live st es; dt_ep : es_ep (ses st es) = ep;
    dt_A : forall e, e ∈ A <-> e <> es /\ live st e /\ es_ep (ses st e) = ep /\ es_active (ses st e) = 1;
    dt_I : forall e, e ∈ I <-> e <> es /\ live st e /\ es_ep (ses st e) = ep /\ es_active (ses st e) = 0;
    dt_active : forall y, y <> es -> es_active (ses s y) = es_active (ses st y) }.

Lemma split_in (l1 l2 : list Z) x : NoDup (l1 ++ x :: l2) -> forall e, e ∈ l1 ++ l2 <-> e <> x /\ e ∈ l1 ++ x :: l2.
Proof.
  intros ND e. apply NoDup_app in ND as (_ & Dis & N2). apply NoDup_cons in N2 as [Nx _].
  rewrite !elem_of_app, elem_of_cons. split; [|tauto]. intros [H|H]; (split; [|tauto]); intros ->; auto.
  apply (Dis x H). left.
Qed.

Section Moves.
Context (st : sst) (ep es : Z).
Hypothesis Hz : Z.of_nat (size (ss_ess st)) < 4294967295.

Lemma relinked_active s y : relinked ep st s -> es_active (ses s y) = es_active (ses st y).
Proof. intros R. pose proof (rl_rest _ _ _ R y) as K. unfold es_rest in K. congruence. Qed.

Lemma detach_inactive A I1 I2 :
  ep_has st ep A (I1 ++ es :: I2) ->
  exists s, es_remove_inactive st es = Ok s /\ detached st s ep es A (I1 ++ I2) /\ relinked ep st s.
Proof.
  intros [L MA MI]. pose proof (proj1 (MI es) ltac:(apply elem_of_app; right; left)) as (Le & Eep & Ea).
  pose proof (el_nd _ _ _ _ L) as ND. apply NoDup_app in ND as (_ & _ & NI). pose proof (split_in _ _ _ NI) as Sp.
  destruct (remove_inactive_links st ep es Eep A I1 I2 L Ea) as (s & E & R & L1 & O).
  { intros y Hy. apply Sp in Hy as [_ Hy]. apply MI in Hy. tauto. }
  exists s. split; [exact E|]. split; [|exact R]. split; auto.
  - apply (relinked_change _ _ _ (I1 ++ I2) R O). intros y Hy. apply Sp in Hy as [_ Hy]. apply MI in Hy. tauto.
  - intros e. rewrite MA. split; [|tauto]. intros H. split; [|exact H]. intros ->. destruct H as (_ & _ & H). congruence.
  - intros e. rewrite Sp, MI. reflexivity.
  - intros y _. apply relinked_active, R.
Qed.

Lemma detach_active A1 A2 I :
  ep_has st ep (A1 ++ es :: A2) I ->
  exists s, es_remove_active st es = Ok s /\ detached st s ep es (A1 ++ A2) I /\ relinked ep st s.
Proof.
  intros [L MA MI]. pose proof (proj1 (MA es) ltac:(apply elem_of_app; right; left)) as (Le & Eep & Ea).
  pose proof (el_nd _ _ _ _ L) as ND. apply NoDup_app in ND as (NA & _ & _). pose proof (split_in _ _ _ NA) as Sp.
  assert (LA : forall y, y ∈ A1 ++ A2 -> live st y) by (intros y Hy; apply Sp in Hy as [_ Hy]; apply MA in Hy; tauto).
  destruct (remove_active_links st ep es Eep A1 A2 I L Ea LA) as (s & E & R & L1 & O).
  { apply (list_bound st); [exact Hz | exact (NoDup_skip _ _ _ NA) | exact LA]. }
  exists s. split; [exact E|]. split; [|exact R]. split; auto.
  - apply (relinked_change _ _ _ (A1 ++ A2) R O). intros y Hy. apply Sp in Hy as [_ Hy]. apply MA in Hy. tauto.
  - intros e. rewrite Sp, MA. reflexivity.
  - intros e. rewrite MI. split; [|tauto]. intros H. split; [|exact H]. intros ->. destruct H as (_ & _ & H). congruence.
  - intros y _. apply relinked_active, R.
Qed.

Lemma detached_flag s A I v :
  detached st s ep es A I -> detached st (upd_es s es (fun x => x <| es_active := v |>)) ep es A I.
Proof.
  intros [C L Le Ee MA MI Ac]. assert (Es : es_ep (ses s es) = ep) by (rewrite <- Ee; apply es_core_ep, C). split; auto.
  - etransitivity; [exact C|]. rewrite <- Es at 1. apply flag_change, (change_live _ _ _ _ C), Le.
  - apply (links_frame s); auto. intros y _. split; unfold enxt, eprv; es_cases.
  - intros y N. rewrite ses_upd, decide_False by exact N. auto.
Qed.

(** What the entry's list was before does not matter for putting it back. *)
Lemma detached_facts s A I :
  detached st s ep es A I ->
  live s es /\ es_ep (ses s es) = ep /\ es ∉ A ++ I /\ (forall y, y ∈ A ++ I -> live s y /\ es_ep (ses s y) = ep) /\
  Z.of_nat (length A) < 4294967295.
Proof.
  intros [C L Le Ee MA MI _]. pose proof (fun y => change_live _ _ _ y C) as CL.
  assert (Cep : forall y, es_ep (ses s y) = es_ep (ses st y)) by (intros y; apply es_core_ep, C).
  split; [apply CL, Le|]. split; [rewrite Cep; exact Ee|]. split.
  { rewrite elem_of_app, MA, MI. tauto. }
  split.
  - intros y. rewrite elem_of_app, MA, MI, CL, Cep. tauto.
  - apply (list_bound st); [exact Hz | |].
    + destruct L as [_ _ ND _ _ _ _]. apply NoDup_app in ND. tauto.
    + intros y Hy. apply MA in Hy. tauto.
Qed.

Lemma attach_active s A I :
  detached st s ep es A I -> es_active (ses s es) = 1 ->
  let s' := es_add_active s es in
  ep_change ep st s' /\ ep_has s' ep (A ++ [es]) I /\ (forall y, es_active (ses s' y) = es_active (ses s y)).
Proof.
  intros D Ha. destruct (detached_facts _ _ _ D) as (Le & Ee & Out & Lv & B). destruct D as [C L _ _ MA MI Ac].
  destruct (add_active_links s ep es Ee A I L Le Out) as (R & L' & O); auto.
  { intros y Hy. apply Lv, elem_of_app. auto. }
  set (s' := es_add_active s es) in *. cbv zeta.
  assert (Aa : forall y, es_active (ses s' y) = es_active (ses s y))
    by (intros y; pose proof (rl_rest _ _ _ R y) as K; unfold es_rest in K; congruence).
  assert (C' : ep_change ep s s').
  { apply (relinked_change _ _ _ (es :: A) R).
    - intros y Hy. apply not_elem_of_cons in Hy as [? ?]. apply O; auto.
    - intros y Hy. apply elem_of_cons in Hy as [->|Hy]; [exact Ee | apply Lv, elem_of_app; auto]. }
  assert (CC : ep_change ep st s') by (etransitivity; eauto). split; [exact CC|]. split; [|exact Aa].
  assert (Cep : forall y, es_ep (ses s' y) = es_ep (ses st y)) by (intros y; apply es_core_ep, CC).
  split; [exact L' | |]; intros e; rewrite (change_live _ _ _ e CC), Cep, Aa.
  - rewrite elem_of_app, list_elem_of_singleton, MA. destruct (decide (e = es)) as [->|N].
    + rewrite Ha. pose proof (change_live _ _ _ es C). rewrite <- Cep. split; [|auto]. intros _. split; [tauto|].
      split; [rewrite Cep, <- (es_core_ep _ _ (ec_core _ _ _ C es)); exact Ee | reflexivity].
    + rewrite Ac by exact N. tauto.
  - rewrite MI. destruct (decide (e = es)) as [->|N]; [rewrite Ha; intuition lia|]. rewrite Ac by exact N. tauto.
Qed.

Lemma attach_inactive s A I :
  detached st s ep es A I -> es_active (ses s es) = 0 ->
  let s' := es_add_inactive s es in
  ep_change ep st s' /\ ep_has s' ep A (es :: I) /\ (forall y, es_active (ses s' y) = es_active (ses s y)).
Proof.
  intros D Ha. destruct (detached_facts _ _ _ D) as (Le & Ee & Out & Lv & _). destruct D as [C L _ _ MA MI Ac].
  destruct (add_inactive_links s ep es Ee A I L Le Out) as (R & L' & O).
  { intros y Hy. apply Lv, elem_of_app. auto. }
  set (s' := es_add_inactive s es) in *. cbv zeta.
  assert (Aa : forall y, es_active (ses s' y) = es_active (ses s y))
    by (intros y; pose proof (rl_rest _ _ _ R y) as K; unfold es_rest in K; congruence).
  assert (C' : ep_change ep s s').
  { apply (relinked_change _ _ _ (es :: I) R).
    - intros y Hy. apply not_elem_of_cons in Hy as [? ?]. apply O; auto.
    - intros y Hy. apply elem_of_cons in Hy as [->|Hy]; [exact Ee | apply Lv, elem_of_app; auto]. }
  assert (CC : ep_change ep st s') by (etransitivity; eauto). split; [exact CC|]. split; [|exact Aa].
  assert (Cep : forall y, es_ep (ses s' y) = es_ep (ses st y)) by (intros y; apply es_core_ep, CC).
  split; [exact L' | |]; intros e; rewrite (change_live _ _ _ e CC), Cep, Aa.
  - rewrite MA. destruct (decide (e = es)) as [->|N]; [rewrite Ha; intuition lia|]. rewrite Ac by exact N. tauto.
  - rewrite elem_of_cons, MI. destruct (decide (e = es)) as [->|N].
    + rewrite Ha, <- Cep. pose proof (change_live _ _ _ es C). split; [|auto]. intros _. split; [tauto|].
      split; [rewrite Cep, <- (es_core_ep _ _ (ec_core _ _ _ C es)); exact Ee | reflexivity].
    + rewrite Ac by exact N. tauto.
Qed.

(** The three moves of the code. *)
Lemma activate_has A I :
  ep_has st ep A I -> es ∈ I ->
  exists st' I', es_activate st es = Ok st' /\ ep_change ep st st' /\ ep_has st' ep (A ++ [es]) I' /\
    (forall y, es_active (ses st' y) = if decide (y = es) then 1 else es_active (ses st y)).
Proof.
  intros H Hes. pose proof (proj1 (eh_I _ _ _ _ H es) Hes) as (_ & _ & Ea).
  apply list_elem_of_split in Hes as (I1 & I2 & ->).
  destruct (detach_inactive _ _ _ H) as (s & E & D & _). pose proof (detached_flag _ _ _ 1 D) as D'.
  destruct (attach_active _ _ _ D') as (C & H' & Ac); [es_cases|].
  eexists _, _. split; [unfold es_activate; rewrite Ea, E; reflexivity|]. split; [exact C|]. split; [exact H'|].
  intros y. rewrite Ac, ses_upd. case_decide; [reflexivity|]. apply (dt_active _ _ _ _ _ _ D); auto.
Qed.

Lemma deactivate_has A I :
  ep_has st ep (es :: A) I ->
  exists st', es_deactivate st es = Ok st' /\ ep_change ep st st' /\ ep_has st' ep A (es :: I) /\
    (forall y, es_active (ses st' y) = if decide (y = es) then 0 else es_active (ses st y)).
Proof.
  intros H. pose proof (proj1 (eh_A _ _ _ _ H es) ltac:(left)) as (_ & _ & Ea).
  destruct (detach_active [] A I H) as (s & E & D & _). pose proof (detached_flag _ _ _ 0 D) as D'.
  destruct (attach_inactive _ _ _ D') as (C & H' & Ac); [es_cases|].
  eexists. split; [unfold es_deactivate; rewrite Ea, E; reflexivity|]. split; [exact C|]. split; [exact H'|].
  intros y. rewrite Ac, ses_upd. case_decide; [reflexivity|]. apply (dt_active _ _ _ _ _ _ D); auto.
Qed.

Lemma pushback_has A I :
  ep_has st ep (es :: A) I ->
  exists st', es_active_pushback st es = Ok st' /\ ep_change ep st st' /\ ep_has st' ep (A ++ [es]) I /\
    (forall y, es_active (ses st' y) = es_active (ses st y)).
Proof.
  intros H. pose proof (proj1 (eh_A _ _ _ _ H es) ltac:(left)) as (_ & _ & Ea).
  destruct (detach_active [] A I H) as (s & E & D & R).
  destruct (attach_active _ _ _ D) as (C & H' & Ac); [rewrite (relinked_active _ _ R); exact Ea|].
  eexists. split; [unfold es_active_pushback; rewrite Ea; cbn [Z.eqb negb assert_ obind]; rewrite E; reflexivity|].
  split; [exact C|]. split; [exact H'|]. intros y. rewrite Ac. apply relinked_active, R.
Qed.

(** [es_activate] for any entry. *)
Lemma activate_wf :
  epoll_wf st -> live st es -> es_ep (ses st es) = ep ->
  exists st', es_activate st es = Ok st' /\ ep_change ep st st' /\ epoll_wf st' /\
    (forall y, es_active (ses st' y) = if decide (y = es) then 1 else es_active (ses st y)).
Proof.
  intros Hw Le Ee. destruct (ew_flag _ _ Hw es Le) as [Ea|Ea].
  - destruct (wf_eps _ ep Hw) as (A & I & H).
    destruct (activate_has A I H) as (st' & I' & E & C & H' & Ac); [apply (eh_I _ _ _ _ H); auto|].
    exists st'. split_and!; auto. apply (wf_change ep st st' (A ++ [es]) I'); auto using wf_weaken.
    intros y Ly _. rewrite Ac. case_decide; [auto | apply (ew_flag _ _ Hw), Ly].
  - exists st. unfold es_activate. rewrite Ea. split_and!; auto; try reflexivity.
    intros y. case_decide; congruence.
Qed.
End Moves.

(** ** Frames *)

(** Entries may move between the lists of their instances. *)
Record lists_change (st st' : sst) : Prop := mk_lists_change
  { lc_core : forall y, es_core (ses st' y) = es_core (ses st y);
    lc_dom : dom (ss_ess st') = dom (ss_ess st);
    lc_linux : forall ep, ep_num_linux (sep st' ep) = ep_num_linux (sep st ep);
    lc_rest : st_rest st' = st_rest st }.
#[export] Instance lists_change_preorder : PreOrder lists_change.
Proof.
  split; [split; auto|]. intros a b c [A1 A2 A3 A4] [B1 B2 B3 B4]. split; [|congruence| |congruence].
  - intros y. rewrite B1. apply A1.
  - intros y. rewrite B3. apply A3.
Qed.
Lemma ep_lists_change ep st st' : ep_change ep st st' -> lists_change st st'.
Proof.
  intros [C D E L R _]. split; auto. intros e. destruct (decide (e = ep)) as [->|N]; [exact L | rewrite E; auto].
Qed.

(** *** Lists that a change does not touch *)

Lemma has_intro st st' ep A I :
  ep_has st ep A I -> (forall y, y ∈ A ++ I -> same_links st st' y) ->
  (let x := sep st' ep in let y := sep st ep in
   ep_inactive x = ep_inactive y /\ ep_active_first x = ep_active_first y /\
   ep_active_last x = ep_active_last y /\ ep_num_active x = ep_num_active y) ->
  (forall y, live st' y /\ es_ep (ses st' y) = ep <-> live st y /\ es_ep (ses st y) = ep) ->
  (forall y, live st y -> es_ep (ses st y) = ep -> es_active (ses st' y) = es_active (ses st y)) ->
  ep_has st' ep A I.
Proof.
  intros [[DA DI ND Fi La In Nu] MA MI] Sl (E1 & E2 & E3 & E4) M Ac. split.
  - pose proof ND as ND'. apply NoDup_app in ND' as (NA & _ & NI). split; try congruence.
    + eapply dlist_ext; [exact NA | | exact DA]. intros y Hy. apply Sl, elem_of_app. auto.
    + eapply dlist_ext; [exact NI | | exact DI]. intros y Hy. apply Sl, elem_of_app. auto.
  - intros e. rewrite MA. pose proof (M e) as Me. specialize (Ac e). split; intros (H1 & H2 & H3).
    + destruct (proj2 Me) as [? ?]; auto. rewrite Ac by auto. auto.
    + destruct (proj1 Me) as [? ?]; auto. rewrite Ac in H3 by auto. auto.
  - intros e. rewrite MI. pose proof (M e) as Me. specialize (Ac e). split; intros (H1 & H2 & H3).
    + destruct (proj2 Me) as [? ?]; auto. rewrite Ac by auto. auto.
    + destruct (proj1 Me) as [? ?]; auto. rewrite Ac in H3 by auto. auto.
Qed.

Lemma so_intro st st' s S :
  so_has st s S -> (forall y, y ∈ S -> snxt st' y = snxt st y /\ sprv st' y = sprv st y) ->
  so_eps (sk st' s) = so_eps (sk st s) ->
  (forall y, live st' y /\ es_s (ses st' y) = s <-> live st y /\ es_s (ses st y) = s) -> so_has st' s S.
Proof.
  intros [D ND H M] Sl E L. split; auto; [|congruence|].
  - eapply dlist_ext; [exact ND | exact Sl | exact D].
  - intros e. rewrite M, L. reflexivity.
Qed.

(** A change that the lists and flags do not notice. *)
Definition node_view (x : epoll_socket) : Z * Z * option Z * option Z * option Z * option Z * Z :=
  (es_ep x, es_s x, es_ep_next x, es_ep_prev x, es_so_prev x, es_so_next x, es_active x).
Record wf_frame (st st' : sst) : Prop := mk_wf_frame
  { wr_ses : forall y, node_view (ses st' y) = node_view (ses st y);
    wr_dom : dom (ss_ess st') = dom (ss_ess st);
    wr_ep : forall ep, let x := sep st' ep in let y := sep st ep in
      ep_inactive x = ep_inactive y /\ ep_active_first x = ep_active_first y /\
      ep_active_last x = ep_active_last y /\ ep_num_active x = ep_num_active y;
    wr_eps : forall s, so_eps (sk st' s) = so_eps (sk st s) }.

Lemma frame_live st st' e : wf_frame st st' -> live st' e <-> live st e.
Proof. intros F. unfold live. rewrite (wr_dom _ _ F). reflexivity. Qed.
Lemma frame_node st st' y : wf_frame st st' ->
  es_ep (ses st' y) = es_ep (ses st y) /\ es_s (ses st' y) = es_s (ses st y) /\
  es_active (ses st' y) = es_active (ses st y) /\ same_links st st' y /\ snxt st' y = snxt st y /\ sprv st' y = sprv st y.
Proof.
  intros F. pose proof (wr_ses _ _ F y) as K. unfold node_view in K.
  unfold same_links, enxt, eprv, snxt, sprv. split_and!; congruence.
Qed.

Lemma frame_wf st st' : wf_frame st st' -> epoll_wf st -> epoll_wf st'.
Proof.
  intros F [We Ws Wf Wo Wz]. pose proof (fun e => frame_live _ _ e F) as El.
  pose proof (fun y => frame_node _ _ y F) as N.
  assert (Nep : forall y, es_ep (ses st' y) = es_ep (ses st y)) by apply N.
  assert (Ns : forall y, es_s (ses st' y) = es_s (ses st y)) by apply N.
  split.
  - intros ep Q. destruct (We ep Q) as (A & I & H). exists A, I. apply (has_intro st); auto.
    + intros y _. apply N.
    + exact (wr_ep _ _ F ep).
    + intros y. rewrite El, Nep. reflexivity.
    + intros y _ _. apply N.
  - intros s. destruct (Ws s) as (S & H). exists S. apply (so_intro st); auto.
    + intros y _. apply N.
    + apply (wr_eps _ _ F).
    + intros y. rewrite El, Ns. reflexivity.
  - intros e L. replace (es_active (ses st' e)) with (es_active (ses st e)) by (symmetry; apply N). apply Wf, El, L.
  - intros e1 e2 L1 L2. rewrite !Ns, !Nep. apply Wo; apply El; auto.
  - rewrite <- (size_dom (D := gset Z)), (wr_dom _ _ F), size_dom. exact Wz.
Qed.

Lemma frame_ok st st' :
  wf_frame st st' -> epoll_ok st -> (forall e, es_events st' e <> 0 -> es_events st e <> 0) -> epoll_ok st'.
Proof.
  intros F [W R] Ev. split; [exact (frame_wf _ _ F W)|]. intros e L N.
  destruct (frame_node _ _ e F) as (_ & _ & -> & _). apply R; [apply (frame_live _ _ e F), L | auto].
Qed.

Lemma put_sk_frame st s x : so_eps x = so_eps (sk st s) -> wf_frame st (put_sk st s x).
Proof. intros E. split; [reflexivity | reflexivity | repeat split |]. intros s'. rewrite sk_put. case_decide; congruence. Qed.

(** ** Setting and clearing events *)

Lemma epoll_set_loop_wf fuel st newevs p (l : list Z) :
  epoll_wf st -> (forall e, e ∈ l -> live st e) -> chain (snxt st) p l None -> (length l <= fuel)%nat ->
  exists st', epoll_set_loop fuel st newevs p = Ok st' /\ epoll_wf st' /\ lists_change st st' /\
    (forall y, es_active (ses st' y) =
       if decide (y ∈ l /\ Z.land newevs (es_mask (ses st y)) <> 0) then 1 else es_active (ses st y)).
Proof.
  revert st p fuel. induction l as [|e l IH]; intros st p fuel W L C Hf.
  - apply chain_nil_inv in C as ->. exists st. split; [destruct fuel; reflexivity|].
    split; [exact W|]. split; [reflexivity|]. intros y. rewrite decide_False; [reflexivity | intros [H _]; inversion H].
  - apply chain_cons_inv in C as [-> C]. destruct fuel as [|fuel]; [cbn in Hf; lia|]. cbn [epoll_set_loop].
    assert (Step : exists s1, (if Z.land newevs (es_mask (ses st e)) =? 0 then Ok st else es_activate st e) = Ok s1 /\
       epoll_wf s1 /\ lists_change st s1 /\ (forall y, es_active (ses s1 y) =
         if decide (y = e /\ Z.land newevs (es_mask (ses st y)) <> 0) then 1 else es_active (ses st y))).
    { destruct (Z.eqb_spec (Z.land newevs (es_mask (ses st e))) 0) as [E|E].
      - exists st. split_and!; auto; try reflexivity. intros y. rewrite decide_False; [reflexivity|]. intros [-> ?]. auto.
      - destruct (activate_wf st _ e (ew_size _ _ W) W (L e ltac:(left)) eq_refl) as (s1 & E1 & C1 & W1 & A1).
        exists s1. split_and!; auto; [exact (ep_lists_change _ _ _ C1)|]. intros y. rewrite A1.
        destruct (decide (y = e)) as [->|N]; [rewrite decide_True; auto | rewrite decide_False; tauto]. }
    destruct Step as (s1 & -> & W1 & C1 & A1). cbn [obind].
    assert (Core : forall y, snxt s1 y = snxt st y /\ es_mask (ses s1 y) = es_mask (ses st y)).
    { intros y. pose proof (lc_core _ _ C1 y) as K. unfold es_core, snxt in *. split; congruence. }
    destruct (IH s1 (snxt s1 e) fuel) as (s2 & E2 & W2 & C2 & A2).
    + exact W1.
    + intros y Hy. unfold live. rewrite (lc_dom _ _ C1). apply L. right. exact Hy.
    + rewrite (proj1 (Core e)). eapply chain_ext; [|exact C]. intros y _. symmetry. apply Core.
    + cbn in Hf. lia.
    + exists s2. split; [exact E2|]. split; [exact W2|]. split; [etransitivity; eauto|].
      intros y. rewrite A2, (proj2 (Core y)), A1.
      repeat case_decide; try reflexivity; exfalso; rewrite ?elem_of_cons in *; tauto.
Qed.

Lemma so_fuel st s (S : list Z) : so_has st s S -> (length S <= es_fuel st)%nat.
Proof.
  intros [_ ND _ M]. unfold es_fuel. assert (length S <= size (ss_ess st))%nat; [|lia].
  rewrite <- (size_dom (D := gset Z)), <- (size_list_to_set (C := gset Z) S ND).
  apply subseteq_size. intros y Hy. apply elem_of_list_to_set in Hy. apply M, Hy.
Qed.

Lemma so_chain st s (S : list Z) : so_has st s S -> chain (snxt st) (so_eps (sk st s)) S None.
Proof. intros [D _ -> _]. pose proof (dseg_chain _ _ _ _ _ D) as C. destruct S; exact C. Qed.

Ltac z_bits := let i := fresh "i" in let Hi := fresh "Hi" in apply Z.bits_inj'; intros i Hi;
  repeat match goal with H : _ = _ :> Z |- _ => apply (f_equal (fun z => Z.testbit z i)) in H; cbv beta in H end;
  rewrite ?Z.bits_0, ?Z.land_spec, ?Z.ldiff_spec, ?Z.lor_spec in *;
  repeat match goal with |- context [Z.testbit ?a i] => destruct (Z.testbit a i) end;
  cbn in *; congruence.

Lemma land_lor_zero a b m : Z.land (Z.lor a b) m <> 0 -> Z.land a m <> 0 \/ Z.land (Z.ldiff b a) m <> 0.
Proof.
  intros H. destruct (Z.eq_dec (Z.land a m) 0) as [E1|E1]; [|auto].
  destruct (Z.eq_dec (Z.land (Z.ldiff b a) m) 0) as [E2|E2]; [|auto]. exfalso. apply H. clear H. z_bits.
Qed.
Lemma lor_absorb a b : Z.ldiff b a = 0 -> Z.lor a b = a.
Proof. intros H. z_bits. Qed.
Lemma land_ldiff_nonzero a b m : Z.land (Z.ldiff a b) m <> 0 -> Z.land a m <> 0.
Proof. intros H E. apply H. clear H. z_bits. Qed.

(** Sockets keep everything but their pending events. *)
Definition so_core (x : socket) := (so_conn x, so_listener x, so_addr x, so_flags x, so_type x, so_eps x).
Record events_change (s : Z) (v : Z) (st st' : sst) : Prop := mk_events_change
  { vc_sk : forall y, sk st' y = if decide (y = s) then sk st s <| so_ep_events := v |> else sk st y;
    vc_lib : ss_lib st' = ss_lib st; vc_fhs : ss_fhs st' = ss_fhs st; vc_errno : ss_errno st' = ss_errno st;
    vc_wait : ss_startwait st' = ss_startwait st }.

Lemma epoll_set_ok st s evts :
  epoll_ok st ->
  exists st', flextcp_epoll_set st s evts = Ok st' /\ epoll_ok st' /\
    events_change s (Z.lor (so_ep_events (sk st s)) evts) st st' /\
    (forall y, es_core (ses st' y) = es_core (ses st y)) /\ dom (ss_ess st') = dom (ss_ess st).
Proof.
  intros [W R]. unfold flextcp_epoll_set. cbv zeta. set (old := so_ep_events (sk st s)).
  destruct (Z.eqb_spec (Z.ldiff evts old) 0) as [E|E].
  - exists st. split; [reflexivity|]. split; [split; auto|]. split; [|auto]. split; auto. intros y.
    rewrite (lor_absorb _ _ E). case_decide; subst; [|reflexivity]. unfold old. destruct (sk st s); reflexivity.
  - set (x := sk st s <| so_ep_events := Z.lor old evts |>). set (s1 := put_sk st s x).
    assert (F : wf_frame st s1) by (apply put_sk_frame; reflexivity).
    pose proof (frame_wf _ _ F W) as W1. destruct (ew_socks _ _ W1 s) as (S & H).
    destruct (epoll_set_loop_wf (es_fuel s1) s1 (Z.ldiff evts old) (so_eps (sk s1 s)) S W1) as (s2 & E2 & W2 & C2 & A2).
    { intros e He. apply (sh_in _ _ _ H), He. } { exact (so_chain _ _ _ H). } { exact (so_fuel _ _ _ H). }
    exists s2. split; [exact E2|]. pose proof (lc_rest _ _ C2) as Rs. injection Rs as R1 R2 R3 R4 R5.
    assert (Sk : forall y, sk s2 y = if decide (y = s) then x else sk st y)
      by (intros y; unfold sk at 1; rewrite R2; apply sk_put).
    split; [|split; [split; auto | split; [exact (lc_core _ _ C2) | exact (lc_dom _ _ C2)]]].
    split; [exact W2|]. intros e Le Ev. rewrite A2. assert (Le1 : live st e) by (unfold live in *; rewrite (lc_dom _ _ C2) in Le; exact Le).
    pose proof (lc_core _ _ C2 e) as K. unfold es_core in K. change (ses s1 e) with (ses st e) in K.
    unfold es_events in Ev. replace (es_s (ses s2 e)) with (es_s (ses st e)) in Ev by congruence.
    replace (es_mask (ses s2 e)) with (es_mask (ses st e)) in Ev by congruence. rewrite Sk in Ev.
    destruct (decide (e ∈ S /\ _)) as [D|D]; [reflexivity|]. change (ses s1 e) with (ses st e) in *. apply R; [exact Le1|]. unfold es_events.
    case_decide as D2; [|exact Ev]. subst x. es_cbn. rewrite D2.
    destruct (land_lor_zero _ _ _ Ev) as [V|V]; [exact V|]. exfalso. apply D. split; [|exact V].
    apply (sh_in _ _ _ H). split; [apply (frame_live _ _ e F), Le1 | exact D2].
Qed.

Lemma epoll_clear_ok st s evts : epoll_ok st ->
  epoll_ok (flextcp_epoll_clear st s evts) /\
  events_change s (Z.ldiff (so_ep_events (sk st s)) evts) st (flextcp_epoll_clear st s evts).
Proof.
  intros O. split.
  - apply (frame_ok st); [apply put_sk_frame; reflexivity | exact O|]. intros e. unfold es_events, flextcp_epoll_clear.
    rewrite ses_sk, sk_put. case_decide as D; [|auto]. es_cbn. rewrite D. apply land_ldiff_nonzero.
  - split; auto. intros y. apply sk_put.
Qed.
