(* ===== verification/SockEpollCtl.v ===== *)
(** [epoll_ctl]: an epoll instance is a finite map from sockets to the events
    asked for and the user's data. *)
From stdpp Require Import base numbers list gmap.
From Stdlib Require Import ZArith Lia.
From S2P Require Import Prelude LinkedList SockState SockEpoll SockEpollInv SockEpollSafe.

(** The entry of a socket in an instance. *)
Definition reg (st : sst) (ep s : Z) (md : Z * Z) : Prop :=
  exists e, live st e /\ es_ep (ses st e) = ep /\ es_s (ses st e) = s /\ (es_mask (ses st e), es_data (ses st e)) = md.

(** The instance after a change of the entry of one socket. *)
Definition reg_update (st st' : sst) (ep s : Z) (md : option (Z * Z)) : Prop :=
  forall ep' s' md', reg st' ep' s' md' <->
    if decide (ep' = ep /\ s' = s) then Some md' = md else reg st ep' s' md'.

Lemma es_find_spec fuel st ep p (l : list Z) :
  chain (snxt st) p l None -> (length l <= fuel)%nat ->
  exists r, es_find fuel st ep p = Ok r /\
    match r with Some e => e ∈ l /\ es_ep (ses st e) = ep | None => forall e, e ∈ l -> es_ep (ses st e) <> ep end.
Proof.
  revert p fuel. induction l as [|e l IH]; intros p fuel C Hf.
  - apply chain_nil_inv in C as ->. exists None. split; [destruct fuel; reflexivity|]. intros e H. inversion H.
  - apply chain_cons_inv in C as [-> C]. destruct fuel as [|fuel]; [cbn in Hf; lia|]. cbn [es_find].
    destruct (Z.eqb_spec (es_ep (ses st e)) ep) as [E|E].
    + exists (Some e). split; [reflexivity|]. split; [left | exact E].
    + destruct (IH _ fuel C ltac:(cbn in Hf; lia)) as (r & E' & H). exists r. split; [exact E'|]. destruct r as [e'|].
      * destruct H. split; [right|]; auto.
      * intros y Hy. apply elem_of_cons in Hy as [->|Hy]; auto.
Qed.

Lemma find_entry st ep s :
  epoll_wf st ->
  exists r, es_find (es_fuel st) st ep (so_eps (sk st s)) = Ok r /\
    match r with
    | Some e => live st e /\ es_ep (ses st e) = ep /\ es_s (ses st e) = s
    | None => forall e, live st e -> es_s (ses st e) = s -> es_ep (ses st e) <> ep
    end.
Proof.
  intros W. destruct (ew_socks _ _ W s) as (S & H).
  destruct (es_find_spec (es_fuel st) st ep _ S (so_chain _ _ _ H) (so_fuel _ _ _ H)) as (r & E & R).
  exists r. split; [exact E|]. destruct r as [e|].
  - destruct R as [R1 R2]. apply (sh_in _ _ _ H) in R1. tauto.
  - intros e L1 L2. apply R, (sh_in _ _ _ H). auto.
Qed.

(** Moving entries between lists does not change the map. *)
Lemma lists_change_reg st st' ep s md : lists_change st st' -> reg st' ep s md <-> reg st ep s md.
Proof.
  intros C. assert (K : forall e, es_ep (ses st' e) = es_ep (ses st e) /\ es_s (ses st' e) = es_s (ses st e) /\
    es_mask (ses st' e) = es_mask (ses st e) /\ es_data (ses st' e) = es_data (ses st e)).
  { intros e. pose proof (lc_core _ _ C e) as K. unfold es_core in K. split_and!; congruence. }
  unfold reg, live. rewrite (lc_dom _ _ C).
  split; intros (e & L & E1 & E2 & E3); exists e; destruct (K e) as (K1 & K2 & K3 & K4); split_and!; congruence.
Qed.

(** Activating an entry when its socket has events for it. *)
Lemma activate_ready st e :
  epoll_wf st -> live st e -> (forall y, live st y -> y <> e -> es_events st y <> 0 -> es_active (ses st y) = 1) ->
  exists st', (if negb (es_events st e =? 0) then es_activate st e else Ok st) = Ok st' /\ epoll_ok st' /\ lists_change st st'.
Proof.
  intros W L R. destruct (Z.eqb_spec (es_events st e) 0) as [E|E]; cbn [negb].
  - exists st. split; [reflexivity|]. split; [|reflexivity]. split; [exact W|]. intros y Ly Ey. apply R; auto. congruence.
  - destruct (activate_wf st _ e (ew_size _ _ W) W L eq_refl) as (st' & E' & C & W' & Ac). exists st'.
    split; [exact E'|]. split; [|exact (ep_lists_change _ _ _ C)]. split; [exact W'|].
    intros y Ly Ey. rewrite Ac. case_decide; [reflexivity|]. rewrite (change_events _ _ _ y C) in Ey.
    apply R; auto. apply (change_live _ _ _ y C), Ly.
Qed.

(** What [epoll_ctl] leaves alone: everything but the lists. *)
Definition so_data (x : socket) := (so_conn x, so_listener x, so_addr x, so_flags x, so_type x, so_ep_events x).
Record ctl_frame (st st' : sst) : Prop := mk_ctl_frame
  { cf_lib : ss_lib st' = ss_lib st; cf_fhs : ss_fhs st' = ss_fhs st; cf_errno : ss_errno st' = ss_errno st;
    cf_wait : ss_startwait st' = ss_startwait st; cf_sk : forall s, so_data (sk st' s) = so_data (sk st s) }.
#[export] Instance ctl_frame_preorder : PreOrder ctl_frame.
Proof.
  split; [split; auto|]. intros a b c [] []. split; congruence || (intros s; congruence).
Qed.
Lemma lists_ctl_frame st st' : lists_change st st' -> ctl_frame st st'.
Proof.
  intros C. pose proof (lc_rest _ _ C) as R. injection R as R1 R2 R3 R4 R5. split; auto.
  intros s. unfold sk. rewrite R2. reflexivity.
Qed.

(** *** EPOLL_CTL_MOD *)

Lemma ctl_mod_ok st ep s e events :
  epoll_ok st -> live st e -> es_ep (ses st e) = ep -> es_s (ses st e) = s ->
  exists st', epoll_ctl_mod st s (Some e) events = Ok (st', 0) /\ epoll_ok st' /\ ctl_frame st st' /\
    reg_update st st' ep s (Some (Z.lor events EPOLLERR, es_data (ses st e))).
Proof.
  intros [W R] L Ee Es. unfold epoll_ctl_mod. set (f := fun x : epoll_socket => x <| es_mask := Z.lor events EPOLLERR |>).
  set (s1 := upd_es st e f).
  assert (F : wf_frame st s1).
  { split; [intros y; unfold node_view, s1, f; es_cases | unfold s1; dom_tac | repeat split | reflexivity]. }
  pose proof (frame_wf _ _ F W) as W1. pose proof (frame_live _ _ e F) as Le.
  assert (Es1 : es_s (ses s1 e) = s) by (unfold s1, f; es_cases).
  destruct (activate_ready s1 e W1) as (s2 & E2 & O2 & C2); [apply Le, L | |].
  { intros y Ly N Ey. destruct (frame_node _ _ y F) as (_ & _ & -> & _). apply R; [apply (frame_live _ _ y F), Ly|].
    unfold es_events, s1, f in Ey. autorewrite with sock in Ey. rewrite decide_False in Ey by exact N. exact Ey. }
  unfold es_events in E2. rewrite Es1 in E2. cbv zeta. fold s1. rewrite E2. cbn [obind]. exists s2. split; [reflexivity|].
  split; [exact O2|]. split.
  { etransitivity; [|exact (lists_ctl_frame _ _ C2)]. split; auto. }
  intros ep' s' md'. rewrite (lists_change_reg _ _ _ _ _ C2). unfold reg. split.
  - intros (y & Ly & E3 & E4 & E5). apply (frame_live _ _ y F) in Ly.
    destruct (decide (y = e)) as [->|N].
    + unfold s1, f in E3, E4, E5. autorewrite with sock in *. rewrite decide_True in * by reflexivity. es_cbn.
      rewrite decide_True by (split; congruence). congruence.
    + unfold s1, f in E3, E4, E5. autorewrite with sock in *. rewrite decide_False in * by exact N.
      rewrite decide_False; [exists y; auto|]. intros [-> ->]. apply N, (ew_one _ _ W); congruence.
  - case_decide as D.
    + intros [= ->]. destruct D as [-> ->]. exists e. split; [apply Le, L|]. unfold s1, f. es_cases.
    + intros (y & Ly & E3 & E4 & E5). exists y. split; [apply (frame_live _ _ y F), Ly|].
      assert (N : y <> e) by (intros ->; apply D; split; congruence).
      unfold s1, f. autorewrite with sock. rewrite !decide_False by exact N. auto.
Qed.

(** *** EPOLL_CTL_ADD *)

(** The part of an entry that its instance's lists use. *)
Definition ep_view (x : epoll_socket) : Z * Z * option Z * option Z * Z * Z * Z :=
  (es_ep x, es_s x, es_ep_next x, es_ep_prev x, es_data x, es_mask x, es_active x).

(** Entering [es] in the list of its socket. *)
Lemma add_sock_run st es s (S : list Z) :
  so_eps (sk st s) = head S -> (forall y, y ∈ S -> live st y) -> live st es -> es ∉ S ->
  let st' := es_add_sock st es s in
  (forall y, ep_view (ses st' y) = ep_view (ses st y)) /\
  pushes (snxt st) (sprv st) (snxt st') (sprv st') es S /\ dom (ss_ess st') = dom (ss_ess st) /\
  ss_epolls st' = ss_epolls st /\ ctl_frame st st' /\
  (forall s', so_eps (sk st' s') = if decide (s' = s) then Some es else so_eps (sk st s')).
Proof.
  intros H M Le Nin. cbv zeta. unfold es_add_sock. cbv zeta. rewrite sk_es, H.
  assert (Hh : forall y, head S = Some y -> live st y /\ y <> es).
  { intros y Hy. apply head_in in Hy. split; [apply M, Hy | intros ->; contradiction]. }
  unfold pushes, snxt, sprv.
  destruct (head S) as [h|]; [destruct (Hh h eq_refl) as [Lh Nh]|]; split_and!; try reflexivity.
  all: try (intros y; unfold ep_view; try split; es_cases; fail).
  all: try (split; try reflexivity; intros y; unfold so_data; es_cases; fail).
  all: try (unfold put_sk; cbn [ss_ess upd eta_sst]; dom_tac; fail).
Qed.

Section Add.
Context (st : sst) (ep s events data new : Z).
Hypothesis Ho : epoll_ok st.
Hypothesis Hnew : ~ live st new.
Hypothesis Hsz : Z.of_nat (size (ss_ess st)) < 4294967294.
Hypothesis Hfree : forall e, live st e -> es_s (ses st e) = s -> es_ep (ses st e) <> ep.
Let rec := mk_epoll_socket ep s None None None None data (Z.lor events EPOLLERR) 0.
Let st0 := put_ses st new rec.
Let st1 := es_add_sock st0 new s.

Lemma add_live0 y : live st0 y <-> y = new \/ live st y.
Proof. unfold live, st0, put_ses. cbn [ss_ess upd eta_sst]. rewrite dom_insert_L. set_solver. Qed.

Lemma add_so_has0 s' S : so_has st s' S -> new ∉ S /\ (s' <> s -> so_has st0 s' S) /\
  dlist (snxt st0) (sprv st0) S.
Proof.
  intros H. assert (Nn : new ∉ S) by (intros Hn; apply (sh_in _ _ _ H) in Hn; tauto).
  assert (Sl : forall y, y ∈ S -> snxt st0 y = snxt st y /\ sprv st0 y = sprv st y).
  { intros y Hy. unfold snxt, sprv, st0. rewrite ses_put, decide_False by congruence. auto. }
  split; [exact Nn|]. split; [|exact (dlist_ext _ _ _ _ _ (sh_nd _ _ _ H) Sl (sh_list _ _ _ H))].
  intros N. apply (so_intro st); auto. intros y. rewrite add_live0. unfold st0. rewrite ses_put.
  case_decide as D; [subst; unfold rec; cbn; intuition congruence | tauto].
Qed.

(** The state before the entry joins the inactive list of the instance. *)
Lemma add_facts1 :
  (forall y, ep_view (ses st1 y) = ep_view (if decide (y = new) then rec else ses st y)) /\
  (forall y, live st1 y <-> y = new \/ live st y) /\ ss_epolls st1 = ss_epolls st /\ ctl_frame st st1 /\
  (forall s', exists S, so_has st1 s' S) /\ Z.of_nat (size (ss_ess st1)) < 4294967295.
Proof.
  pose proof (eo_wf _ Ho) as W. destruct (ew_socks _ _ W s) as (S & HS). destruct (add_so_has0 _ _ HS) as (Nn & _ & D0).
  assert (H0 : forall y, ses st0 y = if decide (y = new) then rec else ses st y) by (intros y; apply ses_put).
  destruct (add_sock_run st0 new s S (sh_head _ _ _ HS)) as (V & U & Dm & Ep & F & Eps);
    [intros y Hy; apply add_live0; right; apply (sh_in _ _ _ HS), Hy | apply add_live0; auto | exact Nn |].
  fold st1 in V, U, Dm, Ep, F, Eps. pose proof (fun y => pushes_other _ _ _ _ _ _ y U) as O.
  assert (V' : forall y, ep_view (ses st1 y) = ep_view (if decide (y = new) then rec else ses st y))
    by (intros y; rewrite V, H0; reflexivity).
  assert (L1 : forall y, live st1 y <-> y = new \/ live st y)
    by (intros y; rewrite <- add_live0; unfold live; rewrite Dm; reflexivity).
  assert (Es : forall y, es_s (ses st1 y) = if decide (y = new) then s else es_s (ses st y)).
  { intros y. specialize (V' y). unfold ep_view in V'. case_decide; subst; cbn in V'; congruence. }
  split; [exact V'|]. split; [exact L1|]. split; [rewrite Ep; reflexivity|]. split.
  { destruct F as [F1 F2 F3 F4 F5]. split; auto. }
  split.
  - intros s'. destruct (decide (s' = s)) as [->|N].
    + assert (NS : NoDup (new :: S)) by (apply NoDup_cons; split; [exact Nn | exact (sh_nd _ _ _ HS)]).
      exists (new :: S). split; [exact (pushes_self _ _ _ _ _ _ NS D0 U) | exact NS | |].
      * rewrite Eps, decide_True by reflexivity. reflexivity.
      * intros y. rewrite elem_of_cons, (sh_in _ _ _ HS), L1, Es. case_decide; intuition congruence.
    + destruct (ew_socks _ _ W s') as (S' & HS'). destruct (add_so_has0 _ _ HS') as (Nn' & H' & _). specialize (H' N).
      exists S'. apply (so_intro st0); auto.
      * intros y Hy. apply O; [congruence|]. intros Hy2. apply (sh_in _ _ _ HS) in Hy2.
        apply (sh_in _ _ _ HS') in Hy. destruct Hy, Hy2. congruence.
      * rewrite Eps, decide_False by exact N. reflexivity.
      * intros y. rewrite L1, add_live0, Es, H0. case_decide; cbn; tauto.
  - assert (Sz : size (ss_ess st1) = Datatypes.S (size (ss_ess st))); [|lia].
    rewrite <- (size_dom (D := gset Z)), Dm, size_dom. unfold st0, put_ses. cbn [ss_ess upd eta_sst].
    apply map_size_insert_None. apply not_elem_of_dom. exact Hnew.
Qed.

Lemma add_ready1 : wf_but (Some ep) st1 /\ (exists A I, detached st1 st1 ep new A I).
Proof.
  destruct Ho as [W R]. destruct add_facts1 as (V & L1 & Ep & F & So & Sz).
  assert (K : forall y, y <> new -> ep_view (ses st1 y) = ep_view (ses st y))
    by (intros y N; rewrite V, decide_False by exact N; reflexivity).
  assert (Kn : ep_view (ses st1 new) = ep_view rec) by (rewrite V, decide_True by reflexivity; reflexivity).
  assert (Nl : forall y, live st y -> y <> new) by (intros y Hy ->; contradiction).
  assert (Hl : forall ep' A I, ep_has st ep' A I -> ep_links st1 ep' A I).
  { intros ep' A I H. apply (links_frame st); [apply H | | unfold sep; rewrite Ep; reflexivity].
    intros y Hy. assert (Ly : live st y) by (apply elem_of_app in Hy as [Hy|Hy]; apply H in Hy; tauto).
    specialize (K y (Nl y Ly)). unfold ep_view in K. unfold same_links, enxt, eprv. split; congruence. }
  assert (Kv : forall y, live st y -> es_ep (ses st1 y) = es_ep (ses st y) /\ es_s (ses st1 y) = es_s (ses st y) /\
     es_active (ses st1 y) = es_active (ses st y)).
  { intros y Ly. specialize (K y (Nl y Ly)). unfold ep_view in K. split_and!; congruence. }
  assert (Kr : es_ep (ses st1 new) = ep /\ es_s (ses st1 new) = s /\ es_active (ses st1 new) = 0)
    by (unfold ep_view in Kn; cbn in Kn; split_and!; congruence).
  destruct Kr as (Kr1 & Kr2 & Kr3).
  split; [split; auto|].
  - intros ep' N. destruct (wf_eps _ ep' W) as (A & I & H). exists A, I. apply (has_intro st); auto.
    + intros y Hy. assert (Ly : live st y) by (apply elem_of_app in Hy as [Hy|Hy]; apply H in Hy; tauto).
      specialize (K y (Nl y Ly)). unfold ep_view in K. unfold same_links, enxt, eprv. split; congruence.
    + unfold sep. rewrite Ep. auto.
    + intros y. rewrite L1. split; [intros [[->|Ly] E]|intros [Ly E]].
      * congruence.
      * destruct (Kv y Ly) as (E' & _). split; [exact Ly | congruence].
      * destruct (Kv y Ly) as (E' & _). split; [auto | congruence].
    + intros y Ly _. apply Kv, Ly.
  - intros y Ly. apply L1 in Ly as [->|Ly]; [auto|]. destruct (Kv y Ly) as (_ & _ & ->). apply (ew_flag _ _ W), Ly.
  - intros e1 e2 Hl1 Hl2. apply L1 in Hl1 as [->|Hl1], Hl2 as [->|Hl2]; auto.
    + rewrite Kr1, Kr2. destruct (Kv e2 Hl2) as (-> & -> & _). intros E1 E2. exfalso. apply (Hfree e2); auto.
    + rewrite Kr1, Kr2. destruct (Kv e1 Hl1) as (-> & -> & _). intros E1 E2. exfalso. apply (Hfree e1); auto.
    + destruct (Kv e1 Hl1) as (-> & -> & _), (Kv e2 Hl2) as (-> & -> & _). apply (ew_one _ _ W); auto.
  - destruct (wf_eps _ ep W) as (A & I & H). exists A, I. split; auto; try reflexivity.
    + apply L1. auto.
    + intros e. rewrite (eh_A _ _ _ _ H), L1. split.
      * intros (Ly & E1 & E2). destruct (Kv e Ly) as (-> & _ & ->). auto.
      * intros (N & [->|Ly] & E1 & E2); [congruence|]. destruct (Kv e Ly) as (E3 & _ & E4). split_and!; congruence.
    + intros e. rewrite (eh_I _ _ _ _ H), L1. split.
      * intros (Ly & E1 & E2). destruct (Kv e Ly) as (-> & _ & ->). auto.
      * intros (N & [->|Ly] & E1 & E2); [congruence|]. destruct (Kv e Ly) as (E3 & _ & E4). split_and!; congruence.
Qed.

Lemma ctl_add_ok :
  exists st', epoll_ctl_add st ep s None events data (Some new) = Ok (st', 0) /\ epoll_ok st' /\ ctl_frame st st' /\
    reg_update st st' ep s (Some (Z.lor events EPOLLERR, data)).
Proof.
  destruct Ho as [W R]. destruct add_facts1 as (V & L1 & Ep & F & So & Sz). destruct add_ready1 as (W1 & A & I & D).
  assert (Kn : ep_view (ses st1 new) = ep_view rec) by (rewrite V, decide_True by reflexivity; reflexivity).
  assert (K : forall y, live st y -> ep_view (ses st1 y) = ep_view (ses st y))
    by (intros y Ly; rewrite V, decide_False by (intros ->; contradiction); reflexivity).
  destruct (attach_inactive st1 ep new Sz st1 A I D) as (C2 & H2 & Ac); [unfold ep_view in Kn; cbn in Kn; congruence|].
  set (st2 := es_add_inactive st1 new) in *.
  assert (W2 : epoll_wf st2).
  { apply (wf_change ep st1 st2 A (new :: I) W1 C2 H2). intros y Ly _. rewrite Ac. apply (ew_flag _ _ W1), Ly. }
  assert (Ev : forall y, live st y -> es_events st2 y = es_events st y /\ es_active (ses st2 y) = es_active (ses st y)).
  { intros y Ly. rewrite (change_events _ _ _ y C2), Ac. specialize (K y Ly). unfold ep_view in K. unfold es_events.
    replace (es_s (ses st1 y)) with (es_s (ses st y)) by congruence.
    replace (es_mask (ses st1 y)) with (es_mask (ses st y)) by congruence.
    pose proof (cf_sk _ _ F (es_s (ses st y))) as Q. unfold so_data in Q. split; congruence. }
  destruct (activate_ready st2 new W2) as (st3 & E3 & O3 & C3).
  - apply (change_live _ _ _ _ C2), L1. auto.
  - intros y Ly N Ey. apply (change_live _ _ _ _ C2), L1 in Ly as [->|Ly]; [congruence|].
    destruct (Ev y Ly) as [E1 E2]. rewrite E2. apply R; [exact Ly | congruence].
  - exists st3. split; [|split; [exact O3|]].
    + unfold epoll_ctl_add. cbv zeta. fold rec st0 st1 st2. unfold es_events in E3.
      pose proof (ec_core _ _ _ C2 new) as Q. unfold es_core in Q. unfold ep_view in Kn. cbn in Kn.
      replace (es_s (ses st2 new)) with s in E3 by congruence. rewrite E3. reflexivity.
    + split; [etransitivity; [exact F|]; etransitivity; apply lists_ctl_frame; [exact (ep_lists_change _ _ _ C2) | exact C3]|].
      intros ep' s' md'. rewrite (lists_change_reg _ _ _ _ _ C3), (lists_change_reg _ _ _ _ _ (ep_lists_change _ _ _ C2)).
      unfold reg. split.
      * intros (y & Ly & E4 & E5 & E6). apply L1 in Ly as [->|Ly].
        -- unfold ep_view in Kn. cbn in Kn. rewrite decide_True by (split; congruence). congruence.
        -- specialize (K y Ly). unfold ep_view in K. rewrite decide_False; [exists y; split_and!; congruence|].
           intros [-> ->]. apply (Hfree y Ly); congruence.
      * case_decide as Dc.
        -- intros [= ->]. destruct Dc as [-> ->]. exists new. split; [apply L1; auto|]. unfold ep_view in Kn. cbn in Kn.
           split_and!; congruence.
        -- intros (y & Ly & E4 & E5 & E6). exists y. split; [apply L1; auto|]. specialize (K y Ly). unfold ep_view in K.
           split_and!; congruence.
Qed.
End Add.

(** *** EPOLL_CTL_DEL *)

(** Leaving the list of the socket. *)
Lemma remove_sock_run st es S1 S2 :
  let s := es_s (ses st es) in
  so_has st s (S1 ++ es :: S2) ->
  let st' := es_remove_sock st es in
  (forall y, ep_view (ses st' y) = ep_view (ses st y)) /\
  unlinks (snxt st) (sprv st) (snxt st') (sprv st') es /\ dom (ss_ess st') = dom (ss_ess st) /\
  ss_epolls st' = ss_epolls st /\ ctl_frame st st' /\
  (forall s', so_eps (sk st' s') = if decide (s' = s) then head (S1 ++ S2) else so_eps (sk st s')).
Proof.
  cbv zeta. set (s := es_s (ses st es)). intros [D ND H M]. destruct (dlist_at _ _ _ _ _ D) as [Pr Nx].
  pose proof (split_in _ _ _ ND) as Sp. unfold es_remove_sock. fold s. cbv zeta. unfold unlinks, snxt, sprv in *.
  assert (Hp : forall y, last S1 = Some y -> live st y /\ y <> es).
  { intros y Hy. apply last_in in Hy. destruct (proj1 (Sp y)) as [N I]; [apply elem_of_app; auto|]. apply M in I. tauto. }
  assert (Hn : forall y, head S2 = Some y -> live st y /\ y <> es).
  { intros y Hy. apply head_in in Hy. destruct (proj1 (Sp y)) as [N I]; [apply elem_of_app; auto|]. apply M in I. tauto. }
  assert (Hd : (if last S1 then so_eps (sk st s) else head S2) = head (S1 ++ S2)).
  { rewrite H. destruct S1 as [|z S1]; [reflexivity|]. rewrite last_cons. destruct (last S1); reflexivity. }
  rewrite <- Hd. rewrite Pr, Nx. destruct (last S1) as [p|] eqn:E1; [destruct (Hp p eq_refl) as [Lp Np]|];
    rewrite ?ses_upd, ?ses_sk, ?(decide_False (P := es = p)) by congruence; rewrite Nx;
    (destruct (head S2) as [n|] eqn:E2; [destruct (Hn n eq_refl) as [Ln Nn]|]); split_and!; try reflexivity.
  all: try (intros y; rewrite ?Pr, ?Nx; unfold ep_view; try split; es_cases; fail).
  all: try (split; try reflexivity; intros y; unfold so_data; es_cases; fail).
  all: try (unfold put_sk; cbn [ss_ess upd eta_sst]; dom_tac; fail).
Qed.

Section Del.
Context (st : sst) (es : Z).
Hypothesis Ho : epoll_ok st.
Hypothesis Les : live st es.
Let ep := es_ep (ses st es).
Let s := es_s (ses st es).
Let st1 := es_remove_sock st es.

Lemma del_facts1 :
  (forall y, ep_view (ses st1 y) = ep_view (ses st y)) /\ dom (ss_ess st1) = dom (ss_ess st) /\ ctl_frame st st1 /\
  (forall ep' A I, ep_has st ep' A I -> ep_has st1 ep' A I) /\
  (forall s', exists S, dlist (snxt st1) (sprv st1) S /\ NoDup S /\ so_eps (sk st1 s') = head S /\
     (forall e, e ∈ S <-> e <> es /\ live st e /\ es_s (ses st e) = s')).
Proof.
  pose proof (eo_wf _ Ho) as W. destruct (ew_socks _ _ W s) as (S & HS).
  assert (Hin : es ∈ S) by (apply (sh_in _ _ _ HS); auto). apply list_elem_of_split in Hin as (S1 & S2 & ->).
  destruct (remove_sock_run st es S1 S2 HS) as (V & U & Dm & Ep & F & Eps). fold st1 in V, U, Dm, Ep, F, Eps. fold s in Eps.
  split; [exact V|]. split; [exact Dm|]. split; [exact F|].
  assert (Vy : forall y, es_ep (ses st1 y) = es_ep (ses st y) /\ es_active (ses st1 y) = es_active (ses st y) /\ same_links st st1 y).
  { intros y. specialize (V y). unfold ep_view in V. unfold same_links, enxt, eprv. split_and!; congruence. }
  pose proof (split_in _ _ _ (sh_nd _ _ _ HS)) as Sp. split.
  - intros ep' A I H. apply (has_intro st); auto.
    + intros y _. apply Vy.
    + unfold sep. rewrite Ep. auto.
    + intros y. unfold live. rewrite Dm. destruct (Vy y) as (-> & _). reflexivity.
    + intros y _ _. apply Vy.
  - intros s'. destruct (decide (s' = s)) as [->|N].
    + exists (S1 ++ S2). split; [exact (unlinks_self _ _ _ _ _ _ _ (sh_nd _ _ _ HS) (sh_list _ _ _ HS) U)|].
      split; [exact (NoDup_skip _ _ _ (sh_nd _ _ _ HS))|]. split; [rewrite Eps, decide_True by reflexivity; reflexivity|].
      intros e. rewrite Sp, (sh_in _ _ _ HS). reflexivity.
    + destruct (ew_socks _ _ W s') as (S' & [D' ND' H' M']). exists S'.
      assert (Ns : forall y, y ∈ S' -> y ∉ S1 ++ S2).
      { intros y Hy H2. apply Sp in H2 as [_ H2]. apply (sh_in _ _ _ HS) in H2. apply M' in Hy. destruct Hy, H2. congruence. }
      split; [|split; [exact ND'|split]].
      * eapply dlist_ext; [exact ND' | | exact D']. intros y Hy.
        apply (unlinks_other _ _ _ _ _ _ _ y (sh_list _ _ _ HS) U), Ns, Hy.
      * rewrite Eps, decide_False by exact N. exact H'.
      * intros e. rewrite M'. split; [|tauto]. intros [H1 H2]. split; [|tauto]. intros ->. unfold s in N. congruence.
Qed.

Lemma del_detached : exists s2 A I, es_remove_ep st1 es = Ok s2 /\ detached st1 s2 ep es A I.
Proof.
  pose proof (eo_wf _ Ho) as W. destruct del_facts1 as (V & Dm & F & He & _).
  destruct (wf_eps _ ep W) as (A & I & H). apply He in H.
  assert (Hz : Z.of_nat (size (ss_ess st1)) < 4294967295)
    by (rewrite <- (size_dom (D := gset Z)), Dm, size_dom; apply (ew_size _ _ W)).
  pose proof (V es) as Ve. unfold ep_view in Ve.
  assert (Le1 : live st1 es) by (unfold live; rewrite Dm; exact Les).
  assert (Ee1 : es_ep (ses st1 es) = ep) by (unfold ep; congruence).
  unfold es_remove_ep. destruct (ew_flag _ _ W es Les) as [E|E]; replace (es_active (ses st1 es)) with (es_active (ses st es)) by congruence;
    rewrite E; cbn [Z.eqb negb Pos.eqb].
  - assert (Hin : es ∈ I) by (apply (eh_I _ _ _ _ H); split_and!; auto; congruence).
    apply list_elem_of_split in Hin as (I1 & I2 & ->).
    destruct (detach_inactive st1 ep es A I1 I2 H) as (s2 & E2 & D & _). eauto.
  - assert (Hin : es ∈ A) by (apply (eh_A _ _ _ _ H); split_and!; auto; congruence).
    apply list_elem_of_split in Hin as (A1 & A2 & ->).
    destruct (detach_active st1 ep es Hz A1 A2 I H) as (s2 & E2 & D & _). eauto.
Qed.

(** The state after the entry is freed. *)
Section Freed.
Context (s2 : sst) (A I : list Z).
Hypothesis D : detached st1 s2 ep es A I.
Let st2 := s2 <| ss_ess := delete es (ss_ess s2) |>.

Lemma freed_live y : live st2 y <-> y <> es /\ live st y.
Proof.
  destruct del_facts1 as (_ & Dm & _). unfold live, st2. cbn [ss_ess upd eta_sst].
  rewrite dom_delete_L, (ec_dom _ _ _ (dt_change _ _ _ _ _ _ D)), Dm. set_solver.
Qed.

Lemma freed_ses y : y <> es -> ses st2 y = ses s2 y.
Proof. intros N. unfold ses, st2. cbn [ss_ess upd eta_sst]. apply lookup_total_delete_ne. congruence. Qed.

Lemma freed_view y : y <> es -> es_ep (ses st2 y) = es_ep (ses st y) /\ es_s (ses st2 y) = es_s (ses st y) /\
  es_mask (ses st2 y) = es_mask (ses st y) /\ es_data (ses st2 y) = es_data (ses st y) /\
  es_active (ses st2 y) = es_active (ses st y) /\ snxt st2 y = snxt st1 y /\ sprv st2 y = sprv st1 y.
Proof.
  intros N. destruct del_facts1 as (V & _). pose proof (V y) as K1.
  pose proof (ec_core _ _ _ (dt_change _ _ _ _ _ _ D) y) as K2. pose proof (dt_active _ _ _ _ _ _ D y N) as K3.
  unfold ep_view, es_core in K1, K2. unfold snxt, sprv. rewrite (freed_ses y N). split_and!; congruence.
Qed.

Lemma freed_frame : ctl_frame st st2.
Proof.
  destruct del_facts1 as (_ & _ & F & _). etransitivity; [exact F|].
  pose proof (lists_ctl_frame _ _ (ep_lists_change _ _ _ (dt_change _ _ _ _ _ _ D))) as []. split; auto.
Qed.

Lemma freed_events y : y <> es -> es_events st2 y = es_events st y.
Proof.
  intros N. unfold es_events. destruct (freed_view y N) as (_ & -> & -> & _).
  pose proof (cf_sk _ _ freed_frame (es_s (ses st y))) as Q. unfold so_data in Q. congruence.
Qed.

Lemma freed_member v y :
  y <> es /\ live st1 y /\ es_ep (ses st1 y) = ep /\ es_active (ses st1 y) = v <->
  live st2 y /\ es_ep (ses st2 y) = ep /\ es_active (ses st2 y) = v.
Proof.
  destruct del_facts1 as (V & Dm & _). pose proof (V y) as K. unfold ep_view in K. rewrite freed_live.
  unfold live. rewrite Dm. split; [intros (N & H1 & H2 & H3) | intros ((N & H1) & H2 & H3)];
    destruct (freed_view y N) as (Q1 & _ & _ & _ & Q2 & _); split_and!; auto; congruence.
Qed.

(** The lists of the entry's instance, and of another one. *)
Lemma freed_has : ep_has st2 ep A I.
Proof.
  pose proof D as [C L _ _ MA MI Ac]. split.
  - apply (links_frame s2); [exact L | | reflexivity]. intros y Hy.
    assert (N : y <> es) by (rewrite elem_of_app, MA, MI in Hy; tauto).
    unfold same_links, enxt, eprv. rewrite (freed_ses y N). auto.
  - intros y. rewrite MA. apply freed_member.
  - intros y. rewrite MI. apply freed_member.
Qed.

Lemma freed_other ep' A' I' : ep' <> ep -> ep_has st ep' A' I' -> ep_has st2 ep' A' I'.
Proof.
  intros Ne H. destruct del_facts1 as (V & Dm & _ & He & _). apply He in H. pose proof (dt_change _ _ _ _ _ _ D) as C.
  assert (Nn : forall y, es_ep (ses st1 y) = ep' -> y <> es /\ ses st2 y = ses st1 y).
  { intros y Q. assert (N : y <> es) by (intros ->; pose proof (V es) as K; unfold ep_view in K; unfold ep in Ne; congruence).
    split; [exact N|]. rewrite (freed_ses y N). apply (ec_nodes _ _ _ C). congruence. }
  apply (has_intro st1); auto.
  - intros y Hy. destruct (Nn y) as [N Q]; [apply elem_of_app in Hy as [Hy|Hy]; apply H in Hy; tauto|].
    unfold same_links, enxt, eprv. rewrite Q. auto.
  - pose proof (ec_eps _ _ _ C ep' Ne) as Q. cbn zeta. change (sep st2 ep') with (sep s2 ep'). rewrite Q. auto.
  - intros y. rewrite freed_live. unfold live. rewrite Dm. pose proof (V y) as K. unfold ep_view in K. split.
    + intros [[N Ly] Q]. destruct (freed_view y N) as (Q1 & _). split; [exact Ly | congruence].
    + intros [Ly Q]. destruct (Nn y Q) as [N Q2]. split; [auto | congruence].
  - intros y Ly Q. destruct (Nn y Q) as [N Q2]. congruence.
Qed.

Lemma freed_wf : epoll_wf st2.
Proof.
  pose proof (eo_wf _ Ho) as W. destruct del_facts1 as (_ & _ & _ & _ & Hs). split.
  - intros ep' _. destruct (decide (ep' = ep)) as [->|Ne]; [exists A, I; exact freed_has|].
    destruct (wf_eps _ ep' W) as (A' & I' & H). exists A', I'. apply freed_other; auto.
  - intros s'. destruct (Hs s') as (S & DS & ND & Hd & M). exists S. split; auto.
    + eapply dlist_ext; [exact ND | | exact DS]. intros y Hy. apply M in Hy as (N & _). apply freed_view, N.
    + change (sk st2 s') with (sk s2 s'). rewrite (change_sk _ _ _ s' (dt_change _ _ _ _ _ _ D)). exact Hd.
    + intros y. rewrite M, freed_live. split; [intros (N & Ly & Q) | intros ((N & Ly) & Q)];
        destruct (freed_view y N) as (_ & Q' & _); split_and!; auto; congruence.
  - intros y Ly. apply freed_live in Ly as [N Ly]. destruct (freed_view y N) as (_ & _ & _ & _ & -> & _). apply (ew_flag _ _ W), Ly.
  - intros e1 e2 H1 H2. apply freed_live in H1 as [N1 H1], H2 as [N3 H2].
    destruct (freed_view e1 N1) as (-> & -> & _), (freed_view e2 N3) as (-> & -> & _). apply (ew_one _ _ W); auto.
  - assert (size (ss_ess st2) <= size (ss_ess st))%nat; [|pose proof (ew_size _ _ W); lia].
    rewrite <- !(size_dom (D := gset Z)). apply subseteq_size. intros y Hy. apply freed_live in Hy as [_ Hy]. exact Hy.
Qed.

Lemma freed_reg : reg_update st st2 ep s None.
Proof.
  pose proof (eo_wf _ Ho) as W. intros ep' s' md'. unfold reg. split.
  - intros (y & Ly & E3 & E4 & E5). apply freed_live in Ly as [N Ly]. destruct (freed_view y N) as (Q1 & Q2 & Q3 & Q4 & _).
    rewrite decide_False; [exists y; split_and!; congruence|]. intros [-> ->]. apply N, (ew_one _ _ W); unfold ep, s in *; congruence.
  - case_decide as Dc; [discriminate|]. intros (y & Ly & E3 & E4 & E5). exists y.
    assert (N : y <> es) by (intros ->; apply Dc; split; unfold ep, s; congruence).
    destruct (freed_view y N) as (Q1 & Q2 & Q3 & Q4 & _). split; [apply freed_live; auto|]. split_and!; congruence.
Qed.
End Freed.

Lemma ctl_del_ok :
  exists st', epoll_ctl_del st (Some es) = Ok (st', 0) /\ epoll_ok st' /\ ctl_frame st st' /\
    reg_update st st' ep s None.
Proof.
  destruct del_detached as (s2 & A & I & E & D). exists (s2 <| ss_ess := delete es (ss_ess s2) |>).
  split; [unfold epoll_ctl_del; cbv zeta; fold st1; rewrite E; reflexivity|].
  split; [split; [exact (freed_wf _ _ _ D)|] | split; [exact (freed_frame _ _ _ D) | exact (freed_reg _ _ _ D)]].
  intros y Ly Ey. apply (freed_live _ _ _ D) in Ly as [N Ly]. rewrite (freed_events _ _ _ D y N) in Ey.
  destruct (freed_view _ _ _ D y N) as (_ & _ & _ & _ & -> & _). apply (eo_ready _ Ho); auto.
Qed.
End Del.

(** ** [epoll_ctl] on a map *)

Definition reg_is (st : sst) (ep s : Z) (old : option (Z * Z)) : Prop := forall md, reg st ep s md <-> old = Some md.

(** The error number ([0]: none) and the entry after the call. *)
Definition ctl_spec (op events data : Z) (old : option (Z * Z)) : Z * option (Z * Z) :=
  let events := Z.ldiff events EPOLLET in
  let mask := Z.lor events EPOLLERR in
  if ((op =? EPOLL_CTL_ADD) || (op =? EPOLL_CTL_MOD)) && negb (Z.ldiff events EPOLL_EVENTS =? 0) then (EINVAL, old)
  else if op =? EPOLL_CTL_ADD then match old with Some _ => (EEXIST, old) | None => (0, Some (mask, data)) end
  else if op =? EPOLL_CTL_MOD then match old with Some (_, d) => (0, Some (mask, d)) | None => (ENOENT, None) end
  else if op =? EPOLL_CTL_DEL then match old with Some _ => (0, None) | None => (ENOENT, None) end
  else (EINVAL, old).

Lemma reg_entry st ep s old r :
  epoll_wf st -> reg_is st ep s old ->
  match r with
  | Some e => live st e /\ es_ep (ses st e) = ep /\ es_s (ses st e) = s
  | None => forall e, live st e -> es_s (ses st e) = s -> es_ep (ses st e) <> ep
  end ->
  old = option_map (fun e => (es_mask (ses st e), es_data (ses st e))) r.
Proof.
  intros W Ro H. destruct r as [e|]; cbn.
  - destruct H as (L & E1 & E2). apply Ro. exists e. auto.
  - destruct old as [md|]; [|reflexivity]. destruct (proj2 (Ro md) eq_refl) as (e & L & E1 & E2 & _). exfalso. eapply H; eauto.
Qed.

Lemma reg_same st ep s old : reg_is st ep s old -> reg_update st st ep s old.
Proof.
  intros Ro ep' s' md'. case_decide as D; [|reflexivity]. destruct D as [-> ->]. rewrite (Ro md'). split; congruence.
Qed.

Lemma errno_ok st e : epoll_ok st -> epoll_ok (set_errno st e).
Proof.
  intros O. apply (frame_ok st); [split; auto | exact O | auto].
Qed.

(** C12.  An epoll instance is a map from sockets to the events asked for and
    the user's data: on a socket and an instance, [epoll_ctl] returns what the
    map operation returns ([EEXIST] for adding twice, [ENOENT] for changing or
    removing what is not there, [EINVAL] for unknown operations and events),
    changes the entry of that socket in that instance and no other, and keeps
    the invariant of the lists; a changed entry keeps the data it was added
    with. *)
Theorem epoll_ctl_refines st epfd op fd events data r new ep s old :
  epoll_ok st -> 0 <= epfd < MAXSOCK -> 0 <= fd < MAXSOCK ->
  ss_fhs st !!! epfd = FH_EPOLL ep -> ss_fhs st !!! fd = FH_SOCKET s -> reg_is st ep s old ->
  ~ live st new -> Z.of_nat (size (ss_ess st)) < 4294967294 ->
  exists st', let '(e, md) := ctl_spec op events data old in
    lwip_epoll_ctl st epfd op fd events data r (Some new) = Ok (st', if e =? 0 then 0 else -1) /\
    epoll_ok st' /\ reg_update st st' ep s md /\ ctl_frame (if e =? 0 then st else set_errno st e) st'.
Proof.
  intros O He Hf Ee Ef Ro Hn Hs. unfold lwip_epoll_ctl, flextcp_fd_elookup, flextcp_fd_slookup.
  repeat match goal with |- context [?a <? ?b] => destruct (Z.ltb_spec a b); [lia|] | |- context [?a <=? ?b] => destruct (Z.leb_spec a b); [lia|] end.
  rewrite Ee. cbn [obind]. rewrite Ef. cbn [obind].
  destruct (find_entry st ep s (eo_wf _ O)) as (es & E & Hes). rewrite E. cbn [obind].
  rewrite (reg_entry _ _ _ _ _ (eo_wf _ O) Ro Hes) in Ro |- *. unfold ctl_spec. cbv zeta.
  assert (Err : forall x, exists st', Ok (set_errno st x, -1) = Ok (st', -1) /\ epoll_ok st' /\
     reg_update st st' ep s (option_map (fun e => (es_mask (ses st e), es_data (ses st e))) es) /\ ctl_frame (set_errno st x) st').
  { intros x. exists (set_errno st x). split; [reflexivity|]. split; [apply errno_ok, O|]. split; [exact (reg_same _ _ _ _ Ro) | reflexivity]. }
  destruct (((op =? EPOLL_CTL_ADD) || (op =? EPOLL_CTL_MOD)) && _); [apply Err|].
  destruct (op =? EPOLL_CTL_ADD).
  { destruct es as [es|]; cbn [option_map]; [apply Err|].
    destruct (ctl_add_ok st ep s (Z.ldiff events EPOLLET) data new O Hn Hs Hes) as (st' & A1 & A2 & A3 & A4).
    exists st'. auto. }
  destruct (op =? EPOLL_CTL_MOD).
  { destruct es as [es|]; cbn [option_map]; [|apply Err]. destruct Hes as (L & E1 & E2).
    destruct (ctl_mod_ok st ep s es (Z.ldiff events EPOLLET) O L E1 E2) as (st' & A1 & A2 & A3 & A4). exists st'. auto. }
  destruct (op =? EPOLL_CTL_DEL); [|apply Err].
  destruct es as [es|]; cbn [option_map]; [|apply Err]. destruct Hes as (L & E1 & E2).
  destruct (ctl_del_ok st es O L) as (st' & A1 & A2 & A3 & A4). rewrite E1, E2 in A4. exists st'. auto.
Qed.
