(* ===== verification/SockEpollScan.v ===== *)
(** The scan of [epoll_wait] over the active entries of an instance: it reports
    the ready ones from the front and moves them behind the others, so that
    every ready socket has its turn. *)
From stdpp Require Import base numbers list gmap.
From Stdlib Require Import ZArith Lia.
From S2P Require Import Prelude LinkedList SockState SockEpoll SockEpollInv SockEpollSafe.

Definition ready (st : sst) (e : Z) : Prop := es_events st e <> 0.
#[export] Instance ready_dec st e : Decision (ready st e).
Proof. unfold ready. apply _. Defined.

(** What is reported about an entry. *)
Definition report (st : sst) (e : Z) : Z * Z := (es_events st e, es_data (ses st e)).

Lemma change_ready ep st st' e : ep_change ep st st' -> ready st' e <-> ready st e.
Proof. intros C. unfold ready. rewrite (change_events _ _ _ e C). reflexivity. Qed.
Lemma change_report ep st st' e : ep_change ep st st' -> report st' e = report st e.
Proof.
  intros C. unfold report. rewrite (change_events _ _ _ e C). pose proof (ec_core _ _ _ C e) as K.
  unfold es_core in K. f_equal. congruence.
Qed.

Section Scan.
Context (ep maxevents : Z).

(** The round for the first entry. *)
Lemma scan_round k st e A I evs :
  epoll_ok st -> ep_has st ep (e :: A) I -> Z.of_nat (length evs) < maxevents ->
  exists st', ep_change ep st st' /\ epoll_ok st' /\
    if decide (ready st e)
    then ep_has st' ep (A ++ [e]) I /\
         epoll_scan (S k) st ep maxevents evs = epoll_scan k st' ep maxevents (evs ++ [report st e])
    else ep_has st' ep A (e :: I) /\ epoll_scan (S k) st ep maxevents evs = epoll_scan k st' ep maxevents evs.
Proof.
  intros [W R] H Hn. cbn [epoll_scan]. destruct (Z.leb_spec maxevents (Z.of_nat (length evs))); [lia|].
  rewrite (el_first _ _ _ _ (eh_links _ _ _ _ H)). cbn [head]. cbv zeta. fold (es_events st e).
  pose proof (proj1 (eh_A _ _ _ _ H e) ltac:(left)) as (Le & Ee & Ea). unfold ready.
  destruct (Z.eqb_spec (es_events st e) 0) as [E|E]; cbn [negb].
  - destruct (deactivate_has st ep e (ew_size _ _ W) A I H) as (st' & E' & C & H' & Ac). exists st'.
    split; [exact C|]. split.
    + split.
      * apply (wf_change ep st st' A (e :: I)); auto using wf_weaken. intros y Ly _. rewrite Ac.
        case_decide; [auto | apply (ew_flag _ _ W), Ly].
      * intros y Ly Ey. rewrite (change_events _ _ _ y C) in Ey. rewrite Ac, decide_False by congruence.
        apply R; [apply (change_live _ _ _ y C), Ly | exact Ey].
    + rewrite decide_False by auto. rewrite E'. auto.
  - destruct (pushback_has st ep e (ew_size _ _ W) A I H) as (st' & E' & C & H' & Ac). exists st'.
    split; [exact C|]. split.
    + split.
      * apply (wf_change ep st st' (A ++ [e]) I); auto using wf_weaken. intros y Ly _. rewrite Ac. apply (ew_flag _ _ W), Ly.
      * intros y Ly Ey. rewrite (change_events _ _ _ y C) in Ey. rewrite Ac.
        apply R; [apply (change_live _ _ _ y C), Ly | exact Ey].
    + rewrite decide_True by exact E. rewrite E'. auto.
Qed.

(** [Q]: the entries not looked at yet. *)
Lemma scan_rep Q R I st evs :
  epoll_ok st -> ep_has st ep (Q ++ R) I -> Z.of_nat (length evs) <= maxevents ->
  exists st' P Q', Q = P ++ Q' /\
    epoll_scan (length Q) st ep maxevents evs = Ok (st', evs ++ map (report st) (filter (ready st) P)) /\
    epoll_ok st' /\ ep_change ep st st' /\
    ep_has st' ep (Q' ++ R ++ filter (ready st) P) (rev (filter (fun e => ~ ready st e) P) ++ I) /\
    (Q' = [] \/ Z.of_nat (length evs + length (filter (ready st) P)) = maxevents) /\
    Z.of_nat (length evs + length (filter (ready st) P)) <= maxevents.
Proof.
  revert R I st evs. induction Q as [|e Q IH]; intros R I st evs O H Hm.
  - exists st, [], []. cbn. rewrite !app_nil_r, Nat.add_0_r. split_and!; auto. reflexivity.
  - destruct (decide (Z.of_nat (length evs) = maxevents)) as [F|F].
    + exists st, [], (e :: Q). cbn [filter map rev app length]. rewrite !app_nil_r, Nat.add_0_r.
      split_and!; auto; [|reflexivity]. cbn [epoll_scan]. destruct (Z.leb_spec maxevents (Z.of_nat (length evs))); [reflexivity | lia].
    + cbn [app] in H. cbn [length].
      destruct (scan_round (length Q) st e (Q ++ R) I evs O H ltac:(lia)) as (s1 & C1 & O1 & S1).
      assert (Fr : forall P, filter (ready s1) P = filter (ready st) P)
        by (intros P; apply filter_ext_in; intros; apply (change_ready _ _ _ _ C1)).
      assert (Fn : forall P, filter (fun e => ~ ready s1 e) P = filter (fun e => ~ ready st e) P)
        by (intros P; apply filter_ext_in; intros y _; rewrite (change_ready _ _ _ y C1); reflexivity).
      assert (Mr : forall P, map (report s1) P = map (report st) P)
        by (intros P; apply map_ext; intros; apply (change_report _ _ _ _ C1)).
      destruct (decide (ready st e)) as [Re|Re]; destruct S1 as [H1 ->].
      * rewrite <- app_assoc in H1.
        destruct (IH _ _ _ (evs ++ [report st e]) O1 H1) as (s2 & P & Q' & -> & E2 & O2 & C2 & H2 & D2 & L2);
          [rewrite length_app; cbn; lia|].
        exists s2, (e :: P), Q'. rewrite !filter_cons, (decide_True (P := ready st e)), (decide_False (P := ~ ready st e)) by auto.
        rewrite Fr, Mr in E2. rewrite Fr, Fn in H2. rewrite Fr, length_app in D2, L2. cbn [length map] in *.
        split; [reflexivity|]. split; [rewrite E2, <- app_assoc; reflexivity|]. split; [exact O2|].
        split; [etransitivity; eauto|]. split; [rewrite <- app_assoc in H2; exact H2|]. change (fun x => ready_dec st x) with (ready_dec st) in *.
        split; [|lia]. destruct D2 as [D2|D2]; [auto | right; lia].
      * destruct (IH _ _ _ evs O1 H1 Hm) as (s2 & P & Q' & -> & E2 & O2 & C2 & H2 & D2 & L2).
        exists s2, (e :: P), Q'. rewrite !filter_cons, (decide_False (P := ready st e)), (decide_True (P := ~ ready st e)) by auto.
        rewrite Fr, Mr in E2. rewrite Fr, Fn in H2. rewrite Fr in D2, L2.
        split; [reflexivity|]. split; [exact E2|]. split; [exact O2|]. split; [etransitivity; eauto|].
        split; [|auto]. cbn [rev]. rewrite <- app_assoc. exact H2.
Qed.
End Scan.

(** The scan as [epoll_wait] starts it. *)
Definition scan (st : sst) (ep maxevents : Z) : outcome (sst * list (Z * Z)) :=
  epoll_scan (Z.to_nat (ep_num_active (sep st ep))) st ep maxevents [].

Lemma scan_active st ep maxevents A I :
  epoll_ok st -> ep_has st ep A I -> 0 <= maxevents ->
  exists st' P Q, A = P ++ Q /\
    scan st ep maxevents = Ok (st', map (report st) (filter (ready st) P)) /\
    epoll_ok st' /\ ep_change ep st st' /\
    ep_has st' ep (Q ++ filter (ready st) P) (rev (filter (fun e => ~ ready st e) P) ++ I) /\
    (Q = [] \/ Z.of_nat (length (filter (ready st) P)) = maxevents) /\
    Z.of_nat (length (filter (ready st) P)) <= maxevents.
Proof.
  intros O H Hm. unfold scan. rewrite (el_num _ _ _ _ (eh_links _ _ _ _ H)), Nat2Z.id.
  destruct (scan_rep ep maxevents A [] I st [] O) as (st' & P & Q & E & S & O' & C & H' & D & L);
    [rewrite app_nil_r; exact H | cbn; lia |]. exists st', P, Q. auto 10.
Qed.

(** With room for every entry there is, every ready one is reported. *)
Lemma scan_with_room st maxevents e :
  epoll_ok st -> Z.of_nat (size (ss_ess st)) < maxevents -> live st e -> ready st e ->
  exists st' evs, scan st (es_ep (ses st e)) maxevents = Ok (st', evs) /\ report st e ∈ evs.
Proof.
  intros O Hm Le Re. destruct (wf_eps _ (es_ep (ses st e)) (eo_wf _ O)) as (A & I & H).
  destruct (scan_active st _ maxevents A I O H ltac:(lia)) as (st' & P & Q & -> & S & _ & _ & _ & D & _).
  eexists _, _. split; [exact S|]. apply list_elem_of_fmap_2, list_elem_of_filter. split; [exact Re|].
  assert (Lp : (length (P ++ Q) <= size (ss_ess st))%nat).
  { pose proof (el_nd _ _ _ _ (eh_links _ _ _ _ H)) as ND. apply NoDup_app in ND as (ND & _ & _).
    rewrite <- (size_dom (D := gset Z)), <- (size_list_to_set (C := gset Z) _ ND).
    apply subseteq_size. intros y Hy. apply elem_of_list_to_set in Hy. apply (eh_A _ _ _ _ H y), Hy. }
  destruct D as [->|D].
  - rewrite app_nil_r in H. apply (eh_A _ _ _ _ H). split_and!; auto. apply (eo_ready _ O); auto.
  - pose proof (length_filter (ready st) P). rewrite length_app in Lp. lia.
Qed.

(** C13.  A scan of [epoll_wait] goes through a prefix of the active list; it
    reports exactly the ready entries of the prefix, in their order, each with
    its pending events under its mask, and moves them behind the entries it has
    not come to; the others leave the list.  It stops early only with
    [maxevents] reports, so with room left every ready registered socket is
    reported, and an entry is registered as long as [epoll_ctl] leaves it. *)
Theorem epoll_scan_reports st ep maxevents :
  epoll_ok st -> 0 <= maxevents ->
  exists st' evs P Q, scan st ep maxevents = Ok (st', evs) /\ epoll_ok st' /\
    evs = map (report st) (filter (ready st) P) /\ Z.of_nat (length evs) <= maxevents /\
    (exists I, ep_has st ep (P ++ Q) I /\
       ep_has st' ep (Q ++ filter (ready st) P) (rev (filter (fun e => ~ ready st e) P) ++ I)) /\
    (Z.of_nat (length evs) < maxevents ->
     forall e, live st e -> es_ep (ses st e) = ep -> ready st e -> report st e ∈ evs).
Proof.
  intros O Hm. destruct (wf_eps _ ep (eo_wf _ O)) as (A & I & H).
  destruct (scan_active st ep maxevents A I O H Hm) as (st' & P & Q & -> & S & O' & C & H' & D & L).
  exists st', (map (report st) (filter (ready st) P)), P, Q. rewrite length_map. split_and!; auto; [eauto|].
  intros Hr e Le Ee Re. destruct D as [->|D]; [|lia]. apply list_elem_of_fmap_2, list_elem_of_filter. split; [exact Re|].
  rewrite app_nil_r in H. apply (eh_A _ _ _ _ H). split_and!; auto. apply (eo_ready _ O); auto.
Qed.

(** ** Fairness *)

(** Between two scans the entry does not fall back: others are only put behind
    it, and it stays ready. *)
Definition place_kept (ep e : Z) (st st' : sst) : Prop :=
  epoll_ok st' /\ ready st' e /\
  forall A1 A2 I, ep_has st ep (A1 ++ e :: A2) I ->
    exists A1' A2' I', ep_has st' ep (A1' ++ e :: A2') I' /\ (length A1' <= length A1)%nat.

(** [e] is reported by one of the next [n] scans, whatever happens between. *)
Inductive served (ep maxevents e : Z) : nat -> sst -> Prop :=
| served_now n st st' evs :
    scan st ep maxevents = Ok (st', evs) -> report st e ∈ evs -> served ep maxevents e (S n) st
| served_later n st st' evs :
    scan st ep maxevents = Ok (st', evs) ->
    (forall st2, place_kept ep e st' st2 -> served ep maxevents e n st2) -> served ep maxevents e (S n) st.

(** C14.  No ready socket starves: an entry with [p] active entries in front of
    it is reported by one of the next [n] scans if [p < n * maxevents],
    whatever happens to the instance in between as long as the entry stays
    ready and is not put behind others -- which arriving events never do. *)
Theorem epoll_no_starvation st ep maxevents e A1 A2 I n :
  epoll_ok st -> 0 < maxevents -> ep_has st ep (A1 ++ e :: A2) I -> ready st e ->
  Z.of_nat (length A1) < Z.of_nat n * maxevents -> served ep maxevents e n st.
Proof.
  intros O Hm H Re. revert st A1 A2 I O H Re. induction n as [|n IH]; intros st A1 A2 I O H Re Hp; [lia|].
  destruct (scan_active st ep maxevents _ I O H ltac:(lia)) as (st' & P & Q & E & S & O' & C & H' & D & L).
  assert (Cases : e ∈ P \/ exists A, A1 = P ++ A /\ Q = A ++ e :: A2).
  { clear -E. revert P E. induction A1 as [|a A1 IH]; intros [|x P] E; cbn in E.
    - right. exists []. subst. auto.
    - injection E as -> _. left. left.
    - right. exists (a :: A1). subst. auto.
    - injection E as -> E. destruct (IH P E) as [Hin|(A & -> & ->)]; [left; right; exact Hin | right; exists A; auto]. }
  destruct Cases as [Hin|(A & -> & ->)].
  - apply (served_now _ _ _ n st st' _ S). apply list_elem_of_fmap_2, list_elem_of_filter. auto.
  - apply (served_later _ _ _ n st st' _ S). intros st2 (O2 & R2 & K). rewrite <- app_assoc in H'. cbn [app] in H'.
    destruct (K _ _ _ H') as (A1' & A2' & I' & H2 & L2). apply (IH st2 A1' A2' I' O2 H2 R2).
    assert (maxevents <= Z.of_nat (length P)); [|rewrite length_app in Hp; nia].
    destruct D as [D|D]; [destruct A; discriminate|]. pose proof (length_filter (ready st) P). lia.
Qed.

(** Events that arrive keep every entry's place. *)
Lemma activate_place st ep e y A1 A2 I :
  epoll_wf st -> live st y -> ep_has st ep (A1 ++ e :: A2) I ->
  exists st' A2' I', es_activate st y = Ok st' /\ ep_has st' ep (A1 ++ e :: A2') I'.
Proof.
  intros W Ly H. destruct (ew_flag _ _ W y Ly) as [Ea|Ea].
  - destruct (decide (es_ep (ses st y) = ep)) as [Ee|Ne].
    + destruct (activate_has st ep y (ew_size _ _ W) _ I H) as (st' & I' & E & C & H' & _); [apply (eh_I _ _ _ _ H); auto|].
      exists st', (A2 ++ [y]), I'. split; [exact E|]. rewrite <- app_assoc in H'. exact H'.
    + destruct (activate_wf st _ y (ew_size _ _ W) W Ly eq_refl) as (st' & E & C & W' & Ac).
      exists st', A2, I. split; [exact E|]. apply (has_intro st); auto.
      * intros z Hz. assert (Ez : es_ep (ses st z) = ep) by (apply elem_of_app in Hz as [Hz|Hz]; apply H in Hz; tauto).
        unfold same_links, enxt, eprv. rewrite (ec_nodes _ _ _ C) by congruence. auto.
      * rewrite (ec_eps _ _ _ C) by congruence. auto.
      * intros z. rewrite (change_live _ _ _ z C), (es_core_ep _ _ (ec_core _ _ _ C z)). reflexivity.
      * intros z _ Ez. rewrite Ac, decide_False; [reflexivity|]. intros ->. congruence.
  - exists st, A2, I. unfold es_activate. rewrite Ea. auto.
Qed.

Lemma epoll_set_loop_place fuel st newevs p (l : list Z) ep e A1 A2 I st' :
  epoll_wf st -> (forall y, y ∈ l -> live st y) -> chain (snxt st) p l None -> ep_has st ep (A1 ++ e :: A2) I ->
  epoll_set_loop fuel st newevs p = Ok st' -> exists A2' I', ep_has st' ep (A1 ++ e :: A2') I'.
Proof.
  revert st p fuel A2 I. induction l as [|x l IH]; intros st p fuel A2 I W L C H E.
  - apply chain_nil_inv in C as ->. destruct fuel; injection E as <-; eauto.
  - apply chain_cons_inv in C as [-> C]. destruct fuel as [|fuel]; [discriminate|]. cbn [epoll_set_loop] in E.
    apply obind_ok in E as (s1 & E1 & E).
    assert (X : epoll_wf s1 /\ lists_change st s1 /\ exists A2' I', ep_has s1 ep (A1 ++ e :: A2') I').
    { destruct (_ =? 0); [injection E1 as <-; split_and!; auto; [reflexivity | eauto]|].
      destruct (activate_wf st _ x (ew_size _ _ W) W (L x ltac:(left)) eq_refl) as (s2 & E2 & C2 & W2 & _).
      destruct (activate_place st ep e x A1 A2 I W (L x ltac:(left)) H) as (s3 & A2' & I' & E3 & H3).
      rewrite E2 in E1, E3. injection E1 as <-. injection E3 as <-.
      split; [exact W2|]. split; [exact (ep_lists_change _ _ _ C2) | eauto]. }
    destruct X as (W1 & C1 & A2' & I' & H1).
    assert (N : forall y, snxt s1 y = snxt st y)
      by (intros y; pose proof (lc_core _ _ C1 y) as K; unfold es_core in K; unfold snxt; congruence).
    change (es_so_next (ses s1 x)) with (snxt s1 x) in E. apply (IH s1 _ fuel A2' I') in E; auto.
    + intros y Hy. unfold live. rewrite (lc_dom _ _ C1). apply L. right. exact Hy.
    + rewrite N. eapply chain_ext; [|exact C]. intros y _. symmetry. apply N.
Qed.

Lemma epoll_set_place st s evts ep e st' :
  epoll_ok st -> ready st e -> flextcp_epoll_set st s evts = Ok st' -> place_kept ep e st st'.
Proof.
  intros O Re E. destruct (epoll_set_ok st s evts O) as (s' & E' & O' & V & K & D). rewrite E in E'. injection E' as <-.
  split; [exact O'|]. split.
  - unfold ready, es_events in *. pose proof (K e) as Ke. unfold es_core in Ke.
    replace (es_s (ses st' e)) with (es_s (ses st e)) by congruence.
    replace (es_mask (ses st' e)) with (es_mask (ses st e)) by congruence.
    rewrite (vc_sk _ _ _ _ V). case_decide as Q; [|exact Re]. es_cbn. rewrite <- Q in *.
    intros Z0. apply Re. clear -Z0. z_bits.
  - intros A1 A2 I H. exists A1. unfold flextcp_epoll_set in E. cbv zeta in E.
    destruct (_ =? 0); [injection E as <-; eauto|].
    set (s1 := put_sk st s _) in E. assert (F : wf_frame st s1) by (apply put_sk_frame; reflexivity).
    pose proof (frame_wf _ _ F (eo_wf _ O)) as W1. destruct (ew_socks _ _ W1 s) as (S & HS).
    assert (H1 : ep_has s1 ep (A1 ++ e :: A2) I).
    { apply (has_intro st); [exact H | intros y _; apply (frame_node _ _ y F) | exact (wr_ep _ _ F ep) | | reflexivity]. reflexivity. }
    destruct (epoll_set_loop_place _ s1 _ _ S ep e A1 A2 I st' W1 (fun y Hy => proj1 (proj1 (sh_in _ _ _ HS y) Hy))
                (so_chain _ _ _ HS) H1 E) as (A2' & I' & H2). eauto.
Qed.
