(* ===== verification/SockCalls.v ===== *)
(** Events and data transfer of the POSIX layer: sockets/context.c,
    sockets/transfer.c and [epoll_wait] of sockets/epoll.c.

    [ctx] is the context of the calling thread ([flextcp_sockctx_get], created
    when it is first asked for).  A call that waits polls the library again and
    again; what the fast path and the kernel do to the shared memory and the
    queues before each of these polls is an argument, and [Spin] says that the
    call still waits after the last of them.  The caller's buffers are byte
    lists. *)
From stdpp Require Import base numbers list gmap.
From Stdlib Require Import ZArith Lia.
From S2P Require Import Prelude Dma Circ FastPath FastRx KernelState Appif AppConn AppPoll SockState SockEpoll.

(** ** context.c: events *)

Definition upd_conn (st : sst) (s : Z) (f : sock_conn -> sock_conn) : sst :=
  put_sk st s (sk st s <| so_conn := f (so_conn (sk st s)) |>).
Definition upd_lst (st : sst) (s : Z) (f : sock_listener -> sock_listener) : sst :=
  put_sk st s (sk st s <| so_listener := f (so_listener (sk st s)) |>).

Definition is_type (st : sst) (s : Z) (t : filehandle_type) : bool := bool_decide (so_type (sk st s) = t).
Definition conn_is (st : sst) (s : Z) (t : conn_status) : bool := bool_decide (sc_status (so_conn (sk st s)) = t).

Definition ev_listen_open (st : sst) (status s : Z) : outcome sst :=
  let! _ := assert_ (is_type st s SOCK_LISTENER) in
  let! _ := assert_ (bool_decide (sl_status (so_listener (sk st s)) = SOL_OPENING)) in
  Ok (upd_lst st s (fun x => x <| sl_status := if status =? 0 then SOL_OPEN else SOL_FAILED |>)).

Definition ev_listen_newconn (st : sst) (s : Z) : outcome sst :=
  let! _ := assert_ (is_type st s SOCK_LISTENER) in
  flextcp_epoll_set st s EPOLLIN.

(** The end of the handlers for opened and accepted connections. *)
Definition conn_established (st : sst) (status s : Z) : outcome sst :=
  if status =? 0
  then flextcp_epoll_set (upd_conn st s (fun x => x <| sc_status := SOC_CONNECTED |>)) s EPOLLOUT
  else flextcp_epoll_set (upd_conn st s (fun x => x <| sc_status := SOC_FAILED |>)) s EPOLLERR.

Definition ev_listen_accept (st : sst) (status s : Z) : outcome sst :=
  let! _ := assert_ (is_type st s SOCK_CONNECTION) in
  let! _ := assert_ (conn_is st s SOC_CONNECTING) in
  match sc_listener (so_conn (sk st s)) with
  | None => Crash
  | Some sl =>
      let! st := flextcp_epoll_set st sl EPOLLIN in
      conn_established st status s
  end.

Definition ev_conn_open (st : sst) (status s : Z) : outcome sst :=
  let! _ := assert_ (is_type st s SOCK_CONNECTION) in
  let! _ := assert_ (conn_is st s SOC_CONNECTING) in
  conn_established st status s.

(** New data goes to one of two pieces; there are at most two, because the
    receive buffer is a ring. *)
Definition rx_append (x : sock_conn) (buf len : Z) : outcome sock_conn :=
  if sc_rx_len_1 x =? 0
  then Ok (x <| sc_rx_len_1 := len |> <| sc_rx_buf_1 := buf |> <| sc_rx_len_2 := 0 |>)
  else if (sc_rx_len_2 x =? 0) && (buf =? sc_rx_buf_1 x + sc_rx_len_1 x)
  then Ok (x <| sc_rx_len_1 := u64 (sc_rx_len_1 x + len) |>)
  else if buf =? sc_rx_buf_2 x + sc_rx_len_2 x
  then Ok (x <| sc_rx_len_2 := u64 (sc_rx_len_2 x + len) |>)
  else if negb (sc_rx_len_2 x =? 0) then Crash
  else Ok (x <| sc_rx_len_2 := len |> <| sc_rx_buf_2 := buf |>).

Definition ev_conn_received (st : sst) (s buf len : Z) : outcome sst :=
  let! _ := assert_ (is_type st s SOCK_CONNECTION) in
  let! _ := assert_ (conn_is st s SOC_CONNECTED) in
  let! x := rx_append (so_conn (sk st s)) buf len in
  flextcp_epoll_set (upd_conn st s (fun _ => x)) s EPOLLIN.

Definition ev_conn_sendbuf (st : sst) (s : Z) : outcome sst :=
  let! _ := assert_ (is_type st s SOCK_CONNECTION) in
  let! _ := assert_ (conn_is st s SOC_CONNECTED) in
  flextcp_epoll_set st s EPOLLOUT.

Definition ev_conn_moved (st : sst) (status s : Z) : outcome sst :=
  let! _ := assert_ (is_type st s SOCK_CONNECTION) in
  let! _ := assert_ (conn_is st s SOC_CONNECTED) in
  Ok (upd_conn st s (fun x => x <| sc_move_status := status |>)).

(** The events of objects are printed and ignored. *)
Definition sock_event (st : sst) (ev : flextcp_event) : outcome sst :=
  match ev with
  | FLEXTCP_EV_LISTEN_OPEN status s => ev_listen_open st status s
  | FLEXTCP_EV_LISTEN_NEWCONN _ _ s => ev_listen_newconn st s
  | FLEXTCP_EV_LISTEN_ACCEPT status s => ev_listen_accept st status s
  | FLEXTCP_EV_CONN_OPEN status s => ev_conn_open st status s
  | FLEXTCP_EV_CONN_RECEIVED s buf len => ev_conn_received st s buf len
  | FLEXTCP_EV_CONN_SENDBUF s => ev_conn_sendbuf st s
  | FLEXTCP_EV_CONN_MOVED status s => ev_conn_moved st status s
  | _ => Ok st
  end.

Fixpoint sock_events (st : sst) (evs : list flextcp_event) : outcome sst :=
  match evs with [] => Ok st | ev :: evs => let! st := sock_event st ev in sock_events st evs end.

Definition SOCK_EVS : Z := 32.

Section Calls.
Context `{Platform}.
(** [fuel] bounds the queues of the library, as in [flextcp_context_poll]. *)
Context (fuel : nat).

Definition flextcp_sockctx_poll (st : sst) (ctx : Z) : outcome (sst * Z) :=
  let! (l, evs) := flextcp_context_poll fuel (ss_lib st) ctx SOCK_EVS in
  let! st := sock_events (st <| ss_lib := l |>) evs in
  Ok (st, Z.of_nat (length evs)).

(** [k] rounds at most; [n] drops by 32 in each. *)
Fixpoint poll_n_loop (k : nat) (st : sst) (ctx n nevents : Z) : outcome (sst * Z) :=
  match k with
  | O => Spin
  | S k =>
      let! (st, m) := flextcp_sockctx_poll st ctx in
      let nevents := nevents + m in
      let n := if 32 <=? n then n - 32 else 0 in
      if 0 <? n then poll_n_loop k st ctx n nevents else Ok (st, nevents)
  end.
Definition flextcp_sockctx_poll_n (st : sst) (ctx n : Z) : outcome (sst * Z) :=
  poll_n_loop (S (Z.to_nat n)) st ctx n 0.

(** ** Waiting *)

(** What the other processes do before the next poll. *)
Definition others (st : sst) (env : lib -> lib) : sst := st <| ss_lib := env (ss_lib st) |>.

(** [while (cond) flextcp_sockctx_poll(ctx);] *)
Fixpoint poll_while (cond : sst -> bool) (envs : list (lib -> lib)) (st : sst) (ctx : Z)
    : outcome (sst * list (lib -> lib)) :=
  if cond st then
    match envs with
    | [] => Spin
    | env :: envs => let! (st, _) := flextcp_sockctx_poll (others st env) ctx in poll_while cond envs st ctx
    end
  else Ok (st, envs).

(** [do flextcp_sockctx_poll(ctx); while (cond);] *)
Definition poll_do_while (cond : sst -> bool) (envs : list (lib -> lib)) (st : sst) (ctx : Z)
    : outcome (sst * list (lib -> lib)) :=
  match envs with
  | [] => Spin
  | env :: envs => let! (st, _) := flextcp_sockctx_poll (others st env) ctx in poll_while cond envs st ctx
  end.

(** ** transfer.c: receiving *)

Definition nonblocking (st : sst) (s : Z) : bool := Z.land (so_flags (sk st s)) SOF_NONBLOCK =? SOF_NONBLOCK.
Definition connected (st : sst) (s : Z) : bool := is_type st s SOCK_CONNECTION && conn_is st s SOC_CONNECTED.

(** Up to [room] bytes from the two pieces: the bytes and what is left. *)
Definition rx_copy (m : mem) (x : sock_conn) (room : Z) : list Z * sock_conn :=
  let '(b1, off, x) :=
    if sc_rx_len_1 x <=? room
    then (mem_read m (sc_rx_buf_1 x) (Z.to_nat (sc_rx_len_1 x)), sc_rx_len_1 x,
          x <| sc_rx_buf_1 := sc_rx_buf_2 x |> <| sc_rx_len_1 := sc_rx_len_2 x |>
            <| sc_rx_buf_2 := 0 |> <| sc_rx_len_2 := 0 |>)
    else ([], 0, x) in
  let len_2 := MIN (sc_rx_len_1 x) (room - off) in
  (b1 ++ mem_read m (sc_rx_buf_1 x) (Z.to_nat len_2),
   x <| sc_rx_buf_1 := sc_rx_buf_1 x + len_2 |> <| sc_rx_len_1 := sc_rx_len_1 x - len_2 |>).

Definition rx_empty (st : sst) (s : Z) : bool := sc_rx_len_1 (so_conn (sk st s)) =? 0.

(** Waiting for data; [None]: the call fails with [EAGAIN]. *)
Definition recv_wait (st : sst) (ctx s : Z) (envs : list (lib -> lib)) : outcome (sst * bool) :=
  if rx_empty st s then
    let st := flextcp_epoll_clear st s EPOLLIN in
    if nonblocking st s then Ok (set_errno st EAGAIN, false)
    else let! (st, _) := poll_while (fun st => rx_empty st s) envs st ctx in Ok (st, true)
  else Ok (st, true).

(** After copying [ret] bytes: the result of freeing them is ignored. *)
Definition recv_done (st : sst) (ctx s ret : Z) : outcome sst :=
  if 0 <? ret then
    let st := if rx_empty st s then flextcp_epoll_clear st s EPOLLIN else st in
    let! (l, _) := flextcp_connection_rx_done (ss_lib st) ctx s ret in
    Ok (st <| ss_lib := l |>)
  else Ok st.

(** The result and the bytes copied to the caller's buffer of [len] bytes. *)
Definition recv_simple (st : sst) (ctx sockfd len : Z) (envs : list (lib -> lib)) : outcome (sst * Z * list Z) :=
  let! (st, r) := flextcp_fd_slookup st sockfd in
  match r with
  | None => Ok (set_errno st EBADF, -1, [])
  | Some s =>
      if negb (connected st s) then Ok (set_errno st ENOTCONN, -1, [])
      else if len =? 0 then Ok (st, 0, [])
      else
        let! (st, go) := recv_wait st ctx s envs in
        if negb go then Ok (st, -1, [])
        else
          let '(bytes, x) := rx_copy (l_mem (ss_lib st)) (so_conn (sk st s)) len in
          let st := upd_conn st s (fun _ => x) in
          let ret := Z.of_nat (length bytes) in
          let! st := recv_done st ctx s ret in
          Ok (st, ret, bytes)
  end.

(** The loop of [recvmsg] over the lengths of the caller's buffers. *)
Fixpoint rx_copy_iov (m : mem) (x : sock_conn) (iov : list Z) : list (list Z) * sock_conn :=
  match iov with
  | [] => ([], x)
  | len :: iov =>
      if 0 <? sc_rx_len_1 x then
        let '(b, x) := rx_copy m x len in
        let '(bs, x) := rx_copy_iov m x iov in (b :: bs, x)
      else ([], x)
  end.

Definition iov_len (ls : list Z) : Z := foldr (fun l n => u64 (l + n)) 0 ls.

Definition lwip_recvmsg (st : sst) (ctx sockfd : Z) (iov : list Z) (envs : list (lib -> lib))
    : outcome (sst * Z * list (list Z)) :=
  let! (st, r) := flextcp_fd_slookup st sockfd in
  match r with
  | None => Ok (set_errno st EBADF, -1, [])
  | Some s =>
      if negb (connected st s) then Ok (set_errno st ENOTCONN, -1, [])
      else if iov_len iov =? 0 then Ok (st, 0, [])
      else
        let! (st, go) := recv_wait st ctx s envs in
        if negb go then Ok (st, -1, [])
        else
          let '(bufs, x) := rx_copy_iov (l_mem (ss_lib st)) (so_conn (sk st s)) iov in
          let st := upd_conn st s (fun _ => x) in
          let ret := Z.of_nat (length (concat bufs)) in
          let! st := recv_done st ctx s ret in
          Ok (st, ret, bufs)
  end.

(** ** transfer.c: sending *)

(** What [flextcp_connection_tx_alloc2] hands out. *)
Record tx_room := mk_tx_room { tr_len : Z; tr_dst_1 : Z; tr_len_1 : Z; tr_dst_2 : Z }.

Definition tx_alloc2 (st : sst) (s len : Z) : sst * tx_room :=
  let '(x, k, buf_1, len_1, buf_2) := flextcp_connection_tx_alloc2 (fconn (ss_lib st) s) len in
  (st <| ss_lib := put_fconn (ss_lib st) s x |>, mk_tx_room k buf_1 len_1 (default 0 buf_2)).

(** [do { poll; alloc } while (ret == 0);] *)
Fixpoint tx_alloc_wait (envs : list (lib -> lib)) (st : sst) (ctx s len : Z)
    : outcome (sst * tx_room * list (lib -> lib)) :=
  match envs with
  | [] => Spin
  | env :: envs =>
      let! (st, _) := flextcp_sockctx_poll (others st env) ctx in
      let '(st, r) := tx_alloc2 st s len in
      if tr_len r =? 0 then tx_alloc_wait envs st ctx s len else Ok (st, r, envs)
  end.

(** The room, or [None] for [EAGAIN]. *)
Definition tx_alloc_room (st : sst) (ctx s len : Z) (envs : list (lib -> lib))
    : outcome (sst * option tx_room * list (lib -> lib)) :=
  if nonblocking st s && negb (flextcp_connection_tx_possible =? 0) then Ok (set_errno st EAGAIN, None, envs)
  else
    let '(st, r) := tx_alloc2 st s len in
    if tr_len r =? 0 then
      if nonblocking st s then Ok (set_errno st EAGAIN, None, envs)
      else let! (st, r, envs) := tx_alloc_wait envs st ctx s len in Ok (st, Some r, envs)
    else Ok (st, Some r, envs).

(** [while (flextcp_connection_tx_send(...) != 0) poll;] *)
Fixpoint tx_send_loop (envs : list (lib -> lib)) (st : sst) (ctx s len : Z) : outcome sst :=
  let '(l, r) := flextcp_connection_tx_send (ss_lib st) ctx s len in
  let st := st <| ss_lib := l |> in
  if r =? 0 then Ok st
  else
    match envs with
    | [] => Spin
    | env :: envs => let! (st, _) := flextcp_sockctx_poll (others st env) ctx in tx_send_loop envs st ctx s len
    end.

Definition set_mem (st : sst) (m : mem) : sst := st <| ss_lib := ss_lib st <| l_mem := m |> |>.

Definition send_simple (st : sst) (ctx sockfd : Z) (buf : list Z) (envs : list (lib -> lib)) : outcome (sst * Z) :=
  let! (st, r) := flextcp_fd_slookup st sockfd in
  match r with
  | None => Ok (set_errno st EBADF, -1)
  | Some s =>
      if negb (connected st s) then Ok (set_errno st ENOTCONN, -1)
      else if Z.of_nat (length buf) =? 0 then Ok (st, 0)
      else
        let! (st, r, envs) := tx_alloc_room st ctx s (Z.of_nat (length buf)) envs in
        match r with
        | None => Ok (st, -1)
        | Some r =>
            let m := mem_write (l_mem (ss_lib st)) (tr_dst_1 r) (take (Z.to_nat (tr_len_1 r)) buf) in
            let m := mem_write m (tr_dst_2 r)
                       (take (Z.to_nat (tr_len r - tr_len_1 r)) (drop (Z.to_nat (tr_len_1 r)) buf)) in
            let! st := tx_send_loop envs (set_mem st m) ctx s (tr_len r) in
            Ok (st, tr_len r)
        end
  end.

(** The loop of [sendmsg] over the caller's buffers: [len] bytes still fit. *)
Fixpoint tx_copy_iov (m : mem) (r : tx_room) (iov : list (list Z)) (len off : Z) : outcome mem :=
  match iov with
  | [] => Ok m
  | b :: iov =>
      if 0 <? len then
        let l := MIN len (Z.of_nat (length b)) in
        let! m := split_write m (take (Z.to_nat l) b) (tr_dst_1 r) (tr_len_1 r) (tr_dst_2 r)
                    (tr_len r - tr_len_1 r) off in
        tx_copy_iov m r iov (len - l) (off + l)
      else Ok m
  end.

Definition lwip_sendmsg (st : sst) (ctx sockfd : Z) (iov : list (list Z)) (envs : list (lib -> lib))
    : outcome (sst * Z) :=
  let! (st, r) := flextcp_fd_slookup st sockfd in
  match r with
  | None => Ok (set_errno st EBADF, -1)
  | Some s =>
      if negb (connected st s) then Ok (set_errno st ENOTCONN, -1)
      else
        let len := iov_len (map (fun b => Z.of_nat (length b)) iov) in
        if len =? 0 then Ok (st, 0)
        else
          let! (st, r, envs) := tx_alloc_room st ctx s len envs in
          match r with
          | None => Ok (st, -1)
          | Some r =>
              let! m := tx_copy_iov (l_mem (ss_lib st)) r iov (tr_len r) 0 in
              let! st := tx_send_loop envs (set_mem st m) ctx s (tr_len r) in
              Ok (st, tr_len r)
          end
  end.

Definition lwip_read := recv_simple.
Definition lwip_recv (st : sst) (ctx sockfd len flags : Z) := recv_simple st ctx sockfd len.
Definition lwip_recvfrom (st : sst) (ctx sockfd len flags : Z) := recv_simple st ctx sockfd len.
Definition lwip_write := send_simple.
Definition lwip_send (st : sst) (ctx sockfd : Z) (buf : list Z) (flags : Z) := send_simple st ctx sockfd buf.
Definition lwip_sendto (st : sst) (ctx sockfd : Z) (buf : list Z) (flags : Z) := send_simple st ctx sockfd buf.

(** ** epoll_wait *)

(** Before each poll: the others' doings; then the clocks. *)
Record wait_env := mk_wait_env { we_lib : lib -> lib; we_us : Z; we_msecs : Z }.

(** One pass of the loop; [None]: the thread has slept ([flextcp_block]) and
    starts the pass again. *)
Definition epoll_pass (st : sst) (ctx ep maxevents : Z) (e : wait_env) : outcome (sst * option (list (Z * Z))) :=
  let! (st, nevents) := flextcp_sockctx_poll_n (others st (we_lib e)) ctx maxevents in
  let idle := nevents =? 0 in
  let start := ss_startwait st in
  if idle && negb (start =? 0) && (POLL_CYCLE <=? u32 (we_us e - start))
  then Ok (st <| ss_startwait := 0 |>, None)
  else
    let st := st <| ss_startwait := if idle then (if start =? 0 then we_us e else start) else 0 |> in
    let! (st, evs) := epoll_scan (Z.to_nat (ep_num_active (sep st ep))) st ep maxevents [] in
    Ok (st, Some evs).

Fixpoint epoll_wait_loop (st : sst) (ctx ep maxevents timeout mtimeout : Z) (envs : list wait_env)
    : outcome (sst * list (Z * Z)) :=
  match envs with
  | [] => Spin
  | e :: envs =>
      let! (st, r) := epoll_pass st ctx ep maxevents e in
      match r with
      | None => epoll_wait_loop st ctx ep maxevents timeout mtimeout envs
      | Some evs =>
          if bool_decide (evs = []) && negb (timeout =? 0) && ((timeout =? -1) || (mtimeout <? we_msecs e))
          then epoll_wait_loop st ctx ep maxevents timeout mtimeout envs
          else Ok (st, evs)
      end
  end.

(** [msecs]: the clock when the call starts; [linux]: what the system's
    [epoll_wait] returns when the instance has descriptors of the system. *)
Definition lwip_epoll_wait (st : sst) (ctx epfd maxevents timeout msecs : Z) (linux : Z * list (Z * Z))
    (envs : list wait_env) : outcome (sst * Z * list (Z * Z)) :=
  if maxevents <=? 0 then Ok (set_errno st EINVAL, -1, [])
  else
    let! (st, r) := flextcp_fd_elookup st epfd in
    match r with
    | None => Ok (set_errno st EBADF, -1, [])
    | Some ep =>
        if 0 <? ep_num_linux (sep st ep) then Ok (st, linux.1, linux.2)
        else
          let mtimeout := if 0 <? timeout then u64 (msecs + timeout) else 0 in
          let! (st, evs) := epoll_wait_loop st ctx ep maxevents timeout mtimeout envs in
          Ok (st, Z.of_nat (length evs), evs)
    end.
End Calls.
