(* ===== verification/SockStream.v ===== *)
(** What a socket's calls do to the two byte streams of its connection:
    received bytes are read in order and once, bytes sent are those the caller
    gave, in order. *)
From stdpp Require Import base numbers list gmap.
From Stdlib Require Import ZArith Lia.
From S2P Require Import Prelude LinkedList Dma Circ FastPath FastRx Stream KernelState Appif AppConn AppPoll AppRing.
From S2P Require Import SockState SockEpoll SockEpollInv SockEpollSafe SockEpollScan SockCalls.

(** ** The unread bytes of a socket *)

(** The two pieces of [x] are the bytes [freed], ..., [got - 1] of the peer's
    stream in the receive ring of [c]. *)
Record SockRx (x : sock_conn) (c : flextcp_connection) (freed got : Z) : Prop := mk_SockRx
  { sr_len : 0 < fc_rxb_len c < 2147483648;
    sr_order : freed <= got <= freed + fc_rxb_len c;
    sr_len_1 : sc_rx_len_1 x = Z.min (got - freed) (fc_rxb_len c - freed mod fc_rxb_len c);
    sr_len_2 : sc_rx_len_2 x = got - freed - sc_rx_len_1 x;
    sr_buf_1 : freed < got -> sc_rx_buf_1 x = fc_rxb_base c + freed mod fc_rxb_len c;
    sr_buf_2 : 0 < sc_rx_len_2 x -> sc_rx_buf_2 x = fc_rxb_base c }.

Lemma SockRx_view x c c' freed got :
  fc_rxb_base c' = fc_rxb_base c -> fc_rxb_len c' = fc_rxb_len c -> SockRx x c freed got -> SockRx x c' freed got.
Proof. intros E1 E2 []. split; rewrite ?E1, ?E2; auto. Qed.

Ltac sc_cbn := cbn [upd eta_sock_conn sc_status sc_listener sc_rx_buf_1 sc_rx_buf_2 sc_rx_len_1 sc_rx_len_2
  sc_ctx sc_move_status] in *.

(** The position after [n] bytes, without or with a wrap-around. *)
Lemma ring_after f n L : 0 < L -> 0 <= n <= L ->
  (f + n) mod L = if f mod L + n <? L then f mod L + n else f mod L + n - L.
Proof.
  intros HL Hn. pose proof (Z.mod_pos_bound f L HL). rewrite <- (ring_advance f n L) by lia.
  bsplit; lia.
Qed.

Definition conn_core (x : sock_conn) := (sc_status x, sc_listener x, sc_ctx x, sc_move_status x).

(** New bytes are appended; the call does not abort. *)
Lemma rx_append_rep x c freed got len :
  SockRx x c freed got -> 0 < len -> got mod fc_rxb_len c + len <= fc_rxb_len c ->
  got + len <= freed + fc_rxb_len c ->
  exists x', rx_append x (fc_rxb_base c + got mod fc_rxb_len c) len = Ok x' /\ SockRx x' c freed (got + len) /\
    conn_core x' = conn_core x.
Proof.
  intros [HL Ho L1 L2 B1 B2] Hl Hw Hf. set (L := fc_rxb_len c) in *. set (base := fc_rxb_base c) in *.
  pose proof (Z.mod_pos_bound freed L ltac:(lia)) as Bf.
  pose proof (ring_after freed (got - freed) L ltac:(lia) ltac:(lia)) as G.
  replace (freed + (got - freed)) with got in G by lia. unfold rx_append.
  destruct (Z.eqb_spec (sc_rx_len_1 x) 0) as [E1|E1].
  { assert (got = freed) as -> by lia. eexists. split; [reflexivity|]. split; [|reflexivity].
    split; sc_cbn; fold L base; auto; try lia. }
  specialize (B1 ltac:(lia)). destruct (Z.eqb_spec (sc_rx_len_2 x) 0) as [E2|E2]; cbn [andb negb].
  - destruct (Z.eqb_spec (base + got mod L) (sc_rx_buf_1 x + sc_rx_len_1 x)) as [E3|E3].
    + rewrite u64_small by lia. eexists. split; [reflexivity|]. split; [|reflexivity].
      split; sc_cbn; fold L base; auto; revert G; bsplit; intros; try lia.
    + assert (got mod L = 0) by (revert G; bsplit; intros; lia).
      destruct (Z.eqb_spec (base + got mod L) (sc_rx_buf_2 x + sc_rx_len_2 x)) as [E4|E4].
      * rewrite u64_small by lia. eexists. split; [reflexivity|]. split; [|reflexivity].
        split; sc_cbn; fold L base; auto; revert G; bsplit; intros; try lia.
      * eexists. split; [reflexivity|]. split; [|reflexivity].
        split; sc_cbn; fold L base; auto; revert G; bsplit; intros; try lia.
  - specialize (B2 ltac:(lia)). assert (G2 : got mod L = sc_rx_len_2 x) by (revert G; bsplit; intros; lia).
    rewrite B2, G2, Z.eqb_refl. rewrite u64_small by lia. eexists. split; [reflexivity|]. split; [|reflexivity].
    split; sc_cbn; fold L base; auto; try lia.
Qed.

(** ** Reading *)

Lemma mem_read_map m a n : 0 <= n -> mem_read m a (Z.to_nat n) = map (mem_byte m) (seqZ a n).
Proof.
  intros Hn. apply list_eq. intros i. rewrite list_lookup_fmap. destruct (decide (Z.of_nat i < n)) as [Hi|Hi].
  - rewrite mem_read_lookup by lia. rewrite lookup_seqZ_lt by lia. reflexivity.
  - rewrite lookup_seqZ_ge by lia. apply lookup_ge_None_2. rewrite length_mem_read. lia.
Qed.

(** The bytes in the ring. *)
Definition rx_bytes (m : mem) (c : flextcp_connection) (i n : Z) : list Z :=
  map (fun j => mem_byte m (rx_addr c j)) (seqZ i n).

Lemma rx_bytes_app m c i n k : 0 <= n -> 0 <= k -> rx_bytes m c i (n + k) = rx_bytes m c i n ++ rx_bytes m c (i + n) k.
Proof. intros. unfold rx_bytes. rewrite seqZ_app by lia. apply map_app. Qed.

Lemma rx_bytes_read m c i n : 0 < fc_rxb_len c -> 0 <= n -> i mod fc_rxb_len c + n <= fc_rxb_len c ->
  mem_read m (fc_rxb_base c + i mod fc_rxb_len c) (Z.to_nat n) = rx_bytes m c i n.
Proof.
  intros HL Hn Hw. pose proof (Z.mod_pos_bound i (fc_rxb_len c) HL).
  rewrite mem_read_map by exact Hn. unfold rx_bytes, rx_addr.
  rewrite <- (map_map (fun j => fc_rxb_base c + j mod fc_rxb_len c) (mem_byte m)).
  rewrite ring_addrs by lia. destruct (Z.ltb_spec (fc_rxb_len c) (i mod fc_rxb_len c + n)); [lia | reflexivity].
Qed.

Lemma rx_copy_rep m x c freed got room :
  SockRx x c freed got -> 0 <= room ->
  let k := Z.min room (got - freed) in
  let '(bytes, x') := rx_copy m x room in
  bytes = rx_bytes m c freed k /\ SockRx x' c (freed + k) got /\ conn_core x' = conn_core x.
Proof.
  intros [HL Ho L1 L2 B1 B2] Hr k. set (L := fc_rxb_len c) in *. set (base := fc_rxb_base c) in *.
  pose proof (Z.mod_pos_bound freed L ltac:(lia)) as Bf. unfold rx_copy.
  pose proof (ring_after freed k L ltac:(lia) ltac:(lia)) as G.
  destruct (Z.leb_spec (sc_rx_len_1 x) room) as [Hc|Hc]; sc_cbn; rewrite MIN_spec.
  - (* the first piece is used up *)
    set (n2 := Z.min (sc_rx_len_2 x) (room - sc_rx_len_1 x)).
    assert (Hk : k = sc_rx_len_1 x + n2) by lia. split; [|split; [|reflexivity]].
    + rewrite Hk, rx_bytes_app by lia. f_equal.
      * destruct (decide (freed < got)) as [Hg|Hg].
        -- rewrite (B1 Hg). apply rx_bytes_read; fold L; lia.
        -- replace (sc_rx_len_1 x) with 0 by lia. reflexivity.
      * destruct (decide (0 < n2)) as [Hp|Hp]; [|replace n2 with 0 by lia; reflexivity].
        assert (Q : (freed + sc_rx_len_1 x) mod L = 0).
        { rewrite ring_after by lia. bsplit; lia. }
        rewrite (B2 ltac:(lia)). rewrite <- (rx_bytes_read m c) by (fold L; rewrite ?Q; lia).
        fold L base. rewrite Q, Z.add_0_r. reflexivity.
    + split; sc_cbn; fold L base; auto; try lia; revert G; bsplit; intros; try lia.
  - set (n2 := Z.min (sc_rx_len_1 x) (room - 0)). assert (Hk : k = n2) by lia. split; [|split; [|reflexivity]].
    + cbn [app]. rewrite (B1 ltac:(lia)), Hk. apply rx_bytes_read; fold L; lia.
    + split; sc_cbn; fold L base; auto; try lia; revert G; bsplit; intros; try lia; rewrite B1 by lia; lia.
Qed.

(** The reference for a scattered read: buffers of these lengths are filled one
    after the other, the last ones partly or not at all. *)
Fixpoint scatter (lens : list Z) (bytes : list Z) : list (list Z) :=
  match lens with
  | [] => []
  | l :: lens => take (Z.to_nat l) bytes :: scatter lens (drop (Z.to_nat l) bytes)
  end.
(** The call does not touch buffers it has no bytes for. *)
Definition scattered (lens : list Z) (bytes : list Z) (bufs : list (list Z)) : Prop :=
  exists rest, scatter lens bytes = bufs ++ rest /\ Forall (fun b => b = []) rest.

Lemma scatter_nil lens : Forall (fun b => b = []) (scatter lens []).
Proof. induction lens; cbn; constructor; rewrite ?take_nil, ?drop_nil; auto. Qed.

Lemma scatter_concat lens bytes :
  Forall (fun l => 0 <= l) lens -> Z.of_nat (length bytes) <= foldr Z.add 0 lens -> concat (scatter lens bytes) = bytes.
Proof.
  intros Hl. revert bytes. induction Hl as [|l lens H0 Hl IH]; intros bytes Hb; cbn in *.
  - destruct bytes; [reflexivity | cbn in Hb; lia].
  - pose proof (sum_nonneg _ Hl). rewrite IH by (rewrite length_drop; lia). apply take_drop.
Qed.

Lemma scattered_concat lens bytes bufs :
  scattered lens bytes bufs -> Forall (fun l => 0 <= l) lens -> Z.of_nat (length bytes) <= foldr Z.add 0 lens ->
  concat bufs = bytes.
Proof.
  intros (rest & E & F) Hl Hb. rewrite <- (scatter_concat lens bytes Hl Hb), E, concat_app.
  replace (concat rest) with (@nil Z); [rewrite app_nil_r; reflexivity|]. clear -F. induction F; subst; auto.
Qed.

Lemma length_rx_bytes m c i n : 0 <= n -> Z.of_nat (length (rx_bytes m c i n)) = n.
Proof. intros. unfold rx_bytes. rewrite length_map, length_seqZ. lia. Qed.

Lemma rx_bytes_nil m c i n : rx_bytes m c i n = [] -> 0 <= n -> n = 0.
Proof. intros E Hn. pose proof (length_rx_bytes m c i n Hn) as L. rewrite E in L. cbn in L. lia. Qed.

Lemma rx_copy_iov_rep m c got : forall iov x freed,
  SockRx x c freed got -> Forall (fun l => 0 <= l) iov ->
  let k := Z.min (foldr Z.add 0 iov) (got - freed) in
  let '(bufs, x') := rx_copy_iov m x iov in
  scattered iov (rx_bytes m c freed k) bufs /\ SockRx x' c (freed + k) got /\ conn_core x' = conn_core x.
Proof.
  induction iov as [|l iov IH]; intros x freed R Hl; pose proof (sr_order _ _ _ _ R) as Ho; cbn [rx_copy_iov foldr].
  - replace (Z.min 0 (got - freed)) with 0 by lia. rewrite Z.add_0_r. split; [exists []|]; auto.
  - apply Forall_cons in Hl as [H0 Hl]. cbn beta in H0.
    pose proof (sum_nonneg _ Hl) as Hs.
    assert (Hz : 0 < sc_rx_len_1 x <-> freed < got).
    { destruct R. pose proof (Z.mod_pos_bound freed (fc_rxb_len c) ltac:(lia)). lia. }
    destruct (Z.ltb_spec 0 (sc_rx_len_1 x)) as [H1|H1].
    2:{ replace (Z.min _ (got - freed)) with 0 by lia. rewrite Z.add_0_r. split; [|auto].
        exists (scatter (l :: iov) []). split; [reflexivity | apply scatter_nil]. }
    pose proof (rx_copy_rep m x c freed got l R H0) as C. cbv zeta in C. set (k1 := Z.min l (got - freed)) in C.
    destruct (rx_copy m x l) as [b x1]. destruct C as (-> & R1 & K1).
    specialize (IH x1 (freed + k1) R1 Hl). cbv zeta in IH. set (k2 := Z.min _ _) in IH.
    destruct (rx_copy_iov m x1 iov) as [bs x2]. destruct IH as (S2 & R2 & K2).
    replace (Z.min (l + foldr Z.add 0 iov) (got - freed)) with (k1 + k2) by lia.
    rewrite Z.add_assoc. split; [|split; [exact R2 | congruence]].
    rewrite rx_bytes_app by lia. set (b1 := rx_bytes m c freed k1). set (b2 := rx_bytes m c (freed + k1) k2).
    assert (L1 : Z.of_nat (length b1) = k1) by (apply length_rx_bytes; lia).
    assert (L2 : Z.of_nat (length b2) = k2) by (apply length_rx_bytes; lia).
    assert (T : take (Z.to_nat l) (b1 ++ b2) = b1 /\ drop (Z.to_nat l) (b1 ++ b2) = b2).
    { destruct (decide (l <= got - freed)) as [Hc|Hc].
      - replace (Z.to_nat l) with (length b1) by lia. rewrite take_app_length, drop_app_length. auto.
      - assert (b2 = []) as -> by (apply length_zero_iff_nil; lia). rewrite app_nil_r.
        rewrite take_ge, drop_ge by lia. auto. }
    destruct T as [T1 T2]. destruct S2 as (rest & E & F). exists rest. split; [|exact F].
    cbn [scatter app]. fold b2 in E. rewrite T1, T2, E. reflexivity.
Qed.

(** ** [recv] and [recvmsg] *)

(** [fd] stands for the connected socket [s]. *)
Record sock_at (st : sst) (fd s : Z) : Prop := mk_sock_at
  { sa_fd : 0 <= fd < MAXSOCK; sa_fh : ss_fhs st !!! fd = FH_SOCKET s; sa_conn : connected st s = true }.

Lemma slookup_run st fd s : sock_at st fd s -> flextcp_fd_slookup st fd = Ok (st, Some s).
Proof. intros [F E _]. unfold flextcp_fd_slookup. destruct (Z.ltb_spec fd 0), (Z.leb_spec MAXSOCK fd); try lia. rewrite E. reflexivity. Qed.

Lemma epoll_ok_lib st l : epoll_ok st -> epoll_ok (st <| ss_lib := l |>).
Proof. intros O. apply (frame_ok st); [split; try reflexivity; repeat split | exact O | auto]. Qed.

Lemma epoll_ok_conn st s f : epoll_ok st -> epoll_ok (upd_conn st s f).
Proof.
  intros O. apply (frame_ok st); [apply put_sk_frame; reflexivity | exact O|]. intros e. unfold es_events, upd_conn.
  rewrite ses_sk, sk_put. case_decide as D; [|auto]. es_cbn. rewrite D. auto.
Qed.

(** Freeing in the library: refused when every byte of the ring is unread. *)
Definition freed_view (len : Z) (v : app_view) (k : Z) : app_view :=
  if av_rcvd v - av_freed v =? len then v else v <| av_freed := av_freed v + k |>.

Lemma rx_done_run l ctx c v k :
  AppRep (fconn l c) v -> 0 < k <= av_rcvd v - av_freed v ->
  exists l' r, flextcp_connection_rx_done l ctx c k = Ok (l', r) /\ AppRep (fconn l' c) (freed_view (fc_rxb_len (fconn l c)) v k) /\
    fc_rxb_base (fconn l' c) = fc_rxb_base (fconn l c) /\ fc_rxb_len (fconn l' c) = fc_rxb_len (fconn l c).
Proof.
  intros R Hk. unfold freed_view. pose proof (apr_rx_len _ _ R). pose proof (apr_rx_fits _ _ R). pose proof (apr_rx_order _ _ R).
  destruct (Z.eqb_spec (av_rcvd v - av_freed v) (fc_rxb_len (fconn l c))) as [E|E].
  - pose proof (recvdbytes_full _ _ R E) as F. exists l, (-1). split; [|auto].
    unfold flextcp_connection_rx_done. rewrite F. destruct (Z.ltb_spec 0 k); [reflexivity | lia].
  - pose proof (recvdbytes_rep _ _ R ltac:(lia)) as F.
    destruct (rx_done_accept l ctx c v R k ltac:(lia) ltac:(lia)) as (-> & R1 & _).
    eexists _, _. split; [reflexivity|].
    assert (B : fc_rxb_base (rx_ring_done (fconn l c) k) = fc_rxb_base (fconn l c) /\
                fc_rxb_len (rx_ring_done (fconn l c) k) = fc_rxb_len (fconn l c)).
    { unfold rx_ring_done. destruct (_ <=? _); split; reflexivity. }
    destruct (rx_news _ _).
    + pose proof (conn_mark_bump_view (put_fconn l c (rx_ring_done (fconn l c) k)) ctx c c) as V.
      split; [eapply AppRep_view; [exact V | exact R1]|]. rewrite fconn_put in V. unfold ring_view in V. destruct B.
      split; congruence.
    + rewrite fconn_put in *. tauto.
Qed.

(** What reading [k] bytes leaves. *)
Record received (st st' : sst) (s : Z) (v : app_view) (k : Z) : Prop := mk_received
  { rv_epoll : epoll_ok st';
    rv_app : AppRep (fconn (ss_lib st') s) (freed_view (fc_rxb_len (fconn (ss_lib st) s)) v k);
    rv_rx : SockRx (so_conn (sk st' s)) (fconn (ss_lib st') s) (av_freed v + k) (av_rcvd v);
    rv_in : so_ep_events (sk st' s) =
      if av_freed v + k =? av_rcvd v then Z.ldiff (so_ep_events (sk st s)) EPOLLIN else so_ep_events (sk st s);
    rv_same : so_flags (sk st' s) = so_flags (sk st s) /\ so_type (sk st' s) = so_type (sk st s) /\
      conn_core (so_conn (sk st' s)) = conn_core (so_conn (sk st s)) /\ ss_fhs st' = ss_fhs st }.

Section Recv.
Context `{Platform}.
Context (fuel : nat) (st : sst) (ctx fd s : Z) (v : app_view).
Hypothesis O : epoll_ok st.
Hypothesis A : sock_at st fd s.
Hypothesis R : AppRep (fconn (ss_lib st) s) v.
Hypothesis X : SockRx (so_conn (sk st s)) (fconn (ss_lib st) s) (av_freed v) (av_rcvd v).

Lemma rx_empty_rep : rx_empty st s = (av_rcvd v - av_freed v =? 0).
Proof.
  destruct X as [HL Ho L1 _ _ _]. unfold rx_empty. rewrite L1.
  pose proof (Z.mod_pos_bound (av_freed v) (fc_rxb_len (fconn (ss_lib st) s)) ltac:(lia)). bsplit; lia.
Qed.

(** Nothing to read. *)
Lemma recv_wait_again envs :
  av_rcvd v - av_freed v = 0 -> nonblocking st s = true ->
  recv_wait fuel st ctx s envs = Ok (set_errno (flextcp_epoll_clear st s EPOLLIN) EAGAIN, false).
Proof.
  intros E N. unfold recv_wait. rewrite rx_empty_rep, E. cbn [Z.eqb].
  replace (nonblocking _ s) with (nonblocking st s); [rewrite N; reflexivity|].
  unfold nonblocking, flextcp_epoll_clear. rewrite sk_put, decide_True by reflexivity. reflexivity.
Qed.

Lemma recv_wait_go envs : av_rcvd v - av_freed v <> 0 -> recv_wait fuel st ctx s envs = Ok (st, true).
Proof. intros E. unfold recv_wait. rewrite rx_empty_rep. bsplit; [lia | reflexivity]. Qed.

(** After the copy of [k] bytes. *)
Lemma recv_done_rep x k :
  SockRx x (fconn (ss_lib st) s) (av_freed v + k) (av_rcvd v) -> conn_core x = conn_core (so_conn (sk st s)) ->
  0 < k <= av_rcvd v - av_freed v ->
  exists st', recv_done (upd_conn st s (fun _ => x)) ctx s k = Ok st' /\ received st st' s v k.
Proof.
  intros X1 Kx Hk. unfold recv_done. destruct (Z.ltb_spec 0 k); [|lia].
  set (s1 := upd_conn st s (fun _ => x)). assert (O1 : epoll_ok s1) by (apply epoll_ok_conn, O).
  assert (Sk1 : sk s1 s = sk st s <| so_conn := x |>) by (unfold s1, upd_conn; rewrite sk_put, decide_True; reflexivity).
  assert (Em : rx_empty s1 s = (av_freed v + k =? av_rcvd v)).
  { unfold rx_empty. rewrite Sk1. change (so_conn _) with x. destruct X1 as [HL Ho L1 _ _ _]. rewrite L1.
    pose proof (Z.mod_pos_bound (av_freed v + k) (fc_rxb_len (fconn (ss_lib st) s)) ltac:(lia)). bsplit; lia. }
  set (s2 := if rx_empty s1 s then flextcp_epoll_clear s1 s EPOLLIN else s1).
  assert (S2 : epoll_ok s2 /\ ss_lib s2 = ss_lib st /\ ss_fhs s2 = ss_fhs st /\ sk s2 s = sk st s <| so_conn := x |>
    <| so_ep_events := if av_freed v + k =? av_rcvd v then Z.ldiff (so_ep_events (sk st s)) EPOLLIN else so_ep_events (sk st s) |>).
  { unfold s2. rewrite Em. destruct (_ =? _).
    - destruct (epoll_clear_ok s1 s EPOLLIN O1) as [O2 C]. split; [exact O2|]. split; [exact (vc_lib _ _ _ _ C)|].
      split; [exact (vc_fhs _ _ _ _ C)|]. rewrite (vc_sk _ _ _ _ C), decide_True, Sk1 by reflexivity; reflexivity.
    - split_and!; auto. }
  destruct S2 as (O2 & EL & EF & Sk2). rewrite EL.
  destruct (rx_done_run (ss_lib st) ctx s v k R Hk) as (l & r & -> & R' & EB & EN). cbn [obind].
  eexists. split; [reflexivity|]. split.
  - apply epoll_ok_lib, O2.
  - exact R'.
  - change (sk (s2 <| ss_lib := l |>) s) with (sk s2 s). rewrite Sk2. apply (SockRx_view _ _ _ _ _ EB EN X1).
  - change (sk (s2 <| ss_lib := l |>) s) with (sk s2 s). rewrite Sk2. reflexivity.
  - change (sk (s2 <| ss_lib := l |>) s) with (sk s2 s). rewrite Sk2. auto.
Qed.
End Recv.

(** C10.  Reading from a connected socket, [recv]: with unread data, the call
    returns exactly the next bytes of the peer's stream, as many as there are
    and fit; the socket's two pieces then hold the rest, the library's ring is
    given the bytes back (unless all of it was unread: the library refuses
    then, and the call ignores that), and the socket stays readable for epoll
    exactly while data is left.  Without data a non-blocking call fails with
    [EAGAIN] and the socket is not readable. *)
Theorem recv_in_order `{Platform} fuel st ctx fd s v len envs :
  epoll_ok st -> sock_at st fd s -> AppRep (fconn (ss_lib st) s) v ->
  SockRx (so_conn (sk st s)) (fconn (ss_lib st) s) (av_freed v) (av_rcvd v) -> 0 < len ->
  let n := av_rcvd v - av_freed v in
  let k := Z.min len n in
  if n =? 0 then
    nonblocking st s = true ->
    recv_simple fuel st ctx fd len envs = Ok (set_errno (flextcp_epoll_clear st s EPOLLIN) EAGAIN, -1, [])
  else
    exists st', recv_simple fuel st ctx fd len envs =
      Ok (st', k, rx_bytes (l_mem (ss_lib st)) (fconn (ss_lib st) s) (av_freed v) k) /\ received st st' s v k.
Proof.
  intros O A R X Hl n k. pose proof (sr_order _ _ _ _ X) as Ho.
  unfold recv_simple. rewrite (slookup_run _ _ _ A). cbn [obind]. rewrite (sa_conn _ _ _ A).
  destruct (Z.eqb_spec len 0); [lia|]. cbn [negb]. destruct (Z.eqb_spec n 0) as [E|E].
  - intros N. rewrite (recv_wait_again fuel st ctx s v X envs E N). reflexivity.
  - rewrite (recv_wait_go fuel st ctx s v X envs E). cbn [obind negb].
    pose proof (rx_copy_rep (l_mem (ss_lib st)) _ _ _ _ len X ltac:(lia)) as C. cbv zeta in C. fold n k in C.
    destruct (rx_copy _ _ len) as [bytes x]. destruct C as (-> & X1 & Kx).
    rewrite length_rx_bytes by lia. destruct (recv_done_rep st ctx s v O R x k X1 Kx ltac:(lia)) as (st' & E' & V).
    rewrite E'. cbn [obind]. eauto.
Qed.

(**  [recvmsg] with several buffers is one [recv] of their total length
    whose bytes are then distributed over the buffers in order. *)
Theorem recvmsg_scatters `{Platform} fuel st ctx fd s v iov envs :
  epoll_ok st -> sock_at st fd s -> AppRep (fconn (ss_lib st) s) v ->
  SockRx (so_conn (sk st s)) (fconn (ss_lib st) s) (av_freed v) (av_rcvd v) ->
  Forall (fun l => 0 <= l) iov -> 0 < foldr Z.add 0 iov < 18446744073709551616 -> av_freed v < av_rcvd v ->
  exists st1 st2 k bytes bufs,
    recv_simple fuel st ctx fd (foldr Z.add 0 iov) envs = Ok (st1, k, bytes) /\
    lwip_recvmsg fuel st ctx fd iov envs = Ok (st2, k, bufs) /\
    scattered iov bytes bufs /\ concat bufs = bytes /\ received st st1 s v k /\ received st st2 s v k.
Proof.
  intros O A R X Hl Hs Hn. set (n := av_rcvd v - av_freed v). set (k := Z.min (foldr Z.add 0 iov) n).
  unfold recv_simple, lwip_recvmsg. rewrite (slookup_run _ _ _ A). cbn [obind]. rewrite (sa_conn _ _ _ A).
  assert (EI : iov_len iov = foldr Z.add 0 iov).
  { unfold iov_len. clear -Hl Hs. assert (B : foldr Z.add 0 iov < 18446744073709551616) by lia. clear Hs.
    induction Hl as [|l iov H0 Hl IH]; [reflexivity|]. cbn in *. pose proof (sum_nonneg _ Hl).
    rewrite IH, u64_small by lia. reflexivity. }
  rewrite EI. destruct (Z.eqb_spec (foldr Z.add 0 iov) 0); [lia|]. cbn [negb].
  rewrite (recv_wait_go fuel st ctx s v X envs ltac:(lia)). cbn [obind negb].
  pose proof (rx_copy_rep (l_mem (ss_lib st)) _ _ _ _ (foldr Z.add 0 iov) X ltac:(lia)) as C. cbv zeta in C. fold n k in C.
  destruct (rx_copy _ _ _) as [bytes x]. destruct C as (-> & X1 & Kx).
  pose proof (rx_copy_iov_rep (l_mem (ss_lib st)) _ _ iov _ _ X Hl) as C. cbv zeta in C. fold n k in C.
  destruct (rx_copy_iov _ _ _) as [bufs x2]. destruct C as (Sc & X2 & Kx2).
  set (bytes := rx_bytes _ _ _ k) in *. assert (Lb : Z.of_nat (length bytes) = k) by (apply length_rx_bytes; lia).
  pose proof (scattered_concat _ _ _ Sc Hl ltac:(lia)) as EC. rewrite EC, Lb.
  destruct (recv_done_rep st ctx s v O R x k X1 Kx ltac:(lia)) as (st1 & E1 & V1).
  destruct (recv_done_rep st ctx s v O R x2 k X2 Kx2 ltac:(lia)) as (st2 & E2 & V2).
  rewrite E1, E2. cbn [obind]. exists st1, st2, k, bytes, bufs. split_and!; auto.
Qed.
