(* ===== verification/SockUpdate.v ===== *)
(** Updates of the fast path reach the socket: what an event of
    [flextcp_context_poll] about received or acknowledged bytes does to the
    socket's unread data and to its readiness. *)
From stdpp Require Import base numbers list gmap.
From Stdlib Require Import ZArith Lia.
From S2P Require Import Prelude LinkedList Dma Circ FastPath FastRx Stream KernelState Appif AppConn AppPoll AppRing.
From S2P Require Import SockState SockEpoll SockEpollInv SockEpollSafe SockEpollScan SockCalls SockStream.

(** What the events leave: [got] bytes of the peer's stream have reached the
    socket and [E] is pending. *)
Record delivered (st st' : sst) (s freed got E : Z) : Prop := mk_delivered
  { dl_epoll : epoll_ok st';
    dl_rx : SockRx (so_conn (sk st' s)) (fconn (ss_lib st') s) freed got;
    dl_events : so_ep_events (sk st' s) = E;
    dl_conn : connected st' s = true;
    dl_core : conn_core (so_conn (sk st' s)) = conn_core (so_conn (sk st s));
    dl_lib : ss_lib st' = ss_lib st;
    dl_others : forall y, y <> s -> sk st' y = sk st y }.

Lemma delivered_trans a b c s f g1 g2 E1 E2 :
  delivered a b s f g1 E1 -> delivered b c s f g2 E2 -> delivered a c s f g2 E2.
Proof.
  intros [] []. split; auto; try congruence. intros y N. rewrite dl_others1, dl_others0; auto.
Qed.

Section Events.
Context (st : sst) (s freed got : Z).
Hypothesis O : epoll_ok st.
Hypothesis C : connected st s = true.
Hypothesis X : SockRx (so_conn (sk st s)) (fconn (ss_lib st) s) freed got.

Lemma delivered_refl : delivered st st s freed got (so_ep_events (sk st s)).
Proof. split; auto. Qed.

Lemma is_connected : is_type st s SOCK_CONNECTION = true /\ conn_is st s SOC_CONNECTED = true.
Proof. apply andb_prop, C. Qed.

(** Setting events in a state that differs in the socket's connection only. *)
Lemma conn_set_events s1 x evts got' :
  epoll_ok s1 -> ss_lib s1 = ss_lib st ->
  (forall y, sk s1 y = if decide (y = s) then sk st s <| so_conn := x |> else sk st y) ->
  conn_core x = conn_core (so_conn (sk st s)) -> SockRx x (fconn (ss_lib st) s) freed got' ->
  exists st', flextcp_epoll_set s1 s evts = Ok st' /\
    delivered st st' s freed got' (Z.lor (so_ep_events (sk st s)) evts).
Proof.
  intros O1 L1 Sk1 K X'. destruct is_connected as [C1 C2].
  destruct (epoll_set_ok s1 s evts O1) as (s2 & E & O2 & V & _ & _). exists s2. split; [exact E|].
  assert (Sk2 : sk s2 s = sk st s <| so_conn := x |> <| so_ep_events := Z.lor (so_ep_events (sk st s)) evts |>)
    by (rewrite (vc_sk _ _ _ _ V), decide_True, !Sk1, decide_True by reflexivity; reflexivity).
  assert (EL : ss_lib s2 = ss_lib st) by (rewrite <- L1; exact (vc_lib _ _ _ _ V)). split.
  - exact O2.
  - rewrite Sk2, EL. exact X'.
  - rewrite Sk2. reflexivity.
  - unfold connected, is_type, conn_is in *. rewrite Sk2. es_cbn. rewrite C1. cbn [andb].
    unfold conn_core in K. injection K as -> _ _ _. exact C2.
  - rewrite Sk2. exact K.
  - exact EL.
  - intros y N. rewrite (vc_sk _ _ _ _ V), decide_False, Sk1, decide_False by exact N. reflexivity.
Qed.

(** An event about received bytes. *)
Lemma ev_received_run len :
  let c := fconn (ss_lib st) s in
  0 < len -> got mod fc_rxb_len c + len <= fc_rxb_len c -> got + len <= freed + fc_rxb_len c ->
  exists st', sock_event st (FLEXTCP_EV_CONN_RECEIVED s (fc_rxb_base c + got mod fc_rxb_len c) len) = Ok st' /\
    delivered st st' s freed (got + len) (Z.lor (so_ep_events (sk st s)) EPOLLIN).
Proof.
  intros c Hl Hw Hf. destruct is_connected as [C1 C2]. cbn [sock_event]. unfold ev_conn_received. rewrite C1, C2. cbn [assert_ obind].
  destruct (rx_append_rep _ _ _ _ _ X Hl Hw Hf) as (x & E & X' & K). fold c in E. rewrite E. cbn [obind].
  apply (conn_set_events _ x); auto; [apply epoll_ok_conn, O | intros y; apply sk_put].
Qed.

(** An event about free space. *)
Lemma ev_sendbuf_run :
  exists st', sock_event st (FLEXTCP_EV_CONN_SENDBUF s) = Ok st' /\
    delivered st st' s freed got (Z.lor (so_ep_events (sk st s)) EPOLLOUT).
Proof.
  destruct is_connected as [C1 C2]. cbn [sock_event]. unfold ev_conn_sendbuf. rewrite C1, C2. cbn [assert_ obind].
  apply (conn_set_events st (so_conn (sk st s))); auto. intros y. case_decide; subst; [destruct (sk st s)|]; reflexivity.
Qed.
End Events.

Lemma sock_events_app st st1 evs1 evs2 :
  sock_events st evs1 = Ok st1 -> sock_events st (evs1 ++ evs2) = sock_events st1 evs2.
Proof.
  revert st. induction evs1 as [|e evs1 IH]; intros st E; cbn in *; [congruence|].
  destruct (sock_event st e); cbn in *; try discriminate. auto.
Qed.

Section Update.
Context (st : sst) (s freed : Z) (x : flextcp_connection) (v : app_view).
Hypothesis O : epoll_ok st.
Hypothesis C : connected st s = true.
Hypothesis R : AppRep x v.
Hypothesis EB : fc_rxb_base (fconn (ss_lib st) s) = fc_rxb_base x.
Hypothesis EN : fc_rxb_len (fconn (ss_lib st) s) = fc_rxb_len x.
Hypothesis X : SockRx (so_conn (sk st s)) (fconn (ss_lib st) s) freed (av_rcvd v).

Lemma rx_events_run rx_bump :
  0 <= rx_bump -> av_rcvd v + rx_bump <= freed + fc_rxb_len x ->
  exists st', sock_events st (rx_events s x rx_bump) = Ok st' /\
    delivered st st' s freed (av_rcvd v + rx_bump)
      (Z.lor (so_ep_events (sk st s)) (if 0 <? rx_bump then EPOLLIN else 0)).
Proof.
  intros H0 Hf. unfold rx_events. destruct (Z.ltb_spec 0 rx_bump) as [Hp|Hp].
  2:{ exists st. split; [reflexivity|]. replace (av_rcvd v + rx_bump) with (av_rcvd v) by lia.
      rewrite Z.lor_0_r. apply delivered_refl; auto. }
  destruct R. pose proof (Z.mod_pos_bound (av_rcvd v) (fc_rxb_len x) ltac:(lia)) as B. rewrite apr_rx_head.
  pose proof (sr_order _ _ _ _ X) as Ho. rewrite EN in Ho.
  set (p := av_rcvd v mod fc_rxb_len x) in *.
  destruct (Z.ltb_spec (fc_rxb_len x) (p + rx_bump)) as [Hw|Hw]; cbn [sock_events].
  - destruct (ev_received_run st s freed (av_rcvd v) O C X (fc_rxb_len x - p)) as (s1 & E1 & D1); rewrite ?EN; fold p; try lia.
    rewrite EB, EN in E1. fold p in E1. rewrite E1. cbn [obind].
    assert (Q : (av_rcvd v + (fc_rxb_len x - p)) mod fc_rxb_len x = 0).
    { rewrite ring_after by lia. fold p. bsplit; lia. }
    pose proof (dl_lib _ _ _ _ _ _ D1) as L1.
    destruct (ev_received_run s1 s freed _ (dl_epoll _ _ _ _ _ _ D1) (dl_conn _ _ _ _ _ _ D1) (dl_rx _ _ _ _ _ _ D1)
      (rx_bump - (fc_rxb_len x - p))) as (s2 & E2 & D2); rewrite ?L1, ?EN, ?Q; try lia.
    rewrite L1, EB, EN, Q, Z.add_0_r in E2. rewrite E2. exists s2. split; [reflexivity|].
    rewrite (dl_events _ _ _ _ _ _ D1), <- Z.lor_assoc in D2. change (Z.lor EPOLLIN EPOLLIN) with EPOLLIN in D2.
    replace (av_rcvd v + rx_bump) with (av_rcvd v + (fc_rxb_len x - p) + (rx_bump - (fc_rxb_len x - p))) by lia.
    exact (delivered_trans _ _ _ _ _ _ _ _ _ D1 D2).
  - destruct (ev_received_run st s freed (av_rcvd v) O C X rx_bump) as (s1 & E1 & D1); rewrite ?EN; fold p; try lia.
    rewrite EB, EN in E1. fold p in E1. rewrite E1. cbn [obind]. eauto.
Qed.
End Update.

(** C9.  The whole way of an update of the fast path on a connected socket:
    the library's handler and then the events it returns never fail an
    assertion; the socket's two pieces are extended by exactly the new bytes of
    the peer's stream, wherever the ring wraps around; the socket becomes
    readable when there are any and writable when the transmit buffer was full
    and bytes were acknowledged; no other socket changes.  A thread that then
    scans an epoll instance where the socket is registered for input gets it
    reported. *)
Theorem update_readable st opaque rx_bump tx_bump outn core v freed :
  let s := OPAQUE_PTR opaque in
  let x := fconn (ss_lib st) s in
  epoll_ok st -> connected st s = true -> AppRep x v -> fc_status x = CONN_OPEN ->
  SockRx (so_conn (sk st s)) x freed (av_rcvd v) -> av_told v <= freed ->
  0 <= rx_bump -> av_rcvd v + rx_bump <= av_told v + fc_rxb_len x -> 0 <= tx_bump <= av_sent v - av_acked v ->
  update_events x v rx_bump tx_bump <= outn ->
  exists l evs st', event_arx_connupdate (ss_lib st) opaque rx_bump tx_bump outn core = Ok (l, Some evs) /\
    sock_events (st <| ss_lib := l |>) evs = Ok st' /\
    AppRep (fconn (ss_lib st') s) (v <| av_rcvd := av_rcvd v + rx_bump |> <| av_acked := av_acked v + tx_bump |>) /\
    delivered (st <| ss_lib := l |>) st' s freed (av_rcvd v + rx_bump)
      (Z.lor (Z.lor (so_ep_events (sk st s)) (if 0 <? rx_bump then EPOLLIN else 0))
             (if (0 <? tx_bump) && (tx_free x v =? 0) then EPOLLOUT else 0)) /\
    forall e maxevents, live st' e -> es_s (ses st' e) = s -> Z.land EPOLLIN (es_mask (ses st' e)) <> 0 ->
      Z.of_nat (size (ss_ess st')) < maxevents -> 0 < rx_bump ->
      exists st2 evs, scan st' (es_ep (ses st' e)) maxevents = Ok (st2, evs) /\ report st' e ∈ evs.
Proof.
  intros s x O C R Hs X Ht Hr Hf Hb Ho.
  pose proof (connupdate_run (ss_lib st) opaque rx_bump tx_bump outn core v R Hs Hr Hf Hb) as E. cbv zeta in E.
  fold s in E. fold x in E. destruct (Z.ltb_spec outn (update_events x v rx_bump tx_bump)); [lia|].
  set (x1 := update_ring _ rx_bump tx_bump) in E. set (l := put_fconn _ s x1) in E.
  assert (R1 : AppRep x1 (v <| av_rcvd := av_rcvd v + rx_bump |> <| av_acked := av_acked v + tx_bump |>)).
  { apply update_ring_rep; auto. eapply AppRep_view; [|exact R]. reflexivity. }
  assert (B1 : fc_rxb_base x1 = fc_rxb_base x /\ fc_rxb_len x1 = fc_rxb_len x).
  { unfold x1, update_ring. destruct (0 <? rx_bump), (0 <? tx_bump); split; reflexivity. }
  destruct B1 as [EB EN]. set (st1 := st <| ss_lib := l |>).
  assert (F : fconn (ss_lib st1) s = x1) by apply fconn_put.
  assert (X1 : SockRx (so_conn (sk st1 s)) (fconn (ss_lib st1) s) freed (av_rcvd v))
    by (rewrite F; exact (SockRx_view _ _ _ _ _ EB EN X)).
  assert (EB1 : fc_rxb_base (fconn (ss_lib st1) s) = fc_rxb_base x) by (rewrite F; exact EB).
  assert (EN1 : fc_rxb_len (fconn (ss_lib st1) s) = fc_rxb_len x) by (rewrite F; exact EN).
  destruct (rx_events_run st1 s freed x v (epoll_ok_lib _ _ O) C R EB1 EN1 X1 rx_bump Hr ltac:(lia)) as (s2 & E2 & D2).
  assert (T : exists s3, sock_events s2 (tx_events s x v tx_bump) = Ok s3 /\
    delivered s2 s3 s freed (av_rcvd v + rx_bump)
      (Z.lor (so_ep_events (sk s2 s)) (if (0 <? tx_bump) && (tx_free x v =? 0) then EPOLLOUT else 0))).
  { destruct D2. unfold tx_events. destruct (_ && _).
    - destruct (ev_sendbuf_run s2 s freed _ dl_epoll0 dl_conn0 dl_rx0) as (s3 & E3 & D3). exists s3. split; [|exact D3].
      cbn [sock_events]. rewrite E3. reflexivity.
    - exists s2. split; [reflexivity|]. rewrite Z.lor_0_r. apply delivered_refl; auto. }
  destruct T as (s3 & E3 & D3). exists l, (rx_events s x rx_bump ++ tx_events s x v tx_bump), s3.
  split; [exact E|]. split; [rewrite (sock_events_app _ _ _ _ E2); exact E3|].
  rewrite (dl_events _ _ _ _ _ _ D2) in D3. pose proof (delivered_trans _ _ _ _ _ _ _ _ _ D2 D3) as D.
  split; [rewrite (dl_lib _ _ _ _ _ _ D), F; exact R1|]. split; [exact D|].
  intros e mx Le Es Hm Hx Hp. apply scan_with_room; auto; [apply D|]. unfold ready, es_events. rewrite Es, (dl_events _ _ _ _ _ _ D).
  destruct (Z.ltb_spec 0 rx_bump); [|lia]. rewrite !Z.land_lor_distr_l, !Z.lor_eq_0_iff. tauto.
Qed.
