(* ===== verification/SockSend.v ===== *)
(** What the sending calls of the POSIX layer do to the application's byte
    stream: the caller's bytes are put at the next positions of the transmit
    ring, and at no other address. *)
From stdpp Require Import base numbers list gmap.
From Stdlib Require Import ZArith Lia.
From S2P Require Import Prelude LinkedList Dma Circ FastPath FastRx Stream KernelState Appif AppConn AppPoll AppRing.
From S2P Require Import SockState SockEpoll SockEpollInv SockEpollSafe SockEpollScan SockCalls SockStream.

(** ** Bytes of the transmit ring *)

(** [m'] is [m] with [bs] at the positions [a], [a + 1], ... of the stream. *)
Record tx_written (m m' : mem) (x : flextcp_connection) (a : Z) (bs : list Z) : Prop := mk_tx_written
  { tw_in : forall i b, bs !! i = Some b -> mem_byte m' (tx_addr x (a + Z.of_nat i)) = b;
    tw_out : forall y, (forall i, 0 <= i < Z.of_nat (length bs) -> y <> tx_addr x (a + i)) -> mem_byte m' y = mem_byte m y }.

Lemma tx_written_nil m x a : tx_written m m x a [].
Proof. split; [intros i b H; rewrite lookup_nil in H; discriminate | auto]. Qed.

Lemma tx_addr_inj x a i j : 0 < fc_txb_len x -> 0 <= i < j -> j < fc_txb_len x -> tx_addr x (a + i) <> tx_addr x (a + j).
Proof.
  intros HL Hi Hj E. unfold tx_addr in E.
  rewrite <- (ring_advance a i), <- (ring_advance a j) in E by lia. pose proof (Z.mod_pos_bound a (fc_txb_len x) HL).
  revert E. bsplit; intros; lia.
Qed.

Lemma mem_write_written m x a bs dst :
  (forall i, 0 <= i < Z.of_nat (length bs) -> dst + i = tx_addr x (a + i)) ->
  tx_written m (mem_write m dst bs) x a bs.
Proof.
  intros H. split.
  - intros i b Hi. apply lookup_lt_Some in Hi as L. rewrite <- H by lia. apply mem_write_in, Hi.
  - intros y Hy. apply mem_write_out. destruct (decide (y < dst)) as [|N]; [auto|]. right.
    destruct (decide (y < dst + Z.of_nat (length bs))) as [N2|]; [|lia]. exfalso.
    apply (Hy (y - dst)); [lia|]. rewrite <- H by lia. lia.
Qed.

Lemma tx_written_app m m1 m2 x a b1 b2 :
  0 < fc_txb_len x -> Z.of_nat (length b1) + Z.of_nat (length b2) <= fc_txb_len x ->
  tx_written m m1 x a b1 -> tx_written m1 m2 x (a + Z.of_nat (length b1)) b2 -> tx_written m m2 x a (b1 ++ b2).
Proof.
  intros HL Hf [I1 O1] [I2 O2]. split.
  - intros i b Hi. apply lookup_app_Some in Hi as [Hi|[Hl Hi]].
    + rewrite O2; [apply I1, Hi|]. intros j Hj E. apply lookup_lt_Some in Hi. revert E.
      rewrite <- Z.add_assoc. apply tx_addr_inj; lia.
    + specialize (I2 _ _ Hi). rewrite <- I2. f_equal. f_equal. lia.
  - intros y Hy. rewrite length_app in Hy. rewrite O2, O1; [reflexivity| |].
    + intros i Hi. apply Hy. lia.
    + intros i Hi. rewrite <- Z.add_assoc. apply Hy. lia.
Qed.

(** ** The room that an allocation hands out *)

Record TxRoom (x : flextcp_connection) (a k : Z) (r : tx_room) : Prop := mk_TxRoom
  { rm_len : tr_len r = k; rm_len_1 : 0 <= tr_len_1 r <= k; rm_fits : k <= fc_txb_len x; rm_pos : 0 < fc_txb_len x;
    rm_1 : forall i, 0 <= i < tr_len_1 r -> tr_dst_1 r + i = tx_addr x (a + i);
    rm_2 : forall i, tr_len_1 r <= i < k -> tr_dst_2 r + (i - tr_len_1 r) = tx_addr x (a + i) }.

(** The two copies of [send]. *)
Definition tx_fill (m : mem) (r : tx_room) (buf : list Z) : mem :=
  mem_write (mem_write m (tr_dst_1 r) (take (Z.to_nat (tr_len_1 r)) buf)) (tr_dst_2 r)
    (take (Z.to_nat (tr_len r - tr_len_1 r)) (drop (Z.to_nat (tr_len_1 r)) buf)).

Section Room.
Context (x : flextcp_connection) (a k : Z) (r : tx_room).
Hypothesis T : TxRoom x a k r.

Lemma tx_fill_written m buf : k <= Z.of_nat (length buf) ->
  tx_written m (tx_fill m r buf) x a (take (Z.to_nat k) buf).
Proof.
  intros Hb. destruct T. set (b1 := take (Z.to_nat (tr_len_1 r)) buf).
  set (b2 := take (Z.to_nat (tr_len r - tr_len_1 r)) (drop (Z.to_nat (tr_len_1 r)) buf)).
  assert (L1 : Z.of_nat (length b1) = tr_len_1 r) by (unfold b1; rewrite length_take; lia).
  assert (L2 : Z.of_nat (length b2) = k - tr_len_1 r) by (unfold b2; rewrite length_take, length_drop; lia).
  replace (take (Z.to_nat k) buf) with (b1 ++ b2).
  2:{ unfold b1, b2. rewrite take_take_drop. f_equal. lia. }
  eapply tx_written_app; [lia | lia | |].
  - apply mem_write_written. intros i Hi. apply rm_3. lia.
  - apply mem_write_written. intros i Hi. rewrite L1, <- Z.add_assoc, <- rm_4 by lia. lia.
Qed.

Lemma split_write_written m bs off :
  0 <= off -> off + Z.of_nat (length bs) <= k ->
  exists m', split_write m bs (tr_dst_1 r) (tr_len_1 r) (tr_dst_2 r) (tr_len r - tr_len_1 r) off = Ok m' /\
    tx_written m m' x (a + off) bs.
Proof.
  intros H0 Hb. destruct T. unfold split_write. cbv zeta.
  destruct (Z.leb_spec (Z.of_nat (length bs) + off) (tr_len_1 r + (tr_len r - tr_len_1 r))); [|lia]. cbn [assert_ obind].
  destruct (Z.leb_spec (off + Z.of_nat (length bs)) (tr_len_1 r)) as [A|A].
  { eexists. split; [reflexivity|]. apply mem_write_written. intros i Hi. rewrite <- !Z.add_assoc. apply rm_3. lia. }
  destruct (Z.leb_spec (tr_len_1 r) off) as [B|B].
  { eexists. split; [reflexivity|]. apply mem_write_written. intros i Hi. rewrite <- !Z.add_assoc, <- rm_4 by lia. lia. }
  eexists. split; [reflexivity|]. set (l := Z.to_nat (tr_len_1 r - off)).
  assert (L1 : Z.of_nat (length (take l bs)) = tr_len_1 r - off) by (rewrite length_take; lia).
  assert (L2 : Z.of_nat (length (drop l bs)) = off + Z.of_nat (length bs) - tr_len_1 r) by (rewrite length_drop; lia).
  pose proof (tx_written_app m (mem_write m (tr_dst_1 r + off) (take l bs))
    (mem_write (mem_write m (tr_dst_1 r + off) (take l bs)) (tr_dst_2 r) (drop l bs)) x (a + off) (take l bs) (drop l bs)) as W.
  rewrite take_drop in W. apply W; [lia | lia | |].
  - apply mem_write_written. intros i Hi. rewrite <- !Z.add_assoc. apply rm_3. lia.
  - apply mem_write_written. intros i Hi. rewrite L1, <- !Z.add_assoc, <- rm_4 by lia. lia.
Qed.

(** The loop of [sendmsg]. *)
Lemma tx_copy_iov_written iov : forall m off, 0 <= off <= k ->
  exists m', tx_copy_iov m r iov (k - off) off = Ok m' /\
    tx_written m m' x (a + off) (take (Z.to_nat (k - off)) (concat iov)).
Proof.
  induction iov as [|b iov IH]; intros m off Ho; cbn [tx_copy_iov concat].
  - exists m. split; [reflexivity|]. rewrite take_nil. apply tx_written_nil.
  - destruct (Z.ltb_spec 0 (k - off)) as [Hp|Hp].
    2:{ exists m. split; [reflexivity|]. replace (Z.to_nat (k - off)) with 0%nat by lia. apply tx_written_nil. }
    rewrite MIN_spec. set (l := Z.min (k - off) (Z.of_nat (length b))).
    assert (Ll : Z.of_nat (length (take (Z.to_nat l) b)) = l) by (rewrite length_take; lia).
    destruct (split_write_written m (take (Z.to_nat l) b) off ltac:(lia) ltac:(lia)) as (m1 & -> & W1). cbn [obind].
    replace (k - off - l) with (k - (off + l)) by lia. destruct (IH m1 (off + l) ltac:(lia)) as (m2 & E & W2).
    exists m2. split; [exact E|]. destruct T. pose proof (tx_written_app m m1 m2 x (a + off)) as W.
    replace (take (Z.to_nat (k - off)) (b ++ concat iov)) with
      (take (Z.to_nat l) b ++ take (Z.to_nat (k - (off + l))) (concat iov)).
    + apply (W _ _ ltac:(lia)); [rewrite Ll, length_take; lia | exact W1|]. rewrite Ll, <- Z.add_assoc. exact W2.
    + rewrite take_app. f_equal; [|f_equal; lia]. destruct (decide (k - off <= Z.of_nat (length b))).
      * f_equal. lia.
      * rewrite !take_ge by lia. reflexivity.
Qed.
End Room.

(** ** [send] and [sendmsg] *)

Lemma conn_mark_bump_mem l ctx c : l_mem (conn_mark_bump l ctx c) = l_mem l.
Proof. unfold conn_mark_bump. destruct (negb _); [reflexivity|]. destruct (cx_bump_pending_last _); reflexivity. Qed.

(** What a call leaves that puts [bytes] in the transmit buffer. *)
Record sent (st st' : sst) (s : Z) (v : app_view) (bytes : list Z) : Prop := mk_sent
  { sn_app : AppRep (fconn (ss_lib st') s)
      (v <| av_alloc := av_alloc v + Z.of_nat (length bytes) |> <| av_sent := av_sent v + Z.of_nat (length bytes) |>);
    sn_mem : tx_written (l_mem (ss_lib st)) (l_mem (ss_lib st')) (fconn (ss_lib st) s) (av_alloc v) bytes;
    sn_told : fc_bump_pending (fconn (ss_lib st') s) <> 0;
    sn_socks : ss_socks st' = ss_socks st /\ ss_ess st' = ss_ess st /\ ss_epolls st' = ss_epolls st /\ ss_fhs st' = ss_fhs st }.

Section Send.
Context `{Platform}.
Context (fuel : nat) (st : sst) (ctx s : Z) (v : app_view).
Hypothesis R : AppRep (fconn (ss_lib st) s) v.

Lemma tx_alloc2_run n :
  0 <= n < 18446744073709551616 ->
  let k := Z.min n (tx_free (fconn (ss_lib st) s) v) in
  exists r, tx_alloc2 st s n = (st <| ss_lib := put_fconn (ss_lib st) s (tx_ring_alloc (fconn (ss_lib st) s) k) |>, r) /\
    TxRoom (fconn (ss_lib st) s) (av_alloc v) k r /\
    AppRep (tx_ring_alloc (fconn (ss_lib st) s) k) (v <| av_alloc := av_alloc v + k |>).
Proof.
  intros Hn k. pose proof (tx_alloc2_rep _ v n R Hn) as A. pose proof (alloc_facts _ v R) as (_ & F & _ & HL).
  unfold tx_alloc2. destruct (flextcp_connection_tx_alloc2 _ n) as [[[[x k'] b1] l1] b2].
  destruct A as (-> & -> & Hl & P1 & P2). fold k. eexists. split; [reflexivity|].
  split; [|apply tx_ring_alloc_rep; [exact R | lia]].
  split; cbn [tr_len tr_len_1 tr_dst_1 tr_dst_2]; auto.
  - unfold tx_free in k. pose proof R as []. lia.
  - lia.
  - intros i Hi. destruct (P2 i Hi) as (b & -> & Eb). exact Eb.
Qed.

(** The first try succeeds. *)
Lemma tx_alloc_room_run n envs :
  0 < n < 18446744073709551616 -> 0 < tx_free (fconn (ss_lib st) s) v ->
  let k := Z.min n (tx_free (fconn (ss_lib st) s) v) in
  exists r, tx_alloc_room fuel st ctx s n envs =
      Ok (st <| ss_lib := put_fconn (ss_lib st) s (tx_ring_alloc (fconn (ss_lib st) s) k) |>, Some r, envs) /\
    TxRoom (fconn (ss_lib st) s) (av_alloc v) k r /\
    AppRep (tx_ring_alloc (fconn (ss_lib st) s) k) (v <| av_alloc := av_alloc v + k |>).
Proof.
  intros Hn Hf k. destruct (tx_alloc2_run n ltac:(lia)) as (r & E & T & R1). exists r. split; [|split; [exact T | exact R1]].
  unfold tx_alloc_room. rewrite andb_false_r, E. rewrite (rm_len _ _ _ _ T). fold k.
  destruct (Z.eqb_spec k 0); [lia | reflexivity].
Qed.

(** No room, and the socket is non-blocking. *)
Lemma tx_alloc_room_again n envs :
  0 < n < 18446744073709551616 -> tx_free (fconn (ss_lib st) s) v = 0 -> nonblocking st s = true ->
  exists x, tx_alloc_room fuel st ctx s n envs =
      Ok (set_errno (st <| ss_lib := put_fconn (ss_lib st) s x |>) EAGAIN, None, envs) /\ AppRep x v.
Proof.
  intros Hn Hf N. destruct (tx_alloc2_run n ltac:(lia)) as (r & E & T & R1). rewrite Hf in *.
  replace (Z.min n 0) with 0 in * by lia. eexists. split; [|exact R1 || idtac].
  - unfold tx_alloc_room. rewrite andb_false_r, E, (rm_len _ _ _ _ T). cbn [Z.eqb].
    match goal with |- context [nonblocking ?s2 s] => change (nonblocking s2 s) with (nonblocking st s) end.
    rewrite N. reflexivity.
  - rewrite Z.add_0_r in R1. destruct v. exact R1.
Qed.

(** After the copy to the ring. *)
Lemma tx_send_run x k m envs :
  AppRep x (v <| av_alloc := av_alloc v + k |>) -> 0 <= k ->
  let st1 := set_mem (st <| ss_lib := put_fconn (ss_lib st) s x |>) m in
  exists st', tx_send_loop fuel envs st1 ctx s k = Ok st' /\
    AppRep (fconn (ss_lib st') s) (v <| av_alloc := av_alloc v + k |> <| av_sent := av_sent v + k |>) /\
    l_mem (ss_lib st') = m /\ fc_bump_pending (fconn (ss_lib st') s) <> 0 /\
    ss_socks st' = ss_socks st /\ ss_ess st' = ss_ess st /\ ss_epolls st' = ss_epolls st /\ ss_fhs st' = ss_fhs st.
Proof.
  intros R1 Hk st1. assert (F : fconn (ss_lib st1) s = x) by apply fconn_put.
  destruct (tx_send_accept (ss_lib st1) ctx s (v <| av_alloc := av_alloc v + k |>) k) as (x' & E & R2 & _).
  { rewrite F. exact R1. } { av_cbn. destruct R. lia. }
  destruct envs; cbn [tx_send_loop]; rewrite E; cbn [Z.eqb]; (eexists; split; [reflexivity|]; split_and!; auto).
  all: try (eapply AppRep_view; [apply conn_mark_bump_view|]; rewrite fconn_put; exact R2).
  all: try (etransitivity; [apply conn_mark_bump_mem | reflexivity]).
  all: apply conn_mark_bump_pending.
Qed.
End Send.

(** C11.  Sending on a connected socket, [send]: the call takes as many of the
    caller's bytes as fit in the transmit buffer and returns their number;
    they are put at the next positions of the application's stream, no other
    byte of memory changes, and they are handed over to the fast path in the
    same call.  With a full buffer a non-blocking call fails with [EAGAIN] and
    sends nothing. *)
Theorem send_in_order `{Platform} fuel st ctx fd s v buf envs :
  sock_at st fd s -> AppRep (fconn (ss_lib st) s) v -> 0 < Z.of_nat (length buf) < 18446744073709551616 ->
  let free := tx_free (fconn (ss_lib st) s) v in
  let k := Z.min (Z.of_nat (length buf)) free in
  if free =? 0 then
    nonblocking st s = true ->
    exists x, send_simple fuel st ctx fd buf envs = Ok (set_errno (st <| ss_lib := put_fconn (ss_lib st) s x |>) EAGAIN, -1) /\
      AppRep x v
  else
    exists st', send_simple fuel st ctx fd buf envs = Ok (st', k) /\ sent st st' s v (take (Z.to_nat k) buf).
Proof.
  intros A R Hl free k. pose proof (alloc_facts _ v R) as (_ & F & _ & _). fold free in F.
  unfold send_simple. rewrite (slookup_run _ _ _ A). cbn [obind]. rewrite (sa_conn _ _ _ A).
  destruct (Z.eqb_spec (Z.of_nat (length buf)) 0); [lia|]. cbn [negb]. destruct (Z.eqb_spec free 0) as [E|E].
  - intros N. destruct (tx_alloc_room_again fuel st ctx s v R _ envs Hl E N) as (x & -> & R1). exists x. auto.
  - destruct (tx_alloc_room_run fuel st ctx s v R _ envs Hl ltac:(lia)) as (r & -> & T & R1). fold free k in T, R1 |- *.
    cbn [obind]. pose proof (tx_fill_written _ _ _ _ T (l_mem (ss_lib st)) buf ltac:(lia)) as W.
    rewrite (rm_len _ _ _ _ T).
    destruct (tx_send_run fuel st ctx s v R _ k (tx_fill (l_mem (ss_lib st)) r buf) envs R1 ltac:(lia)) as (st' & E' & R2 & M & B & S).
    unfold tx_fill in E'. rewrite (rm_len _ _ _ _ T) in E'. fold k in E'.
    match goal with |- context [mem_write ?m (tr_dst_1 r) _] => change m with (l_mem (ss_lib st)) end.
    rewrite E'. cbn [obind]. exists st'. split; [reflexivity|].
    assert (L : Z.of_nat (length (take (Z.to_nat k) buf)) = k) by (rewrite length_take; lia).
    split; rewrite ?L, ?M; auto.
Qed.

(**  [sendmsg] with several buffers is one [send] of their concatenation:
    it takes the same number of bytes and puts the same bytes in the ring. *)
Theorem sendmsg_gathers `{Platform} fuel st ctx fd s v iov envs :
  sock_at st fd s -> AppRep (fconn (ss_lib st) s) v -> 0 < Z.of_nat (length (concat iov)) < 18446744073709551616 ->
  0 < tx_free (fconn (ss_lib st) s) v ->
  exists st1 st2 k, send_simple fuel st ctx fd (concat iov) envs = Ok (st1, k) /\
    lwip_sendmsg fuel st ctx fd iov envs = Ok (st2, k) /\
    let bytes := take (Z.to_nat k) (concat iov) in sent st st1 s v bytes /\ sent st st2 s v bytes.
Proof.
  intros A R Hl Hf. set (free := tx_free (fconn (ss_lib st) s) v) in *. set (k := Z.min (Z.of_nat (length (concat iov))) free).
  unfold send_simple, lwip_sendmsg. rewrite (slookup_run _ _ _ A). cbn [obind]. rewrite (sa_conn _ _ _ A).
  assert (EI : iov_len (map (fun b : list Z => Z.of_nat (length b)) iov) = Z.of_nat (length (concat iov))).
  { unfold iov_len. clear -Hl. assert (B : Z.of_nat (length (concat iov)) < 18446744073709551616) by lia. clear Hl.
    induction iov as [|b iov IH]; [reflexivity|]. cbn in *. rewrite length_app in *. rewrite IH, u64_small by lia. lia. }
  rewrite EI. destruct (Z.eqb_spec (Z.of_nat (length (concat iov))) 0); [lia|]. cbn [negb].
  destruct (tx_alloc_room_run fuel st ctx s v R _ envs Hl Hf) as (r & -> & T & R1). fold free k in T, R1 |- *.
  cbn [obind]. pose proof (tx_fill_written _ _ _ _ T (l_mem (ss_lib st)) (concat iov) ltac:(lia)) as W.
  destruct (tx_copy_iov_written _ _ _ _ T iov (l_mem (ss_lib st)) 0 ltac:(lia)) as (m2 & E2 & W2).
  rewrite Z.sub_0_r, Z.add_0_r in *. rewrite (rm_len _ _ _ _ T).
  match goal with |- context [tx_copy_iov ?m r iov k 0] => change m with (l_mem (ss_lib st)) end. rewrite E2. cbn [obind].
  destruct (tx_send_run fuel st ctx s v R _ k (tx_fill (l_mem (ss_lib st)) r (concat iov)) envs R1 ltac:(lia)) as (s1 & E1 & R2 & M & B & S).
  destruct (tx_send_run fuel st ctx s v R _ k m2 envs R1 ltac:(lia)) as (s2 & E3 & R3 & M3 & B3 & S3).
  unfold tx_fill in E1. rewrite (rm_len _ _ _ _ T) in E1. fold free k in E1, E3.
  match goal with |- context [mem_write ?m (tr_dst_1 r) _] => change m with (l_mem (ss_lib st)) end. rewrite E1, E3. cbn [obind].
  exists s1, s2, k. split; [reflexivity|]. split; [reflexivity|]. cbv zeta.
  assert (L : Z.of_nat (length (take (Z.to_nat k) (concat iov))) = k) by (rewrite length_take; lia).
  split; (split; rewrite ?L, ?M, ?M3; auto).
Qed.
