(* ===== verification/SockControl.v ===== *)
(** Opening, accepting and configuring sockets: sockets/control.c.

    As in SockCalls, [ctx] is the thread's context and the last argument of a
    call that waits lists what the others do before each poll. *)
From stdpp Require Import base numbers list gmap.
From Stdlib Require Import ZArith Lia.
From S2P Require Import Prelude Packet Dma FastPath FastRx AppConn AppPoll SockState SockEpoll SockCalls.

Definition all_flags (x f : Z) : bool := Z.land x f =? f.
Definition upd_flags (st : sst) (s : Z) (f : Z -> Z) : sst := put_sk st s (sk st s <| so_flags := f (so_flags (sk st s)) |>).

(** Every call starts with the lookup of its descriptor. *)
Definition with_sock {A} (st : sst) (fd : Z) (bad : sst -> A) (k : sst -> Z -> outcome A) : outcome A :=
  let! (st, r) := flextcp_fd_slookup st fd in
  match r with None => Ok (bad (set_errno st EBADF)) | Some s => k st s end.
Definition failed (st : sst) : sst * Z := (st, -1).
Definition fail (st : sst) (e : Z) : outcome (sst * Z) := Ok (set_errno st e, -1).

(** [s], [fd]: what [calloc] and [eventfd] return. *)
Definition lwip_socket (st : sst) (domain type : Z) (s : option Z) (fd : Z) : sst * Z :=
  let nonblock := all_flags type SOCK_NONBLOCK in
  let type := Z.ldiff type (Z.lor SOCK_NONBLOCK SOCK_CLOEXEC) in
  if negb (domain =? AF_INET) || negb (type =? SOCK_STREAM) then failed (set_errno st EINVAL)
  else
    match flextcp_fd_salloc st s fd with
    | (st, None) => failed st
    | (st, Some (fd, s)) =>
        let st := put_sk st s (sk st s <| so_type := SOCK_SOCKET |> <| so_flags := 0 |>) in
        let st := flextcp_epoll_sockinit st s in
        let st := if nonblock then upd_flags st s (fun f => Z.lor f SOF_NONBLOCK) else st in
        (st, fd)
    end.

(** Closing always ends with an error. *)
Definition lwip_close (st : sst) (fd : Z) : outcome (sst * Z) :=
  with_sock st fd failed (fun st s => fail (flextcp_fd_close st fd) EINVAL).

Definition lwip_shutdown (st : sst) (fd how : Z) : outcome (sst * Z) :=
  with_sock st fd failed (fun st s => fail st EINVAL).

Definition lwip_bind (st : sst) (fd : Z) (addr : sockaddr_in) (addrlen : Z) : outcome (sst * Z) :=
  with_sock st fd failed (fun st s =>
    if negb (addrlen =? SZ_SOCKADDR_IN) || negb (sin_family addr =? AF_INET) then fail st EINVAL
    else Ok (upd_flags (put_sk st s (sk st s <| so_addr := addr |>)) s (fun f => Z.lor f SOF_BOUND), 0)).

(** [ntohl]/[htonl] on a little-endian host. *)
Definition ntohl (x : Z) : Z := bswap32 x.
Definition htonl (x : Z) : Z := bswap32 (u32 x).

Section Control.
Context `{Platform}.
Context (fuel : nat).

Definition lwip_connect (st : sst) (ctx fd : Z) (addr : sockaddr_in) (addrlen : Z) (envs : list (lib -> lib))
    : outcome (sst * Z) :=
  with_sock st fd failed (fun st s =>
    if is_type st s SOCK_LISTENER || (is_type st s SOCK_CONNECTION && conn_is st s SOC_CONNECTED)
    then fail st EISCONN
    else if is_type st s SOCK_CONNECTION && conn_is st s SOC_CONNECTING then fail st EALREADY
    else if negb (addrlen =? SZ_SOCKADDR_IN) || negb (sin_family addr =? AF_INET) then fail st EINVAL
    else
      let! (l, r) := flextcp_connection_open (ss_lib st) ctx s (ntohl (s_addr addr)) (ntohs (sin_port addr)) in
      let st := st <| ss_lib := l |> in
      if negb (r =? 0) then fail st ECONNREFUSED
      else
        let! _ := assert_ (is_type st s SOCK_CONNECTION || is_type st s SOCK_SOCKET) in
        let st := put_sk st s (sk st s <| so_type := SOCK_CONNECTION |>) in
        let st := upd_conn st s (fun x => x <| sc_status := SOC_CONNECTING |> <| sc_listener := None |>
                    <| sc_rx_len_1 := 0 |> <| sc_rx_len_2 := 0 |> <| sc_ctx := ctx |>) in
        if nonblocking st s then fail st EINPROGRESS
        else
          let! (st, _) := poll_do_while fuel (fun st => conn_is st s SOC_CONNECTING) envs st ctx in
          if conn_is st s SOC_FAILED then fail st ECONNREFUSED else Ok (st, 0)).

Definition lst_is (st : sst) (s : Z) (t : listen_status) : bool :=
  bool_decide (sl_status (so_listener (sk st s)) = t).

Definition lwip_listen (st : sst) (ctx fd backlog : Z) (envs : list (lib -> lib)) : outcome (sst * Z) :=
  with_sock st fd failed (fun st s =>
    if negb (is_type st s SOCK_SOCKET) then fail st EOPNOTSUPP
    else if negb (all_flags (so_flags (sk st s)) SOF_BOUND) then fail st EADDRINUSE
    else
      let flags := if all_flags (so_flags (sk st s)) SOF_REUSEPORT then FLEXTCP_LISTEN_REUSEPORT else 0 in
      let backlog := if backlog <? 8 then 8 else backlog in
      let! (l, r) := flextcp_listen_open (ss_lib st) ctx s (ntohs (sin_port (so_addr (sk st s)))) (u32 backlog) flags in
      let st := st <| ss_lib := l |> in
      if negb (r =? 0) then fail st ECONNREFUSED
      else
        let st := put_sk st s (sk st s <| so_type := SOCK_LISTENER |>) in
        let st := upd_lst st s (fun x => x <| sl_backlog := backlog |> <| sl_status := SOL_OPENING |>
                    <| sl_pending := [] |>) in
        let! (st, _) := poll_do_while fuel (fun st => lst_is st s SOL_OPENING) envs st ctx in
        if lst_is st s SOL_FAILED then fail st ENOBUFS else Ok (st, 0)).

(** ** accept4 *)

(** The pending accept of this context, if there is one. *)
Definition pending_find (st : sst) (s ctx : Z) : option socket_pending :=
  head (filter (fun p => sp_ctx p = ctx) (sl_pending (so_listener (sk st s)))).

(** A new pending accept: the request goes to the kernel.  [sp]: what [malloc]
    returns for the list node; [ns], [efd]: as in [socket]. *)
Definition accept_request (st : sst) (ctx s : Z) (nonblock : bool) (sp ns : option Z) (efd : Z)
    : outcome (sst * option socket_pending) :=
  match sp with
  | None => Ok (set_errno st ENOMEM, None)
  | Some _ =>
      match flextcp_fd_salloc st ns efd with
      | (st, None) => Ok (st, None)
      | (st, Some (newfd, ns)) =>
          let st := put_sk st ns (sk st ns <| so_type := SOCK_CONNECTION |>
                                   <| so_flags := if nonblock then SOF_NONBLOCK else 0 |>) in
          let st := upd_conn st ns (fun x => x <| sc_status := SOC_CONNECTING |> <| sc_listener := Some s |>
                      <| sc_rx_len_1 := 0 |> <| sc_rx_len_2 := 0 |> <| sc_ctx := ctx |>) in
          let! (l, r) := flextcp_listen_accept (ss_lib st) ctx s ns in
          let st := st <| ss_lib := l |> in
          if negb (r =? 0) then Ok (flextcp_fd_close (set_errno st ENOBUFS) newfd, None)
          else
            let p := mk_pending ns ctx newfd in
            Ok (upd_lst st s (fun x => x <| sl_pending := sl_pending x ++ [p] |>), Some p)
      end
  end.

(** Taking a node out of the list; it must be there. *)
Fixpoint pending_remove (l : list socket_pending) (p : socket_pending) : outcome (list socket_pending) :=
  match l with
  | [] => Crash
  | q :: l => if bool_decide (q = p) then Ok l else let! l := pending_remove l p in Ok (q :: l)
  end.

Definition peer_addr (st : sst) (s : Z) : sockaddr_in :=
  let c := fconn (ss_lib st) s in
  mk_sockaddr_in AF_INET (htons (fc_remote_port c)) (htonl (fc_remote_ip c)) 0.

(** [getpeername]: the bytes written to the caller's buffer of [addrlen]
    bytes; their number is the new [addrlen]. *)
Definition lwip_getpeername (st : sst) (fd addrlen : Z) : outcome (sst * Z * list Z) :=
  with_sock st fd (fun st => (st, -1, [])) (fun st s =>
    if negb (connected st s) then Ok (set_errno st ENOTCONN, -1, [])
    else Ok (st, 0, take (Z.to_nat (MIN addrlen SZ_SOCKADDR_IN)) (sockaddr_bytes (peer_addr st s)))).

Definition lwip_getsockname (st : sst) (fd addrlen : Z) : outcome (sst * Z * list Z) :=
  with_sock st fd (fun st => (st, -1, [])) (fun st s =>
    let c := fconn (ss_lib st) s in
    let give a := Ok (st, 0, take (Z.to_nat (MIN addrlen SZ_SOCKADDR_IN)) (sockaddr_bytes a)) in
    if all_flags (so_flags (sk st s)) SOF_BOUND then give (so_addr (sk st s))
    else if connected st s
    then give (mk_sockaddr_in AF_INET (htons (fc_local_port c)) (htonl (fc_local_ip c)) 0)
    else Ok (set_errno st ENOTCONN, -1, [])).

(** The end of [accept4]: the connection is there. *)
Definition accept_finish (st : sst) (s : Z) (p : socket_pending) (addr : option Z)
    : outcome (sst * Z * list Z) :=
  let! _ := assert_ (conn_is st (sp_s p) SOC_CONNECTED) in
  let! l := pending_remove (sl_pending (so_listener (sk st s))) p in
  let st := upd_lst st s (fun x => x <| sl_pending := l |>) in
  match addr with
  | None => Ok (st, sp_fd p, [])
  | Some addrlen =>
      let! (st, r, bytes) := lwip_getpeername st (sp_fd p) addrlen in
      let! _ := assert_ (r =? 0) in
      Ok (st, sp_fd p, bytes)
  end.

(** [addr]: [None] if the caller does not ask for the address, else [*addrlen]. *)
Definition lwip_accept4 (st : sst) (ctx fd : Z) (addr : option Z) (flags : Z) (sp ns : option Z) (efd : Z)
    (envs : list (lib -> lib)) : outcome (sst * Z * list Z) :=
  with_sock st fd (fun st => (st, -1, [])) (fun st s =>
    let nonblock := all_flags flags SOCK_NONBLOCK in
    if negb (Z.ldiff flags (Z.lor SOCK_NONBLOCK SOCK_CLOEXEC) =? 0) then Ok (set_errno st EINVAL, -1, [])
    else if negb (is_type st s SOCK_LISTENER) then Ok (set_errno st EOPNOTSUPP, -1, [])
    else
      let! (st, p) := match pending_find st s ctx with
                      | Some p => Ok (st, Some p)
                      | None => accept_request st ctx s nonblock sp ns efd
                      end in
      match p with
      | None => Ok (st, -1, [])
      | Some p =>
          if conn_is st (sp_s p) SOC_CONNECTING then
            let st := flextcp_epoll_clear st s EPOLLIN in
            if nonblocking st s then Ok (set_errno st EAGAIN, -1, [])
            else
              let! (st, _) := poll_do_while fuel (fun st => conn_is st (sp_s p) SOC_CONNECTING) envs st ctx in
              accept_finish st s p addr
          else accept_finish st s p addr
      end).

Definition lwip_accept (st : sst) (ctx fd : Z) (addr : option Z) := lwip_accept4 st ctx fd addr 0.

Definition lwip_move_conn (st : sst) (ctx fd : Z) (envs : list (lib -> lib)) : outcome (sst * Z) :=
  with_sock st fd failed (fun st s =>
    if negb (connected st s) then fail st ENOTCONN
    else if sc_ctx (so_conn (sk st s)) =? ctx then fail st EISCONN
    else
      let st := upd_conn st s (fun x => x <| sc_move_status := INT_MIN |>) in
      let! (l, r) := flextcp_connection_move (ss_lib st) ctx s in
      let st := st <| ss_lib := l |> in
      if negb (r =? 0) then fail st EINVAL
      else
        let! (st, _) := poll_do_while fuel (fun st => sc_move_status (so_conn (sk st s)) =? INT_MIN) envs st ctx in
        let ret := sc_move_status (so_conn (sk st s)) in
        Ok (if ret =? 0 then upd_conn st s (fun x => x <| sc_ctx := ctx |>) else st, ret)).
End Control.

(** ** Flags and options *)

(** [iarg]: the third argument, used by [F_SETFL] only. *)
Definition lwip_fcntl (st : sst) (fd cmd iarg : Z) : outcome (sst * Z) :=
  with_sock st fd failed (fun st s =>
    if cmd =? F_GETFL then Ok (st, if all_flags (so_flags (sk st s)) SOF_NONBLOCK then O_NONBLOCK else 0)
    else if cmd =? F_SETFL then
      if negb (Z.ldiff iarg O_NONBLOCK =? 0) then fail st EINVAL
      else if Z.land iarg O_NONBLOCK =? 0 then Ok (upd_flags st s (fun f => Z.ldiff f SOF_NONBLOCK), 0)
      else Ok (upd_flags st s (fun f => Z.lor f SOF_NONBLOCK), 0)
    else fail st EINVAL).

(** The error a socket reports. *)
Definition so_error (st : sst) (s : Z) : Z :=
  match so_type (sk st s) with
  | SOCK_LISTENER => if lst_is st s SOL_OPEN then 0 else EINPROGRESS
  | SOCK_CONNECTION =>
      match sc_status (so_conn (sk st s)) with
      | SOC_CONNECTED => 0 | SOC_CONNECTING => EINPROGRESS | SOC_FAILED => ECONNREFUSED
      end
  | _ => ENOTSUP
  end.

Definition sock_option (st : sst) (s level optname : Z) : option Z :=
  if (level =? IPPROTO_TCP) && (optname =? TCP_NODELAY) then Some 1
  else if (level =? SOL_SOCKET) && ((optname =? SO_RCVBUF) || (optname =? SO_SNDBUF)) then Some (1024 * 1024)
  else if (level =? SOL_SOCKET) && (optname =? SO_ERROR) then Some (so_error st s)
  else if (level =? SOL_SOCKET) && (optname =? SO_REUSEPORT)
  then Some (if negb (Z.land (so_flags (sk st s)) SOF_REUSEPORT =? 0) then 1 else 0)
  else None.

(** The bytes written to the caller's buffer of [optlen] bytes, and the new
    [optlen]. *)
Definition lwip_getsockopt (st : sst) (fd level optname optlen : Z) : outcome (sst * Z * list Z * Z) :=
  with_sock st fd (fun st => (st, -1, [], optlen)) (fun st s =>
    match sock_option st s level optname with
    | None => Ok (set_errno st ENOPROTOOPT, -1, [], optlen)
    | Some res => Ok (st, 0, take (Z.to_nat (MIN optlen 4)) (le_bytes 4 res), res)
    end).

(** [optval]: the integer the caller's pointer points to. *)
Definition lwip_setsockopt (st : sst) (fd level optname optval optlen : Z) : outcome (sst * Z) :=
  with_sock st fd failed (fun st s =>
    if (level =? IPPROTO_TCP) && (optname =? TCP_NODELAY)
    then if negb (optlen =? 4) then fail st EINVAL else Ok (st, 0)
    else if (level =? SOL_SOCKET) && ((optname =? SO_RCVBUF) || (optname =? SO_SNDBUF))
    then if optlen <? 4 then fail st EINVAL
         else if optval <=? 1024 * 1024 then Ok (st, 0) else fail st ENOMEM
    else if (level =? SOL_SOCKET) && (optname =? SO_REUSEPORT)
    then if negb (optlen =? 4) then fail st EINVAL
         else if negb (optval =? 0) then Ok (upd_flags st s (fun f => Z.lor f SOF_REUSEPORT), 0)
         else Ok (upd_flags st s (fun f => Z.ldiff f SOF_REUSEPORT), 0)
    else if (level =? SOL_SOCKET) && (optname =? SO_REUSEADDR) then Ok (st, 0)
    else fail st ENOPROTOOPT).
