(* ===== verification/SockSettings.v ===== *)
(** Sockets as the calls present them: how long [epoll_wait] waits, the settings
    of a socket, how an accept ends, and descriptors that are used again. *)
From stdpp Require Import base numbers list gmap.
From Stdlib Require Import ZArith Lia.
From S2P Require Import Prelude LinkedList Packet Dma FastPath KernelState Appif AppConn AppPoll SockState SockEpoll SockEpollInv SockEpollSafe SockEpollScan SockCalls SockStream SockUpdate SockControl.

Section Wait.
Context `{Platform}.
Context (fuel : nat) (ctx ep maxevents : Z).

(** Passes of the loop in which nothing is ready. *)
Fixpoint nothing_ready (st : sst) (envs : list wait_env) : Prop :=
  match envs with
  | [] => True
  | e :: envs =>
      match epoll_pass fuel st ctx ep maxevents e with
      | Ok (st', None) | Ok (st', Some []) => nothing_ready st' envs
      | _ => False
      end
  end.

(** The loop over such passes: the first one that does not sleep and whose
    clock is not past [mtimeout] ends the call. *)
Fixpoint first_timely (st : sst) (mtimeout : Z) (envs : list wait_env) : option sst :=
  match envs with
  | [] => None
  | e :: envs =>
      match epoll_pass fuel st ctx ep maxevents e with
      | Ok (st', None) => first_timely st' mtimeout envs
      | Ok (st', Some _) => if mtimeout <? we_msecs e then first_timely st' mtimeout envs else Some st'
      | _ => None
      end
  end.

Lemma wait_loop_idle envs st timeout mtimeout :
  0 < timeout -> nothing_ready st envs ->
  epoll_wait_loop fuel st ctx ep maxevents timeout mtimeout envs =
    match first_timely st mtimeout envs with Some st' => Ok (st', []) | None => Spin end.
Proof.
  intros Ht. revert st. induction envs as [|e envs IH]; intros st N; [reflexivity|]. cbn [epoll_wait_loop first_timely nothing_ready] in *.
  destruct (epoll_pass fuel st ctx ep maxevents e) as [[st' [[|x evs]|]]| |]; try contradiction; cbn [obind]; [|auto].
  rewrite bool_decide_true by reflexivity. destruct (Z.eqb_spec timeout 0), (Z.eqb_spec timeout (-1)); try lia. cbn [andb orb negb].
  destruct (_ <? _); auto.
Qed.

Lemma timely_none envs st mtimeout :
  nothing_ready st envs -> Forall (fun e => mtimeout < we_msecs e) envs -> first_timely st mtimeout envs = None.
Proof.
  revert st. induction envs as [|e envs IH]; intros st N F; [reflexivity|]. cbn [first_timely nothing_ready] in *.
  apply Forall_cons in F as [F1 F]. destruct (epoll_pass fuel st ctx ep maxevents e) as [[st' [[|x evs]|]]| |]; try contradiction; auto.
  destruct (Z.ltb_spec mtimeout (we_msecs e)); [auto | lia].
Qed.
End Wait.

(** The time limit of [epoll_wait] works the wrong way round.  While
    nothing is ready and the limit has not been reached, the call returns 0
    after the first pass; once the limit has passed, it goes on for as many
    passes as nothing is ready, without end. *)
Theorem epoll_wait_deadline_inverted `{Platform} fuel st ctx epfd ep maxevents timeout msecs linux envs :
  0 <= epfd < MAXSOCK -> ss_fhs st !!! epfd = FH_EPOLL ep -> ep_num_linux (sep st ep) <= 0 -> 0 < maxevents ->
  0 < timeout -> 0 <= msecs -> msecs + timeout < 18446744073709551616 -> nothing_ready fuel ctx ep maxevents st envs ->
  let wait := lwip_epoll_wait fuel st ctx epfd maxevents timeout msecs linux envs in
  (Forall (fun e => msecs + timeout < we_msecs e) envs -> wait = Spin) /\
  (forall e envs' st', envs = e :: envs' -> we_msecs e <= msecs + timeout ->
     epoll_pass fuel st ctx ep maxevents e = Ok (st', Some []) -> wait = Ok (st', 0, [])).
Proof.
  intros F E Hl Hm Ht H0 Hb N wait.
  assert (W : wait = match first_timely fuel ctx ep maxevents st (msecs + timeout) envs with Some st' => Ok (st', 0, []) | None => Spin end).
  { unfold wait, lwip_epoll_wait, flextcp_fd_elookup.
    destruct (Z.leb_spec maxevents 0), (Z.ltb_spec epfd 0), (Z.leb_spec MAXSOCK epfd); try lia. rewrite E. cbn [obind].
    destruct (Z.ltb_spec 0 (ep_num_linux (sep st ep))), (Z.ltb_spec 0 timeout); try lia.
    rewrite u64_small, (wait_loop_idle _ _ _ _ _ _ _ _ Ht N) by lia.
    destruct (first_timely _ _ _ _ _ _ _); reflexivity. }
  rewrite W. split.
  - intros Fa. rewrite (timely_none _ _ _ _ _ _ _ N Fa). reflexivity.
  - intros e envs' st' -> He Ep. cbn [first_timely]. rewrite Ep. destruct (Z.ltb_spec (msecs + timeout) (we_msecs e)); [lia | reflexivity].
Qed.

(** ** Settings, accepting, descriptors *)

(** ** Settings *)

Record sock_settings := mk_sock_settings { se_bound : option sockaddr_in; se_nonblock : bool; se_reuseport : bool }.
#[export] Instance eta_sock_settings : Eta sock_settings := fun x =>
  mk_sock_settings (se_bound x) (se_nonblock x) (se_reuseport x).

Definition settings (st : sst) (s : Z) : sock_settings :=
  mk_sock_settings (if all_flags (so_flags (sk st s)) SOF_BOUND then Some (so_addr (sk st s)) else None)
    (all_flags (so_flags (sk st s)) SOF_NONBLOCK) (all_flags (so_flags (sk st s)) SOF_REUSEPORT).

Lemma all_flags_bit x k : 0 <= k -> all_flags x (2 ^ k) = Z.testbit x k.
Proof.
  intros Hk. unfold all_flags. rewrite Z.land_comm. apply eq_true_iff_eq. rewrite Z.eqb_eq. split.
  - intros E. apply (f_equal (fun z => Z.testbit z k)) in E. rewrite Z.land_spec, Z.pow2_bits_true in E by exact Hk. exact E.
  - intros E. apply Z.bits_inj'. intros i Hi. rewrite Z.land_spec, Z.pow2_bits_eqb by exact Hk.
    destruct (Z.eqb_spec k i) as [<-|]; [rewrite E|]; reflexivity.
Qed.

Lemma land_bit x k : 0 <= k -> negb (Z.land x (2 ^ k) =? 0) = Z.testbit x k.
Proof.
  intros Hk. rewrite <- (all_flags_bit x k Hk). unfold all_flags. pose proof (all_flags_bit x k Hk) as A. unfold all_flags in A.
  assert (P : 0 < 2 ^ k) by (apply Z.pow_pos_nonneg; lia).
  destruct (Z.eqb_spec (Z.land x (2 ^ k)) (2 ^ k)) as [E|E], (Z.eqb_spec (Z.land x (2 ^ k)) 0) as [E0|E0]; try reflexivity; [lia|].
  exfalso. apply E0. apply Z.bits_inj'. intros i Hi. rewrite Z.land_spec, Z.pow2_bits_eqb, Z.bits_0 by exact Hk.
  destruct (Z.eqb_spec k i) as [<-|]; [rewrite <- A|]; auto using andb_false_r.
Qed.

Lemma settings_bits st s :
  settings st s = mk_sock_settings (if Z.testbit (so_flags (sk st s)) 1 then Some (so_addr (sk st s)) else None)
    (Z.testbit (so_flags (sk st s)) 0) (Z.testbit (so_flags (sk st s)) 2).
Proof.
  unfold settings. change SOF_BOUND with (2 ^ 1). change SOF_NONBLOCK with (2 ^ 0). change SOF_REUSEPORT with (2 ^ 2).
  rewrite !all_flags_bit by lia. reflexivity.
Qed.

(** A call that changes the settings of one socket and nothing else. *)
Record only_settings (st st' : sst) (s : Z) (f : sock_settings -> sock_settings) : Prop := mk_only_settings
  { os_settings : settings st' s = f (settings st s);
    os_core : so_conn (sk st' s) = so_conn (sk st s) /\ so_type (sk st' s) = so_type (sk st s) /\
      so_ep_events (sk st' s) = so_ep_events (sk st s);
    os_others : forall y, y <> s -> sk st' y = sk st y;
    os_epoll : epoll_ok st -> epoll_ok st' }.

Lemma put_settings st s a g f :
  let st' := put_sk st s (sk st s <| so_addr := a |> <| so_flags := g |>) in
  settings st' s = f (settings st s) -> only_settings st st' s f.
Proof.
  intros st' E. assert (Sk : sk st' s = sk st s <| so_addr := a |> <| so_flags := g |>)
    by (unfold st'; rewrite sk_put, decide_True by reflexivity; reflexivity).
  split; [exact E | rewrite Sk; auto | |].
  - intros y N. unfold st'. rewrite sk_put, decide_False by exact N. reflexivity.
  - intros O. apply (frame_ok st); [apply put_sk_frame; reflexivity | exact O|]. intros e. unfold es_events, st'.
    rewrite ses_sk, sk_put. case_decide as D; [|auto]. es_cbn. rewrite D. auto.
Qed.

(** Descriptor [fd] stands for the socket [s], whatever its kind. *)
Definition fd_at (st : sst) (fd s : Z) : Prop := 0 <= fd < MAXSOCK /\ ss_fhs st !!! fd = FH_SOCKET s.

Lemma with_sock_run {A} st fd s (bad : sst -> A) k : fd_at st fd s -> with_sock st fd bad k = k st s.
Proof.
  intros [F E]. unfold with_sock, flextcp_fd_slookup.
  destruct (Z.ltb_spec fd 0), (Z.leb_spec MAXSOCK fd); try lia. rewrite E. reflexivity.
Qed.

Lemma put_sk_put st s a b : put_sk (put_sk st s a) s b = put_sk st s b.
Proof. unfold put_sk, upd. cbn. rewrite insert_insert_eq. reflexivity. Qed.

Lemma upd_flags_settings st s g f :
  settings (upd_flags st s g) s = f (settings st s) -> only_settings st (upd_flags st s g) s f.
Proof.
  intros E. pose proof (put_settings st s (so_addr (sk st s)) (g (so_flags (sk st s))) f) as P. cbv zeta in P.
  replace (sk st s <| so_addr := so_addr (sk st s) |>) with (sk st s) in P by (destruct (sk st s); reflexivity).
  apply P, E.
Qed.

Ltac flag_bits := unfold upd_flags; rewrite !settings_bits, sk_put, decide_True by reflexivity; es_cbn;
  rewrite ?Z.lor_spec, ?Z.ldiff_spec; cbn [Z.testbit]; rewrite ?orb_false_r, ?orb_true_r, ?andb_true_r, ?andb_false_r;
  reflexivity.

(** [bind], [fcntl] and the port option of [setsockopt] are setters of
    three independent settings of a socket and change nothing else; the
    matching getters return what was set last: [getsockname] the bound
    address (as much of it as the caller's buffer holds), [F_GETFL] the
    blocking mode and [getsockopt] the option. *)
Theorem settings_refine st fd s :
  fd_at st fd s ->
  let x := settings st s in
  (forall a, sin_family a = AF_INET -> exists st', lwip_bind st fd a SZ_SOCKADDR_IN = Ok (st', 0) /\
     only_settings st st' s (fun x => x <| se_bound := Some a |>)) /\
  (forall b : bool, exists st', lwip_fcntl st fd F_SETFL (if b then O_NONBLOCK else 0) = Ok (st', 0) /\
     only_settings st st' s (fun x => x <| se_nonblock := b |>)) /\
  (forall v, exists st', lwip_setsockopt st fd SOL_SOCKET SO_REUSEPORT v 4 = Ok (st', 0) /\
     only_settings st st' s (fun x => x <| se_reuseport := negb (v =? 0) |>)) /\
  (forall a n, se_bound x = Some a ->
     lwip_getsockname st fd n = Ok (st, 0, take (Z.to_nat (MIN n SZ_SOCKADDR_IN)) (sockaddr_bytes a))) /\
  (forall arg, lwip_fcntl st fd F_GETFL arg = Ok (st, if se_nonblock x then O_NONBLOCK else 0)) /\
  (forall n, exists optlen, lwip_getsockopt st fd SOL_SOCKET SO_REUSEPORT n =
     Ok (st, 0, take (Z.to_nat (MIN n 4)) (le_bytes 4 (if se_reuseport x then 1 else 0)), optlen)).
Proof.
  intros F x. split_and!; intros.
  - unfold lwip_bind. rewrite (with_sock_run _ _ _ _ _ F), H. cbn [Z.eqb negb orb SZ_SOCKADDR_IN]. cbn.
    eexists. split; [reflexivity|]. unfold upd_flags. rewrite sk_put, decide_True by reflexivity.
    match goal with |- only_settings _ (put_sk (put_sk _ _ _) _ ?y) _ _ => set (y0 := y) end.
    replace (put_sk (put_sk st s _) s y0) with (put_sk st s y0)
      by (symmetry; apply put_sk_put).
    apply put_settings. rewrite !settings_bits, sk_put, decide_True by reflexivity. es_cbn. rewrite !Z.lor_spec. cbn [Z.testbit].
    rewrite ?orb_false_r, ?orb_true_r. reflexivity.
  - unfold lwip_fcntl. rewrite (with_sock_run _ _ _ _ _ F).
    destruct b; cbn; (eexists; split; [reflexivity|]); apply upd_flags_settings; flag_bits.
  - unfold lwip_setsockopt. rewrite (with_sock_run _ _ _ _ _ F). cbn.
    destruct (v =? 0); cbn; (eexists; split; [reflexivity|]); apply upd_flags_settings; flag_bits.
  - unfold lwip_getsockname. rewrite (with_sock_run _ _ _ _ _ F). unfold x, settings in H. cbn in H.
    destruct (all_flags _ SOF_BOUND); [|discriminate]. injection H as <-. reflexivity.
  - unfold lwip_fcntl. rewrite (with_sock_run _ _ _ _ _ F). reflexivity.
  - unfold lwip_getsockopt. rewrite (with_sock_run _ _ _ _ _ F).
    assert (E : sock_option st s SOL_SOCKET SO_REUSEPORT =
      Some (if negb (Z.land (so_flags (sk st s)) (2 ^ 2) =? 0) then 1 else 0)) by reflexivity.
    rewrite E, land_bit by lia. unfold x. rewrite settings_bits. eauto.
Qed.

(** ** Accepting *)

Lemma pending_remove_split l1 p l2 : p ∉ l1 -> pending_remove (l1 ++ p :: l2) p = Ok (l1 ++ l2).
Proof.
  induction l1 as [|q l1 IH]; cbn; intros N; [rewrite bool_decide_true by reflexivity; reflexivity|].
  apply not_elem_of_cons in N as [N1 N2]. rewrite bool_decide_false, IH by congruence. reflexivity.
Qed.

Lemma head_filter_split ctx (l : list socket_pending) p :
  head (filter (fun q => sp_ctx q = ctx) l) = Some p -> exists l1 l2, l = l1 ++ p :: l2 /\ sp_ctx p = ctx /\ p ∉ l1.
Proof.
  induction l as [|q l IH]; [discriminate|]. rewrite filter_cons. case_decide as D.
  - cbn [head]. intros [= ->]. exists [], l. split_and!; auto. apply not_elem_of_nil.
  - intros H. destruct (IH H) as (l1 & l2 & -> & E & N). exists (q :: l1), l2. split_and!; auto.
    apply not_elem_of_cons. split; [congruence | exact N].
Qed.

Section Accept.
Context (st : sst) (s c : Z) (status : Z).
Hypothesis O : epoll_ok st.
Hypothesis Hl : is_type st s SOCK_LISTENER = true.
Hypothesis Hc : is_type st c SOCK_CONNECTION = true.
Hypothesis Hp : conn_is st c SOC_CONNECTING = true.
Hypothesis Hs : sc_listener (so_conn (sk st c)) = Some s.

Lemma listener_ne : c <> s.
Proof.
  intros ->. apply bool_decide_eq_true in Hl, Hc. congruence.
Qed.

(** The kernel's answer to an accept. *)
Lemma listen_accept_run :
  exists st1, sock_event st (FLEXTCP_EV_LISTEN_ACCEPT status c) = Ok st1 /\ epoll_ok st1 /\
    ss_lib st1 = ss_lib st /\ ss_fhs st1 = ss_fhs st /\ so_listener (sk st1 s) = so_listener (sk st s) /\
    so_type (sk st1 s) = so_type (sk st s) /\ so_type (sk st1 c) = so_type (sk st c) /\
    Z.land (so_ep_events (sk st1 s)) EPOLLIN = EPOLLIN /\
    sc_status (so_conn (sk st1 c)) = if status =? 0 then SOC_CONNECTED else SOC_FAILED.
Proof.
  pose proof listener_ne as N. cbn [sock_event]. unfold ev_listen_accept. rewrite Hc, Hp, Hs. cbn [assert_ obind].
  destruct (epoll_set_ok st s EPOLLIN O) as (s1 & E1 & O1 & V1 & _ & _). rewrite E1. cbn [obind].
  set (x := if status =? 0 then SOC_CONNECTED else SOC_FAILED).
  set (s2 := upd_conn s1 c (fun y => y <| sc_status := x |>)).
  assert (O2 : epoll_ok s2) by (apply epoll_ok_conn, O1).
  destruct (epoll_set_ok s2 c (if status =? 0 then EPOLLOUT else EPOLLERR) O2) as (s3 & E3 & O3 & V3 & _ & _).
  exists s3. split.
  { unfold conn_established. unfold s2, x in E3. destruct (status =? 0); exact E3. }
  split; [exact O3|]. rewrite (vc_lib _ _ _ _ V3), (vc_fhs _ _ _ _ V3), !(vc_sk _ _ _ _ V3).
  rewrite (decide_False (P := s = c)), (decide_True (P := c = c)) by auto. unfold s2, upd_conn.
  rewrite !sk_put, (decide_False (P := s = c)), (decide_True (P := c = c)) by auto.
  rewrite !(vc_sk _ _ _ _ V1), (decide_False (P := c = s)), (decide_True (P := s = s)) by auto.
  split; [exact (vc_lib _ _ _ _ V1)|]. split; [exact (vc_fhs _ _ _ _ V1)|]. es_cbn. split_and!; auto.
  z_bits.
Qed.
End Accept.

(** How an accept ends: when the kernel answers the request for the
    oldest pending accept of this thread, the listener becomes readable, and
    the next call of [accept] takes exactly this entry off the list, keeps the
    order of the others, and returns its descriptor, connected -- if the kernel
    accepted.  If it refused, the call aborts. *)
Theorem accept_outcome `{Platform} fuel st ctx fd s p status sp ns efd envs :
  epoll_ok st -> fd_at st fd s -> is_type st s SOCK_LISTENER = true -> pending_find st s ctx = Some p ->
  is_type st (sp_s p) SOCK_CONNECTION = true -> conn_is st (sp_s p) SOC_CONNECTING = true ->
  sc_listener (so_conn (sk st (sp_s p))) = Some s ->
  exists st1, sock_event st (FLEXTCP_EV_LISTEN_ACCEPT status (sp_s p)) = Ok st1 /\ epoll_ok st1 /\
    Z.land (so_ep_events (sk st1 s)) EPOLLIN = EPOLLIN /\
    if status =? 0 then
      exists st2 l1 l2, lwip_accept fuel st1 ctx fd None sp ns efd envs = Ok (st2, sp_fd p, []) /\
        sl_pending (so_listener (sk st s)) = l1 ++ p :: l2 /\ sl_pending (so_listener (sk st2 s)) = l1 ++ l2 /\
        connected st2 (sp_s p) = true /\ epoll_ok st2
    else lwip_accept fuel st1 ctx fd None sp ns efd envs = Crash.
Proof.
  intros O F Hl Hp Hc Hk Hs. pose proof (listener_ne st s (sp_s p) Hl Hc) as N.
  destruct (listen_accept_run st s (sp_s p) status O Hl Hc Hk Hs) as (st1 & E & O1 & EL & EF & Ln & Tl & Tc & Ev & Sc).
  exists st1. split; [exact E|]. split; [exact O1|]. split; [exact Ev|].
  assert (F1 : fd_at st1 fd s) by (destruct F; split; rewrite ?EF; auto).
  assert (Run : lwip_accept fuel st1 ctx fd None sp ns efd envs = accept_finish st1 s p None).
  { unfold lwip_accept, lwip_accept4. rewrite (with_sock_run _ _ _ _ _ F1). change (negb (Z.ldiff 0 _ =? 0)) with false. cbv iota.
    unfold is_type in Hl |- *. rewrite Tl, Hl. cbn [negb]. unfold pending_find in Hp |- *. rewrite Ln, Hp. cbn [obind].
    unfold conn_is. rewrite Sc. destruct (status =? 0); rewrite bool_decide_false by discriminate; reflexivity. }
  rewrite Run. unfold accept_finish, conn_is. rewrite Sc. destruct (status =? 0).
  2:{ rewrite bool_decide_false by discriminate. reflexivity. }
  rewrite bool_decide_true by reflexivity. cbn [assert_ obind]. rewrite Ln.
  destruct (head_filter_split _ _ _ Hp) as (l1 & l2 & El & _ & Np). rewrite El, (pending_remove_split _ _ _ Np). cbn [obind].
  eexists _, l1, l2. split; [reflexivity|]. split; [reflexivity|]. unfold upd_lst, connected, is_type, conn_is.
  rewrite !sk_put, (decide_True (P := s = s)), (decide_False (P := sp_s p = s)) by auto. es_cbn. split; [reflexivity|]. split.
  - rewrite Tc, Sc. unfold is_type in Hc. rewrite Hc. reflexivity.
  - apply (frame_ok st1); [apply put_sk_frame; reflexivity | exact O1|]. intros e. unfold es_events.
    rewrite ses_sk, sk_put. case_decide as D; [|auto]. es_cbn. rewrite D. auto.
Qed.

(** ** Descriptors used again *)

(** The descriptor of an epoll instance cannot be used for another one:
    closing it leaves its entry in the table (the layer's [close] fails with
    [EBADF], and the caller's falls back to the system's), so that creating
    an instance on the same descriptor aborts -- which the system hands out
    again, as the smallest free one. *)
Theorem epoll_fd_reuse_aborts st fd e e' :
  0 <= fd < MAXSOCK -> ss_fhs st !!! fd = FH_UNUSED ->
  exists st1 st2, lwip_epoll_create1 st fd (Some e) = Ok (st1, fd) /\
    lwip_close st1 fd = Ok (st2, -1) /\ ss_errno st2 = EBADF /\
    lwip_epoll_create1 st2 fd e' = Crash.
Proof.
  intros F E. unfold lwip_epoll_create1 at 1. destruct (Z.eqb_spec fd (-1)); [lia|]. unfold flextcp_fd_ealloc.
  destruct (Z.leb_spec MAXSOCK fd), (Z.ltb_spec fd 0); try lia. rewrite E. cbn [obind]. eexists _, _. split; [reflexivity|].
  unfold lwip_close, with_sock, flextcp_fd_slookup. destruct (Z.ltb_spec fd 0), (Z.leb_spec MAXSOCK fd); try lia.
  match goal with |- context [ss_fhs ?s !!! fd] => assert (L : ss_fhs s !!! fd = FH_EPOLL e) by apply lookup_total_insert_eq end.
  rewrite L. cbn [obind]. split; [reflexivity|]. split; [reflexivity|].
  unfold lwip_epoll_create1. destruct (Z.eqb_spec fd (-1)); [lia|]. unfold flextcp_fd_ealloc.
  destruct (Z.leb_spec MAXSOCK fd), (Z.ltb_spec fd 0); try lia.
  match goal with |- context [ss_fhs ?s !!! fd] => change (ss_fhs s !!! fd) with (ss_fhs (upd_ep (put_sep st e inhabitant <| ss_fhs := <[fd:=FH_EPOLL e]> (ss_fhs st) |>) e (fun x => x)) !!! fd) end.
  cbn. rewrite lookup_total_insert_eq. reflexivity.
Qed.
