(* ===== verification/FkHash.v ===== *)
(** The hash of the key-value store: flexkvs/server/jenkins_hash.c, the
    little-endian version that is compiled.

    The function reads the key in words of 32 or 16 bits or byte by byte,
    depending on how its address is aligned. *)
From stdpp Require Import base numbers list gmap.
From Stdlib Require Import ZArith Lia.
From S2P Require Import Prelude Dma FastRx Queues.

(** ** Definitions *)

Definition rot (x k : Z) : Z := Z.lxor (u32 (Z.shiftl x k)) (Z.shiftr x (32 - k)).

Definition mix (s : Z * Z * Z) : Z * Z * Z :=
  let '(a, b, c) := s in
  let a := u32 (a - c) in let a := Z.lxor a (rot c 4) in let c := u32 (c + b) in
  let b := u32 (b - a) in let b := Z.lxor b (rot a 6) in let a := u32 (a + c) in
  let c := u32 (c - b) in let c := Z.lxor c (rot b 8) in let b := u32 (b + a) in
  let a := u32 (a - c) in let a := Z.lxor a (rot c 16) in let c := u32 (c + b) in
  let b := u32 (b - a) in let b := Z.lxor b (rot a 19) in let a := u32 (a + c) in
  let c := u32 (c - b) in let c := Z.lxor c (rot b 4) in let b := u32 (b + a) in
  (a, b, c).

Definition final (s : Z * Z * Z) : Z * Z * Z :=
  let '(a, b, c) := s in
  let c := Z.lxor c b in let c := u32 (c - rot b 14) in
  let a := Z.lxor a c in let a := u32 (a - rot c 11) in
  let b := Z.lxor b a in let b := u32 (b - rot a 25) in
  let c := Z.lxor c b in let c := u32 (c - rot b 16) in
  let a := Z.lxor a c in let a := u32 (a - rot c 4) in
  let b := Z.lxor b a in let b := u32 (b - rot a 14) in
  let c := Z.lxor c b in let c := u32 (c - rot b 24) in
  (a, b, c).

(** Adding to one of the three words. *)
Definition add_a (x : Z) (s : Z * Z * Z) : Z * Z * Z := let '(a, b, c) := s in (u32 (a + x), b, c).
Definition add_b (x : Z) (s : Z * Z * Z) : Z * Z * Z := let '(a, b, c) := s in (a, u32 (b + x), c).
Definition add_c (x : Z) (s : Z * Z * Z) : Z * Z * Z := let '(a, b, c) := s in (a, b, u32 (c + x)).

Definition k8 (m : mem) (k i : Z) : Z := mem_byte m (k + i).
Definition k16 (m : mem) (k i : Z) : Z := mem_le m (k + 2 * i) 2.
Definition k32 (m : mem) (k i : Z) : Z := mem_le m (k + 4 * i) 4.
Definition shl (x n : Z) : Z := u32 (Z.shiftl x n).
(** [k[i] + (((uint32_t)k[j])<<16)] *)
Definition k16x2 (m : mem) (k i j : Z) : Z := u32 (k16 m k i + shl (k16 m k j) 16).

(** The loops over the blocks in front of the last one: the state, where the
    last block starts and its length; one [block] is twelve bytes. *)
Fixpoint hash_blocks (fuel : nat) (block : Z -> Z * Z * Z -> Z * Z * Z) (s : Z * Z * Z) (k length : Z)
    : outcome (Z * Z * Z * Z * Z) :=
  if 12 <? length then
    match fuel with
    | O => Spin
    | S fuel => hash_blocks fuel block (mix (block k s)) (k + 12) (length - 12)
    end
  else Ok (s, k, length).

Definition block32 (m : mem) (k : Z) (s : Z * Z * Z) : Z * Z * Z :=
  add_c (k32 m k 2) (add_b (k32 m k 1) (add_a (k32 m k 0) s)).
Definition block16 (m : mem) (k : Z) (s : Z * Z * Z) : Z * Z * Z :=
  add_c (k16x2 m k 4 5) (add_b (k16x2 m k 2 3) (add_a (k16x2 m k 0 1) s)).
Definition block8 (m : mem) (k : Z) (s : Z * Z * Z) : Z * Z * Z :=
  let s := add_a (shl (k8 m k 3) 24) (add_a (shl (k8 m k 2) 16) (add_a (shl (k8 m k 1) 8) (add_a (k8 m k 0) s))) in
  let s := add_b (shl (k8 m k 7) 24) (add_b (shl (k8 m k 6) 16) (add_b (shl (k8 m k 5) 8) (add_b (k8 m k 4) s))) in
  add_c (shl (k8 m k 11) 24) (add_c (shl (k8 m k 10) 16) (add_c (shl (k8 m k 9) 8) (add_c (k8 m k 8) s))).

(** The switches over the last block; no case is taken for other lengths. *)
Definition last32 (m : mem) (k : Z) (length : nat) (s : Z * Z * Z) : Z * Z * Z :=
  match length with
  | 12 => add_a (k32 m k 0) (add_b (k32 m k 1) (add_c (k32 m k 2) s))
  | 11 => add_a (k32 m k 0) (add_b (k32 m k 1) (add_c (Z.land (k32 m k 2) 16777215) s))
  | 10 => add_a (k32 m k 0) (add_b (k32 m k 1) (add_c (Z.land (k32 m k 2) 65535) s))
  | 9 => add_a (k32 m k 0) (add_b (k32 m k 1) (add_c (Z.land (k32 m k 2) 255) s))
  | 8 => add_a (k32 m k 0) (add_b (k32 m k 1) s)
  | 7 => add_a (k32 m k 0) (add_b (Z.land (k32 m k 1) 16777215) s)
  | 6 => add_a (k32 m k 0) (add_b (Z.land (k32 m k 1) 65535) s)
  | 5 => add_a (k32 m k 0) (add_b (Z.land (k32 m k 1) 255) s)
  | 4 => add_a (k32 m k 0) s
  | 3 => add_a (Z.land (k32 m k 0) 16777215) s
  | 2 => add_a (Z.land (k32 m k 0) 65535) s
  | 1 => add_a (Z.land (k32 m k 0) 255) s
  | _ => s
  end%nat.

(** Cases that fall through into the next one. *)
Definition last16 (m : mem) (k : Z) (length : nat) (s : Z * Z * Z) : Z * Z * Z :=
  let case4 s := add_a (k16x2 m k 0 1) s in
  let case5 s := case4 (add_b (k8 m k 4) s) in
  let case6 s := add_a (k16x2 m k 0 1) (add_b (k16 m k 2) s) in
  let case7 s := case6 (add_b (shl (k8 m k 6) 16) s) in
  let case8 s := add_a (k16x2 m k 0 1) (add_b (k16x2 m k 2 3) s) in
  let case9 s := case8 (add_c (k8 m k 8) s) in
  let case10 s := add_a (k16x2 m k 0 1) (add_b (k16x2 m k 2 3) (add_c (k16 m k 4) s)) in
  let case11 s := case10 (add_c (shl (k8 m k 10) 16) s) in
  let case2 s := add_a (k16 m k 0) s in
  let case3 s := case2 (add_a (shl (k8 m k 2) 16) s) in
  match length with
  | 12 => add_a (k16x2 m k 0 1) (add_b (k16x2 m k 2 3) (add_c (k16x2 m k 4 5) s))
  | 11 => case11 s | 10 => case10 s | 9 => case9 s | 8 => case8 s | 7 => case7 s | 6 => case6 s
  | 5 => case5 s | 4 => case4 s | 3 => case3 s | 2 => case2 s
  | 1 => add_a (k8 m k 0) s
  | _ => s
  end%nat.

(** Every case falls through. *)
Definition last8 (m : mem) (k : Z) (length : nat) (s : Z * Z * Z) : Z * Z * Z :=
  foldl (fun s f => f s) s
    (drop (12 - length)
      [add_c (shl (k8 m k 11) 24); add_c (shl (k8 m k 10) 16); add_c (shl (k8 m k 9) 8); add_c (k8 m k 8);
       add_b (shl (k8 m k 7) 24); add_b (shl (k8 m k 6) 16); add_b (shl (k8 m k 5) 8); add_b (k8 m k 4);
       add_a (shl (k8 m k 3) 24); add_a (shl (k8 m k 2) 16); add_a (shl (k8 m k 1) 8); add_a (k8 m k 0)]).

(** [fuel] bounds the blocks. *)
Definition hash_with (fuel : nat) (block : Z -> Z * Z * Z -> Z * Z * Z) (last : Z -> nat -> Z * Z * Z -> Z * Z * Z)
    (key length : Z) : outcome Z :=
  let i := u32 (3735928559 + u32 length) in
  let! (s, k, n) := hash_blocks fuel block (i, i, i) key length in
  if n =? 0 then Ok s.2 else Ok (final (last k (Z.to_nat n) s)).2.

Definition jenkins_hash (fuel : nat) (m : mem) (key length : Z) : outcome Z :=
  if Z.land key 3 =? 0 then hash_with fuel (block32 m) (last32 m) key length
  else if Z.land key 1 =? 0 then hash_with fuel (block16 m) (last16 m) key length
  else hash_with fuel (block8 m) (last8 m) key length.

(** ** The hash of a byte string *)

(** Word [i] of the string, with zeros behind its end. *)
Definition word (bs : list Z) (i : nat) : Z := le_value (take 4 (drop (4 * i) bs)).
Definition add_words (bs : list Z) (s : Z * Z * Z) : Z * Z * Z :=
  let '(a, b, c) := s in (u32 (a + word bs 0), u32 (b + word bs 1), u32 (c + word bs 2)).

Fixpoint hash_string (fuel : nat) (bs : list Z) (s : Z * Z * Z) : Z :=
  match fuel with
  | O => 0
  | S fuel =>
      if Nat.ltb 12 (length bs) then hash_string fuel (drop 12 bs) (mix (add_words bs s))
      else match bs with [] => s.2 | _ => (final (add_words bs s)).2 end
  end.
Definition jenkins_ref (bs : list Z) : Z :=
  let i := u32 (3735928559 + u32 (Z.of_nat (length bs))) in hash_string (S (length bs)) bs (i, i, i).

(** The state is three 32-bit words. *)
Definition state_ok (s : Z * Z * Z) : Prop := let '(a, b, c) := s in u32 a = a /\ u32 b = b /\ u32 c = c.

Lemma u32_fix x : u32 x = x <-> 0 <= x < 4294967296.
Proof.
  unfold u32. split; [intros <-; apply Z.mod_pos_bound; lia|apply Z.mod_small].
Qed.
Lemma u32_twice x : u32 (u32 x) = u32 x.
Proof. apply u32_fix, Z.mod_pos_bound. lia. Qed.
Lemma u32_lxor x y : u32 x = x -> u32 y = y -> u32 (Z.lxor x y) = Z.lxor x y.
Proof.
  intros Hx Hy. unfold u32 in *. change 4294967296 with (2 ^ 32) in *. rewrite <- Z.land_ones in * by lia.
  rewrite <- Hx at 2. rewrite <- Hy at 2. apply Z.bits_inj'. intros n Hn.
  rewrite Z.land_spec, !Z.lxor_spec, !Z.land_spec. now destruct (Z.testbit x n), (Z.testbit y n), (Z.testbit (Z.ones 32) n).
Qed.
Lemma u32_rot x k : 0 <= k <= 32 -> u32 x = x -> u32 (rot x k) = rot x k.
Proof.
  intros Hk Hx. apply u32_lxor; [apply u32_twice|]. apply u32_fix in Hx. apply u32_fix.
  rewrite Z.shiftr_div_pow2 by lia. assert (1 <= 2 ^ (32 - k)) by (apply (Z.pow_le_mono_r 2 0); lia).
  split; [apply Z.div_pos; lia|]. apply Z.div_lt_upper_bound; nia.
Qed.
Lemma mix_ok s : state_ok s -> state_ok (mix s).
Proof.
  destruct s as [[a b] c]. unfold mix, state_ok; cbv zeta. intros (Ha & Hb & Hc).
  split_and!; repeat first [assumption | apply u32_twice | apply u32_rot; [lia|] | apply u32_lxor].
Qed.
Lemma add_words_ok bs s : state_ok (add_words bs s).
Proof. destruct s as [[a b] c]. cbn [add_words state_ok]. auto using u32_twice. Qed.

(** ** Reading in words, half words and bytes *)

Section Words.
Context (m : mem) (Hm : bytes_ok m).

Lemma shl_byte x : 0 <= x < 256 -> shl x 8 = 256 * x /\ shl x 16 = 65536 * x /\ shl x 24 = 16777216 * x.
Proof.
  intros H. unfold shl. rewrite !Z.shiftl_mul_pow2 by lia.
  change (2 ^ 8) with 256. change (2 ^ 16) with 65536. change (2 ^ 24) with 16777216. unfold u32. split_and!; rewrite Z.mod_small; lia.
Qed.

Lemma k16_bytes k i : k16 m k i = k8 m k (2 * i) + 256 * k8 m k (2 * i + 1).
Proof. unfold k16, mem_le, k8. cbn. replace (k + 2 * i + 1) with (k + (2 * i + 1)) by lia. lia. Qed.
Lemma k32_bytes k i : k32 m k i = k8 m k (4 * i) + 256 * k8 m k (4 * i + 1) + 65536 * k8 m k (4 * i + 2) + 16777216 * k8 m k (4 * i + 3).
Proof.
  unfold k32, mem_le, k8. cbn [mem_read le_value].
  replace (k + 4 * i + 1 + 1 + 1) with (k + (4 * i + 3)) by lia. replace (k + 4 * i + 1 + 1) with (k + (4 * i + 2)) by lia.
  replace (k + 4 * i + 1) with (k + (4 * i + 1)) by lia. lia.
Qed.

(** The words of the bytes at [k]. *)
Lemma word_read k n i : (4 * i + 4 <= n)%nat -> word (mem_read m k n) i = k32 m k (Z.of_nat i).
Proof.
  intros L. unfold word, k32, mem_le. f_equal. replace n with (4 * i + (4 + (n - 4 * i - 4)))%nat by lia.
  rewrite mem_read_app, drop_app_length' by (now rewrite length_mem_read).
  rewrite mem_read_app, take_app_length' by (now rewrite length_mem_read). f_equal. lia.
Qed.
Lemma word_part k n i r : n = (4 * i + r)%nat -> (r < 4)%nat -> word (mem_read m k n) i = mem_le m (k + 4 * Z.of_nat i) r.
Proof.
  intros -> L. unfold word, mem_le. f_equal. rewrite mem_read_app, drop_app_length' by (now rewrite length_mem_read).
  rewrite firstn_all2 by (rewrite length_mem_read; lia). f_equal. lia.
Qed.
Lemma word_beyond k n i : (n <= 4 * i)%nat -> word (mem_read m k n) i = 0.
Proof. intros L. unfold word. rewrite drop_ge by (rewrite length_mem_read; lia). reflexivity. Qed.

Lemma k32_masks k i : let b j := k8 m k (4 * i + j) in
  Z.land (k32 m k i) 255 = b 0 /\ Z.land (k32 m k i) 65535 = b 0 + 256 * b 1 /\
  Z.land (k32 m k i) 16777215 = b 0 + 256 * b 1 + 65536 * b 2.
Proof.
  cbv zeta. rewrite k32_bytes, Z.add_0_r.
  change 255 with (Z.ones 8). change 65535 with (Z.ones 16). change 16777215 with (Z.ones 24).
  rewrite !Z.land_ones by lia. change (2 ^ 8) with 256. change (2 ^ 16) with 65536. change (2 ^ 24) with 16777216.
  pose proof (Hm (k + 4 * i)). pose proof (Hm (k + (4 * i + 1))). pose proof (Hm (k + (4 * i + 2))). pose proof (Hm (k + (4 * i + 3))).
  unfold k8. generalize dependent (mem_byte m (k + 4 * i)). intros b0 ?. generalize dependent (mem_byte m (k + (4 * i + 1))). intros b1 ?.
  generalize dependent (mem_byte m (k + (4 * i + 2))). intros b2 ?. generalize dependent (mem_byte m (k + (4 * i + 3))). intros b3 ?.
  split_and!; symmetry.
  - apply (Z.mod_unique_pos _ _ (b1 + 256 * b2 + 65536 * b3)); lia.
  - apply (Z.mod_unique_pos _ _ (b2 + 256 * b3)); lia.
  - apply (Z.mod_unique_pos _ _ b3); lia.
Qed.

Lemma k16x2_bytes k i j : k16x2 m k i j = k16 m k i + 65536 * k16 m k j.
Proof.
  unfold k16x2, shl. rewrite Z.shiftl_mul_pow2 by lia. change (2 ^ 16) with 65536. rewrite !k16_bytes. unfold u32, k8.
  pose proof (Hm (k + 2 * i)). pose proof (Hm (k + (2 * i + 1))). pose proof (Hm (k + 2 * j)). pose proof (Hm (k + (2 * j + 1))).
  rewrite (Z.mod_small (_ * 65536)) by lia. rewrite Z.mod_small by lia. lia.
Qed.

Lemma shl8 k i : shl (k8 m k i) 8 = 256 * k8 m k i.
Proof. exact (proj1 (shl_byte _ (Hm _))). Qed.
Lemma shl16 k i : shl (k8 m k i) 16 = 65536 * k8 m k i.
Proof. exact (proj1 (proj2 (shl_byte _ (Hm _)))). Qed.
Lemma shl24 k i : shl (k8 m k i) 24 = 16777216 * k8 m k i.
Proof. exact (proj2 (proj2 (shl_byte _ (Hm _)))). Qed.

Lemma u32_add_l2 x y z : u32 (u32 x + y + z) = u32 (x + y + z).
Proof. now rewrite <- !Z.add_assoc, u32_add_l. Qed.

(** The words of a block as bytes. *)
Definition word_at (k n : Z) (i : Z) : Z :=
  let b j := if 4 * i + j <? n then k8 m k (4 * i + j) else 0 in b 0 + 256 * b 1 + 65536 * b 2 + 16777216 * b 3.

Lemma word_at_read k n i : word (mem_read m k n) i = word_at k (Z.of_nat n) (Z.of_nat i).
Proof.
  unfold word_at. destruct (Nat.leb_spec (4 * i + 4) n).
  - rewrite word_read by lia. rewrite k32_bytes. repeat (rewrite (proj2 (Z.ltb_lt _ _)) by lia). rewrite Z.add_0_r. reflexivity.
  - destruct (Nat.leb_spec n (4 * i)).
    + rewrite word_beyond by lia. repeat (rewrite (proj2 (Z.ltb_ge _ _)) by lia). lia.
    + assert (R : exists r, (r < 4)%nat /\ n = (4 * i + r)%nat) by (exists (n - 4 * i)%nat; lia). destruct R as (r & Lr & ->).
      rewrite (word_part k _ i r eq_refl Lr). unfold mem_le, k8.
      set (p := k + 4 * Z.of_nat i).
      replace (k + (4 * Z.of_nat i + 0)) with p by (unfold p; lia). replace (k + (4 * Z.of_nat i + 1)) with (p + 1) by (unfold p; lia).
      replace (k + (4 * Z.of_nat i + 2)) with (p + 2) by (unfold p; lia). replace (k + (4 * Z.of_nat i + 3)) with (p + 3) by (unfold p; lia).
      assert (T : forall j, 0 <= j -> (4 * Z.of_nat i + j <? Z.of_nat (4 * i + r)) = (j <? Z.of_nat r)).
      { intros j Hj. apply Bool.eq_true_iff_eq. rewrite !Z.ltb_lt. lia. }
      rewrite !T by lia. clearbody p. destruct r as [|[|[|[|r]]]]; [lia| | | |lia]; cbn [mem_read le_value];
        repeat match goal with |- context [?a <? ?b] => let v := eval vm_compute in (a <? b) in change (a <? b) with v end; cbv iota.
      * lia.
      * lia.
      * replace (p + 1 + 1) with (p + 2) by lia. lia.
Qed.

Lemma add_words_bytes k n a b c : add_words (mem_read m k n) (a, b, c) =
  (u32 (a + word_at k (Z.of_nat n) 0), u32 (b + word_at k (Z.of_nat n) 1), u32 (c + word_at k (Z.of_nat n) 2)).
Proof. unfold add_words. now rewrite !word_at_read. Qed.

Lemma word_at_full k n i : 4 * i + 4 <= n ->
  word_at k n i = k8 m k (4 * i) + 256 * k8 m k (4 * i + 1) + 65536 * k8 m k (4 * i + 2) + 16777216 * k8 m k (4 * i + 3).
Proof. intros L. unfold word_at. repeat (rewrite (proj2 (Z.ltb_lt _ _)) by lia). rewrite Z.add_0_r. reflexivity. Qed.

(** Compute closed positions and comparisons. *)
Ltac closed :=
  repeat match goal with
  | |- context [?x <? ?y] => let v := eval vm_compute in (x <? y) in change (x <? y) with v; cbv iota
  | |- context [k8 m ?k ?e] => lazymatch e with Z.add _ _ => idtac | Z.mul _ _ => idtac end;
      let v := eval vm_compute in e in change (k8 m k e) with (k8 m k v)
  end.
Ltac to_bytes :=
  rewrite ?k16x2_bytes, ?k16_bytes, ?shl8, ?shl16, ?shl24;
  repeat match goal with
  | |- context [Z.land (k32 m ?k ?i) 255] => rewrite (proj1 (k32_masks k i))
  | |- context [Z.land (k32 m ?k ?i) 65535] => rewrite (proj1 (proj2 (k32_masks k i)))
  | |- context [Z.land (k32 m ?k ?i) 16777215] => rewrite (proj2 (proj2 (k32_masks k i)))
  end;
  rewrite ?k32_bytes; closed; rewrite ?u32_add_l; rewrite ?u32_add_l2.

Ltac words := repeat match goal with |- (_, _) = (_, _) => f_equal end; try reflexivity; try (apply (f_equal u32); lia);
  try (rewrite Z.add_0_r; symmetry; assumption).

Lemma blocks_agree k n s : (12 <= n)%nat ->
  block32 m k s = add_words (mem_read m k n) s /\ block16 m k s = add_words (mem_read m k n) s /\
  block8 m k s = add_words (mem_read m k n) s.
Proof.
  intros L. destruct s as [[a b] c]. rewrite add_words_bytes, !word_at_full by lia.
  unfold block32, block16, block8, add_a, add_b, add_c. split_and!; to_bytes; words.
Qed.

Lemma lasts_agree k n s : state_ok s -> (1 <= n <= 12)%nat ->
  last32 m k n s = add_words (mem_read m k n) s /\ last16 m k n s = add_words (mem_read m k n) s /\
  last8 m k n s = add_words (mem_read m k n) s.
Proof.
  intros Hs L. destruct s as [[a b] c]. destruct Hs as (Ha & Hb & Hc). rewrite add_words_bytes.
  destruct n as [|[|[|[|[|[|[|[|[|[|[|[|[|n]]]]]]]]]]]]]; [lia| | | | | | | | | | | | |lia];
    unfold last32, last16, last8; cbv zeta; cbn [drop foldl Nat.sub];
    unfold word_at, add_a, add_b, add_c; split_and!; to_bytes; words.
Qed.

(** ** All three ways *)

Section Way.
Context (block : Z -> Z * Z * Z -> Z * Z * Z) (last : Z -> nat -> Z * Z * Z -> Z * Z * Z).
Context (Hblock : forall k n s, (12 <= n)%nat -> block k s = add_words (mem_read m k n) s)
        (Hlast : forall k n s, state_ok s -> (1 <= n <= 12)%nat -> last k n s = add_words (mem_read m k n) s).

Lemma hash_blocks_string fuel : forall k n s, state_ok s -> (n <= 12 * fuel + 12)%nat ->
  exists s' k' n', hash_blocks fuel block s k (Z.of_nat n) = Ok (s', k', Z.of_nat n') /\ state_ok s' /\ (n' <= 12)%nat /\
    forall f, (n < f)%nat -> hash_string f (mem_read m k n) s =
      match n' with O => s'.2 | _ => (final (add_words (mem_read m k' n') s')).2 end.
Proof.
  induction fuel as [|fuel IH]; intros k n s Hs L; cbn [hash_blocks].
  all: destruct (Z.ltb_spec 12 (Z.of_nat n)) as [G|G]; [try lia|].
  2: { destruct (IH (k + 12) (n - 12)%nat (mix (block k s))) as (s' & k' & n' & E & Hs' & Hn & S); [|lia|].
       { rewrite (Hblock k 12) by lia. apply mix_ok, add_words_ok. }
       exists s', k', n'. replace (Z.of_nat n - 12) with (Z.of_nat (n - 12)) by lia. split_and!; auto.
       intros f Hf. destruct f as [|f]; [lia|]. cbn [hash_string]. rewrite length_mem_read.
       destruct (Nat.ltb_spec 12 n); [|lia]. rewrite <- (S f) by lia. rewrite (Hblock k n) by lia. f_equal.
       replace n with (12 + (n - 12))%nat at 1 by lia. rewrite mem_read_app. now rewrite drop_app_length' by (now rewrite length_mem_read). }
  all: exists s, k, n; split_and!; auto; try lia; intros f Hf; destruct f as [|f]; [lia|]; cbn [hash_string]; rewrite length_mem_read;
    destruct (Nat.ltb_spec 12 n); [lia|]; destruct n; reflexivity.
Qed.

Lemma hash_with_string fuel k n : (n <= 12 * fuel + 12)%nat ->
  hash_with fuel block last k (Z.of_nat n) = Ok (jenkins_ref (mem_read m k n)).
Proof.
  intros L. unfold hash_with. cbv zeta. set (i := u32 (_ + _)).
  destruct (hash_blocks_string fuel k n (i, i, i)) as (s' & k' & n' & E & Hs & Hn & S); [unfold state_ok, i; auto using u32_twice|exact L|].
  rewrite E. cbn [obind]. unfold jenkins_ref. rewrite length_mem_read. cbv zeta. fold i. rewrite (S (Datatypes.S n)) by lia.
  destruct n' as [|n']; [reflexivity|]. destruct (Z.eqb_spec (Z.of_nat (Datatypes.S n')) 0); [lia|].
  rewrite Nat2Z.id, Hlast by (auto; lia). reflexivity.
Qed.
End Way.
End Words.

Lemma jenkins_hash_bytes fuel m key n : bytes_ok m -> (n <= 12 * fuel + 12)%nat ->
  jenkins_hash fuel m key (Z.of_nat n) = Ok (jenkins_ref (mem_read m key n)).
Proof.
  intros Hm L. unfold jenkins_hash. destruct (_ =? 0); [|destruct (_ =? 0)]; apply hash_with_string; auto;
    intros; (apply (blocks_agree m Hm) || apply (lasts_agree m Hm)); auto.
Qed.

(** C22. The hash depends on the bytes of the key only: however the key is
    aligned, and whatever lies around it, reading it in words, half words or
    bytes gives the hash of the string of its bytes. *)
Theorem jenkins_hash_string fuel m key n : bytes_ok m -> (n <= 12 * fuel + 12)%nat ->
  jenkins_hash fuel m key (Z.of_nat n) = Ok (jenkins_ref (mem_read m key n)).
Proof. apply jenkins_hash_bytes. Qed.
