(* ===== verification/FkAlloc.v ===== *)
(** Items of the key-value store and their log-structured allocator:
    flexkvs/server/iokvs.h, flexkvs/server/ialloc.c.

    Pointers to items and to segment headers are addresses; the structs are in
    finite maps.  The bytes behind an item struct are in the item's record.
    What [mprotect] and [malloc] give for a new segment is an argument: the
    address of the header, [None] if one of them fails.  The comparisons of the
    fill ratios (double) are parameters. *)
From stdpp Require Import base numbers list gmap.
From Stdlib Require Import ZArith Lia.
From S2P Require Import Prelude.

(** ** State *)

Record item := mk_item
  { it_next : option Z; it_hv : Z; it_vallen : Z; it_refcount : Z; it_keylen : Z; it_data : list Z }.
#[export] Instance eta_item : Eta item := fun i =>
  mk_item (it_next i) (it_hv i) (it_vallen i) (it_refcount i) (it_keylen i) (it_data i).
#[export] Instance item_inhabited : Inhabited item := populate (mk_item None 0 0 0 0 []).

Record segment_header := mk_segment_header
  { sh_data : Z; sh_next : option Z; sh_offset : Z; sh_freed : Z; sh_size : Z; sh_flags : Z }.
#[export] Instance eta_segment_header : Eta segment_header := fun h =>
  mk_segment_header (sh_data h) (sh_next h) (sh_offset h) (sh_freed h) (sh_size h) (sh_flags h).
#[export] Instance segment_header_inhabited : Inhabited segment_header := populate (mk_segment_header 0 None 0 0 0 0).

(** [ia_cleanup_queue]: the entries that are not NULL. *)
Record item_allocator := mk_item_allocator
  { ia_reserved : option Z; ia_cleanup_queue : gmap Z Z; ia_cur : Z; ia_cq_head : Z; ia_cleanup_count : Z;
    ia_oldest : option Z; ia_cq_tail : Z; ia_cleaning : option Z; ia_clean_offset : Z }.
#[export] Instance eta_item_allocator : Eta item_allocator := fun a =>
  mk_item_allocator (ia_reserved a) (ia_cleanup_queue a) (ia_cur a) (ia_cq_head a) (ia_cleanup_count a)
    (ia_oldest a) (ia_cq_tail a) (ia_cleaning a) (ia_clean_offset a).
#[export] Instance item_allocator_inhabited : Inhabited item_allocator := populate (mk_item_allocator None ∅ 0 0 0 None 0 None 0).

(** Bucket [i] of the hash table: five items with their hashes. *)
Record hash_bucket := mk_hash_bucket { hb_items : list (option Z); hb_hashes : list Z }.
#[export] Instance hash_bucket_inhabited : Inhabited hash_bucket := populate (mk_hash_bucket (repeat None 5) (repeat 0 5)).

Record kv := mk_kv
  { kv_items : gmap Z item; kv_segs : gmap Z segment_header; kv_free_segments : option Z;
    kv_seg_headers : gmap Z Z; kv_seg_alloced : Z; kv_ias : gmap Z item_allocator; kv_buckets : gmap Z hash_bucket }.
#[export] Instance eta_kv : Eta kv := fun s => mk_kv (kv_items s) (kv_segs s) (kv_free_segments s)
  (kv_seg_headers s) (kv_seg_alloced s) (kv_ias s) (kv_buckets s).

Definition kitem (s : kv) (i : Z) : item := kv_items s !!! i.
Definition put_item (s : kv) (i : Z) (x : item) : kv := s <| kv_items := <[i := x]> (kv_items s) |>.
Definition kseg (s : kv) (h : Z) : segment_header := kv_segs s !!! h.
Definition put_seg (s : kv) (h : Z) (x : segment_header) : kv := s <| kv_segs := <[h := x]> (kv_segs s) |>.
Definition kia (s : kv) (a : Z) : item_allocator := kv_ias s !!! a.
Definition put_ia (s : kv) (a : Z) (x : item_allocator) : kv := s <| kv_ias := <[a := x]> (kv_ias s) |>.

Definition SZ_ITEM : Z := 24.
Definition item_key (x : item) : list Z := take (Z.to_nat (it_keylen x)) (it_data x).
Definition item_value (x : item) : list Z := take (Z.to_nat (it_vallen x)) (drop (Z.to_nat (it_keylen x)) (it_data x)).
Definition item_totalsz (x : item) : Z := SZ_ITEM + it_vallen x + it_keylen x.

Definition SF_INACTIVE : Z := 1.
Definition SF_CLEANED : Z := 4.

(** [settings] and the start of the segments. *)
Class KvEnv := mk_kvenv
  { segsize : Z; segmaxnum : Z; segcqsize : Z; seg_base : Z;
    clean_ratio_reached : Z -> Z -> bool;               (* (double) freed / size >= clean_ratio *)
    ratio_above : Z -> Z -> option (Z * Z) -> bool }.   (* ... > ratio of another one; None: 0 *)

Section Alloc.
Context `{KvEnv}.

(** ** Segments *)

Definition segment_alloc (s : kv) (p : option Z) : kv * option Z :=
  let init s h := (put_seg s h (kseg s h <| sh_offset := 0 |> <| sh_flags := 0 |> <| sh_freed := 0 |>), Some h) in
  match kv_free_segments s with
  | Some h => init (s <| kv_free_segments := sh_next (kseg s h) |>) h
  | None =>
      let i := kv_seg_alloced s in
      if segmaxnum <=? i then (s, None)
      else
        let s := s <| kv_seg_alloced := i + 1 |> in
        match p with
        | None => (s, None)
        | Some h =>
            let s := s <| kv_seg_headers := <[i := h]> (kv_seg_headers s) |> in
            init (put_seg s h (mk_segment_header (u64 (seg_base + segsize * i)) None 0 0 (u32 segsize) 0)) h
        end
  end.

Definition segment_from_part (s : kv) (data : Z) : outcome (option Z) :=
  let i := u64 (data - seg_base) / segsize in
  let! _ := assert_ (i <? segmaxnum) in
  Ok (kv_seg_headers s !! i).

Definition segment_free (s : kv) (h : Z) : kv :=
  put_seg s h (kseg s h <| sh_offset := 0 |> <| sh_next := kv_free_segments s |>) <| kv_free_segments := Some h |>.

Definition segment_item_free (s : kv) (h total : Z) : kv :=
  put_seg s h (kseg s h <| sh_freed := u32 (sh_freed (kseg s h) + total) |>).

Definition segment_item_alloc (s : kv) (h total : Z) : kv * option Z :=
  let x := kseg s h in
  let it := u64 (sh_data x + sh_offset x) in
  let avail := u32 (sh_size x - sh_offset x) in
  if avail =? 0 then (s, None)
  else if avail <? total then
    let s := if SZ_ITEM <=? avail
             then put_item s it (kitem s it <| it_refcount := 0 |> <| it_keylen := u16 (avail - SZ_ITEM) |> <| it_vallen := 0 |>)
             else s in
    let s := segment_item_free s h avail in
    (put_seg s h (kseg s h <| sh_offset := u32 (sh_offset (kseg s h) + avail) |>), None)
  else
    let s := put_item s it (kitem s it <| it_refcount := 1 |>) in
    (put_seg s h (kseg s h <| sh_offset := u32 (sh_offset (kseg s h) + total) |>), Some it).

(** ** Allocation *)

Definition ialloc_init_allocator (s : kv) (ia : Z) (p q : option Z) : outcome kv :=
  match segment_alloc s p with
  | (_, None) => Crash
  | (s, Some h) =>
      let s := put_seg s h (kseg s h <| sh_next := None |>) in
      match segment_alloc s q with
      | (_, None) => Crash
      | (s, Some r) =>
          let s := put_seg s r (kseg s r <| sh_next := None |>) in
          Ok (put_ia s ia (mk_item_allocator (Some r) ∅ h 0 0 (Some h) 0 None 0))
      end
  end.

Definition ialloc_alloc (s : kv) (ia total : Z) (cleanup : bool) (p : option Z) : outcome (kv * option Z) :=
  let! _ := assert_ (total <? segsize) in
  match ia_reserved (kia s ia), cleanup with
  | None, false => Ok (s, None)
  | res, _ =>
      let old := ia_cur (kia s ia) in
      match segment_item_alloc s old total with
      | (s, Some it) => Ok (s, Some it)
      | (s, None) =>
          let '(s, h) := match segment_alloc s p with
            | (s, Some h) => (s, Some h)
            | (s, None) =>
                match cleanup, ia_reserved (kia s ia) with
                | true, Some h => (put_ia s ia (kia s ia <| ia_reserved := None |>), Some h)
                | _, _ => (s, None)
                end
            end in
          match h with
          | None => Ok (s, None)
          | Some h =>
              let s := put_seg s old (kseg s old <| sh_next := Some h |>) in
              let s := put_seg s h (kseg s h <| sh_next := None |>) in
              let s := put_seg s old (kseg s old <| sh_flags := Z.lor (sh_flags (kseg s old)) SF_INACTIVE |>) in
              let s := put_ia s ia (kia s ia <| ia_cur := h |>) in
              Ok (segment_item_alloc s h total)
          end
      end
  end.

(** The header of the segment is dereferenced. *)
Definition ialloc_free (s : kv) (it total : Z) : outcome kv :=
  let! h := segment_from_part s it in
  match h with None => Crash | Some h => Ok (segment_item_free s h total) end.

(** ** Reference counts *)

Definition item_ref (s : kv) (it : Z) : outcome kv :=
  let n := u16 (it_refcount (kitem s it) + 1) in
  let! _ := assert_ (negb (n =? 1)) in
  Ok (put_item s it (kitem s it <| it_refcount := n |>)).

Definition item_tryref (s : kv) (it : Z) : kv * bool :=
  if it_refcount (kitem s it) =? 0 then (s, false)
  else (put_item s it (kitem s it <| it_refcount := u16 (it_refcount (kitem s it) + 1) |>), true).

Definition item_unref (s : kv) (it : Z) : outcome kv :=
  let! _ := assert_ (0 <? it_refcount (kitem s it)) in
  let n := it_refcount (kitem s it) - 1 in
  let s := put_item s it (kitem s it <| it_refcount := n |>) in
  if n =? 0 then ialloc_free s it (item_totalsz (kitem s it)) else Ok s.

(** ** Cleaning the log *)

Definition ialloc_cleanup_item (s : kv) (ia : Z) (idle : bool) (p : option Z) : kv * option Z :=
  if negb idle && (32 <=? ia_cleanup_count (kia s ia)) then (s, None)
  else
    let s := if idle then s else put_ia s ia (kia s ia <| ia_cleanup_count := ia_cleanup_count (kia s ia) + 1 |>) in
    let i := ia_cq_head (kia s ia) in
    let it := ia_cleanup_queue (kia s ia) !! i in
    let s := match it with
      | Some _ => put_ia s ia (kia s ia <| ia_cleanup_queue := delete i (ia_cleanup_queue (kia s ia)) |>
                                 <| ia_cq_head := (i + 1) mod segcqsize |>)
      | None => s
      end in
    match ia_reserved (kia s ia) with
    | Some _ => (s, it)
    | None => let '(s, r) := segment_alloc s p in (put_ia s ia (kia s ia <| ia_reserved := r |>), it)
    end.

Definition ialloc_cleanup_nextrequest (s : kv) (ia : Z) : kv := put_ia s ia (kia s ia <| ia_cleanup_count := 0 |>).

Definition has_flag (h : segment_header) (f : Z) : bool := Z.land (sh_flags h) f =? f.

(** The first loop of [ialloc_maintenance]; the candidate comes with the ratio
    it was chosen for. *)
Fixpoint free_pass (fuel : nat) (s : kv) (ia : Z) (h prev : option Z) (cand : option (Z * (Z * Z)))
    : outcome (kv * option (Z * (Z * Z))) :=
  match fuel with
  | O => Spin
  | S fuel =>
      match h with
      | None => Ok (s, cand)
      | Some h =>
          let x := kseg s h in
          match sh_next x with
          | None => Ok (s, cand)
          | Some next =>
              if negb (has_flag x SF_INACTIVE) then Ok (s, cand)
              else if sh_freed x =? sh_size x then
                let s := match prev with
                  | None => put_ia s ia (kia s ia <| ia_oldest := sh_next x |>)
                  | Some p => put_seg s p (kseg s p <| sh_next := sh_next x |>)
                  end in
                free_pass fuel (segment_free s h) ia (Some next) prev cand
              else
                let better := negb (has_flag x SF_CLEANED) && clean_ratio_reached (sh_freed x) (sh_size x) &&
                              ratio_above (sh_freed x) (sh_size x) (option_map snd cand) in
                free_pass fuel s ia (Some next) (Some h) (if better then Some (h, (sh_freed x, sh_size x)) else cand)
          end
      end
  end.

(** The scan of a segment from offset [off] on: the queue's tail and the offset
    where it stops. *)
Fixpoint scan_pass (fuel : nat) (s : kv) (ia data size off idx : Z) : outcome (kv * Z * Z) :=
  match fuel with
  | O => Spin
  | S fuel =>
      if (size <=? off) || bool_decide (is_Some (ia_cleanup_queue (kia s ia) !! idx)) then Ok (s, idx, off)
      else if size - off <? SZ_ITEM then Ok (s, idx, size)
      else
        let it := u64 (data + off) in
        let '(s, got) := item_tryref s it in
        let '(s, idx) := if got
          then (put_ia s ia (kia s ia <| ia_cleanup_queue := <[idx := it]> (ia_cleanup_queue (kia s ia)) |>),
                (idx + 1) mod segcqsize)
          else (s, idx) in
        scan_pass fuel s ia data size (off + item_totalsz (kitem s it)) idx
  end.

Definition ialloc_maintenance (fuel : nat) (s : kv) (ia : Z) : outcome kv :=
  let! (s, cand) := free_pass fuel s ia (ia_oldest (kia s ia)) None None in
  let h := ia_cleaning (kia s ia) in
  let off := ia_clean_offset (kia s ia) in
  let size := match h with None => 0 | Some h => sh_size (kseg s h) end in
  let '(s, h, off, size) :=
    if (bool_decide (h = None) || (off =? size)) then
      let s := put_ia s ia (kia s ia <| ia_cleaning := option_map fst cand |> <| ia_clean_offset := 0 |>) in
      match cand with
      | None => (s, None, 0, size)
      | Some (h, _) => (put_seg s h (kseg s h <| sh_flags := Z.lor (sh_flags (kseg s h)) SF_CLEANED |>), Some h, 0, size)
      end
    else (s, h, off, size) in
  match h with
  | None => Ok s
  | Some h =>
      let! (s, idx, off) := scan_pass fuel s ia (sh_data (kseg s h)) size off (ia_cq_tail (kia s ia)) in
      Ok (put_ia s ia (kia s ia <| ia_cq_tail := idx |> <| ia_clean_offset := off |>))
  end.
End Alloc.
