(* ===== verification/FkAllocSafe.v ===== *)
(** The allocator of the key-value store never hands out memory that is in
    use: what is known of its segments in every reachable state. *)
From stdpp Require Import base numbers list gmap relations.
From Stdlib Require Import ZArith Lia.
From S2P Require Import Prelude LinkedList PacketMem FkAlloc.

(** ** Live items

    An entry is the header of a segment and the bytes of an item in it. *)
Definition live_in (live : list (Z * block)) (h : Z) : Z :=
  foldr Z.add 0 (map (fun e => if Z.eqb e.1 h then pm_len e.2 else 0) live).

Lemma live_in_cons e live h : live_in (e :: live) h = (if Z.eqb e.1 h then pm_len e.2 else 0) + live_in live h.
Proof. reflexivity. Qed.
Lemma live_in_middle l1 e l2 h : live_in (l1 ++ e :: l2) h = (if Z.eqb e.1 h then pm_len e.2 else 0) + live_in (l1 ++ l2) h.
Proof. induction l1 as [|d l1 IH]; [reflexivity|]. cbn [app]. rewrite !live_in_cons, IH. lia. Qed.
Lemma live_in_zero live h : Forall (fun e => e.1 <> h) live -> live_in live h = 0.
Proof. induction 1 as [|e l N F IH]; [reflexivity|]. rewrite live_in_cons, IH. destruct (Z.eqb_spec e.1 h); [contradiction|lia]. Qed.
Lemma live_in_nonneg live h : Forall (fun e => 0 <= pm_len e.2) live -> 0 <= live_in live h.
Proof. induction 1 as [|e l N F IH]; [reflexivity|]. rewrite live_in_cons. destruct (Z.eqb e.1 h); lia. Qed.
Lemma live_in_none live h : Forall (fun e => 0 < pm_len e.2) live -> live_in live h = 0 -> Forall (fun e => e.1 <> h) live.
Proof.
  induction 1 as [|e l N F IH]; [constructor|]. rewrite live_in_cons. intros E.
  assert (0 <= live_in l h) by (apply live_in_nonneg; eapply Forall_impl; [exact F|]; cbn; lia).
  destruct (Z.eqb_spec e.1 h); [lia|]. constructor; [assumption|]. apply IH. lia.
Qed.

(** A list without one of its elements. *)
Lemma nodup_without {A} (l1 l2 : list A) x : NoDup (l1 ++ x :: l2) ->
  NoDup (l1 ++ l2) /\ forall y, y ∈ l1 ++ l2 <-> y ∈ l1 ++ x :: l2 /\ y <> x.
Proof.
  intros Nd. apply (NoDup_Permutation_proper _ _ (Permutation_middle l1 l2 x)), NoDup_cons in Nd as [N Nd]. split; [exact Nd|].
  intros y. rewrite <- Permutation_middle, elem_of_cons. split; [intros Hy; split; [now right|]|tauto]. intros ->. contradiction.
Qed.

Inductive owner := OFree | OLog (ia : Z) | ORes (ia : Z).

Section Safe.
Context `{KvEnv}.
Context (Size : 0 < segsize < 4294967296) (Num : 0 <= segmaxnum) (Base : 0 <= seg_base)
        (Top : seg_base + segsize * segmaxnum < 18446744073709551616).

Definition seg_next (s : kv) (h : Z) : option Z := sh_next (kseg s h).

(** Header [h] belongs to segment [i]. *)
Record header_ok (s : kv) (i h : Z) : Prop := mk_header_ok
  { ho_index : 0 <= i < kv_seg_alloced s;
    ho_known : is_Some (kv_segs s !! h);
    ho_data : sh_data (kseg s h) = seg_base + segsize * i;
    ho_size : sh_size (kseg s h) = segsize;
    ho_offset : 0 <= sh_offset (kseg s h) <= segsize;
    ho_freed : 0 <= sh_freed (kseg s h) }.

(** A live item is inside its segment, in the part handed out. *)
Definition live_ok (s : kv) (own : gmap Z owner) (e : Z * block) : Prop :=
  0 < pm_len e.2 /\ (exists ia, own !! e.1 = Some (OLog ia)) /\
  sh_data (kseg s e.1) <= pm_base e.2 /\ pm_base e.2 + pm_len e.2 <= sh_data (kseg s e.1) + sh_offset (kseg s e.1).

Record log_ok (s : kv) (own : gmap Z owner) (ia : Z) (x : item_allocator) (l : list Z) : Prop := mk_log_ok
  { lo_chain : chain (seg_next s) (ia_oldest x) l None;
    lo_last : last l = Some (ia_cur x);
    lo_own : Forall (fun h => own !! h = Some (OLog ia)) l;
    lo_nodup : NoDup l;
    lo_reserved : forall r, ia_reserved x = Some r -> own !! r = Some (ORes ia) }.

Record ial_inv (s : kv) (own : gmap Z owner) (free : list Z) (live : list (Z * block)) : Prop := mk_ial_inv
  { ii_alloced : 0 <= kv_seg_alloced s <= segmaxnum;
    ii_header : forall i h, kv_seg_headers s !! i = Some h -> header_ok s i h;
    ii_inj : forall i j h, kv_seg_headers s !! i = Some h -> kv_seg_headers s !! j = Some h -> i = j;
    ii_known : forall h, is_Some (kv_segs s !! h) -> exists i, kv_seg_headers s !! i = Some h;
    ii_own : forall h, is_Some (own !! h) -> exists i, kv_seg_headers s !! i = Some h;
    ii_free : chain (seg_next s) (kv_free_segments s) free None /\ NoDup free /\ Forall (fun h => own !! h = Some OFree) free;
    ii_logs : forall ia x, kv_ias s !! ia = Some x -> exists l, log_ok s own ia x l;
    ii_log : forall h ia, own !! h = Some (OLog ia) -> sh_freed (kseg s h) + live_in live h = sh_offset (kseg s h);
    ii_res : forall h ia, own !! h = Some (ORes ia) -> sh_offset (kseg s h) = 0 /\ sh_freed (kseg s h) = 0;
    ii_live : Forall (live_ok s own) live;
    ii_apart : forall x, owners (map snd live) x <= 1 }.

(** ** Segments do not overlap *)

Lemma owners_none l x : Forall (fun b => in_block b x = 0) l -> owners l x = 0.
Proof. induction 1 as [|b l E F IH]; cbn; lia. Qed.

Lemma in_block_cases b x : in_block b x = 1 /\ pm_base b <= x < pm_base b + pm_len b \/
  in_block b x = 0 /\ ~ (pm_base b <= x < pm_base b + pm_len b).
Proof. unfold in_block. bsplit; lia. Qed.

(** The bytes behind what a segment has handed out are nobody's. *)
Lemma fresh_bytes s own free live h : ial_inv s own free live -> is_Some (own !! h) ->
  forall x, sh_data (kseg s h) + sh_offset (kseg s h) <= x < sh_data (kseg s h) + segsize -> owners (map snd live) x = 0.
Proof.
  intros I Ho x Hx. apply owners_none, Forall_map, Forall_forall. intros e He. cbn.
  pose proof (ii_live _ _ _ _ I) as L. rewrite Forall_forall in L. destruct (L e He) as (_ & (ia & Oe) & B1 & B2).
  destruct (ii_own _ _ _ _ I h Ho) as [i Hi]. destruct (ii_own _ _ _ _ I e.1) as [j Hj]; [eauto|].
  destruct (ii_header _ _ _ _ I i h Hi) as [_ _ D _ O _]. destruct (ii_header _ _ _ _ I j e.1 Hj) as [_ _ D' _ O' _].
  destruct (in_block_cases e.2 x) as [[_ K]|[E _]]; [exfalso|exact E].
  destruct (Z.eq_dec i j) as [->|N]; [rewrite Hi in Hj; injection Hj as Eh; rewrite <- Eh in *; lia|]. nia.
Qed.
(** ** Changing one header *)

Lemma kseg_put s h x h' : kseg (put_seg s h x) h' = if decide (h' = h) then x else kseg s h'.
Proof. unfold kseg. cbn. rewrite lookup_total_insert. repeat case_decide; congruence. Qed.
Lemma kseg_put_eq s h x : kseg (put_seg s h x) h = x.
Proof. rewrite kseg_put. now rewrite decide_True. Qed.
Lemma kseg_put_ne s h x h' : h' <> h -> kseg (put_seg s h x) h' = kseg s h'.
Proof. intros N. rewrite kseg_put. now rewrite decide_False. Qed.
Lemma known_put s h x h' : is_Some (kv_segs s !! h') -> is_Some (kv_segs (put_seg s h x) !! h').
Proof. intros K. cbn. rewrite lookup_insert_is_Some'. auto. Qed.

Lemma header_put s i k h x : header_ok s i k -> (k = h -> sh_data x = sh_data (kseg s h) /\ sh_size x = sh_size (kseg s h) /\
  0 <= sh_offset x <= segsize /\ 0 <= sh_freed x) -> header_ok (put_seg s h x) i k.
Proof.
  intros [] Hx. constructor; rewrite ?kseg_put; try assumption; try (now apply known_put).
  all: case_decide as E; [destruct (Hx E) as (D & Sz & O & F); subst; lia|assumption].
Qed.

(** The chains do not change when [sh_next] does not. *)
Lemma chain_put s h x p l q : sh_next x = sh_next (kseg s h) -> chain (seg_next s) p l q -> chain (seg_next (put_seg s h x)) p l q.
Proof.
  intros E. apply chain_ext. intros y _. unfold seg_next. rewrite kseg_put. case_decide as D; [now subst|reflexivity].
Qed.

Lemma live_ok_put s own h x e : sh_data x = sh_data (kseg s h) -> sh_offset (kseg s h) <= sh_offset x ->
  live_ok s own e -> live_ok (put_seg s h x) own e.
Proof.
  intros D O (P & Oe & B1 & B2). split_and!; auto; rewrite kseg_put; case_decide as E; subst; auto; [now rewrite D|rewrite D; lia].
Qed.

Lemma inv_put_seg s own free live live' h x : ial_inv s own free live -> is_Some (own !! h) ->
  sh_next x = sh_next (kseg s h) -> sh_data x = sh_data (kseg s h) -> sh_size x = sh_size (kseg s h) ->
  0 <= sh_offset x <= segsize -> 0 <= sh_freed x ->
  (forall ia, own !! h = Some (OLog ia) -> sh_freed x + live_in live' h = sh_offset x) ->
  (forall ia, own !! h = Some (ORes ia) -> sh_offset x = 0 /\ sh_freed x = 0) ->
  (forall h', h' <> h -> live_in live' h' = live_in live h') ->
  Forall (live_ok (put_seg s h x) own) live' -> (forall a, owners (map snd live') a <= 1) ->
  ial_inv (put_seg s h x) own free live'.
Proof.
  intros [] Ho N D Sz O F Lg Rs Lv Lo Ap. constructor; try assumption.
  - intros i k Hk. apply header_put; [apply ii_header0, Hk|]. auto.
  - intros k. cbn. rewrite lookup_insert_is_Some'. intros [->|K]; [apply ii_own0, Ho|apply ii_known0, K].
  - destruct ii_free0 as (C & Nd & Fo). split_and!; auto. now apply chain_put.
  - intros ia y Hy. destruct (ii_logs0 ia y Hy) as [l []]. exists l. constructor; auto. now apply chain_put.
  - intros k ia Hk. rewrite kseg_put. case_decide as E; [subst; eauto|]. rewrite Lv by exact E. eauto.
  - intros k ia Hk. rewrite kseg_put. case_decide as E; [subst; eauto|]. eauto.
Qed.

Lemma put_seg_twice s h x y : put_seg (put_seg s h x) h y = put_seg s h y.
Proof. unfold put_seg. cbn. unfold upd. cbn. now rewrite insert_insert_eq. Qed.

(** Items and buckets are not part of the invariant. *)
Lemma inv_items s own free live m : ial_inv s own free live -> ial_inv (s <| kv_items := m |>) own free live.
Proof.
  intros []. constructor; try assumption.
  - intros i h Hi. destruct (ii_header0 i h Hi). now constructor.
  - intros ia x Hx. destruct (ii_logs0 ia x Hx) as [l []]. exists l. now constructor.
Qed.

(** ** Giving back and handing out *)

Lemma seg_index s own free live h b : ial_inv s own free live -> live_ok s own (h, b) ->
  segment_from_part s (pm_base b) = Ok (Some h).
Proof.
  intros I (P & (ia & Oe) & B1 & B2). cbn [fst snd] in *. destruct (ii_own _ _ _ _ I h) as [i Hi]; [eauto|].
  destruct (ii_header _ _ _ _ I i h Hi) as [Ix _ D _ O _]. pose proof (ii_alloced _ _ _ _ I) as A.
  assert (E : u64 (pm_base b - seg_base) / segsize = i).
  { unfold u64. rewrite Z.mod_small by nia. symmetry. apply (Z.div_unique_pos _ _ i (pm_base b - seg_base - segsize * i)); nia. }
  unfold segment_from_part. cbv zeta. rewrite E. destruct (Z.ltb_spec i segmaxnum); [|lia]. cbn [assert_ obind]. now rewrite Hi.
Qed.

Lemma inv_item_free s own free live live' h t ia : ial_inv s own free live -> own !! h = Some (OLog ia) ->
  t + live_in live' h = live_in live h -> 0 <= t -> 0 <= live_in live' h ->
  (forall h', h' <> h -> live_in live' h' = live_in live h') -> Forall (live_ok s own) live' ->
  (forall a, owners (map snd live') a <= 1) -> ial_inv (segment_item_free s h t) own free live'.
Proof.
  intros I Oh Eq T Nn Lv Lo Ap. destruct (ii_own _ _ _ _ I h) as [i Hi]; [eauto|].
  destruct (ii_header _ _ _ _ I i h Hi) as [_ _ D Sz O F]. pose proof (ii_log _ _ _ _ I h ia Oh) as Acc.
  assert (U : u32 (sh_freed (kseg s h) + t) = sh_freed (kseg s h) + t) by (unfold u32; rewrite Z.mod_small; lia).
  unfold segment_item_free. apply inv_put_seg with live; cbn; rewrite ?U; try reflexivity; try assumption; try lia; try congruence; eauto.
  eapply Forall_impl; [exact Lo|]. intros e. apply live_ok_put; reflexivity.
Qed.

(** Freeing a live item always succeeds. *)
Lemma inv_free s own free l1 h b l2 : ial_inv s own free (l1 ++ (h, b) :: l2) ->
  exists s', ialloc_free s (pm_base b) (pm_len b) = Ok s' /\ ial_inv s' own free (l1 ++ l2).
Proof.
  intros I. pose proof (ii_live _ _ _ _ I) as L. apply Forall_app in L as [L1 L2]. apply Forall_cons in L2 as [Lb L2].
  unfold ialloc_free. rewrite (seg_index _ _ _ _ _ _ I Lb). cbn [obind]. eexists. split; [reflexivity|].
  destruct Lb as (P & (ia & Oh) & B1 & B2). cbn [fst snd] in *.
  assert (Fl : Forall (live_ok s own) (l1 ++ l2)) by (apply Forall_app; auto).
  eapply inv_item_free; [exact I|exact Oh|..].
  - rewrite live_in_middle. cbn [fst snd]. now rewrite Z.eqb_refl.
  - lia.
  - apply live_in_nonneg. eapply Forall_impl; [exact Fl|]. intros e (Pe & _). lia.
  - intros h' N. rewrite live_in_middle. cbn [fst]. destruct (Z.eqb_spec h h'); [congruence|lia].
  - exact Fl.
  - intros a. pose proof (ii_apart _ _ _ _ I a) as A. rewrite !map_app in *. rewrite !owners_app in *. cbn [map owners snd] in A.
    destruct (in_block_cases b a); lia.
Qed.

(** What a segment hands out is nobody's yet. *)
Lemma inv_item_alloc s own free live h ia total s' r : ial_inv s own free live -> own !! h = Some (OLog ia) -> SZ_ITEM <= total ->
  segment_item_alloc s h total = (s', r) ->
  match r with
  | Some it => ial_inv s' own free ((h, mk_block it total) :: live) /\
      (forall x, it <= x < it + total -> owners (map snd live) x = 0)
  | None => ial_inv s' own free live
  end.
Proof.
  intros I Oh T E. destruct (ii_own _ _ _ _ I h) as [i Hi]; [eauto|].
  destruct (ii_header _ _ _ _ I i h Hi) as [Ix _ D Sz O F]. pose proof (ii_log _ _ _ _ I h ia Oh) as Acc.
  pose proof (ii_alloced _ _ _ _ I) as A. unfold SZ_ITEM in T.
  assert (Lp : Forall (fun e : Z * block => 0 <= pm_len e.2) live).
  { eapply Forall_impl; [exact (ii_live _ _ _ _ I)|]. intros e (Pe & _). lia. }
  pose proof (live_in_nonneg live h Lp) as Nn.
  assert (Av : u32 (sh_size (kseg s h) - sh_offset (kseg s h)) = segsize - sh_offset (kseg s h)) by (unfold u32; rewrite Z.mod_small; lia).
  assert (At : u64 (sh_data (kseg s h) + sh_offset (kseg s h)) = sh_data (kseg s h) + sh_offset (kseg s h))
    by (unfold u64; rewrite Z.mod_small; nia).
  unfold segment_item_alloc in E. cbv zeta in E. rewrite Av, At in E.
  destruct (Z.eqb_spec (segsize - sh_offset (kseg s h)) 0); [injection E as <- <-; exact I|].
  destruct (Z.ltb_spec (segsize - sh_offset (kseg s h)) total) as [L|L]; injection E as <- <-.
  - set (avail := segsize - sh_offset (kseg s h)) in *.
    assert (W : forall s1, ial_inv s1 own free live -> kseg s1 h = kseg s h ->
      ial_inv (put_seg (segment_item_free s1 h avail) h
        (kseg (segment_item_free s1 h avail) h <| sh_offset := u32 (sh_offset (kseg (segment_item_free s1 h avail) h) + avail) |>))
        own free live).
    { intros s1 I1 E1. unfold segment_item_free. rewrite put_seg_twice, kseg_put_eq, E1. cbn.
      unfold u32. rewrite !Z.mod_small by lia.
      apply inv_put_seg with live; cbn; rewrite ?E1; try reflexivity; try assumption; try lia; try congruence; eauto.
      - eapply Forall_impl; [exact (ii_live _ _ _ _ I1)|]. intros e. apply live_ok_put; rewrite E1; cbn; [reflexivity|lia].
      - exact (ii_apart _ _ _ _ I1). }
    destruct (SZ_ITEM <=? avail); apply W; [apply inv_items, I|reflexivity|exact I|reflexivity].
  - set (it := sh_data (kseg s h) + sh_offset (kseg s h)) in *.
    assert (Fr : forall x, it <= x < it + total -> owners (map snd live) x = 0).
    { intros x Hx. apply (fresh_bytes s own free live h I); [eauto|]. unfold it in Hx. lia. }
    split; [|exact Fr].
    assert (Ox : u32 (sh_offset (kseg s h) + total) = sh_offset (kseg s h) + total) by (unfold u32; rewrite Z.mod_small; lia).
    change (kseg (put_item s it _) h) with (kseg s h). rewrite Ox.
    apply inv_put_seg with live; [apply inv_items, I|..]; cbn -[live_in]; try reflexivity; try assumption; try lia; try congruence; eauto.
    + intros _ _. rewrite live_in_cons. cbn [fst snd pm_len]. rewrite Z.eqb_refl. lia.
    + intros h' N. rewrite live_in_cons. cbn [fst snd]. destruct (Z.eqb_spec h h'); [congruence|lia].
    + constructor.
      * split_and!; cbn [fst snd pm_base pm_len]; [lia|eauto|rewrite kseg_put_eq; cbn; unfold it; lia|rewrite kseg_put_eq; cbn; unfold it; lia].
      * eapply Forall_impl; [exact (ii_live _ _ _ _ I)|]. intros e Le.
        apply live_ok_put; [reflexivity|cbn; change (kseg (put_item s it _) h) with (kseg s h); lia|exact Le].
    + intros a. cbn [map owners snd]. pose proof (ii_apart _ _ _ _ I a). destruct (in_block_cases (mk_block it total) a) as [[K Ra]|[K _]]; [|lia].
      cbn in Ra. rewrite (Fr a Ra). lia.
Qed.
(** ** New segments *)

(** A segment that belongs to nobody, empty. *)
Definition unowned (s : kv) (own : gmap Z owner) (h : Z) : Prop :=
  own !! h = None /\ (exists i, kv_seg_headers s !! i = Some h) /\ sh_offset (kseg s h) = 0 /\ sh_freed (kseg s h) = 0.

Lemma header_more s i h n : header_ok s i h -> kv_seg_alloced s <= n -> header_ok (s <| kv_seg_alloced := n |>) i h.
Proof. intros [] L. constructor; try assumption. cbn. lia. Qed.

Lemma inv_more s own free live n : ial_inv s own free live -> kv_seg_alloced s <= n <= segmaxnum ->
  ial_inv (s <| kv_seg_alloced := n |>) own free live.
Proof.
  intros [] L. constructor; try assumption.
  - cbn. lia.
  - intros i h Hi. apply header_more; [auto|lia].
  - intros ia x Hx. destruct (ii_logs0 ia x Hx) as [l []]. exists l. now constructor.
Qed.

Lemma not_free_log s own free live h : ial_inv s own free live -> own !! h = Some OFree -> live_in live h = 0.
Proof.
  intros I Oh. apply live_in_zero. eapply Forall_impl; [exact (ii_live _ _ _ _ I)|]. intros e (_ & (ia & Oe) & _) E. congruence.
Qed.

Lemma log_ok_delete s own ia x l h : log_ok s own ia x l -> own !! h = Some OFree -> log_ok s (delete h own) ia x l.
Proof.
  intros [] Oh. constructor; auto.
  - eapply Forall_impl; [exact lo_own0|]. cbn. intros k Ek. rewrite lookup_delete_ne; [exact Ek|congruence].
  - intros r Er. rewrite lookup_delete_ne; [auto|]. intros <-. specialize (lo_reserved0 _ Er). congruence.
Qed.

Lemma log_ok_put s own ia y l h x : sh_next x = sh_next (kseg s h) -> log_ok s own ia y l -> log_ok (put_seg s h x) own ia y l.
Proof. intros N []. constructor; auto. now apply chain_put. Qed.

Lemma delete_lookup {A} (m : gmap Z A) h k v : delete h m !! k = Some v -> k <> h /\ m !! k = Some v.
Proof. intros E. apply lookup_delete_Some in E as [N E]. split; [now apply not_eq_sym|exact E]. Qed.

(** Taking the head of the free list. *)
Lemma inv_pop s own free live h : ial_inv s own free live -> kv_free_segments s = Some h ->
  let s' := put_seg (s <| kv_free_segments := sh_next (kseg s h) |>) h (kseg s h <| sh_offset := 0 |> <| sh_flags := 0 |> <| sh_freed := 0 |>) in
  exists free', ial_inv s' (delete h own) free' live /\ unowned s' (delete h own) h.
Proof.
  intros I Hf s'. destruct (ii_free _ _ _ _ I) as (C & Nd & Fo). rewrite Hf in C. destruct free as [|h' free]; [inversion C|].
  apply chain_cons_inv in C as [[= <-] C]. apply NoDup_cons in Nd as [Nin Nd]. apply Forall_cons in Fo as [Oh Fo].
  destruct (ii_own _ _ _ _ I h) as [i Hi]; [eauto|]. pose proof (not_free_log _ _ _ _ _ I Oh) as Lz.
  exists free. split.
  - destruct I. constructor; try assumption.
    + intros j k Hk. destruct (ii_header0 j k Hk). apply header_put; [now constructor|]. intros ->. cbn. split_and!; auto; lia.
    + intros k. cbn. rewrite lookup_insert_is_Some'. intros [->|K]; [eauto|auto].
    + intros k [o Ok]. apply delete_lookup in Ok as [_ Ok]. eauto.
    + cbn. split_and!; [|exact Nd|].
      * apply (chain_put (s <| kv_free_segments := sh_next (kseg s h) |>)); [reflexivity|exact C].
      * rewrite Forall_forall in Fo |- *. intros k Hk. rewrite lookup_delete_ne by (intros ->; contradiction). auto.
    + intros ia x Hx. destruct (ii_logs0 ia x Hx) as [l Hl]. exists l. apply log_ok_put; [reflexivity|].
      apply (log_ok_delete _ _ _ _ _ h) in Hl; [|exact Oh]. destruct Hl. now constructor.
    + intros k ia Ok. apply delete_lookup in Ok as [N Ok]. unfold s'. rewrite kseg_put_ne by exact N. exact (ii_log0 k ia Ok).
    + intros k ia Ok. apply delete_lookup in Ok as [N Ok]. unfold s'. rewrite kseg_put_ne by exact N. exact (ii_res0 k ia Ok).
    + eapply Forall_impl; [exact ii_live0|]. intros e (P & (ia & Oe) & B). assert (N : e.1 <> h) by congruence.
      split_and!; [exact P|exists ia; now rewrite lookup_delete_ne by congruence|unfold s'; rewrite kseg_put_ne by exact N; apply B..].
  - split_and!; [apply lookup_delete_eq|eauto|unfold s'; now rewrite kseg_put_eq..].
Qed.
(** The next segment, with a new header. *)
Lemma inv_fresh s own free live h : ial_inv s own free live -> kv_seg_alloced s < segmaxnum -> kv_segs s !! h = None ->
  let i := kv_seg_alloced s in
  let s' := put_seg (s <| kv_seg_alloced := i + 1 |> <| kv_seg_headers := <[i := h]> (kv_seg_headers s) |>) h
              (mk_segment_header (seg_base + segsize * i) None 0 0 segsize 0) in
  ial_inv s' own free live /\ unowned s' own h.
Proof.
  intros I L Kn i s'.
  assert (Old : forall j k, kv_seg_headers s !! j = Some k -> k <> h /\ j <> i).
  { intros j k Hk. destruct (ii_header _ _ _ _ I j k Hk) as [Ix [? K] _ _ _ _]. split; [congruence|unfold i; lia]. }
  assert (Oh : own !! h = None).
  { destruct (own !! h) eqn:Oh; [|reflexivity]. destruct (ii_own _ _ _ _ I h) as [j Hj]; [eauto|]. now destruct (Old j h Hj). }
  assert (Keep : forall k o, own !! k = Some o -> kseg s' k = kseg s k).
  { intros k o Ok. unfold s'. rewrite kseg_put_ne by congruence. reflexivity. }
  assert (Ch : forall q l o, Forall (fun k => own !! k = Some o) l -> chain (seg_next s) q l None -> chain (seg_next s') q l None).
  { intros q l o F. apply chain_ext. intros y Hy. rewrite Forall_forall in F. unfold seg_next. now rewrite (Keep y o) by auto. }
  pose proof (ii_alloced _ _ _ _ I) as A. destruct I. split; [constructor|].
  - cbn. lia.
  - intros j k. cbn. rewrite lookup_insert. case_decide as E.
    + intros [= <-]. subst j. constructor; unfold s'; rewrite ?kseg_put_eq; cbn; try reflexivity; try lia. rewrite lookup_insert_eq. eauto.
    + intros Hk. destruct (Old j k Hk) as [N _]. destruct (ii_header0 j k Hk).
      constructor; unfold s'; rewrite ?kseg_put_ne by exact N; try assumption; [cbn; lia|]. cbn. now rewrite lookup_insert_ne by congruence.
  - intros j1 j2 k. cbn. rewrite !lookup_insert. repeat case_decide; intros E1 E2; subst; try congruence.
    + injection E1 as <-. now destruct (Old _ _ E2).
    + injection E2 as <-. now destruct (Old _ _ E1).
    + eauto.
  - intros k. cbn. rewrite lookup_insert_is_Some. intros [<-|[N K]].
    + exists i. now rewrite lookup_insert_eq.
    + destruct (ii_known0 k K) as [j Hj]. exists j. rewrite lookup_insert_ne; [exact Hj|]. destruct (Old j k Hj). congruence.
  - intros k Ok. destruct (ii_own0 k Ok) as [j Hj]. exists j. cbn. rewrite lookup_insert_ne; [exact Hj|]. destruct (Old j k Hj). congruence.
  - destruct ii_free0 as (C & Nd & Fo). cbn. split_and!; auto. exact (Ch _ _ _ Fo C).
  - intros ia x Hx. destruct (ii_logs0 ia x Hx) as [l []]. exists l. constructor; auto. exact (Ch _ _ _ lo_own0 lo_chain0).
  - intros k ia Ok. rewrite (Keep k _ Ok). exact (ii_log0 k ia Ok).
  - intros k ia Ok. rewrite (Keep k _ Ok). exact (ii_res0 k ia Ok).
  - eapply Forall_impl; [exact ii_live0|]. intros e (P & (ia & Oe) & B). rewrite <- (Keep _ _ Oe) in B. split_and!; [exact P|eauto|apply B..].
  - assumption.
  - split_and!; [exact Oh|exists i; cbn; now rewrite lookup_insert_eq|unfold s'; now rewrite kseg_put_eq..].
Qed.

Lemma inv_segment_alloc s own free live p s' r : ial_inv s own free live -> (forall h, p = Some h -> kv_segs s !! h = None) ->
  segment_alloc s p = (s', r) ->
  kv_ias s' = kv_ias s /\
  match r with
  | None => ial_inv s' own free live
  | Some h => exists own' free', ial_inv s' own' free' live /\ unowned s' own' h /\
      (forall k o, own !! k = Some o -> o <> OFree -> own' !! k = Some o)
  end.
Proof.
  intros I Fr E. unfold segment_alloc in E. cbv zeta in E. destruct (kv_free_segments s) as [h|] eqn:Hf.
  - injection E as <- <-. split; [reflexivity|]. destruct (inv_pop s own free live h I Hf) as (free' & I' & U).
    exists (delete h own), free'. split_and!; [exact I'|exact U|]. intros k o Ok N. rewrite lookup_delete_ne; [exact Ok|].
    intros <-. destruct (ii_free _ _ _ _ I) as (C & _ & Fo). rewrite Hf in C. inversion C; subst. apply Forall_cons in Fo as [Fo _]. congruence.
  - destruct (Z.leb_spec segmaxnum (kv_seg_alloced s)) as [L|L]; [injection E as <- <-; auto|].
    pose proof (ii_alloced _ _ _ _ I) as A.
    destruct p as [h|]; injection E as <- <-; (split; [reflexivity|]); [|apply inv_more; [exact I|lia]].
    destruct (inv_fresh s own free live h I L (Fr h eq_refl)) as [I' U]. cbv zeta in I', U.
    assert (D : u64 (seg_base + segsize * kv_seg_alloced s) = seg_base + segsize * kv_seg_alloced s) by (unfold u64; rewrite Z.mod_small; nia).
    assert (Sz : u32 segsize = segsize) by (unfold u32; rewrite Z.mod_small; lia).
    rewrite kseg_put_eq, put_seg_twice, D, Sz. exists own, free. split_and!; [exact I'|exact U|auto].
Qed.
(** ** Appending to a log *)

(** The other log's fields, when only links and flags change. *)
Definition seg_view (x : segment_header) : Z * Z * Z * Z := (sh_data x, sh_size x, sh_offset x, sh_freed x).

Lemma header_view s s' i h : kv_seg_alloced s' = kv_seg_alloced s -> is_Some (kv_segs s' !! h) ->
  seg_view (kseg s' h) = seg_view (kseg s h) -> header_ok s i h -> header_ok s' i h.
Proof. intros E K [= D Sz O F] []. constructor; try congruence; rewrite ?O, ?F; assumption. Qed.
Lemma live_view s s' own own' e : seg_view (kseg s' e.1) = seg_view (kseg s e.1) ->
  (forall ia, own !! e.1 = Some (OLog ia) -> exists ia', own' !! e.1 = Some (OLog ia')) -> live_ok s own e -> live_ok s' own' e.
Proof. intros [= D _ O _] Ho (P & (ia & Oe) & B1 & B2). rewrite <- D in *. rewrite <- O in *. split_and!; eauto. Qed.

Lemma unowned_dead s own free live h : ial_inv s own free live -> own !! h = None -> live_in live h = 0.
Proof.
  intros I Oh. apply live_in_zero. eapply Forall_impl; [exact (ii_live _ _ _ _ I)|]. intros e (_ & (ia & Oe) & _) E. congruence.
Qed.

Definition append_log (s : kv) (ia old h : Z) : kv :=
  let s := put_seg s old (kseg s old <| sh_next := Some h |>) in
  let s := put_seg s h (kseg s h <| sh_next := None |>) in
  let s := put_seg s old (kseg s old <| sh_flags := Z.lor (sh_flags (kseg s old)) SF_INACTIVE |>) in
  put_ia s ia (kia s ia <| ia_cur := h |>).

Lemma append_seg s ia old h k : old <> h ->
  seg_view (kseg (append_log s ia old h) k) = seg_view (kseg s k) /\
  seg_next (append_log s ia old h) k = if decide (k = old) then Some h else if decide (k = h) then None else seg_next s k.
Proof.
  intros N. unfold append_log. cbv zeta. unfold seg_next, seg_view. change (kseg (put_ia ?a ?b ?c) k) with (kseg a k).
  rewrite !kseg_put. repeat case_decide; subst; try congruence; auto.
Qed.

Lemma kia_some s ia x : kv_ias s !! ia = Some x -> kia s ia = x.
Proof. intros E. unfold kia. now apply lookup_total_correct. Qed.

Lemma inv_append s own free live ia x l h : ial_inv s own free live -> kv_ias s !! ia = Some x -> log_ok s own ia x l ->
  unowned s own h -> ial_inv (append_log s ia (ia_cur x) h) (<[h := OLog ia]> own) free live.
Proof.
  intros I Hx Hl (Oh & (ih & Hh) & O0 & F0). set (old := ia_cur x). set (s' := append_log s ia old h).
  pose proof (lo_last _ _ _ _ _ Hl) as La. apply last_Some in La as [l0 El]. fold old in El.
  assert (Oo : own !! old = Some (OLog ia)).
  { pose proof (lo_own _ _ _ _ _ Hl) as F. rewrite El in F. apply Forall_app in F as [_ F]. now apply Forall_cons in F as [F _]. }
  assert (N : old <> h) by congruence.
  assert (V : forall k, seg_view (kseg s' k) = seg_view (kseg s k)) by (intros k; apply append_seg, N).
  assert (Nx : forall k, seg_next s' k = if decide (k = old) then Some h else if decide (k = h) then None else seg_next s k)
    by (intros k; apply append_seg, N).
  assert (Kn : forall k, is_Some (kv_segs s !! k) -> is_Some (kv_segs s' !! k)).
  { intros k K. unfold s', append_log. cbv zeta. cbn -[kseg]. rewrite !lookup_insert_is_Some'. auto. }
  assert (Ch : forall q k o, Forall (fun k => own !! k = Some o) k -> o <> OLog ia -> chain (seg_next s) q k None -> chain (seg_next s') q k None).
  { intros q k o F No. apply chain_ext. intros y Hy. rewrite Forall_forall in F. specialize (F y Hy). rewrite Nx.
    rewrite !decide_False; [reflexivity|congruence|congruence]. }
  pose proof (unowned_dead _ _ _ _ _ I Oh) as Lz. destruct I. constructor; try assumption.
  - intros i k Hk. apply (header_view s); [reflexivity| |apply V|auto]. apply Kn. apply (ho_known _ _ _ (ii_header0 i k Hk)).
  - intros k K. apply ii_known0. unfold s', append_log in K. cbv zeta in K. cbn -[kseg] in K. rewrite !lookup_insert_is_Some' in K.
    destruct K as [<-|[<-|[<-|K]]]; auto.
    + destruct (ii_own0 old) as [j Hj]; [eauto|]. apply (ho_known _ _ _ (ii_header0 _ _ Hj)).
    + apply (ho_known _ _ _ (ii_header0 _ _ Hh)).
    + destruct (ii_own0 old) as [j Hj]; [eauto|]. apply (ho_known _ _ _ (ii_header0 _ _ Hj)).
  - intros k. rewrite lookup_insert_is_Some'. intros [<-|K]; [exists ih; exact Hh|apply ii_own0, K].
  - destruct ii_free0 as (C & Nd & Fo). split_and!; [exact (Ch _ _ _ Fo ltac:(discriminate) C)|exact Nd|].
    eapply Forall_impl; [exact Fo|]. cbn. intros k Ok. rewrite lookup_insert_ne; [exact Ok|congruence].
  - intros ia' y. change (kv_ias s') with (<[ia := kia s ia <| ia_cur := h |>]> (kv_ias s)). rewrite lookup_insert. case_decide as Ei.
    + subst ia'. intros [= <-]. rewrite (kia_some s ia x Hx). exists (l ++ [h]). destruct Hl. constructor; cbn.
      * apply chain_snoc. split; [|rewrite Nx; rewrite decide_False by congruence; now rewrite decide_True].
        rewrite El. apply (chain_redirect (seg_next s) _ _ l0 old [] None); [now rewrite <- El| |rewrite Nx; now rewrite decide_True].
        intros k Hk. rewrite Nx. rewrite El in lo_nodup0, lo_own0. apply NoDup_app in lo_nodup0 as (_ & D & _).
        apply Forall_app in lo_own0 as [F _]. rewrite Forall_forall in F. specialize (F k Hk).
        rewrite !decide_False; [reflexivity|congruence|]. intros ->. apply (D old Hk). left.
      * now rewrite last_snoc.
      * apply Forall_app. split; [|constructor; [apply lookup_insert_eq|constructor]].
        eapply Forall_impl; [exact lo_own0|]. cbn. intros k Ok. rewrite lookup_insert_ne; [exact Ok|congruence].
      * apply NoDup_app. split_and!; [exact lo_nodup0| |apply NoDup_singleton]. intros k Hk. rewrite list_elem_of_singleton. intros ->.
        rewrite Forall_forall in lo_own0. specialize (lo_own0 h Hk). congruence.
      * intros r Er. specialize (lo_reserved0 r Er). rewrite lookup_insert_ne; [exact lo_reserved0|congruence].
    + intros Hy. destruct (ii_logs0 ia' y Hy) as [k []]. exists k. constructor; auto.
      * apply (Ch _ _ _ lo_own0); [congruence|exact lo_chain0].
      * eapply Forall_impl; [exact lo_own0|]. cbn. intros j Oj. rewrite lookup_insert_ne; [exact Oj|congruence].
      * intros r Er. specialize (lo_reserved0 r Er). rewrite lookup_insert_ne; [exact lo_reserved0|congruence].
  - intros k ia'. pose proof (V k) as [= _ _ Vo Vf]. rewrite Vo, Vf, lookup_insert. case_decide as Ek.
    + subst k. intros _. lia.
    + apply ii_log0.
  - intros k ia'. pose proof (V k) as [= _ _ Vo Vf]. rewrite Vo, Vf, lookup_insert. case_decide as Ek; [discriminate|apply ii_res0].
  - eapply Forall_impl; [exact ii_live0|]. intros e. apply live_view; [apply V|]. intros ia' Oe. exists ia'.
    rewrite lookup_insert_ne; [exact Oe|congruence].
Qed.
End Safe.
