(* ===== verification/FkAllocOps.v ===== *)
(** The key-value store's allocator, operation by operation: every one keeps
    [ial_inv].  A cleaning pass over the inactive segments frees only those with
    nothing live in them, and ends. *)
From stdpp Require Import base numbers list gmap relations.
From Stdlib Require Import ZArith Lia.
From S2P Require Import Prelude LinkedList PacketMem FkAlloc FkAllocSafe.

Section Reach.
Context `{KvEnv}.
Context (Size : 0 < segsize < 4294967296) (Num : 0 <= segmaxnum) (Base : 0 <= seg_base)
        (Top : seg_base + segsize * segmaxnum < 18446744073709551616).

(** ** Changing an allocator's record *)

Lemma log_ok_own s own own' ia x l ja : log_ok s own ia x l -> ia <> ja ->
  (forall h o, own !! h = Some o -> o <> ORes ja -> own' !! h = Some o) -> log_ok s own' ia x l.
Proof.
  intros [] N K. constructor; auto.
  - eapply Forall_impl; [exact lo_own|]. intros h Oh. now apply K.
  - intros r Er. apply K; [auto|congruence].
Qed.

Lemma inv_put_ia s own own' free live ia y l : ial_inv s own free live -> log_ok s own' ia y l ->
  (forall h o, own !! h = Some o -> o <> ORes ia -> own' !! h = Some o) ->
  (forall h o, own' !! h = Some o -> own !! h = Some o \/ unowned s own h /\ o <> OFree) ->
  ial_inv (put_ia s ia y) own' free live.
Proof.
  intros I Hl K C. pose proof (fun h => unowned_dead s own free live h I) as Dead. destruct I. constructor; try assumption.
  - intros i h Hi. destruct (ii_header i h Hi). now constructor.
  - intros h [o Ho]. destruct (C h o Ho) as [E|[(_ & E & _) _]]; eauto.
  - destruct ii_free as (Cf & Nd & Fo). split_and!; auto. eapply Forall_impl; [exact Fo|]. intros h Oh. now apply K.
  - intros ja x. cbn. rewrite lookup_insert. case_decide as E.
    + intros [= <-]. subst ja. exists l. destruct Hl. now constructor.
    + intros Hx. destruct (ii_logs ja x Hx) as [k Hk]. exists k. apply (log_ok_own s own own') with (ja := ia) in Hk; auto.
      destruct Hk. now constructor.
  - intros h ja Oh. change (kseg (put_ia s ia y) h) with (kseg s h).
    destruct (C h _ Oh) as [E|[(E & _ & O0 & F0) _]]; [eauto|]. rewrite (Dead h E). lia.
  - intros h ja Oh. change (kseg (put_ia s ia y) h) with (kseg s h).
    destruct (C h _ Oh) as [E|[(_ & _ & O0 & F0) _]]; eauto.
  - eapply Forall_impl; [exact ii_live|]. intros e (P & (ja & Oe) & B). split_and!; try apply B; [exact P|].
    exists ja. apply K; [exact Oe|discriminate].
Qed.

(** Fields that are not part of the invariant. *)
Lemma inv_ia_keep s own free live ia y : ial_inv s own free live ->
  ia_oldest y = ia_oldest (kia s ia) -> ia_cur y = ia_cur (kia s ia) -> ia_reserved y = ia_reserved (kia s ia) ->
  is_Some (kv_ias s !! ia) -> ial_inv (put_ia s ia y) own free live.
Proof.
  intros I Eo Ec Er [x Hx]. rewrite (kia_some s ia x Hx) in *. destruct (ii_logs _ _ _ _ I ia x Hx) as [l []].
  apply (inv_put_ia s own own free live ia y l); auto. constructor; rewrite ?Eo, ?Ec, ?Er; assumption.
Qed.

Lemma inv_reserve s own free live ia h : ial_inv s own free live -> is_Some (kv_ias s !! ia) -> ia_reserved (kia s ia) = None ->
  unowned s own h -> ial_inv (put_ia s ia (kia s ia <| ia_reserved := Some h |>)) (<[h := ORes ia]> own) free live.
Proof.
  intros I [x Hx] Er U. rewrite (kia_some s ia x Hx) in *. destruct (ii_logs _ _ _ _ I ia x Hx) as [l []].
  assert (K : forall k o, own !! k = Some o -> <[h := ORes ia]> own !! k = Some o).
  { intros k o Ok. rewrite lookup_insert_ne; [exact Ok|]. intros <-. destruct U as [U _]. congruence. }
  apply (inv_put_ia s own _ free live ia _ l); auto.
  - constructor; cbn; auto.
    + eapply Forall_impl; [exact lo_own|]. auto.
    + intros r [= <-]. apply lookup_insert_eq.
  - intros k o. rewrite lookup_insert. case_decide as E; [|auto]. intros [= <-]. subst k. right. now split.
Qed.

Lemma inv_unreserve s own free live ia h : ial_inv s own free live -> is_Some (kv_ias s !! ia) -> ia_reserved (kia s ia) = Some h ->
  let s' := put_ia s ia (kia s ia <| ia_reserved := None |>) in
  ial_inv s' (delete h own) free live /\ unowned s' (delete h own) h.
Proof.
  intros I [x Hx] Er s'. unfold s'. rewrite (kia_some s ia x Hx) in *. destruct (ii_logs _ _ _ _ I ia x Hx) as [l []].
  pose proof (lo_reserved h Er) as Oh. split.
  - apply (inv_put_ia s own _ free live ia _ l); auto.
    + constructor; cbn; auto; [|discriminate]. eapply Forall_impl; [exact lo_own|].
      intros k Ok. cbn in Ok. rewrite lookup_delete_ne; [exact Ok|congruence].
    + intros k o Ok N. rewrite lookup_delete_ne; [exact Ok|congruence].
    + intros k o Ok. apply delete_lookup in Ok as [_ Ok]. now left.
  - split_and!; [apply lookup_delete_eq|apply (ii_own _ _ _ _ I); eauto|apply (ii_res _ _ _ _ I h ia Oh)..].
Qed.

(** ** Allocation *)

Lemma item_alloc_ias s h total s' r : segment_item_alloc s h total = (s', r) -> kv_ias s' = kv_ias s.
Proof. unfold segment_item_alloc. cbv zeta. repeat case_match; now intros [= <- _]. Qed.

Lemma item_alloc_known s h total s' r k : segment_item_alloc s h total = (s', r) -> is_Some (kv_segs s !! h) ->
  kv_segs s !! k = None -> kv_segs s' !! k = None.
Proof.
  intros E K N. assert (Nk : h <> k) by (intros ->; destruct K; congruence).
  unfold segment_item_alloc, segment_item_free in E. cbv zeta in E.
  repeat case_match; injection E as <- _; cbn -[kseg]; rewrite ?lookup_insert_ne by exact Nk; exact N.
Qed.

Lemma owned_known s own free live h : ial_inv s own free live -> is_Some (own !! h) -> is_Some (kv_segs s !! h).
Proof. intros I Oh. destruct (ii_own _ _ _ _ I h Oh) as [i Hi]. exact (ho_known _ _ _ (ii_header _ _ _ _ I i h Hi)). Qed.

Lemma cur_owned s own free live ia x : ial_inv s own free live -> kv_ias s !! ia = Some x ->
  exists l, log_ok s own ia x l /\ own !! ia_cur x = Some (OLog ia).
Proof.
  intros I Hx. destruct (ii_logs _ _ _ _ I ia x Hx) as [l Hl]. exists l. split; [exact Hl|].
  pose proof (lo_own _ _ _ _ _ Hl) as F. rewrite Forall_forall in F. apply F, last_in, (lo_last _ _ _ _ _ Hl).
Qed.

(** A segment for the log: a new one or the reserved one. *)
Definition next_segment (s : kv) (ia : Z) (cleanup : bool) (p : option Z) : kv * option Z :=
  match segment_alloc s p with
  | (s, Some h) => (s, Some h)
  | (s, None) =>
      match cleanup, ia_reserved (kia s ia) with
      | true, Some h => (put_ia s ia (kia s ia <| ia_reserved := None |>), Some h)
      | _, _ => (s, None)
      end
  end.

Lemma inv_next_segment s own free live ia x cleanup p s' r : ial_inv s own free live -> kv_ias s !! ia = Some x ->
  (forall h, p = Some h -> kv_segs s !! h = None) -> next_segment s ia cleanup p = (s', r) ->
  (forall ja, is_Some (kv_ias s' !! ja) <-> is_Some (kv_ias s !! ja)) /\
  exists own' free', ial_inv s' own' free' live /\ forall h, r = Some h ->
    unowned s' own' h /\ exists x', kv_ias s' !! ia = Some x' /\ ia_cur x' = ia_cur x.
Proof.
  intros I Hx Fr E. unfold next_segment in E. destruct (segment_alloc s p) as [s1 [h|]] eqn:Ea.
  all: destruct (inv_segment_alloc Size Num Base Top s own free live p s1 _ I Fr Ea) as [Ei Ha].
  - injection E as <- <-. split; [intros ja; now rewrite Ei|]. destruct Ha as (own' & free' & I' & U & _).
    exists own', free'. split; [exact I'|]. intros k [= <-]. split; [exact U|]. exists x. now rewrite Ei.
  - destruct cleanup; [|injection E as <- <-; split; [intros ja; now rewrite Ei|now exists own, free]].
    destruct (ia_reserved (kia s1 ia)) as [h|] eqn:Er; injection E as <- <-; [|split; [intros ja; now rewrite Ei|now exists own, free]].
    split; [intros ja; cbn; rewrite lookup_insert_is_Some', Ei; split; [intros [<-|K]; eauto|auto]|].
    destruct (inv_unreserve s1 own free live ia h Ha) as [I' U]; [rewrite Ei; eauto|exact Er|].
    exists (delete h own), free. split; [exact I'|]. intros k [= <-]. split; [exact U|].
    eexists. split; [apply lookup_insert_eq|]. cbn. rewrite (kia_some s1 ia x); [reflexivity|now rewrite Ei].
Qed.

(** The table and the items that are out stay as they are. *)
Definition items_kept (s s' : kv) (live : list block) : Prop :=
  kv_buckets s' = kv_buckets s /\ forall x, owners live x <> 0 -> kitem s' x = kitem s x.

Lemma items_kept_trans s1 s2 s3 live : items_kept s1 s2 live -> items_kept s2 s3 live -> items_kept s1 s3 live.
Proof. intros [B1 I1] [B2 I2]. split; [congruence|]. intros x Hx. rewrite I2, I1; auto. Qed.
Lemma items_kept_eq s s' live : kv_buckets s' = kv_buckets s -> kv_items s' = kv_items s -> items_kept s s' live.
Proof. intros B I. split; [exact B|]. intros x _. unfold kitem. now rewrite I. Qed.

(** A segment writes the struct of an item only where nothing is out. *)
Lemma item_alloc_kept s own free live h ia total s' r : ial_inv s own free live -> own !! h = Some (OLog ia) -> SZ_ITEM <= total ->
  segment_item_alloc s h total = (s', r) ->
  items_kept s s' (map snd live) /\ forall it, r = Some it -> it_refcount (kitem s' it) = 1.
Proof.
  intros I Oh T E. destruct (ii_own _ _ _ _ I h) as [i Hi]; [eauto|].
  destruct (ii_header _ _ _ _ I i h Hi) as [Ix _ D Sz O F]. pose proof (ii_alloced _ _ _ _ I) as A. unfold SZ_ITEM in T.
  assert (Av : u32 (sh_size (kseg s h) - sh_offset (kseg s h)) = segsize - sh_offset (kseg s h)) by (unfold u32; rewrite Z.mod_small; lia).
  assert (At : u64 (sh_data (kseg s h) + sh_offset (kseg s h)) = sh_data (kseg s h) + sh_offset (kseg s h))
    by (unfold u64; rewrite Z.mod_small; nia).
  assert (Put : forall x, 0 < segsize - sh_offset (kseg s h) ->
    items_kept s (put_item s (sh_data (kseg s h) + sh_offset (kseg s h)) x) (map snd live)).
  { intros x L. split; [reflexivity|]. intros y Hy. unfold kitem. cbn. rewrite lookup_total_insert_ne; [reflexivity|]. intros <-. apply Hy.
    apply (fresh_bytes Size Num Base Top s own free live h I); [eauto|lia]. }
  unfold segment_item_alloc in E. cbv zeta in E. rewrite Av, At in E.
  destruct (Z.eqb_spec (segsize - sh_offset (kseg s h)) 0); [injection E as <- <-; split; [now apply items_kept_eq|discriminate]|].
  destruct (Z.ltb_spec (segsize - sh_offset (kseg s h)) total) as [L|L]; injection E as <- <-.
  - split; [|discriminate]. destruct (SZ_ITEM <=? _); [|now apply items_kept_eq].
    eapply items_kept_trans; [apply Put; lia|]. now apply items_kept_eq.
  - split; [eapply items_kept_trans; [apply Put; lia|]; now apply items_kept_eq|].
    intros it [= <-]. unfold kitem. cbn. now rewrite lookup_total_insert_eq.
Qed.

(** What an allocation leaves: the item is live and was nobody's; the other
    items that are out are as before. *)
Definition alloc_result (s0 s : kv) (live : list (Z * block)) (total : Z) (r : option Z) : Prop :=
  items_kept s0 s (map snd live) /\
  match r with
  | Some it => it_refcount (kitem s it) = 1 /\ exists own free h, ial_inv s own free ((h, mk_block it total) :: live) /\
      forall a, it <= a < it + total -> owners (map snd live) a = 0
  | None => exists own free, ial_inv s own free live
  end.

Lemma inv_item_result s0 s own free live h ia total s' r : ial_inv s own free live -> own !! h = Some (OLog ia) -> SZ_ITEM <= total ->
  items_kept s0 s (map snd live) -> segment_item_alloc s h total = (s', r) -> alloc_result s0 s' live total r.
Proof.
  intros I Oh T K0 E. destruct (item_alloc_kept _ _ _ _ _ _ _ _ _ I Oh T E) as [K Rc].
  split; [exact (items_kept_trans _ _ _ _ K0 K)|].
  pose proof (inv_item_alloc Size Num Base Top _ _ _ _ _ _ _ _ _ I Oh T E) as R.
  destruct r as [it|]; [|now exists own, free]. split; [now apply Rc|]. exists own, free, h. exact R.
Qed.

Lemma next_segment_kept s ia cleanup p s' r live : next_segment s ia cleanup p = (s', r) -> items_kept s s' live.
Proof.
  intros E. unfold next_segment, segment_alloc in E. cbv zeta in E. apply items_kept_eq; repeat case_match; simplify_eq; reflexivity.
Qed.

Lemma inv_alloc s own free live ia total cleanup p : ial_inv s own free live -> is_Some (kv_ias s !! ia) ->
  (forall h, p = Some h -> kv_segs s !! h = None) -> SZ_ITEM <= total < segsize ->
  exists s' r, ialloc_alloc s ia total cleanup p = Ok (s', r) /\
    (forall ja, is_Some (kv_ias s' !! ja) <-> is_Some (kv_ias s !! ja)) /\ alloc_result s s' live total r.
Proof.
  intros I [x Hx] Fr T. unfold ialloc_alloc. destruct (Z.ltb_spec total segsize); [|lia]. cbn [assert_ obind].
  rewrite (kia_some s ia x Hx). destruct (cur_owned s own free live ia x I Hx) as (l & Hl & Oc).
  assert (Go : exists s' r,
    match segment_item_alloc s (ia_cur x) total with
    | (s, Some it) => Ok (s, Some it)
    | (s, None) =>
        let '(s, h) := next_segment s ia cleanup p in
        match h with
        | None => Ok (s, None)
        | Some h => Ok (segment_item_alloc (append_log s ia (ia_cur x) h) h total)
        end
    end = Ok (s', r) /\ (forall ja, is_Some (kv_ias s' !! ja) <-> is_Some (kv_ias s !! ja)) /\ alloc_result s s' live total r).
  { destruct (segment_item_alloc s (ia_cur x) total) as [s1 [it|]] eqn:E1; pose proof (item_alloc_ias _ _ _ _ _ E1) as Ei.
    { eexists _, _. split_and!; [reflexivity|intros ja; now rewrite Ei|].
      apply (inv_item_result s s own free live (ia_cur x) ia); auto; [lia|now apply items_kept_eq]. }
    pose proof (proj1 (item_alloc_kept _ _ _ _ _ _ _ _ _ I Oc (proj1 T) E1)) as K1.
    assert (I1 : ial_inv s1 own free live) by exact (inv_item_alloc Size Num Base Top _ _ _ _ _ _ _ _ _ I Oc (proj1 T) E1).
    destruct (next_segment s1 ia cleanup p) as [s2 h] eqn:E2.
    destruct (inv_next_segment s1 own free live ia x cleanup p s2 h I1) as (Ej & own2 & free2 & I2 & U); [now rewrite Ei| |exact E2|].
    { intros k Ek. apply (item_alloc_known _ _ _ _ _ k E1); [|auto]. apply (owned_known s own free live); eauto. }
    pose proof (items_kept_trans _ _ _ _ K1 (next_segment_kept _ _ _ _ _ _ (map snd live) E2)) as K2.
    destruct h as [h|]; [|eexists _, _; split_and!; [reflexivity|intros ja; now rewrite Ej, Ei|split; [exact K2|now exists own2, free2]]].
    destruct (U h eq_refl) as [Uh (x2 & Hx2 & Ec)]. rewrite <- Ec.
    destruct (cur_owned s2 own2 free2 live ia x2 I2 Hx2) as (l2 & Hl2 & _).
    pose proof (inv_append s2 own2 free2 live ia x2 l2 h I2 Hx2 Hl2 Uh) as I3.
    destruct (segment_item_alloc (append_log s2 ia (ia_cur x2) h) h total) as [s3 r] eqn:E3.
    pose proof (item_alloc_ias _ _ _ _ _ E3) as Ek. exists s3, r. split_and!; [reflexivity| |].
    - intros ja. rewrite Ek. unfold append_log. cbn. rewrite lookup_insert_is_Some', Ej, Ei. split; [intros [<-|K]; eauto|auto].
    - apply (inv_item_result s _ _ _ _ h ia _ _ _ I3); [apply lookup_insert_eq|lia| |exact E3].
      eapply items_kept_trans; [exact K2|now apply items_kept_eq]. }
  destruct (ia_reserved x), cleanup; try exact Go. eexists _, _. split_and!; [reflexivity|auto|split; [now apply items_kept_eq|now exists own, free]].
Qed.
End Reach.

(** ** Cleaning *)

(** Taking the node [h] out after [p]. *)
Lemma chain_unlink {K : Type} (nxt nxt' : K -> option K) q l0 p h l2 r :
  chain nxt q (l0 ++ p :: h :: l2) r -> nxt' p = nxt h -> (forall y, y ∈ l0 ++ l2 -> nxt y = nxt' y) ->
  chain nxt' q (l0 ++ p :: l2) r.
Proof.
  intros C Ep E. apply chain_app in C as (m & C1 & C2). apply chain_cons_inv in C2 as [-> C2]. apply chain_cons_inv in C2 as [_ C2].
  apply chain_app. exists (Some p). split.
  - apply (chain_ext nxt); [|exact C1]. intros y Hy. apply E, elem_of_app. now left.
  - constructor. rewrite Ep. apply (chain_ext nxt); [|exact C2]. intros y Hy. apply E, elem_of_app. now right.
Qed.

Section Clean.
Context `{KvEnv}.
Context (Size : 0 < segsize < 4294967296) (Num : 0 <= segmaxnum) (Base : 0 <= seg_base)
        (Top : seg_base + segsize * segmaxnum < 18446744073709551616).

(** ** Giving a segment back *)

Lemma log_ok_push s own ia x l h : log_ok s own ia x l -> own !! h = None ->
  log_ok (segment_free s h) (<[h := OFree]> own) ia x l.
Proof.
  intros [] Oh.
  assert (K : forall k o, own !! k = Some o -> <[h := OFree]> own !! k = Some o).
  { intros k o Ok. rewrite lookup_insert_ne; [exact Ok|congruence]. }
  constructor; auto.
  - apply (chain_ext (seg_next s)); [|exact lo_chain]. intros y Hy. rewrite Forall_forall in lo_own. specialize (lo_own y Hy).
    unfold seg_next, segment_free. change (kseg (?a <| kv_free_segments := ?b |>) y) with (kseg a y). rewrite kseg_put_ne by congruence. reflexivity.
  - eapply Forall_impl; [exact lo_own|]. auto.
Qed.

Lemma inv_push s own free live i h : ial_inv s own free live -> own !! h = None -> kv_seg_headers s !! i = Some h ->
  ial_inv (segment_free s h) (<[h := OFree]> own) (h :: free) live.
Proof.
  intros I Oh Hi.
  assert (K : forall k o, own !! k = Some o -> k <> h /\ <[h := OFree]> own !! k = Some o).
  { intros k o Ok. assert (k <> h) by congruence. now rewrite lookup_insert_ne by congruence. }
  assert (Kf : forall k, k <> h -> kseg (segment_free s h) k = kseg s k) by (intros k N; unfold segment_free; exact (kseg_put_ne s h _ k N)).
  pose proof (ho_known _ _ _ (ii_header _ _ _ _ I i h Hi)) as Kn.
  destruct I. constructor; try assumption.
  - intros j k Hj.
    assert (Hk : header_ok (put_seg s h (kseg s h <| sh_offset := 0 |> <| sh_next := kv_free_segments s |>)) j k).
    { apply header_put; [exact (ii_header j k Hj)|]. intros ->. destruct (ii_header j h Hj). cbn. split_and!; auto; lia. }
    destruct Hk. now constructor.
  - intros k. cbn. rewrite lookup_insert_is_Some'. intros [<-|Kk]; auto.
  - intros k. rewrite lookup_insert_is_Some'. intros [<-|Ok]; [eauto|auto].
  - destruct ii_free as (C & Nd & Fo). rewrite Forall_forall in Fo.
    assert (Nin : h ∉ free) by (intros Hin; specialize (Fo h Hin); congruence).
    assert (Eh : seg_next (segment_free s h) h = kv_free_segments s).
    { unfold seg_next, segment_free. change (kseg (?a <| kv_free_segments := ?b |>) h) with (kseg a h). now rewrite kseg_put_eq. }
    change (kv_free_segments (segment_free s h)) with (Some h). split_and!.
    + constructor. rewrite Eh.
      apply (chain_ext (seg_next s)); [|exact C]. intros y Hy. unfold seg_next. rewrite <- Kf; [reflexivity|congruence].
    + now constructor.
    + constructor; [apply lookup_insert_eq|]. apply Forall_forall. intros k Hk. apply K. auto.
  - intros ia x Hx. destruct (ii_logs ia x Hx) as [l Hl]. exists l. now apply log_ok_push.
  - intros k ia. rewrite lookup_insert. case_decide; [discriminate|]. intros Ok. rewrite Kf by congruence. eauto.
  - intros k ia. rewrite lookup_insert. case_decide; [discriminate|]. intros Ok. rewrite Kf by congruence. eauto.
  - eapply Forall_impl; [exact ii_live|]. intros e (P & (ia & Oe) & B). destruct (K e.1 _ Oe) as [N Oe'].
    rewrite <- Kf in B by exact N. split_and!; [exact P|eauto|apply B..].
Qed.

(** ** Taking a segment out of a log *)

Definition unlink (s : kv) (ia h : Z) (prev : option Z) : kv :=
  match prev with
  | None => put_ia s ia (kia s ia <| ia_oldest := sh_next (kseg s h) |>)
  | Some p => put_seg s p (kseg s p <| sh_next := sh_next (kseg s h) |>)
  end.

Lemma unlink_view s ia h prev k : seg_view (kseg (unlink s ia h prev) k) = seg_view (kseg s k).
Proof. destruct prev as [p|]; [|reflexivity]. cbn. rewrite kseg_put. case_decide; now subst. Qed.
Lemma unlink_next s ia h prev k : prev <> Some k -> seg_next (unlink s ia h prev) k = seg_next s k.
Proof. destruct prev as [p|]; [|reflexivity]. intros N. unfold seg_next. cbn. rewrite kseg_put_ne by congruence. reflexivity. Qed.

(** The log without the node. *)
Lemma log_unlink s own ia x l1 h l2 : kv_ias s !! ia = Some x -> log_ok s own ia x (l1 ++ h :: l2) -> l2 <> [] ->
  exists x', kv_ias (unlink s ia h (last l1)) !! ia = Some x' /\
    log_ok (unlink s ia h (last l1)) (delete h own) ia x' (l1 ++ l2).
Proof.
  intros Hx [Ch La Ow Nd Rs] Ne.
  destruct (nodup_without l1 l2 h Nd) as [Nd' Mem].
  assert (Oh : own !! h = Some (OLog ia)) by (rewrite Forall_forall in Ow; apply Ow, elem_of_app; right; left).
  assert (Ow' : Forall (fun k => delete h own !! k = Some (OLog ia)) (l1 ++ l2)).
  { apply Forall_forall. intros k Hk. apply Mem in Hk as [Hk Nk]. rewrite lookup_delete_ne by congruence. rewrite Forall_forall in Ow. auto. }
  assert (La' : last (l1 ++ l2) = Some (ia_cur x)).
  { rewrite <- La. destruct l2 as [|n l2]; [contradiction|]. now rewrite !last_app_cons. }
  assert (Rs' : forall r, ia_reserved x = Some r -> delete h own !! r = Some (ORes ia)).
  { intros r Er. rewrite lookup_delete_ne; [auto|]. intros <-. specialize (Rs _ Er). congruence. }
  destruct (last l1) as [p|] eqn:Ep.
  - exists x. split; [exact Hx|]. apply last_Some in Ep as [l0 ->]. constructor; try assumption.
    rewrite <- app_assoc in Ch |- *. cbn [app] in Ch |- *. apply (chain_unlink (seg_next s) _ _ _ p h l2 _ Ch).
    + unfold seg_next. cbn. now rewrite kseg_put_eq.
    + intros y Hy. symmetry. apply unlink_next. intros [= <-]. rewrite <- app_assoc in Nd'. cbn in Nd'.
      apply NoDup_app in Nd' as (_ & D & N2). apply NoDup_cons in N2 as [N2 _].
      apply elem_of_app in Hy as [Hy|Hy]; [apply (D p Hy); left|contradiction].
  - apply last_None in Ep as ->. cbn [app unlink] in *. eexists. split; [apply lookup_insert_eq|].
    rewrite (kia_some s ia x Hx). apply chain_cons_inv in Ch as [_ Ch]. now constructor.
Qed.

(** Other chains do not see the change. *)
Lemma chain_unlink_other s (own : gmap Z owner) ia h prev q l o : (forall p, prev = Some p -> own !! p = Some (OLog ia)) -> o <> OLog ia ->
  Forall (fun k => own !! k = Some o) l -> chain (seg_next s) q l None -> chain (seg_next (unlink s ia h prev)) q l None.
Proof.
  intros Op No F. apply chain_ext. intros y Hy. rewrite Forall_forall in F. specialize (F y Hy).
  symmetry. apply unlink_next. intros E. specialize (Op y E). congruence.
Qed.

Lemma inv_unlink s own free live ia x l1 h l2 : ial_inv s own free live -> kv_ias s !! ia = Some x ->
  log_ok s own ia x (l1 ++ h :: l2) -> l2 <> [] -> live_in live h = 0 ->
  ial_inv (unlink s ia h (last l1)) (delete h own) free live.
Proof.
  intros I Hx Hl Ne Lz. destruct (log_unlink s own ia x l1 h l2 Hx Hl Ne) as (x' & Hx' & Hl').
  pose proof (lo_own _ _ _ _ _ Hl) as Ow. rewrite Forall_forall in Ow.
  assert (Oh : own !! h = Some (OLog ia)) by (apply Ow, elem_of_app; right; left).
  assert (Op : forall p, last l1 = Some p -> own !! p = Some (OLog ia)).
  { intros p Ep. apply Ow, elem_of_app. left. now apply last_in. }
  assert (K : forall k o, own !! k = Some o -> o <> OLog ia -> delete h own !! k = Some o).
  { intros k o Ok N. rewrite lookup_delete_ne by congruence. exact Ok. }
  set (s' := unlink s ia h (last l1)) in *.
  assert (V : forall k, seg_view (kseg s' k) = seg_view (kseg s k)) by (intros k; apply unlink_view).
  assert (Kn : forall k, is_Some (kv_segs s' !! k) <-> is_Some (kv_segs s !! k)).
  { intros k. unfold s'. destruct (last l1) as [p|]; [|reflexivity]. cbn. rewrite lookup_insert_is_Some'.
    split; [intros [<-|E]; [|exact E]|auto]. apply (owned_known s own free live); eauto. }
  assert (Other : forall ja, ja <> ia -> kv_ias s' !! ja = kv_ias s !! ja).
  { intros ja N. unfold s'. destruct (last l1); [reflexivity|]. cbn. now rewrite lookup_insert_ne. }
  assert (Hd : kv_seg_headers s' = kv_seg_headers s) by (unfold s'; now destruct (last l1)).
  assert (Al : kv_seg_alloced s' = kv_seg_alloced s) by (unfold s'; now destruct (last l1)).
  assert (Fs : kv_free_segments s' = kv_free_segments s) by (unfold s'; now destruct (last l1)).
  assert (Nl : Forall (fun e => e.1 <> h) live).
  { apply live_in_none; [|exact Lz]. eapply Forall_impl; [exact (ii_live _ _ _ _ I)|]. intros e (P & _). exact P. }
  destruct I. constructor; rewrite ?Hd, ?Al, ?Fs; try assumption.
  - intros i k Hk. apply (header_view s); [exact Al| |apply V|auto]. apply Kn, (ho_known _ _ _ (ii_header i k Hk)).
  - intros k Kk. apply ii_known, Kn, Kk.
  - intros k [o Ok]. apply delete_lookup in Ok as [_ Ok]. eauto.
  - destruct ii_free as (C & Nd & Fo). split_and!; [apply (chain_unlink_other s own ia h _ _ _ OFree); auto; discriminate|exact Nd|].
    eapply Forall_impl; [exact Fo|]. intros k Ok. apply K; [exact Ok|discriminate].
  - intros ja y Hy. destruct (Z.eq_dec ja ia) as [->|N]; [rewrite Hx' in Hy; injection Hy as <-; now exists (l1 ++ l2)|].
    rewrite Other in Hy by exact N. destruct (ii_logs ja y Hy) as [l []]. exists l. constructor; auto.
    + apply (chain_unlink_other s own ia h _ _ _ (OLog ja)); auto. congruence.
    + eapply Forall_impl; [exact lo_own|]. intros k Ok. apply K; [exact Ok|congruence].
  - intros k ja Ok. apply delete_lookup in Ok as [_ Ok]. pose proof (V k) as [= _ _ Vo Vf]. rewrite Vo, Vf. eauto.
  - intros k ja Ok. apply delete_lookup in Ok as [_ Ok]. pose proof (V k) as [= _ _ Vo Vf]. rewrite Vo, Vf. eauto.
  - rewrite Forall_forall in Nl, ii_live |- *. intros e He. apply (live_view s s' own); [apply V| |auto].
    intros ja Oe. exists ja. rewrite lookup_delete_ne; [exact Oe|]. intros ->. now apply (Nl e He).
Qed.

(** ** The pass over the log *)

Lemma full_segment_dead s own free live h ia : ial_inv s own free live -> own !! h = Some (OLog ia) ->
  sh_freed (kseg s h) = sh_size (kseg s h) -> live_in live h = 0.
Proof.
  intros I Oh E. destruct (ii_own _ _ _ _ I h) as [i Hi]; [eauto|]. destruct (ii_header _ _ _ _ I i h Hi) as [_ _ _ Sz O _].
  pose proof (ii_log _ _ _ _ I h ia Oh).
  assert (0 <= live_in live h); [|lia].
  apply live_in_nonneg. eapply Forall_impl; [exact (ii_live _ _ _ _ I)|]. intros e (P & _). lia.
Qed.

Lemma inv_release s own free live ia x l1 h l2 : ial_inv s own free live -> kv_ias s !! ia = Some x ->
  log_ok s own ia x (l1 ++ h :: l2) -> l2 <> [] -> sh_freed (kseg s h) = sh_size (kseg s h) ->
  let s' := segment_free (unlink s ia h (last l1)) h in
  exists own' x', ial_inv s' own' (h :: free) live /\ kv_ias s' !! ia = Some x' /\ log_ok s' own' ia x' (l1 ++ l2).
Proof.
  intros I Hx Hl Ne E s'. pose proof (lo_own _ _ _ _ _ Hl) as Ow. rewrite Forall_forall in Ow.
  assert (Oh : own !! h = Some (OLog ia)) by (apply Ow, elem_of_app; right; left).
  destruct (ii_own _ _ _ _ I h) as [i Hi]; [eauto|].
  pose proof (inv_unlink s own free live ia x l1 h l2 I Hx Hl Ne (full_segment_dead _ _ _ _ _ _ I Oh E)) as I1.
  destruct (log_unlink s own ia x l1 h l2 Hx Hl Ne) as (x' & Hx' & Hl').
  assert (Dh : delete h own !! h = None) by apply lookup_delete_eq.
  exists (<[h := OFree]> (delete h own)), x'. split_and!; [|exact Hx'|exact (log_ok_push _ _ _ _ _ _ Hl' Dh)].
  apply (inv_push _ _ _ _ i); [exact I1|exact Dh|]. destruct (last l1); exact Hi.
Qed.

Definition known_cand (s : kv) (cand : option (Z * (Z * Z))) : Prop :=
  forall c, option_map fst cand = Some c -> is_Some (kv_segs s !! c).

Lemma known_release s ia h prev k : is_Some (kv_segs s !! k) -> is_Some (kv_segs (segment_free (unlink s ia h prev) h) !! k).
Proof. intros K. destruct prev; cbn; rewrite !lookup_insert_is_Some'; auto. Qed.

(** The pass ends: it visits every segment of the log once. *)
Lemma inv_free_pass ia l2 : forall fuel s own free live x l1 cand, ial_inv s own free live -> kv_ias s !! ia = Some x ->
  log_ok s own ia x (l1 ++ l2) -> (length l2 < fuel)%nat -> known_cand s cand ->
  exists s' cand' own' free', free_pass fuel s ia (head l2) (last l1) cand = Ok (s', cand') /\
    ial_inv s' own' free' live /\ is_Some (kv_ias s' !! ia) /\ known_cand s' cand'.
Proof.
  induction l2 as [|h l2 IH]; intros fuel s own free live x l1 cand I Hx Hl Len Kc; destruct fuel as [|fuel]; try (cbn in Len; lia).
  - eexists _, _, own, free. split_and!; [reflexivity|exact I|eauto|exact Kc].
  - cbn [head free_pass].
    assert (Ex : exists s' cand' own' free', Ok (s, cand) = Ok (s', cand') /\ ial_inv s' own' free' live /\ is_Some (kv_ias s' !! ia) /\
      known_cand s' cand') by (eexists _, _, own, free; split_and!; [reflexivity|exact I|eauto|exact Kc]).
    pose proof (lo_chain _ _ _ _ _ Hl) as C. apply chain_app in C as (m & _ & C). apply chain_cons_inv in C as [_ C].
    unfold seg_next in C. destruct (sh_next (kseg s h)) as [n|] eqn:En; [|exact Ex].
    destruct l2 as [|n' l2]; [now apply chain_nil_inv in C|]. apply chain_cons_inv in C as [[= <-] _].
    destruct (negb _); [exact Ex|]. destruct (Z.eqb_spec (sh_freed (kseg s h)) (sh_size (kseg s h))) as [F|F].
    + destruct (inv_release s own free live ia x l1 h (n :: l2) I Hx Hl ltac:(discriminate) F) as (own' & x' & I' & Hx' & Hl').
      unfold unlink in I', Hx', Hl'. rewrite En in I', Hx', Hl'.
      apply (IH fuel _ own' (h :: free) live x' l1 cand I' Hx' Hl'); [cbn in *; lia|].
      intros c Ec. pose proof (known_release s ia h (last l1) c (Kc c Ec)) as Kr. unfold unlink in Kr. now rewrite En in Kr.
    + specialize (IH fuel s own free live x (l1 ++ [h])). rewrite last_snoc in IH. apply IH; auto; [now rewrite <- app_assoc|cbn in *; lia|].
      destruct (_ && _); [|exact Kc]. intros c [= <-]. apply (owned_known s own free live _ I).
      pose proof (lo_own _ _ _ _ _ Hl) as Ow. rewrite Forall_forall in Ow. eexists. apply Ow, elem_of_app. right. left.
Qed.
End Clean.
