(* ===== verification/FkAllocSystem.v ===== *)
(** The allocator of the key-value store as a system: any sequence of its
    operations, by any number of workers and the maintenance thread, each
    operation taken as one step. *)
From stdpp Require Import base numbers list gmap relations.
From Stdlib Require Import ZArith Lia.
From S2P Require Import Prelude LinkedList PacketMem FkAlloc FkAllocSafe FkAllocOps.

(** The lengths of an item have the width of their fields. *)
Definition items_ok (m : gmap Z item) : Prop := forall i x, m !! i = Some x -> is_u32 (it_vallen x) /\ is_u16 (it_keylen x).

Section System.
Context `{KvEnv}.

Definition kv_init : kv := mk_kv ∅ ∅ None ∅ 0 ∅ ∅.
Definition new_header (s : kv) (p : option Z) : Prop := forall h, p = Some h -> kv_segs s !! h = None.

(** Both loops of [ialloc_maintenance] end within this many rounds. *)
Definition maintenance_fuel : Z := segmaxnum + segsize + 2.

(** The bytes handed out are the second component. *)
Inductive alloc_step : kv * list block -> kv * list block -> Prop :=
| as_init s live ia p q s' : new_header s p -> new_header s q -> (forall h, p = Some h -> q <> Some h) ->
    ialloc_init_allocator s ia p q = Ok s' -> alloc_step (s, live) (s', live)
| as_alloc s live ia total cleanup p s' r : is_Some (kv_ias s !! ia) -> new_header s p -> SZ_ITEM <= total ->
    ialloc_alloc s ia total cleanup p = Ok (s', r) ->
    alloc_step (s, live) (s', match r with Some it => mk_block it total :: live | None => live end)
| as_free s l1 b l2 s' : ialloc_free s (pm_base b) (pm_len b) = Ok s' -> alloc_step (s, l1 ++ b :: l2) (s', l1 ++ l2)
| as_cleanup s live ia idle p s' r : is_Some (kv_ias s !! ia) -> new_header s p ->
    ialloc_cleanup_item s ia idle p = (s', r) -> alloc_step (s, live) (s', live)
| as_nextrequest s live ia : is_Some (kv_ias s !! ia) -> alloc_step (s, live) (ialloc_cleanup_nextrequest s ia, live)
| as_maintenance s live ia fuel s' : is_Some (kv_ias s !! ia) -> items_ok (kv_items s) -> 0 <= ia_clean_offset (kia s ia) ->
    maintenance_fuel <= Z.of_nat fuel -> ialloc_maintenance fuel s ia = Ok s' -> alloc_step (s, live) (s', live)
| as_client s live m t : items_ok m -> alloc_step (s, live) (s <| kv_items := m |> <| kv_buckets := t |>, live).

Context (Size : 0 < segsize < 4294967296) (Num : 0 <= segmaxnum) (Base : 0 <= seg_base)
        (Top : seg_base + segsize * segmaxnum < 18446744073709551616).

(** The invariant, its ghost state hidden. *)
Definition alloc_ok (s : kv) (live : list block) : Prop :=
  exists own free es, ial_inv s own free es /\ map snd es = live.

Lemma alloc_ok_intro s own free es : ial_inv s own free es -> alloc_ok s (map snd es).
Proof. intros I. now exists own, free, es. Qed.

Lemma alloc_ok_init : alloc_ok kv_init [].
Proof.
  exists ∅, [], []. split; [|reflexivity]. constructor; cbn; try (intros *; rewrite lookup_empty; discriminate).
  - lia.
  - intros h. rewrite lookup_empty. intros [? [=]].
  - intros h. rewrite lookup_empty. intros [? [=]].
  - split_and!; constructor.
  - constructor.
  - lia.
Qed.

Lemma ok_alloc s live ia total cleanup p : alloc_ok s live -> is_Some (kv_ias s !! ia) -> new_header s p -> SZ_ITEM <= total < segsize ->
  exists s' r, ialloc_alloc s ia total cleanup p = Ok (s', r) /\ items_kept s s' live /\
    (forall ja, is_Some (kv_ias s' !! ja) <-> is_Some (kv_ias s !! ja)) /\
    match r with
    | Some it => it_refcount (kitem s' it) = 1 /\ alloc_ok s' (mk_block it total :: live) /\ forall a, it <= a < it + total -> owners live a = 0
    | None => alloc_ok s' live
    end.
Proof.
  intros (own & free & es & I & <-) Hx Fr T.
  destruct (inv_alloc Size Num Base Top s own free es ia total cleanup p I Hx Fr T) as (s' & r & E & Ia & K & R).
  exists s', r. split; [exact E|]. split; [exact K|]. split; [exact Ia|]. destruct r as [it|].
  - destruct R as (Rc & own' & free' & h & I' & D). split; [exact Rc|]. split; [exact (alloc_ok_intro _ _ _ _ I')|exact D].
  - destruct R as (own' & free' & I'). exact (alloc_ok_intro _ _ _ _ I').
Qed.

Lemma ok_free s l1 b l2 : alloc_ok s (l1 ++ b :: l2) ->
  exists s', ialloc_free s (pm_base b) (pm_len b) = Ok s' /\ alloc_ok s' (l1 ++ l2).
Proof.
  intros (own & free & es & I & E). apply map_eq_app in E as (e1 & e2 & -> & <- & E).
  destruct e2 as [|[h b'] e2]; [discriminate|]. cbn in E. injection E as -> <-.
  destruct (inv_free Size Num Base Top s own free e1 h b e2 I) as (s' & Ef & I'). exists s'. split; [exact Ef|].
  rewrite <- map_app. exact (alloc_ok_intro _ _ _ _ I').
Qed.

(** ** A new allocator *)

Lemma inv_touch s own free live h : ial_inv s own free live -> unowned s own h ->
  let s' := put_seg s h (kseg s h <| sh_next := None |>) in ial_inv s' own free live /\ unowned s' own h.
Proof.
  intros I (Oh & [i Hi] & O0 & F0) s'.
  assert (V : forall k, seg_view (kseg s' k) = seg_view (kseg s k)) by (intros k; unfold s'; rewrite kseg_put; case_decide; now subst).
  assert (Ch : forall q l o, Forall (fun k => own !! k = Some o) l -> chain (seg_next s) q l None -> chain (seg_next s') q l None).
  { intros q l o F. apply chain_ext. intros y Hy. rewrite Forall_forall in F. specialize (F y Hy).
    unfold seg_next, s'. now rewrite kseg_put_ne by congruence. }
  split; [|split_and!; [exact Oh|exists i; exact Hi|unfold s'; rewrite kseg_put_eq; assumption..]].
  pose proof (ho_known _ _ _ (ii_header _ _ _ _ I i h Hi)) as Kn. destruct I. constructor; try assumption.
  - intros j k Hj. apply (header_view s); [reflexivity|apply known_put, (ho_known _ _ _ (ii_header j k Hj))|apply V|auto].
  - intros k. cbn. rewrite lookup_insert_is_Some'. intros [<-|K]; auto.
  - destruct ii_free as (C & Nd & Fo). split_and!; [exact (Ch _ _ _ Fo C)|exact Nd|exact Fo].
  - intros ia x Hx. destruct (ii_logs ia x Hx) as [l []]. exists l. constructor; auto. exact (Ch _ _ _ lo_own lo_chain).
  - intros k ia Ok. pose proof (V k) as [= _ _ Vo Vf]. rewrite Vo, Vf. eauto.
  - intros k ia Ok. pose proof (V k) as [= _ _ Vo Vf]. rewrite Vo, Vf. eauto.
  - eapply Forall_impl; [exact ii_live|]. intros e. apply live_view; [apply V|eauto].
Qed.

Lemma inv_claim s own free live h ia : ial_inv s own free live -> unowned s own h -> ial_inv s (<[h := OLog ia]> own) free live.
Proof.
  intros I (Oh & Hh & O0 & F0). pose proof (unowned_dead _ _ _ _ _ I Oh) as Lz.
  assert (K : forall k o, own !! k = Some o -> <[h := OLog ia]> own !! k = Some o).
  { intros k o Ok. rewrite lookup_insert_ne; [exact Ok|congruence]. }
  destruct I. constructor; try assumption.
  - intros k. rewrite lookup_insert_is_Some'. intros [<-|E]; auto.
  - destruct ii_free as (C & Nd & Fo). split_and!; auto. eapply Forall_impl; [exact Fo|]. auto.
  - intros ja x Hx. destruct (ii_logs ja x Hx) as [l []]. exists l. constructor; auto. eapply Forall_impl; [exact lo_own|]. auto.
  - intros k ja. rewrite lookup_insert. case_decide; [subst; intros _; lia|apply ii_log].
  - intros k ja. rewrite lookup_insert. case_decide; [discriminate|apply ii_res].
  - eapply Forall_impl; [exact ii_live|]. intros e (P & (ja & Oe) & B). split_and!; [exact P|eauto|apply B..].
Qed.

Lemma segment_alloc_kseg s p s' r k : segment_alloc s p = (s', r) -> r <> Some k -> kseg s' k = kseg s k.
Proof.
  intros E N. unfold segment_alloc in E. cbv zeta in E.
  repeat case_match; injection E as <- <-; try reflexivity; unfold kseg; cbn; rewrite ?lookup_total_insert_ne by congruence; reflexivity.
Qed.

Lemma segment_alloc_new s own free live p s' r k : ial_inv s own free live -> segment_alloc s p = (s', r) ->
  kv_segs s !! k = None -> p <> Some k -> kv_segs s' !! k = None /\ r <> Some k.
Proof.
  intros I E N Np. unfold segment_alloc in E. cbv zeta in E.
  destruct (kv_free_segments s) as [h|] eqn:Hf.
  - assert (Nh : h <> k); [intros ->|injection E as <- <-; cbn; rewrite lookup_insert_ne by exact Nh; split; congruence].
    destruct (ii_free _ _ _ _ I) as (C & _ & Fo). rewrite Hf in C. inversion C; subst. apply Forall_cons in Fo as [Fo _].
    destruct (owned_known s own _ live k I) as [? K]; [eauto|]. congruence.
  - repeat case_match; injection E as <- <-; try (now split). cbn. rewrite !lookup_insert_ne by congruence. split; congruence.
Qed.

Lemma alloc_touch s own free live p s' h : ial_inv s own free live -> new_header s p -> segment_alloc s p = (s', Some h) ->
  let s2 := put_seg s' h (kseg s' h <| sh_next := None |>) in
  exists own' free', ial_inv s2 own' free' live /\ unowned s2 own' h /\ seg_next s2 h = None /\
    (forall k o, own !! k = Some o -> o <> OFree -> own' !! k = Some o) /\ (forall k, k <> h -> kseg s2 k = kseg s k).
Proof.
  intros I Fr E s2. destruct (inv_segment_alloc Size Num Base Top s own free live p s' _ I Fr E) as (_ & own' & free' & I' & U & K).
  destruct (inv_touch s' own' free' live h I' U) as [I2 U2]. exists own', free'. split_and!; [exact I2|exact U2| |exact K|].
  - unfold seg_next, s2. now rewrite kseg_put_eq.
  - intros k N. unfold s2. rewrite kseg_put_ne by exact N. apply (segment_alloc_kseg s p s' _ k E). congruence.
Qed.

Lemma ok_init s live ia p q s' : alloc_ok s live -> new_header s p -> new_header s q -> (forall h, p = Some h -> q <> Some h) ->
  ialloc_init_allocator s ia p q = Ok s' -> alloc_ok s' live.
Proof.
  intros (own & free & es & I & <-) Fp Fq D E. unfold ialloc_init_allocator in E.
  destruct (segment_alloc s p) as [s1 [h|]] eqn:E1; [|discriminate].
  destruct (alloc_touch s own free es p s1 h I Fp E1) as (own1 & free1 & I1 & U1 & N1 & _ & _).
  set (s1' := put_seg s1 h (kseg s1 h <| sh_next := None |>)) in *.
  pose proof (inv_claim _ _ _ _ h ia I1 U1) as I2.
  destruct (segment_alloc s1' q) as [s2 [g|]] eqn:E2; [|discriminate]. injection E as <-.
  assert (Fq' : new_header s1' q).
  { intros k Ek. unfold s1'. cbn.
    destruct (segment_alloc_new s own free es p s1 _ k I E1 (Fq k Ek)) as [Kn Nk]; [intros Ep; exact (D k Ep Ek)|].
    rewrite lookup_insert_ne by congruence. exact Kn. }
  destruct (alloc_touch s1' _ free1 es q s2 g I2 Fq' E2) as (own2 & free2 & I3 & U3 & N3 & K3 & S3).
  assert (Oh : own2 !! h = Some (OLog ia)) by (apply K3; [apply lookup_insert_eq|discriminate]).
  assert (Nhg : h <> g) by (intros ->; destruct U3 as [U3 _]; congruence).
  apply (alloc_ok_intro _ (<[g := ORes ia]> own2) free2), (inv_put_ia Size _ own2 _ free2 es ia _ [h]); [exact I3|..].
  - constructor; cbn.
    + constructor. unfold seg_next. rewrite S3 by exact Nhg. unfold seg_next in N1. rewrite N1. constructor.
    + reflexivity.
    + constructor; [|constructor]. now rewrite lookup_insert_ne by congruence.
    + apply NoDup_singleton.
    + intros k [= <-]. apply lookup_insert_eq.
  - intros k o Ok N. rewrite lookup_insert_ne; [exact Ok|]. intros <-. destruct U3 as [U3 _]. congruence.
  - intros k o. rewrite lookup_insert. case_decide; [|auto]. intros [= <-]. subst k. right. now split.
Qed.

(** ** Cleaning *)

Lemma ok_keep s live ia y : alloc_ok s live -> ia_oldest y = ia_oldest (kia s ia) -> ia_cur y = ia_cur (kia s ia) ->
  ia_reserved y = ia_reserved (kia s ia) -> is_Some (kv_ias s !! ia) -> alloc_ok (put_ia s ia y) live.
Proof.
  intros (own & free & es & I & <-) Eo Ec Er Hx. apply (alloc_ok_intro _ own free). now apply inv_ia_keep.
Qed.

Lemma known_put_ia s ia y ja : is_Some (kv_ias s !! ja) -> is_Some (kv_ias (put_ia s ia y) !! ja).
Proof. intros K. cbn. rewrite lookup_insert_is_Some'. auto. Qed.

Lemma kia_put s ia y : kia (put_ia s ia y) ia = y.
Proof. unfold kia. cbn. now rewrite lookup_total_insert_eq. Qed.

Lemma ok_reserve s live ia p s' r : alloc_ok s live -> is_Some (kv_ias s !! ia) -> ia_reserved (kia s ia) = None -> new_header s p ->
  segment_alloc s p = (s', r) -> alloc_ok (put_ia s' ia (kia s' ia <| ia_reserved := r |>)) live.
Proof.
  intros (own & free & es & I & <-) Hx Er Fr E.
  destruct (inv_segment_alloc Size Num Base Top s own free es p s' r I Fr E) as [Ei R].
  assert (Ek : kia s' ia = kia s ia) by (unfold kia; now rewrite Ei).
  destruct r as [h|].
  - destruct R as (own' & free' & I' & U & _). eapply alloc_ok_intro, inv_reserve; eauto; [now rewrite Ei|now rewrite Ek].
  - apply (alloc_ok_intro _ own free), inv_ia_keep; auto; [cbn; now rewrite Ek|now rewrite Ei].
Qed.

Lemma ok_cleanup s live ia idle p s' r : alloc_ok s live -> is_Some (kv_ias s !! ia) -> new_header s p ->
  ialloc_cleanup_item s ia idle p = (s', r) -> alloc_ok s' live.
Proof.
  intros Ok Hx Fr E. unfold ialloc_cleanup_item in E. destruct (negb idle && _); [now injection E as <- _|].
  set (s1 := if idle then s else _) in E.
  assert (A1 : alloc_ok s1 live /\ is_Some (kv_ias s1 !! ia) /\ new_header s1 p /\ kv_segs s1 = kv_segs s).
  { unfold s1. destruct idle; [auto|]. split_and!; [apply ok_keep; auto|apply known_put_ia, Hx|exact Fr|reflexivity]. }
  destruct A1 as (A1 & Hx1 & Fr1 & _). cbv zeta in E. set (i := ia_cq_head (kia s1 ia)) in E.
  set (s2 := match ia_cleanup_queue (kia s1 ia) !! i with Some _ => _ | None => s1 end) in E.
  assert (A2 : alloc_ok s2 live /\ is_Some (kv_ias s2 !! ia) /\ new_header s2 p).
  { unfold s2. destruct (_ !! i); [|auto]. split_and!; [apply ok_keep; auto|apply known_put_ia, Hx1|exact Fr1]. }
  destruct A2 as (A2 & Hx2 & Fr2). destruct (ia_reserved (kia s2 ia)) as [h|] eqn:Er; [now injection E as <- _|].
  destruct (segment_alloc s2 p) as [s3 h] eqn:Ea. injection E as <- _. exact (ok_reserve s2 live ia p s3 h A2 Hx2 Er Fr2 Ea).
Qed.

Lemma ok_items s live m : alloc_ok s live -> alloc_ok (s <| kv_items := m |>) live.
Proof. intros (own & free & es & I & <-). apply (alloc_ok_intro _ own free), inv_items, I. Qed.

Lemma ok_buckets s live t : alloc_ok s live -> alloc_ok (s <| kv_buckets := t |>) live.
Proof.
  intros (own & free & es & [] & <-). apply (alloc_ok_intro _ own free). constructor; try assumption.
  - intros i h Hi. destruct (ii_header i h Hi). now constructor.
  - intros ia x Hx. destruct (ii_logs ia x Hx) as [l []]. exists l. now constructor.
Qed.

Lemma item_sizes s it : items_ok (kv_items s) -> is_u32 (it_vallen (kitem s it)) /\ is_u16 (it_keylen (kitem s it)).
Proof.
  intros T. unfold kitem. destruct (kv_items s !! it) as [x|] eqn:E.
  - rewrite (lookup_total_correct _ _ _ E). eauto.
  - rewrite lookup_total_alt, E. cbn. unfold is_u32, is_u16. lia.
Qed.

Lemma tryref_sizes s it : items_ok (kv_items s) -> items_ok (kv_items (item_tryref s it).1).
Proof.
  intros T. unfold item_tryref. destruct (_ =? 0); [exact T|]. cbn. intros i x. rewrite lookup_insert. case_decide; [|apply T].
  intros [= <-]. cbn. now apply item_sizes.
Qed.

(** The scan ends: every item it passes takes at least [SZ_ITEM] bytes. *)
Lemma ok_scan ia data size fuel : forall s live off idx, alloc_ok s live -> is_Some (kv_ias s !! ia) -> items_ok (kv_items s) ->
  size - off < SZ_ITEM * (Z.of_nat fuel - 1) -> (0 < fuel)%nat ->
  exists s' idx' off', scan_pass fuel s ia data size off idx = Ok (s', idx', off') /\ alloc_ok s' live /\ is_Some (kv_ias s' !! ia).
Proof.
  unfold SZ_ITEM. induction fuel as [|fuel IH]; intros s live off idx A Hx T L Pf; [lia|]. cbn [scan_pass].
  destruct (Z.leb_spec size off) as [Lo|Lo]; [eexists _, _, _; cbn; split_and!; [reflexivity|exact A|exact Hx]|].
  destruct (bool_decide _); [eexists _, _, _; cbn; split_and!; [reflexivity|exact A|exact Hx]|]. cbn [orb].
  unfold SZ_ITEM. destruct (Z.ltb_spec (size - off) 24); [eexists _, _, _; split_and!; [reflexivity|exact A|exact Hx]|].
  cbv zeta. pose proof (tryref_sizes s (u64 (data + off)) T) as T1. destruct (item_tryref s (u64 (data + off))) as [s1 got] eqn:E1.
  assert (A1 : alloc_ok s1 live /\ is_Some (kv_ias s1 !! ia)).
  { unfold item_tryref in E1. destruct (_ =? 0); injection E1 as <- _; [auto|]. split; [apply ok_items, A|exact Hx]. }
  destruct A1 as [A1 Hx1]. cbn in T1.
  assert (Go : forall s2 idx2, alloc_ok s2 live -> is_Some (kv_ias s2 !! ia) -> items_ok (kv_items s2) ->
    exists s' idx' off', scan_pass fuel s2 ia data size (off + item_totalsz (kitem s2 (u64 (data + off)))) idx2 = Ok (s', idx', off') /\
      alloc_ok s' live /\ is_Some (kv_ias s' !! ia)).
  { intros s2 idx2 A2 Hx2 T2. pose proof (item_sizes s2 (u64 (data + off)) T2) as [V K]. unfold is_u32, is_u16 in V, K.
    apply IH; auto; unfold item_totalsz, SZ_ITEM; lia. }
  destruct got; cbv zeta; apply Go; auto; [now apply ok_keep|apply known_put_ia, Hx1].
Qed.

Lemma log_length s own free es ia x l : ial_inv s own free es -> log_ok s own ia x l -> Z.of_nat (length l) <= segmaxnum.
Proof.
  intros I Hl. pose proof (lo_own _ _ _ _ _ Hl) as Ow. pose proof (lo_nodup _ _ _ _ _ Hl) as Nd. clear Hl.
  pose proof (ii_alloced _ _ _ _ I) as A. transitivity (kv_seg_alloced s); [|lia].
  assert (E : exists js, Forall2 (fun h i => kv_seg_headers s !! i = Some h) l js).
  { clear Nd. induction Ow as [|h l Oh Ow [js F]]; [exists []; constructor|].
    destruct (ii_own _ _ _ _ I h) as [i Hi]; [eauto|]. exists (i :: js). now constructor. }
  destruct E as [js F]. rewrite (Forall2_length _ _ _ F), <- (Z2Nat.id (kv_seg_alloced s)), <- length_seqZ with (m := 0) by lia.
  apply inj_le, submseteq_length, NoDup_submseteq.
  - clear Ow. induction F as [|h i l js Hi F IH]; [constructor|]. apply NoDup_cons in Nd as [N Nd]. constructor; [|auto].
    intros Hin. apply list_elem_of_lookup in Hin as [k Hk]. destruct (Forall2_lookup_r _ _ _ _ _ F Hk) as (h' & Hh & Hi').
    apply N, list_elem_of_lookup. exists k. congruence.
  - intros i Hin. apply list_elem_of_lookup in Hin as [k Hk]. destruct (Forall2_lookup_r _ _ _ _ _ F Hk) as (h & _ & Hi).
    pose proof (ho_index _ _ _ (ii_header _ _ _ _ I i h Hi)). apply elem_of_seqZ. lia.
Qed.

Lemma seg_size_le s own free es h : ial_inv s own free es -> sh_size (kseg s h) <= segsize.
Proof.
  intros I. destruct (kv_segs s !! h) eqn:E.
  - destruct (ii_known _ _ _ _ I h) as [i Hi]; [eauto|]. pose proof (ho_size _ _ _ (ii_header _ _ _ _ I i h Hi)). lia.
  - unfold kseg. rewrite lookup_total_alt, E. cbn. lia.
Qed.

Lemma free_pass_frame ia fuel : forall s h prev cand s' c, free_pass fuel s ia h prev cand = Ok (s', c) ->
  kv_items s' = kv_items s /\ ia_clean_offset (kia s' ia) = ia_clean_offset (kia s ia).
Proof.
  induction fuel as [|fuel IH]; intros s h prev cand s' c E; [discriminate|]. cbn [free_pass] in E.
  destruct h as [h|]; [|injection E as <- _; auto]. destruct (sh_next (kseg s h)) as [n|]; [|injection E as <- _; auto].
  destruct (negb _); [injection E as <- _; auto|]. destruct (_ =? _).
  - apply IH in E as [-> ->]. destruct prev; split; try reflexivity. exact (f_equal ia_clean_offset (kia_put s ia _)).
  - apply IH in E as [-> ->]. auto.
Qed.

(** Setting flags. *)
Lemma ok_flags s live h f : alloc_ok s live -> is_Some (kv_segs s !! h) -> alloc_ok (put_seg s h (kseg s h <| sh_flags := f |>)) live.
Proof.
  intros (own & free & es & I & <-) Kn. apply (alloc_ok_intro _ own free). set (s' := put_seg s h _).
  assert (V : forall k, seg_view (kseg s' k) = seg_view (kseg s k)) by (intros k; unfold s'; rewrite kseg_put; case_decide; now subst).
  assert (Ch : forall q l, chain (seg_next s) q l None -> chain (seg_next s') q l None) by (intros q l; now apply chain_put).
  destruct I. constructor; try assumption.
  - intros j k Hj. apply (header_view s); [reflexivity|apply known_put, (ho_known _ _ _ (ii_header j k Hj))|apply V|auto].
  - intros k. cbn. rewrite lookup_insert_is_Some'. intros [<-|K]; auto.
  - destruct ii_free as (C & F). split; [exact (Ch _ _ C)|exact F].
  - intros ia x Hx. destruct (ii_logs ia x Hx) as [l Hl]. exists l. now apply log_ok_put.
  - intros k ia Ok. pose proof (V k) as [= _ _ Vo Vf]. rewrite Vo, Vf. eauto.
  - intros k ia Ok. pose proof (V k) as [= _ _ Vo Vf]. rewrite Vo, Vf. eauto.
  - eapply Forall_impl; [exact ii_live|]. intros e. apply live_view; [apply V|eauto].
Qed.

Lemma ok_maintenance s live ia fuel : alloc_ok s live -> is_Some (kv_ias s !! ia) -> items_ok (kv_items s) ->
  0 <= ia_clean_offset (kia s ia) -> maintenance_fuel <= Z.of_nat fuel ->
  exists s', ialloc_maintenance fuel s ia = Ok s' /\ alloc_ok s' live.
Proof.
  intros (own & free & es & I & <-) [x Hx] T O L. unfold maintenance_fuel in L.
  destruct (ii_logs _ _ _ _ I ia x Hx) as [l Hl]. pose proof (log_length s own free es ia x l I Hl) as Len.
  assert (Ef : ia_oldest (kia s ia) = head l).
  { rewrite (kia_some s ia x Hx). pose proof (lo_chain _ _ _ _ _ Hl) as C. now inversion C. }
  unfold ialloc_maintenance. rewrite Ef.
  destruct (inv_free_pass Size ia l fuel s own free es x [] None I Hx Hl) as (s1 & cand & own1 & free1 & E1 & I1 & Hx1 & Kc);
    [lia|intros c [=]|].
  cbn [last] in E1. rewrite E1. cbn [obind]. destruct (free_pass_frame _ _ _ _ _ _ _ _ E1) as [Ei Eo].
  assert (Scan : forall s2 h off size, alloc_ok s2 (map snd es) -> is_Some (kv_ias s2 !! ia) -> items_ok (kv_items s2) ->
    0 <= off -> size <= segsize -> exists s',
    (let! (s3, idx, off3) := scan_pass fuel s2 ia (sh_data (kseg s2 h)) size off (ia_cq_tail (kia s2 ia)) in
     Ok (put_ia s3 ia (kia s3 ia <| ia_cq_tail := idx |> <| ia_clean_offset := off3 |>))) = Ok s' /\ alloc_ok s' (map snd es)).
  { intros s2 h off size A2 Hx2 T2 Oo Ls.
    destruct (ok_scan ia (sh_data (kseg s2 h)) size fuel s2 (map snd es) off (ia_cq_tail (kia s2 ia)) A2 Hx2 T2)
      as (s3 & idx & off3 & -> & A3 & Hx3); [unfold SZ_ITEM; lia|lia|].
    eexists. split; [reflexivity|]. now apply ok_keep. }
  cbv zeta. set (size := match ia_cleaning (kia s1 ia) with None => 0 | Some h => sh_size (kseg s1 h) end).
  assert (Ls : size <= segsize) by (unfold size; destruct (ia_cleaning _); [exact (seg_size_le _ _ _ _ _ I1)|lia]).
  pose proof (alloc_ok_intro _ _ _ _ I1) as A1.
  destruct (_ || _).
  - set (s2 := put_ia s1 ia _).
    assert (A2 : alloc_ok s2 (map snd es)) by now apply ok_keep.
    destruct cand as [[h rt]|]; cbn [option_map fst]; [|eexists; split; [reflexivity|exact A2]].
    apply Scan; [|apply known_put_ia, Hx1|cbn; now rewrite Ei|lia|exact Ls].
    apply ok_flags; [exact A2|]. apply (Kc h). reflexivity.
  - destruct (ia_cleaning (kia s1 ia)) as [h|]; [|eexists; split; [reflexivity|exact A1]].
    apply Scan; [exact A1|exact Hx1|now rewrite Ei|now rewrite Eo|exact Ls].
Qed.

Lemma step_ok x y : alloc_step x y -> alloc_ok x.1 x.2 -> alloc_ok y.1 y.2.
Proof.
  intros St A. destruct St as [s live ia p q s' Fp Fq D E|s live ia total cleanup p s' r Hx Fr T E|s l1 b l2 s' E
    |s live ia idle p s' r Hx Fr E|s live ia Hx|s live ia fuel s' Hx T O L E|s live m t T]; cbn [fst snd] in *.
  - exact (ok_init s live ia p q s' A Fp Fq D E).
  - destruct (Z_lt_dec total segsize) as [L|L].
    + destruct (ok_alloc s live ia total cleanup p A Hx Fr (conj T L)) as (s2 & r2 & E2 & _ & _ & R). rewrite E2 in E. injection E as <- <-.
      destruct r2; [apply R|exact R].
    + unfold ialloc_alloc in E. destruct (Z.ltb_spec total segsize); [contradiction|discriminate].
  - destruct (ok_free _ _ _ _ A) as (s2 & E2 & A'). congruence.
  - exact (ok_cleanup s live ia idle p s' r A Hx Fr E).
  - now apply ok_keep.
  - destruct (ok_maintenance s live ia fuel A Hx T O L) as (s2 & E2 & A'). congruence.
  - apply ok_buckets, ok_items, A.
Qed.

Lemma steps_ok x y : rtc alloc_step x y -> alloc_ok x.1 x.2 -> alloc_ok y.1 y.2.
Proof. induction 1 as [|x y z St _ IH]; [auto|]. intros A. apply IH. now apply (step_ok x y). Qed.

Lemma reachable_ok s live : rtc alloc_step (kv_init, []) (s, live) -> alloc_ok s live.
Proof. intros R. exact (steps_ok _ _ R alloc_ok_init). Qed.

(** Nothing live is in a segment of the free list. *)
Lemma free_segment_dead s live h l : alloc_ok s live -> chain (seg_next s) (kv_free_segments s) l None -> h ∈ l ->
  forall a, sh_data (kseg s h) <= a < sh_data (kseg s h) + segsize -> owners live a = 0.
Proof.
  intros (own & free & es & I & <-) C Hin a Ha. destruct (ii_free _ _ _ _ I) as (C' & _ & Fo).
  rewrite (chain_det _ _ _ _ C C') in Hin. rewrite Forall_forall in Fo. pose proof (Fo h Hin) as Oh.
  apply owners_none, Forall_map, Forall_forall. intros e He. cbn.
  pose proof (ii_live _ _ _ _ I) as L. rewrite Forall_forall in L. destruct (L e He) as (_ & (ia & Oe) & B1 & B2).
  destruct (ii_own _ _ _ _ I h) as [i Hi]; [eauto|]. destruct (ii_own _ _ _ _ I e.1) as [j Hj]; [eauto|].
  destruct (ii_header _ _ _ _ I i h Hi) as [_ _ D _ _ _]. destruct (ii_header _ _ _ _ I j e.1 Hj) as [_ _ D' _ O' _].
  destruct (in_block_cases e.2 a) as [[_ K]|[E _]]; [exfalso|exact E].
  destruct (Z.eq_dec i j) as [->|N]; [rewrite Hi in Hj; congruence|]. nia.
Qed.

(** C21. After any sequence of the allocator's operations, by any number of
    allocators, no byte belongs to two items that were handed out and not given
    back; no such item has a byte in a segment of the free list; an allocation
    of at least a header and less than a segment never aborts and its bytes
    were nobody's; giving back any item that is out succeeds; and the
    maintenance pass always ends. *)
Theorem allocator_safe s live : rtc alloc_step (kv_init, []) (s, live) ->
  (forall a, owners live a <= 1) /\
  (forall l h a, chain (seg_next s) (kv_free_segments s) l None -> h ∈ l ->
     sh_data (kseg s h) <= a < sh_data (kseg s h) + segsize -> owners live a = 0) /\
  (forall ia total cleanup p, is_Some (kv_ias s !! ia) -> new_header s p -> SZ_ITEM <= total < segsize ->
     exists s' r, ialloc_alloc s ia total cleanup p = Ok (s', r) /\
       forall it a, r = Some it -> it <= a < it + total -> owners live a = 0) /\
  (forall b, b ∈ live -> exists s', ialloc_free s (pm_base b) (pm_len b) = Ok s') /\
  (forall ia fuel, is_Some (kv_ias s !! ia) -> items_ok (kv_items s) -> 0 <= ia_clean_offset (kia s ia) ->
     maintenance_fuel <= Z.of_nat fuel -> exists s', ialloc_maintenance fuel s ia = Ok s').
Proof.
  intros R. apply reachable_ok in R as A. split_and!.
  - destruct A as (own & free & es & I & <-). apply (ii_apart _ _ _ _ I).
  - intros l h a C Hin. now apply (free_segment_dead s live h l).
  - intros ia total cleanup p Hx Fr T. destruct (ok_alloc s live ia total cleanup p A Hx Fr T) as (s' & r & E & _ & _ & Hr).
    exists s', r. split; [exact E|]. intros it a -> Ha. now apply Hr.
  - intros b Hb. apply list_elem_of_split in Hb as (l1 & l2 & ->). destruct (ok_free _ _ _ _ A) as (s' & E & _). now exists s'.
  - intros ia fuel Hx T O L. destruct (ok_maintenance s live ia fuel A Hx T O L) as (s' & E & _). now exists s'.
Qed.
End System.
