(* ===== verification/FkTable.v ===== *)
(** The hash table of the key-value store: flexkvs/server/hashtable.c, as a map
    from a hash and a key to an item.

    A bucket has five direct items; the items that do not fit hang off the
    fifth one, through [next].  Bucket and chain are read and changed with the
    bucket's lock held, so each call is one step. *)
From stdpp Require Import base numbers list gmap relations.
From Stdlib Require Import ZArith Lia.
From S2P Require Import Prelude LinkedList FkAlloc.

Definition nbuckets : Z := 32768.                      (* TABLESZ(HASHTABLE_POWER) *)
Definition hasht_init (s : kv) : kv := s <| kv_buckets := ∅ |>.

Definition bucket (s : kv) (hv : Z) : hash_bucket := kv_buckets s !!! (hv mod nbuckets).
Definition put_bucket (s : kv) (hv : Z) (b : hash_bucket) : kv := s <| kv_buckets := <[hv mod nbuckets := b]> (kv_buckets s) |>.
Definition bucket_item (b : hash_bucket) (i : nat) : option Z := nth i (hb_items b) None.

Definition item_key_matches (x : item) (key : list Z) : bool := (it_keylen x =? Z.of_nat (length key)) && bool_decide (item_key x = key).
Definition item_hkey_matches (x : item) (key : list Z) (hv : Z) : bool := (it_hv x =? hv) && item_key_matches x key.

(** The walk down the chain, from the node after [prev]: the last node before
    the match and the match. *)
Fixpoint chain_find (fuel : nat) (s : kv) (prev : Z) (key : list Z) (hv : Z) : outcome (Z * option Z) :=
  match fuel with
  | O => Spin
  | S fuel =>
      match it_next (kitem s prev) with
      | None => Ok (prev, None)
      | Some it => if item_hkey_matches (kitem s it) key hv then Ok (prev, Some it) else chain_find fuel s it key hv
      end
  end.

(** The first direct item that matches. *)
Fixpoint direct_find (s : kv) (b : hash_bucket) (l : list nat) (key : list Z) (hv : Z) : option Z :=
  match l with
  | [] => None
  | i :: l =>
      match bucket_item b i with
      | Some it =>
          if (nth i (hb_hashes b) 0 =? hv) && item_key_matches (kitem s it) key then Some it else direct_find s b l key hv
      | None => direct_find s b l key hv
      end
  end.

Section Table.
Context `{KvEnv}.

Definition hasht_get (fuel : nat) (s : kv) (key : list Z) (hv : Z) : outcome (kv * option Z) :=
  let b := bucket s hv in
  let! it := match direct_find s b (seq 0 5) key hv with
    | Some it => Ok (Some it)
    | None =>
        match bucket_item b 4 with
        | None => Ok None
        | Some it => let! (_, it) := chain_find fuel s it key hv in Ok it
        end
    end in
  match it with
  | None => Ok (s, None)
  | Some it => let! s := item_ref s it in Ok (s, Some it)
  end.

(** The loop over the direct items: a match, with its index, or the last free
    index. *)
Fixpoint put_scan (s : kv) (b : hash_bucket) (l : list nat) (key : list Z) (hv : Z) (di : option nat) : (nat * Z) + option nat :=
  match l with
  | [] => inr di
  | i :: l =>
      match bucket_item b i with
      | None => put_scan s b l key hv (Some i)
      | Some it =>
          if (nth i (hb_hashes b) 0 =? hv) && item_key_matches (kitem s it) key then inl (i, it) else put_scan s b l key hv di
      end
  end.

Definition set_slot (s : kv) (hv : Z) (i : nat) (nit : Z) (newhash : bool) : kv :=
  let b := bucket s hv in
  put_bucket s hv (mk_hash_bucket (<[i := Some nit]> (hb_items b)) (if newhash then <[i := hv]> (hb_hashes b) else hb_hashes b)).

Definition set_next (s : kv) (it : Z) (n : option Z) : kv := put_item s it (kitem s it <| it_next := n |>).

Definition hasht_put (fuel : nat) (s : kv) (nit : Z) (cas : option Z) : outcome kv :=
  let hv := it_hv (kitem s nit) in
  let key := item_key (kitem s nit) in
  let b := bucket s hv in
  match put_scan s b (seq 0 5) key hv None with
  | inl (i, it) =>
      if bool_decide (is_Some cas) && negb (bool_decide (cas = Some it)) then Ok s
      else
        let! _ := assert_ (negb (nit =? it)) in
        let! s := item_ref s nit in
        let s := set_next s nit (it_next (kitem s it)) in
        let s := set_slot s hv i nit false in
        item_unref s it
  | inr di =>
      if bool_decide (is_Some cas) then Ok s
      else
        let! s := item_ref s nit in
        let insert s :=
          let di := match di with Some di => di | None => 4%nat end in
          let s := set_next s nit (bucket_item b di) in
          Ok (set_slot s hv di nit true) in
        match bucket_item b 4 with
        | None => insert s
        | Some it =>
            let! (prev, it) := chain_find fuel s it key hv in
            match it with
            | Some it =>
                let s := set_next s nit (it_next (kitem s it)) in
                let s := set_next s prev (Some nit) in
                item_unref s it
            | None => insert s
            end
        end
  end.
End Table.
