(* ===== verification/FkTableRep.v ===== *)
(** What a state of the hash table means: a finite map from a hash and a key to
    an item.  Lookups read it; the lemmas here say what a change of one bucket
    does to it. *)
From stdpp Require Import base numbers list gmap relations.
From Stdlib Require Import ZArith Lia.
From S2P Require Import Prelude LinkedList FkAlloc FkTable.

(** ** Items *)

(** The bytes of an item are there, and its lengths say how many. *)
Definition item_wf (x : item) : Prop := 0 <= it_keylen x /\ 0 <= it_vallen x /\ Z.of_nat (length (it_data x)) = it_keylen x + it_vallen x.
Definition iview (x : item) : Z * Z * Z * list Z := (it_hv x, it_vallen x, it_keylen x, it_data x).
Definition key_of (s : kv) (it : Z) : Z * list Z := (it_hv (kitem s it), item_key (kitem s it)).
Definition inext (s : kv) (it : Z) : option Z := it_next (kitem s it).

(** Two states with the same items, but for links and reference counts. *)
Definition same_items (s s' : kv) : Prop := forall it, iview (kitem s' it) = iview (kitem s it).

#[export] Instance same_items_preorder : PreOrder same_items.
Proof. split; [intros s it; reflexivity|]. intros s1 s2 s3 E1 E2 it. now rewrite E2. Qed.

Lemma same_wf s s' it : same_items s s' -> item_wf (kitem s it) -> item_wf (kitem s' it).
Proof. intros E. pose proof (E it) as [= _ Ev Ek Ed]. unfold item_wf. now rewrite Ev, Ek, Ed. Qed.
Lemma same_key s s' it : same_items s s' -> key_of s' it = key_of s it.
Proof. intros E. pose proof (E it) as [= Eh _ Ek Ed]. unfold key_of, item_key. now rewrite Eh, Ek, Ed. Qed.

Lemma key_matches_iff x key : item_wf x -> item_key_matches x key = true <-> item_key x = key.
Proof.
  intros (K & V & L). unfold item_key_matches, item_key. rewrite andb_true_iff, Z.eqb_eq, bool_decide_eq_true.
  split; [now intros [_ E]|]. intros E. split; [|exact E]. rewrite <- E, length_take. lia.
Qed.
Lemma hkey_matches_iff s it key hv : item_wf (kitem s it) -> item_hkey_matches (kitem s it) key hv = true <-> key_of s it = (hv, key).
Proof.
  intros W. unfold item_hkey_matches, key_of. rewrite andb_true_iff, Z.eqb_eq, key_matches_iff by exact W.
  split; [now intros [-> ->]|now intros [= -> ->]].
Qed.

(** ** Buckets *)

Definition bitems (s : kv) (i : Z) (l : list Z) : list Z := omap id (take 4 (hb_items (kv_buckets s !!! i))) ++ l.

(** The shape of bucket [i]: [l] hangs off the fifth direct item, itself
    included. *)
Record bucket_shape (s : kv) (i : Z) (l : list Z) : Prop := mk_bucket_shape
  { bs_items : length (hb_items (kv_buckets s !!! i)) = 5%nat;
    bs_hashes : length (hb_hashes (kv_buckets s !!! i)) = 5%nat;
    bs_chain : chain (inext s) (bucket_item (kv_buckets s !!! i) 4) l None;
    bs_direct : forall j it, bucket_item (kv_buckets s !!! i) j = Some it ->
      nth j (hb_hashes (kv_buckets s !!! i)) 0 = it_hv (kitem s it) }.

Record bucket_ok (s : kv) (i : Z) (l : list Z) : Prop := mk_bucket_ok
  { bo_shape : bucket_shape s i l;
    bo_keys : NoDup (map (key_of s) (bitems s i l));
    bo_items : Forall (fun it => item_wf (kitem s it) /\ it_hv (kitem s it) mod nbuckets = i) (bitems s i l) }.

(** The table as a map; [cs] gives the chain of every bucket. *)
Record table_rep (s : kv) (cs : Z -> list Z) (tbl : gmap (Z * list Z) Z) : Prop := mk_table_rep
  { tr_bucket : forall i, 0 <= i < nbuckets -> bucket_ok s i (cs i);
    tr_lookup : forall k it, tbl !! k = Some it <-> it ∈ bitems s (k.1 mod nbuckets) (cs (k.1 mod nbuckets)) /\ key_of s it = k }.

Lemma bucket_item_nth (b : hash_bucket) j it : bucket_item b j = Some it <-> hb_items b !! j = Some (Some it).
Proof.
  unfold bucket_item. split.
  - intros E. destruct (nth_lookup_or_length (hb_items b) j None) as [K|K]; [congruence|]. rewrite nth_overflow in E by lia. discriminate.
  - intros E. apply nth_lookup_Some with (d := None) in E. congruence.
Qed.

Lemma chain_head (nxt : Z -> option Z) p l : chain nxt p l None -> p = head l.
Proof. now inversion 1. Qed.

(** The members of a bucket: the first four direct items and the chain. *)
Lemma elem_bitems s i l it : bucket_shape s i l ->
  it ∈ bitems s i l <-> (exists j, bucket_item (kv_buckets s !!! i) j = Some it) \/ it ∈ l.
Proof.
  intros [Len _ C _]. unfold bitems. rewrite elem_of_app, list_elem_of_omap. split.
  - intros [(o & Ho & E)|Hl]; [|now right]. left. apply list_elem_of_lookup in Ho as [j Hj]. cbn in E. subst o.
    exists j. apply bucket_item_nth. apply lookup_take_Some in Hj. apply Hj.
  - intros [(j & E)|Hl]; [|now right]. destruct (decide (j < 4)%nat) as [L|L].
    + left. exists (Some it). split; [|reflexivity]. apply list_elem_of_lookup. exists j. apply lookup_take_Some.
      split; [now apply bucket_item_nth|exact L].
    + right. assert (j = 4%nat) as ->; [|apply chain_head in C; rewrite E in C; symmetry in C; now apply head_in].
      apply bucket_item_nth, lookup_lt_Some in E. lia.
Qed.

Lemma mod_bucket hv : 0 <= hv mod nbuckets < nbuckets.
Proof. apply Z.mod_pos_bound. reflexivity. Qed.
#[export] Hint Resolve mod_bucket : core.

Lemma bucket_wf s i l it : bucket_ok s i l -> it ∈ bitems s i l -> item_wf (kitem s it).
Proof. intros [_ _ F] Hin. rewrite Forall_forall in F. now apply F. Qed.

Lemma elem_option_list {A} (o : option A) x : x ∈ option_list o <-> o = Some x.
Proof. destruct o; cbn; [rewrite list_elem_of_singleton; split; congruence|]. split; [intros E; now apply not_elem_of_nil in E|discriminate]. Qed.

(** Keys are unique in a bucket. *)
Lemma bucket_unique s i l x y : bucket_ok s i l -> x ∈ bitems s i l -> y ∈ bitems s i l -> key_of s x = key_of s y -> x = y.
Proof.
  intros [_ N _]. revert N. generalize (bitems s i l) as m. induction m as [|z m IH]; intros N Hx Hy E; [now apply not_elem_of_nil in Hx|].
  cbn in N. apply NoDup_cons in N as [Nz N]. rewrite elem_of_cons in Hx, Hy. destruct Hx as [->|Hx], Hy as [->|Hy]; auto.
  - destruct Nz. rewrite E. now apply list_elem_of_fmap_2.
  - destruct Nz. rewrite <- E. now apply list_elem_of_fmap_2.
Qed.

(** ** Searching *)

Definition matches (s : kv) (key : list Z) (hv : Z) (it : Z) : Prop := key_of s it = (hv, key).

Lemma chain_find_spec s key hv l : forall fuel prev, chain (inext s) (inext s prev) l None -> (length l < fuel)%nat ->
  Forall (fun it => item_wf (kitem s it)) l ->
  (exists l1 it l2, l = l1 ++ it :: l2 /\ matches s key hv it /\
     chain_find fuel s prev key hv = Ok (default prev (last l1), Some it)) \/
  (Forall (fun it => ~ matches s key hv it) l /\ exists p, chain_find fuel s prev key hv = Ok (p, None)).
Proof.
  induction l as [|it l IH]; intros fuel prev C L W; (destruct fuel as [|fuel]; [cbn in L; lia|]); cbn [chain_find]; fold (inext s prev).
  - apply chain_nil_inv in C. rewrite C. right. split; [constructor|eauto].
  - apply chain_cons_inv in C as [-> C]. apply Forall_cons in W as [Wi W].
    destruct (item_hkey_matches (kitem s it) key hv) eqn:M.
    + left. exists [], it, l. split_and!; [reflexivity|now apply hkey_matches_iff|reflexivity].
    + assert (N : ~ matches s key hv it) by (intros K; apply (hkey_matches_iff s it key hv Wi) in K; congruence).
      destruct (IH fuel it C ltac:(cbn in L; lia) W) as [(l1 & x & l2 & -> & Mx & E)|(F & p & E)].
      * left. exists (it :: l1), x, l2. split_and!; [reflexivity|exact Mx|]. rewrite E.
        destruct l1 as [|y l1]; [reflexivity|]. cbn. destruct (last (y :: l1)) eqn:El; [reflexivity|now apply last_None in El].
      * right. split; [now constructor|eauto].
Qed.

(** The test of a direct item. *)
Lemma direct_match s i l j it key hv : bucket_ok s i l -> bucket_item (kv_buckets s !!! i) j = Some it ->
  (nth j (hb_hashes (kv_buckets s !!! i)) 0 =? hv) && item_key_matches (kitem s it) key = true <-> matches s key hv it.
Proof.
  intros B E. rewrite (bs_direct _ _ _ (bo_shape _ _ _ B) j it E).
  apply hkey_matches_iff, (bucket_wf s i l it B). apply elem_bitems; [apply B|]. left. eauto.
Qed.

Lemma direct_find_spec s i l key hv js : bucket_ok s i l ->
  (exists j it, j ∈ js /\ bucket_item (kv_buckets s !!! i) j = Some it /\ matches s key hv it /\
     direct_find s (kv_buckets s !!! i) js key hv = Some it) \/
  ((forall j it, j ∈ js -> bucket_item (kv_buckets s !!! i) j = Some it -> ~ matches s key hv it) /\
     direct_find s (kv_buckets s !!! i) js key hv = None).
Proof.
  intros B. induction js as [|j js IH]; [right; split; [intros j it Hj; now apply not_elem_of_nil in Hj|reflexivity]|].
  cbn [direct_find]. destruct (bucket_item (kv_buckets s !!! i) j) as [it|] eqn:E.
  - destruct (_ && _) eqn:M; pose proof (direct_match s i l j it key hv B E) as Iff.
    + left. exists j, it. split_and!; [left|exact E|now apply Iff|reflexivity].
    + assert (N : ~ matches s key hv it) by (intros K; apply Iff in K; congruence).
      destruct IH as [(j' & x & Hj & K)|(F & K)]; [left; exists j', x; split; [now right|exact K]|right; split; [|exact K]].
      intros j' x Hj Ex. apply elem_of_cons in Hj as [->|Hj]; [congruence|exact (F j' x Hj Ex)].
  - destruct IH as [(j' & x & Hj & K)|(F & K)]; [left; exists j', x; split; [now right|exact K]|right; split; [|exact K]].
    intros j' x Hj Ex. apply elem_of_cons in Hj as [->|Hj]; [congruence|exact (F j' x Hj Ex)].
Qed.

Lemma put_scan_spec s i l key hv js : forall di, bucket_ok s i l ->
  (exists j it, j ∈ js /\ bucket_item (kv_buckets s !!! i) j = Some it /\ matches s key hv it /\
     put_scan s (kv_buckets s !!! i) js key hv di = inl (j, it)) \/
  ((forall j it, j ∈ js -> bucket_item (kv_buckets s !!! i) j = Some it -> ~ matches s key hv it) /\
   exists di', put_scan s (kv_buckets s !!! i) js key hv di = inr di' /\
     (forall j, di' = Some j -> di = Some j \/ j ∈ js /\ bucket_item (kv_buckets s !!! i) j = None)).
Proof.
  induction js as [|j js IH]; intros di B.
  { right. split; [intros j it Hj; now apply not_elem_of_nil in Hj|]. exists di. auto. }
  cbn [put_scan]. destruct (bucket_item (kv_buckets s !!! i) j) as [it|] eqn:E.
  - destruct (_ && _) eqn:M; pose proof (direct_match s i l j it key hv B E) as Iff.
    + left. exists j, it. split_and!; [left|exact E|now apply Iff|reflexivity].
    + assert (N : ~ matches s key hv it) by (intros K; apply Iff in K; congruence).
      destruct (IH di B) as [(j' & x & Hj & K)|(F & di' & K & Kn)]; [left; exists j', x; split; [now right|exact K]|right; split].
      * intros j' x Hj Ex. apply elem_of_cons in Hj as [->|Hj]; [congruence|exact (F j' x Hj Ex)].
      * exists di'. split; [exact K|]. intros j' Ej. destruct (Kn j' Ej) as [|[? ?]]; [auto|right; split; [now right|assumption]].
  - destruct (IH (Some j) B) as [(j' & x & Hj & K)|(F & di' & K & Kn)]; [left; exists j', x; split; [now right|exact K]|right; split].
    + intros j' x Hj Ex. apply elem_of_cons in Hj as [->|Hj]; [congruence|exact (F j' x Hj Ex)].
    + exists di'. split; [exact K|].
      intros j' Ej. right. destruct (Kn j' Ej) as [[= <-]|[? ?]]; [split; [left|exact E]|split; [now right|assumption]].
Qed.

(** ** Lookup *)

Lemma chain_length s cs tbl i : table_rep s cs tbl -> 0 <= i < nbuckets -> (length (cs i) <= size tbl)%nat.
Proof.
  intros T Hi. pose proof (tr_bucket _ _ _ T i Hi) as B.
  transitivity (length (map (key_of s) (bitems s i (cs i)))).
  { rewrite length_map. unfold bitems. rewrite length_app. lia. }
  rewrite <- size_dom. rewrite <- (size_list_to_set (C := gset (Z * list Z)) _ (bo_keys _ _ _ B)).
  apply subseteq_size. intros k Hk. apply elem_of_list_to_set, list_elem_of_fmap in Hk as (it & -> & Hin).
  pose proof (bo_items _ _ _ B) as F. rewrite Forall_forall in F. destruct (F it Hin) as [_ Eh].
  apply elem_of_dom. exists it. apply (tr_lookup _ _ _ T). cbn. rewrite Eh. auto.
Qed.

(** The search [hasht_get] makes is the map's lookup. *)
Lemma find_lookup s cs tbl fuel key hv : table_rep s cs tbl -> (size tbl < fuel)%nat ->
  match direct_find s (bucket s hv) (seq 0 5) key hv with
  | Some it => Ok (Some it)
  | None =>
      match bucket_item (bucket s hv) 4 with
      | None => Ok None
      | Some it => let! (_, it) := chain_find fuel s it key hv in Ok it
      end
  end = Ok (tbl !! (hv, key)).
Proof.
  intros T L. set (i := hv mod nbuckets). pose proof (tr_bucket _ _ _ T i (mod_bucket hv)) as B.
  assert (Hit : forall it, it ∈ bitems s i (cs i) -> matches s key hv it -> tbl !! (hv, key) = Some it).
  { intros it Hin M. apply (tr_lookup _ _ _ T). auto. }
  assert (Miss : (forall it, it ∈ bitems s i (cs i) -> ~ matches s key hv it) -> tbl !! (hv, key) = None).
  { intros N. apply eq_None_not_Some. intros [it E]. apply (tr_lookup _ _ _ T) in E as [Hin M]. exact (N it Hin M). }
  pose proof (elem_bitems s i (cs i)) as El. specialize (fun it => El it (bo_shape _ _ _ B)).
  unfold bucket. fold i. destruct (direct_find_spec s i (cs i) key hv (seq 0 5) B) as [(j & it & _ & Ej & M & ->)|(Nd & ->)].
  { f_equal. symmetry. apply Hit; [apply El; eauto|exact M]. }
  pose proof (bs_chain _ _ _ (bo_shape _ _ _ B)) as C. pose proof (chain_length s cs tbl i T (mod_bucket hv)) as Lc.
  assert (Nd' : forall j it, bucket_item (kv_buckets s !!! i) j = Some it -> ~ matches s key hv it).
  { intros j it Ej. apply (Nd j it); [|exact Ej]. apply bucket_item_nth, lookup_lt_Some in Ej.
    rewrite (bs_items _ _ _ (bo_shape _ _ _ B)) in Ej. apply elem_of_seq. lia. }
  destruct (bucket_item (kv_buckets s !!! i) 4) as [t|] eqn:E4.
  - destruct (cs i) as [|t' l] eqn:Ec; [now apply chain_nil_inv in C|]. apply chain_cons_inv in C as [[= <-] C].
    destruct (chain_find_spec s key hv l fuel t C) as [(l1 & it & l2 & E & M & ->)|(F & p & ->)]; [cbn in Lc; lia| |cbn [obind]..].
    + rewrite Forall_forall. intros it Hin. apply (bucket_wf s i _ it B), El. right. now right.
    + f_equal. symmetry. apply Hit; [|exact M]. apply El. right. rewrite E. right. apply elem_of_app. right. left.
    + f_equal. symmetry. apply Miss. intros it Hin. apply El in Hin as [[j Ej]|Hin]; [exact (Nd' j it Ej)|].
      rewrite Forall_forall in F. apply elem_of_cons in Hin as [->|Hin]; [exact (Nd' 4%nat t E4)|exact (F it Hin)].
  - f_equal. symmetry. apply Miss. intros it Hin. apply El in Hin as [[j Ej]|Hin]; [exact (Nd' j it Ej)|].
    destruct (cs i); [now apply not_elem_of_nil in Hin|]. now apply chain_cons_inv in C as [[=] _].
Qed.

(** An empty table. *)
Lemma empty_rep (s : kv) : kv_buckets s = ∅ -> table_rep s (fun _ => []) ∅.
Proof.
  intros E. assert (B : forall i, kv_buckets s !!! i = mk_hash_bucket (repeat None 5) (repeat 0 5)).
  { intros i. rewrite E. reflexivity. }
  constructor.
  - intros i _. constructor; [constructor|..]; rewrite ?B; try reflexivity.
    + constructor.
    + intros j it Ej. apply bucket_item_nth in Ej. cbn in Ej. do 5 (destruct j; [discriminate|]). discriminate.
    + unfold bitems. rewrite B. constructor.
    + unfold bitems. rewrite B. constructor.
  - intros k it. rewrite lookup_empty. split; [discriminate|]. unfold bitems. rewrite B. cbn. intros [Hin _]. now apply not_elem_of_nil in Hin.
Qed.

(** ** Changes that are not seen *)

Lemma bitems_same s s' i l : kv_buckets s' !!! i = kv_buckets s !!! i -> bitems s' i l = bitems s i l.
Proof. intros E. unfold bitems. now rewrite E. Qed.

Lemma shape_frame s s' i l : same_items s s' -> kv_buckets s' !!! i = kv_buckets s !!! i ->
  (forall it, it ∈ l -> inext s' it = inext s it) -> bucket_shape s i l -> bucket_shape s' i l.
Proof.
  intros Sm Eb En []. constructor; rewrite ?Eb; try assumption.
  - apply (chain_ext (inext s)); [|assumption]. intros it Hin. now rewrite En.
  - intros j it Ej. rewrite (bs_direct0 j it Ej). pose proof (Sm it) as [= -> _ _ _]. reflexivity.
Qed.

Lemma bucket_frame s s' i l : same_items s s' -> kv_buckets s' !!! i = kv_buckets s !!! i ->
  (forall it, it ∈ l -> inext s' it = inext s it) -> bucket_ok s i l -> bucket_ok s' i l.
Proof.
  intros Sm Eb En [Sh N F]. constructor; [now apply (shape_frame s)|..]; rewrite (bitems_same s s' i l Eb).
  - erewrite map_ext; [exact N|]. intros it. now apply same_key.
  - eapply Forall_impl; [exact F|]. intros it [W Eh]. split; [now apply (same_wf s)|]. pose proof (Sm it) as [= -> _ _ _]. exact Eh.
Qed.

(** Reference counts and segments are not the table's. *)
Lemma table_frame s s' cs tbl : same_items s s' -> kv_buckets s' = kv_buckets s -> (forall it, inext s' it = inext s it) ->
  table_rep s cs tbl -> table_rep s' cs tbl.
Proof.
  intros Sm Eb En [B Lk]. constructor.
  - intros i Hi. apply (bucket_frame s); auto. now rewrite Eb.
  - intros k it. rewrite Lk, (bitems_same s s') by now rewrite Eb. now rewrite (same_key s s' it Sm).
Qed.

(** ** Changing one bucket *)

(** The item [nit] enters bucket [i], in place of [old]. *)
Lemma table_update s s' cs tbl nit i l' rest : table_rep s cs tbl -> same_items s s' ->
  item_wf (kitem s nit) -> i = it_hv (kitem s nit) mod nbuckets ->
  (forall i', i' <> i -> kv_buckets s' !!! i' = kv_buckets s !!! i') ->
  (forall i' it, 0 <= i' < nbuckets -> i' <> i -> it ∈ cs i' -> inext s' it = inext s it) ->
  bucket_shape s' i l' ->
  bitems s i (cs i) ≡ₚ option_list (tbl !! key_of s nit) ++ rest -> bitems s' i l' ≡ₚ nit :: rest ->
  table_rep s' (fun i' => if decide (i' = i) then l' else cs i') (<[key_of s nit := nit]> tbl).
Proof.
  intros T Sm W Ei Eb En Sh P P'. pose proof (tr_bucket _ _ _ T i) as B. specialize (B ltac:(rewrite Ei; auto)).
  pose proof (bo_keys _ _ _ B) as Nk. pose proof (bo_items _ _ _ B) as F. rewrite P in Nk, F.
  rewrite map_app in Nk. apply NoDup_app in Nk as (_ & Nd & Nr). apply Forall_app in F as [_ F].
  assert (Fresh : key_of s nit ∉ map (key_of s) rest).
  { intros Hin. destruct (tbl !! key_of s nit) as [o|] eqn:Eo.
    - apply (tr_lookup _ _ _ T) in Eo as [_ Ko]. apply (Nd (key_of s nit)); [|exact Hin]. cbn. rewrite Ko. left.
    - apply list_elem_of_fmap in Hin as (x & Ex & Hx). cut (tbl !! key_of s nit = Some x); [congruence|].
      apply (tr_lookup _ _ _ T). cbn [key_of fst]. rewrite <- Ei, P. cbn. auto. }
  constructor.
  - intros i' Hi'. cbn beta. destruct (decide (i' = i)) as [->|N].
    + constructor; [exact Sh|rewrite P'..].
      * erewrite map_ext; [cbn; constructor; [exact Fresh|exact Nr]|]. intros x. now apply same_key.
      * constructor; [|eapply Forall_impl; [exact F|]]; [|intros x [Wx Ex]].
        -- split; [now apply (same_wf s)|]. pose proof (Sm nit) as [= -> _ _ _]. congruence.
        -- split; [now apply (same_wf s)|]. pose proof (Sm x) as [= -> _ _ _]. exact Ex.
    + apply (bucket_frame s); auto; [|apply (tr_bucket _ _ _ T i' Hi')]. intros it. now apply En.
  - intros k it. rewrite (same_key s s' it Sm). cbn beta. destruct (decide (k.1 mod nbuckets = i)) as [E|N].
    + rewrite E, P', elem_of_cons, lookup_insert. case_decide as Ek.
      * subst k. split; [intros [= <-]; auto|]. intros [[->|Hin] Hk]; [reflexivity|].
        destruct Fresh. rewrite <- Hk. now apply list_elem_of_fmap_2.
      * rewrite (tr_lookup _ _ _ T), E, P, elem_of_app. split.
        -- intros [[Ho|Hr] Hk]; [|auto]. apply elem_option_list in Ho.
           apply (tr_lookup _ _ _ T) in Ho as [_ Ho]. congruence.
        -- intros [[->|Hr] Hk]; [congruence|auto].
    + rewrite lookup_insert_ne by (intros <-; cbn in N; congruence). rewrite (tr_lookup _ _ _ T), (bitems_same s s') by auto. reflexivity.
Qed.
