(* ===== verification/FkTableOps.v ===== *)
(** [hasht_get] and [hasht_put] as lookup and insert of the map the table
    represents, with what they do to the reference counts. *)
From stdpp Require Import base numbers list gmap relations.
From Stdlib Require Import ZArith Lia.
From S2P Require Import Prelude LinkedList FkAlloc FkTable FkTableRep.

(** One reference more or less on [it]. *)
Definition add_ref (s : kv) (it d : Z) : kv := put_item s it (kitem s it <| it_refcount := it_refcount (kitem s it) + d |>).

(** Only items and buckets differ. *)
Definition same_segs (s s' : kv) : Prop := exists m t, s' = s <| kv_items := m |> <| kv_buckets := t |>.
#[export] Instance same_segs_preorder : PreOrder same_segs.
Proof.
  split; [intros []; now eexists _, _|]. intros s1 s2 s3 (m & t & ->) (m' & t' & ->). now exists m', t'.
Qed.

Lemma kitem_put s i x it : kitem (put_item s i x) it = if decide (it = i) then x else kitem s it.
Proof. unfold kitem. cbn. rewrite lookup_total_insert. repeat case_decide; congruence. Qed.

Lemma put_item_same s i x : iview x = iview (kitem s i) -> same_items s (put_item s i x).
Proof. intros E it. rewrite kitem_put. case_decide; now subst. Qed.
Lemma add_ref_same s it d : same_items s (add_ref s it d).
Proof. now apply put_item_same. Qed.
Lemma set_next_same s it n : same_items s (set_next s it n).
Proof. now apply put_item_same. Qed.

Lemma inext_add_ref s it d x : inext (add_ref s it d) x = inext s x.
Proof. unfold inext, add_ref. rewrite kitem_put. case_decide; now subst. Qed.
Lemma inext_set_next s it n x : inext (set_next s it n) x = if decide (x = it) then n else inext s x.
Proof. unfold inext, set_next. rewrite kitem_put. case_decide; now subst. Qed.

Lemma refs_add_ref s it d x : it_refcount (kitem (add_ref s it d) x) = it_refcount (kitem s x) + if decide (x = it) then d else 0.
Proof. unfold add_ref. rewrite kitem_put. case_decide; subst; cbn; lia. Qed.
Lemma refs_set_next s it n x : it_refcount (kitem (set_next s it n) x) = it_refcount (kitem s x).
Proof. unfold set_next. rewrite kitem_put. case_decide; now subst. Qed.

Lemma put_item_segs s i x : same_segs s (put_item s i x).
Proof. exists (<[i := x]> (kv_items s)), (kv_buckets s). now destruct s. Qed.

Lemma item_ref_ok s it : 0 < it_refcount (kitem s it) < 65535 -> item_ref s it = Ok (add_ref s it 1).
Proof.
  intros L. unfold item_ref, add_ref. cbv zeta. unfold u16. rewrite Z.mod_small by lia.
  destruct (Z.eqb_spec (it_refcount (kitem s it) + 1) 1); [lia|reflexivity].
Qed.

Lemma chain_find_same s s' key hv fuel : forall prev, same_items s s' -> (forall it, inext s' it = inext s it) ->
  chain_find fuel s' prev key hv = chain_find fuel s prev key hv.
Proof.
  induction fuel as [|fuel IH]; intros prev Sm En; [reflexivity|]. cbn [chain_find]. fold (inext s' prev) (inext s prev). rewrite En.
  destruct (inext s prev) as [it|]; [|reflexivity]. rewrite IH by assumption.
  unfold item_hkey_matches, item_key_matches, item_key. now pose proof (Sm it) as [= -> _ -> ->].
Qed.

Section Ops.
Context `{KvEnv}.

Lemma get_step s cs tbl fuel key hv : table_rep s cs tbl -> (size tbl < fuel)%nat ->
  (forall it, tbl !! (hv, key) = Some it -> 0 < it_refcount (kitem s it) < 65535) ->
  let s' := match tbl !! (hv, key) with Some it => add_ref s it 1 | None => s end in
  hasht_get fuel s key hv = Ok (s', tbl !! (hv, key)) /\ table_rep s' cs tbl.
Proof.
  intros T L R. unfold hasht_get. cbv zeta. rewrite (find_lookup s cs tbl) by assumption. cbn [obind].
  destruct (tbl !! (hv, key)) as [it|] eqn:E; [|now split]. rewrite item_ref_ok by auto. split; [reflexivity|].
  apply (table_frame s); [apply add_ref_same|reflexivity|intros x; apply inext_add_ref|exact T].
Qed.

(** Looking a key up, [hasht_get]: on a state that represents a map the
    call returns what the map has for the hash and the key, with one reference
    more on the item it returns; the map is the same. *)
Theorem hasht_get_refines s cs tbl fuel key hv : table_rep s cs tbl -> (size tbl < fuel)%nat ->
  (forall it, tbl !! (hv, key) = Some it -> 0 < it_refcount (kitem s it) < 65535) ->
  let s' := match tbl !! (hv, key) with Some it => add_ref s it 1 | None => s end in
  hasht_get fuel s key hv = Ok (s', tbl !! (hv, key)) /\ table_rep s' cs tbl.
Proof. intros T L R. exact (get_step s cs tbl fuel key hv T L R). Qed.

(** ** Slots *)

Lemma omap_slot (L : list (option Z)) j o : L !! j = Some o -> exists rest, omap id L ≡ₚ option_list o ++ rest /\
  forall x, omap id (<[j := Some x]> L) ≡ₚ x :: rest.
Proof.
  intros E. exists (omap id (take j L) ++ omap id (drop (S j) L)). split.
  - rewrite <- (take_drop_middle L j o E) at 1. rewrite omap_app. cbn. destruct o; cbn; [now rewrite Permutation_middle|reflexivity].
  - intros x. rewrite insert_take_drop by (eapply lookup_lt_Some, E). rewrite omap_app. cbn. now rewrite Permutation_middle.
Qed.

Lemma slot_items s hv j nit nh i l : hv mod nbuckets = i -> length (hb_items (kv_buckets s !!! i)) = 5%nat -> (j < 4)%nat ->
  exists rest, bitems s i l ≡ₚ option_list (bucket_item (kv_buckets s !!! i) j) ++ rest /\
    bitems (set_slot s hv j nit nh) i l ≡ₚ nit :: rest.
Proof.
  intros <- Len L. set (i := hv mod nbuckets) in *.
  destruct (lookup_lt_is_Some_2 (take 4 (hb_items (kv_buckets s !!! i))) j) as [o Eo]; [rewrite length_take; lia|].
  destruct (omap_slot _ j o Eo) as (rest & P & P'). exists (rest ++ l).
  assert (Eb : bucket_item (kv_buckets s !!! i) j = o).
  { apply lookup_take_Some in Eo as [Eo _]. unfold bucket_item. now apply nth_lookup_Some. }
  rewrite Eb. unfold bitems. rewrite app_assoc, <- P. split; [reflexivity|].
  unfold set_slot, put_bucket, bucket. cbn. fold i. rewrite lookup_total_insert_eq. cbn [hb_items].
  rewrite take_insert_lt by exact L. rewrite P'. reflexivity.
Qed.

Lemma slot_items_last s hv nit nh i l : hv mod nbuckets = i ->
  bitems (set_slot s hv 4 nit nh) i l = omap id (take 4 (hb_items (kv_buckets s !!! i))) ++ l.
Proof.
  intros <-. unfold bitems, set_slot, put_bucket, bucket. cbn. rewrite lookup_total_insert_eq. cbn [hb_items].
  now rewrite take_insert_ge by lia.
Qed.

Lemma slot_shape s s2 hv j nit nh i l l' : hv mod nbuckets = i -> bucket_shape s i l -> same_items s s2 -> kv_buckets s2 = kv_buckets s ->
  (j < 5)%nat -> it_hv (kitem s nit) = hv -> nh = true \/ nth j (hb_hashes (kv_buckets s !!! i)) 0 = hv ->
  chain (inext s2) (if decide (j = 4%nat) then Some nit else bucket_item (kv_buckets s !!! i) 4) l' None ->
  bucket_shape (set_slot s2 hv j nit nh) i l'.
Proof.
  intros <- [Li Lh C D] Sm Eb Lj En Nh C'. set (i := hv mod nbuckets) in *.
  assert (E : kv_buckets (set_slot s2 hv j nit nh) !!! i =
    mk_hash_bucket (<[j := Some nit]> (hb_items (kv_buckets s !!! i))) (if nh then <[j := hv]> (hb_hashes (kv_buckets s !!! i)) else hb_hashes (kv_buckets s !!! i))).
  { unfold set_slot, put_bucket, bucket. cbn. fold i. rewrite Eb. now rewrite lookup_total_insert_eq. }
  assert (Hv : forall it, it_hv (kitem s2 it) = it_hv (kitem s it)) by (intros it; now pose proof (Sm it) as [= -> _ _ _]).
  constructor; rewrite E; cbn [hb_items hb_hashes].
  - now rewrite length_insert.
  - destruct nh; [now rewrite length_insert|exact Lh].
  - replace (bucket_item _ 4) with (if decide (j = 4%nat) then Some nit else bucket_item (kv_buckets s !!! i) 4); [exact C'|].
    unfold bucket_item. cbn [hb_items]. case_decide as Ej.
    + subst j. symmetry. apply nth_lookup_Some, list_lookup_insert_eq. lia.
    + rewrite !nth_lookup, list_lookup_insert_ne by congruence. reflexivity.
  - intros k it Ek. apply bucket_item_nth in Ek. cbn [hb_items] in Ek. change (kitem (set_slot s2 hv j nit nh) it) with (kitem s2 it).
    rewrite Hv. destruct (decide (k = j)) as [->|N].
    + rewrite list_lookup_insert_eq in Ek by lia. injection Ek as ->. rewrite En.
      destruct nh; [apply nth_lookup_Some, list_lookup_insert_eq; lia|]. destruct Nh as [[=]|Nh]. exact Nh.
    + rewrite list_lookup_insert_ne in Ek by congruence. rewrite <- (D k it) by now apply bucket_item_nth.
      destruct nh; [|reflexivity]. rewrite !nth_lookup, list_lookup_insert_ne by congruence. reflexivity.
Qed.

(** ** Insertion *)

Lemma member_lookup s cs tbl i it : table_rep s cs tbl -> 0 <= i < nbuckets -> it ∈ bitems s i (cs i) -> tbl !! key_of s it = Some it.
Proof.
  intros T Hi Hin. apply (tr_lookup _ _ _ T). pose proof (bo_items _ _ _ (tr_bucket _ _ _ T i Hi)) as F.
  rewrite Forall_forall in F. destruct (F it Hin) as [_ E]. cbn. rewrite E. auto.
Qed.

(** The state after the bucket has the new item. *)
Record put_done (s s' : kv) (tbl : gmap (Z * list Z) Z) (nit : Z) : Prop := mk_put_done
  { pd_rep : exists cs, table_rep s' cs (<[key_of s nit := nit]> tbl);
    pd_items : same_items s s';
    pd_refs : forall it, it_refcount (kitem s' it) = it_refcount (kitem s it) + if decide (it = nit) then 1 else 0;
    pd_segs : same_segs s s' }.

Section Insert.
Context (s : kv) (cs : Z -> list Z) (tbl : gmap (Z * list Z) Z) (nit : Z).
Context (T : table_rep s cs tbl) (W : item_wf (kitem s nit)) (New : forall k, tbl !! k <> Some nit).
Let hv := it_hv (kitem s nit).
Let i := hv mod nbuckets.
Let entered (n : option Z) : kv := set_next (add_ref s nit 1) nit n.

Lemma nit_nowhere i' : 0 <= i' < nbuckets -> nit ∉ cs i'.
Proof.
  intros Hi Hin. apply (New (key_of s nit)), (member_lookup s cs tbl i' nit T Hi). unfold bitems. apply elem_of_app. now right.
Qed.

Lemma chain_home i' it : 0 <= i' < nbuckets -> it ∈ cs i' -> it_hv (kitem s it) mod nbuckets = i'.
Proof.
  intros Hi Hin. pose proof (bo_items _ _ _ (tr_bucket _ _ _ T i' Hi)) as F. rewrite Forall_forall in F.
  apply F. unfold bitems. apply elem_of_app. now right.
Qed.

Lemma entered_same n : same_items s (entered n).
Proof. unfold entered. etransitivity; [apply (add_ref_same s nit 1)|apply set_next_same]. Qed.
Lemma entered_next n it : inext (entered n) it = if decide (it = nit) then n else inext s it.
Proof. unfold entered. rewrite inext_set_next, inext_add_ref. reflexivity. Qed.
Lemma entered_segs n : same_segs s (entered n).
Proof. unfold entered, set_next, add_ref. etransitivity; [apply (put_item_segs s)|apply put_item_segs]. Qed.
Lemma entered_refs n it : it_refcount (kitem (entered n) it) = it_refcount (kitem s it) + if decide (it = nit) then 1 else 0.
Proof. unfold entered. now rewrite refs_set_next, refs_add_ref. Qed.

(** The chains do not hold the new item. *)
Lemma entered_chain n i' q l : 0 <= i' < nbuckets -> (forall it, it ∈ l -> it ∈ cs i') -> chain (inext s) q l None -> chain (inext (entered n)) q l None.
Proof.
  intros Hi Sub. apply chain_ext. intros it Hin. rewrite entered_next, decide_False; [reflexivity|].
  intros ->. exact (nit_nowhere i' Hi (Sub nit Hin)).
Qed.

Lemma slot_done n j nh l' rest : (j < 5)%nat -> nh = true \/ nth j (hb_hashes (kv_buckets s !!! i)) 0 = hv ->
  chain (inext (entered n)) (if decide (j = 4%nat) then Some nit else bucket_item (kv_buckets s !!! i) 4) l' None ->
  bitems s i (cs i) ≡ₚ option_list (tbl !! key_of s nit) ++ rest -> bitems (set_slot (entered n) hv j nit nh) i l' ≡ₚ nit :: rest ->
  put_done s (set_slot (entered n) hv j nit nh) tbl nit.
Proof.
  intros Lj Nh C P P'. assert (Sm : same_items s (set_slot (entered n) hv j nit nh)) by exact (entered_same n).
  constructor.
  - eexists. apply (table_update s _ cs tbl nit i l' rest T Sm W eq_refl); try assumption.
    + intros i' N. unfold set_slot, put_bucket. cbn. now rewrite lookup_total_insert_ne by (fold hv; fold i; congruence).
    + intros i' it Hi' _ Hin. change (inext (entered n) it = inext s it). rewrite entered_next, decide_False; [reflexivity|].
      intros ->. exact (nit_nowhere i' Hi' Hin).
    + exact (slot_shape s (entered n) hv j nit nh i (cs i) l' eq_refl (bo_shape _ _ _ (tr_bucket _ _ _ T i (mod_bucket hv)))
        (entered_same n) eq_refl Lj eq_refl Nh C).
  - exact Sm.
  - exact (entered_refs n).
  - destruct (entered_segs n) as (m & t & E). exists m, (kv_buckets (set_slot (entered n) hv j nit nh)). unfold set_slot, put_bucket. now rewrite E.
Qed.

(** One of the first four slots. *)
Lemma slot_low n j nh : (j < 4)%nat -> nh = true \/ nth j (hb_hashes (kv_buckets s !!! i)) 0 = hv ->
  bucket_item (kv_buckets s !!! i) j = tbl !! key_of s nit -> put_done s (set_slot (entered n) hv j nit nh) tbl nit.
Proof.
  intros Lj Nh E. pose proof (tr_bucket _ _ _ T i (mod_bucket hv)) as B. destruct (bo_shape _ _ _ B) as [Li _ C _].
  destruct (slot_items (entered n) hv j nit nh i (cs i) eq_refl Li Lj) as (rest & P & P').
  apply (slot_done n j nh (cs i) rest); [lia|exact Nh| | |exact P'].
  - rewrite decide_False by lia. apply (entered_chain n i); [unfold i; auto|auto|exact C].
  - rewrite <- E. exact P.
Qed.

(** The fifth slot, the head of the chain. *)
Lemma slot_last n nh tail : nh = true \/ nth 4 (hb_hashes (kv_buckets s !!! i)) 0 = hv ->
  cs i = option_list (tbl !! key_of s nit) ++ tail -> chain (inext s) n tail None ->
  put_done s (set_slot (entered n) hv 4 nit nh) tbl nit.
Proof.
  intros Nh E C. set (d := omap id (take 4 (hb_items (kv_buckets s !!! i)))).
  apply (slot_done n 4 nh (nit :: tail) (d ++ tail)); [lia|exact Nh| | |].
  - rewrite decide_True by reflexivity. constructor. rewrite entered_next, decide_True by reflexivity.
    apply (entered_chain n i); [unfold i; auto| |exact C]. intros it Hin. rewrite E. apply elem_of_app. now right.
  - unfold bitems. fold d. rewrite E. destruct (tbl !! key_of s nit); cbn; [now rewrite Permutation_middle|reflexivity].
  - rewrite (slot_items_last (entered n) hv nit nh i _ eq_refl). change (kv_buckets (entered n)) with (kv_buckets s). fold d.
    now rewrite Permutation_middle.
Qed.

(** Further down the chain, after [prev]. *)
Lemma chain_done t l1 old l2 : tbl !! key_of s nit = Some old -> cs i = t :: l1 ++ old :: l2 ->
  put_done s (set_next (entered (inext s old)) (default t (last l1)) (Some nit)) tbl nit.
Proof.
  intros Eo Ec. set (prev := default t (last l1)). set (s3 := set_next (entered (inext s old)) prev (Some nit)).
  pose proof (tr_bucket _ _ _ T i (mod_bucket hv)) as B. destruct (bo_shape _ _ _ B) as [Li Lh C D].
  assert (Sm : same_items s s3) by (etransitivity; [apply (entered_same (inext s old))|apply set_next_same]).
  assert (Pre : exists l0, t :: l1 = l0 ++ [prev]).
  { unfold prev. destruct (last l1) as [p|] eqn:El; [|apply last_None in El as ->; now exists []].
    apply last_Some in El as [l0 ->]. now exists (t :: l0). }
  destruct Pre as [l0 Pre].
  assert (Hp : prev ∈ cs i) by (rewrite Ec, app_comm_cons, Pre, !elem_of_app; left; right; left).
  assert (Np : prev <> nit) by (intros E; rewrite E in Hp; exact (nit_nowhere i (mod_bucket hv) Hp)).
  assert (Next : forall it, inext s3 it = if decide (it = prev) then Some nit else if decide (it = nit) then inext s old else inext s it).
  { intros it. unfold s3. now rewrite inext_set_next, entered_next. }
  assert (Nd : NoDup (cs i)).
  { pose proof (bo_keys _ _ _ B) as N. apply NoDup_fmap_1 in N. unfold bitems in N. now apply NoDup_app in N as (_ & _ & N). }
  rewrite Ec, app_comm_cons, Pre, <- app_assoc in C, Nd. cbn [app] in C, Nd.
  assert (Keep : forall it, it ∈ l0 ++ l2 -> inext s3 it = inext s it).
  { intros it Hin. rewrite Next, !decide_False; [reflexivity| |].
    - intros ->. apply (nit_nowhere i (mod_bucket hv)). rewrite Ec, app_comm_cons, Pre. rewrite !elem_of_app, !elem_of_cons. apply elem_of_app in Hin. tauto.
    - intros ->. apply NoDup_app in Nd as (_ & N1 & N2). apply NoDup_cons in N2 as [N2 _]. rewrite elem_of_cons in N2.
      apply elem_of_app in Hin as [Hin|Hin]; [apply (N1 prev Hin); left|tauto]. }
  constructor.
  - eexists. apply (table_update s _ cs tbl nit i (t :: l1 ++ nit :: l2)
      (omap id (take 4 (hb_items (kv_buckets s !!! i))) ++ t :: l1 ++ l2) T Sm W eq_refl).
    + reflexivity.
    + intros i' it Hi' Ni Hin. rewrite Next, !decide_False; [reflexivity| |].
      * intros ->. exact (nit_nowhere i' Hi' Hin).
      * intros ->. apply Ni. rewrite <- (chain_home i' prev Hi' Hin). exact (chain_home i prev (mod_bucket hv) Hp).
    + constructor; try assumption.
      * rewrite app_comm_cons, Pre, <- app_assoc. cbn [app]. apply chain_app in C as (m & C1 & C2). apply chain_app. exists m. split.
        -- apply (chain_ext (inext s)); [|exact C1]. intros it Hin. symmetry. apply Keep, elem_of_app. now left.
        -- apply chain_cons_inv in C2 as [-> C2]. apply chain_cons_inv in C2 as [_ C2]. constructor. rewrite Next, decide_True by reflexivity.
           constructor. rewrite Next, decide_False, decide_True by congruence.
           apply (chain_ext (inext s)); [|exact C2]. intros it Hin. symmetry. apply Keep, elem_of_app. now right.
      * intros j it Ej. transitivity (it_hv (kitem s it)); [exact (D j it Ej)|]. now pose proof (Sm it) as [= -> _ _ _].
    + unfold bitems. rewrite Ec, Eo. cbn [option_list option_rect app]. rewrite (app_comm_cons l1 (old :: l2) t), (app_comm_cons l1 l2 t).
      now rewrite <- !Permutation_middle.
    + unfold bitems. change (kv_buckets s3) with (kv_buckets s). rewrite (app_comm_cons l1 (nit :: l2) t), (app_comm_cons l1 l2 t).
      now rewrite <- !Permutation_middle.
  - exact Sm.
  - intros it. unfold s3. rewrite refs_set_next. apply entered_refs.
  - etransitivity; [apply (entered_segs (inext s old))|]. apply put_item_segs.
Qed.

Context (Refs : 0 < it_refcount (kitem s nit) < 65535).
Let key := item_key (kitem s nit).
Let b := kv_buckets s !!! i.

Lemma direct_lookup j it : bucket_item b j = Some it -> matches s key hv it -> tbl !! key_of s nit = Some it.
Proof.
  intros E M. apply (tr_lookup _ _ _ T). split; [|exact M]. apply elem_bitems; [|left; eauto].
  apply (bo_shape _ _ _ (tr_bucket _ _ _ T i (mod_bucket hv))).
Qed.

(** Replacing a direct item. *)
Lemma put_direct j it : (j < 5)%nat -> bucket_item b j = Some it -> matches s key hv it ->
  put_done s (set_slot (entered (inext s it)) hv j nit false) tbl nit.
Proof.
  intros Lj E M. pose proof (direct_lookup j it E M) as Et. destruct (bo_shape _ _ _ (tr_bucket _ _ _ T i (mod_bucket hv))) as [Li Lh C D].
  assert (Eh : nth j (hb_hashes b) 0 = hv) by (transitivity (it_hv (kitem s it)); [exact (D j it E)|now injection M]).
  destruct (decide (j = 4%nat)) as [->|N].
  - fold b in C. rewrite E in C. destruct (cs i) as [|x tail] eqn:Ec; [now apply chain_nil_inv in C|].
    apply chain_cons_inv in C as [[= <-] C]. apply (slot_last _ _ tail); [now right|now rewrite Ec, Et|exact C].
  - apply slot_low; [lia|now right|]. rewrite Et. exact E.
Qed.

(** A key the table does not have: a free slot or the fifth one. *)
Lemma put_new di : tbl !! key_of s nit = None -> (forall j, di = Some j -> (j < 5)%nat /\ bucket_item b j = None) ->
  put_done s (set_slot (entered (bucket_item b (default 4%nat di))) hv (default 4%nat di) nit true) tbl nit.
Proof.
  intros Et Hd. destruct (bo_shape _ _ _ (tr_bucket _ _ _ T i (mod_bucket hv))) as [Li Lh C D].
  destruct (decide (default 4%nat di = 4%nat)) as [->|N].
  - apply (slot_last _ _ (cs i)); [now left|now rewrite Et|exact C].
  - destruct di as [j|]; [|contradiction]. destruct (Hd j eq_refl) as [Lj Ej]. cbn in N |- *.
    apply slot_low; [lia|now left|]. rewrite Et. exact Ej.
Qed.

Lemma no_match : (forall j it, bucket_item b j = Some it -> ~ matches s key hv it) -> Forall (fun it => ~ matches s key hv it) (cs i) ->
  tbl !! key_of s nit = None.
Proof.
  intros Nd F. apply eq_None_not_Some. intros [it Et]. apply (tr_lookup _ _ _ T) in Et as [Hin M].
  change ((key_of s nit).1 mod nbuckets) with i in Hin. rewrite Forall_forall in F.
  apply elem_bitems in Hin as [[j Ej]|Hin]; [exact (Nd j it Ej M)|exact (F it Hin M)|].
  apply (bo_shape _ _ _ (tr_bucket _ _ _ T i (mod_bucket hv))).
Qed.

Lemma put_step fuel : (size tbl < fuel)%nat ->
  exists s', put_done s s' tbl nit /\
    hasht_put fuel s nit None = match tbl !! key_of s nit with Some old => item_unref s' old | None => Ok s' end.
Proof.
  intros L. pose proof (tr_bucket _ _ _ T i (mod_bucket hv)) as B. unfold hasht_put, bucket. cbv zeta. fold hv key. fold i. fold b.
  destruct (put_scan_spec s i (cs i) key hv (seq 0 5) None B) as [(j & it & Hj & E & M & Ep)|(Nd & di & Ep & Hd)]; fold b in Ep; rewrite Ep.
  - exists (set_slot (entered (inext s it)) hv j nit false). apply elem_of_seq in Hj.
    rewrite (direct_lookup j it E M). split; [apply put_direct; auto; lia|].
    cbn [bool_decide andb]. destruct (Z.eqb_spec nit it) as [En|N]; [destruct (New (key_of s nit)); rewrite En at 2; exact (direct_lookup j it E M)|].
    cbn [negb assert_ obind]. rewrite item_ref_ok by exact Refs. cbn [obind]. fold (inext (add_ref s nit 1) it). now rewrite inext_add_ref.
  - assert (Nd' : forall j it, bucket_item b j = Some it -> ~ matches s key hv it).
    { intros j it Ej. apply (Nd j it); [|exact Ej]. apply bucket_item_nth, lookup_lt_Some in Ej. unfold b in Ej.
      rewrite (bs_items _ _ _ (bo_shape _ _ _ B)) in Ej. apply elem_of_seq. lia. }
    assert (Hd' : forall j, di = Some j -> (j < 5)%nat /\ bucket_item b j = None).
    { intros j Ej. destruct (Hd j Ej) as [[=]|[Hj E]]. apply elem_of_seq in Hj. split; [lia|exact E]. }
    cbn [bool_decide]. rewrite item_ref_ok by exact Refs. cbn [obind].
    assert (Ins : tbl !! key_of s nit = None -> exists s', put_done s s' tbl nit /\
      (let di := match di with Some di => di | None => 4%nat end in
       Ok (set_slot (set_next (add_ref s nit 1) nit (bucket_item b di)) hv di nit true)) =
      match tbl !! key_of s nit with Some old => item_unref s' old | None => Ok s' end).
    { intros Et. eexists. split; [exact (put_new di Et Hd')|]. rewrite Et. destruct di; reflexivity. }
    pose proof (bs_chain _ _ _ (bo_shape _ _ _ B)) as C. fold b in C. destruct (bucket_item b 4) as [t|] eqn:E4.
    + destruct (cs i) as [|t' l] eqn:Ec; [now apply chain_nil_inv in C|]. apply chain_cons_inv in C as [[= <-] C].
      assert (Wl : Forall (fun it => item_wf (kitem s it)) l).
      { rewrite Forall_forall. intros it Hin. apply (bucket_wf s i (t :: l) it B). unfold bitems. apply elem_of_app. right. now right. }
      pose proof (chain_length s cs tbl i T (mod_bucket hv)) as Lc. rewrite Ec in Lc. cbn in Lc.
      rewrite (chain_find_same s) by (apply add_ref_same || (intros it; apply inext_add_ref)).
      destruct (chain_find_spec s key hv l fuel t C ltac:(lia) Wl) as [(l1 & it & l2 & El & M & ->)|(F & p & ->)]; cbn [obind].
      * assert (Et : tbl !! key_of s nit = Some it).
        { apply (tr_lookup _ _ _ T). split; [|exact M]. change ((key_of s nit).1 mod nbuckets) with i. rewrite Ec, El.
          unfold bitems. apply elem_of_app. right. right. apply elem_of_app. right. left. }
        rewrite Et. eexists. split; [apply (chain_done t l1 it l2 Et); now rewrite Ec, El|].
        fold (inext (add_ref s nit 1) it). now rewrite inext_add_ref.
      * apply Ins, no_match; [exact Nd'|]. rewrite Ec. constructor; [exact (Nd' 4%nat t E4)|exact F].
    + apply Ins, no_match; [exact Nd'|]. destruct (cs i); [constructor|]. now apply chain_cons_inv in C as [[=] _].
Qed.

(** C20. Storing an item, [hasht_put] without a compare: on a state that
    represents a map, with an item that is not in it, the map gets the item
    under its hash and key, wherever the bucket puts it (a direct slot, the head
    of the chain, or in place of an item anywhere in the bucket); the item has
    one reference more, and then the reference of the item it replaces, if any,
    is dropped. *)
Theorem hasht_put_refines fuel : (size tbl < fuel)%nat ->
  exists s', put_done s s' tbl nit /\
    hasht_put fuel s nit None = match tbl !! key_of s nit with Some old => item_unref s' old | None => Ok s' end.
Proof. intros L. exact (put_step fuel L). Qed.

(** Storing an item only if [c] is still the one under its key,
    [hasht_put] with a compare: the item takes the place of [c] exactly when the
    map has [c] under the key and [c] is one of the bucket's five direct items;
    in every other case, an item further down the chain included, nothing
    changes. *)
Theorem hasht_put_cas fuel c :
  (tbl !! key_of s nit = Some c /\ (exists j, bucket_item (bucket s (it_hv (kitem s nit))) j = Some c) /\
     exists s', put_done s s' tbl nit /\ hasht_put fuel s nit (Some c) = item_unref s' c) \/
  (~ (tbl !! key_of s nit = Some c /\ exists j, bucket_item (bucket s (it_hv (kitem s nit))) j = Some c) /\
     hasht_put fuel s nit (Some c) = Ok s).
Proof.
  change (bucket s (it_hv (kitem s nit))) with b. pose proof (tr_bucket _ _ _ T i (mod_bucket hv)) as B. unfold hasht_put, bucket. cbv zeta. fold hv key. fold i. fold b.
  destruct (put_scan_spec s i (cs i) key hv (seq 0 5) None B) as [(j & it & Hj & E & M & Ep)|(Nd & di & Ep & Hd)]; fold b in Ep; rewrite Ep.
  - pose proof (direct_lookup j it E M) as Et. apply elem_of_seq in Hj.
    rewrite bool_decide_eq_true_2 by eauto. destruct (decide (c = it)) as [->|N].
    + left. split_and!; [exact Et|eauto|]. exists (set_slot (entered (inext s it)) hv j nit false). split; [apply put_direct; auto; lia|].
      rewrite bool_decide_eq_true_2 by reflexivity. cbn [negb andb].
      destruct (Z.eqb_spec nit it) as [En|N]; [destruct (New (key_of s nit)); rewrite En at 2; exact Et|].
      cbn [negb assert_ obind]. rewrite item_ref_ok by exact Refs. cbn [obind]. fold (inext (add_ref s nit 1) it). now rewrite inext_add_ref.
    + right. split; [intros [Ec _]; congruence|]. now rewrite bool_decide_eq_false_2 by congruence.
  - right. split; [|now rewrite bool_decide_eq_true_2 by eauto]. intros [Ec (j & Ej)]. apply (tr_lookup _ _ _ T) in Ec as [_ M].
    apply (Nd j c); [|exact Ej|exact M]. apply bucket_item_nth, lookup_lt_Some in Ej. unfold b in Ej.
    rewrite (bs_items _ _ _ (bo_shape _ _ _ B)) in Ej. apply elem_of_seq. lia.
Qed.
End Insert.
End Ops.
