(* ===== verification/FkServer.v ===== *)
(** The server of the key-value store: flexkvs/server/main.c, the connections
    of a worker, their requests and the cleaning of its log.

    A connection's two buffers are adjacent in its struct.  A key or a value is
    read from them at the offsets of the request; reading behind the struct is
    [Crash], as the code then reads whatever follows in the heap.  The results
    of the socket calls are an argument; what is written to the socket is
    collected.  [p] is what [malloc] gives, should a new segment be taken. *)
From stdpp Require Import base numbers list gmap.
From Stdlib Require Import ZArith Lia.
From S2P Require Import Prelude Dma Packet FkHash FkAlloc FkTable.

Definition MAX_MSGSIZE : Z := 2048.
Definition PROTOCOL_BINARY_REQ : Z := 128.
Definition PROTOCOL_BINARY_RES : Z := 129.
Definition PROTOCOL_BINARY_CMD_GET : Z := 0.
Definition PROTOCOL_BINARY_CMD_SET : Z := 1.
Definition RESPONSE_SUCCESS : Z := 0.
Definition RESPONSE_KEY_ENOENT : Z := 1.
Definition RESPONSE_ENOMEM : Z := 130.
Definition SZ_REQ : Z := 24.
Definition SZ_SET : Z := 32.
Definition SZ_GET_RESPONSE : Z := 28.
Definition SZ_SET_RESPONSE : Z := 24.
Definition RX_BUF_OFFSET : Z := 22.                 (* offsetof(struct connection, rx_buf) *)

(** ** Connections *)

Record connection := mk_connection
  { c_it : option Z; c_rx_len : Z; c_rx_off : Z; c_tx_len : Z; c_tx_off : Z; c_epoll_wr : Z; c_req_done : bool;
    c_rx_buf : list Z; c_tx_buf : list Z }.
#[export] Instance eta_connection : Eta connection := fun c =>
  mk_connection (c_it c) (c_rx_len c) (c_rx_off c) (c_tx_len c) (c_tx_off c) (c_epoll_wr c) (c_req_done c) (c_rx_buf c) (c_tx_buf c).

Definition conn_mem (c : connection) : list Z := c_rx_buf c ++ c_tx_buf c.
Definition conn_read (c : connection) (off n : Z) : outcome (list Z) :=
  if off + n <=? Z.of_nat (length (conn_mem c)) then Ok (slice (conn_mem c) off n) else Crash.
Definition put_bytes (buf : list Z) (off : Z) (bs : list Z) : list Z := list_inserts (Z.to_nat off) bs buf.

(** The fields of the request at [rx_off]. *)
Definition req_u8 (c : connection) (i : Z) : Z := byte_at (conn_mem c) (c_rx_off c + i).
Definition req_keylen (c : connection) : Z := be16_at (conn_mem c) (c_rx_off c + 2).
Definition req_extlen (c : connection) : Z := req_u8 c 4.
Definition req_bodylen (c : connection) : Z := be32_at (conn_mem c) (c_rx_off c + 8).
Definition req_opaque (c : connection) : list Z := slice (conn_mem c) (c_rx_off c + 12) 4.

Definition resp_header (op extlen status bodylen : Z) (opaque : list Z) : list Z :=
  [PROTOCOL_BINARY_RES; op] ++ be16_bytes 0 ++ [extlen; 0] ++ be16_bytes status ++ be32_bytes bodylen ++ opaque.

Definition conn_req_iscomp (c : connection) : bool :=
  let avail := u16 (c_rx_len c - c_rx_off c) in
  negb (avail <? SZ_REQ) && negb (avail <? SZ_REQ + req_bodylen c).

Definition conn_upepoll (c : connection) (wr : Z) : connection :=
  if c_epoll_wr c =? wr then c else c <| c_epoll_wr := wr |>.

(** The item is filled in. *)
Definition fill (s : kv) (it hv : Z) (key val : list Z) : kv :=
  put_item s it (kitem s it <| it_hv := hv |> <| it_vallen := Z.of_nat (length val) |> <| it_keylen := Z.of_nat (length key) |>
    <| it_data := key ++ val |>).

(** What [ss_read] and [ss_write] return. *)
Inductive io_result := io_data (bs : list Z) | io_sent (n : Z) | io_zero | io_again | io_error.
Record io := mk_io { io_results : list io_result; io_out : list Z }.

Section Server.
Context `{KvEnv}.

Definition conn_close (s : kv) (c : connection) : outcome kv :=
  match c_it c with Some it => item_unref s it | None => Ok s end.

(** The connection is closed. *)
Definition conn_closed {A} (s : kv) (c : connection) (x : A) : outcome (kv * option connection * Z * A) :=
  let! s := conn_close s c in Ok (s, None, -1, x).

Fixpoint conn_recv (l : list io_result) (s : kv) (c : connection) : outcome (kv * option connection * Z * list io_result) :=
  match l with
  | io_data bs :: l =>
      if c_rx_len c =? MAX_MSGSIZE then conn_closed s c l
      else
        let c := c <| c_rx_buf := put_bytes (c_rx_buf c) (c_rx_len c) bs |> <| c_rx_len := u16 (c_rx_len c + Z.of_nat (length bs)) |> in
        if conn_req_iscomp c then Ok (s, Some c, 0, l) else conn_recv l s c
  | io_again :: l => Ok (s, Some (conn_upepoll c 0), 1, l)
  | _ :: l => conn_closed s c l
  | [] => Ok (s, Some (conn_upepoll c 0), 1, [])
  end.

Fixpoint conn_send (l : list io_result) (out : list Z) (s : kv) (c : connection) : outcome (kv * option connection * Z * io) :=
  match l with
  | io_sent n :: l =>
      let out := out ++ slice (c_tx_buf c) (c_tx_off c) n in
      let c := c <| c_tx_off := u16 (c_tx_off c + n) |> in
      if c_tx_off c <? c_tx_len c then conn_send l out s c
      else Ok (s, Some (c <| c_tx_off := 0 |> <| c_tx_len := 0 |>), 0, mk_io l out)
  | io_again :: l => Ok (s, Some (conn_upepoll c 1), 1, mk_io l out)
  | _ :: l => conn_closed s c (mk_io l out)
  | [] => Ok (s, Some (conn_upepoll c 1), 1, mk_io [] out)
  end.

(** ** Requests *)

(** The hash of the [kl] bytes at [off] of the buffers; [a] is the address of
    the connection. *)
Definition conn_hash (a : Z) (c : connection) (off kl : Z) : outcome Z :=
  jenkins_hash (S (Z.to_nat kl)) (mem_write ∅ (a + RX_BUF_OFFSET) (conn_mem c)) (a + RX_BUF_OFFSET + off) kl.

(** The lookup of a GET, unless it is done. *)
Definition get_lookup (fuel : nat) (a : Z) (s : kv) (c : connection) : outcome (kv * connection) :=
  if c_req_done c then Ok (s, c)
  else
    let off := c_rx_off c + SZ_REQ in
    let! key := conn_read c off (req_keylen c) in
    let! h := conn_hash a c off (req_keylen c) in
    let! (s, it) := hasht_get fuel s key h in
    Ok (s, c <| c_it := it |> <| c_req_done := true |>).

(** The bytes of a GET's response. *)
Definition get_response (c : connection) (x : option item) : list Z * list Z :=
  match x with
  | Some x => (resp_header PROTOCOL_BINARY_CMD_GET 4 RESPONSE_SUCCESS (u32 (4 + it_vallen x)) (req_opaque c), be32_bytes 0 ++ item_value x)
  | None => (resp_header PROTOCOL_BINARY_CMD_GET 4 RESPONSE_KEY_ENOENT 4 (req_opaque c), be32_bytes 0)
  end.

(** The allocation and the insertion of a SET, unless they are done. *)
Definition set_store (fuel : nat) (a ia : Z) (p : option Z) (s : kv) (c : connection) : outcome (kv * connection) :=
  if c_req_done c then Ok (s, c)
  else
    let off := c_rx_off c + SZ_SET in
    let kl := req_keylen c in
    let vl := u32 (req_bodylen c - kl - req_extlen c) in
    let! (s, it) := ialloc_alloc s ia (SZ_ITEM + kl + vl) false p in
    let! s := match it with
      | None => Ok s
      | Some it =>
          let! h := conn_hash a c off kl in
          let! key := conn_read c off kl in
          let! val := conn_read c (off + kl) vl in
          let! s := hasht_put fuel (fill s it h key val) it None in
          item_unref s it
      end in
    Ok (s, c <| c_it := it |> <| c_req_done := true |>).

(** The end of a request; the eight bytes of [cas] keep what the buffer had. *)
Definition req_finish (c : connection) (hdr body : list Z) (rsl : Z) : connection :=
  c <| c_tx_buf := put_bytes (put_bytes (c_tx_buf c) (c_tx_len c) hdr) (c_tx_len c + SZ_SET_RESPONSE) body |>
    <| c_rx_off := u16 (c_rx_off c + u32 (SZ_REQ + req_bodylen c)) |> <| c_tx_len := u16 (c_tx_len c + rsl) |> <| c_req_done := false |>.

Definition conn_req_process (fuel : nat) (a ia : Z) (p : option Z) (s : kv) (c : connection) : outcome (kv * option connection * Z) :=
  let closed := let! s := conn_close s c in Ok (s, None, -1) in
  if negb (req_u8 c 0 =? PROTOCOL_BINARY_REQ) then closed
  else if req_u8 c 1 =? PROTOCOL_BINARY_CMD_GET then
    let! (s, c) := get_lookup fuel a s c in
    let rsl := u32 (SZ_GET_RESPONSE + match c_it c with Some it => it_vallen (kitem s it) | None => 0 end) in
    if MAX_MSGSIZE - c_tx_len c <? rsl then Ok (s, Some c, 1)
    else
      let '(hdr, body) := get_response c (option_map (kitem s) (c_it c)) in
      let! s := match c_it c with Some it => item_unref s it | None => Ok s end in
      Ok (s, Some (req_finish c hdr body rsl), 0)
  else if req_u8 c 1 =? PROTOCOL_BINARY_CMD_SET then
    let! (s, c) := set_store fuel a ia p s c in
    let rsl := SZ_SET_RESPONSE in
    if MAX_MSGSIZE - c_tx_len c <? rsl then Ok (s, Some c, 1)
    else
      let status := match c_it c with Some _ => RESPONSE_SUCCESS | None => RESPONSE_ENOMEM end in
      Ok (s, Some (req_finish c (resp_header PROTOCOL_BINARY_CMD_SET 0 status 0 (req_opaque c)) [] rsl), 0)
  else closed.

(** ** Events *)

(** The loop over the complete requests; it ends with the last one, or when the
    connection is closed or has to wait ([false]). *)
Fixpoint req_loop (rounds fuel : nat) (a ia : Z) (ps : list (option Z)) (e : io) (s : kv) (c : connection)
    : outcome (kv * option connection * bool * io) :=
  match rounds with
  | O => Spin
  | S rounds =>
      if negb (conn_req_iscomp c) then Ok (s, Some c, true, e)
      else
        let! (s, c, ret) := conn_req_process fuel a ia (hd None ps) s c in
        match c with
        | None => Ok (s, None, false, e)
        | Some c =>
            if c_tx_len c =? 0 then req_loop rounds fuel a ia (tl ps) e s c
            else
              let! (s, c, ret, e) := conn_send (io_results e) (io_out e) s c in
              match c with
              | Some c => if ret =? 0 then req_loop rounds fuel a ia (tl ps) e s c else Ok (s, Some c, false, e)
              | None => Ok (s, None, false, e)
              end
        end
  end.

Definition move_up (c : connection) : connection :=
  if c_rx_off c =? 0 then c
  else
    let n := c_rx_len c - c_rx_off c in
    let c := if n =? 0 then c <| c_rx_len := 0 |>
             else c <| c_rx_buf := put_bytes (c_rx_buf c) 0 (slice (c_rx_buf c) (c_rx_off c) n) |> <| c_rx_len := u16 n |> in
    c <| c_rx_off := 0 |>.

Definition EPOLLIN : Z := 1.
Definition EPOLLOUT : Z := 4.

(** The reads and writes come from [reads] and [e]; the connection, unless it
    was closed. *)
Definition conn_events (rounds fuel : nat) (a ia : Z) (ps : list (option Z)) (reads : list io_result) (e : io) (s : kv) (c : connection)
    (events : Z) : outcome (kv * option connection * io) :=
  if negb (Z.land events (Z.lnot (Z.lor EPOLLIN EPOLLOUT)) =? 0) then
    let! s := conn_close s c in Ok (s, None, e)
  else
    let! (s, c, ret, e) :=
      if Z.land events EPOLLIN =? EPOLLIN then let! (s, c, ret, _) := conn_recv reads s c in Ok (s, c, ret, e)
      else if Z.land events EPOLLOUT =? EPOLLOUT then
        let! _ := assert_ (c_tx_off c <? c_tx_len c) in conn_send (io_results e) (io_out e) s c
      else Ok (s, Some c, 0, e) in
    match c with
    | None => Ok (s, None, e)
    | Some c =>
        if negb (ret =? 0) then Ok (s, Some c, e)
        else
          let! (s, c, go, e) := req_loop rounds fuel a ia ps e s c in
          match c with
          | Some c => if go then Ok (s, Some (conn_upepoll (move_up c) 0), e) else Ok (s, Some c, e)
          | None => Ok (s, None, e)
          end
    end.

(** ** Cleaning *)

(** [ps], [qs]: what [malloc] gives to the clean-up and to the allocation. *)
Fixpoint clean_loop (fuel hfuel : nat) (ia : Z) (idle : bool) (ps : list (option Z * option Z)) (n : Z) (s : kv) : outcome (kv * Z) :=
  match fuel with
  | O => Spin
  | S fuel =>
      let '(p, q) := hd (None, None) ps in
      match ialloc_cleanup_item s ia idle p with
      | (s, None) => Ok (s, n)
      | (s, Some it) =>
          let! s :=
            if it_refcount (kitem s it) =? 1 then Ok s
            else
              let x := kitem s it in
              let! (s, nit) := ialloc_alloc s ia (SZ_ITEM + it_keylen x + it_vallen x) true q in
              match nit with
              | None => Crash
              | Some nit =>
                  let x := kitem s it in
                  let s := put_item s nit (kitem s nit <| it_hv := it_hv x |> <| it_vallen := it_vallen x |> <| it_keylen := it_keylen x |>
                             <| it_data := take (Z.to_nat (it_keylen x + it_vallen x)) (it_data x) |>) in
                  let! s := hasht_put hfuel s nit (Some it) in
                  item_unref s nit
              end in
          let! s := item_unref s it in
          clean_loop fuel hfuel ia idle (tl ps) (n + 1) s
      end
  end.

Definition clean_log (fuel hfuel : nat) (ia : Z) (idle : bool) (ps : list (option Z * option Z)) (s : kv) : outcome (kv * Z) :=
  clean_loop fuel hfuel ia idle ps 0 (if idle then s else ialloc_cleanup_nextrequest s ia).
End Server.
