(* ===== verification/FkStore.v ===== *)
(** Allocator and table together: the key-value store.

    A server allocates and fills items, stores them, looks them up and drops
    its references, in any order ([store_step]).  The specification keeps a map
    from keys to items, the references held outside the table and what every
    item was filled with. *)
From stdpp Require Import base numbers list gmap relations.
From Stdlib Require Import ZArith Lia.
From S2P Require Import Prelude LinkedList PacketMem FkAlloc FkAllocSafe FkAllocOps FkAllocSystem FkTable FkTableRep FkTableOps FkServer.

(** ** References *)

(** The keys that have the item: its references from the table. *)
Definition map_refs (m : gmap (Z * list Z) Z) (it : Z) : Z := Z.of_nat (size (filter (fun kv => kv.2 = it) m)).

Lemma map_refs_delete m k it : map_refs (delete k m) it = map_refs m it - if decide (m !! k = Some it) then 1 else 0.
Proof.
  unfold map_refs. rewrite map_filter_delete. case_decide as E.
  - rewrite map_size_delete, (proj2 (map_lookup_filter_Some (fun kv => kv.2 = it) m k it) (conj E eq_refl)).
    assert (size (filter (fun kv => kv.2 = it) m) <> 0)%nat; [|lia].
    intros Z0. apply map_size_empty_inv in Z0. pose proof (proj2 (map_lookup_filter_Some (fun kv => kv.2 = it) m k it) (conj E eq_refl)) as K.
    rewrite Z0, lookup_empty in K. discriminate.
  - rewrite delete_id; [lia|]. apply map_lookup_filter_None. right. intros x Ex Eq. cbn in Eq. congruence.
Qed.

Lemma map_refs_insert m k nit it :
  map_refs (<[k := nit]> m) it = map_refs m it + (if decide (it = nit) then 1 else 0) - if decide (m !! k = Some it) then 1 else 0.
Proof.
  rewrite <- insert_delete_eq. pose proof (map_refs_delete m k it) as D.
  assert (N : delete k m !! k = None) by apply lookup_delete_eq.
  enough (E : map_refs (<[k := nit]> (delete k m)) it = map_refs (delete k m) it + if decide (it = nit) then 1 else 0) by lia.
  unfold map_refs. destruct (decide (it = nit)) as [->|Ne].
  - rewrite map_filter_insert_True by reflexivity. rewrite map_size_insert_None; [lia|].
    apply map_lookup_filter_None. now left.
  - rewrite map_filter_insert_False by (cbn; congruence). rewrite delete_delete_eq. lia.
Qed.

Lemma map_refs_nonneg m it : 0 <= map_refs m it.
Proof. unfold map_refs. lia. Qed.
Lemma map_refs_zero m k it : map_refs m it = 0 -> m !! k <> Some it.
Proof. intros Z0 E. pose proof (map_refs_delete m k it) as D. rewrite decide_True in D by exact E. pose proof (map_refs_nonneg (delete k m) it). lia. Qed.
Lemma map_refs_pos m k it : m !! k = Some it -> 0 < map_refs m it.
Proof. intros E. pose proof (map_refs_nonneg m it). pose proof (map_refs_zero m k it). destruct (Z.eq_dec (map_refs m it) 0); [now destruct H0|lia]. Qed.

(** ** The invariant *)

Section Store.
Context `{KvEnv}.
Context (Size : 0 < segsize < 4294967296) (Num : 0 <= segmaxnum) (Base : 0 <= seg_base)
        (Top : seg_base + segsize * segmaxnum < 18446744073709551616).

Definition blk (s : kv) (it : Z) : block := mk_block it (item_totalsz (kitem s it)).

(** [R it] references to item [it]; [l]: the items that have any. *)
Record store_inv (s : kv) (m : gmap (Z * list Z) Z) (R : Z -> Z) (cont : gmap Z (Z * list Z * list Z)) (l : list Z) : Prop := mk_store_inv
  { si_table : exists cs, table_rep s cs m;
    si_alloc : alloc_ok s (map (blk s) l);
    si_nodup : NoDup l;
    si_out : forall it, it ∈ l <-> 0 < R it;
    si_map : forall k it, m !! k = Some it -> 0 < R it;
    si_item : forall it, it ∈ l -> it_refcount (kitem s it) = R it /\ item_wf (kitem s it) /\
      exists hv key val, cont !! it = Some (hv, key, val) /\ key_of s it = (hv, key) /\ item_value (kitem s it) = val }.

Lemma store_inv_ext s m R R' cont l : (forall it, R it = R' it) -> store_inv s m R cont l -> store_inv s m R' cont l.
Proof.
  intros E []. constructor; auto; [intros it; rewrite <- E; auto|intros k it; rewrite <- E; eauto|].
  intros it Hin. rewrite <- E. auto.
Qed.

Lemma same_totalsz s s' it : same_items s s' -> item_totalsz (kitem s' it) = item_totalsz (kitem s it).
Proof. intros E. unfold item_totalsz. now pose proof (E it) as [= _ -> -> _]. Qed.
Lemma same_value s s' it : same_items s s' -> item_value (kitem s' it) = item_value (kitem s it).
Proof. intros E. unfold item_value. now pose proof (E it) as [= _ -> -> ->]. Qed.
Lemma same_blocks s s' l : same_items s s' -> map (blk s') l = map (blk s) l.
Proof. intros E. apply map_ext. intros it. unfold blk. now rewrite (same_totalsz s s'). Qed.
Lemma ok_same_segs s s' live : same_segs s s' -> alloc_ok s live -> alloc_ok s' live.
Proof. intros (m & t & ->) A. exact (ok_buckets Size _ _ t (ok_items Size s live m A)). Qed.

(** Links, buckets and references change; nothing gets out and nothing back. *)
Lemma store_change s s' m m' R R' cont l : store_inv s m R cont l -> same_items s s' -> same_segs s s' ->
  (exists cs, table_rep s' cs m') -> (forall k it, m' !! k = Some it -> it ∈ l) ->
  (forall it, it_refcount (kitem s' it) - it_refcount (kitem s it) = R' it - R it) -> (forall it, 0 < R' it <-> 0 < R it) ->
  store_inv s' m' R' cont l.
Proof.
  intros [] Sm Sg T M Rc Pos. constructor; auto.
  - rewrite (same_blocks s s' l Sm). now apply (ok_same_segs s).
  - intros it. now rewrite si_out0, Pos.
  - intros k it E. apply Pos, si_out0. eauto.
  - intros it Hin. destruct (si_item0 it Hin) as (Er & W & hv & key & val & Ec & Ek & Ev). specialize (Rc it).
    split; [lia|]. split; [now apply (same_wf s)|]. exists hv, key, val. now rewrite (same_key s s'), (same_value s s').
Qed.

(** ** Dropping a reference *)

Lemma free_frame s it t s' : ialloc_free s it t = Ok s' -> kv_items s' = kv_items s /\ kv_buckets s' = kv_buckets s.
Proof.
  unfold ialloc_free. destruct (segment_from_part s it) as [[h|]| |]; cbn [obind]; try discriminate. now intros [= <-].
Qed.

(** Whatever the reference was, dropping it succeeds; with the last one the
    item's bytes are given back. *)
Lemma unref_ok s m R cont l it : store_inv s m R cont l -> 0 < R it ->
  exists s' l', item_unref s it = Ok s' /\ (forall x, kitem s' x = kitem (add_ref s it (-1)) x) /\ kv_buckets s' = kv_buckets s /\
    alloc_ok s' (map (blk s) l') /\ NoDup l' /\ forall x, x ∈ l' <-> x ∈ l /\ (x = it -> R it <> 1).
Proof.
  intros I Pos. pose proof (proj2 (si_out _ _ _ _ _ I it) Pos) as Hin.
  destruct (si_item _ _ _ _ _ I it Hin) as (Er & W & _). unfold item_unref. rewrite Er.
  destruct (Z.ltb_spec 0 (R it)); [|lia]. cbn [assert_ obind].
  assert (Ea : put_item s it (kitem s it <| it_refcount := R it - 1 |>) = add_ref s it (-1)) by (unfold add_ref; now rewrite Er).
  rewrite Ea. set (s1 := add_ref s it (-1)).
  assert (A1 : alloc_ok s1 (map (blk s) l)) by (apply (ok_same_segs s); [apply put_item_segs|apply I]).
  destruct (Z.eqb_spec (R it - 1) 0) as [E0|E0].
  - apply list_elem_of_split in Hin as (l1 & l2 & El). pose proof (si_nodup _ _ _ _ _ I) as Nd. rewrite El in Nd.
    destruct (nodup_without l1 l2 it Nd) as [Nd12 Mem]. rewrite <- El in Mem.
    rewrite El, map_app, map_cons in A1. destruct (ok_free Size Num Base Top s1 _ _ _ A1) as (s' & Ef & A').
    cbn [pm_base pm_len blk] in Ef. rewrite <- (same_totalsz s s1 it (add_ref_same s it (-1))) in Ef.
    destruct (free_frame _ _ _ _ Ef) as [Ei Eb]. exists s', (l1 ++ l2). split_and!; [exact Ef| |exact Eb|now rewrite map_app|exact Nd12|].
    + intros x. unfold kitem. now rewrite Ei.
    + intros x. rewrite Mem. split; [intros [Hx Nx]; split; [exact Hx|contradiction]|]. intros [Hx Nx]. split; [exact Hx|]. intros E. apply (Nx E). lia.
  - exists s1, l. split_and!; [reflexivity|reflexivity|reflexivity|exact A1|apply I|]. intros x. split; [intros Hx; split; [exact Hx|lia]|tauto].
Qed.

Lemma store_unref s m R cont l it : store_inv s m R cont l -> 0 < R it -> (R it = 1 -> forall k, m !! k <> Some it) ->
  exists s' l', item_unref s it = Ok s' /\ store_inv s' m (fun x => R x - if decide (x = it) then 1 else 0) cont l'.
Proof.
  intros I Pos Last. destruct (unref_ok s m R cont l it I Pos) as (s' & l' & E & Ek & Eb & A & Nd & Mem). exists s', l'. split; [exact E|].
  assert (Sm : same_items s s') by (intros x; rewrite Ek; apply add_ref_same).
  constructor.
  - destruct (si_table _ _ _ _ _ I) as [cs T]. exists cs.
    apply (table_frame s); [exact Sm|exact Eb|intros x; unfold inext; rewrite Ek; apply inext_add_ref|exact T].
  - rewrite (same_blocks s s' l' Sm). exact A.
  - exact Nd.
  - intros x. rewrite Mem, (si_out _ _ _ _ _ I). case_decide as Ex; [subst; split; [intros [_ N]; specialize (N eq_refl); lia|intros P; split; lia]|].
    rewrite Z.sub_0_r. tauto.
  - intros k x Em. pose proof (si_map _ _ _ _ _ I k x Em). case_decide; [|lia]. subst. destruct (Z.eq_dec (R it) 1) as [E1|]; [|lia].
    now destruct (Last E1 k).
  - intros x Hx. apply Mem in Hx as [Hx _]. destruct (si_item _ _ _ _ _ I x Hx) as (Ex & Wx & hv & key & val & Ec & Exk & Ev).
    split; [rewrite Ek, refs_add_ref; case_decide; lia|]. split; [now apply (same_wf s)|]. exists hv, key, val.
    rewrite (same_key s s' x Sm), (same_value s s' x Sm). auto.
Qed.

(** ** Taking a reference *)

Lemma store_ref s m R cont l it : store_inv s m R cont l -> 0 < R it ->
  store_inv (add_ref s it 1) m (fun x => R x + if decide (x = it) then 1 else 0) cont l.
Proof.
  intros I Pos. apply (store_change s _ m m R _ cont l I); [apply add_ref_same|apply put_item_segs|..].
  - destruct (si_table _ _ _ _ _ I) as [cs T]. exists cs.
    apply (table_frame s); [apply add_ref_same|reflexivity|intros x; apply inext_add_ref|exact T].
  - intros k x Ex. apply (si_out _ _ _ _ _ I), (si_map _ _ _ _ _ I k x Ex).
  - intros x. rewrite refs_add_ref. lia.
  - intros x. case_decide; subst; lia.
Qed.

(** ** A new item *)

Lemma fill_item s it hv key val x : kitem (fill s it hv key val) x =
  if decide (x = it) then mk_item (it_next (kitem s it)) hv (Z.of_nat (length val)) (it_refcount (kitem s it)) (Z.of_nat (length key)) (key ++ val)
  else kitem s x.
Proof. unfold fill. now rewrite kitem_put. Qed.

Lemma filled_ok s it hv key val : let s' := fill s it hv key val in
  item_wf (kitem s' it) /\ key_of s' it = (hv, key) /\ item_value (kitem s' it) = val /\
  item_totalsz (kitem s' it) = SZ_ITEM + Z.of_nat (length key) + Z.of_nat (length val).
Proof.
  cbv zeta. unfold item_wf, key_of, item_key, item_value, item_totalsz. rewrite fill_item, decide_True by reflexivity. cbn.
  rewrite !Nat2Z.id, take_app_length, drop_app_length, firstn_all, length_app. split_and!; try reflexivity; lia.
Qed.

(** Only items that are out are in the table. *)
Lemma table_frame_members s s' cs m : table_rep s cs m -> kv_buckets s' = kv_buckets s ->
  (forall k it, m !! k = Some it -> kitem s' it = kitem s it) -> table_rep s' cs m.
Proof.
  intros T Eb Em.
  assert (Ei : forall i it, 0 <= i < nbuckets -> it ∈ bitems s i (cs i) -> kitem s' it = kitem s it).
  { intros i it Hi Hin. exact (Em _ it (member_lookup s cs m i it T Hi Hin)). }
  destruct T as [B L]. constructor.
  - intros i Hi. destruct (B i Hi) as [[Li Lh C D] N F]. specialize (fun it => Ei i it Hi). constructor; [constructor|..]; rewrite ?Eb; try assumption.
    + apply (chain_ext (inext s)); [|exact C]. intros it Hin. unfold inext. rewrite Ei; [reflexivity|]. unfold bitems. apply elem_of_app. now right.
    + intros j it Ej. rewrite (D j it Ej), Ei; [reflexivity|]. apply elem_bitems; [now constructor|left; eauto].
    + rewrite (bitems_same s s' i _) by now rewrite Eb. erewrite map_ext_in; [exact N|]. intros it Hin. unfold key_of. rewrite Ei; [reflexivity|].
      now apply list_elem_of_In.
    + rewrite (bitems_same s s' i _) by now rewrite Eb. rewrite Forall_forall in F |- *. intros it Hin. rewrite Ei by exact Hin. auto.
  - intros k it. rewrite L, (bitems_same s s') by now rewrite Eb. split; intros [Hin E]; (split; [exact Hin|]); revert E; unfold key_of;
      rewrite (Ei (k.1 mod nbuckets) it (mod_bucket _) Hin); auto.
Qed.

(** The items that are out occupy their bytes. *)
Lemma out_owned s m R cont l it : store_inv s m R cont l -> it ∈ l -> owners (map (blk s) l) it <> 0.
Proof.
  intros I Hin. apply list_elem_of_split in Hin as (l1 & l2 & El). rewrite El, map_app, owners_app. cbn [map owners].
  destruct (si_item _ _ _ _ _ I it) as (_ & (K & V & _) & _); [rewrite El; apply elem_of_app; right; left|].
  assert (in_block (blk s it) it = 1).
  { destruct (in_block_cases (blk s it) it) as [[E _]|[_ E]]; [exact E|]. destruct E. unfold blk, item_totalsz, SZ_ITEM. cbn. lia. }
  assert (N : forall k, 0 <= owners k it).
  { induction k as [|b k IH]; cbn; [lia|]. destruct (in_block_cases b it); lia. }
  pose proof (N (map (blk s) l1)). pose proof (N (map (blk s) l2)). lia.
Qed.

Lemma store_new s m R cont l ia hv key val p : store_inv s m R cont l -> (forall it, 0 <= R it) -> is_Some (kv_ias s !! ia) -> new_header s p ->
  let total := SZ_ITEM + Z.of_nat (length key) + Z.of_nat (length val) in total < segsize ->
  exists s1 r, ialloc_alloc s ia total false p = Ok (s1, r) /\
    match r with
    | None => store_inv s1 m R cont l
    | Some it => R it = 0 /\ exists l', store_inv (fill s1 it hv key val) m (fun x => R x + if decide (x = it) then 1 else 0)
        (<[it := (hv, key, val)]> cont) l'
    end.
Proof.
  intros I Nn Hx Fr total Lt.
  destruct (ok_alloc Size Num Base Top s (map (blk s) l) ia total false p (si_alloc _ _ _ _ _ I) Hx Fr) as (s1 & r & E & [Eb Ek] & _ & Hr);
    [unfold total, SZ_ITEM in *; lia|].
  assert (Keep : forall it, it ∈ l -> kitem s1 it = kitem s it) by (intros it Hin; exact (Ek it (out_owned s m R cont l it I Hin))).
  assert (InL : forall k it, m !! k = Some it -> it ∈ l) by (intros k it Em; apply (si_out _ _ _ _ _ I), (si_map _ _ _ _ _ I k it Em)).
  assert (Bk : forall s', (forall it, it ∈ l -> kitem s' it = kitem s it) -> map (blk s') l = map (blk s) l).
  { intros s' K. apply map_ext_in. intros it Hin. unfold blk. rewrite K; [reflexivity|now apply list_elem_of_In]. }
  destruct (si_table _ _ _ _ _ I) as [cs T]. exists s1, r. split; [exact E|]. destruct r as [it|].
  - destruct Hr as (Rc & A & Fresh).
    assert (Nin : it ∉ l).
    { intros Hin. apply (out_owned s m R cont l it I Hin). apply Fresh. unfold total, SZ_ITEM. lia. }
    assert (R0 : R it = 0) by (specialize (Nn it); pose proof (si_out _ _ _ _ _ I it); destruct (Z.eq_dec (R it) 0); [assumption|destruct Nin; apply H0; lia]).
    split; [exact R0|]. exists (it :: l). destruct (filled_ok s1 it hv key val) as (W & Kf & Vf & Tf).
    set (s2 := fill s1 it hv key val) in *.
    assert (K2 : forall x, x ∈ l -> kitem s2 x = kitem s x).
    { intros x Hin. unfold s2. rewrite fill_item, decide_False by congruence. auto. }
    constructor.
    + exists cs. apply (table_frame_members s); [exact T|exact Eb|]. intros k x Em. exact (K2 x (InL k x Em)).
    + cbn [map]. unfold blk at 1. rewrite Tf, (Bk s2 K2). apply (ok_same_segs s1); [apply put_item_segs|exact A].
    + constructor; [exact Nin|apply (si_nodup _ _ _ _ _ I)].
    + intros x. rewrite elem_of_cons, (si_out _ _ _ _ _ I). case_decide as Ex; [rewrite Ex, R0; split; [lia|auto]|]. rewrite Z.add_0_r. tauto.
    + intros k x Em. pose proof (si_map _ _ _ _ _ I k x Em). case_decide; lia.
    + intros x Hin. apply elem_of_cons in Hin as [->|Hin].
      * rewrite decide_True by reflexivity. split; [unfold s2; rewrite fill_item, decide_True by reflexivity; cbn; lia|]. split; [exact W|].
        exists hv, key, val. now rewrite lookup_insert_eq.
      * assert (Nx : x <> it) by congruence. rewrite decide_False by exact Nx. unfold key_of. rewrite (K2 x Hin), Z.add_0_r, lookup_insert_ne by congruence.
        exact (si_item _ _ _ _ _ I x Hin).
  - destruct I. constructor; auto.
    + exists cs. apply (table_frame_members s); [exact T|exact Eb|]. intros k x Em. exact (Keep x (InL k x Em)).
    + rewrite (Bk s1 Keep). exact Hr.
    + intros x Hin. unfold key_of. rewrite (Keep x Hin). exact (si_item0 x Hin).
Qed.

(** ** Storing an item *)

Lemma store_put s m R cont l nit fuel : store_inv s m R cont l -> 0 < R nit < 65535 -> (forall k, m !! k <> Some nit) ->
  (size m < fuel)%nat ->
  exists s' l', hasht_put fuel s nit None = Ok s' /\
    store_inv s' (<[key_of s nit := nit]> m)
      (fun x => R x + (if decide (x = nit) then 1 else 0) - if decide (m !! key_of s nit = Some x) then 1 else 0) cont l'.
Proof.
  intros I Pos New L. pose proof (proj2 (si_out _ _ _ _ _ I nit) (proj1 Pos)) as Hin.
  destruct (si_item _ _ _ _ _ I nit Hin) as (Er & W & _). destruct (si_table _ _ _ _ _ I) as [cs T].
  destruct (put_step s cs m nit T W New ltac:(lia) fuel L) as (s1 & [T1 Sm Rf Sg] & Ep). rewrite Ep.
  assert (I1 : store_inv s1 (<[key_of s nit := nit]> m) (fun x => R x + if decide (x = nit) then 1 else 0) cont l).
  { apply (store_change s s1 m _ R _ cont l I Sm Sg T1).
    - intros k x. rewrite lookup_insert. case_decide; [intros [= <-]; exact Hin|]. intros Em. apply (si_out _ _ _ _ _ I), (si_map _ _ _ _ _ I k x Em).
    - intros x. rewrite Rf. lia.
    - intros x. case_decide; subst; lia. }
  destruct (m !! key_of s nit) as [old|] eqn:Eo.
  - assert (No : old <> nit) by (intros ->; exact (New _ Eo)). pose proof (si_map _ _ _ _ _ I _ _ Eo) as Po.
    destruct (store_unref s1 _ _ cont l old I1) as (s' & l' & Eu & I').
    + rewrite decide_False by exact No. lia.
    + intros _ k. rewrite lookup_insert. case_decide as Ek; [congruence|]. intros Em.
      apply (tr_lookup _ _ _ T) in Eo as [_ Ko]. apply (tr_lookup _ _ _ T) in Em as [_ Km]. congruence.
    + exists s', l'. split; [exact Eu|]. eapply store_inv_ext; [|exact I']. intros x. cbn. repeat case_decide; simplify_eq; lia.
  - exists s1, l. split; [reflexivity|]. eapply store_inv_ext; [|exact I1]. intros x. cbn. rewrite (decide_False (P := None = Some x)) by discriminate. lia.
Qed.

(** ** The store as a system *)

(** What the server knows: items by hash and key, the references it holds, and
    what it filled each item with. *)
Record spec := mk_spec { sp_map : gmap (Z * list Z) Z; sp_held : gmap Z Z; sp_cont : gmap Z (Z * list Z * list Z) }.
Definition spec_init : spec := mk_spec ∅ ∅ ∅.
Definition held (a : spec) (it : Z) : Z := default 0 (sp_held a !! it).
Definition hold (a : spec) (it d : Z) : spec := mk_spec (sp_map a) (<[it := held a it + d]> (sp_held a)) (sp_cont a).
Definition spec_new (a : spec) (it : Z) (c : Z * list Z * list Z) : spec :=
  mk_spec (sp_map a) (<[it := held a it + 1]> (sp_held a)) (<[it := c]> (sp_cont a)).
Definition spec_put (a : spec) (k : Z * list Z) (it : Z) : spec := mk_spec (<[k := it]> (sp_map a)) (sp_held a) (sp_cont a).
Definition total_refs (a : spec) (it : Z) : Z := held a it + map_refs (sp_map a) it.
Definition room (s : kv) (a : spec) (hv : Z) (key : list Z) : Prop :=
  forall it, sp_map a !! (hv, key) = Some it -> it_refcount (kitem s it) < 65535.

Inductive store_step : kv * spec -> kv * spec -> Prop :=
| ss_init s a ia p q s' : new_header s p -> new_header s q -> (forall h, p = Some h -> q <> Some h) ->
    ialloc_init_allocator s ia p q = Ok s' -> store_step (s, a) (s', a)
| ss_new s a ia hv key val p s' it : is_Some (kv_ias s !! ia) -> new_header s p -> is_u16 (Z.of_nat (length key)) ->
    ialloc_alloc s ia (SZ_ITEM + Z.of_nat (length key) + Z.of_nat (length val)) false p = Ok (s', Some it) ->
    store_step (s, a) (fill s' it hv key val, spec_new a it (hv, key, val))
| ss_full s a ia (key val : list Z) p s' : is_Some (kv_ias s !! ia) -> new_header s p ->
    ialloc_alloc s ia (SZ_ITEM + Z.of_nat (length key) + Z.of_nat (length val)) false p = Ok (s', None) -> store_step (s, a) (s', a)
| ss_put s a nit fuel s' : 0 < held a nit -> (forall k, sp_map a !! k <> Some nit) -> it_refcount (kitem s nit) < 65535 ->
    (size (sp_map a) < fuel)%nat -> hasht_put fuel s nit None = Ok s' -> store_step (s, a) (s', spec_put a (key_of s nit) nit)
| ss_get s a fuel hv key s' r : room s a hv key -> (size (sp_map a) < fuel)%nat -> hasht_get fuel s key hv = Ok (s', r) ->
    store_step (s, a) (s', match r with Some it => hold a it 1 | None => a end)
| ss_unref s a it s' : 0 < held a it -> item_unref s it = Ok s' -> store_step (s, a) (s', hold a it (-1)).

Definition store_ok (s : kv) (a : spec) : Prop :=
  (exists l, store_inv s (sp_map a) (total_refs a) (sp_cont a) l) /\ forall it, 0 <= held a it.

Lemma held_hold a it d x : held (hold a it d) x = held a x + if decide (x = it) then d else 0.
Proof.
  unfold held, hold. cbn. case_decide as E; [subst; now rewrite lookup_insert_eq|]. rewrite lookup_insert_ne by congruence. lia.
Qed.
Lemma total_nonneg a it : (forall x, 0 <= held a x) -> 0 <= total_refs a it.
Proof. intros N. unfold total_refs. pose proof (map_refs_nonneg (sp_map a) it). specialize (N it). lia. Qed.

Lemma total_hold a it d x : total_refs (hold a it d) x = total_refs a x + if decide (x = it) then d else 0.
Proof. unfold total_refs. rewrite held_hold. cbn. lia. Qed.
Lemma total_put a k it x : total_refs (spec_put a k it) x =
  total_refs a x + (if decide (x = it) then 1 else 0) - if decide (sp_map a !! k = Some x) then 1 else 0.
Proof. unfold total_refs. cbn. rewrite map_refs_insert. unfold held. cbn. lia. Qed.

Lemma store_ok_init : store_ok kv_init spec_init.
Proof.
  split; [|intros it; unfold held; cbn; rewrite lookup_empty; reflexivity]. exists [].
  assert (R0 : forall it, total_refs spec_init it = 0) by reflexivity.
  constructor.
  - exists (fun _ => []). apply empty_rep. reflexivity.
  - exact (alloc_ok_init Num).
  - constructor.
  - intros it. rewrite R0. split; [intros E; now apply not_elem_of_nil in E|lia].
  - intros k it. cbn. rewrite lookup_empty. discriminate.
  - intros it E. now apply not_elem_of_nil in E.
Qed.

(** What each operation does, on a state that agrees with the specification. *)
Lemma ok_new s a ia hv key val p : store_ok s a -> is_Some (kv_ias s !! ia) -> new_header s p ->
  let total := SZ_ITEM + Z.of_nat (length key) + Z.of_nat (length val) in total < segsize ->
  exists s' r, ialloc_alloc s ia total false p = Ok (s', r) /\
    match r with
    | None => store_ok s' a
    | Some it => total_refs a it = 0 /\ store_ok (fill s' it hv key val) (spec_new a it (hv, key, val))
    end.
Proof.
  intros [[l I] Nn] Hx Fr total Lt.
  destruct (store_new s _ _ _ l ia hv key val p I (fun it => total_nonneg a it Nn) Hx Fr Lt) as (s1 & r & E & Hr).
  exists s1, r. split; [exact E|]. destruct r as [it|]; [|split; [now exists l|exact Nn]].
  destruct Hr as [R0 [l' I']]. split; [exact R0|]. split.
  - exists l'. eapply store_inv_ext; [|exact I']. intros x. cbn. symmetry. exact (total_hold a it 1 x).
  - intros x. change (held (spec_new a it (hv, key, val)) x) with (held (hold a it 1) x). rewrite held_hold. specialize (Nn x). case_decide; lia.
Qed.

Lemma ok_put s a nit fuel : store_ok s a -> 0 < held a nit -> (forall k, sp_map a !! k <> Some nit) -> it_refcount (kitem s nit) < 65535 ->
  (size (sp_map a) < fuel)%nat -> exists s', hasht_put fuel s nit None = Ok s' /\ store_ok s' (spec_put a (key_of s nit) nit).
Proof.
  intros [[l I] Nn] Pos New Lt L.
  assert (Pt : 0 < total_refs a nit) by (unfold total_refs; pose proof (map_refs_nonneg (sp_map a) nit); lia).
  destruct (si_item _ _ _ _ _ I nit) as (Er & _); [now apply (si_out _ _ _ _ _ I)|].
  destruct (store_put s _ _ _ l nit fuel I ltac:(lia) New L) as (s' & l' & E & I'). exists s'. split; [exact E|]. split; [|exact Nn].
  exists l'. eapply store_inv_ext; [|exact I']. intros x. cbn. symmetry. apply total_put.
Qed.

Lemma ok_get s a fuel hv key : store_ok s a -> room s a hv key -> (size (sp_map a) < fuel)%nat ->
  exists s', hasht_get fuel s key hv = Ok (s', sp_map a !! (hv, key)) /\
    store_ok s' (match sp_map a !! (hv, key) with Some it => hold a it 1 | None => a end).
Proof.
  intros [[l I] Nn] Rm L. destruct (si_table _ _ _ _ _ I) as [cs T].
  assert (Rf : forall it, sp_map a !! (hv, key) = Some it -> 0 < it_refcount (kitem s it) < 65535).
  { intros it Em. pose proof (si_map _ _ _ _ _ I _ _ Em) as P. destruct (si_item _ _ _ _ _ I it) as (-> & _); [now apply (si_out _ _ _ _ _ I)|].
    split; [exact P|]. specialize (Rm it Em). destruct (si_item _ _ _ _ _ I it) as (Er & _); [now apply (si_out _ _ _ _ _ I)|]. lia. }
  destruct (get_step s cs _ fuel key hv T L Rf) as [E _]. eexists. split; [exact E|].
  destruct (sp_map a !! (hv, key)) as [it|] eqn:Em; [|split; [now exists l|exact Nn]]. split.
  - exists l. eapply store_inv_ext; [|exact (store_ref s _ _ _ l it I (si_map _ _ _ _ _ I _ _ Em))]. intros x. cbn. symmetry. apply total_hold.
  - intros x. rewrite held_hold. specialize (Nn x). case_decide; lia.
Qed.

Lemma ok_unref s a it : store_ok s a -> 0 < held a it -> exists s', item_unref s it = Ok s' /\ store_ok s' (hold a it (-1)).
Proof.
  intros [[l I] Nn] Pos. pose proof (map_refs_nonneg (sp_map a) it) as Mn.
  destruct (store_unref s _ _ _ l it I) as (s' & l' & E & I').
  - unfold total_refs. lia.
  - intros R1 k. apply map_refs_zero. unfold total_refs in R1. lia.
  - exists s'. split; [exact E|]. split.
    + exists l'. eapply store_inv_ext; [|exact I']. intros x. cbn. rewrite total_hold. case_decide; lia.
    + intros x. rewrite held_hold. specialize (Nn x). case_decide; subst; lia.
Qed.

Lemma init_frame s ia p q s' : ialloc_init_allocator s ia p q = Ok s' -> kv_items s' = kv_items s /\ kv_buckets s' = kv_buckets s.
Proof.
  unfold ialloc_init_allocator, segment_alloc. cbv zeta. intros E. repeat case_match; simplify_eq; split; reflexivity.
Qed.

Lemma ok_init_store s a ia p q s' : store_ok s a -> new_header s p -> new_header s q -> (forall h, p = Some h -> q <> Some h) ->
  ialloc_init_allocator s ia p q = Ok s' -> store_ok s' a.
Proof.
  intros [[l I] Nn] Fp Fq D E. split; [|exact Nn]. exists l. destruct (init_frame _ _ _ _ _ E) as [Ei Eb].
  assert (Ek : forall x, kitem s' x = kitem s x) by (intros x; unfold kitem; now rewrite Ei). destruct I. constructor; auto.
  - destruct si_table0 as [cs T]. exists cs. apply (table_frame s); [intros x; now rewrite Ek|exact Eb|intros x; unfold inext; now rewrite Ek|exact T].
  - rewrite (same_blocks s s' l) by (intros x; now rewrite Ek). exact (ok_init Size Num Base Top s _ ia p q s' si_alloc0 Fp Fq D E).
  - intros x Hin. unfold key_of. rewrite Ek. exact (si_item0 x Hin).
Qed.

Lemma store_step_ok x y : store_step x y -> store_ok x.1 x.2 -> store_ok y.1 y.2.
Proof.
  intros St A. destruct St as [s a ia p q s' Fp Fq D E|s a ia hv key val p s' it Hx Fr _ E|s a ia key val p s' Hx Fr E|s a nit fuel s' Ph New Lt L E
    |s a fuel hv key s' r Rm L E|s a it s' Ph E]; cbn [fst snd] in *.
  - exact (ok_init_store s a ia p q s' A Fp Fq D E).
  - destruct (Z_lt_dec (SZ_ITEM + Z.of_nat (length key) + Z.of_nat (length val)) segsize) as [Lt|Ge].
    + destruct (ok_new s a ia hv key val p A Hx Fr Lt) as (s2 & r2 & E2 & K). rewrite E2 in E. injection E as <- ->. apply K.
    + unfold ialloc_alloc in E. destruct (Z.ltb_spec (SZ_ITEM + Z.of_nat (length key) + Z.of_nat (length val)) segsize); [contradiction|discriminate].
  - destruct (Z_lt_dec (SZ_ITEM + Z.of_nat (length key) + Z.of_nat (length val)) segsize) as [Lt|Ge].
    + destruct (ok_new s a ia 0 key val p A Hx Fr Lt) as (s2 & r2 & E2 & K). rewrite E2 in E. injection E as <- ->. exact K.
    + unfold ialloc_alloc in E. destruct (Z.ltb_spec (SZ_ITEM + Z.of_nat (length key) + Z.of_nat (length val)) segsize); [contradiction|discriminate].
  - destruct (ok_put s a nit fuel A Ph New Lt L) as (s2 & E2 & K). congruence.
  - destruct (ok_get s a fuel hv key A Rm L) as (s2 & E2 & K). rewrite E2 in E. injection E as <- <-. exact K.
  - destruct (ok_unref s a it A Ph) as (s2 & E2 & K). congruence.
Qed.

Lemma store_reachable s a : rtc store_step (kv_init, spec_init) (s, a) -> store_ok s a.
Proof.
  intros R. enough (forall x y, rtc store_step x y -> store_ok x.1 x.2 -> store_ok y.1 y.2) as K by exact (K _ _ R store_ok_init).
  clear R. induction 1 as [|x y z St _ IH]; [auto|]. intros A. apply IH. now apply (store_step_ok x y).
Qed.

(** What an item that is held or stored holds. *)
Lemma ok_content s a it : store_ok s a -> 0 < total_refs a it -> exists hv key val,
  sp_cont a !! it = Some (hv, key, val) /\ key_of s it = (hv, key) /\ item_value (kitem s it) = val.
Proof. intros [[l I] _] P. apply (si_item _ _ _ _ _ I it). now apply (si_out _ _ _ _ _ I). Qed.

(** C15. The key-value store is a map: however items are allocated, filled,
    stored, looked up and released, no operation aborts or runs for ever, a
    lookup returns exactly the item stored last under the key, every item that
    is stored or held still has the hash, key and value it was filled with, and
    no byte belongs to two such items. *)
Theorem store_refines s a : rtc store_step (kv_init, spec_init) (s, a) ->
  (forall fuel hv key, room s a hv key -> (size (sp_map a) < fuel)%nat ->
     exists s', hasht_get fuel s key hv = Ok (s', sp_map a !! (hv, key)) /\
       forall it, sp_map a !! (hv, key) = Some it -> exists val, sp_cont a !! it = Some (hv, key, val) /\ item_value (kitem s' it) = val) /\
  (forall it, 0 < held a it -> exists hv key val,
     sp_cont a !! it = Some (hv, key, val) /\ key_of s it = (hv, key) /\ item_value (kitem s it) = val) /\
  (forall nit fuel, 0 < held a nit -> (forall k, sp_map a !! k <> Some nit) -> it_refcount (kitem s nit) < 65535 ->
     (size (sp_map a) < fuel)%nat -> exists s', hasht_put fuel s nit None = Ok s') /\
  (forall it, 0 < held a it -> exists s', item_unref s it = Ok s') /\
  (forall ia total p, is_Some (kv_ias s !! ia) -> new_header s p -> SZ_ITEM <= total < segsize ->
     exists s' r, ialloc_alloc s ia total false p = Ok (s', r)) /\
  (exists l, (forall it, it ∈ l <-> 0 < total_refs a it) /\ forall b, owners (map (blk s) l) b <= 1).
Proof.
  intros Rc. apply store_reachable in Rc as A. split_and!.
  - intros fuel hv key Rm L. destruct (ok_get s a fuel hv key A Rm L) as (s' & E & A'). exists s'. split; [exact E|].
    intros it Em. rewrite Em in A'. destruct (ok_content s' (hold a it 1) it A') as (hv' & key' & val & Ec & Ek & Ev).
    { rewrite total_hold, decide_True by reflexivity. pose proof (total_nonneg a it (proj2 A)). lia. }
    destruct A' as [[l' I'] _]. destruct (si_table _ _ _ _ _ I') as [cs T]. cbn in T, Ec. apply (tr_lookup _ _ _ T) in Em as [_ K].
    exists val. rewrite K in Ek. injection Ek as -> ->. auto.
  - intros it Ph. apply (ok_content s a it A). unfold total_refs. pose proof (map_refs_nonneg (sp_map a) it). lia.
  - intros nit fuel Ph New Lt L. destruct (ok_put s a nit fuel A Ph New Lt L) as (s' & E & _). now exists s'.
  - intros it Ph. destruct (ok_unref s a it A Ph) as (s' & E & _). now exists s'.
  - intros ia total p Hx Fr T. destruct A as [[l I] _].
    destruct (ok_alloc Size Num Base Top s _ ia total false p (si_alloc _ _ _ _ _ I) Hx Fr T) as (s' & r & E & _). now exists s', r.
  - destruct A as [[l I] _]. exists l. split; [apply (si_out _ _ _ _ _ I)|]. destruct (si_alloc _ _ _ _ _ I) as (own & free & es & J & <-).
    apply (ii_apart _ _ _ _ J).
Qed.
End Store.
