(* ===== verification/FkServe.v ===== *)
(** Requests of the key-value server: a SET stores what its bytes say, a GET
    answers with it, and what the leftover item of a connection does when the
    connection is closed. *)
From stdpp Require Import base numbers list gmap relations.
From Stdlib Require Import ZArith Lia.
From S2P Require Import Prelude LinkedList Dma Packet Queues PacketMem FkHash FkAlloc FkAllocSafe FkAllocOps FkAllocSystem FkTable FkTableRep FkTableOps FkServer FkStore.

(** ** Bytes *)

Lemma slice_lookup l off n (k : nat) : 0 <= off -> (Z.of_nat k < n)%Z -> slice l off n !! k = l !! (Z.to_nat off + k)%nat.
Proof. intros O L. unfold slice. rewrite lookup_take_lt by lia. apply lookup_drop. Qed.

Lemma length_put buf off bs : length (put_bytes buf off bs) = length buf.
Proof. apply length_inserts. Qed.

(** What was written is read, and the rest is as before. *)
Lemma slice_put buf off bs : 0 <= off -> off + Z.of_nat (length bs) <= Z.of_nat (length buf) ->
  slice (put_bytes buf off bs) off (Z.of_nat (length bs)) = bs.
Proof.
  intros O L. apply list_eq. intros k. destruct (decide (k < length bs)%nat) as [Hk|Hk].
  - rewrite slice_lookup by lia. unfold put_bytes. rewrite list_lookup_inserts by lia. f_equal. lia.
  - rewrite !lookup_ge_None_2; [reflexivity|lia|]. rewrite length_slice by (rewrite ?length_put; lia). lia.
Qed.

Lemma put_lookup_lt buf off bs k : 0 <= off -> (Z.of_nat k < off)%Z -> put_bytes buf off bs !! k = buf !! k.
Proof. intros O L. apply list_lookup_inserts_lt. lia. Qed.

Lemma mem_read_slice l b off n : 0 <= off -> off + Z.of_nat n <= Z.of_nat (length l) ->
  mem_read (mem_write ∅ b l) (b + off) n = slice l off (Z.of_nat n).
Proof.
  intros O L. apply list_eq. intros k. destruct (decide (k < n)%nat) as [Hk|Hk].
  - rewrite mem_read_lookup, slice_lookup by lia.
    destruct (lookup_lt_is_Some_2 l (Z.to_nat off + k)) as [x Ex]; [lia|]. rewrite Ex. f_equal.
    replace (b + off + Z.of_nat k) with (b + Z.of_nat (Z.to_nat off + k)) by lia. now apply mem_write_in.
  - rewrite !lookup_ge_None_2; [reflexivity|rewrite length_slice; lia|rewrite length_mem_read; lia].
Qed.

Lemma mem_write_bytes l b : bytes l -> bytes_ok (mem_write ∅ b l).
Proof.
  intros F x. destruct (decide (b <= x < b + Z.of_nat (length l))) as [R|R].
  - destruct (lookup_lt_is_Some_2 l (Z.to_nat (x - b))) as [y Ey]; [lia|].
    rewrite <- (Z.sub_add b x), (Z.add_comm _ b), <- (Z2Nat.id (x - b)) by lia. rewrite (mem_write_in _ _ _ _ y Ey).
    unfold bytes in F. rewrite Forall_lookup in F. exact (F _ _ Ey).
  - rewrite mem_write_out by lia. unfold mem_byte. rewrite lookup_empty. cbn. lia.
Qed.

(** ** Connections *)

(** The buffers have their size; something can be received and sent. *)
Record conn_ok (c : connection) : Prop := mk_conn_ok
  { co_rx : Z.of_nat (length (c_rx_buf c)) = MAX_MSGSIZE;
    co_tx : Z.of_nat (length (c_tx_buf c)) = MAX_MSGSIZE;
    co_bytes : bytes (conn_mem c);
    co_off : 0 <= c_rx_off c;
    co_len : 0 <= c_tx_len c <= MAX_MSGSIZE }.

Lemma length_conn_mem c : conn_ok c -> Z.of_nat (length (conn_mem c)) = 4096.
Proof. intros [R T _ _ _]. unfold conn_mem, MAX_MSGSIZE in *. rewrite length_app. lia. Qed.

Lemma byte_at_range l i : bytes l -> 0 <= byte_at l i < 256.
Proof.
  intros F. unfold byte_at. destruct (l !! Z.to_nat i) eqn:E; cbn; [|lia]. unfold bytes in F. rewrite Forall_lookup in F. exact (F _ _ E).
Qed.

Lemma keylen_range c : conn_ok c -> 0 <= req_keylen c < 65536.
Proof.
  intros O. unfold req_keylen, be16_at. pose proof (byte_at_range _ (c_rx_off c + 2) (co_bytes c O)).
  pose proof (byte_at_range _ (c_rx_off c + 2 + 1) (co_bytes c O)). lia.
Qed.

Lemma conn_read_ok c off n : conn_ok c -> off + n <= 4096 -> conn_read c off n = Ok (slice (conn_mem c) off n).
Proof. intros O L. unfold conn_read. rewrite length_conn_mem by exact O. now destruct (Z.leb_spec (off + n) 4096); [|lia]. Qed.

Lemma conn_hash_ok a c off kl : conn_ok c -> 0 <= off -> 0 <= kl -> off + kl <= 4096 ->
  conn_hash a c off kl = Ok (jenkins_ref (slice (conn_mem c) off kl)).
Proof.
  intros O Lo Lk L. unfold conn_hash. rewrite <- (Z2Nat.id kl) at 2 3 by exact Lk.
  rewrite jenkins_hash_bytes; [|apply mem_write_bytes, O|lia]. now rewrite mem_read_slice by (rewrite ?length_conn_mem by exact O; lia).
Qed.

(** ** Answers *)

(** The connection after a request whose answer is [body] with this header. *)
Record answered (c c' : connection) (op extlen status : Z) (body : list Z) : Prop := mk_answered
  { an_header : slice (c_tx_buf c') (c_tx_len c) 16 = resp_header op extlen status (Z.of_nat (length body)) (req_opaque c);
    an_body : slice (c_tx_buf c') (c_tx_len c + 24) (Z.of_nat (length body)) = body;
    an_before : forall k, (Z.of_nat k < c_tx_len c)%Z -> c_tx_buf c' !! k = c_tx_buf c !! k;
    an_tx_len : c_tx_len c' = c_tx_len c + 24 + Z.of_nat (length body);
    an_rx_off : c_rx_off c' = u16 (c_rx_off c + u32 (SZ_REQ + req_bodylen c));
    an_done : c_req_done c' = false }.

Lemma length_header op extlen status n opaque : length (resp_header op extlen status n opaque) = (12 + length opaque)%nat.
Proof. reflexivity. Qed.

Lemma finish_answered c op extlen status body : conn_ok c -> c_rx_off c + 24 <= 4096 ->
  c_tx_len c + 24 + Z.of_nat (length body) <= MAX_MSGSIZE ->
  answered c (req_finish c (resp_header op extlen status (Z.of_nat (length body)) (req_opaque c)) body (24 + Z.of_nat (length body))) op extlen status body.
Proof.
  intros O Lr L. destruct (co_len c O) as [L0 _]. pose proof (co_tx c O) as Lt. unfold MAX_MSGSIZE in *.
  set (hdr := resp_header op extlen status (Z.of_nat (length body)) (req_opaque c)).
  assert (Lh : length hdr = 16%nat).
  { unfold hdr. rewrite length_header. unfold req_opaque. rewrite length_slice; [reflexivity| | |rewrite length_conn_mem by exact O]; pose proof (co_off c O); lia. }
  unfold req_finish, SZ_SET_RESPONSE. constructor; cbn -[resp_header].
  - fold hdr. rewrite <- (slice_put (c_tx_buf c) (c_tx_len c) hdr) at 2 by lia. rewrite Lh. apply list_eq. intros k.
    destruct (decide (k < 16)%nat) as [Hk|Hk].
    + rewrite !slice_lookup by lia. apply put_lookup_lt; lia.
    + rewrite !lookup_ge_None_2; [reflexivity|rewrite length_slice; rewrite ?length_put; lia..].
  - apply slice_put; rewrite ?length_put; lia.
  - intros k Hk. rewrite !put_lookup_lt by lia. reflexivity.
  - unfold u16. rewrite Z.mod_small; lia.
  - reflexivity.
  - reflexivity.
Qed.

(** The same, for the connection with what the request has found. *)
Lemma finish_found c r op extlen status body : conn_ok c -> c_rx_off c + 24 <= 4096 -> c_tx_len c + 24 + Z.of_nat (length body) <= MAX_MSGSIZE ->
  let c1 := c <| c_it := r |> <| c_req_done := true |> in
  answered c (req_finish c1 (resp_header op extlen status (Z.of_nat (length body)) (req_opaque c1)) body (24 + Z.of_nat (length body))) op extlen status body.
Proof.
  intros O Lr L c1. assert (O1 : conn_ok c1) by (destruct O; now constructor).
  destruct (finish_answered c1 op extlen status body O1 Lr L). now constructor.
Qed.

Section Serve.
Context `{KvEnv}.
Context (Size : 0 < segsize < 4294967296) (Num : 0 <= segmaxnum) (Base : 0 <= seg_base)
        (Top : seg_base + segsize * segmaxnum < 18446744073709551616).

Definition get_key (c : connection) : list Z := slice (conn_mem c) (c_rx_off c + SZ_REQ) (req_keylen c).

Record get_request (c : connection) : Prop := mk_get_request
  { gr_conn : conn_ok c;
    gr_magic : req_u8 c 0 = PROTOCOL_BINARY_REQ;
    gr_op : req_u8 c 1 = PROTOCOL_BINARY_CMD_GET;
    gr_new : c_req_done c = false;
    gr_key : c_rx_off c + SZ_REQ + req_keylen c <= 4096 }.

(** The item a GET finds has the length the specification gives it. *)
Lemma content_len s a it hv key val : store_ok s a -> 0 < total_refs a it -> sp_cont a !! it = Some (hv, key, val) ->
  item_value (kitem s it) = val /\ it_vallen (kitem s it) = Z.of_nat (length val).
Proof.
  intros [[l I] _] P Ec. destruct (si_item _ _ _ _ _ I it) as (_ & (K & V & L) & hv' & key' & val' & Ec' & _ & Ev); [now apply (si_out _ _ _ _ _ I)|].
  rewrite Ec in Ec'. injection Ec' as <- <- <-. split; [exact Ev|]. rewrite <- Ev. unfold item_value. rewrite length_take, length_drop. lia.
Qed.

Lemma get_lookup_ok fuel addr s a c : get_request c -> store_ok s a -> room s a (jenkins_ref (get_key c)) (get_key c) -> (size (sp_map a) < fuel)%nat ->
  let r := sp_map a !! (jenkins_ref (get_key c), get_key c) in
  exists s', get_lookup fuel addr s c = Ok (s', c <| c_it := r |> <| c_req_done := true |>) /\
    store_ok s' (match r with Some it => hold a it 1 | None => a end).
Proof.
  intros [O _ _ Nd Lk] A Rm L r. pose proof (keylen_range c O) as K. pose proof (co_off c O) as Lo. unfold SZ_REQ in *.
  destruct (ok_get Size s a fuel _ _ A Rm L) as (s' & E & A'). exists s'. split; [|exact A'].
  unfold get_lookup. rewrite Nd. cbv zeta. unfold SZ_REQ. rewrite conn_read_ok by (auto; lia). cbn [obind].
    rewrite conn_hash_ok by (auto; lia). cbn [obind]. unfold get_key, SZ_REQ in E. rewrite E. reflexivity.
Qed.

(** The answer to a GET: the value stored under its key, or that there is none. *)
Lemma get_served fuel addr ia p s a c : get_request c -> store_ok s a -> room s a (jenkins_ref (get_key c)) (get_key c) ->
  (size (sp_map a) < fuel)%nat ->
  match sp_map a !! (jenkins_ref (get_key c), get_key c) with
  | Some it => exists val, sp_cont a !! it = Some (jenkins_ref (get_key c), get_key c, val) /\
      (c_tx_len c + SZ_GET_RESPONSE + Z.of_nat (length val) <= MAX_MSGSIZE ->
       exists s' c', conn_req_process fuel addr ia p s c = Ok (s', Some c', 0) /\ store_ok s' (hold (hold a it 1) it (-1)) /\
         answered c c' PROTOCOL_BINARY_CMD_GET 4 RESPONSE_SUCCESS (be32_bytes 0 ++ val) /\ c_it c' = Some it)
  | None => c_tx_len c + SZ_GET_RESPONSE <= MAX_MSGSIZE ->
      exists s' c', conn_req_process fuel addr ia p s c = Ok (s', Some c', 0) /\ store_ok s' a /\
        answered c c' PROTOCOL_BINARY_CMD_GET 4 RESPONSE_KEY_ENOENT (be32_bytes 0) /\ c_it c' = None
  end.
Proof.
  intros G A Rm L. destruct (get_lookup_ok fuel addr s a c G A Rm L) as (s1 & E & A1). cbv zeta in E, A1.
  set (key := get_key c) in *. set (hv := jenkins_ref key) in *. set (r := sp_map a !! (hv, key)) in *.
  set (c1 := c <| c_it := r |> <| c_req_done := true |>) in *.
  pose proof (gr_conn c G) as O. pose proof (keylen_range c O) as Kr. pose proof (gr_key c G) as Lk.
  unfold SZ_REQ, SZ_GET_RESPONSE in *.
  unfold conn_req_process. cbv zeta. rewrite (gr_magic c G), (gr_op c G). cbn [Z.eqb negb PROTOCOL_BINARY_REQ PROTOCOL_BINARY_CMD_GET Pos.eqb].
  rewrite E. cbn [obind]. change (c_it c1) with r. change (c_tx_len c1) with (c_tx_len c).
  destruct r as [it|] eqn:Er.
  - assert (Ht : 0 < total_refs (hold a it 1) it).
    { rewrite total_hold, decide_True by reflexivity. pose proof (total_nonneg a it (proj2 A)). lia. }
    destruct (ok_content s1 _ it A1 Ht) as (hv' & key' & val & Ec & Ek & Ev). cbn [sp_cont hold] in Ec.
    assert (Ekk : key_of s1 it = (hv, key)).
    { destruct A1 as [[l1 I1] _]. destruct (si_table _ _ _ _ _ I1) as [cs T]. apply (tr_lookup _ _ _ T). exact Er. }
    rewrite Ek in Ekk. injection Ekk as -> ->. exists val. split; [exact Ec|]. intros Lb.
    destruct (content_len s1 _ it hv key val A1 Ht Ec) as [_ El].
    pose proof (co_len c O) as Lt. unfold MAX_MSGSIZE in *. unfold get_response. cbn [option_map]. rewrite El, Ev.
    assert (Eb : 4 + Z.of_nat (length val) = Z.of_nat (length (be32_bytes 0 ++ val))) by (rewrite length_app; cbn; lia).
    unfold SZ_GET_RESPONSE. rewrite !u32_small by (unfold is_u32; lia). rewrite Eb.
    replace (28 + Z.of_nat (length val)) with (24 + Z.of_nat (length (be32_bytes 0 ++ val))) by (rewrite <- Eb; lia).
    destruct (Z.ltb_spec (2048 - c_tx_len c) (24 + Z.of_nat (length (be32_bytes 0 ++ val)))); [lia|].
    destruct (ok_unref Size Num Base Top s1 _ it A1) as (s2 & -> & A2); [rewrite held_hold, decide_True by reflexivity; pose proof (proj2 A it); lia|].
    cbn [obind]. eexists _, _. split; [reflexivity|]. split; [exact A2|]. split; [|reflexivity].
    apply finish_found; [exact O|lia|unfold MAX_MSGSIZE; lia].
  - intros Lb. unfold SZ_GET_RESPONSE, MAX_MSGSIZE in *. change (u32 (28 + 0)) with 28. destruct (Z.ltb_spec (2048 - c_tx_len c) 28); [lia|].
    eexists _, _. split; [reflexivity|]. split; [exact A1|]. split; [|reflexivity].
    apply (finish_found c None PROTOCOL_BINARY_CMD_GET 4 RESPONSE_KEY_ENOENT (be32_bytes 0)); [exact O|lia|unfold MAX_MSGSIZE; cbn; lia].
Qed.

(** ** SET *)

Definition set_key (c : connection) : list Z := slice (conn_mem c) (c_rx_off c + SZ_SET) (req_keylen c).
Definition set_val (c : connection) : list Z :=
  slice (conn_mem c) (c_rx_off c + SZ_SET + req_keylen c) (req_bodylen c - req_keylen c - 8).

Record set_request (c : connection) : Prop := mk_set_request
  { sr_conn : conn_ok c;
    sr_magic : req_u8 c 0 = PROTOCOL_BINARY_REQ;
    sr_op : req_u8 c 1 = PROTOCOL_BINARY_CMD_SET;
    sr_ext : req_extlen c = 8;
    sr_new : c_req_done c = false;
    sr_key : req_keylen c + 8 <= req_bodylen c;
    sr_body : c_rx_off c + SZ_REQ + req_bodylen c <= MAX_MSGSIZE }.

Lemma set_lengths c : set_request c -> Z.of_nat (length (set_key c)) = req_keylen c /\
  Z.of_nat (length (set_val c)) = req_bodylen c - req_keylen c - 8.
Proof.
  intros [O _ _ _ _ K B]. pose proof (keylen_range c O). pose proof (co_off c O). unfold SZ_REQ, MAX_MSGSIZE, set_key, set_val, SZ_SET in *.
  rewrite !length_slice by (rewrite ?length_conn_mem by exact O; lia). lia.
Qed.

(** What the store knows after a SET. *)
Definition spec_set (a : spec) (it : Z) (key val : list Z) : spec :=
  hold (spec_put (spec_new a it (jenkins_ref key, key, val)) (jenkins_ref key, key) it) it (-1).

Lemma set_store_ok fuel addr ia p s a c : set_request c -> store_ok s a -> is_Some (kv_ias s !! ia) -> new_header s p ->
  SZ_ITEM + req_bodylen c - 8 < segsize -> (size (sp_map a) < fuel)%nat ->
  exists s' r, set_store fuel addr ia p s c = Ok (s', c <| c_it := r |> <| c_req_done := true |>) /\
    match r with Some it => total_refs a it = 0 /\ store_ok s' (spec_set a it (set_key c) (set_val c)) | None => store_ok s' a end.
Proof.
  intros G A Hx Fr Lt L. destruct (set_lengths c G) as [Lk Lv]. destruct G as [O _ _ Ex Nd K B]. pose proof (keylen_range c O) as Kr.
  pose proof (co_off c O) as Lo. unfold SZ_REQ, MAX_MSGSIZE, SZ_ITEM in *.
  set (hv := jenkins_ref (set_key c)). set (key := set_key c) in *. set (val := set_val c) in *.
  destruct (ok_new Size Num Base Top s a ia hv key val p A Hx Fr) as (s1 & r & E & Hr); [unfold SZ_ITEM; lia|].
  assert (Ev : u32 (req_bodylen c - req_keylen c - req_extlen c) = Z.of_nat (length val)) by (rewrite Ex, u32_small; [lia|unfold is_u32; lia]).
  unfold set_store. rewrite Nd. cbv zeta. rewrite Ev, <- Lk. rewrite E. cbn [obind].
  destruct r as [it|]; [|eexists s1, None; split; [reflexivity|exact Hr]].
  destruct Hr as [R0 A1]. unfold SZ_SET in *.
  rewrite conn_hash_ok by (auto; lia). cbn [obind]. rewrite !conn_read_ok by (auto; lia). cbn [obind].
  replace (slice (conn_mem c) (c_rx_off c + 32) (Z.of_nat (length key))) with key by (rewrite Lk; reflexivity).
  replace (slice (conn_mem c) (c_rx_off c + 32 + Z.of_nat (length key)) (Z.of_nat (length val))) with val by (rewrite Lv, Lk; reflexivity).
  fold hv. set (s2 := fill s1 it hv key val) in *. set (a1 := spec_new a it (hv, key, val)) in *.
  assert (Mz : map_refs (sp_map a) it = 0 /\ held a it = 0).
  { unfold total_refs in R0. pose proof (map_refs_nonneg (sp_map a) it). pose proof (proj2 A it). lia. }
  assert (H1 : held a1 it = 1).
  { change (held a1 it) with (held (hold a it 1) it). rewrite held_hold, decide_True by reflexivity. lia. }
  assert (R1 : it_refcount (kitem s2 it) = 1).
  { destruct A1 as [[l I] _]. assert (T1 : total_refs a1 it = 1) by (unfold total_refs; rewrite H1; change (sp_map a1) with (sp_map a); lia).
    rewrite <- T1. apply (si_item _ _ _ _ _ I). apply (si_out _ _ _ _ _ I). lia. }
  destruct (ok_put Size Num Base Top s2 a1 it fuel A1) as (s3 & E3 & A3).
  { lia. } { intros k. apply map_refs_zero. apply Mz. } { lia. } { exact L. }
  rewrite E3. cbn [obind]. destruct (filled_ok s1 it hv key val) as (_ & Kf & _). fold s2 in Kf. rewrite Kf in A3.
  destruct (ok_unref Size Num Base Top s3 _ it A3) as (s4 & E4 & A4); [change (held (spec_put a1 (hv, key) it) it) with (held a1 it); lia|].
  rewrite E4. cbn [obind]. exists s4, (Some it). split; [reflexivity|]. split; [exact R0|exact A4].
Qed.

(** The answer to a SET: whether there was room; with room the key has the
    value. *)
Lemma set_served fuel addr ia p s a c : set_request c -> store_ok s a -> is_Some (kv_ias s !! ia) -> new_header s p ->
  SZ_ITEM + req_bodylen c - 8 < segsize -> (size (sp_map a) < fuel)%nat -> c_tx_len c + SZ_SET_RESPONSE <= MAX_MSGSIZE ->
  exists s' r c', conn_req_process fuel addr ia p s c = Ok (s', Some c', 0) /\ c_it c' = r /\
    match r with
    | Some it => total_refs a it = 0 /\ store_ok s' (spec_set a it (set_key c) (set_val c)) /\
        answered c c' PROTOCOL_BINARY_CMD_SET 0 RESPONSE_SUCCESS []
    | None => store_ok s' a /\ answered c c' PROTOCOL_BINARY_CMD_SET 0 RESPONSE_ENOMEM []
    end.
Proof.
  intros G A Hx Fr Lt L Lb. destruct (set_store_ok fuel addr ia p s a c G A Hx Fr Lt L) as (s' & r & E & Hr).
  pose proof (sr_conn c G) as O. pose proof (co_off c O) as Lo. pose proof (sr_body c G) as Bd. pose proof (sr_key c G) as Kd. pose proof (keylen_range c O) as Kr.
  unfold SZ_REQ, SZ_SET_RESPONSE, MAX_MSGSIZE in *.
  unfold conn_req_process. cbv zeta. rewrite (sr_magic c G), (sr_op c G). cbn [Z.eqb negb PROTOCOL_BINARY_REQ PROTOCOL_BINARY_CMD_GET PROTOCOL_BINARY_CMD_SET Pos.eqb].
  rewrite E. cbn [obind]. set (c1 := c <| c_it := r |> <| c_req_done := true |>) in *. change (c_it c1) with r. change (c_tx_len c1) with (c_tx_len c).
  unfold SZ_SET_RESPONSE, MAX_MSGSIZE. destruct (Z.ltb_spec (2048 - c_tx_len c) 24); [lia|].
  exists s', r. eexists. split; [reflexivity|]. split; [reflexivity|].
  assert (An : forall status, answered c (req_finish c1 (resp_header PROTOCOL_BINARY_CMD_SET 0 status 0 (req_opaque c1)) [] 24) PROTOCOL_BINARY_CMD_SET 0 status []).
  { intros status. apply (finish_found c r PROTOCOL_BINARY_CMD_SET 0 status []); [exact O|lia|unfold MAX_MSGSIZE; cbn; lia]. }
  destruct r as [it|]; [split; [apply Hr|split; [apply Hr|apply An]]|split; [exact Hr|apply An]].
Qed.

(** ** From request to request *)

Lemma spec_set_refs a it key val : total_refs a it = 0 -> (forall x, 0 <= held a x) -> total_refs (spec_set a it key val) it = 1.
Proof.
  intros R0 Nn. unfold spec_set. rewrite total_hold, total_put.
  change (total_refs (spec_new a it (jenkins_ref key, key, val)) it) with (total_refs (hold a it 1) it).
  rewrite total_hold, !decide_True by reflexivity. rewrite decide_False; [rewrite decide_True by reflexivity; lia|].
  cbn [sp_map spec_new]. apply map_refs_zero. unfold total_refs in R0. specialize (Nn it). pose proof (map_refs_nonneg (sp_map a) it). lia.
Qed.

Lemma spec_set_lookup a it key val : sp_map (spec_set a it key val) !! (jenkins_ref key, key) = Some it.
Proof. apply lookup_insert_eq. Qed.

Lemma spec_set_cont a it key val : sp_cont (spec_set a it key val) !! it = Some (jenkins_ref key, key, val).
Proof. apply lookup_insert_eq. Qed.

Lemma stored_room s a it key val : store_ok s (spec_set a it key val) -> total_refs (spec_set a it key val) it = 1 ->
  room s (spec_set a it key val) (jenkins_ref key) key.
Proof.
  intros [[l I] _] R1 x E. rewrite spec_set_lookup in E. injection E as <-.
  destruct (si_item _ _ _ _ _ I it) as (Er & _); [apply (si_out _ _ _ _ _ I); lia|]. lia.
Qed.

(** The state and the connection after an answered SET that found room. *)
Definition set_answered (fuel : nat) (addr ia : Z) (p : option Z) (s : kv) (a : spec) (c : connection) (s' : kv) (c' : connection) (it : Z) : Prop :=
  set_request c /\ store_ok s a /\ is_Some (kv_ias s !! ia) /\ new_header s p /\ SZ_ITEM + req_bodylen c - 8 < segsize /\
  (S (size (sp_map a)) < fuel)%nat /\ c_tx_len c + SZ_SET_RESPONSE <= MAX_MSGSIZE /\
  conn_req_process fuel addr ia p s c = Ok (s', Some c', 0) /\ c_it c' = Some it.

Lemma set_answered_ok fuel addr ia p s a c s' c' it : set_answered fuel addr ia p s a c s' c' it ->
  let a' := spec_set a it (set_key c) (set_val c) in
  store_ok s' a' /\ total_refs a' it = 1 /\ (size (sp_map a') < fuel)%nat /\ room s' a' (jenkins_ref (set_key c)) (set_key c).
Proof.
  intros (G & A & Hx & Fr & Lt & L & Lb & E & Ei) a'.
  destruct (set_served fuel addr ia p s a c G A Hx Fr Lt (Nat.lt_succ_l _ _ L) Lb) as (s2 & r & c2 & E2 & Er & Hr).
  rewrite E in E2. injection E2 as <- <-. rewrite Ei in Er. subst r. destruct Hr as (R0 & A' & _).
  pose proof (spec_set_refs a it (set_key c) (set_val c) R0 (proj2 A)) as R1. split_and!; [exact A'|exact R1| |exact (stored_room _ _ _ _ _ A' R1)].
  cbn [sp_map a' spec_set hold spec_put spec_new]. rewrite map_size_insert. destruct (sp_map a !! _); cbn; lia.
Qed.

(** C16. What a SET stored, the next GET of the key answers with: the bytes of a
    SET are parsed, the item is allocated, filled and inserted, and on any
    connection a GET for the same key puts a success header, the length and
    exactly the bytes of the value behind what is already in its transmit
    buffer. *)
Theorem set_then_get fuel addr ia p s a c s' c' it : set_answered fuel addr ia p s a c s' c' it ->
  forall addr2 ia2 p2 c2, get_request c2 -> get_key c2 = set_key c ->
    c_tx_len c2 + SZ_GET_RESPONSE + Z.of_nat (length (set_val c)) <= MAX_MSGSIZE ->
  exists s2 c2', conn_req_process fuel addr2 ia2 p2 s' c2 = Ok (s2, Some c2', 0) /\
    answered c2 c2' PROTOCOL_BINARY_CMD_GET 4 RESPONSE_SUCCESS (be32_bytes 0 ++ set_val c).
Proof.
  intros Sa addr2 ia2 p2 c2 G2 Ek Lb. destruct (set_answered_ok _ _ _ _ _ _ _ _ _ _ Sa) as (A' & R1 & L & Rm). cbv zeta in *.
  rewrite <- Ek in Rm, L, A', R1. pose proof (get_served fuel addr2 ia2 p2 s' _ c2 G2 A' Rm L) as Gs. rewrite spec_set_lookup in Gs.
  destruct Gs as (val & Ec & Gs). rewrite spec_set_cont in Ec. assert (val = set_val c) as -> by congruence.
  destruct (Gs Lb) as (s2 & c2' & E & _ & An & _). now exists s2, c2'.
Qed.

Lemma get_aborts fuel addr ia p s cs m c it : get_request c -> table_rep s cs m -> (size m < fuel)%nat ->
  m !! (jenkins_ref (get_key c), get_key c) = Some it -> it_refcount (kitem s it) = 0 -> conn_req_process fuel addr ia p s c = Crash.
Proof.
  intros [O Mg Op Nd Lk] T L Em R0. pose proof (keylen_range c O). pose proof (co_off c O). unfold SZ_REQ in *.
  unfold conn_req_process. cbv zeta. rewrite Mg, Op. cbn [Z.eqb negb PROTOCOL_BINARY_REQ PROTOCOL_BINARY_CMD_GET Pos.eqb].
  unfold get_lookup. rewrite Nd. cbv zeta. unfold SZ_REQ. rewrite conn_read_ok, conn_hash_ok by (auto; lia). cbn [obind].
  unfold hasht_get. cbv zeta. fold (get_key c). rewrite (find_lookup s cs m fuel (get_key c)) by assumption. cbn [obind].
  unfold get_key, SZ_REQ in Em |- *. rewrite Em. unfold item_ref. cbv zeta. rewrite R0. reflexivity.
Qed.

(** C19. Closing a connection whose last request was a SET takes down the
    server: [conn_req_process] drops its reference to the new item but leaves
    the pointer in the connection, so [conn_close] drops the table's reference
    as well and the item's memory is given back while the table still has it;
    the next GET of the key, on any connection, fails the assertion of
    [item_ref]. *)
Theorem close_after_set_aborts fuel addr ia p s a c s' c' it : set_answered fuel addr ia p s a c s' c' it ->
  exists s2, conn_close s' c' = Ok s2 /\
    forall addr2 ia2 p2 c2, get_request c2 -> get_key c2 = set_key c -> conn_req_process fuel addr2 ia2 p2 s2 c2 = Crash.
Proof.
  intros Sa. destruct (set_answered_ok _ _ _ _ _ _ _ _ _ _ Sa) as (A' & R1 & L & Rm). cbv zeta in *.
  destruct Sa as (_ & _ & _ & _ & _ & _ & _ & _ & Ei). destruct A' as [[l I] _].
  destruct (unref_ok Size Num Base Top s' _ _ _ l it I ltac:(lia)) as (s2 & l2 & E & Ek & Eb & _).
  exists s2. unfold conn_close. rewrite Ei. split; [exact E|]. intros addr2 ia2 p2 c2 G2 Egk.
  destruct (si_table _ _ _ _ _ I) as [cs T]. apply (get_aborts fuel addr2 ia2 p2 s2 cs (sp_map (spec_set a it (set_key c) (set_val c))) c2 it G2).
  - apply (table_frame s'); [intros x; rewrite Ek; apply add_ref_same|exact Eb|intros x; unfold inext; rewrite Ek; apply inext_add_ref|exact T].
  - exact L.
  - rewrite Egk. apply spec_set_lookup.
  - rewrite Ek, refs_add_ref, decide_True by reflexivity.
    destruct (si_item _ _ _ _ _ I it) as (Er & _); [apply (si_out _ _ _ _ _ I); lia|]. lia.
Qed.

(** ** Requests the server cannot survive *)

(** A SET whose body is shorter than its key and extras aborts the server: the
    length of the value wraps. *)
Lemma short_set_aborts fuel addr ia p s c : conn_ok c -> req_u8 c 0 = PROTOCOL_BINARY_REQ -> req_u8 c 1 = PROTOCOL_BINARY_CMD_SET ->
  c_req_done c = false -> req_bodylen c < req_keylen c + req_extlen c -> segsize <= 4294901760 ->
  conn_req_process fuel addr ia p s c = Crash.
Proof.
  intros O Mg Op Nd Lt Ls. pose proof (keylen_range c O) as Kr.
  assert (Bl : 0 <= req_bodylen c /\ 0 <= req_extlen c < 256).
  { unfold req_bodylen, be32_at, req_extlen, req_u8. pose proof (fun i => byte_at_range (conn_mem c) i (co_bytes c O)) as B.
    pose proof (B (c_rx_off c + 8)). pose proof (B (c_rx_off c + 8 + 1)). pose proof (B (c_rx_off c + 8 + 2)). pose proof (B (c_rx_off c + 8 + 3)).
    pose proof (B (c_rx_off c + 4)). lia. }
  unfold conn_req_process. cbv zeta. rewrite Mg, Op. cbn [Z.eqb negb PROTOCOL_BINARY_REQ PROTOCOL_BINARY_CMD_GET PROTOCOL_BINARY_CMD_SET Pos.eqb].
  unfold set_store. rewrite Nd. cbv zeta.
  assert (Vl : u32 (req_bodylen c - req_keylen c - req_extlen c) = 4294967296 + (req_bodylen c - req_keylen c - req_extlen c)).
  { unfold u32. symmetry. apply (Z.mod_unique_pos _ _ (-1)); lia. }
  rewrite Vl. unfold ialloc_alloc. destruct (Z.ltb_spec (SZ_ITEM + req_keylen c + (4294967296 + (req_bodylen c - req_keylen c - req_extlen c))) segsize) as [B|B];
    [unfold SZ_ITEM in B; lia|reflexivity].
Qed.

Lemma oversize_again fuel addr ia p s c it : req_u8 c 0 = PROTOCOL_BINARY_REQ -> req_u8 c 1 = PROTOCOL_BINARY_CMD_GET ->
  c_req_done c = true -> c_it c = Some it -> c_tx_len c = 0 -> MAX_MSGSIZE < u32 (SZ_GET_RESPONSE + it_vallen (kitem s it)) ->
  conn_req_process fuel addr ia p s c = Ok (s, Some c, 1).
Proof.
  intros Mg Op Dn Ei Tl Lt. unfold conn_req_process. cbv zeta. rewrite Mg, Op.
  cbn [Z.eqb negb PROTOCOL_BINARY_REQ PROTOCOL_BINARY_CMD_GET Pos.eqb]. unfold get_lookup. rewrite Dn. cbn [obind]. rewrite Ei, Tl.
  destruct (Z.ltb_spec (MAX_MSGSIZE - 0) (u32 (SZ_GET_RESPONSE + it_vallen (kitem s it)))); [reflexivity|lia].
Qed.

(** A value that does not fit into an empty transmit buffer is never answered:
    the worker is in the loop of [conn_events] for ever. *)
Lemma oversize_value_loops fuel addr ia e it s c rounds ps : conn_req_iscomp c = true -> req_u8 c 0 = PROTOCOL_BINARY_REQ ->
  req_u8 c 1 = PROTOCOL_BINARY_CMD_GET -> c_req_done c = true -> c_it c = Some it -> c_tx_len c = 0 ->
  MAX_MSGSIZE < u32 (SZ_GET_RESPONSE + it_vallen (kitem s it)) -> req_loop rounds fuel addr ia ps e s c = Spin.
Proof.
  intros Cm Mg Op Dn Ei Tl Lt. revert ps. induction rounds as [|rounds IH]; intros ps; [reflexivity|]. cbn [req_loop]. rewrite Cm. cbn [negb].
  rewrite (oversize_again fuel addr ia _ s c it) by assumption. cbn [obind]. rewrite Tl. cbn [Z.eqb]. apply IH.
Qed.
End Serve.
