(* ===== verification/StormQueue.v ===== *)
(** Tuples and queues of the stream processor: mystorm/storm.h and the queue
    functions of mystorm/worker.c (configuration NORMAL_QUEUE).

    A queue has one producer and one consumer, in different threads.  A queue
    function is the list of its atomic actions, so that the two threads can be
    interleaved action by action; [sem_wait] blocks while the semaphore is 0.
    The [memcpy] of a tuple takes time: until it is done its target holds
    anything.  The counters of DEBUG_PERF are left out. *)
From stdpp Require Import base numbers list relations.
From Stdlib Require Import ZArith Lia.
From S2P Require Import Prelude.

Definition MAX_VECTOR : Z := 5.
Definition MAX_STR : Z := 64.
Definition MAX_WORKERS : Z := 5.
Definition MAX_EXECUTORS : Z := 5.
Definition MAX_TASKS : Z := 100.
Definition MAX_ELEMS : Z := 4096.

(** ** Definitions *)

Record field := mk_field { f_str : list Z; f_integer : Z }.
#[export] Instance field_eq_dec : EqDecision field.
Proof. solve_decision. Defined.
Record tuple := mk_tuple { t_task : Z; t_fromtask : Z; t_starttime : Z; t_v : list field }.
#[export] Instance tuple_eq_dec : EqDecision tuple.
Proof. solve_decision. Defined.
#[export] Instance eta_tuple : Eta tuple := fun t => mk_tuple (t_task t) (t_fromtask t) (t_starttime t) (t_v t).

(** [memset(&t, 0, sizeof(struct tuple))] *)
Definition field_zero : field := mk_field (repeat 0 (Z.to_nat MAX_STR)) 0.
Definition tuple_zero : tuple := mk_tuple 0 0 0 (repeat field_zero (Z.to_nat MAX_VECTOR)).

Record queue := mk_queue { q_hsem : Z; q_tsem : Z; q_elems : list tuple; q_head : Z; q_tail : Z }.
#[export] Instance eta_queue : Eta queue := fun q => mk_queue (q_hsem q) (q_tsem q) (q_elems q) (q_head q) (q_tail q).

Definition queue_init : queue := mk_queue MAX_ELEMS 0 (repeat tuple_zero (Z.to_nat MAX_ELEMS)) 0 0.

(** Atomic actions on a queue. *)
Inductive act :=
| a_wait_hsem                 (* sem_wait(&q->hsem) *)
| a_check (t : tuple)         (* assert(t->task != 0) *)
| a_copy (t : tuple)          (* memcpy(&q->elems[q->head], t, ..), at its end *)
| a_post_tsem                 (* sem_post(&q->tsem) *)
| a_next_head                 (* q->head = (q->head + 1) % MAX_ELEMS *)
| a_wait_tsem                 (* sem_wait(&q->tsem) *)
| a_post_hsem                 (* sem_post(&q->hsem) *)
| a_next_tail.                (* q->tail = (q->tail + 1) % MAX_ELEMS *)

Definition set_elem (q : queue) (t : tuple) : queue := q <| q_elems := <[Z.to_nat (q_head q) := t]> (q_elems q) |>.

(** [None]: the action blocks. *)
Definition act_step (a : act) (q : queue) : outcome (option queue) :=
  match a with
  | a_wait_hsem => Ok (if 0 <? q_hsem q then Some (q <| q_hsem := q_hsem q - 1 |>) else None)
  | a_check t => if t_task t =? 0 then Crash else Ok (Some q)
  | a_copy t => Ok (Some (set_elem q t))
  | a_post_tsem => Ok (Some (q <| q_tsem := q_tsem q + 1 |>))
  | a_next_head => Ok (Some (q <| q_head := (q_head q + 1) mod MAX_ELEMS |>))
  | a_wait_tsem => Ok (if 0 <? q_tsem q then Some (q <| q_tsem := q_tsem q - 1 |>) else None)
  | a_post_hsem => Ok (Some (q <| q_hsem := q_hsem q + 1 |>))
  | a_next_tail => Ok (Some (q <| q_tail := (q_tail q + 1) mod MAX_ELEMS |>))
  end.

Definition queue_post (t : tuple) : list act := [a_wait_hsem; a_check t; a_copy t; a_post_tsem; a_next_head].
Definition queue_advance (peeked : bool) : list act :=
  (if peeked then [a_wait_tsem] else []) ++ [a_post_hsem; a_next_tail].
(** What the consumer does before it has the pointer; [None]: NULL.  With
    [trywait] the element is not taken yet, [queue_advance] does. *)
Definition queue_peek (q : queue) (trywait : bool) : option (list act) :=
  if trywait then if q_tsem q <=? 0 then None else Some [] else Some [a_wait_tsem].
(** [&q->elems[q->tail]], dereferenced *)
Definition queue_first (q : queue) : option tuple := q_elems q !! Z.to_nat (q_tail q).

(** Actions without interference: [Spin] when one of them blocks. *)
Fixpoint run_acts (l : list act) (q : queue) : outcome queue :=
  match l with
  | [] => Ok q
  | a :: l => let! r := act_step a q in match r with Some q => run_acts l q | None => Spin end
  end.

(** ** The two threads of a queue

    [qs_hold]: the consumer has the pointer [queue_peek] returned, with
    [trywait] or without.  [qs_calls]: the tuples given to [queue_post];
    [qs_seen]: what was behind the pointer when the consumer called
    [queue_advance]. *)
Record qsys := mk_qsys
  { qs_q : queue; qs_prod : list act; qs_cons : list act; qs_hold : option bool; qs_calls : list tuple; qs_seen : list tuple }.
#[export] Instance eta_qsys : Eta qsys := fun s =>
  mk_qsys (qs_q s) (qs_prod s) (qs_cons s) (qs_hold s) (qs_calls s) (qs_seen s).

Definition qsys_init : qsys := mk_qsys queue_init [] [] None [] [].

(** What an action means to the users of the queue. *)
Inductive qevent := Push (t : tuple) | Pop (t : tuple).
Definition act_event (s : qsys) (a : act) : list qevent :=
  match a with
  | a_post_tsem => match last (qs_calls s) with Some t => [Push t] | None => [] end
  | a_post_hsem => match last (qs_seen s) with Some t => [Pop t] | None => [] end
  | _ => []
  end.

Inductive q_step : qsys -> list qevent -> qsys -> Prop :=
| q_call s t : qs_prod s = [] -> t_task t <> 0 ->
    q_step s [] (s <| qs_prod := queue_post t |> <| qs_calls := qs_calls s ++ [t] |>)
| q_prod s a l q : qs_prod s = a :: l -> act_step a (qs_q s) = Ok (Some q) ->
    q_step s (act_event s a) (s <| qs_q := q |> <| qs_prod := l |>)
| q_torn s t l x : qs_prod s = a_copy t :: l ->
    q_step s [] (s <| qs_q := set_elem (qs_q s) x |>)
| q_peek s trywait l q : qs_cons s = [] -> qs_hold s = None -> queue_peek (qs_q s) trywait = Some l ->
    run_acts l (qs_q s) = Ok q ->
    q_step s [] (s <| qs_q := q |> <| qs_hold := Some trywait |>)
| q_advance s peeked t : qs_hold s = Some peeked -> queue_first (qs_q s) = Some t ->
    q_step s [] (s <| qs_hold := None |> <| qs_cons := queue_advance peeked |> <| qs_seen := qs_seen s ++ [t] |>)
| q_cons s a l q : qs_cons s = a :: l -> act_step a (qs_q s) = Ok (Some q) ->
    q_step s (act_event s a) (s <| qs_q := q |> <| qs_cons := l |>).

Inductive q_run : qsys -> list qevent -> qsys -> Prop :=
| q_run_nil s : q_run s [] s
| q_run_snoc s tr s' e s'' : q_run s tr s' -> q_step s' e s'' -> q_run s (tr ++ e) s''.

Lemma q_run_cons s e s' tr s'' : q_step s e s' -> q_run s' tr s'' -> q_run s (e ++ tr) s''.
Proof.
  intros St R. induction R as [s'|s' tr s1 e' s2 R IH St']; [rewrite app_nil_r; apply (q_run_snoc s [] s e s'); [constructor|exact St]|].
  rewrite app_assoc. econstructor; eauto.
Qed.

(** ** Specification: a bounded first-in first-out queue *)

Inductive bq_step : list tuple -> qevent -> list tuple -> Prop :=
| bq_push l t : Z.of_nat (length l) < MAX_ELEMS -> bq_step l (Push t) (l ++ [t])
| bq_pop l t : bq_step (t :: l) (Pop t) l.
Inductive bq_run : list tuple -> list qevent -> list tuple -> Prop :=
| bq_nil l : bq_run l [] l
| bq_snoc l tr l' e l'' : bq_run l tr l' -> bq_step l' e l'' -> bq_run l (tr ++ [e]) l''.

Lemma bq_run_app l tr l' tr' l'' : bq_run l tr l' -> bq_run l' tr' l'' -> bq_run l (tr ++ tr') l''.
Proof. intros A B. induction B; [now rewrite app_nil_r|]. rewrite app_assoc. econstructor; eauto. Qed.
Lemma bq_one l e l' : bq_step l e l' -> bq_run l [e] l'.
Proof. intros. apply (bq_snoc l [] l e l'); [constructor|assumption]. Qed.

(** The consumer holds the first tuple, whole; nothing blocks but a full queue
    the producer and an empty one the consumer; no assertion fails. *)
Record queue_ok (s : qsys) (l : list tuple) : Prop := {
  qo_held : forall b, qs_hold s = Some b -> exists t l', l = t :: l' /\ queue_first (qs_q s) = Some t;
  qo_prod : forall a r, qs_prod s = a :: r ->
    (exists q, act_step a (qs_q s) = Ok (Some q)) \/ act_step a (qs_q s) = Ok None /\ a = a_wait_hsem /\ Z.of_nat (length l) = MAX_ELEMS;
  qo_cons : forall a r, qs_cons s = a :: r -> exists q, act_step a (qs_q s) = Ok (Some q);
  qo_peek : qs_cons s = [] -> qs_hold s = None -> queue_peek (qs_q s) true = None \/ act_step a_wait_tsem (qs_q s) = Ok None -> l = [];
}.

(** ** The invariant *)

(** How many times the producer has waited, copied, posted and moved on, for
    [m] calls. *)
Inductive prod_at : list act -> list tuple -> Z -> Z -> Z -> Z -> Prop :=
| pa_idle c m : Z.of_nat (length c) = m -> prod_at [] c m m m m
| pa_wait c t m : Z.of_nat (length c) = m -> t_task t <> 0 -> prod_at (queue_post t) (c ++ [t]) m m m m
| pa_check c t m : Z.of_nat (length c) = m -> t_task t <> 0 -> prod_at [a_check t; a_copy t; a_post_tsem; a_next_head] (c ++ [t]) (m + 1) m m m
| pa_copy c t m : Z.of_nat (length c) = m -> prod_at [a_copy t; a_post_tsem; a_next_head] (c ++ [t]) (m + 1) m m m
| pa_post c t m : Z.of_nat (length c) = m -> prod_at [a_post_tsem; a_next_head] (c ++ [t]) (m + 1) (m + 1) m m
| pa_next c t m : Z.of_nat (length c) = m -> prod_at [a_next_head] (c ++ [t]) (m + 1) (m + 1) (m + 1) m.

(** How many tuples the consumer has taken, given back and passed, for [k] seen
    ones; [v] can be taken. *)
Inductive cons_at (v : Z) : list act -> option bool -> Z -> Z -> Z -> Z -> Prop :=
| ca_idle k : cons_at v [] None k k k k
| ca_held k : cons_at v [] (Some false) k (k + 1) k k
| ca_tried k : k < v -> cons_at v [] (Some true) k k k k
| ca_take k : k < v -> cons_at v (queue_advance true) None (k + 1) k k k
| ca_back k : cons_at v (queue_advance false) None (k + 1) (k + 1) k k
| ca_next k : cons_at v [a_next_tail] None (k + 1) (k + 1) (k + 1) k.

Record q_counts (s : qsys) (W P V H T R C : Z) : Prop := {
  qc_prod : prod_at (qs_prod s) (qs_calls s) W P V H;
  qc_cons : cons_at V (qs_cons s) (qs_hold s) (Z.of_nat (length (qs_seen s))) T R C;
  qc_hsem : q_hsem (qs_q s) = MAX_ELEMS - W + R;
  qc_tsem : q_tsem (qs_q s) = V - T;
  qc_room : W <= R + MAX_ELEMS;
  qc_taken : 0 <= R /\ T <= V;
  qc_head : q_head (qs_q s) = H mod MAX_ELEMS;
  qc_tail : q_tail (qs_q s) = C mod MAX_ELEMS;
  qc_len : length (q_elems (qs_q s)) = Z.to_nat MAX_ELEMS;
  qc_elems : forall i, R <= i < P -> q_elems (qs_q s) !! Z.to_nat (i mod MAX_ELEMS) = qs_calls s !! Z.to_nat i;
  qc_seen : forall i, 0 <= i < Z.of_nat (length (qs_seen s)) -> qs_seen s !! Z.to_nat i = qs_calls s !! Z.to_nat i;
}.

Definition q_inv (s : qsys) (l : list tuple) : Prop := exists W P V H T R C,
  q_counts s W P V H T R C /\ l = take (Z.to_nat (V - R)) (drop (Z.to_nat R) (qs_calls s)).

Lemma prod_bounds p c W P V H : prod_at p c W P V H -> 0 <= H <= V /\ V <= P <= W /\ W <= Z.of_nat (length c).
Proof. destruct 1; rewrite ?length_app; cbn [length]; lia. Qed.
Lemma cons_bounds v p h k T R C : cons_at v p h k T R C -> R <= T <= R + 1 /\ C <= R /\ R <= k.
Proof. destruct 1; lia. Qed.
Lemma cons_at_mono v v' p h k T R C : v <= v' -> cons_at v p h k T R C -> cons_at v' p h k T R C.
Proof. intros L. destruct 1; constructor; lia. Qed.

Lemma mod_elems_range i : 0 <= i mod MAX_ELEMS < MAX_ELEMS.
Proof. apply Z.mod_pos_bound. reflexivity. Qed.
Lemma mod_elems_next i : (i mod MAX_ELEMS + 1) mod MAX_ELEMS = (i + 1) mod MAX_ELEMS.
Proof. apply Zplus_mod_idemp_l. Qed.
Lemma mod_elems_ne i j : i < j -> j < i + MAX_ELEMS -> i mod MAX_ELEMS <> j mod MAX_ELEMS.
Proof. unfold MAX_ELEMS. intros. Z.div_mod_to_equations. lia. Qed.

(** A slot the producer may write is not one of those in use. *)
Lemma other_slot (l : list tuple) i h x : i < h -> h < i + MAX_ELEMS ->
  <[Z.to_nat (h mod MAX_ELEMS) := x]> l !! Z.to_nat (i mod MAX_ELEMS) = l !! Z.to_nat (i mod MAX_ELEMS).
Proof.
  intros L1 L2. apply list_lookup_insert_ne. pose proof (mod_elems_ne i h L1 L2).
  pose proof (mod_elems_range i). pose proof (mod_elems_range h). lia.
Qed.

Lemma in_window {A} (l : list A) R V x : 0 <= R -> R <= V -> l !! Z.to_nat R = Some x -> R < V ->
  exists l', take (Z.to_nat (V - R)) (drop (Z.to_nat R) l) = x :: l' /\
    l' = take (Z.to_nat (V - (R + 1))) (drop (Z.to_nat (R + 1)) l).
Proof.
  intros A0 L E B. rewrite (drop_S l x) by exact E. replace (Z.to_nat (V - R)) with (S (Z.to_nat (V - (R + 1)))) by lia.
  eexists. split; [reflexivity|]. f_equal. f_equal. lia.
Qed.
Lemma window_grows {A} (l : list A) R V x : 0 <= R -> R <= V -> l !! Z.to_nat V = Some x ->
  take (Z.to_nat (V + 1 - R)) (drop (Z.to_nat R) l) = take (Z.to_nat (V - R)) (drop (Z.to_nat R) l) ++ [x].
Proof.
  intros A0 L E. replace (Z.to_nat (V + 1 - R)) with (S (Z.to_nat (V - R))) by lia. apply take_S_r.
  rewrite lookup_drop. rewrite <- E. f_equal. lia.
Qed.
Lemma length_window {A} (l : list A) R V : 0 <= R -> R <= V -> V <= Z.of_nat (length l) ->
  Z.of_nat (length (take (Z.to_nat (V - R)) (drop (Z.to_nat R) l))) = V - R.
Proof. intros. rewrite length_take, length_drop. lia. Qed.

Section Invariant.
Context (s : qsys) (W P V H T R C : Z) (Q : q_counts s W P V H T R C).

Lemma counts_order : R <= T <= V /\ V <= P <= W /\ H <= V /\ 0 <= R /\ V <= Z.of_nat (length (qs_calls s)) /\ 0 <= H.
Proof.
  destruct Q. apply prod_bounds in qc_prod0. apply cons_bounds in qc_cons0. lia.
Qed.

(** The pointer shows the first tuple. *)
Lemma held_first b : qs_hold s = Some b ->
  R < V /\ exists t, qs_calls s !! Z.to_nat R = Some t /\ queue_first (qs_q s) = Some t /\ R = Z.of_nat (length (qs_seen s)).
Proof.
  intros Hb. pose proof counts_order as O. destruct Q.
  assert (K : R = C /\ R < V /\ R = Z.of_nat (length (qs_seen s))).
  { destruct qc_cons0; try discriminate; lia. }
  destruct K as (K & L & Ks). split; [exact L|].
  destruct (lookup_lt_is_Some_2 (qs_calls s) (Z.to_nat R)) as [t Ht]; [lia|].
  exists t. split; [exact Ht|]. split; [|exact Ks]. unfold queue_first. rewrite qc_tail0, <- K, qc_elems0 by lia. exact Ht.
Qed.

Lemma held_head b l : qs_hold s = Some b -> l = take (Z.to_nat (V - R)) (drop (Z.to_nat R) (qs_calls s)) ->
  exists t l', l = t :: l' /\ queue_first (qs_q s) = Some t.
Proof.
  intros Hb ->. destruct (held_first b Hb) as (L & t & Ht & Hf & _). pose proof counts_order.
  destruct (in_window _ R V t ltac:(lia) ltac:(lia) Ht L) as (l' & E & _). eauto.
Qed.
End Invariant.

Lemma q_inv_ok s l : q_inv s l -> queue_ok s l.
Proof.
  intros (W & P & V & H & T & R & C & Q & ->). pose proof (counts_order _ _ _ _ _ _ _ _ Q) as O. constructor.
  - intros b Hb. eapply held_head; eauto.
  - intros a r Ea. pose proof (qc_prod _ _ _ _ _ _ _ _ Q) as A. rewrite Ea in A.
    inversion A; subst; cbn [act_step]; try (left; eexists; reflexivity).
    + rewrite (qc_hsem _ _ _ _ _ _ _ _ Q). bsplit; [left; eexists; reflexivity|].
      right. split_and!; [reflexivity..|]. rewrite length_window by (rewrite ?length_app; cbn [length]; lia). pose proof (qc_room _ _ _ _ _ _ _ _ Q). lia.
    + destruct (Z.eqb_spec (t_task t) 0); [contradiction|]. left. eexists. reflexivity.
  - intros a r Ea. pose proof (qc_cons _ _ _ _ _ _ _ _ Q) as A. rewrite Ea in A.
    inversion A; subst; cbn [act_step]; try (eexists; reflexivity).
    rewrite (qc_tsem _ _ _ _ _ _ _ _ Q). bsplit; [eexists; reflexivity|lia].
  - intros Ec Eh Hb. pose proof (qc_cons _ _ _ _ _ _ _ _ Q) as A. rewrite Ec, Eh in A. inversion A; subst.
    assert (L : q_tsem (qs_q s) <= 0).
    { destruct Hb as [Hb|Hb]; cbn [queue_peek act_step] in Hb.
      - destruct (Z.leb_spec (q_tsem (qs_q s)) 0); [lia|discriminate].
      - destruct (Z.ltb_spec 0 (q_tsem (qs_q s))); [discriminate|lia]. }
    rewrite (qc_tsem _ _ _ _ _ _ _ _ Q) in L.
    match goal with |- take ?n _ = [] => replace n with 0%nat by lia end. reflexivity.
Qed.

Lemma q_inv_init : q_inv qsys_init [].
Proof.
  exists 0, 0, 0, 0, 0, 0, 0. split; [|reflexivity]. constructor; cbn -[repeat]; try reflexivity; try lia.
  - now constructor.
  - constructor.
  - unfold MAX_ELEMS. lia.
Qed.

(** ** Every step keeps it *)

Lemma window_app {A} (l : list A) R V x : 0 <= R -> V <= Z.of_nat (length l) ->
  take (Z.to_nat (V - R)) (drop (Z.to_nat R) (l ++ [x])) = take (Z.to_nat (V - R)) (drop (Z.to_nat R) l).
Proof.
  intros A0 L. destruct (Z.leb_spec R (Z.of_nat (length l))).
  - rewrite drop_app_le by lia. apply take_app_le. rewrite length_drop. lia.
  - replace (Z.to_nat (V - R)) with 0%nat by lia. reflexivity.
Qed.

Lemma cons_seen v p h k T R C : cons_at v p h k T R C -> T <= v -> k <= v.
Proof. destruct 1; lia. Qed.

Lemma q_call_inv s l t : qs_prod s = [] -> t_task t <> 0 -> q_inv s l ->
  q_inv (s <| qs_prod := queue_post t |> <| qs_calls := qs_calls s ++ [t] |>) l.
Proof.
  intros Ep Ht (W & P & V & H & T & R & C & Q & ->). pose proof (counts_order _ _ _ _ _ _ _ _ Q) as O.
  exists W, P, V, H, T, R, C. destruct Q. rewrite Ep in qc_prod0. inversion qc_prod0; subst.
  split; [|symmetry; apply window_app; cbn; lia].
  pose proof (cons_seen _ _ _ _ _ _ _ qc_cons0 (proj2 qc_taken0)).
  constructor; cbn -[queue_post]; auto.
  - now constructor.
  - intros i Hi. rewrite lookup_app_l by lia. auto.
  - intros i Hi. rewrite qc_seen0 by lia. symmetry. apply lookup_app_l. lia.
Qed.

Lemma set_elem_inv s l t x r : qs_prod s = a_copy t :: r -> q_inv s l -> q_inv (s <| qs_q := set_elem (qs_q s) x |>) l.
Proof.
  intros Ep (W & P & V & H & T & R & C & Q & ->). pose proof (counts_order _ _ _ _ _ _ _ _ Q) as O.
  exists W, P, V, H, T, R, C. split; [|reflexivity]. destruct Q. rewrite Ep in qc_prod0. inversion qc_prod0; subst.
  constructor; cbn -[Z.modulo]; auto.
  - rewrite Ep. assumption.
  - rewrite length_insert. assumption.
  - intros i Hi. rewrite qc_head0, other_slot by lia. auto.
Qed.

(** The producer's actions, and what they do to the contents. *)
Lemma q_prod_inv s l a r q : qs_prod s = a :: r -> act_step a (qs_q s) = Ok (Some q) -> q_inv s l ->
  exists l', bq_run l (act_event s a) l' /\ q_inv (s <| qs_q := q |> <| qs_prod := r |>) l'.
Proof.
  intros Ep E (W & P & V & H & T & R & C & Q & ->). pose proof (counts_order _ _ _ _ _ _ _ _ Q) as O.
  destruct Q as [Qp Qc Qh Qt Qr Qk Qhd Qtl Ql Qe Qs]. rewrite Ep in Qp.
  remember (qs_calls s) as calls eqn:Ec. remember (a :: r) as acts eqn:Ea.
  destruct Qp as [| c t m Hm Ht | c t m Hm Ht | c t m Hm | c t m Hm | c t m Hm]; [discriminate|..];
    injection Ea as <- <-; cbn [act_step] in E.
  - (* wait *) destruct (Z.ltb_spec 0 (q_hsem (qs_q s))); [|discriminate]. injection E as <-.
    eexists. split; [constructor|]. exists (m + 1), m, m, m, T, R, C. split; [|cbn; now rewrite <- Ec].
    constructor; cbn; rewrite <- ?Ec; auto; try lia. now constructor.
  - (* check *) destruct (t_task t =? 0); [discriminate|]. injection E as <-.
    eexists. split; [constructor|]. exists (m + 1), m, m, m, T, R, C. split; [|cbn; now rewrite <- Ec].
    constructor; cbn; rewrite <- ?Ec; auto. now constructor.
  - (* copy *) injection E as <-. eexists. split; [constructor|]. exists (m + 1), (m + 1), m, m, T, R, C. split; [|cbn; now rewrite <- Ec].
    constructor; cbn -[Z.modulo]; rewrite <- ?Ec; auto; try lia.
    + now constructor.
    + now rewrite length_insert.
    + intros i Hi. rewrite Qhd. destruct (Z.eqb_spec i m) as [->|].
      * pose proof (mod_elems_range m). rewrite list_lookup_insert_eq by lia.
        rewrite lookup_app_r by lia. replace (Z.to_nat m - length c)%nat with 0%nat by lia. reflexivity.
      * rewrite other_slot by lia. apply Qe. lia.
  - (* post *) injection E as <-. cbn [act_event]. rewrite <- Ec, last_snoc.
    assert (Et : (c ++ [t]) !! Z.to_nat m = Some t).
    { rewrite lookup_app_r by lia. replace (Z.to_nat m - length c)%nat with 0%nat by lia. reflexivity. }
    eexists. split.
    + apply bq_one. apply bq_push. rewrite length_window by (rewrite ?length_app; lia). lia.
    + exists (m + 1), (m + 1), (m + 1), m, T, R, C. split; [|cbn; rewrite <- Ec; symmetry; apply window_grows; auto; lia].
      constructor; cbn; rewrite <- ?Ec; auto; try lia; [now constructor|eapply cons_at_mono; [|eassumption]; lia].
  - (* next *) injection E as <-. eexists. split; [constructor|]. exists (m + 1), (m + 1), (m + 1), (m + 1), T, R, C. split; [|cbn; now rewrite <- Ec].
    constructor; cbn -[Z.modulo]; rewrite <- ?Ec; auto; try lia.
    + constructor. rewrite length_app. cbn. lia.
    + rewrite Qhd. apply mod_elems_next.
Qed.

Lemma q_peek_inv s l trywait w q : qs_cons s = [] -> qs_hold s = None -> queue_peek (qs_q s) trywait = Some w ->
  run_acts w (qs_q s) = Ok q -> q_inv s l -> q_inv (s <| qs_q := q |> <| qs_hold := Some trywait |>) l.
Proof.
  intros Ec Eh Ew Er (W & P & V & H & T & R & C & Q & ->).
  destruct Q as [Qp Qc Qh Qt Qr Qk Qhd Qtl Ql Qe Qs]. rewrite Ec, Eh in Qc. inversion Qc; subst.
  destruct trywait; cbn [queue_peek] in Ew.
  - destruct (Z.leb_spec (q_tsem (qs_q s)) 0) as [|G]; [discriminate|]. injection Ew as <-. injection Er as <-.
    exists W, P, V, H. do 3 eexists. split; [|reflexivity]. constructor; cbn; eauto. rewrite Ec. constructor. lia.
  - injection Ew as <-. cbn [run_acts act_step obind] in Er. destruct (Z.ltb_spec 0 (q_tsem (qs_q s))) as [G|]; [|discriminate]. injection Er as <-.
    set (k := Z.of_nat (length (qs_seen s))) in *. exists W, P, V, H, (k + 1), k, k. split; [|reflexivity].
    constructor; cbn; auto; try lia. rewrite Ec. constructor.
Qed.

Lemma q_advance_inv s l b t : qs_hold s = Some b -> queue_first (qs_q s) = Some t -> q_inv s l ->
  q_inv (s <| qs_hold := None |> <| qs_cons := queue_advance b |> <| qs_seen := qs_seen s ++ [t] |>) l.
Proof.
  intros Eh Ef (W & P & V & H & T & R & C & Q & ->). destruct (held_first _ _ _ _ _ _ _ _ Q b Eh) as (L & t' & Ht & Ef' & Ek).
  rewrite Ef in Ef'. injection Ef' as <-.
  exists W, P, V, H, T, R, C. split; [|reflexivity].
  destruct Q as [Qp Qc Qh Qt Qr Qk Qhd Qtl Ql Qe Qs]. rewrite Eh in Qc.
  constructor; cbn -[queue_advance]; auto.
  - rewrite length_app. cbn [length]. rewrite Nat2Z.inj_add. change (Z.of_nat 1) with 1.
    remember (Some b) as h eqn:Eb. destruct Qc; try discriminate; injection Eb as <-; constructor; lia.
  - rewrite length_app. cbn [length]. intros i Hi. destruct (Z.eqb_spec i R) as [->|].
    + rewrite Ht. rewrite lookup_app_r by lia. replace (Z.to_nat R - length (qs_seen s))%nat with 0%nat by lia. reflexivity.
    + rewrite lookup_app_l by lia. apply Qs. lia.
Qed.

Lemma q_cons_inv s l a r q : qs_cons s = a :: r -> act_step a (qs_q s) = Ok (Some q) -> q_inv s l ->
  exists l', bq_run l (act_event s a) l' /\ q_inv (s <| qs_q := q |> <| qs_cons := r |>) l'.
Proof.
  intros Ep E (W & P & V & H & T & R & C & Q & ->). pose proof (counts_order _ _ _ _ _ _ _ _ Q) as O.
  destruct Q as [Qp Qc Qh Qt Qr Qk Qhd Qtl Ql Qe Qs]. rewrite Ep in Qc.
  remember (Z.of_nat (length (qs_seen s))) as n eqn:En. remember (a :: r) as acts eqn:Ea. remember (qs_hold s) as h eqn:Eh.
  destruct Qc as [|k|k|k Hk|k|k]; try discriminate; injection Ea as <- <-; cbn [act_step] in E.
  - (* take *) destruct (Z.ltb_spec 0 (q_tsem (qs_q s))); [|discriminate]. injection E as <-.
    eexists. split; [constructor|]. exists W, P, V, H, (k + 1), k, k. split; [|reflexivity].
    constructor; cbn; rewrite <- ?En, <- ?Eh; auto; try lia. constructor.
  - (* back *) injection E as <-. cbn [act_event].
    destruct (lookup_lt_is_Some_2 (qs_seen s) (Z.to_nat k)) as [t Ht]; [lia|].
    assert (El : last (qs_seen s) = Some t) by (rewrite last_lookup; rewrite <- Ht; f_equal; lia).
    assert (Hc : qs_calls s !! Z.to_nat k = Some t) by (rewrite <- Qs by lia; exact Ht).
    rewrite El. destruct (in_window (qs_calls s) k V t ltac:(lia) ltac:(lia) Hc ltac:(lia)) as (l' & E1 & E2).
    exists l'. rewrite E1. split; [apply bq_one, bq_pop|].
    exists W, P, V, H, (k + 1), (k + 1), k. split; [|exact E2].
    constructor; cbn; rewrite <- ?En, <- ?Eh; auto; try lia; [constructor|].
    intros i Hi. apply Qe. lia.
  - (* next *) injection E as <-. eexists. split; [constructor|]. exists W, P, V, H, (k + 1), (k + 1), (k + 1). split; [|reflexivity].
    constructor; cbn -[Z.modulo]; rewrite <- ?En, <- ?Eh; auto; [constructor|]. rewrite Qtl. apply mod_elems_next.
Qed.

Lemma q_step_inv s e s' l : q_step s e s' -> q_inv s l -> exists l', bq_run l e l' /\ q_inv s' l'.
Proof.
  intros St I. destruct St.
  - exists l. split; [constructor|]. now apply q_call_inv.
  - eapply q_prod_inv; eauto.
  - exists l. split; [constructor|]. eapply set_elem_inv; eauto.
  - exists l. split; [constructor|]. eapply q_peek_inv; eauto.
  - exists l. split; [constructor|]. now apply q_advance_inv.
  - eapply q_cons_inv; eauto.
Qed.

Lemma q_run_inv s tr : q_run qsys_init tr s -> exists l, bq_run [] tr l /\ q_inv s l.
Proof.
  intros R. remember qsys_init as s0. induction R as [s|s tr s1 e s2 _ IH St]; subst.
  - exists []. split; [constructor|apply q_inv_init].
  - destruct (IH eq_refl) as (l & B & I). destruct (q_step_inv _ _ _ _ St I) as (l' & B' & I'). exists l'. eauto using bq_run_app.
Qed.

(** C18. A queue of the stream processor between two threads is a bounded
    first-in first-out queue, however their semaphore operations, copies and
    position updates interleave: what the two do is a run of the bounded queue,
    the consumer sees the first tuple, unchanged and complete, as long as it
    holds the pointer, only a full queue stops the producer and only an empty
    one the consumer, and no assertion fails. *)
Theorem storm_queue_refines s tr : q_run qsys_init tr s -> exists l, bq_run [] tr l /\ queue_ok s l.
Proof. intros R. destruct (q_run_inv s tr R) as (l & B & I). eauto using q_inv_ok. Qed.
