(* ===== verification/StormTuple.v ===== *)
(** What a worker of the stream processor knows about tuples and tasks:
    mystorm/storm.h (the layout of a tuple), mystorm/hash.c, the groupings and
    the table of workers of mystorm/worker.h (topology SWINGOUT_BALANCED, the
    Makefile's), [task2sock] of mystorm/worker.c. *)
From stdpp Require Import base numbers list gmap.
From Stdlib Require Import ZArith Lia.
From S2P Require Import Prelude Dma FastRx Queues FkHash StormQueue.
Open Scope Z_scope.

(** ** Strings in a tuple *)

(** [strlen], [None] when there is no NUL in the array. *)
Fixpoint strlen (l : list Z) : option nat :=
  match l with
  | [] => None
  | b :: l => if b =? 0 then Some O else S <$> strlen l
  end.
Definition c_string (l : list Z) : outcome (list Z) :=
  match strlen l with Some n => Ok (take n l) | None => Crash end.
(** [strcpy] into an array; [Crash] when it does not fit. *)
Definition strcpy (dst src : list Z) : outcome (list Z) :=
  let! s := c_string src in
  if Nat.ltb (length s) (length dst) then Ok (s ++ [0] ++ drop (S (length s)) dst) else Crash.

(** ** The layout of a tuple *)

Definition SZ_FIELD : Z := 68.
Definition SZ_TUPLE : Z := 360.

Definition field_bytes (f : field) : list Z := f_str f ++ le_bytes 4 (u32 (f_integer f)).
(** Four bytes of padding at the end. *)
Definition tuple_bytes (t : tuple) : list Z :=
  le_bytes 4 (u32 (t_task t)) ++ le_bytes 4 (u32 (t_fromtask t)) ++ le_bytes 8 (t_starttime t)
    ++ concat (map field_bytes (t_v t)) ++ repeat 0 4.

Definition bytes_field (l : list Z) : field := mk_field (slice l 0 MAX_STR) (s32 (le_value (slice l MAX_STR 4))).
Definition bytes_tuple (l : list Z) : tuple :=
  mk_tuple (s32 (le_value (slice l 0 4))) (s32 (le_value (slice l 4 4))) (le_value (slice l 8 8))
    (map (fun i => bytes_field (slice l (16 + SZ_FIELD * Z.of_nat i) SZ_FIELD)) (seq 0 (Z.to_nat MAX_VECTOR))).

(** ** The hash *)

Definition hash_from (fuel : nat) (block : Z -> Z * Z * Z -> Z * Z * Z) (last : Z -> nat -> Z * Z * Z -> Z * Z * Z)
    (i key length : Z) : outcome Z :=
  let! (s, k, n) := hash_blocks fuel block (i, i, i) key length in
  if n =? 0 then Ok s.2 else Ok (final (last k (Z.to_nat n) s)).2.

Definition hash (fuel : nat) (m : mem) (key length initval : Z) : outcome Z :=
  let i := u32 (u32 (3735928559 + u32 length) + initval) in
  if Z.land key 3 =? 0 then hash_from fuel (block32 m) (last32 m) i key length
  else if Z.land key 1 =? 0 then hash_from fuel (block16 m) (last16 m) i key length
  else hash_from fuel (block8 m) (last8 m) i key length.

(** [hash(str, strlen(str), 0)], the array at address 0 *)
Definition hash_str (str : list Z) : outcome Z :=
  let! s := c_string str in
  hash (length s) (mem_write ∅ 0 str) 0 (Z.of_nat (length s)) 0.

(** ** Executors *)

Inductive bolt := spout_execute_b | count_execute_b | rank_execute_b | print_execute_b.
Inductive grouping := fields_grouping_g | global_grouping_g | shuffle_grouping_g.
(** [x_outtasks]: the entries in front of the zeros that fill the array. *)
Record executor := mk_executor
  { x_execute : bolt; x_spout : bool; x_taskid : Z; x_outtasks : list Z; x_grouper : grouping }.
(** [w_hostname]: the octets of the address. *)
Record worker := mk_worker { w_hostname : list Z; w_port : Z; w_sock : Z; w_executors : list executor }.

Definition outtask (x : executor) (i : Z) : Z := default 0 (x_outtasks x !! Z.to_nat i).

(** [for (numtasks = 0; numtasks < MAX_TASKS; numtasks++) if (outtasks[numtasks] == 0) break;] *)
Fixpoint count_tasks (fuel : nat) (x : executor) (i : Z) : Z :=
  match fuel with
  | O => i
  | S fuel => if i <? MAX_TASKS then if outtask x i =? 0 then i else count_tasks fuel x (i + 1) else i
  end.
(** [numtasks]: the static variable of the thread. *)
Definition remember_tasks (numtasks : Z) (x : executor) : outcome Z :=
  if numtasks =? 0 then
    let n := count_tasks (Z.to_nat MAX_TASKS) x 0 in if 0 <? n then Ok n else Crash
  else Ok numtasks.

Definition fields_grouping (numtasks : Z) (t : tuple) (x : executor) : outcome (Z * Z) :=
  let! n := remember_tasks numtasks x in
  match t_v t with
  | [] => Crash
  | f :: _ => let! h := hash_str (f_str f) in Ok (n, outtask x (h mod n))
  end.
Definition global_grouping (x : executor) : Z := outtask x 0.
(** [random]: what [random()] returns. *)
Definition shuffle_grouping (numtasks random : Z) (x : executor) : outcome (Z * Z) :=
  let! n := remember_tasks numtasks x in Ok (n, outtask x (random mod n)).

Definition grouper (random numtasks : Z) (t : tuple) (x : executor) : outcome (Z * Z) :=
  match x_grouper x with
  | fields_grouping_g => fields_grouping numtasks t x
  | global_grouping_g => Ok (numtasks, global_grouping x)
  | shuffle_grouping_g => shuffle_grouping numtasks random x
  end.

(** ** Workers *)

Definition spout_x (i : Z) (out : list Z) : executor := mk_executor spout_execute_b true i out fields_grouping_g.
Definition count_x (i : Z) (out : list Z) : executor := mk_executor count_execute_b false i out fields_grouping_g.
Definition rank_x (i : Z) (out : list Z) : executor := mk_executor rank_execute_b false i out global_grouping_g.

(** [workers], with nothing connected *)
Definition workers : list worker :=
  [ mk_worker [10; 0; 0; 1] 7001 0
      [spout_x 3 [10; 11; 12; 13]; count_x 12 [20; 21; 22; 23]; rank_x 20 [30]; rank_x 23 [30]];
    mk_worker [10; 0; 0; 4] 7002 0
      [spout_x 1 [10; 11; 12; 13]; spout_x 4 [10; 11; 12; 13]; count_x 11 [20; 21; 22; 23]; count_x 13 [20; 21; 22; 23];
       rank_x 21 [30]];
    mk_worker [10; 0; 0; 5] 7003 0
      [spout_x 2 [10; 11; 12; 13]; count_x 10 [20; 21; 22; 23]; rank_x 22 [30]; rank_x 30 []] ].

Definition hosts (w : worker) (taskid : Z) : bool := existsb (fun x => taskid =? x_taskid x) (w_executors w).

(** The loop goes on behind the worker it has found. *)
Fixpoint task2sock_from (ws : list worker) (i : nat) (taskid : Z) (r : Z * option nat) : Z * option nat :=
  match ws with
  | [] => r
  | w :: ws => task2sock_from ws (S i) taskid (if hosts w taskid then (w_sock w, Some i) else r)
  end.
(** The socket, and the worker it belongs to. *)
Definition task2sock (ws : list worker) (taskid : Z) : outcome (Z * option nat) :=
  let r := task2sock_from ws 0 taskid (0, None) in
  if r.1 =? 0 then Crash else Ok r.

(** [task2executor]: the executors of a worker by task, [None] outside of the
    table and for NULL. *)
Definition task2executor (w : worker) (taskid : Z) : option executor :=
  if (0 <=? taskid) && (taskid <? MAX_TASKS) then List.find (fun x => x_taskid x =? taskid) (w_executors w) else None.

(** ** What a table of workers has to satisfy *)

Definition all_executors (ws : list worker) : list executor := concat (map w_executors ws).
Definition all_tasks (ws : list worker) : list Z := map x_taskid (all_executors ws).

Definition executor_ok (tasks : list Z) (x : executor) : bool :=
  (0 <? x_taskid x) && (x_taskid x <? MAX_TASKS) && Nat.ltb (length (x_outtasks x)) (Z.to_nat MAX_TASKS)
  && forallb (fun d => negb (d =? 0) && existsb (Z.eqb d) tasks) (x_outtasks x)
  && match x_grouper x with global_grouping_g => true | _ => Nat.ltb 0 (length (x_outtasks x)) end.
Definition topology_ok (ws : list worker) : bool :=
  Nat.ltb (length ws) (Z.to_nat MAX_WORKERS)
  && forallb (fun w => Nat.leb (length (w_executors w)) (Z.to_nat MAX_EXECUTORS)) ws
  && forallb (executor_ok (all_tasks ws)) (all_executors ws)
  && bool_decide (NoDup (all_tasks ws)).

Lemma workers_ok : topology_ok workers = true.
Proof. vm_compute. reflexivity. Qed.

(** ** The hash depends on the string only *)

Lemma hash_is_jenkins fuel m key length : hash fuel m key length 0 = jenkins_hash fuel m key length.
Proof. unfold hash, jenkins_hash, hash_from, hash_with. rewrite Z.add_0_r, u32_twice. reflexivity. Qed.

Lemma strlen_spec l n : strlen l = Some n -> (n < length l)%nat /\ l !! n = Some 0 /\ (0 ∉ take n l).
Proof.
  revert n. induction l as [|b l IH]; intros n; cbn [strlen]; [discriminate|]. destruct (Z.eqb_spec b 0) as [->|Hb].
  - intros [= <-]. split; [cbn; lia|]. split; [reflexivity|]. apply not_elem_of_nil.
  - destruct (strlen l) as [k|] eqn:E; [|discriminate]. intros [= <-]. destruct (IH k eq_refl) as (L & K & N).
    split; [cbn; lia|]. split; [exact K|]. cbn [take]. rewrite not_elem_of_cons. auto.
Qed.
Lemma strlen_app s r : (0 ∉ s) -> strlen (s ++ 0 :: r) = Some (length s).
Proof.
  induction s as [|b s IH]; intros N; [reflexivity|]. apply not_elem_of_cons in N as [Nb N]. cbn.
  destruct (Z.eqb_spec b 0); [congruence|]. now rewrite IH.
Qed.
Lemma c_string_app s r : (0 ∉ s) -> c_string (s ++ 0 :: r) = Ok s.
Proof. intros N. unfold c_string. rewrite strlen_app by exact N. now rewrite take_app_length. Qed.
Lemma c_string_inv l s : c_string l = Ok s -> exists r, l = s ++ 0 :: r /\ (0 ∉ s).
Proof.
  unfold c_string. destruct (strlen l) as [n|] eqn:E; [|discriminate]. intros [= <-].
  destruct (strlen_spec _ _ E) as (L & K & N). exists (drop (S n) l). split; [|exact N].
  rewrite <- (take_drop n l) at 1. f_equal. now apply drop_S.
Qed.
Lemma strcpy_spec dst src s : c_string src = Ok s -> (length s < length dst)%nat ->
  exists d, strcpy dst src = Ok d /\ length d = length dst /\ c_string d = Ok s.
Proof.
  intros E L. unfold strcpy. rewrite E. cbn [obind]. destruct (Nat.ltb_spec (length s) (length dst)); [|lia].
  eexists. split; [reflexivity|]. split.
  - rewrite !length_app, length_drop. cbn. lia.
  - destruct (c_string_inv _ _ E) as (r & _ & N). cbn. now apply c_string_app.
Qed.

Lemma hash_str_ref str s : bytes str -> c_string str = Ok s -> hash_str str = Ok (jenkins_ref s).
Proof.
  intros B E. unfold hash_str. rewrite E. cbn [obind]. rewrite hash_is_jenkins.
  rewrite jenkins_hash_bytes; [|apply mem_write_bytes_ok; [intros a; unfold mem_byte; rewrite lookup_empty; cbn; lia|exact B]|lia].
  do 2 f_equal. destruct (c_string_inv _ _ E) as (r & -> & _).
  exact (mem_read_mid ∅ 0 [] s (0 :: r)).
Qed.

(** ** Groupings *)

Definition str_ok (l : list Z) : Prop := Z.of_nat (length l) = MAX_STR /\ bytes l.

Lemma count_tasks_spec fuel x : forall i, 0 <= i -> Z.of_nat (length (x_outtasks x)) < MAX_TASKS -> (0 ∉ x_outtasks x) ->
  i <= Z.of_nat (length (x_outtasks x)) -> Z.of_nat (length (x_outtasks x)) - i < Z.of_nat fuel ->
  count_tasks fuel x i = Z.of_nat (length (x_outtasks x)).
Proof.
  induction fuel as [|fuel IH]; intros i Hi L N Le F; [lia|]. cbn [count_tasks].
  destruct (Z.ltb_spec i MAX_TASKS); [|lia]. unfold outtask at 1.
  destruct (x_outtasks x !! Z.to_nat i) as [d|] eqn:E; cbn.
  - destruct (Z.eqb_spec d 0) as [->|]; [destruct N; eapply list_elem_of_lookup_2; eauto|].
    apply lookup_lt_Some in E. apply IH; auto; lia.
  - apply lookup_ge_None in E. lia.
Qed.

(** The executor's part of [topology_ok]. *)
Record executor_wf (tasks : list Z) (x : executor) : Prop := {
  xw_id : 0 < x_taskid x < MAX_TASKS;
  xw_len : Z.of_nat (length (x_outtasks x)) < MAX_TASKS;
  xw_out : forall d, d ∈ x_outtasks x -> d <> 0 /\ d ∈ tasks;
  xw_some : x_grouper x <> global_grouping_g -> x_outtasks x <> [];
}.

Lemma executor_ok_wf tasks x : executor_ok tasks x = true -> executor_wf tasks x.
Proof.
  unfold executor_ok. rewrite !andb_true_iff, Z.ltb_lt, Z.ltb_lt, Nat.ltb_lt, forallb_forall.
  intros ((((A & B) & L) & O) & G). constructor; [lia|lia| |].
  - intros d Hd. rewrite list_elem_of_In in Hd. specialize (O d Hd). rewrite andb_true_iff, negb_true_iff, Z.eqb_neq, existsb_exists in O.
    destruct O as (N & e & He & E). apply Z.eqb_eq in E as <-. rewrite <- list_elem_of_In in He. auto.
  - intros N E. rewrite E in G. destruct (x_grouper x); [discriminate|congruence|discriminate].
Qed.

Section Grouping.
Context (tasks : list Z) (x : executor) (Wf : executor_wf tasks x).

Lemma outtask_in i : 0 <= i < Z.of_nat (length (x_outtasks x)) -> outtask x i ∈ x_outtasks x.
Proof.
  intros H. unfold outtask. destruct (lookup_lt_is_Some_2 (x_outtasks x) (Z.to_nat i)) as [d E]; [lia|].
  rewrite E. eapply list_elem_of_lookup_2; eauto.
Qed.
Lemma outtask_hosted i : outtask x i = 0 \/ outtask x i <> 0 /\ outtask x i ∈ tasks.
Proof.
  unfold outtask. destruct (x_outtasks x !! Z.to_nat i) as [d|] eqn:E; [|auto].
  right. cbn. apply (xw_out _ _ Wf). eapply list_elem_of_lookup_2; eauto.
Qed.

Lemma remember_tasks_ok n : x_outtasks x <> [] -> n = 0 \/ n = Z.of_nat (length (x_outtasks x)) ->
  remember_tasks n x = Ok (Z.of_nat (length (x_outtasks x))).
Proof.
  intros Ne Hn. pose proof (xw_len _ _ Wf). assert (0 < Z.of_nat (length (x_outtasks x))) by (destruct (x_outtasks x); [congruence|cbn; lia]).
  unfold remember_tasks. destruct Hn as [->| ->].
  - cbn [Z.eqb]. rewrite (count_tasks_spec _ x 0); auto; try lia.
    + destruct (Z.ltb_spec 0 (Z.of_nat (length (x_outtasks x)))); [reflexivity|lia].
    + intros Z0. now destruct (xw_out _ _ Wf 0 Z0).
  - destruct (Z.eqb_spec (Z.of_nat (length (x_outtasks x))) 0); [lia|reflexivity].
Qed.

(** Equal strings go to the same task, one of the executor's. *)
Lemma fields_grouping_spec n t f v s : x_outtasks x <> [] -> n = 0 \/ n = Z.of_nat (length (x_outtasks x)) ->
  t_v t = f :: v -> bytes (f_str f) -> c_string (f_str f) = Ok s ->
  fields_grouping n t x = Ok (Z.of_nat (length (x_outtasks x)), outtask x (jenkins_ref s mod Z.of_nat (length (x_outtasks x)))).
Proof.
  intros Ne Hn Ev B E. unfold fields_grouping. rewrite (remember_tasks_ok n Ne Hn). cbn [obind]. rewrite Ev, (hash_str_ref _ s B E). reflexivity.
Qed.

(** Whatever grouping: a task of the table, or 0. *)
Lemma grouper_hosted r n t n' d : grouper r n t x = Ok (n', d) -> d = 0 \/ d <> 0 /\ d ∈ tasks.
Proof.
  unfold grouper, fields_grouping, shuffle_grouping, global_grouping. destruct (x_grouper x); intros E.
  - bind_inv E. destruct (t_v t); [discriminate|]. bind_inv E. injection E as _ <-. apply outtask_hosted.
  - injection E as _ <-. apply outtask_hosted.
  - bind_inv E. injection E as _ <-. apply outtask_hosted.
Qed.
End Grouping.

(** ** Where a task runs *)

Record topology (ws : list worker) : Prop := {
  tp_wf : forall x, x ∈ all_executors ws -> executor_wf (all_tasks ws) x;
  tp_nodup : NoDup (all_tasks ws);
}.
Lemma topology_ok_wf ws : topology_ok ws = true -> topology ws.
Proof.
  unfold topology_ok. rewrite !andb_true_iff, !forallb_forall, bool_decide_eq_true. intros ((_ & X) & N).
  constructor; [|exact N]. intros x Hx. apply executor_ok_wf, X. now apply list_elem_of_In.
Qed.

Definition hosted_at (ws : list worker) (i : nat) (d : Z) : Prop := exists w, ws !! i = Some w /\ hosts w d = true.

Lemma hosts_iff w d : hosts w d = true <-> exists x, x ∈ w_executors w /\ x_taskid x = d.
Proof.
  unfold hosts. rewrite existsb_exists. split; intros (x & Hx & E); exists x.
  - apply Z.eqb_eq in E. rewrite list_elem_of_In. auto.
  - rewrite <- list_elem_of_In. split; [exact Hx|]. now apply Z.eqb_eq.
Qed.
Lemma all_executors_iff ws x : x ∈ all_executors ws <-> exists i w, ws !! i = Some w /\ x ∈ w_executors w.
Proof.
  unfold all_executors. rewrite list_elem_of_In, in_concat. setoid_rewrite <- list_elem_of_In. split.
  - intros (l & Hl & Hx). apply list_elem_of_fmap in Hl as (w & -> & Hw). apply list_elem_of_lookup in Hw as [i Hi]. eauto.
  - intros (i & w & E & Hx). exists (w_executors w). split; [|exact Hx]. apply list_elem_of_fmap. exists w. split; [reflexivity|].
    eapply list_elem_of_lookup_2; eauto.
Qed.
Lemma task_hosted ws d : d ∈ all_tasks ws -> exists i, hosted_at ws i d.
Proof.
  unfold all_tasks. intros Hd. apply list_elem_of_fmap in Hd as (x & -> & Hx). apply all_executors_iff in Hx as (i & w & E & Hx).
  exists i, w. split; [exact E|]. apply hosts_iff. eauto.
Qed.
Lemma hosted_task ws i d : hosted_at ws i d -> d ∈ all_tasks ws.
Proof.
  intros (w & E & H). apply hosts_iff in H as (x & Hx & <-). apply list_elem_of_fmap_2, all_executors_iff. eauto.
Qed.

Lemma all_tasks_split l1 w l2 : all_tasks (l1 ++ w :: l2) = all_tasks l1 ++ map x_taskid (w_executors w) ++ all_tasks l2.
Proof. unfold all_tasks, all_executors. now rewrite map_app, concat_app, map_app, map_cons, concat_cons, map_app. Qed.

Section Topology.
Context (ws : list worker) (T : topology ws).

Lemma hosted_once i j d : hosted_at ws i d -> hosted_at ws j d -> i = j.
Proof.
  enough (G : forall i j, hosted_at ws i d -> hosted_at ws j d -> ~ (i < j)%nat).
  { intros Hi Hj. pose proof (G i j Hi Hj). pose proof (G j i Hj Hi). lia. }
  clear i j. intros i j (w & Ei & Hi) (w' & Ej & Hj) L.
  pose proof (tp_nodup _ T) as N. rewrite <- (take_drop_middle ws j w' Ej), all_tasks_split in N.
  apply NoDup_app in N as (_ & N & _). apply (N d).
  - apply (hosted_task (take j ws) i). exists w. split; [|exact Hi]. rewrite lookup_take_lt by lia. exact Ei.
  - apply elem_of_app. left. apply hosts_iff in Hj as (x & Hx & <-). now apply list_elem_of_fmap_2.
Qed.

Lemma executors_nodup i w : ws !! i = Some w -> NoDup (map x_taskid (w_executors w)).
Proof.
  intros E. pose proof (tp_nodup _ T) as N. rewrite <- (take_drop_middle ws i w E), all_tasks_split in N.
  apply NoDup_app in N as (_ & _ & N). now apply NoDup_app in N as (N & _).
Qed.

Lemma task2executor_spec i w x : ws !! i = Some w -> x ∈ w_executors w -> task2executor w (x_taskid x) = Some x.
Proof.
  intros E Hx. unfold task2executor.
  assert (Wf : executor_wf (all_tasks ws) x) by (apply (tp_wf _ T), all_executors_iff; eauto).
  destruct (xw_id _ _ Wf). destruct (Z.leb_spec 0 (x_taskid x)), (Z.ltb_spec (x_taskid x) MAX_TASKS); try lia. cbn [andb].
  pose proof (executors_nodup i w E) as N. revert N Hx. induction (w_executors w) as [|y l IH]; intros N Hx; [now apply elem_of_nil in Hx|].
  cbn [List.find]. cbn [map] in N. apply NoDup_cons in N as [Ny N]. destruct (Z.eqb_spec (x_taskid y) (x_taskid x)) as [Ey|Ny'].
  - apply elem_of_cons in Hx as [->|Hx]; [reflexivity|]. destruct Ny. rewrite Ey. now apply list_elem_of_fmap_2.
  - apply elem_of_cons in Hx as [->|Hx]; [congruence|]. auto.
Qed.

Lemma task2executor_hosted i w d : ws !! i = Some w -> hosts w d = true -> exists x, task2executor w d = Some x /\ x_taskid x = d.
Proof. intros E H. apply hosts_iff in H as (x & Hx & <-). exists x. split; [|reflexivity]. now apply (task2executor_spec i). Qed.

Lemma task2sock_from_none l d : (forall w, w ∈ l -> hosts w d = false) -> forall i r, task2sock_from l i d r = r.
Proof.
  induction l as [|w l IH]; intros H i r; [reflexivity|]. cbn [task2sock_from]. rewrite (H w) by left. apply IH. intros. apply H. now right.
Qed.
Lemma task2sock_from_app l1 l2 d : forall i r, task2sock_from (l1 ++ l2) i d r = task2sock_from l2 (i + length l1) d (task2sock_from l1 i d r).
Proof.
  induction l1 as [|w l1 IH]; intros i r; cbn [app task2sock_from length]; [f_equal; lia|]. rewrite IH. f_equal. lia.
Qed.
Lemma task2sock_hosted i w d : ws !! i = Some w -> hosts w d = true -> w_sock w <> 0 -> task2sock ws d = Ok (w_sock w, Some i).
Proof.
  intros E H Hs.
  assert (Other : forall j w', ws !! j = Some w' -> j <> i -> hosts w' d = false).
  { intros j w' Ej Nj. apply not_true_is_false. intros Hj. destruct Nj. apply (hosted_once j i d); [exists w'|exists w]; auto. }
  assert (R : task2sock_from ws 0 d (0, None) = (w_sock w, Some i)).
  { rewrite <- (take_drop_middle ws i w E), task2sock_from_app. cbn [task2sock_from]. rewrite H.
    pose proof (lookup_lt_Some _ _ _ E). rewrite length_take. replace (0 + i `min` length ws)%nat with i by lia.
    apply task2sock_from_none. intros w' Hw. apply list_elem_of_lookup in Hw as [k Hk]. rewrite lookup_drop in Hk.
    apply (Other (S i + k)%nat); [exact Hk|lia]. }
  unfold task2sock. rewrite R. cbn. destruct (Z.eqb_spec (w_sock w) 0); [contradiction|reflexivity].
Qed.
End Topology.

(** ** A tuple and its bytes *)

Definition is_s32 (x : Z) : Prop := -2147483648 <= x < 2147483648.
Definition field_ok (f : field) : Prop := str_ok (f_str f) /\ is_s32 (f_integer f).
Record tuple_ok (t : tuple) : Prop := {
  tk_task : is_s32 (t_task t); tk_from : is_s32 (t_fromtask t); tk_start : 0 <= t_starttime t < 2 ^ 64;
  tk_len : Z.of_nat (length (t_v t)) = MAX_VECTOR; tk_fields : Forall field_ok (t_v t) }.

Lemma s32_u32 x : is_s32 x -> s32 (u32 x) = x.
Proof. unfold is_s32, s32, u32. intros. bsplit; Z.div_mod_to_equations; lia. Qed.

Lemma length_field_bytes f : field_ok f -> Z.of_nat (length (field_bytes f)) = SZ_FIELD.
Proof. intros ((L & _) & _). unfold field_bytes. rewrite length_app, length_le_bytes. unfold MAX_STR, SZ_FIELD in *. lia. Qed.
Lemma bytes_field_bytes f : field_ok f -> bytes_field (field_bytes f) = f.
Proof.
  intros ((L & _) & I). unfold bytes_field, field_bytes. destruct f as [str n]. cbn [f_str f_integer] in *. f_equal.
  - rewrite <- (app_nil_l str) at 1. rewrite <- app_assoc. now apply slice_mid.
  - replace (str ++ le_bytes 4 (u32 n)) with (str ++ le_bytes 4 (u32 n) ++ []) by now rewrite app_nil_r.
    rewrite (le_field str); [now apply s32_u32|now rewrite L|reflexivity|apply u32_range].
Qed.

Lemma length_fields v : Forall field_ok v -> Z.of_nat (length (concat (map field_bytes v))) = SZ_FIELD * Z.of_nat (length v).
Proof.
  induction 1 as [|f v F _ IH]; [reflexivity|]. cbn [map concat length]. rewrite length_app, Nat2Z.inj_add, IH, (length_field_bytes f F). lia.
Qed.
Lemma fields_roundtrip v pre post : Forall field_ok v -> forall k, 
  map (fun i => bytes_field (slice (pre ++ concat (map field_bytes v) ++ post) (Z.of_nat (length pre) + SZ_FIELD * (Z.of_nat i - Z.of_nat k)) SZ_FIELD))
    (seq k (length v)) = v.
Proof.
  intros F. revert pre. induction F as [|f v Hf F IH]; intros pre k; [reflexivity|]. cbn [length seq map concat]. f_equal.
  - rewrite Z.sub_diag, Z.mul_0_r, Z.add_0_r, <- app_assoc. rewrite slice_mid; auto using bytes_field_bytes. symmetry. now apply length_field_bytes.
  - rewrite <- (IH (pre ++ field_bytes f) (S k)) at 2. apply map_ext_in. intros i _. f_equal. rewrite <- !app_assoc. f_equal.
    rewrite length_app, Nat2Z.inj_add, (length_field_bytes f Hf). unfold SZ_FIELD. lia.
Qed.

Lemma length_tuple_bytes t : tuple_ok t -> Z.of_nat (length (tuple_bytes t)) = SZ_TUPLE.
Proof.
  intros K. unfold tuple_bytes. rewrite !length_app, !length_le_bytes, repeat_length, !Nat2Z.inj_add, (length_fields _ (tk_fields _ K)), (tk_len _ K).
  reflexivity.
Qed.
Lemma tuple_roundtrip t : tuple_ok t -> bytes_tuple (tuple_bytes t) = t.
Proof.
  intros K. destruct (tk_task _ K), (tk_from _ K), (tk_start _ K). destruct t as [task from start v]. cbn [t_task t_fromtask t_starttime] in *.
  unfold bytes_tuple, tuple_bytes. cbn [t_task t_fromtask t_starttime t_v]. f_equal.
  - rewrite le_first; [now apply s32_u32|reflexivity|apply u32_range].
  - rewrite (le_field (le_bytes 4 (u32 task))); [now apply s32_u32|now rewrite length_le_bytes|reflexivity|apply u32_range].
  - rewrite (app_assoc (le_bytes 4 _)). apply le_field; [now rewrite length_app, !length_le_bytes|reflexivity|cbn; lia].
  - pose proof (tk_len _ K) as L. cbn in L. replace (Z.to_nat MAX_VECTOR) with (length v) by lia.
    rewrite <- (fields_roundtrip v (le_bytes 4 (u32 task) ++ le_bytes 4 (u32 from) ++ le_bytes 8 start) (repeat 0 4) (tk_fields _ K) 0) at 2.
    apply map_ext_in. intros i _. f_equal. rewrite <- !app_assoc. f_equal. rewrite !length_app, !length_le_bytes. cbn. lia.
Qed.
