(* ===== verification/StormBolts.v ===== *)
(** The bolts of the stream processor: mystorm/spout.c (TWITTER_FEED),
    mystorm/rank.c and [tuple_send] of mystorm/worker.c.

    The clock and [qsort] are arguments.  Of the tuples in a ranking only the
    first field is used, so a ranking is a list of fields. *)
From stdpp Require Import base numbers list gmap sorting.
From Stdlib Require Import ZArith Lia.
From S2P Require Import Prelude Dma FkHash StormQueue StormTuple.

(** ** Sending *)

(** The tuple that goes to the output queue, if any. *)
Definition tuple_send (random now numtasks : Z) (t : tuple) (x : executor) : outcome (Z * option tuple) :=
  let t := t <| t_fromtask := x_taskid x |> in
  let! (n, d) := grouper random numtasks t x in
  Ok (n, if d =? 0 then None else Some (t <| t_task := d |> <| t_starttime := now |>)).

(** ** Spouts *)

(** [words]: arrays of MAX_STR bytes; [i]: the static index. *)
Record spout_state := mk_spout { sp_words : list (list Z); sp_i : Z }.
Definition spout_execute (st : spout_state) : outcome (spout_state * tuple) :=
  match sp_words st !! Z.to_nat (sp_i st) with
  | None => Crash
  | Some w =>
      let! str := strcpy (f_str field_zero) w in
      let t := tuple_zero <| t_v := mk_field str 0 :: repeat field_zero 4 |> in
      Ok (mk_spout (sp_words st) ((sp_i st + 1) mod Z.of_nat (length (sp_words st))), t)
  end.

(** ** Rankings *)

Definition TOP_N : nat := 5.
Definition EMIT_FREQUENCY : Z := 1.

(** [rank(a, b)] *)
Definition rank (a b : field) : Z := s32 (f_integer b - f_integer a).

(** [qsort] with [rank]: when the comparisons are those of an order, a
    permutation in that order. *)
Definition counted (f : field) : Prop := 0 <= f_integer f < 2147483648.
Class Qsort := {
  qsort : list field -> list field;
  qsort_spec : forall l, Forall counted l -> qsort l ≡ₚ l /\ StronglySorted (fun a b => rank a b <= 0) (qsort l)
}.

(** [strcmp(a, b) == 0] *)
Definition str_eq (a b : list Z) : outcome bool :=
  let! a := c_string a in let! b := c_string b in Ok (bool_decide (a = b)).

(** The first ranking with the string, from index [i] on. *)
Fixpoint rank_find (l : list field) (str : list Z) (i : nat) : outcome (option nat) :=
  match l with
  | [] => Ok None
  | f :: l => let! e := str_eq (f_str f) str in if e then Ok (Some i) else rank_find l str (S i)
  end.

Record rank_state := mk_rank { rk_lasttime : Z; rk_rankings : list field }.
Definition rank_init : rank_state := mk_rank 0 (repeat field_zero (S TOP_N)).

Section Rank.
Context `{Qsort}.

(** The body of the loop over the fields. *)
Definition rank_update (rk : list field) (f : field) : outcome (list field) :=
  let! i := rank_find rk (f_str f) 0 in
  match i with
  | Some i =>
      match rk !! i with
      | Some r => Ok (qsort (<[i := mk_field (f_str r) (f_integer f)]> rk))
      | None => Crash
      end
  | None =>
      match rk !! TOP_N with
      | Some r => let! str := strcpy (f_str r) (f_str f) in Ok (qsort (<[TOP_N := mk_field str (f_integer f)]> rk))
      | None => Crash
      end
  end.
Fixpoint rank_fields (rk : list field) (v : list field) : outcome (list field) :=
  match v with
  | [] => Ok rk
  | f :: v => if f_integer f =? 0 then Ok rk else let! rk := rank_update rk f in rank_fields rk v
  end.

(** [for (int i = 0; i < TOP_N; i++) { strcpy(out.v[i].str, ..); .. }]; [out]
    is not initialised. *)
Fixpoint rank_copy (out rk : list field) : outcome (list field) :=
  match out, rk with
  | o :: out, r :: rk =>
      let! str := strcpy (f_str o) (f_str r) in let! out := rank_copy out rk in Ok (mk_field str (f_integer r) :: out)
  | _, _ => Ok out
  end.

(** The tuple that is sent, if any; [now] in seconds. *)
Definition rank_execute (now : Z) (out : tuple) (st : rank_state) (t : tuple) : outcome (rank_state * option tuple) :=
  let! rk := rank_fields (rk_rankings st) (t_v t) in
  if rk_lasttime st + EMIT_FREQUENCY <=? now then
    let! v := rank_copy (t_v out) (take TOP_N rk) in
    Ok (mk_rank now rk, Some (out <| t_v := v |>))
  else Ok (mk_rank (rk_lasttime st) rk, None).
End Rank.

(** ** What a ranking holds *)

Definition key (f : field) : list Z := match c_string (f_str f) with Ok s => s | _ => [] end.
Record entry_ok (f : field) : Prop := {
  en_str : str_ok (f_str f); en_key : c_string (f_str f) = Ok (key f); en_count : counted f }.
(** How many entries have a count of [c] or more. *)
Definition at_least (c : Z) (rk : list field) : nat := length (filter (fun f => c <= f_integer f) rk).
Definition descending (rk : list field) : Prop := StronglySorted (fun a b => f_integer b <= f_integer a) rk.

(** [m]: the last count of each string. *)
Record ranked (m : gmap (list Z) Z) (rk : list field) : Prop := {
  rn_len : length rk = S TOP_N;
  rn_ok : Forall entry_ok rk;
  rn_last : forall f, f ∈ rk -> key f <> [] -> m !! key f = Some (f_integer f);
  rn_empty : m !! [] = None;
  rn_blank : forall f, f ∈ rk -> key f = [] -> f_integer f = 0;
  rn_once : NoDup (filter (fun k => k <> []) (map key rk));
  rn_top : forall s c, m !! s = Some c -> s ∈ map key rk \/ (TOP_N <= at_least c rk)%nat }.

Lemma ranked_perm m rk rk' : rk' ≡ₚ rk -> ranked m rk -> ranked m rk'.
Proof.
  intros P R. destruct R. constructor.
  - rewrite P. assumption.
  - rewrite P. assumption.
  - intros f Hf. apply rn_last0. now rewrite <- P.
  - assumption.
  - intros f Hf. apply rn_blank0. now rewrite <- P.
  - eapply NoDup_Permutation_proper; [|exact rn_once0]. apply filter_Permutation, Permutation_map, P.
  - intros s c E. unfold at_least. rewrite (Permutation_length (filter_Permutation (fun f => c <= f_integer f) _ _ P)).
    destruct (rn_top0 s c E) as [H|H]; [left|right; exact H]. eapply elem_of_Permutation_proper; [|exact H]. now apply Permutation_map.
Qed.

Lemma rank_descending rk : Forall counted rk -> StronglySorted (fun a b => rank a b <= 0) rk -> descending rk.
Proof.
  intros F S. induction S as [|f rk S IH Hf]; [constructor|]. apply Forall_cons in F as [Cf F]. constructor; [exact (IH F)|].
  apply Forall_forall. intros g Hg. rewrite Forall_forall in Hf, F. specialize (Hf g Hg). specialize (F g Hg). unfold rank, counted in *.
  rewrite s32_small in Hf by lia. lia.
Qed.

Section Sorted.
Context `{Qsort}.

Lemma qsort_ranked m rk : ranked m rk -> ranked m (qsort rk) /\ descending (qsort rk).
Proof.
  intros R. assert (C : Forall counted rk) by (eapply Forall_impl; [exact (rn_ok _ _ R)|]; intros f K; exact (en_count f K)).
  destruct (qsort_spec rk C) as [P S]. split; [now apply (ranked_perm m rk)|].
  apply rank_descending; [|exact S]. now rewrite P.
Qed.

Lemma none_at_least c rk : Forall (fun f => f_integer f < c) rk -> at_least c rk = O.
Proof. unfold at_least. induction 1 as [|f rk L _ IH]; [reflexivity|]. now rewrite filter_cons, decide_False by lia. Qed.
Lemma all_at_least c rk : Forall (fun f => c <= f_integer f) rk -> at_least c rk = length rk.
Proof. unfold at_least. induction 1 as [|f rk L _ IH]; [reflexivity|]. rewrite filter_cons, decide_True by lia. cbn. now rewrite IH. Qed.
Lemma at_least_app c a b : at_least c (a ++ b) = (at_least c a + at_least c b)%nat.
Proof. unfold at_least. now rewrite filter_app, length_app. Qed.
Lemma at_least_cons c f rk : at_least c (f :: rk) = ((if decide (c <= f_integer f)%Z then 1 else 0) + at_least c rk)%nat.
Proof. unfold at_least. rewrite filter_cons. now destruct (decide _). Qed.

Lemma at_least_bound c rk : descending rk -> forall i f, rk !! i = Some f -> f_integer f < c -> (at_least c rk <= i)%nat.
Proof.
  induction 1 as [|g rk S IH Hg]; intros i f E L; [discriminate|]. rewrite at_least_cons. destruct i as [|i].
  - injection E as ->. rewrite decide_False by lia. rewrite none_at_least; [lia|]. eapply Forall_impl; [exact Hg|]. cbn. lia.
  - specialize (IH i f E L). destruct (decide _); lia.
Qed.
(** So the first [TOP_N] have it. *)
Lemma top_at_least c rk i f : descending rk -> (TOP_N <= at_least c rk)%nat -> rk !! i = Some f -> (i < TOP_N)%nat -> c <= f_integer f.
Proof. intros D L E Hi. destruct (Z.le_gt_cases c (f_integer f)) as [|G]; [assumption|]. pose proof (at_least_bound c rk D i f E G). lia. Qed.

Lemma rank_find_spec rk str s k : c_string str = Ok s -> Forall entry_ok rk ->
  rank_find rk str k = Ok None /\ s ∉ map key rk \/
  exists l1 r l2, rk = l1 ++ r :: l2 /\ rank_find rk str k = Ok (Some (k + length l1)%nat) /\ key r = s.
Proof.
  intros E F. revert k. induction F as [|f rk Hf F IH]; intros k.
  - left. split; [reflexivity|apply not_elem_of_nil].
  - cbn [rank_find map]. unfold str_eq. rewrite (en_key _ Hf), E. cbn [obind]. case_bool_decide as B.
    + right. exists [], f, rk. cbn. rewrite Nat.add_0_r. auto.
    + destruct (IH (S k)) as [[R N]|(l1 & r & l2 & -> & R & K)].
      * left. rewrite R. split; [reflexivity|]. rewrite not_elem_of_cons. auto.
      * right. exists (f :: l1), r, l2. rewrite R. cbn. split; [reflexivity|]. split; [do 2 f_equal; lia|exact K].
Qed.

Lemma entry_key f s : c_string (f_str f) = Ok s -> key f = s.
Proof. unfold key. now intros ->. Qed.

(** A string that has an entry gets a greater count. *)
Lemma ranked_increase m l1 r l2 n : ranked m (l1 ++ r :: l2) -> key r <> [] -> f_integer r <= n -> n < 2147483648 ->
  ranked (<[key r := n]> m) (l1 ++ mk_field (f_str r) n :: l2).
Proof.
  intros R Ne Hn Hb. set (r' := mk_field (f_str r) n). assert (K : key r' = key r) by reflexivity.
  pose proof (rn_ok _ _ R) as F. apply Forall_app in F as [F1 F]. apply Forall_cons in F as [Fr F2].
  pose proof (rn_once _ _ R) as O. rewrite map_app, map_cons in O.
  assert (Ek : map key (l1 ++ r' :: l2) = map key l1 ++ key r :: map key l2) by now rewrite map_app, map_cons.
  constructor.
  - pose proof (rn_len _ _ R) as L. rewrite length_app in *. exact L.
  - apply Forall_app. split; [exact F1|]. apply Forall_cons. split; [|exact F2]. destruct Fr. constructor; [exact en_str0|exact en_key0|].
    unfold counted in *. cbn. lia.
  - intros f Hf Nf. apply elem_of_app in Hf. rewrite elem_of_cons in Hf.
    destruct (decide (f = r')) as [->|Nr]; [rewrite K; apply lookup_insert_eq|].
    assert (Hf' : f ∈ l1 \/ f ∈ l2) by tauto.
    rewrite lookup_insert_ne.
    + apply (rn_last _ _ R); [|exact Nf]. rewrite elem_of_app, elem_of_cons. tauto.
    + intros E. rewrite filter_app, filter_cons, decide_True in O by exact Ne. apply NoDup_app in O as (_ & D & O).
      apply NoDup_cons in O as [D' _]. destruct Hf' as [Hf'|Hf'].
      * apply (D (key f)); [apply list_elem_of_filter; split; [exact Nf|now apply list_elem_of_fmap_2]|]. rewrite <- E. apply elem_of_cons. now left.
      * apply D'. rewrite E. apply list_elem_of_filter. split; [exact Nf|now apply list_elem_of_fmap_2].
  - rewrite lookup_insert_ne by congruence. apply (rn_empty _ _ R).
  - intros f Hf Kf. apply (rn_blank _ _ R f); [|exact Kf]. rewrite elem_of_app, elem_of_cons in *.
    destruct Hf as [Hf|[->|Hf]]; [auto|congruence|auto].
  - rewrite Ek. exact O.
  - intros s c E. rewrite Ek. destruct (decide (s = key r)) as [->|Ns].
    + left. rewrite elem_of_app, elem_of_cons. auto.
    + rewrite lookup_insert_ne in E by congruence. destruct (rn_top _ _ R s c E) as [I|I].
      * left. rewrite map_app, map_cons in I. exact I.
      * right. rewrite at_least_app, at_least_cons in *. cbn [f_integer r']. repeat case_decide; lia.
Qed.

(** A string that has none gets the last entry. *)
Lemma ranked_new m l r f : ranked m (l ++ [r]) -> descending (l ++ [r]) -> entry_ok f -> key f <> [] -> key f ∉ map key (l ++ [r]) ->
  ranked (<[key f := f_integer f]> m) (l ++ [f]).
Proof.
  intros R D Ef Ne Nk. pose proof (rn_len _ _ R) as L. rewrite length_app in L. cbn in L.
  pose proof (rn_ok _ _ R) as F. apply Forall_app in F as [F1 F]. apply Forall_cons in F as [Fr _].
  rewrite map_app, elem_of_app in Nk. pose proof (rn_once _ _ R) as O. rewrite map_app, filter_app in O. apply NoDup_app in O as (O & _ & _).
  assert (Top : forall c, (TOP_N <= at_least c (l ++ [r]))%nat -> (TOP_N <= at_least c (l ++ [f]))%nat).
  { intros c H1. rewrite at_least_app. rewrite (all_at_least c l); [unfold TOP_N in *; lia|]. apply Forall_lookup. intros i g E.
    pose proof (lookup_lt_Some _ _ _ E). apply (top_at_least c (l ++ [r]) i); auto; [rewrite lookup_app_l by lia; exact E|unfold TOP_N in *; lia]. }
  constructor.
  - rewrite length_app. cbn. unfold TOP_N in *. lia.
  - apply Forall_app. auto.
  - intros g Hg Ng. apply elem_of_app in Hg as [Hg|Hg].
    + rewrite lookup_insert_ne; [apply (rn_last _ _ R); [apply elem_of_app; auto|exact Ng]|].
      intros E. apply Nk. left. rewrite E. now apply list_elem_of_fmap_2.
    + apply list_elem_of_singleton in Hg as ->. apply lookup_insert_eq.
  - rewrite lookup_insert_ne by congruence. apply (rn_empty _ _ R).
  - intros g Hg Kg. apply elem_of_app in Hg as [Hg|Hg]; [apply (rn_blank _ _ R g); [apply elem_of_app; auto|exact Kg]|].
    apply list_elem_of_singleton in Hg as ->. congruence.
  - rewrite map_app, filter_app. apply NoDup_app. split; [exact O|]. cbn [map]. rewrite filter_cons, decide_True by exact Ne. split.
    + intros k Hk Hf. apply list_elem_of_singleton in Hf as ->. apply list_elem_of_filter in Hk as [_ Hk]. auto.
    + apply NoDup_singleton.
  - intros s c E. rewrite map_app, elem_of_app. destruct (decide (s = key f)) as [->|Ns]; [left; right; apply list_elem_of_singleton; reflexivity|].
    rewrite lookup_insert_ne in E by congruence. destruct (rn_top _ _ R s c E) as [I|I]; [|right; auto].
    rewrite map_app, elem_of_app in I. destruct I as [I|I]; [auto|]. right. apply Top. apply list_elem_of_singleton in I as ->.
    assert (Nr : key r <> []) by (intros E0; pose proof (rn_empty _ _ R); congruence).
    assert (I : r ∈ l ++ [r]) by (apply elem_of_app; right; apply list_elem_of_singleton; reflexivity).
    pose proof (rn_last _ _ R r I Nr) as E'. rewrite E in E'. injection E' as ->.
    rewrite all_at_least; [rewrite length_app; cbn; lia|]. apply Forall_app. split; [|apply Forall_singleton; reflexivity].
    apply Forall_forall. intros g Hg. clear -D Hg. induction l as [|h l IH]; [now apply elem_of_nil in Hg|].
    cbn in D. apply StronglySorted_inv in D as [D Dh]. apply elem_of_cons in Hg as [->|Hg]; [|auto].
    rewrite Forall_forall in Dh. apply Dh. apply elem_of_app. right. now apply list_elem_of_singleton.
Qed.

Lemma strcpy_str dst src s : str_ok dst -> bytes src -> c_string src = Ok s -> (length s < length dst)%nat ->
  exists d, strcpy dst src = Ok d /\ str_ok d /\ c_string d = Ok s.
Proof.
  intros [L B] Bs E Ls. destruct (strcpy_spec dst src s E Ls) as (d & Ed & Ld & Kd). exists d. split; [exact Ed|]. split; [|exact Kd].
  split; [congruence|]. unfold strcpy in Ed. rewrite E in Ed. cbn [obind] in Ed. destruct (Nat.ltb _ _); [|discriminate]. injection Ed as <-.
  destruct (c_string_inv _ _ E) as (r & -> & _). apply Forall_app in Bs as [Bs _]. apply Forall_app. split; [exact Bs|].
  apply Forall_cons. split; [lia|]. apply Forall_drop, B.
Qed.
Lemma key_short f : entry_ok f -> (length (key f) < Z.to_nat MAX_STR)%nat.
Proof.
  intros K. destruct (c_string_inv _ _ (en_key _ K)) as (r & E & _). destruct (en_str _ K) as [L _]. rewrite E, length_app in L. cbn in L. lia.
Qed.
(** Copying the string of one entry over that of another. *)
Lemma strcpy_entry r f : str_ok (f_str r) -> entry_ok f ->
  exists d, strcpy (f_str r) (f_str f) = Ok d /\ entry_ok (mk_field d (f_integer f)) /\ key (mk_field d (f_integer f)) = key f.
Proof.
  intros Hr K. destruct (strcpy_str (f_str r) (f_str f) (key f) Hr (proj2 (en_str _ K)) (en_key _ K)) as (d & E & O & Kd).
  { pose proof (key_short f K). destruct Hr as [L _]. lia. }
  exists d. split; [exact E|]. assert (Kf : key (mk_field d (f_integer f)) = key f) by (now apply entry_key). split; [|exact Kf].
  constructor; [exact O|now rewrite Kf|exact (en_count _ K)].
Qed.

Lemma rank_update_spec m rk f : ranked m rk -> descending rk -> entry_ok f -> key f <> [] ->
  (forall c, m !! key f = Some c -> c <= f_integer f) ->
  exists rk', rank_update rk f = Ok rk' /\ ranked (<[key f := f_integer f]> m) rk' /\ descending rk'.
Proof.
  intros R D Ef Ne Up. unfold rank_update.
  destruct (rank_find_spec rk (f_str f) (key f) 0 (en_key _ Ef) (rn_ok _ _ R)) as [[E N]|(l1 & r & l2 & -> & E & K)]; rewrite E; cbn [obind].
  - destruct (lookup_lt_is_Some_2 rk TOP_N) as [r Er]; [rewrite (rn_len _ _ R); lia|]. rewrite Er.
    assert (Es : rk = take TOP_N rk ++ [r]).
    { rewrite <- (take_drop_middle rk TOP_N r Er) at 1. rewrite drop_ge; [reflexivity|]. rewrite (rn_len _ _ R). lia. }
    assert (Hr : str_ok (f_str r)).
    { pose proof (rn_ok _ _ R) as F. rewrite Es in F. apply Forall_app in F as [_ F]. apply Forall_cons in F as [F _]. apply F. }
    destruct (strcpy_entry r f Hr Ef) as (d & Ed & Od & Kd). rewrite Ed. cbn [obind]. eexists. split; [reflexivity|].
    apply qsort_ranked. pose proof (rn_len _ _ R) as Len. assert (Lt : length (take TOP_N rk) = TOP_N) by (rewrite length_take; lia).
    rewrite Es in R, D, N. rewrite Es. rewrite insert_app_r_alt by lia. rewrite Lt, Nat.sub_diag. cbn [list_insert insert].
    rewrite <- Kd. apply (ranked_new m _ r (mk_field d (f_integer f))); auto; rewrite ?Kd; auto.
  - rewrite lookup_app_r, Nat.sub_diag by lia. cbn [lookup list_lookup]. eexists. split; [reflexivity|]. apply qsort_ranked.
    rewrite insert_app_r_alt, Nat.sub_diag by lia. cbn. rewrite <- K. apply (ranked_increase m l1 r l2); auto; [congruence| |apply (en_count _ Ef)].
    apply Up. rewrite <- K. apply (rn_last _ _ R); [rewrite elem_of_app, elem_of_cons; auto|congruence].
Qed.

(** ** Streams of counts *)

(** The fields that are looked at. *)
Fixpoint counted_fields (v : list field) : list field :=
  match v with [] => [] | f :: v => if f_integer f =? 0 then [] else f :: counted_fields v end.
Definition last_counts (m : gmap (list Z) Z) (fs : list field) : gmap (list Z) Z :=
  foldl (fun m f => <[key f := f_integer f]> m) m fs.
(** Named counts, none of which is less than the one before with its name. *)
Fixpoint growing (m : gmap (list Z) Z) (fs : list field) : Prop :=
  match fs with
  | [] => True
  | f :: fs => entry_ok f /\ key f <> [] /\ (forall c, m !! key f = Some c -> c <= f_integer f) /\ growing (<[key f := f_integer f]> m) fs
  end.

Lemma growing_app m fs gs : growing m (fs ++ gs) <-> growing m fs /\ growing (last_counts m fs) gs.
Proof. revert m. induction fs as [|f fs IH]; intros m; cbn; [tauto|]. rewrite IH. unfold last_counts. tauto. Qed.

Lemma rank_fields_spec v : forall m rk, ranked m rk -> descending rk -> growing m (counted_fields v) ->
  exists rk', rank_fields rk v = Ok rk' /\ ranked (last_counts m (counted_fields v)) rk' /\ descending rk'.
Proof.
  induction v as [|f v IH]; intros m rk R D G; cbn [rank_fields counted_fields] in *; [eauto|].
  destruct (f_integer f =? 0); [eauto|]. destruct G as (Ef & Ne & Up & G).
  destruct (rank_update_spec m rk f R D Ef Ne Up) as (rk' & E & R' & D'). rewrite E. cbn [obind]. exact (IH _ _ R' D' G).
Qed.

Definition entry (f : field) : list Z * Z := (key f, f_integer f).

Lemma rank_copy_spec rk : Forall entry_ok rk -> forall out, Forall (fun f => str_ok (f_str f)) out -> length out = length rk ->
  exists v, rank_copy out rk = Ok v /\ map entry v = map entry rk /\ Forall field_ok v.
Proof.
  induction 1 as [|r rk Hr F IH]; intros [|o out] Fo L; try discriminate; cbn [rank_copy]; [eauto|].
  apply Forall_cons in Fo as [Ho Fo]. destruct (strcpy_entry o r Ho Hr) as (d & E & O & K). rewrite E. cbn [obind].
  destruct (IH out Fo ltac:(cbn in L; lia)) as (v & Ev & Mv & Fv). rewrite Ev. cbn [obind]. eexists. split; [reflexivity|]. split.
  - cbn [map]. f_equal; [|exact Mv]. unfold entry. now rewrite K.
  - apply Forall_cons. split; [|exact Fv]. split; [exact (en_str _ O)|]. pose proof (en_count _ O) as C. unfold counted, is_s32 in *. lia.
Qed.

(** Calls one after the other: the instants, what is on the stack and the
    tuples.  The tuples that are sent are collected. *)
Fixpoint rank_run (st : rank_state) (calls : list (Z * tuple * tuple)) : outcome (rank_state * list tuple) :=
  match calls with
  | [] => Ok (st, [])
  | (now, out, t) :: calls =>
      let! (st, o) := rank_execute now out st t in
      let! (st, os) := rank_run st calls in Ok (st, match o with Some o => o :: os | None => os end)
  end.

Definition stack_ok (out : tuple) : Prop := length (t_v out) = TOP_N /\ Forall (fun f => str_ok (f_str f)) (t_v out).
Definition calls_fields (calls : list (Z * tuple * tuple)) : list field := concat (map (fun c => counted_fields (t_v c.2)) calls).

(** The best of the counts [m]: [TOP_N] entries in descending order, no string twice, each
    with the last count of its string, and no other string has more than any of them.
    Entries that are not in use have the empty string and no count. *)
Record best (m : gmap (list Z) Z) (l : list (list Z * Z)) : Prop := mk_best {
  be_length : length l = TOP_N;
  be_order : StronglySorted (fun a b => b.2 <= a.2) l;
  be_once : NoDup (filter (fun k => k <> []) (map fst l));
  be_last : forall s c, (s, c) ∈ l -> if decide (s = []) then c = 0 else m !! s = Some c;
  be_others : forall s c, m !! s = Some c -> (s, c) ∈ l \/ forall s' c', (s', c') ∈ l -> c <= c' }.

Lemma descending_entries rk : descending rk -> StronglySorted (fun a b => b.2 <= a.2) (map entry rk).
Proof. induction 1 as [|f rk S IH Hf]; cbn [map]; constructor; [exact IH|]. apply Forall_map. exact Hf. Qed.
Lemma descending_take n rk : descending rk -> descending (take n rk).
Proof.
  intros D. revert n. induction D as [|f rk S IH Hf]; intros [|n]; cbn [take]; try constructor; [apply IH|].
  apply Forall_take, Hf.
Qed.
Lemma once_take n ks : NoDup (filter (fun k : list Z => k <> []) ks) -> NoDup (filter (fun k => k <> []) (take n ks)).
Proof. rewrite <- (take_drop n ks) at 1. rewrite filter_app. intros O. now apply NoDup_app in O as (O & _ & _). Qed.

Lemma ranked_best m rk : ranked m rk -> descending rk -> best m (map entry (take TOP_N rk)).
Proof.
  intros R D. split.
  - rewrite length_map, length_take, (rn_len _ _ R). unfold TOP_N. lia.
  - apply descending_entries, descending_take, D.
  - rewrite map_map. change (map (fun f => (entry f).1)) with (map key). rewrite <- firstn_map. apply once_take, R.
  - intros s c Hl. apply list_elem_of_fmap in Hl as (f & [= -> ->] & Hf). apply elem_of_take_in in Hf.
    case_decide as Ns; [exact (rn_blank _ _ R f Hf Ns)|exact (rn_last _ _ R f Hf Ns)].
  - intros s c E.
    assert (Low : (TOP_N <= at_least c rk)%nat -> forall s' c', (s', c') ∈ map entry (take TOP_N rk) -> c <= c').
    { intros L s' c' Hl. apply list_elem_of_fmap in Hl as (f & [= -> ->] & Hf). apply list_elem_of_lookup in Hf as [i Hi].
      apply lookup_take_Some in Hi as [Hi Li]. exact (top_at_least c rk i f D L Hi Li). }
    destruct (rn_top _ _ R s c E) as [I|I]; [|right; exact (Low I)].
    assert (Ns : s <> []) by (intros ->; pose proof (rn_empty _ _ R); congruence).
    apply list_elem_of_fmap in I as (f & -> & Hf). pose proof (rn_last _ _ R f Hf Ns) as E'. rewrite E in E'. injection E' as ->.
    apply list_elem_of_lookup in Hf as [i Hi]. destruct (Nat.ltb_spec i TOP_N) as [Li|Li].
    + left. apply list_elem_of_fmap. exists f. split; [reflexivity|]. apply list_elem_of_lookup. exists i. rewrite lookup_take_lt by lia. exact Hi.
    + right. apply Low. destruct (Nat.leb_spec TOP_N (at_least (f_integer f) rk)); [assumption|].
      (* everything in front of the last entry is at least as large *)
      exfalso. pose proof (lookup_lt_Some _ _ _ Hi) as Li'. pose proof (rn_len _ _ R) as Len.
      assert (Hs : rk = take TOP_N rk ++ [f]).
      { rewrite <- (take_drop_middle rk TOP_N f) at 1; [|replace TOP_N with i by lia; exact Hi]. rewrite drop_ge; [reflexivity|]. lia. }
      assert (A : Forall (fun g => f_integer f <= f_integer g) (take TOP_N rk)).
      { apply Forall_forall. intros g Hg. rewrite Hs in D. clear -D Hg. induction (take TOP_N rk) as [|h l IH]; [now apply elem_of_nil in Hg|].
        cbn in D. apply StronglySorted_inv in D as [D Dh]. apply elem_of_cons in Hg as [->|Hg]; [|auto].
        rewrite Forall_forall in Dh. apply Dh. apply elem_of_app. right. now apply list_elem_of_singleton. }
      assert (B : (TOP_N <= at_least (f_integer f) rk)%nat) by (rewrite Hs, at_least_app, (all_at_least _ _ A), length_take; lia). lia.
Qed.

Lemma rank_init_ranked : ranked ∅ (rk_rankings rank_init) /\ descending (rk_rankings rank_init).
Proof.
  split.
  - constructor; try reflexivity.
    + apply Forall_forall. intros f Hf. apply list_elem_of_In, repeat_spec in Hf as ->. constructor; [split; [reflexivity|]|reflexivity|unfold counted; cbn; lia].
      cbn. repeat (apply Forall_cons; split; [lia|]). constructor.
    + intros f Hf Nf. exfalso. apply Nf. cbn in Hf. repeat (apply elem_of_cons in Hf as [->|Hf]; [reflexivity|]). now apply elem_of_nil in Hf.
    + intros f Hf _. cbn in Hf. repeat (apply elem_of_cons in Hf as [->|Hf]; [reflexivity|]). now apply elem_of_nil in Hf.
    + cbn. constructor.
    + intros s c E. now rewrite lookup_empty in E.
  - cbn. repeat (constructor; [|repeat (constructor; [cbn; lia|]); constructor]). constructor.
Qed.

(** The calls that have been made whenever a ranking is sent: one is sent when a second
    has passed since the last one. *)
Fixpoint sends (last : Z) (pre calls : list (Z * tuple * tuple)) : list (list (Z * tuple * tuple)) :=
  match calls with
  | [] => []
  | c :: calls =>
      if last + EMIT_FREQUENCY <=? c.1.1 then (pre ++ [c]) :: sends c.1.1 (pre ++ [c]) calls
      else sends last (pre ++ [c]) calls
  end.
Definition counts_of (calls : list (Z * tuple * tuple)) : gmap (list Z) Z := last_counts ∅ (calls_fields calls).

Lemma calls_fields_app a b : calls_fields (a ++ b) = calls_fields a ++ calls_fields b.
Proof. unfold calls_fields. now rewrite map_app, concat_app. Qed.
Lemma counts_of_snoc calls c : counts_of (calls ++ [c]) = last_counts (counts_of calls) (counted_fields (t_v c.2)).
Proof.
  unfold counts_of. rewrite calls_fields_app. unfold calls_fields at 2. cbn [map concat]. rewrite app_nil_r. apply foldl_app.
Qed.

Lemma rank_run_ranked calls : forall pre st, ranked (counts_of pre) (rk_rankings st) -> descending (rk_rankings st) ->
  growing (counts_of pre) (calls_fields calls) -> Forall (fun c => stack_ok c.1.2) calls ->
  exists st' os, rank_run st calls = Ok (st', os) /\ ranked (counts_of (pre ++ calls)) (rk_rankings st') /\
    descending (rk_rankings st') /\
    Forall2 (fun done o => best (counts_of done) (map entry (t_v o))) (sends (rk_lasttime st) pre calls) os.
Proof.
  induction calls as [|[[now out] t] calls IH]; intros pre st R D G F.
  - exists st, []. rewrite app_nil_r. auto.
  - apply Forall_cons in F as [[Lo Fo] F]. cbn [calls_fields map concat fst snd] in *. apply growing_app in G as [G1 G2].
    destruct (rank_fields_spec (t_v t) _ (rk_rankings st) R D G1) as (rk & E & R' & D').
    pose proof (counts_of_snoc pre (now, out, t)) as Cs. cbn [snd] in Cs. rewrite <- Cs in R', G2.
    cbn [rank_run sends fst]. unfold rank_execute. rewrite E. cbn [obind].
    rewrite (cons_middle (now, out, t) pre calls), (app_assoc pre).
    destruct (rk_lasttime st + EMIT_FREQUENCY <=? now).
    + destruct (rank_copy_spec (take TOP_N rk) (Forall_take _ _ _ (rn_ok _ _ R')) (t_v out) Fo) as (v & Ev & Mv & _).
      { rewrite length_take, (rn_len _ _ R'), Lo. unfold TOP_N. lia. }
      rewrite Ev. cbn [obind].
      destruct (IH _ (mk_rank now rk) R' D' G2 F) as (st' & os & E2 & R2 & D2 & F2). rewrite E2. cbn [obind].
      eexists st', _. split; [reflexivity|]. split; [exact R2|]. split; [exact D2|]. constructor; [|exact F2].
      cbn [t_v upd eta_tuple]. rewrite Mv. now apply ranked_best.
    + destruct (IH _ (mk_rank (rk_lasttime st) rk) R' D' G2 F) as (st' & os & E2 & R2 & D2 & F2). cbn [obind]. rewrite E2. cbn [obind]. exists st', os. auto.
Qed.

(** C23. A ranker that is given counts which never fall returns from every call, and its
    first five entries are the best of the last counts: five entries in descending order,
    no string twice, each with the last count of its string, every other string's count
    being at most the smallest of them. It sends a ranking exactly when a second has
    passed since the last one, and each ranking it sends is the best, in the same sense,
    of the counts it had by then. *)
Theorem rank_finds_best calls : growing ∅ (calls_fields calls) -> Forall (fun c => stack_ok c.1.2) calls ->
  exists st os, rank_run rank_init calls = Ok (st, os) /\ descending (rk_rankings st) /\
    best (counts_of calls) (map entry (take TOP_N (rk_rankings st))) /\
    Forall2 (fun done o => best (counts_of done) (map entry (t_v o))) (sends 0 [] calls) os.
Proof.
  intros G F. destruct rank_init_ranked as [R D].
  destruct (rank_run_ranked calls [] rank_init R D G F) as (st & os & E & R' & D' & F').
  exists st, os. split; [exact E|]. split; [exact D'|]. split; [now apply ranked_best|exact F'].
Qed.
End Sorted.
