(* ===== verification/StormSystem.v ===== *)
(** The processes of the stream processor together: mystorm/worker.c, without
    FLEXNIC and USE_MTCP.

    A worker has a thread per executor ([executor_thread]), a thread that sends
    ([sender_thread]) and one that receives ([main]).  A queue is the bounded
    queue of StormQueue; a connection delivers the bytes written to it in
    order, in pieces of any size, and does not fail.  The connection of worker
    [i] to worker [j] is channel [i] of worker [j].  What a bolt does is a
    relation: its state, the tuple it gets, the state after it and the tuples
    it hands to [tuple_send].  Every step keeps an invariant ([sys_inv]), so a
    task executes what was sent to it, once and in order. *)
From stdpp Require Import base numbers list functions relations.
From Stdlib Require Import ZArith Lia.
From S2P Require Import Prelude StormQueue StormTuple StormBolts.

Definition MAX_INBUF : Z := 8192.

(** ** Definitions *)

(** [stream.inbuf[i][k]] for [k < n] *)
Fixpoint inbuf_tuples (n : nat) (buf : list Z) : list tuple :=
  match n with
  | O => []
  | S n => bytes_tuple (take (Z.to_nat SZ_TUPLE) buf) :: inbuf_tuples n (drop (Z.to_nat SZ_TUPLE) buf)
  end.
(** What [recv] has put behind the [rest]: the complete tuples and the new
    rest. *)
Definition recv_tuples (rest bs : list Z) : list tuple * list Z :=
  let buf := rest ++ bs in
  let n := Z.of_nat (length buf) / SZ_TUPLE in
  (inbuf_tuples (Z.to_nat n) buf, drop (Z.to_nat (n * SZ_TUPLE)) buf).

Section System.
Context {B : Type} (run_bolt : executor -> B -> option tuple -> B -> list tuple -> Prop) (ws : list worker).

(** By task: what is left of the current call of [execute], if any; its
    variables; its queues.  By worker: the position of the sender, what is left
    of the tuple it sends and to whom; the bytes between two workers; the rest
    of a channel; the tuples [main] still has to post.  [y_emitted], [y_done]:
    everything posted to the output queue of a task, and executed by it. *)
Record sys := mk_sys
  { y_exec : Z -> option (list tuple); y_state : Z -> B; y_numtasks : Z -> Z;
    y_inq : Z -> list tuple; y_outq : Z -> list tuple;
    y_scan : nat -> nat; y_sending : nat -> option (nat * list Z); y_wire : nat -> nat -> list Z;
    y_rest : nat -> nat -> list Z; y_main : nat -> list tuple;
    y_emitted : Z -> list tuple; y_done : Z -> list tuple }.
#[export] Instance eta_sys : Eta sys := fun s =>
  mk_sys (y_exec s) (y_state s) (y_numtasks s) (y_inq s) (y_outq s) (y_scan s) (y_sending s) (y_wire s) (y_rest s) (y_main s)
    (y_emitted s) (y_done s).

Definition sys_init (b : Z -> B) : sys :=
  mk_sys (fun _ => None) b (fun _ => 0) (fun _ => []) (fun _ => []) (fun _ => O) (fun _ => None) (fun _ _ => []) (fun _ _ => [])
    (fun _ => []) (fun _ => []) (fun _ => []).

Definition has_room (l : list tuple) : Prop := Z.of_nat (length l) < MAX_ELEMS.
Definition executor_at (i : nat) (k : nat) : option executor := w ← ws !! i; w_executors w !! k.

(** [executor_thread]: a call of [execute] starts; it sends a tuple or drops
    it; it returns. *)
Inductive executor_step (s : sys) : sys -> Prop :=
| y_spout i k x b outs : executor_at i k = Some x -> x_spout x = true -> y_exec s (x_taskid x) = None ->
    run_bolt x (y_state s (x_taskid x)) None b outs ->
    executor_step s (s <| y_exec := <[x_taskid x := Some outs]> (y_exec s) |> <| y_state := <[x_taskid x := b]> (y_state s) |>)
| y_bolt i k x b outs t l : executor_at i k = Some x -> x_spout x = false -> y_exec s (x_taskid x) = None ->
    y_inq s (x_taskid x) = t :: l -> run_bolt x (y_state s (x_taskid x)) (Some t) b outs ->
    executor_step s (s <| y_exec := <[x_taskid x := Some outs]> (y_exec s) |> <| y_state := <[x_taskid x := b]> (y_state s) |>)
| y_drop i k x t outs random now n : executor_at i k = Some x -> y_exec s (x_taskid x) = Some (t :: outs) ->
    tuple_send random now (y_numtasks s (x_taskid x)) t x = Ok (n, None) ->
    executor_step s (s <| y_exec := <[x_taskid x := Some outs]> (y_exec s) |> <| y_numtasks := <[x_taskid x := n]> (y_numtasks s) |>)
| y_send i k x t outs random now n t' : executor_at i k = Some x -> y_exec s (x_taskid x) = Some (t :: outs) ->
    0 <= now < 2 ^ 64 -> tuple_send random now (y_numtasks s (x_taskid x)) t x = Ok (n, Some t') -> has_room (y_outq s (x_taskid x)) ->
    executor_step s (s <| y_exec := <[x_taskid x := Some outs]> (y_exec s) |> <| y_numtasks := <[x_taskid x := n]> (y_numtasks s) |>
      <| y_outq := <[x_taskid x := y_outq s (x_taskid x) ++ [t']]> (y_outq s) |>
      <| y_emitted := <[x_taskid x := y_emitted s (x_taskid x) ++ [t']]> (y_emitted s) |>)
| y_return_spout i k x : executor_at i k = Some x -> x_spout x = true -> y_exec s (x_taskid x) = Some [] ->
    executor_step s (s <| y_exec := <[x_taskid x := None]> (y_exec s) |>)
| y_return i k x t l : executor_at i k = Some x -> x_spout x = false -> y_exec s (x_taskid x) = Some [] ->
    y_inq s (x_taskid x) = t :: l ->
    executor_step s (s <| y_exec := <[x_taskid x := None]> (y_exec s) |> <| y_inq := <[x_taskid x := l]> (y_inq s) |>
      <| y_done := <[x_taskid x := y_done s (x_taskid x) ++ [t]]> (y_done s) |>).

(** [sender_thread]: nothing in the queue, or no executor any more; a tuple; a
    call of [send], the last one for a tuple or not. *)
Inductive sender_step (s : sys) : sys -> Prop :=
| y_skip i k : y_sending s i = None -> y_scan s i = k ->
    match executor_at i k with Some x => y_outq s (x_taskid x) = [] | None => True end ->
    sender_step s (s <| y_scan := <[i := match executor_at i k with Some _ => S k | None => O end]> (y_scan s) |>)
| y_peek i x t l fd dst : y_sending s i = None -> executor_at i (y_scan s i) = Some x -> y_outq s (x_taskid x) = t :: l ->
    task2sock ws (t_task t) = Ok (fd, Some dst) ->
    sender_step s (s <| y_sending := <[i := Some (dst, tuple_bytes t)]> (y_sending s) |>)
| y_write i dst bs1 bs2 : y_sending s i = Some (dst, bs1 ++ bs2) -> bs2 <> [] ->
    sender_step s (s <| y_sending := <[i := Some (dst, bs2)]> (y_sending s) |>
      <| y_wire := <[i := <[dst := y_wire s i dst ++ bs1]> (y_wire s i)]> (y_wire s) |>)
| y_written i dst bs x t l : y_sending s i = Some (dst, bs) -> executor_at i (y_scan s i) = Some x -> y_outq s (x_taskid x) = t :: l ->
    sender_step s (s <| y_sending := <[i := None]> (y_sending s) |> <| y_scan := <[i := S (y_scan s i)]> (y_scan s) |>
      <| y_wire := <[i := <[dst := y_wire s i dst ++ bs]> (y_wire s i)]> (y_wire s) |>
      <| y_outq := <[x_taskid x := l]> (y_outq s) |>).

(** [main]: a call of [recv]; a tuple is posted. *)
Inductive recv_step (s : sys) : sys -> Prop :=
| y_recv i j bs left ts rest : y_main s j = [] -> y_wire s i j = bs ++ left ->
    Z.of_nat (length bs) <= MAX_INBUF * SZ_TUPLE - Z.of_nat (length (y_rest s j i)) -> recv_tuples (y_rest s j i) bs = (ts, rest) ->
    recv_step s (s <| y_wire := <[i := <[j := left]> (y_wire s i)]> (y_wire s) |>
      <| y_rest := <[j := <[i := rest]> (y_rest s j)]> (y_rest s) |> <| y_main := <[j := ts]> (y_main s) |>)
| y_post j w t ts now x : y_main s j = t :: ts -> ws !! j = Some w -> 0 <= now < 2 ^ 64 ->
    task2executor w (t_task t) = Some x -> has_room (y_inq s (x_taskid x)) ->
    recv_step s (s <| y_main := <[j := ts]> (y_main s) |>
      <| y_inq := <[x_taskid x := y_inq s (x_taskid x) ++ [t <| t_starttime := now |>]]> (y_inq s) |>).

(** Any of the threads. *)
Inductive y_step (s s' : sys) : Prop :=
| y_executor : executor_step s s' -> y_step s s'
| y_sender : sender_step s s' -> y_step s s'
| y_receiver : recv_step s s' -> y_step s s'.

(** ** Specification *)

(** The tuples of [l] from one task to another, without their time stamps. *)
Definition untimed (t : tuple) : tuple := t <| t_starttime := 0 |>.
Definition between (f d : Z) (l : list tuple) : list tuple :=
  map untimed (filter (fun t => t_fromtask t = f /\ t_task t = d) l).

(** Nothing is under way. *)
Definition quiet (s : sys) : Prop :=
  (forall d, y_exec s d = None /\ y_inq s d = [] /\ y_outq s d = []) /\
  (forall i, y_sending s i = None /\ y_main s i = []) /\
  (forall i j, y_wire s i j = [] /\ y_rest s j i = []).

(** ** The invariant *)

Definition sent_bytes (s : sys) (i j : nat) : list Z :=
  match y_sending s i with Some (dst, bs) => if decide (dst = j) then bs else [] | None => [] end.
(** The output queue without the tuple that is being sent. *)
Definition queued (s : sys) (i : nat) (f : Z) : list tuple :=
  match y_sending s i with
  | Some _ => match executor_at i (y_scan s i) with
              | Some x => if decide (x_taskid x = f) then tail (y_outq s f) else y_outq s f
              | None => y_outq s f
              end
  | None => y_outq s f
  end.

Definition to_worker (i j : nat) (t : tuple) : Prop := tuple_ok t /\ hosted_at ws i (t_fromtask t) /\ hosted_at ws j (t_task t).

(** [U i j]: the tuples whose bytes are between worker [i] and worker [j]. *)
Record sys_inv (bolt_ok : executor -> B -> Prop) (s : sys) (U : nat -> nat -> list tuple) : Prop := {
  iv_exec : forall d l, y_exec s d = Some l -> Forall tuple_ok l;
  iv_bolt : forall i k x, executor_at i k = Some x -> bolt_ok x (y_state s (x_taskid x));
  iv_outq : forall f, Forall (fun t => tuple_ok t /\ t_fromtask t = f /\ t_task t ∈ all_tasks ws) (y_outq s f);
  iv_inq : forall d, Forall (fun t => tuple_ok t /\ t_task t = d /\ t_fromtask t ∈ all_tasks ws) (y_inq s d);
  iv_done : forall d, Forall (fun t => t_task t = d /\ t_fromtask t ∈ all_tasks ws) (y_done s d);
  iv_main : forall j, Forall (fun t => tuple_ok t /\ t_fromtask t ∈ all_tasks ws /\ hosted_at ws j (t_task t)) (y_main s j);
  iv_between : forall i j, Forall (to_worker i j) (U i j);
  iv_bytes : forall i j, y_rest s j i ++ y_wire s i j ++ sent_bytes s i j = concat (map tuple_bytes (U i j));
  iv_sending : forall i dst bs, y_sending s i = Some (dst, bs) -> exists x t l, executor_at i (y_scan s i) = Some x /\ y_outq s (x_taskid x) = t :: l;
  iv_fifo : forall i f j d, hosted_at ws i f -> hosted_at ws j d ->
    between f d (y_emitted s f) = between f d (y_done s d ++ y_inq s d ++ y_main s j ++ U i j ++ queued s i f) }.

(** ** Bytes and tuples *)

Lemma inbuf_tuples_spec n : forall buf more U, Forall tuple_ok U -> Z.of_nat n * SZ_TUPLE <= Z.of_nat (length buf) ->
  buf ++ more = concat (map tuple_bytes U) ->
  exists U', U = inbuf_tuples n buf ++ U' /\ drop (Z.to_nat (Z.of_nat n * SZ_TUPLE)) buf ++ more = concat (map tuple_bytes U').
Proof.
  induction n as [|n IH]; intros buf more U F L E; [exists U; auto|].
  destruct U as [|u U].
  - cbn in E. apply app_nil in E as [-> _]. cbn [length] in L. unfold SZ_TUPLE in L. lia.
  - apply Forall_cons in F as [Hu F]. cbn [map concat] in E. pose proof (length_tuple_bytes u Hu) as Lu.
    assert (Es : buf = tuple_bytes u ++ drop (Z.to_nat SZ_TUPLE) buf).
    { rewrite <- (take_drop (Z.to_nat SZ_TUPLE) buf) at 1. f_equal.
      rewrite <- (take_app_le buf more) by (unfold SZ_TUPLE in *; lia). rewrite E. apply take_app_length'. lia. }
    assert (En : drop (Z.to_nat SZ_TUPLE) buf ++ more = concat (map tuple_bytes U)).
    { rewrite Es, <- app_assoc in E. now apply app_inj_1 in E as [_ E]. }
    destruct (IH (drop (Z.to_nat SZ_TUPLE) buf) more U F) as (U' & EU & EB); [rewrite length_drop; unfold SZ_TUPLE in *; lia|exact En|].
    exists U'. cbn [inbuf_tuples app]. split.
    + f_equal; [|exact EU]. rewrite Es, take_app_length' by lia. symmetry. now apply tuple_roundtrip.
    + rewrite <- EB. f_equal. rewrite drop_drop. f_equal. unfold SZ_TUPLE. lia.
Qed.

(** What is received are the next tuples that were sent. *)
Lemma recv_tuples_spec rest bs more U ts r : Forall tuple_ok U -> rest ++ bs ++ more = concat (map tuple_bytes U) ->
  recv_tuples rest bs = (ts, r) -> exists U', U = ts ++ U' /\ r ++ more = concat (map tuple_bytes U').
Proof.
  intros F E [= <- <-]. rewrite app_assoc in E. set (buf := rest ++ bs) in *. set (n := Z.of_nat (length buf) / SZ_TUPLE).
  assert (0 <= n) by (apply Z.div_pos; unfold SZ_TUPLE; lia).
  destruct (inbuf_tuples_spec (Z.to_nat n) buf more U F) as (U' & EU & EB); [|exact E|].
  - rewrite Z2Nat.id by lia. rewrite Z.mul_comm. apply Z.mul_div_le. reflexivity.
  - exists U'. split; [exact EU|]. rewrite Z2Nat.id in EB by lia. exact EB.
Qed.

(** ** Executors and tasks *)

Lemma between_app f d a b : between f d (a ++ b) = between f d a ++ between f d b.
Proof. unfold between. now rewrite filter_app, map_app. Qed.
Lemma between_none f d l : Forall (fun t => ~ (t_fromtask t = f /\ t_task t = d)) l -> between f d l = [].
Proof. unfold between. induction 1 as [|t l N _ IH]; [reflexivity|]. now rewrite filter_cons, decide_False. Qed.
Lemma between_retimed f d t now : between f d [t <| t_starttime := now |>] = between f d [t].
Proof. unfold between. rewrite !filter_cons. cbn. now destruct (decide _). Qed.

Context (T : topology ws) (Socks : forall w, w ∈ ws -> w_sock w <> 0).
Context (bolt_ok : executor -> B -> Prop).
Context (Bolts : forall x b o b' outs, run_bolt x b o b' outs -> bolt_ok x b -> (forall t, o = Some t -> tuple_ok t) ->
  bolt_ok x b' /\ Forall tuple_ok outs).

Lemma executor_host i k x : executor_at i k = Some x -> hosted_at ws i (x_taskid x).
Proof.
  unfold executor_at. intros E. apply bind_Some in E as (w & Ew & Ex). exists w. split; [exact Ew|]. apply hosts_iff. exists x.
  split; [|reflexivity]. eapply list_elem_of_lookup_2; eauto.
Qed.
Lemma executor_unique i k x i' k' x' : executor_at i k = Some x -> executor_at i' k' = Some x' -> x_taskid x = x_taskid x' -> i = i' /\ x = x'.
Proof.
  intros E E' Et. assert (i = i') as <-.
  { eapply hosted_once; [exact T|eapply executor_host; eauto|]. rewrite Et. eapply executor_host; eauto. }
  split; [reflexivity|]. unfold executor_at in *. apply bind_Some in E as (w & Ew & Ex). apply bind_Some in E' as (w' & Ew' & Ex').
  rewrite Ew in Ew'. injection Ew' as <-. apply list_elem_of_lookup_2 in Ex, Ex'.
  pose proof (task2executor_spec ws T i w x Ew Ex) as A. pose proof (task2executor_spec ws T i w x' Ew Ex') as A'. rewrite Et in A. congruence.
Qed.
Lemma executor_known i k x : executor_at i k = Some x -> executor_wf (all_tasks ws) x.
Proof.
  unfold executor_at. intros E. apply bind_Some in E as (w & Ew & Ex). apply (tp_wf _ T), all_executors_iff.
  exists i, w. split; [exact Ew|]. eapply list_elem_of_lookup_2; eauto.
Qed.
Lemma task2sock_ok d : d ∈ all_tasks ws -> exists fd j, task2sock ws d = Ok (fd, Some j) /\ hosted_at ws j d.
Proof.
  intros Hd. destruct (task_hosted _ _ Hd) as (j & w & Ew & Hw). exists (w_sock w), j. split; [|exists w; auto].
  apply (task2sock_hosted ws T); auto. apply Socks. eapply list_elem_of_lookup_2; eauto.
Qed.

(** The tuple [tuple_send] posts. *)
Lemma tuple_send_ok random now n t x n' t' i k : executor_at i k = Some x -> tuple_ok t -> 0 <= now < 2 ^ 64 ->
  tuple_send random now n t x = Ok (n', Some t') -> tuple_ok t' /\ t_fromtask t' = x_taskid x /\ t_task t' ∈ all_tasks ws.
Proof.
  intros Ex K Hn E. pose proof (executor_known _ _ _ Ex) as Wf. unfold tuple_send in E. bind_inv E. destruct a as [n1 d].
  destruct (Z.eqb_spec d 0) as [|Nd]; injection E as _ E; [discriminate|]. subst t'.
  destruct (grouper_hosted _ x Wf _ _ _ _ _ E0) as [->|[_ Hd]]; [contradiction|].
  split; [|split; [reflexivity|exact Hd]].
  assert (Hs : forall z, 0 < z < MAX_TASKS -> is_s32 z) by (unfold MAX_TASKS, is_s32; lia).
  constructor; cbn; [apply Hs|apply Hs|exact Hn|exact (tk_len _ K)|exact (tk_fields _ K)].
  - destruct (task_hosted _ _ Hd) as (j & w & Ew & Hw). apply hosts_iff in Hw as (x' & Hx' & <-).
    apply (xw_id (all_tasks ws)). apply (tp_wf _ T), all_executors_iff. eauto.
  - apply (xw_id _ _ Wf).
Qed.
End System.

(** ** Every step keeps the invariant *)

(** A function updated at a place, seen at a place. *)
Ltac at_key d k :=
  destruct (decide (d = k)) as [->|]; [rewrite ?fn_lookup_insert in *|rewrite ?fn_lookup_insert_ne in * by congruence].

Section Deliver.
Context {B : Type} (run_bolt : executor -> B -> option tuple -> B -> list tuple -> Prop) (ws : list worker).
Context (T : topology ws) (Socks : forall w, w ∈ ws -> w_sock w <> 0).
Context (bolt_ok : executor -> B -> Prop).
Context (Bolts : forall x b o b' outs, run_bolt x b o b' outs -> bolt_ok x b -> (forall t, o = Some t -> tuple_ok t) ->
  bolt_ok x b' /\ Forall tuple_ok outs).

Local Notation sys := (@sys B).
Local Notation inv := (@sys_inv B ws bolt_ok).
Local Notation executor_at := (executor_at ws).
Local Notation queued := (@queued B ws).

(** A call of [execute] begins. *)
Lemma execute_inv s U i k x b o outs : executor_at i k = Some x -> run_bolt x (y_state s (x_taskid x)) o b outs ->
  (forall t, o = Some t -> tuple_ok t) -> inv s U ->
  inv (s <| y_exec := <[x_taskid x := Some outs]> (y_exec s) |> <| y_state := <[x_taskid x := b]> (y_state s) |>) U.
Proof.
  intros Ex R Ho I. destruct (Bolts _ _ _ _ _ R (iv_bolt _ _ _ _ I i k x Ex) Ho) as [Ob Oo].
  destruct I. constructor; cbn -[between StormSystem.queued sent_bytes]; auto.
  - intros d l. at_key d (x_taskid x); [now intros [= <-]|eauto].
  - intros i' k' x' Ex'. destruct (decide (x_taskid x' = x_taskid x)) as [Et|].
    + destruct (executor_unique ws T _ _ _ _ _ _ Ex' Ex Et) as [_ ->]. now rewrite fn_lookup_insert.
    + rewrite fn_lookup_insert_ne by congruence. eauto.
Qed.

Lemma drop_inv s U tid t outs n : y_exec s tid = Some (t :: outs) -> inv s U ->
  inv (s <| y_exec := <[tid := Some outs]> (y_exec s) |> <| y_numtasks := <[tid := n]> (y_numtasks s) |>) U.
Proof.
  intros E I. destruct I. constructor; cbn -[between StormSystem.queued sent_bytes]; auto.
  intros d l. at_key d tid; [|eauto]. intros [= <-]. now apply (Forall_cons tuple_ok t), (iv_exec0 _ _ E).
Qed.

(** A tuple joins the output queue of [x]. *)
Lemma send_inv s U i k x t outs n t' : executor_at i k = Some x -> y_exec s (x_taskid x) = Some (t :: outs) ->
  tuple_ok t' -> t_fromtask t' = x_taskid x -> t_task t' ∈ all_tasks ws -> inv s U ->
  inv (s <| y_exec := <[x_taskid x := Some outs]> (y_exec s) |> <| y_numtasks := <[x_taskid x := n]> (y_numtasks s) |>
      <| y_outq := <[x_taskid x := y_outq s (x_taskid x) ++ [t']]> (y_outq s) |>
      <| y_emitted := <[x_taskid x := y_emitted s (x_taskid x) ++ [t']]> (y_emitted s) |>) U.
Proof.
  intros Ex E Ht Hf Hd I. apply (drop_inv _ _ _ _ _ n E) in I.
  set (tid := x_taskid x) in *. destruct I. cbn -[between StormSystem.queued sent_bytes] in *. constructor; cbn -[between StormSystem.queued sent_bytes]; auto.
  - intros f. at_key f tid; [|apply (iv_outq0 f)]. apply Forall_app. split; [apply (iv_outq0 tid)|]. now apply Forall_singleton.
  - intros i' dst bs Es. destruct (iv_sending0 i' dst bs Es) as (x' & t0 & l & Ex' & Eo). exists x', t0.
    destruct (decide (x_taskid x' = tid)) as [Et|].
    + rewrite Et in Eo |- *. rewrite fn_lookup_insert, Eo. exists (l ++ [t']). auto.
    + rewrite fn_lookup_insert_ne by congruence. eauto.
  - intros i' f j d Hi Hj. specialize (iv_fifo0 i' f j d Hi Hj).
    match type of iv_fifo0 with _ = between f d (_ ++ _ ++ _ ++ _ ++ ?q0) =>
      match goal with |- _ = between f d (_ ++ _ ++ _ ++ _ ++ ?q) => replace q with (if decide (f = tid) then q0 ++ [t'] else q0) end end.
    + at_key f tid; [|exact iv_fifo0].
      rewrite between_app, iv_fifo0, <- between_app, <- !app_assoc. reflexivity.
    + unfold StormSystem.queued. cbn. destruct (y_sending s i') as [[dst bs]|] eqn:Es; [|now at_key f tid].
      destruct (iv_sending0 i' dst bs Es) as (x' & t0 & l & Ex' & Eo). rewrite Ex'. at_key f tid.
      * destruct (decide (x_taskid x' = tid)) as [Et|]; [|reflexivity]. rewrite Et in Eo. now rewrite Eo.
      * now destruct (decide _).
Qed.

Lemma return_spout_inv s U tid : inv s U -> inv (s <| y_exec := <[tid := None]> (y_exec s) |>) U.
Proof. intros I. destruct I. constructor; cbn -[between StormSystem.queued sent_bytes]; auto. intros d l. at_key d tid; [discriminate|eauto]. Qed.

Lemma return_inv s U tid t l : y_inq s tid = t :: l -> inv s U ->
  inv (s <| y_exec := <[tid := None]> (y_exec s) |> <| y_inq := <[tid := l]> (y_inq s) |>
      <| y_done := <[tid := y_done s tid ++ [t]]> (y_done s) |>) U.
Proof.
  intros E I. apply (return_spout_inv _ _ tid) in I. pose proof (iv_inq _ _ _ _ I tid) as F. cbn in F. rewrite E in F. apply Forall_cons in F as [Ft Fl].
  destruct I. constructor; cbn -[between StormSystem.queued sent_bytes]; auto.
  - intros d. at_key d tid; [exact Fl|apply (iv_inq0 d)].
  - intros d. at_key d tid; [|apply (iv_done0 d)]. apply Forall_app. split; [apply (iv_done0 tid)|]. apply Forall_singleton. tauto.
  - intros i f j d Hi Hj. specialize (iv_fifo0 i f j d Hi Hj). cbn -[between StormSystem.queued] in iv_fifo0. at_key d tid; [|exact iv_fifo0].
    rewrite E in iv_fifo0. rewrite iv_fifo0, <- app_assoc. reflexivity.
Qed.

Lemma skip_inv s U i n : y_sending s i = None -> inv s U -> inv (s <| y_scan := <[i := n]> (y_scan s) |>) U.
Proof.
  intros E I. destruct I. constructor; cbn -[between StormSystem.queued sent_bytes]; auto.
  - intros i' dst bs Es. rewrite fn_lookup_insert_ne by congruence. eauto.
  - intros i' f j d Hi Hj. rewrite (iv_fifo0 i' f j d Hi Hj). do 4 f_equal. unfold StormSystem.queued. cbn.
    at_key i' i; [now rewrite E|reflexivity].
Qed.

(** The sender takes the first tuple of a queue. *)
Lemma peek_inv s U i x t l fd dst : y_sending s i = None -> executor_at i (y_scan s i) = Some x -> y_outq s (x_taskid x) = t :: l ->
  task2sock ws (t_task t) = Ok (fd, Some dst) -> inv s U ->
  inv (s <| y_sending := <[i := Some (dst, tuple_bytes t)]> (y_sending s) |>) (<[i := <[dst := U i dst ++ [t]]> (U i)]> U).
Proof.
  intros En Ex Eo Et I. pose proof (iv_outq _ _ _ _ I (x_taskid x)) as F. rewrite Eo in F. apply Forall_cons in F as [(Kt & Ff & Fd) _].
  destruct (task2sock_ok ws T Socks _ Fd) as (fd' & dst' & Et' & Hd). rewrite Et in Et'. injection Et' as <- <-.
  pose proof (executor_host ws _ _ _ Ex) as Hx. destruct I. constructor; cbn -[between StormSystem.queued sent_bytes]; auto.
  - intros i' j. at_key i' i; [|apply iv_between0]. at_key j dst; [|apply iv_between0]. apply Forall_app. split; [apply iv_between0|].
    apply Forall_singleton. split; [exact Kt|]. rewrite Ff. auto.
  - intros i' j. specialize (iv_bytes0 i' j). unfold sent_bytes in *. cbn. at_key i' i; [|exact iv_bytes0]. rewrite En in iv_bytes0.
    rewrite app_nil_r in iv_bytes0. destruct (decide (dst = j)) as [->|].
    + rewrite fn_lookup_insert, map_app, concat_app, <- iv_bytes0, app_assoc. cbn. now rewrite app_nil_r.
    + rewrite fn_lookup_insert_ne by congruence. now rewrite app_nil_r.
  - intros i' d bs. at_key i' i; [|eauto]. intros [= <- <-]. eauto.
  - intros i' f j d Hi Hj. specialize (iv_fifo0 i' f j d Hi Hj). unfold StormSystem.queued in *. cbn. at_key i' i; [|exact iv_fifo0].
    rewrite En in iv_fifo0. rewrite Ex, iv_fifo0. rewrite !between_app. do 3 f_equal.
    destruct (decide (x_taskid x = f)) as [<-|Nf].
    + rewrite Eo. cbn [tail]. change (t :: l) with ([t] ++ l). rewrite (between_app _ _ [t] l). at_key j dst; [now rewrite between_app, app_assoc|].
      rewrite (between_none _ _ [t]); [reflexivity|]. apply Forall_singleton. intros [_ Ed]. subst d.
      destruct (hosted_once ws T _ _ _ Hj Hd). congruence.
    + at_key j dst; [|reflexivity]. rewrite between_app, (between_none _ _ [t]); [now rewrite app_nil_r|]. apply Forall_singleton. intros [Ed _]. congruence.
Qed.

Lemma write_inv s U i dst bs1 bs2 : y_sending s i = Some (dst, bs1 ++ bs2) -> inv s U ->
  inv (s <| y_sending := <[i := Some (dst, bs2)]> (y_sending s) |>
      <| y_wire := <[i := <[dst := y_wire s i dst ++ bs1]> (y_wire s i)]> (y_wire s) |>) U.
Proof.
  intros Es I. destruct I. constructor; cbn -[between StormSystem.queued sent_bytes]; auto.
  - intros i' j. specialize (iv_bytes0 i' j). unfold sent_bytes in *. cbn. at_key i' i; [|exact iv_bytes0]. rewrite Es in iv_bytes0.
    at_key j dst.
    + rewrite decide_True in * by reflexivity. rewrite <- iv_bytes0, !app_assoc. reflexivity.
    + rewrite decide_False in * by congruence. exact iv_bytes0.
  - intros i' d bs. at_key i' i; [|eauto]. intros [= <- <-]. eauto.
  - intros i' f j d Hi Hj. rewrite (iv_fifo0 i' f j d Hi Hj). do 4 f_equal. unfold StormSystem.queued. cbn.
    at_key i' i; [now rewrite Es|reflexivity].
Qed.

(** The last of its bytes is written. *)
Lemma written_inv s U i dst bs x t l : y_sending s i = Some (dst, bs) -> executor_at i (y_scan s i) = Some x -> y_outq s (x_taskid x) = t :: l ->
  inv s U ->
  inv (s <| y_sending := <[i := None]> (y_sending s) |> <| y_scan := <[i := S (y_scan s i)]> (y_scan s) |>
      <| y_wire := <[i := <[dst := y_wire s i dst ++ bs]> (y_wire s i)]> (y_wire s) |>
      <| y_outq := <[x_taskid x := l]> (y_outq s) |>) U.
Proof.
  intros Es Ex Eo I. pose proof (iv_outq _ _ _ _ I (x_taskid x)) as F. rewrite Eo in F. apply Forall_cons in F as [_ F].
  destruct I. constructor; cbn -[between StormSystem.queued sent_bytes]; auto.
  - intros f. at_key f (x_taskid x); [exact F|apply (iv_outq0 f)].
  - intros i' j. specialize (iv_bytes0 i' j). unfold sent_bytes in *. cbn. at_key i' i; [|exact iv_bytes0]. rewrite Es in iv_bytes0.
    at_key j dst.
    + rewrite decide_True in iv_bytes0 by reflexivity. now rewrite app_nil_r.
    + rewrite decide_False in iv_bytes0 by congruence. exact iv_bytes0.
  - intros i' d bs'. at_key i' i; [discriminate|]. intros Es'. destruct (iv_sending0 i' d bs' Es') as (x' & t' & l' & Ex' & Eo').
    exists x', t', l'. split; [exact Ex'|]. rewrite fn_lookup_insert_ne; [exact Eo'|].
    intros Et. destruct (executor_unique ws T _ _ _ _ _ _ Ex Ex' Et). congruence.
  - intros i' f j d Hi Hj. rewrite (iv_fifo0 i' f j d Hi Hj). do 4 f_equal. unfold StormSystem.queued. cbn.
    at_key i' i.
    + rewrite Es, Ex. at_key f (x_taskid x); [rewrite decide_True, Eo by reflexivity; reflexivity|]. now rewrite decide_False by congruence.
    + assert (Nf : f <> x_taskid x).
      { intros ->. pose proof (executor_host ws _ _ _ Ex) as Hx. pose proof (hosted_once ws T _ _ _ Hi Hx). congruence. }
      now rewrite fn_lookup_insert_ne by congruence.
Qed.

(** What is received is posted next. *)
Lemma recv_inv s U i j bs left ts rest : y_main s j = [] -> y_wire s i j = bs ++ left -> recv_tuples (y_rest s j i) bs = (ts, rest) ->
  inv s U -> exists U', inv (s <| y_wire := <[i := <[j := left]> (y_wire s i)]> (y_wire s) |>
      <| y_rest := <[j := <[i := rest]> (y_rest s j)]> (y_rest s) |> <| y_main := <[j := ts]> (y_main s) |>) U'.
Proof.
  intros Em Ew Er I. pose proof (iv_bytes _ _ _ _ I i j) as Eb. rewrite Ew, <- app_assoc in Eb.
  pose proof (iv_between _ _ _ _ I i j) as Fu.
  destruct (recv_tuples_spec (y_rest s j i) bs (left ++ sent_bytes s i j) (U i j) ts rest) as (U' & EU & EB); [|exact Eb|exact Er|].
  { eapply Forall_impl; [exact Fu|]. now intros t (K & _). }
  rewrite EU in Fu. apply Forall_app in Fu as [Ft Fu].
  exists (<[i := <[j := U']> (U i)]> U). destruct I. constructor; cbn -[between StormSystem.queued sent_bytes]; auto.
  - intros j'. at_key j' j; [|apply iv_main0]. eapply Forall_impl; [exact Ft|]. intros t (K & Hf & Hd). split; [exact K|]. split; [|exact Hd].
    eapply hosted_task; eauto.
  - intros i' j'. at_key i' i; [|apply iv_between0]. at_key j' j; [exact Fu|apply iv_between0].
  - intros i' j'. specialize (iv_bytes0 i' j'). unfold sent_bytes in *. cbn. destruct (decide (j' = j)) as [->|Nj], (decide (i' = i)) as [->|Ni].
    + rewrite !fn_lookup_insert. exact EB.
    + rewrite fn_lookup_insert, !fn_lookup_insert_ne by congruence. exact iv_bytes0.
    + rewrite !fn_lookup_insert, !fn_lookup_insert_ne by congruence. exact iv_bytes0.
    + rewrite !fn_lookup_insert_ne by congruence. exact iv_bytes0.
  - intros i' f j' d Hi Hj. specialize (iv_fifo0 i' f j' d Hi Hj). change (queued _ i' f) with (queued s i' f).
    at_key j' j.
    + rewrite Em in iv_fifo0. cbn [app] in iv_fifo0. at_key i' i.
      * rewrite EU, <- app_assoc in iv_fifo0. exact iv_fifo0.
      * rewrite iv_fifo0, !between_app. do 2 f_equal. rewrite (between_none f d ts); [reflexivity|].
        eapply Forall_impl; [exact Ft|]. intros t (_ & Hf & _) [Ef _]. rewrite Ef in Hf. destruct (hosted_once ws T _ _ _ Hi Hf). congruence.
    + at_key i' i; [rewrite fn_lookup_insert_ne by congruence|]; exact iv_fifo0.
Qed.

Lemma post_inv s U j w t ts now x : y_main s j = t :: ts -> ws !! j = Some w -> 0 <= now < 2 ^ 64 -> task2executor w (t_task t) = Some x ->
  inv s U ->
  inv (s <| y_main := <[j := ts]> (y_main s) |>
      <| y_inq := <[x_taskid x := y_inq s (x_taskid x) ++ [t <| t_starttime := now |>]]> (y_inq s) |>) U.
Proof.
  intros Em Ew Hn Et I. pose proof (iv_main _ _ _ _ I j) as F. rewrite Em in F. apply Forall_cons in F as [(K & Hf & (w' & Ew' & Hd)) F].
  rewrite Ew in Ew'. injection Ew' as <-. destruct (task2executor_hosted ws T j w _ Ew Hd) as (x' & Et' & Ex). rewrite Et in Et'. injection Et' as <-.
  destruct I. constructor; cbn -[between StormSystem.queued sent_bytes]; auto.
  - intros d. at_key d (x_taskid x); [|apply (iv_inq0 d)]. apply Forall_app. split; [apply (iv_inq0 (x_taskid x))|]. apply Forall_singleton.
    split; [|cbn; auto]. constructor; cbn; [apply K|apply K|exact Hn|apply K|apply K].
  - intros j'. at_key j' j; [exact F|apply iv_main0].
  - intros i f j' d Hi Hj. specialize (iv_fifo0 i f j' d Hi Hj). change (queued _ i f) with (queued s i f). rewrite !between_app in *.
    at_key d (x_taskid x).
    + assert (j' = j) as -> by (apply (hosted_once ws T _ _ _ Hj); exists w; rewrite Ex; auto). rewrite fn_lookup_insert.
      rewrite Em in iv_fifo0. change (t :: ts) with ([t] ++ ts) in iv_fifo0. rewrite iv_fifo0, !between_app, between_retimed, <- !app_assoc. reflexivity.
    + at_key j' j; [|exact iv_fifo0]. rewrite iv_fifo0, Em. change (t :: ts) with ([t] ++ ts). rewrite (between_app f d [t]).
      rewrite (between_none f d [t]); [reflexivity|]. apply Forall_singleton. intros [_ Ed]. congruence.
Qed.

Local Notation y_step := (y_step run_bolt ws).

Lemma y_step_inv s s' U : y_step s s' -> inv s U -> exists U', inv s' U'.
Proof.
  intros St I. destruct St as [St|St|St]; destruct St.
  - exists U. eapply execute_inv; eauto. intros t [=].
  - exists U. eapply execute_inv; eauto. intros t' [= <-].
    pose proof (iv_inq _ _ _ _ I (x_taskid x)) as F. rewrite H2 in F. apply Forall_cons in F. tauto.
  - exists U. eapply drop_inv; eauto.
  - pose proof (iv_exec _ _ _ _ I _ _ H0) as F. apply Forall_cons in F as [Kt _].
    destruct (tuple_send_ok ws T _ _ _ _ _ _ _ _ _ H Kt H1 H2) as (Kt' & Hf & Hd). exists U. eapply send_inv; eauto.
  - exists U. now apply return_spout_inv.
  - exists U. now apply return_inv with (t := t).
  - exists U. now apply skip_inv.
  - eexists. eapply peek_inv; eauto.
  - exists U. now apply write_inv.
  - exists U. eapply written_inv; eauto.
  - eapply recv_inv; eauto.
  - exists U. eapply post_inv; eauto.
Qed.

Lemma init_inv b : (forall x, x ∈ all_executors ws -> bolt_ok x (b (x_taskid x))) -> inv (sys_init b) (fun _ _ => []).
Proof.
  intros Hb. constructor; cbn; try (intros; constructor); try discriminate; auto.
  intros i k x Ex. apply Hb. unfold StormSystem.executor_at in Ex. apply bind_Some in Ex as (w & Ew & Ex).
  apply all_executors_iff. exists i, w. split; [exact Ew|]. eapply list_elem_of_lookup_2; eauto.
Qed.

Lemma reachable_inv b s : (forall x, x ∈ all_executors ws -> bolt_ok x (b (x_taskid x))) -> rtc y_step (sys_init b) s -> exists U, inv s U.
Proof.
  intros Hb R. assert (I : exists U, inv (sys_init b) U) by eauto using init_inv. clear Hb. revert I.
  induction R as [|s1 s2 s3 St _ IH]; intros [U I]; [eauto|]. apply IH. eauto using y_step_inv.
Qed.

Lemma quiet_moved s U i f j d : quiet s -> inv s U -> hosted_at ws i f -> hosted_at ws j d ->
  between f d (y_done s d) = between f d (y_emitted s f).
Proof.
  intros (Q1 & Q2 & Q3) I Hi Hj. rewrite (iv_fifo _ _ _ _ I i f j d Hi Hj).
  destruct (Q1 d) as (_ & -> & _), (Q2 j) as [_ ->], (Q2 i) as [Es _], (Q1 f) as (_ & _ & Eo).
  assert (Eu : U i j = []).
  { pose proof (iv_bytes _ _ _ _ I i j) as Eb. destruct (Q3 i j) as [Ew Er]. rewrite Ew, Er in Eb. unfold sent_bytes in Eb. rewrite Es in Eb.
    pose proof (iv_between _ _ _ _ I i j) as F. destruct (U i j) as [|u l]; [reflexivity|]. apply Forall_cons in F as [(Ku & _) _].
    pose proof (length_tuple_bytes u Ku) as Lu. cbn [map concat] in Eb. symmetry in Eb. apply app_nil in Eb as [Eb _]. rewrite Eb in Lu. discriminate. }
  rewrite Eu. unfold StormSystem.queued. rewrite Es, Eo, app_nil_r. reflexivity.
Qed.

(** C17. However the threads of all workers interleave and however the network
    cuts their messages: a task executes only tuples that were sent to it, those
    of each sender completely, once and in the order they were sent; what has
    been sent and is not executed is still under way; and no assertion of the
    sender, the receiver or a queue fails. *)
Theorem storm_delivers b s : (forall x, x ∈ all_executors ws -> bolt_ok x (b (x_taskid x))) -> rtc y_step (sys_init b) s ->
  (forall f d, f ∈ all_tasks ws -> d ∈ all_tasks ws ->
    between f d (y_done s d) `prefix_of` between f d (y_emitted s f) /\
    (quiet s -> between f d (y_done s d) = between f d (y_emitted s f))) /\
  (forall d, Forall (fun t => t_task t = d /\ t_fromtask t ∈ all_tasks ws) (y_done s d)) /\
  (forall f t, t ∈ y_outq s f -> t_task t <> 0 /\ exists fd j, task2sock ws (t_task t) = Ok (fd, Some j)) /\
  (forall j t, t ∈ y_main s j -> t_task t <> 0 /\ exists w x, ws !! j = Some w /\ task2executor w (t_task t) = Some x).
Proof.
  intros Hb R. destruct (reachable_inv b s Hb R) as [U I].
  assert (Pos : forall d, d ∈ all_tasks ws -> d <> 0).
  { intros d Hd. apply list_elem_of_fmap in Hd as (x & -> & Hx). pose proof (xw_id _ _ (tp_wf _ T x Hx)). lia. }
  split; [|split; [apply (iv_done _ _ _ _ I)|split]].
  - intros f d Hf Hd. destruct (task_hosted _ _ Hf) as [i Hi], (task_hosted _ _ Hd) as [j Hj]. split; [|intros Q; now apply (quiet_moved s U i f j d)].
    rewrite (iv_fifo _ _ _ _ I i f j d Hi Hj), between_app. now apply prefix_app_r.
  - intros f t Ht. pose proof (iv_outq _ _ _ _ I f) as F. rewrite Forall_forall in F. destruct (F t Ht) as (_ & _ & Hd).
    split; [now apply Pos|]. destruct (task2sock_ok ws T Socks _ Hd) as (fd & j & E & _). eauto.
  - intros j t Ht. pose proof (iv_main _ _ _ _ I j) as F. rewrite Forall_forall in F. destruct (F t Ht) as (_ & _ & Hd).
    split; [eapply Pos, hosted_task; eauto|]. destruct Hd as (w & Ew & Hw). destruct (task2executor_hosted ws T j w _ Ew Hw) as (x & E & _). eauto.
Qed.
End Deliver.
