(* ===== verification/StormCount.v ===== *)
(** The counting bolt of the stream processor: mystorm/count.c, and what it
    uses of mystorm/hash_table.c; spouts, counters and rankers as the relation
    StormSystem takes, and that they hand on proper tuples.

    A bucket of the hash table is the list of its elements: the pointers of the
    list library (mystorm/list.c) are not modelled.  The elements hold pointers
    to the counters, which are in a store of their own. *)
From stdpp Require Import base numbers list gmap relations sorting.
From Stdlib Require Import ZArith Lia.
From S2P Require Import Prelude Dma FkHash StormQueue StormTuple StormBolts StormSystem.

(** ** The hash table *)

Record hash_elem := mk_elem { he_key : Z; he_data : Z }.
Record hash_table := mk_table { ht_num_buckets : Z; ht_buckets : gmap Z (list hash_elem); ht_num_elems : Z }.

Definition collections_hash_create_with_buckets (num_buckets : Z) : hash_table := mk_table num_buckets ∅ 0.

Definition ht_bucket (t : hash_table) (b : Z) : list hash_elem := default [] (ht_buckets t !! b).
Definition bucket_num (t : hash_table) (key : Z) : Z := u32 (key mod ht_num_buckets t).

(** [collections_list_find_if] with [match_key] *)
Definition collections_hash_find_elem (t : hash_table) (key : Z) : option hash_elem :=
  List.find (fun e => he_key e =? key) (ht_bucket t (bucket_num t key)).
Definition collections_hash_find (t : hash_table) (key : Z) : option Z := he_data <$> collections_hash_find_elem t key.
(** In front of its bucket. *)
Definition collections_hash_insert (t : hash_table) (key data : Z) : outcome hash_table :=
  match collections_hash_find_elem t key with
  | Some _ => Crash
  | None =>
      let b := bucket_num t key in
      Ok (mk_table (ht_num_buckets t) (<[b := mk_elem key data :: ht_bucket t b]> (ht_buckets t)) (u32 (ht_num_elems t + 1)))
  end.

Lemma hash_insert_spec t key data t' : collections_hash_insert t key data = Ok t' ->
  forall k, collections_hash_find t' k = if decide (k = key) then Some data else collections_hash_find t k.
Proof.
  unfold collections_hash_insert. destruct (collections_hash_find_elem t key) eqn:E; [discriminate|]. intros [= <-] k.
  unfold collections_hash_find, collections_hash_find_elem, ht_bucket, bucket_num in *. cbn [ht_num_buckets ht_buckets].
  destruct (decide (u32 (k mod ht_num_buckets t) = u32 (key mod ht_num_buckets t))) as [Eb|Nb].
  - rewrite Eb, lookup_insert_eq. cbn [default from_option id List.find he_key]. destruct (Z.eqb_spec key k) as [->|Nk].
    + now rewrite decide_True by reflexivity.
    + now rewrite decide_False by congruence.
  - rewrite lookup_insert_ne by congruence. rewrite decide_False; [reflexivity|]. now intros ->.
Qed.
Lemma hash_insert_ok t key data : collections_hash_find t key = None -> exists t', collections_hash_insert t key data = Ok t'.
Proof.
  unfold collections_hash_find, collections_hash_insert. destruct (collections_hash_find_elem t key); [discriminate|]. eauto.
Qed.

(** ** Counting *)

Definition NUM_WINDOW_CHUNKS : Z := 5.
Definition BUCKETS : Z := 5500000.
Definition COUNT_FREQUENCY : Z := 60.

Record bucket := mk_bucket { b_str : list Z; b_slots : list Z }.
Definition bucket_zero : bucket := mk_bucket (repeat 0 (Z.to_nat MAX_STR)) (repeat 0 (Z.to_nat NUM_WINDOW_CHUNKS)).

(** The static variables of the thread and the state of the executor. *)
Record count_state := mk_count
  { ct_counts : hash_table; ct_store : gmap Z bucket; ct_headslot : Z; ct_tailslot : Z; ct_lasttime : Z }.
Definition count_init : count_state := mk_count (collections_hash_create_with_buckets BUCKETS) ∅ 0 1 0.

(** The counter of a string; [p]: what [malloc] gives, should there be none. *)
Definition count_bucket (p : Z) (st : count_state) (str : list Z) (key : Z) : outcome (hash_table * gmap Z bucket * Z) :=
  match collections_hash_find (ct_counts st) key with
  | Some b => Ok (ct_counts st, ct_store st, b)
  | None =>
      let! t := collections_hash_insert (ct_counts st) key p in
      let! s := strcpy (b_str bucket_zero) str in
      Ok (t, <[p := mk_bucket s (b_slots bucket_zero)]> (ct_store st), p)
  end.

(** [now] in seconds.  The calls that would send the counts and reset the
    oldest slots are not compiled. *)
Definition count_execute (now p : Z) (st : count_state) (t : tuple) : outcome count_state :=
  match t_v t with
  | [] => Crash
  | f :: _ =>
      let! key := hash_str (f_str f) in
      let! (counts, store, b) := count_bucket p st (f_str f) key in
      match store !! b with
      | None => Crash
      | Some bk =>
          let slots := alter (fun n => s64 (n + 1)) (Z.to_nat (ct_headslot st)) (b_slots bk) in
          let store := <[b := mk_bucket (b_str bk) slots]> store in
          Ok (if ct_lasttime st + COUNT_FREQUENCY <=? now
              then mk_count counts store (ct_tailslot st) ((ct_tailslot st + 1) mod NUM_WINDOW_CHUNKS) now
              else mk_count counts store (ct_headslot st) (ct_tailslot st) (ct_lasttime st))
      end
  end.

(** Calls one after the other: the instants, the addresses, the tuples. *)
Fixpoint count_run (st : count_state) (calls : list (Z * Z * tuple)) : outcome count_state :=
  match calls with
  | [] => Ok st
  | (now, p, t) :: calls => let! st := count_execute now p st t in count_run st calls
  end.

(** ** What is counted *)

Definition slots_sum (b : bucket) : Z := foldr Z.add 0 (b_slots b).
Definition word_of (t : tuple) : list Z := match t_v t with f :: _ => key f | [] => [] end.
Definition occurrences (h : Z) (words : list (list Z)) : Z :=
  Z.of_nat (length (filter (fun w => jenkins_ref w = h) words)).

(** The counter of the hash [h] says [n]. *)
Definition counts (st : count_state) (h n : Z) : Prop :=
  match collections_hash_find (ct_counts st) h with
  | Some p => exists b, ct_store st !! p = Some b /\ slots_sum b = n
  | None => n = 0
  end.

Record count_inv (st : count_state) (words : list (list Z)) : Prop := {
  cn_counts : forall h, counts st h (occurrences h words);
  cn_own : forall h h' p, collections_hash_find (ct_counts st) h = Some p -> collections_hash_find (ct_counts st) h' = Some p -> h = h';
  cn_slots : forall p b, ct_store st !! p = Some b -> length (b_slots b) = Z.to_nat NUM_WINDOW_CHUNKS /\ Forall (fun n => 0 <= n) (b_slots b);
  cn_head : 0 <= ct_headslot st < NUM_WINDOW_CHUNKS; cn_tail : 0 <= ct_tailslot st < NUM_WINDOW_CHUNKS }.

Lemma sum_alter l i : Forall (fun n => 0 <= n) l -> (i < length l)%nat -> foldr Z.add 0 l < 9223372036854775807 ->
  foldr Z.add 0 (alter (fun n => s64 (n + 1)) i l) = foldr Z.add 0 l + 1 /\ Forall (fun n => 0 <= n) (alter (fun n => s64 (n + 1)) i l).
Proof.
  intros F. revert i. induction F as [|n l Hn F IH]; intros i L M; [cbn in L; lia|]. pose proof (sum_nonneg l F).
  cbn [foldr] in M. set (g := fun n => s64 (n + 1)) in *. destruct i as [|i].
  - change (alter g 0%nat (n :: l)) with (g n :: l). assert (E : g n = n + 1) by (unfold g, s64; rewrite u64_small by lia; bsplit; lia).
    rewrite E. cbn [foldr]. split; [lia|]. constructor; [lia|exact F].
  - change (alter g (S i) (n :: l)) with (n :: alter g i l). cbn in L. destruct (IH i) as [E F']; [lia..|].
    cbn [foldr]. rewrite E. split; [lia|]. constructor; assumption.
Qed.

Lemma occurrences_snoc h words w : occurrences h (words ++ [w]) = occurrences h words + (if decide (jenkins_ref w = h) then 1 else 0).
Proof.
  unfold occurrences. rewrite filter_app, length_app, filter_cons. destruct (decide _); cbn; lia.
Qed.

Lemma str_short str s : str_ok str -> c_string str = Ok s -> (length s < length (b_str bucket_zero))%nat.
Proof.
  intros [L _] E. destruct (c_string_inv _ _ E) as (r & -> & _). rewrite length_app in L. cbn [length] in L.
  change (length (b_str bucket_zero)) with 64%nat. unfold MAX_STR in L. lia.
Qed.

(** The counter [b] of the hash [h], found or new. *)
Record counter_at (st : count_state) (words : list (list Z)) (h p : Z) (c : hash_table) (store : gmap Z bucket) (b : Z) (bk : bucket) : Prop := {
  ca_entry : store !! b = Some bk;
  ca_find : forall k, collections_hash_find c k = if decide (k = h) then Some b else collections_hash_find (ct_counts st) k;
  ca_sum : slots_sum bk = occurrences h words;
  ca_len : length (b_slots bk) = Z.to_nat NUM_WINDOW_CHUNKS;
  ca_pos : Forall (fun n => 0 <= n) (b_slots bk);
  ca_other : forall h' q, h' <> h -> collections_hash_find (ct_counts st) h' = Some q -> q <> b /\ store !! q = ct_store st !! q;
  ca_old : forall q x, store !! q = Some x -> q <> b -> ct_store st !! q = Some x;
  ca_dom : dom store ⊆ {[ p ]} ∪ dom (ct_store st) }.

Lemma count_bucket_spec p st words str s h : count_inv st words -> ct_store st !! p = None -> str_ok str -> c_string str = Ok s ->
  exists c store b bk, count_bucket p st str h = Ok (c, store, b) /\ counter_at st words h p c store b bk.
Proof.
  intros I Hp Bf Ef. destruct I. pose proof (cn_counts0 h) as Ch. unfold counts in Ch. unfold count_bucket.
  destruct (collections_hash_find (ct_counts st) h) as [b|] eqn:Eh.
  - destruct Ch as (bk & Eb & Sb). exists (ct_counts st), (ct_store st), b, bk. split; [reflexivity|]. destruct (cn_slots0 b bk Eb). constructor; auto.
    + intros k. destruct (decide (k = h)) as [->|]; auto.
    + intros h' q N Eq. split; [|reflexivity]. intros ->. apply N. eapply cn_own0; eauto.
    + set_solver.
  - destruct (hash_insert_ok (ct_counts st) h p Eh) as [c Ec]. rewrite Ec. cbn [obind].
    destruct (strcpy_str (b_str bucket_zero) str s) as (d & Es & _); [split; [reflexivity|]; cbn; repeat (constructor; [lia|]); constructor|apply Bf|exact Ef|now apply (str_short str)|].
    rewrite Es. cbn [obind]. do 4 eexists. split; [reflexivity|]. constructor.
    + apply lookup_insert_eq.
    + exact (hash_insert_spec _ _ _ _ Ec).
    + rewrite Ch. reflexivity.
    + reflexivity.
    + cbn. repeat (constructor; [lia|]). constructor.
    + intros h' q N Eq. specialize (cn_counts0 h'). unfold counts in cn_counts0. rewrite Eq in cn_counts0. destruct cn_counts0 as (b & Eb & _).
      assert (q <> p) by congruence. split; [assumption|]. now rewrite lookup_insert_ne by congruence.
    + intros q x Eq N. now rewrite lookup_insert_ne in Eq by congruence.
    + rewrite dom_insert. reflexivity.
Qed.

(** One more in a slot of it. *)
Lemma counter_inv st words h p c store b bk w slots hs ts lt : count_inv st words -> counter_at st words h p c store b bk -> jenkins_ref w = h ->
  length slots = length (b_slots bk) -> foldr Z.add 0 slots = slots_sum bk + 1 -> Forall (fun n => 0 <= n) slots ->
  0 <= hs < NUM_WINDOW_CHUNKS -> 0 <= ts < NUM_WINDOW_CHUNKS ->
  count_inv (mk_count c (<[b := mk_bucket (b_str bk) slots]> store) hs ts lt) (words ++ [w]).
Proof.
  intros I [Eb Fc Sb Lb Pb Ob Old _] Ew Ls Sum Pos Hh Ht. destruct I. set (bk' := mk_bucket _ _). constructor; cbn -[bk']; auto.
  - intros h'. unfold counts. cbn -[bk']. rewrite Fc, occurrences_snoc, Ew. destruct (decide (h' = h)) as [->|N].
    + rewrite decide_True by reflexivity. exists bk'. rewrite lookup_insert_eq. split; [reflexivity|]. unfold slots_sum at 1. cbn. rewrite Sum, Sb. lia.
    + rewrite decide_False by congruence. specialize (cn_counts0 h'). unfold counts in cn_counts0.
      destruct (collections_hash_find (ct_counts st) h') as [q|] eqn:Eq; [|lia].
      destruct (Ob h' q N Eq) as [Nq Eo]. rewrite lookup_insert_ne by congruence. rewrite Eo, Z.add_0_r. exact cn_counts0.
  - intros h1 h2 q. rewrite !Fc. destruct (decide (h1 = h)) as [->|N1], (decide (h2 = h)) as [->|N2]; auto.
    + intros [= <-] E2. destruct (Ob h2 b N2 E2). congruence.
    + intros E1 [= <-]. destruct (Ob h1 b N1 E1). congruence.
    + apply cn_own0.
  - intros q x Eq. destruct (decide (q = b)) as [->|N].
    + rewrite lookup_insert_eq in Eq. injection Eq as <-. cbn. rewrite Ls. auto.
    + rewrite lookup_insert_ne in Eq by congruence. exact (cn_slots0 q x (Old q x Eq N)).
Qed.

(** A tuple that can be counted: its first string ends. *)
Definition countable (t : tuple) : Prop := tuple_ok t /\ exists f v, t_v t = f :: v /\ c_string (f_str f) = Ok (key f).

(** A call counts the first string of the tuple. *)
Lemma count_execute_inv now p st words t : count_inv st words -> countable t ->
  ct_store st !! p = None -> Z.of_nat (length words) < 9223372036854775807 ->
  exists st', count_execute now p st t = Ok st' /\ count_inv st' (words ++ [word_of t]) /\ dom (ct_store st') ⊆ {[ p ]} ∪ dom (ct_store st).
Proof.
  intros I (K & f & v & Ev & Ef) Hp Lw.
  assert (Bf : str_ok (f_str f)) by (pose proof (tk_fields _ K) as F; rewrite Ev in F; apply Forall_cons in F as [[F _] _]; exact F).
  unfold count_execute, word_of. rewrite Ev, (hash_str_ref _ _ (proj2 Bf) Ef). cbn [obind]. set (h := jenkins_ref (key f)).
  assert (Small : occurrences h words < 9223372036854775807).
  { unfold occurrences. pose proof (length_filter (fun w => jenkins_ref w = h) words). lia. }
  destruct (count_bucket_spec p st words (f_str f) (key f) h I Hp Bf Ef) as (c & store & b & bk & E & C). rewrite E. cbn [obind].
  rewrite (ca_entry _ _ _ _ _ _ _ _ C). pose proof (cn_head _ _ I) as Hh. pose proof (cn_tail _ _ I) as Ht.
  destruct (sum_alter (b_slots bk) (Z.to_nat (ct_headslot st)) (ca_pos _ _ _ _ _ _ _ _ C)) as [Sum Pos].
  { rewrite (ca_len _ _ _ _ _ _ _ _ C). unfold NUM_WINDOW_CHUNKS in *. lia. }
  { fold (slots_sum bk). rewrite (ca_sum _ _ _ _ _ _ _ _ C). exact Small. }
  eexists. split; [reflexivity|]. split.
  - destruct (_ <=? now); eapply (counter_inv st words h p c store b bk); eauto using length_alter; apply Z.mod_pos_bound; reflexivity.
  - assert (Db : b ∈ dom store) by (apply elem_of_dom; exists bk; apply (ca_entry _ _ _ _ _ _ _ _ C)).
    pose proof (ca_dom _ _ _ _ _ _ _ _ C). destruct (_ <=? now); cbn; rewrite dom_insert; set_solver.
Qed.

(** [malloc] gives addresses that are not in use. *)
Fixpoint fresh (used : gset Z) (calls : list (Z * Z * tuple)) : Prop :=
  match calls with [] => True | (_, p, _) :: calls => p ∉ used /\ fresh ({[ p ]} ∪ used) calls end.
Lemma fresh_less used used' calls : used' ⊆ used -> fresh used calls -> fresh used' calls.
Proof.
  revert used used'. induction calls as [|[[now p] t] calls IH]; intros used used' S F; [exact I|]. destruct F as [Np F].
  split; [set_solver|]. apply (IH ({[ p ]} ∪ used)); [set_solver|exact F].
Qed.

Lemma count_run_inv calls : forall st words, count_inv st words -> Forall (fun c => countable c.2) calls -> fresh (dom (ct_store st)) calls ->
  Z.of_nat (length words) + Z.of_nat (length calls) < 9223372036854775808 ->
  exists st', count_run st calls = Ok st' /\ count_inv st' (words ++ map (fun c => word_of c.2) calls).
Proof.
  induction calls as [|[[now p] t] calls IH]; intros st words I F Fr L; cbn [count_run map]; [exists st; now rewrite app_nil_r|].
  apply Forall_cons in F as [Ft F]. destruct Fr as [Np Fr]. cbn [length] in L. apply not_elem_of_dom in Np.
  destruct (count_execute_inv now p st words t I Ft Np ltac:(lia)) as (st1 & E & I1 & D). rewrite E. cbn [obind].
  destruct (IH st1 (words ++ [word_of t]) I1 F) as (st2 & E2 & I2).
  - eapply fresh_less; eauto.
  - rewrite length_app. cbn. lia.
  - exists st2. split; [exact E2|]. rewrite <- app_assoc in I2. exact I2.
Qed.

Lemma count_init_inv : count_inv count_init [].
Proof.
  constructor; cbn; try (unfold NUM_WINDOW_CHUNKS; lia).
  - intros h. unfold counts, collections_hash_find, collections_hash_find_elem, ht_bucket. cbn. now rewrite lookup_empty.
  - intros h h' p. unfold collections_hash_find, collections_hash_find_elem, ht_bucket. cbn. now rewrite lookup_empty.
  - intros p b. now rewrite lookup_empty.
Qed.

(** C24. A counter that has executed tuples returned from every call, and for
    every hash value says how many of the strings it was given have it: strings
    with the same hash are counted together, and nothing that was counted is
    ever taken away. *)
Theorem count_counts calls : Forall (fun c => countable c.2) calls -> fresh ∅ calls -> Z.of_nat (length calls) < 9223372036854775808 ->
  exists st, count_run count_init calls = Ok st /\
    forall h, counts st h (occurrences h (map (fun c => word_of c.2) calls)).
Proof.
  intros F Fr L. destruct (count_run_inv calls count_init [] count_init_inv F) as (st & E & I); [|cbn; lia|].
  - cbn. rewrite dom_empty_L. exact Fr.
  - exists st. split; [exact E|]. exact (cn_counts _ _ I).
Qed.

(** ** The bolts together *)

(** [executor->state] and the static variables of the thread. *)
Inductive bolt_state := bs_spout (s : spout_state) | bs_count (s : count_state) | bs_rank (s : rank_state) | bs_print.

Section Bolts.
Context `{Qsort}.

(** A call of [execute].  The clock, the memory [malloc] gives and what is on
    the stack are arbitrary; [qsort] is only used on counts it can compare. *)
Inductive storm_bolt : executor -> bolt_state -> option tuple -> bolt_state -> list tuple -> Prop :=
| sb_spout x st st' t : x_execute x = spout_execute_b -> spout_execute st = Ok (st', t) ->
    storm_bolt x (bs_spout st) None (bs_spout st') [t]
| sb_count x now p st st' t : x_execute x = count_execute_b -> ct_store st !! p = None -> count_execute now p st t = Ok st' ->
    storm_bolt x (bs_count st) (Some t) (bs_count st') []
| sb_rank x now out st st' t o : x_execute x = rank_execute_b -> tuple_ok out -> Forall counted (t_v t) ->
    rank_execute now out st t = Ok (st', o) ->
    storm_bolt x (bs_rank st) (Some t) (bs_rank st') (option_list o)
| sb_print x t : x_execute x = print_execute_b -> storm_bolt x bs_print (Some t) bs_print [].

Definition entries_ok (rk : list field) : Prop := length rk = S TOP_N /\ Forall entry_ok rk.
Definition storm_bolt_ok (x : executor) (b : bolt_state) : Prop :=
  match b with bs_spout st => Forall str_ok (sp_words st) | bs_rank st => entries_ok (rk_rankings st) | _ => True end.

(** What [strcpy] makes of two arrays of MAX_STR bytes. *)
Lemma strcpy_ok dst src d : str_ok dst -> str_ok src -> strcpy dst src = Ok d -> str_ok d /\ exists s, c_string src = Ok s /\ c_string d = Ok s.
Proof.
  intros Hd [_ Bs] E. unfold strcpy in E. bind_inv E. destruct (Nat.ltb_spec (length a) (length dst)) as [L|]; [|discriminate]. rename E0 into Es.
  destruct (strcpy_str dst src a Hd Bs Es L) as (d' & E' & O & K). unfold strcpy in E'. rewrite Es in E'. cbn [obind] in E'.
  destruct (Nat.ltb_spec (length a) (length dst)); [|discriminate]. rewrite E in E'. injection E' as <-. eauto.
Qed.

Lemma field_zero_ok : field_ok field_zero.
Proof. split; [split; [reflexivity|]; cbn; repeat (constructor; [lia|]); constructor|]. unfold is_s32. cbn. lia. Qed.

Lemma spout_ok st st' t : Forall str_ok (sp_words st) -> spout_execute st = Ok (st', t) -> Forall str_ok (sp_words st') /\ tuple_ok t.
Proof.
  intros F E. unfold spout_execute in E. destruct (sp_words st !! Z.to_nat (sp_i st)) as [w|] eqn:Ew; [|discriminate].
  bind_inv E. injection E as <- <-. split; [exact F|].
  destruct (strcpy_ok _ _ _ (proj1 field_zero_ok) (Forall_lookup_1 _ _ _ _ F Ew) E0) as [O _].
  constructor; cbn -[field_zero]; try (unfold is_s32; lia); [reflexivity|].
  apply Forall_cons. split; [split; [exact O|unfold is_s32; cbn; lia]|]. repeat (apply Forall_cons; split; [exact field_zero_ok|]). constructor.
Qed.

Lemma entries_replace rk i r str n : Forall entry_ok rk -> rk !! i = Some r -> str_ok str -> (exists s, c_string str = Ok s) -> counted (mk_field str n) ->
  Forall entry_ok (<[i := mk_field str n]> rk).
Proof.
  intros F _ O (s & E) C. apply Forall_insert; [exact F|]. constructor; [exact O| |exact C]. cbn. now rewrite (entry_key (mk_field str n) s E).
Qed.

Lemma rank_update_ok rk f rk' : entries_ok rk -> field_ok f -> counted f -> rank_update rk f = Ok rk' -> entries_ok rk'.
Proof.
  intros [L F] [Of _] C E. unfold rank_update in E. bind_inv E.
  assert (G : forall l, length l = length rk -> Forall entry_ok l -> entries_ok (qsort l)).
  { intros l Ll Fl. destruct (qsort_spec l) as [P _]; [eapply Forall_impl; [exact Fl|]; intros g K; apply (en_count g K)|].
    split; [rewrite P; lia|now rewrite P]. }
  destruct a as [i|].
  - destruct (rk !! i) as [r|] eqn:Er; [|discriminate]. injection E as <-. apply G; [apply length_insert|].
    pose proof (Forall_lookup_1 _ _ _ _ F Er) as K. apply (entries_replace _ _ r); auto; [apply K|eexists; apply (en_key _ K)].
  - destruct (rk !! TOP_N) as [r|] eqn:Er; [|discriminate]. bind_inv E. injection E as <-. apply G; [apply length_insert|].
    pose proof (Forall_lookup_1 _ _ _ _ F Er) as K. destruct (strcpy_ok _ _ _ (en_str _ K) Of E1) as (O & s & _ & Es).
    apply (entries_replace _ _ r); eauto.
Qed.

Lemma rank_fields_ok v : forall rk rk', entries_ok rk -> Forall field_ok v -> Forall counted v -> rank_fields rk v = Ok rk' -> entries_ok rk'.
Proof.
  induction v as [|f v IH]; intros rk rk' R F C E; cbn [rank_fields] in E; [now injection E as <-|].
  destruct (f_integer f =? 0); [now injection E as <-|]. apply Forall_cons in F as [Ff F]. apply Forall_cons in C as [Cf C].
  bind_inv E. eapply IH; [|exact F|exact C|exact E]. eapply rank_update_ok; eauto.
Qed.

Lemma rank_execute_ok now out st t st' o : entries_ok (rk_rankings st) -> tuple_ok out -> tuple_ok t -> Forall counted (t_v t) ->
  rank_execute now out st t = Ok (st', o) -> entries_ok (rk_rankings st') /\ Forall tuple_ok (option_list o).
Proof.
  intros R Ko K C E. unfold rank_execute in E. bind_inv E. pose proof (rank_fields_ok _ _ _ R (tk_fields _ K) C E0) as [L F].
  destruct (_ <=? now); [|injection E as <- <-; split; [split; assumption|constructor]].
  pose proof (tk_len _ Ko) as Lo. unfold MAX_VECTOR in Lo.
  destruct (rank_copy_spec (take TOP_N a) (Forall_take _ _ _ F) (t_v out)) as (v & Ev & Mv & Fv).
  { eapply Forall_impl; [apply (tk_fields _ Ko)|]. intros f Kf. apply Kf. }
  { rewrite length_take, L. unfold TOP_N. lia. }
  rewrite Ev in E. cbn [obind] in E. injection E as <- <-. split; [split; assumption|]. cbn [option_list]. apply Forall_singleton.
  apply (f_equal length) in Mv. rewrite !length_map, length_take, L in Mv. constructor; cbn; [apply Ko|apply Ko|apply Ko| |exact Fv].
  rewrite Mv. reflexivity.
Qed.

Lemma storm_bolts x b o b' outs : storm_bolt x b o b' outs -> storm_bolt_ok x b -> (forall t, o = Some t -> tuple_ok t) ->
  storm_bolt_ok x b' /\ Forall tuple_ok outs.
Proof.
  destruct 1 as [x st st' t Hx E|x now p st st' t Hx Hp E|x now out st st' t o Hx Ko C E|x t Hx]; cbn [storm_bolt_ok]; intros Ok Ki.
  - destruct (spout_ok _ _ _ Ok E). split; [assumption|]. now apply Forall_singleton.
  - split; [exact I|constructor].
  - exact (rank_execute_ok now out st t st' o Ok Ko (Ki t eq_refl) C E).
  - split; [exact I|constructor].
Qed.
End Bolts.
