(* ===== verification/StormNic.v ===== *)
(** The emulation of the network card for the stream processor:
    mystorm/flexnic.c without USE_DPDK ([flexnic_thread]), and the queues it
    shares with the workers (FLEXNIC in mystorm/worker.c).

    A slot of these queues is in use while the task of its tuple is not 0.  The
    counters of DEBUG_PERF are left out. *)
From Stdlib Require Import ZArith Lia.
From stdpp Require Import base numbers list functions sets.
From S2P Require Import Prelude StormQueue StormTuple.

Definition BATCH_SIZE : Z := 64.

(** ** Queues *)

Record flexnic_queue := mk_fqueue { fq_head : Z; fq_tail : Z; fq_elems : list tuple }.
#[export] Instance eta_fqueue : Eta flexnic_queue := fun q => mk_fqueue (fq_head q) (fq_tail q) (fq_elems q).

Definition fq_next (i : Z) : Z := (i + 1) mod MAX_ELEMS.
Definition fq_at (q : flexnic_queue) (i : Z) : tuple := default tuple_zero (fq_elems q !! Z.to_nat i).
Definition fq_put (q : flexnic_queue) (i : Z) (t : tuple) : flexnic_queue := q <| fq_elems := <[Z.to_nat i := t]> (fq_elems q) |>.
Definition fq_free (q : flexnic_queue) (i : Z) : bool := t_task (fq_at q i) =? 0.

(** [Spin] while the queue is empty. *)
Definition flexnic_queue_peek (q : flexnic_queue) : outcome tuple :=
  if fq_free q (fq_tail q) then Spin else Ok (fq_at q (fq_tail q)).
Definition flexnic_queue_poll (q : flexnic_queue) : option tuple :=
  if fq_free q (fq_tail q) then None else Some (fq_at q (fq_tail q)).
(** [q->elems[i].task = 0] *)
Definition fq_clear (q : flexnic_queue) (i : Z) : flexnic_queue := fq_put q i (fq_at q i <| t_task := 0 |>).
Definition flexnic_queue_advance (q : flexnic_queue) : flexnic_queue :=
  fq_clear q (fq_tail q) <| fq_tail := fq_next (fq_tail q) |>.
(** [Spin] while the queue is full. *)
Definition flexnic_queue_post (q : flexnic_queue) (t : tuple) : outcome flexnic_queue :=
  if fq_free q (fq_head q) then Ok (fq_put q (fq_head q) t <| fq_head := fq_next (fq_head q) |>) else Spin.

(** ** The card *)

(** The tuples of the output queue from [tail] on, at most [n]: BATCH_SIZE, or
    fewer when BATCH_DELAY has passed. *)
Fixpoint pull_batch (n : nat) (outq : flexnic_queue) (tail : Z) : list tuple :=
  match n with
  | O => []
  | S n => if fq_free outq tail then [] else fq_at outq tail :: pull_batch n outq (fq_next tail)
  end.
(** [stats[task]] *)
Definition stats (batch : list tuple) (task : Z) : nat := length (filter (fun t => t_task t = task) batch).

(** Are [n] slots free, from [myhead] on? *)
Fixpoint slots_free (n : nat) (inq : flexnic_queue) (myhead : Z) : bool :=
  match n with
  | O => true
  | S n => fq_free inq myhead && slots_free n inq (fq_next myhead)
  end.
(** The compare-and-swap that reserves them; [None]: another thread was faster. *)
Definition reserve (n : nat) (inq : flexnic_queue) (head : Z) : option flexnic_queue :=
  if fq_head inq =? head then Some (inq <| fq_head := (head + Z.of_nat n) mod MAX_ELEMS |>) else None.
(** The tuples for [task], to the reserved slots. *)
Fixpoint copy_batch (batch : list tuple) (task : Z) (inq : flexnic_queue) (head : Z) : flexnic_queue :=
  match batch with
  | [] => inq
  | t :: batch => if t_task t =? task then copy_batch batch task (fq_put inq head t) (fq_next head) else copy_batch batch task inq head
  end.
(** The part of a round for one task, nothing interfering (DROP_IF_FULL). *)
Definition deliver_task (batch : list tuple) (task : Z) (inq : flexnic_queue) : flexnic_queue :=
  let n := stats batch task in
  if Nat.eqb n 0 then inq
  else
    let head := fq_head inq in
    if slots_free n inq head then
      match reserve n inq head with Some inq => copy_batch batch task inq head | None => inq end
    else inq.
(** [for (int i = 1; i < MAX_TASKS; i++)] *)
Fixpoint deliver (tasks : list Z) (batch : list tuple) (inqs : Z -> flexnic_queue) : Z -> flexnic_queue :=
  match tasks with
  | [] => inqs
  | i :: tasks => deliver tasks batch (<[i := deliver_task batch i (inqs i)]> inqs)
  end.
Definition task_ids : list Z := seqZ 1 (MAX_TASKS - 1).

Fixpoint clear_batch (n : nat) (outq : flexnic_queue) (tail : Z) : flexnic_queue :=
  match n with O => outq | S n => clear_batch n (fq_clear outq tail) (fq_next tail) end.
Definition batch_done (n : nat) (outq : flexnic_queue) : flexnic_queue :=
  clear_batch n (outq <| fq_tail := (fq_tail outq + Z.of_nat n) mod MAX_ELEMS |>) (fq_tail outq).

(** Is there an input queue for the task? ([task2inqueue], filled by [main]) *)
Definition hosted (ws : list worker) (taskid : Z) : bool := existsb (fun w => hosts w taskid) ws.

(** A round of [flexnic_thread]: the output queue and the input queues by task.
    [known] tells which tasks have an input queue.  A task out of range is
    [Crash]: [stats] has MAX_TASKS entries; so is one that no worker has: its
    queue is a null pointer. *)
Definition flexnic_round (known : Z -> bool) (n : nat) (outq : flexnic_queue) (inqs : Z -> flexnic_queue) : outcome (flexnic_queue * (Z -> flexnic_queue)) :=
  let batch := pull_batch n outq (fq_tail outq) in
  if forallb (fun t => (0 <=? t_task t) && (t_task t <? MAX_TASKS) && known (t_task t)) batch
  then Ok (batch_done (length batch) outq, deliver task_ids batch inqs)
  else Crash.

(** ** Contents *)

(** The slots from [tail] on hold [l] and nothing else. *)
Record fq_holds (elems : list tuple) (tail : Z) (l : list tuple) : Prop := {
  fh_len : length elems = Z.to_nat MAX_ELEMS;
  fh_tail : 0 <= tail < MAX_ELEMS;
  fh_room : Z.of_nat (length l) <= MAX_ELEMS;
  fh_tasks : Forall (fun t => t_task t <> 0) l;
  fh_in : forall i, 0 <= i < Z.of_nat (length l) -> elems !! Z.to_nat ((tail + i) mod MAX_ELEMS) = l !! Z.to_nat i;
  fh_out : forall i, Z.of_nat (length l) <= i < MAX_ELEMS -> exists t, elems !! Z.to_nat ((tail + i) mod MAX_ELEMS) = Some t /\ t_task t = 0 }.
Definition fq_rep (q : flexnic_queue) (l : list tuple) : Prop :=
  fq_holds (fq_elems q) (fq_tail q) l /\ fq_head q = (fq_tail q + Z.of_nat (length l)) mod MAX_ELEMS.

Lemma mod_range i : 0 <= i mod MAX_ELEMS < MAX_ELEMS.
Proof. apply Z.mod_pos_bound. reflexivity. Qed.
Lemma fq_next_mod i : fq_next (i mod MAX_ELEMS) = (i + 1) mod MAX_ELEMS.
Proof. apply Zplus_mod_idemp_l. Qed.
(** Different offsets are different slots. *)
Lemma slot_ne tail i j : 0 <= i < MAX_ELEMS -> 0 <= j < MAX_ELEMS -> i <> j ->
  Z.to_nat ((tail + i) mod MAX_ELEMS) <> Z.to_nat ((tail + j) mod MAX_ELEMS).
Proof.
  intros Hi Hj N. pose proof (mod_range (tail + i)). pose proof (mod_range (tail + j)). intros E. apply N.
  assert (E' : (tail + i) mod MAX_ELEMS = (tail + j) mod MAX_ELEMS) by lia. clear -Hi Hj E'. unfold MAX_ELEMS in *. Z.div_mod_to_equations. lia.
Qed.

Section Holds.
Context (q : flexnic_queue) (l : list tuple) (R : fq_holds (fq_elems q) (fq_tail q) l).

Lemma holds_free i : 0 <= i < MAX_ELEMS -> fq_free q ((fq_tail q + i) mod MAX_ELEMS) = (Z.of_nat (length l) <=? i).
Proof.
  intros Hi. unfold fq_free, fq_at. destruct (Z.leb_spec (Z.of_nat (length l)) i) as [G|G].
  - destruct (fh_out _ _ _ R i) as (t & E & T0); [lia|]. rewrite E. now apply Z.eqb_eq.
  - rewrite (fh_in _ _ _ R i) by lia. destruct (lookup_lt_is_Some_2 l (Z.to_nat i)) as [t E]; [lia|]. rewrite E. apply Z.eqb_neq.
    pose proof (fh_tasks _ _ _ R) as F. exact (Forall_lookup_1 _ _ _ _ F E).
Qed.
Lemma holds_at i t : l !! Z.to_nat i = Some t -> 0 <= i -> fq_at q ((fq_tail q + i) mod MAX_ELEMS) = t.
Proof.
  intros E Hi. unfold fq_at. pose proof (lookup_lt_Some _ _ _ E). rewrite (fh_in _ _ _ R i) by lia. now rewrite E.
Qed.
(** A tuple behind the others. *)
Lemma holds_put t : Z.of_nat (length l) < MAX_ELEMS -> t_task t <> 0 ->
  fq_holds (fq_elems (fq_put q ((fq_tail q + Z.of_nat (length l)) mod MAX_ELEMS) t)) (fq_tail q) (l ++ [t]).
Proof.
  intros L N. destruct R. cbn [fq_put fq_elems upd]. constructor; auto.
  - cbn. now rewrite length_insert.
  - rewrite length_app. cbn. lia.
  - apply Forall_app. split; [assumption|]. now apply Forall_singleton.
  - rewrite length_app. cbn [length]. intros i Hi. cbn. destruct (Z.eqb_spec i (Z.of_nat (length l))) as [->|Ni].
    + pose proof (mod_range (fq_tail q + Z.of_nat (length l))). rewrite list_lookup_insert_eq by lia.
      rewrite lookup_app_r by lia. replace (Z.to_nat (Z.of_nat (length l)) - length l)%nat with 0%nat by lia. reflexivity.
    + rewrite list_lookup_insert_ne by (apply slot_ne; lia). rewrite fh_in0 by lia. symmetry. apply lookup_app_l. lia.
  - rewrite length_app. cbn [length]. intros i Hi. cbn. rewrite list_lookup_insert_ne by (apply slot_ne; lia). apply fh_out0. lia.
Qed.
(** The first tuple goes. *)
Lemma holds_clear t l' : l = t :: l' -> fq_holds (fq_elems (fq_clear q (fq_tail q))) (fq_next (fq_tail q)) l'.
Proof.
  intros ->. destruct R. cbn [length] in *.
  assert (T0 : fq_tail q = (fq_tail q + 0) mod MAX_ELEMS) by (rewrite Z.add_0_r, Z.mod_small by lia; reflexivity).
  assert (Ne : forall i, 0 < i < MAX_ELEMS -> Z.to_nat (fq_tail q) <> Z.to_nat ((fq_tail q + i) mod MAX_ELEMS)).
  { intros i Hi. pose proof (slot_ne (fq_tail q) 0 i) as N. rewrite <- T0 in N. apply N; lia. }
  assert (Sh : forall i, (fq_next (fq_tail q) + i) mod MAX_ELEMS = (fq_tail q + (i + 1)) mod MAX_ELEMS).
  { intros i. unfold fq_next. rewrite Zplus_mod_idemp_l. f_equal. lia. }
  constructor.
  - cbn. now rewrite length_insert.
  - apply mod_range.
  - lia.
  - now inversion fh_tasks0.
  - intros i Hi. cbn. rewrite Sh, list_lookup_insert_ne by (apply Ne; lia). rewrite fh_in0 by lia.
    replace (Z.to_nat (i + 1)) with (S (Z.to_nat i)) by lia. reflexivity.
  - intros i Hi. cbn. rewrite Sh. destruct (Z.eqb_spec (i + 1) MAX_ELEMS) as [E|N].
    + rewrite E. replace ((fq_tail q + MAX_ELEMS) mod MAX_ELEMS) with (fq_tail q).
      * eexists. rewrite list_lookup_insert_eq by lia. split; reflexivity.
      * unfold MAX_ELEMS in *. Z.div_mod_to_equations. lia.
    + rewrite list_lookup_insert_ne by (apply Ne; lia). apply fh_out0. lia.
Qed.
End Holds.

(** ** Operations *)

Lemma tail_slot q l : fq_holds (fq_elems q) (fq_tail q) l -> (fq_tail q + 0) mod MAX_ELEMS = fq_tail q.
Proof. intros R. rewrite Z.add_0_r. apply Z.mod_small, (fh_tail _ _ _ R). Qed.

Lemma flexnic_peek_spec q t l : fq_rep q (t :: l) -> flexnic_queue_peek q = Ok t /\ flexnic_queue_poll q = Some t.
Proof.
  intros [R _]. pose proof (holds_free q (t :: l) R 0) as Fr. pose proof (holds_at q (t :: l) R 0 t eq_refl) as At.
  rewrite (tail_slot _ _ R) in Fr, At. unfold flexnic_queue_peek, flexnic_queue_poll. rewrite Fr, At by (unfold MAX_ELEMS; lia). auto.
Qed.
Lemma flexnic_peek_empty q : fq_rep q [] -> flexnic_queue_peek q = Spin /\ flexnic_queue_poll q = None.
Proof.
  intros [R _]. pose proof (holds_free q [] R 0) as Fr. rewrite (tail_slot _ _ R) in Fr.
  unfold flexnic_queue_peek, flexnic_queue_poll. rewrite Fr by (unfold MAX_ELEMS; lia). auto.
Qed.
Lemma flexnic_advance_spec q t l : fq_rep q (t :: l) -> fq_rep (flexnic_queue_advance q) l.
Proof.
  intros [R Hd]. split; [exact (holds_clear q _ R t l eq_refl)|]. cbn -[Z.modulo]. rewrite Hd. unfold fq_next. rewrite Zplus_mod_idemp_l.
  f_equal. cbn [length]. lia.
Qed.
Lemma flexnic_post_spec q l t : fq_rep q l -> t_task t <> 0 ->
  if Z.of_nat (length l) <? MAX_ELEMS then exists q', flexnic_queue_post q t = Ok q' /\ fq_rep q' (l ++ [t]) else flexnic_queue_post q t = Spin.
Proof.
  intros [R Hd] N. unfold flexnic_queue_post. pose proof (fh_room _ _ _ R). rewrite Hd. destruct (Z.ltb_spec (Z.of_nat (length l)) MAX_ELEMS).
  - rewrite (holds_free q l R) by lia. destruct (Z.leb_spec (Z.of_nat (length l)) (Z.of_nat (length l))); [|lia].
    eexists. split; [reflexivity|]. split; [exact (holds_put q l R t ltac:(lia) N)|]. cbn -[Z.modulo]. rewrite fq_next_mod, length_app. f_equal. cbn. lia.
  - assert (E : (fq_tail q + Z.of_nat (length l)) mod MAX_ELEMS = (fq_tail q + 0) mod MAX_ELEMS).
    { replace (Z.of_nat (length l)) with MAX_ELEMS by lia. unfold MAX_ELEMS. Z.div_mod_to_equations. lia. }
    rewrite E, (holds_free q l R) by (unfold MAX_ELEMS; lia). destruct (Z.leb_spec (Z.of_nat (length l)) 0); [unfold MAX_ELEMS in *; lia|reflexivity].
Qed.

Lemma pull_batch_spec n q l : fq_holds (fq_elems q) (fq_tail q) l -> forall k, (k <= length l)%nat -> Z.of_nat k + Z.of_nat n <= MAX_ELEMS ->
  pull_batch n q ((fq_tail q + Z.of_nat k) mod MAX_ELEMS) = take n (drop k l).
Proof.
  intros R. induction n as [|n IH]; intros k Hk L; [reflexivity|]. cbn [pull_batch]. rewrite (holds_free q l R) by lia.
  destruct (Z.leb_spec (Z.of_nat (length l)) (Z.of_nat k)).
  - rewrite drop_ge by lia. reflexivity.
  - destruct (lookup_lt_is_Some_2 l k) as [t E]; [lia|]. rewrite (holds_at q l R (Z.of_nat k) t) by (rewrite ?Nat2Z.id; auto; lia).
    rewrite (drop_S l t k E). cbn [take]. f_equal. rewrite <- IH by lia. f_equal. rewrite fq_next_mod. f_equal. lia.
Qed.

Lemma slots_free_spec n q l : fq_holds (fq_elems q) (fq_tail q) l -> (Z.of_nat n <= MAX_ELEMS) -> forall k, Z.of_nat (length l) <= k -> k <= MAX_ELEMS ->
  k + Z.of_nat n <= Z.of_nat (length l) + MAX_ELEMS ->
  slots_free n q ((fq_tail q + k) mod MAX_ELEMS) = Nat.eqb n 0 || (Nat.eqb (length l) 0) || (k + Z.of_nat n <=? MAX_ELEMS).
Proof.
  intros R. induction n as [|n IH]; intros Ln k Hl Hk Hm; [reflexivity|]. cbn [slots_free]. rewrite fq_next_mod.
  destruct (Z.eqb_spec k MAX_ELEMS) as [->|Nk].
  - assert (E : (fq_tail q + MAX_ELEMS) mod MAX_ELEMS = (fq_tail q + 0) mod MAX_ELEMS) by (unfold MAX_ELEMS; Z.div_mod_to_equations; lia).
    rewrite E, (holds_free q l R) by (unfold MAX_ELEMS; lia).
    destruct (Z.leb_spec (MAX_ELEMS + Z.of_nat (S n)) MAX_ELEMS); [lia|]. cbn [Nat.eqb orb].
    destruct (Z.leb_spec (Z.of_nat (length l)) 0).
    + exfalso. unfold MAX_ELEMS in *. lia.
    + destruct (Nat.eqb_spec (length l) 0); [lia|reflexivity].
  - rewrite (holds_free q l R) by lia. destruct (Z.leb_spec (Z.of_nat (length l)) k); [|lia]. cbn [andb].
    rewrite <- Z.add_assoc, IH by lia. cbn [Nat.eqb orb]. replace (k + 1 + Z.of_nat n) with (k + Z.of_nat (S n)) by lia.
    destruct (Nat.eqb_spec n 0) as [->|]; [|reflexivity]. cbn [orb]. destruct (Z.leb_spec (k + Z.of_nat 1) MAX_ELEMS); [now rewrite orb_true_r|lia].
Qed.

(** The tuples of a batch for one task. *)
Definition for_task (i : Z) (batch : list tuple) : list tuple := filter (fun t => t_task t = i) batch.

Lemma copy_batch_spec batch i : i <> 0 -> forall q l head, fq_holds (fq_elems q) (fq_tail q) l ->
  Z.of_nat (length l + length (for_task i batch)) <= MAX_ELEMS -> head = (fq_tail q + Z.of_nat (length l)) mod MAX_ELEMS ->
  let q' := copy_batch batch i q head in
  fq_holds (fq_elems q') (fq_tail q') (l ++ for_task i batch) /\ fq_tail q' = fq_tail q /\ fq_head q' = fq_head q.
Proof.
  intros Ni. induction batch as [|t batch IH]; intros q l head R L Hh; cbn [copy_batch for_task].
  - rewrite app_nil_r. auto.
  - unfold for_task in *. rewrite filter_cons in *. destruct (Z.eqb_spec (t_task t) i) as [E|N].
    + rewrite decide_True in * by assumption. cbn [length] in L. subst head.
      assert (R' : fq_holds (fq_elems (fq_put q ((fq_tail q + Z.of_nat (length l)) mod MAX_ELEMS) t)) (fq_tail q) (l ++ [t])).
      { apply holds_put; [exact R|lia|congruence]. }
      destruct (IH (fq_put q ((fq_tail q + Z.of_nat (length l)) mod MAX_ELEMS) t) (l ++ [t]) (fq_next ((fq_tail q + Z.of_nat (length l)) mod MAX_ELEMS)) R') as (A & B & C).
      { rewrite length_app. cbn. lia. }
      { rewrite fq_next_mod, length_app. cbn [length]. cbn -[Z.modulo]. f_equal. lia. }
      rewrite <- app_assoc in A. auto.
    + rewrite decide_False in * by assumption. apply (IH q l head); auto.
Qed.

(** One input queue: its part of the batch is appended when there is room for
    all of it, and dropped otherwise. *)
Definition delivered (i : Z) (batch l : list tuple) : list tuple :=
  if Z.of_nat (length l + length (for_task i batch)) <=? MAX_ELEMS then l ++ for_task i batch else l.

Lemma deliver_task_spec batch i q l : i <> 0 -> Z.of_nat (length batch) <= MAX_ELEMS -> fq_rep q l ->
  fq_rep (deliver_task batch i q) (delivered i batch l).
Proof.
  intros Ni Lb [R Hd]. unfold deliver_task, delivered, stats. fold (for_task i batch). pose proof (fh_room _ _ _ R) as Ro.
  assert (Ls : (length (for_task i batch) <= length batch)%nat) by apply length_filter.
  destruct (Nat.eqb_spec (length (for_task i batch)) 0) as [E0|N0].
  - apply length_zero_iff_nil in E0. rewrite E0, app_nil_r. destruct (_ <=? _); split; assumption.
  - rewrite Hd, (slots_free_spec _ q l R) by lia. cbn [Nat.eqb].
    replace (Nat.eqb (length (for_task i batch)) 0) with false by (symmetry; now apply Nat.eqb_neq). cbn [orb].
    replace (Nat.eqb (length l) 0 || (Z.of_nat (length l) + Z.of_nat (length (for_task i batch)) <=? MAX_ELEMS))
      with (Z.of_nat (length l + length (for_task i batch)) <=? MAX_ELEMS).
    2:{ rewrite Nat2Z.inj_add. destruct (Nat.eqb_spec (length l) 0) as [->|]; [|reflexivity]. cbn [orb]. apply Z.leb_le. lia. }
    destruct (Z.leb_spec (Z.of_nat (length l + length (for_task i batch))) MAX_ELEMS) as [G|G]; [|split; assumption].
    unfold reserve. rewrite Hd, Z.eqb_refl. set (q1 := q <| fq_head := _ |>).
    destruct (copy_batch_spec batch i Ni q1 l ((fq_tail q + Z.of_nat (length l)) mod MAX_ELEMS) R G eq_refl) as (A & B & C).
    split; [exact A|]. rewrite C, B. cbn -[Z.modulo]. rewrite Zplus_mod_idemp_l, length_app. f_equal. lia.
Qed.

Lemma deliver_spec tasks batch : Forall (fun i => i <> 0) tasks -> NoDup tasks -> Z.of_nat (length batch) <= MAX_ELEMS -> forall qs ls,
  (forall i, fq_rep (qs i) (ls i)) ->
  forall i, fq_rep (deliver tasks batch qs i) (if decide (i ∈ tasks) then delivered i batch (ls i) else ls i).
Proof.
  intros F. induction F as [|k tasks Nk F IH]; intros ND L qs ls R i; cbn [deliver]; [now rewrite decide_False by apply not_elem_of_nil|].
  apply NoDup_cons in ND as [Nin ND'].
  specialize (IH ND' L (<[k := deliver_task batch k (qs k)]> qs) (<[k := delivered k batch (ls k)]> ls)).
  assert (R' : forall j, fq_rep (<[k := deliver_task batch k (qs k)]> qs j) (<[k := delivered k batch (ls k)]> ls j)).
  { intros j. destruct (decide (j = k)) as [->|]; [rewrite !fn_lookup_insert; apply deliver_task_spec; auto|now rewrite !fn_lookup_insert_ne by congruence]. }
  specialize (IH R' i). destruct (decide (i = k)) as [->|N].
  - rewrite decide_False in IH by assumption. rewrite fn_lookup_insert in IH. rewrite decide_True by (left; reflexivity). exact IH.
  - rewrite fn_lookup_insert_ne in IH by congruence. destruct (decide (i ∈ tasks)); [rewrite decide_True by (right; assumption)|rewrite decide_False by (rewrite elem_of_cons; tauto)]; exact IH.
Qed.

Lemma clear_batch_spec n : forall q q0 l, fq_holds (fq_elems q) (fq_tail q) l -> (n <= length l)%nat -> fq_elems q0 = fq_elems q ->
  fq_holds (fq_elems (clear_batch n q0 (fq_tail q))) ((fq_tail q + Z.of_nat n) mod MAX_ELEMS) (drop n l) /\
  fq_tail (clear_batch n q0 (fq_tail q)) = fq_tail q0 /\ fq_head (clear_batch n q0 (fq_tail q)) = fq_head q0.
Proof.
  induction n as [|n IH]; intros q q0 l R L E.
  - cbn [clear_batch drop]. change (Z.of_nat 0) with 0. rewrite (tail_slot _ _ R), E. auto.
  - destruct l as [|t l]; [cbn in L; lia|]. cbn [clear_batch].
    pose proof (holds_clear q _ R t l eq_refl) as R'. set (q1 := fq_clear q (fq_tail q) <| fq_tail := fq_next (fq_tail q) |>).
    destruct (IH q1 (fq_clear q0 (fq_tail q)) l R') as (A & B & C); [cbn in L; lia|unfold fq_clear, fq_put, fq_at; cbn; now rewrite E|].
    change (fq_tail q1) with (fq_next (fq_tail q)) in *. split; [|auto].
    replace ((fq_tail q + Z.of_nat (S n)) mod MAX_ELEMS) with ((fq_next (fq_tail q) + Z.of_nat n) mod MAX_ELEMS); [exact A|].
    unfold fq_next. rewrite Zplus_mod_idemp_l. f_equal. lia.
Qed.

Lemma task_ids_ok : Forall (fun i => i <> 0) task_ids /\ NoDup task_ids.
Proof. split; [|apply NoDup_seqZ]. apply Forall_forall. intros i. unfold task_ids. rewrite elem_of_seqZ. lia. Qed.

(** C25. A round of the card that nothing interferes with takes the first tuples
    of an output queue, as many as the batch has, out of it, and appends those
    for each task to its queue, in order, unless it has not room for all of
    them: then these are dropped. *)
Theorem flexnic_round_delivers known n outq inqs l ls : Z.of_nat n <= BATCH_SIZE -> fq_rep outq l -> (forall i, fq_rep (inqs i) (ls i)) ->
  Forall (fun t => 0 < t_task t < MAX_TASKS /\ known (t_task t) = true) l ->
  let batch := take n l in
  exists outq' inqs', flexnic_round known n outq inqs = Ok (outq', inqs') /\ fq_rep outq' (drop n l) /\
    forall i, fq_rep (inqs' i) (if decide (1 <= i < MAX_TASKS) then delivered i batch (ls i) else ls i).
Proof.
  intros Ln [R Hd] Ri F batch. unfold flexnic_round.
  assert (Ep : pull_batch n outq (fq_tail outq) = batch).
  { pose proof (pull_batch_spec n outq l R 0 ltac:(lia)) as E. change (Z.of_nat 0) with 0 in E. rewrite (tail_slot _ _ R) in E. apply E. unfold BATCH_SIZE, MAX_ELEMS in *. lia. }
  rewrite Ep. pose proof (length_take l n : length batch = _) as Lb.
  replace (forallb _ batch) with true.
  2:{ symmetry. apply forallb_forall. intros t Ht. apply list_elem_of_In, elem_of_take_in in Ht. rewrite Forall_forall in F. destruct (F t Ht) as [F1 F2].
      rewrite F2, andb_true_r. apply andb_true_iff. rewrite Z.leb_le, Z.ltb_lt. lia. }
  eexists _, _. split; [reflexivity|]. split.
  - unfold batch_done. destruct (clear_batch_spec (length batch) outq (outq <| fq_tail := (fq_tail outq + Z.of_nat (length batch)) mod MAX_ELEMS |>) l R) as (A & B & C); [lia|reflexivity|].
    assert (Ed : drop (length batch) l = drop n l).
    { destruct (Nat.leb_spec n (length l)); [f_equal; lia|]. rewrite !drop_ge by lia. reflexivity. }
    rewrite Ed in A. split; [rewrite B; exact A|]. rewrite C, B. cbn -[Z.modulo]. rewrite Hd, Zplus_mod_idemp_l. f_equal. rewrite <- Ed, length_drop. lia.
  - intros i. destruct task_ids_ok as [F1 F2].
    pose proof (deliver_spec task_ids batch F1 F2 ltac:(unfold BATCH_SIZE, MAX_ELEMS in *; lia) inqs ls Ri i) as D.
    destruct (decide (i ∈ task_ids)) as [E|E]; unfold task_ids in E; rewrite elem_of_seqZ in E;
      [rewrite decide_True by (unfold MAX_TASKS in *; lia)|rewrite decide_False by (unfold MAX_TASKS in *; lia)]; exact D.
Qed.
