(* ===== verification/Examples.v ===== *)
(** Concrete runs: every theorem of the development that has hypotheses,
    applied to a state on which they hold. *)
From stdpp Require Import base numbers list gmap relations.
From Stdlib Require Import ZArith Lia.
From S2P Require Import Prelude LinkedList Packet FlowState TcpCommon Qman Dma Circ FastPath FastRx.
From S2P Require Import Stream TxPath RxPath Handlers Queues Dataplane NicIf FlowTable CC PacketMem System.

(** ** Fixtures *)

Definition ex_hash (key : list Z) : Z := byte_at key 9.
#[export] Instance ex_platform : Platform :=
  mk_platform ex_hash (fun _ => 0) (fun _ _ => true) [2;0;0;0;0;1] 0 (fun _ => 0) 100.

(** A connection with 4096-byte buffers, receiving from sequence number 1000
    and sending from 5000. *)
Definition ex_params : flow_params :=
  mk_flow_params 0 0 1 80 2 90 0 4096 4096 4096 1000 5000 77 0 0 0 0.
Definition ex_flow : flowst := flow_init zero_flowst ex_params 3.

(** The same with five bytes to send. *)
Definition ex_tx_flow : flowst := ex_flow <| fs_tx_head := 5 |>.
Definition ex_bytes : Z -> Z := fun i => i + 1.
Definition ex_mem : mem := mem_write ∅ 4096 [1; 2; 3; 4; 5].
Definition ex_world (fs : flowst) : fp :=
  mk_fp 0 {[ 0 := fs ]} ∅ {[ 3 := 0 ]} {[ 0 := mk_appctx 8192 0 64 0 0 0 0 0 5 0 ]} ∅ ∅ {[ 0 := 0 ]} ex_mem
    (qman_thread_init 0 0) [] [] [].

(** The handle of the buffer a handler is given. *)
Definition ex_nbh : Z := 77.

(** A data segment with the payload 1, 2, 3 and the sequence number [seq]. *)
Definition ex_pkt (seq : Z) : pkt_tcp :=
  mk_pkt_tcp (mk_eth_hdr [2;0;0;0;0;1] [2;0;0;0;0;2] (t_beui16 ETH_TYPE_IP))
    (mk_ip_hdr 69 0 (t_beui16 55) (t_beui16 0) (t_beui16 0) 64 IP_PROTO_TCP 0 (t_beui32 2) (t_beui32 1))
    (mk_tcp_hdr (t_beui16 90) (t_beui16 80) (t_beui32 seq) (t_beui32 5000)
       (TCPH_HDRLEN_FLAGS 8 TCP_ACK) (t_beui16 4096) 0 (t_beui16 0))
    [1; 1; 8; 10; 0; 0; 0; 1; 0; 0; 0; 2; 1; 2; 3].

Ltac ranges := unfold is_u16, is_u32, rxwin_ok, txbuf_ok in *; cbn; repeat split; lia.

(** ** Sequence numbers and windows *)

(** The new segment [1000, 1010) of a window of 100 bytes at 1005: the first
    five bytes are old. *)
Definition ex_win : flowst := zero_flowst <| fs_rx_next_seq := 1005 |> <| fs_rx_avail := 100 |>.

Lemma tcp_valid_rxseq_spec_witness : tcp_valid_rxseq ex_win 1000 10 = Some (5, 0).
Proof. rewrite (tcp_valid_rxseq_spec ex_win 1000 10) by ranges. reflexivity. Defined.

Lemma tcp_trim_rxbuf_spec_witness :
  tcp_trim_rxbuf ex_win 1100 10 = Some (0, 5) /\
  tcp_trim_rxbuf (ex_win <| fs_rx_next_seq := 4294967000 |>) 4294967050 1000 = Some (0, 0).
Proof.
  split.
  - rewrite (tcp_trim_rxbuf_spec ex_win 1100 10) by ranges. reflexivity.
  - rewrite (tcp_trim_rxbuf_spec _ 4294967050 1000) by ranges. reflexivity.
Defined.

(** 20 bytes in flight from sequence number 4980, 30 more in the buffer. *)
Definition ex_flight : flowst :=
  zero_flowst <| fs_tx_len := 4096 |> <| fs_tx_next_pos := 20 |> <| fs_tx_head := 50 |>
              <| fs_tx_next_seq := 5000 |> <| fs_tx_sent := 20 |> <| fs_rx_remote_avail := 40 |>.

Lemma tcp_valid_rxack_spec_witness :
  tcp_valid_rxack ex_flight 5030 = Some 50 /\ tcp_valid_rxack ex_flight 5031 = None /\
  tcp_valid_rxack ex_flight 4979 = None.
Proof. split; [|split]; rewrite tcp_valid_rxack_spec by ranges; reflexivity. Defined.

Lemma tcp_txavail_spec_witness :
  tcp_txavail ex_flight None = 20 /\ tcp_txavail (ex_flight <| fs_rx_remote_avail := 10 |>) None = 30.
Proof. split; rewrite tcp_txavail_spec by ranges; reflexivity. Defined.

(** Options that start with a zero-length option. *)
Definition ex_bad_opts : pkt_tcp := let p := ex_pkt 1000 in
  mk_pkt_tcp (p_eth p) (p_ip p) (p_tcp p) [5; 0; 0; 0; 0; 0; 0; 0; 0; 0; 0; 0; 1; 2; 3].

Lemma tcp_parse_options_hangs_iff_witness : tcp_parse_options 1000000 ex_bad_opts 69 = Spin.
Proof.
  apply (tcp_parse_options_hangs_iff ex_bad_opts 69); [vm_compute; congruence | split; vm_compute; congruence | | reflexivity].
  repeat constructor; cbn; lia.
Defined.

(** ** The queue manager *)

Lemma rel_time_spec_witness : 4 = u32 (4294967290 + rel_time 4294967290 4).
Proof. apply rel_time_spec; ranges. Defined.

(** Queues 1 and 2 have a backlog and no rate, in this order. *)
Definition ex_qman : qman_thread :=
  let q b := mk_queue [IDXLIST_INVAL; 0; 0; 0] 0 0 b 1448 0 FLAG_INNOLIMITL in
  qman_thread_init 0 0 <| qt_nolimit_head := 1 |> <| qt_nolimit_tail := 2 |>
    <| qt_queues := {[ 1 := mk_queue [2; 0; 0; 0] 0 0 2000 1448 7 FLAG_INNOLIMITL; 2 := q 10 ]} |>.

Lemma queue_fire_conserves_witness :
  match queue_fire 5 (ex_qman <| qt_queues := {[ 1 := mk_queue [0; 0; 0; 0] 0 0 2000 1448 7 0 ]} |>) 1 with
  | Ok (t', f) => f_bytes f = 1448 /\ q_avail (qget t' 1) + 1448 = 2000
  | _ => False
  end.
Proof.
  destruct (queue_fire _ _ _) as [[t' f]| |] eqn:E; [|discriminate E..].
  apply queue_fire_conserves in E as (_ & _ & B & A & _); [|vm_compute; intuition congruence..].
  rewrite B in A. split; [exact B | exact A].
Defined.

Lemma ex_qget i : qget ex_qman i =
  if decide (i = 1) then mk_queue [2; 0; 0; 0] 0 0 2000 1448 7 FLAG_INNOLIMITL
  else if decide (i = 2) then mk_queue [IDXLIST_INVAL; 0; 0; 0] 0 0 10 1448 0 FLAG_INNOLIMITL
  else zero_queue.
Proof.
  unfold qget, ex_qman. qm_cbn. unfold lookup_total, map_lookup_total.
  destruct (decide (i = 1)) as [->|H1]; [reflexivity|]. rewrite lookup_insert_ne by auto.
  destruct (decide (i = 2)) as [->|H2]; [reflexivity|]. rewrite lookup_singleton_ne by auto. reflexivity.
Qed.

Lemma ex_qman_nolimit : nolimit_rep ex_qman [1; 2].
Proof.
  split; try reflexivity.
  - repeat (apply chain_cons || apply chain_nil).
  - apply NoDup_cons; split; [set_solver|]. apply NoDup_singleton.
  - intros i. rewrite ex_qget. rewrite elem_of_cons, list_elem_of_singleton.
    repeat case_decide; subst; cbn; intuition (congruence || lia).
  - intros i. rewrite ex_qget. repeat case_decide; reflexivity.
  - intros i. rewrite elem_of_cons, list_elem_of_singleton. unfold IDXLIST_INVAL. lia.
  - intros i. rewrite ex_qget. repeat case_decide; reflexivity.
Qed.

(** Polling for one queue serves queue 1, which goes behind queue 2. *)
Lemma poll_nolimit_fifo_witness :
  exists t' f, poll_nolimit 10 ex_qman 1 = Ok (t', [f]) /\ f_id f = 1 /\ nolimit_rep t' [2; 1].
Proof.
  destruct (poll_nolimit_fifo 10 ex_qman [1; 2] 1) as (t' & fs & E & M & R).
  - exact ex_qman_nolimit.
  - cbn; lia.
  - lia.
  - intros i Hi. apply list_elem_of_singleton in Hi as ->. vm_compute. intuition congruence.
  - destruct fs as [|f [|]]; [discriminate M | | discriminate M]. injection M as M.
    exists t', f. split; [exact E|]. split; [exact M | exact R].
Defined.

(** ** Circular buffers *)

Lemma circ_read_write_witness :
  circ_read (circ_write (circ_write ∅ [1; 2; 3; 4] 100 8 6) [5; 6] 100 8 2) 100 8 6 4 = [1; 2; 3; 4].
Proof. apply (circ_read_write ∅ [1; 2; 3; 4] [5; 6] 100 8 6 2); cbn; (lia || (vm_compute; intuition congruence)). Defined.

(** ** Streams *)

Lemma ex_params_ok : params_ok ex_params.
Proof. split; vm_compute; intuition congruence. Qed.

Lemma ex_flow_reps m : TxRep 5000 ex_flow (mk_tx_stream 0 0 0) /\ RxRep 1000 ex_bytes m ex_flow (mk_rx_stream 0 4096 None).
Proof. exact (flow_init_rep ex_params 3 zero_flowst ex_bytes m ex_params_ok eq_refl). Qed.

Lemma ex_tx_rep : TxRep 5000 ex_tx_flow (mk_tx_stream 0 0 5).
Proof. split; vm_compute; intuition congruence. Qed.

(** An acknowledgement of all five bytes before any was sent is accepted. *)
Lemma rx_ack_refines_witness : exists s',
  rtc tx_step (mk_tx_stream 0 0 5) s' /\ txs_acked s' = 0 + 5 /\ txs_head s' = 5.
Proof.
  set (p := ex_pkt 1000). set (q := mk_pkt_tcp (p_eth p) (p_ip p) (p_tcp p <| tcp_ackno := t_beui32 5005 |>) []).
  destruct (rx_ack_refines 5000 ex_tx_flow (mk_tx_stream 0 0 5) q 0
              (fst (fst (rx_ack ex_tx_flow q 0))) 5 false ex_tx_rep) as (s' & St & _ & Ea & Eh & _).
  - vm_compute. reflexivity.
  - exists s'. split; [exact St|]. split; [exact Ea | exact Eh].
Defined.

Lemma ex_tx_holds : tx_holds ex_bytes (fp_mem (ex_world ex_tx_flow)) ex_tx_flow (mk_tx_stream 0 0 5).
Proof.
  intros i Hi. cbn in Hi.
  assert (i = 0 \/ i = 1 \/ i = 2 \/ i = 3 \/ i = 4) as Hc by lia.
  destruct Hc as [->|[->|[->|[->| ->]]]]; vm_compute; reflexivity.
Qed.

Lemma fast_flows_qman_sends_witness :
  exists k w', fast_flows_qman (ex_world ex_tx_flow) ex_nbh 3 42 = Ok (0, w') /\ 0 < k <= TCP_MSS /\   TxRep 5000 (get_flow w' 0) (mk_tx_stream 0 k 5) /\ fs_lock (get_flow w' 0) = 0.
Proof.
  destruct (fast_flows_qman_sends (nbh := ex_nbh) (ex_world ex_tx_flow) 3 42 5000 ex_bytes (mk_tx_stream 0 0 5))
    as (k & w' & pk & E & Hk & _ & _ & _ & _ & _ & R & L & _); try reflexivity.
  - vm_compute; congruence.
  - exact ex_tx_rep.
  - vm_compute; intuition congruence.
  - exact ex_tx_holds.
  - vm_compute; congruence.
  - exists k, w'. split; [exact E|]. split; [exact Hk|]. split; [exact R | exact L].
Defined.

Lemma ex_segment seq j : seq = 1000 + j -> 0 <= j <= 1 ->
  segment_of 1000 (fun i => ex_bytes (i - j)) 0 (ex_pkt seq).
Proof.
  intros -> Hj. exists j. assert (j = 0 \/ j = 1) as [-> | ->] by lia;
    (split; [reflexivity|]; split; [lia|]; split; [vm_compute; reflexivity|]);
    intros i Hi; assert (i = 0 \/ i = 1 \/ i = 2) as [->|[->| ->]] by (change (rx_payload_bytes _) with 3 in Hi; lia);
    reflexivity.
Qed.

(** Three bytes in order are delivered to the empty connection. *)
Lemma rx_process_delivers_witness : exists fs' m p' rx_bump tx_bump,
  rx_process (ex_world ex_flow) ex_flow (ex_pkt 1000) 0 7 = Ok (rx_unlock fs' m p' rx_bump tx_bump true) /\
  delivered 1000 5000 (fun i => ex_bytes (i - 0)) ex_flow (fp_mem (ex_world ex_flow))
    (mk_rx_stream 0 4096 None) (mk_tx_stream 0 0 0) fs' m rx_bump tx_bump.
Proof.
  assert (T := rx_process_delivers 1000 5000 (fun i => ex_bytes (i - 0)) (ex_world ex_flow) ex_flow (ex_pkt 1000)
    0 7 (mk_rx_stream 0 4096 None) (mk_tx_stream 0 0 0)).
  assert (C : match rx_process (ex_world ex_flow) ex_flow (ex_pkt 1000) 0 7 with
              | Ok (rx_unlock _ _ _ _ _ _) => True | _ => False end) by (vm_compute; exact I).
  destruct (rx_process (ex_world ex_flow) ex_flow (ex_pkt 1000) 0 7) as [[|fs' m p' rb tb ack]| |] eqn:E;
    [destruct C | | destruct C..].
  exists fs', m, p', rb, tb. destruct T as (D & _ & A).
  - destruct (flow_init_rep ex_params 3 zero_flowst (fun i => ex_bytes (i - 0)) ex_mem ex_params_ok eq_refl)
      as [_ R]; exact R.
  - apply ex_flow_reps. exact ex_mem.
  - reflexivity.
  - apply ex_segment; lia.
  - reflexivity.
  - rewrite A. split; [reflexivity | exact D].
Defined.

(** A window of 4096 bytes that ends at the last sequence number, and three bytes
    of which only the first one is inside: all of them are stored. *)
Definition ex_gap_params : flow_params :=
  mk_flow_params 0 0 1 80 2 90 0 4096 4096 4096 4294963199 5000 77 0 0 0 0.
Definition ex_gap_flow : flowst := flow_init zero_flowst ex_gap_params 3.


(** ** Handlers *)

Lemma fast_flows_packet_result_witness :
  match fast_flows_packet (ex_world ex_flow) ex_nbh 0 69 (ex_pkt 1000) 0 7 with
  | Ok (r, w', _) => r = 1 /\ released w' w' 0
  | _ => False
  end.
Proof.
  assert (R : match fast_flows_packet (ex_world ex_flow) ex_nbh 0 69 (ex_pkt 1000) 0 7 with
              | Ok (r, _, _) => r = 1 | _ => False end) by (vm_compute; reflexivity).
  destruct (fast_flows_packet _ _ _ _ _ _ _) as [[[r w'] p']| |] eqn:E; [|exact R..].
  apply fast_flows_packet_result in E as [[L _] _]; [|reflexivity].
  split; [exact R|]. split; [exact L | reflexivity].
Defined.

(** The application queues three bytes and gives back no receive space. *)
Lemma flast_flows_bump_refines_witness :
  exists w', flast_flows_bump (ex_world ex_flow) ex_nbh 0 9 (4096 mod 4096) 3 7 = Ok (-1, w') /\
    TxRep 5000 (get_flow w' 0) (mk_tx_stream 0 0 3) /\ fs_lock (get_flow w' 0) = 0.
Proof.
  destruct (ex_flow_reps ex_mem) as [T R].
  destruct (flast_flows_bump_refines (nbh := ex_nbh) (ex_world ex_flow) 0 9 7 5000 1000 ex_bytes 0 0 0 0 4096 None 3 4096)
    as (w' & E & T' & _ & _ & L & _); try reflexivity.
  - intros _. eexists. vm_compute. reflexivity.
  - exact T.
  - exact R.
  - lia.
  - vm_compute; intuition congruence.
  - exists w'. split; [exact E|]. split; [exact T' | exact L].
Defined.

Lemma pkt_image_roundtrip_witness :
  pkt_bytes (bytes_pkt (repeat 171 60)) = repeat 171 60.
Proof.
  apply pkt_image_roundtrip; [vm_compute; congruence|].
  repeat (apply Forall_cons; split; [lia|]). constructor.
Defined.

Lemma fast_actx_rxq_add_spec_witness :
  exists w', fast_actx_rxq_add (ex_world ex_flow) 0 (mk_arx 77 3 0 0 0 1) = Ok (true, w') /\
    arx_at (fp_mem w') 8192 = mk_arx 77 3 0 0 5 1.
Proof.
  assert (T := fast_actx_rxq_add_spec (ex_world ex_flow) 0 (mk_arx 77 3 0 0 0 1)). cbv zeta in T.
  assert (Free : (mem_byte (fp_mem (ex_world ex_flow))
    (ac_rx_base (fp_appctx (ex_world ex_flow) !!! 0) + ac_rx_head (fp_appctx (ex_world ex_flow) !!! 0) + 63) =? 0) = true)
    by (vm_compute; reflexivity).
  rewrite Free in T.
  assert (C : fp_appctx (ex_world ex_flow) !!! 0 = mk_appctx 8192 0 64 0 0 0 0 0 5 0) by reflexivity.
  rewrite C in T. cbn [ac_rx_base ac_rx_head ac_rx_len ac_tx_head] in T.
  destruct T as (w' & E & A & _); unfold FLEXNIC_DMA_MEM_SIZE, is_u32, arx_ok; cbn; unfold is_u32; try lia.
  - exists 1. reflexivity.
  - exists 0. reflexivity.
  - exists w'. split; [exact E | exact A].
Defined.

(** ** The whole connection *)

Lemma ex_layout : layout_ok (ex_world ex_flow) ex_flow.
Proof.
  assert (C : flow_ctx (ex_world ex_flow) ex_flow = mk_appctx 8192 0 64 0 0 0 0 0 5 0) by reflexivity.
  split; rewrite ?C; try (vm_compute; intuition congruence).
  split; try (vm_compute; intuition congruence). split; [exists 1 | exists 0]; reflexivity.
Qed.

Definition ex_conn : conn := mk_conn (mk_tx_stream 0 0 0) (mk_rx_stream 0 4096 None).

Lemma ex_inv peer : flow_inv 0 5000 1000 ex_bytes peer (ex_world ex_flow) ex_conn.
Proof.
  destruct (flow_init_rep ex_params 3 zero_flowst peer ex_mem ex_params_ok eq_refl) as [T R].
  split; try reflexivity; [exact T | exact R | | exact ex_layout]. intros i Hi. cbn in Hi. lia.
Qed.

Lemma flow_init_starts_witness : flow_inv 0 5000 1000 ex_bytes ex_bytes (ex_world ex_flow) ex_conn.
Proof.
  exact (flow_init_starts 0 5000 1000 ex_bytes ex_bytes (ex_world ex_flow) zero_flowst ex_params 3
           ex_params_ok eq_refl eq_refl eq_refl eq_refl eq_refl ex_layout).
Defined.

(** Three bytes arrive. *)
Lemma flow_step_simulates_witness :
  match fast_flows_packet (ex_world ex_flow) ex_nbh 0 69 (ex_pkt 1000) 0 7 with
  | Ok (r, w', _) => r = 1 /\ exists c', rtc conn_step ex_conn c' /\
      flow_inv 0 5000 1000 ex_bytes (fun i => ex_bytes (i - 0)) w' c'
  | _ => False
  end.
Proof.
  assert (R : match fast_flows_packet (ex_world ex_flow) ex_nbh 0 69 (ex_pkt 1000) 0 7 with
              | Ok (r, _, _) => r = 1 | _ => False end) by (vm_compute; reflexivity).
  destruct (fast_flows_packet _ _ _ _ _ _ _) as [[[r w'] p']| |] eqn:E; [|exact R..].
  split; [exact R|].
  apply (flow_step_simulates 0 5000 1000 ex_bytes _ (ex_world ex_flow) ex_conn w' (ex_inv _)).
  change false with (trim_gap (get_flow (ex_world ex_flow) 0) (f_beui32 (tcp_seqno (p_tcp (ex_pkt 1000)))) (rx_payload_bytes (ex_pkt 1000))).
  eapply fe_packet; [apply (ex_segment 1000 0); lia | exact E].
Defined.

(** ** Buffers *)

Definition ex_cache : bufcache := mk_bufcache (repeat 0 128) 0 0.
Definition ex_alloc (n : Z) : list Z := seqZ 1 n.

Lemma ex_alloc_ok : alloc_ok ex_alloc.
Proof. intros n Hn. unfold ex_alloc. rewrite length_seqZ. lia. Qed.

Lemma ex_cache_wf : bc_wf ex_cache.
Proof. split; vm_compute; intuition congruence. Qed.

Lemma bufcache_fifo_witness :
  cached (fst (bufcache_prealloc ex_alloc ex_alloc ex_cache 3)) <> [] /\
  exists new, cached (fst (bufcache_prealloc ex_alloc ex_alloc ex_cache 3)) =
    cached ex_cache ++ map bc_marked new.
Proof.
  split; [vm_compute; discriminate|].
  destruct (bufcache_fifo ex_cache ex_alloc ex_alloc ex_cache_wf ex_alloc_ok ex_alloc_ok) as [A _].
  specialize (A 3 ltac:(lia)). destruct (bufcache_prealloc ex_alloc ex_alloc ex_cache 3) as [b' k].
  destruct A as (_ & (new & _ & E & _) & _). exists new. exact E.
Defined.

(** The kernel queued two packets of 60 bytes; the cache is empty, the driver
    allocates the buffers 1, 2, ... *)
Definition ex_ktx : list Z := le_bytes 8 20480 ++ le_bytes 2 60 ++ repeat 0 53 ++ [FLEXTCP_PL_KTX_PACKET].
Definition ex_dp : dp :=
  mk_dp (ex_world ex_flow <| fp_kctx := {[ 0 := mk_appctx 0 16384 0 128 0 0 0 0 0 0 ]} |>
                          <| fp_mem := mem_write ∅ 16384 (ex_ktx ++ ex_ktx) |>) 0 0 0 ex_cache.


(** ** Connections *)

Definition ex_nic : nic :=
  mk_nic ∅ ∅ ∅ ∅ ∅ ∅ ∅ ∅ [] 1 0 {[ 0 := seqZ 1 20 ]} 0 0 0 0 ∅ ∅ ∅ ∅ ∅ ∅.
Definition ex_view (s : nic) : fp :=
  mk_fp 0 (nc_flowst s) (nc_flowht s) (nc_qmant s) ∅ ∅ ∅ ∅ ∅ (qman_thread_init 0 0) [] [] [].

Lemma nicif_connection_add_registers_witness : exists s',
  nicif_connection_add ex_nic ex_params = Ok (s', Some 0) /\
  lookup_key (ex_view s') (key_of ex_params) = Some 0.
Proof.
  destruct (nicif_connection_add_registers ex_nic ex_params (ex_view ex_nic)) as (s' & E & _ & _ & L & _).
  - split; reflexivity.
  - split; [cbn; lia|]. intros i fid hash (H & _). cbn in H.
    unfold lookup_total, map_lookup_total in H. rewrite lookup_empty in H. discriminate H.
  - reflexivity.
  - reflexivity.
  - vm_compute. discriminate.
  - vm_compute. discriminate.
  - vm_compute. reflexivity.
  - exists s'. split; [exact E|].
    rewrite (L (ex_view s') (key_of ex_params)) by (split; reflexivity). rewrite decide_True; reflexivity.
Defined.

(** ** The control plane *)

Definition ex_cc_config : cc_config :=
  mk_cc_config CONFIG_CC_DCTCP_WIN 50 10000 50 2 4 268435456 10000 5000 0 10000 0 0 30 500 10000 10000 0 0 10 10000.
Definition ex_cc (len win : Z) : cc_conn :=
  mk_cc_conn 0 0 true len 0 50 0 0 (cc_dctcp_win (mk_dctcp_win 0 win false)) 0 0.

(** A loss halves a window of 10000 bytes. *)
Lemma dctcp_win_update_bounds_witness : exists c' d,
  dctcp_win_update ex_cc_config (ex_cc 65536 10000) (mk_dctcp_win 0 10000 false) (mk_cc_stats 1 5 7000 0 false 60) = Ok c' /\
  cn_cc c' = cc_dctcp_win d /\ dw_window d = 5000.
Proof.
  destruct (dctcp_win_update_bounds ex_cc_config (ex_cc 65536 10000) (mk_dctcp_win 0 10000 false)
    (mk_cc_stats 1 5 7000 0 false 60)) as (c' & d & E & Ec & _ & _ & _ & _ & W).
  1: split; vm_compute; intuition congruence.
  1-5: vm_compute; intuition congruence.
  exists c', d. split; [exact E|]. split; [exact Ec | exact W].
Defined.

Lemma dctcp_win_update_small_buffer_witness :
  ~ exists c', dctcp_win_update ex_cc_config (ex_cc 1000 1000) (mk_dctcp_win 0 1000 false)
                 (mk_cc_stats 0 5 700 0 false 60) = Ok c'.
Proof.
  intros [c' E]. revert E. apply (dctcp_win_update_small_buffer ex_cc_config (ex_cc 1000 1000)). reflexivity.
Defined.

Lemma packetmem_partition_witness :
  owners (packetmem_free [mk_block 40 60] (mk_block 0 40)) 39 + owners [] 39 = 1.
Proof.
  apply (packetmem_partition 100 (mk_pm_state (packetmem_free [mk_block 40 60] (mk_block 0 40)) []) 39); [lia|].
  eapply rtc_l; [apply (pm_step_alloc _ [] 40); [lia | reflexivity]|].
  apply rtc_once. exact (pm_step_free [mk_block 40 60] [] (mk_block 0 40) []).
Defined.
