(* ===== verification/AppExamples.v ===== *)
(** Concrete runs of the application library: its theorems applied to states on
    which their hypotheses hold. *)
From stdpp Require Import base numbers list gmap relations.
From Stdlib Require Import ZArith Lia.
From S2P Require Import Prelude LinkedList Packet FlowState TcpCommon Qman Dma Circ FastPath FastRx Stream TxPath RxPath Handlers Queues NicIf FlowTable KernelState Appif System.
From S2P Require Import AppConn AppPoll AppRing AppBump AppObj AppPollSafe AppSystem Examples.

Ltac run := vm_compute; intuition congruence.

(** Connection 64 has two 4096-byte buffers, 100 received and 60 freed bytes,
    and 5 bytes handed over; context 0 has one queue to the fast path. *)
Definition ex_fc : flextcp_connection :=
  mk_fconn 0 4096 100 60 0 4096 4096 5 5 0 0 1 2 80 90 1100 5005 0 0 None None 0 0 CONN_OPEN.
Definition ex_view : app_view := mk_app_view 0 60 100 0 5 5.
Definition ex_fctx : flextcp_context :=
  mk_fctx ∅ 8 0 ∅ 8 0 64 64 {[ 0 := mk_ctx_queue 12288 8192 0 0 ]} None None 0 0 1 0.
Definition ex_lib (x : flextcp_connection) : lib :=
  mk_lib ex_mem {[ 64 := x ]} ∅ ∅ {[ 0 := ex_fctx ]} 0 5 ∅ ∅ [].

Lemma ex_fc_rep : AppRep ex_fc ex_view.
Proof. split; run. Qed.

Lemma rx_done_refines_witness :
  exists s', flextcp_connection_rx_done (ex_lib ex_fc) 0 64 40 = Ok (s', 0) /\
    AppRep (fconn s' 64) (mk_app_view 0 100 100 0 5 5).
Proof.
  destruct (rx_done_refines (ex_lib ex_fc) 0 64 ex_view 40 ex_fc_rep ltac:(lia) ltac:(run)) as (s' & E & R & _).
  exists s'. auto.
Defined.

(** All 4096 bytes of the window were received since the last update. *)
Definition ex_full : flextcp_connection := ex_fc <| fc_rxb_head := 0 |>.

Lemma rx_window_lost_witness :
  exists s', rx_dones (ex_lib ex_full) 0 64 [4036; 5] = Ok s' /\ fc_bump_pending (fconn s' 64) = 0 /\
    fc_rxb_nictail (fconn s' 64) = 0.
Proof.
  assert (R : AppRep (fconn (ex_lib ex_full) 64) (mk_app_view 0 60 4096 0 5 5))
    by (split; run).
  destruct (rx_window_lost (ex_lib ex_full) 0 64 _ [4036; 5] R ltac:(run)) as (s' & E & P & N & _);
    [repeat (apply Forall_cons; split; [lia|]); constructor | reflexivity | reflexivity |]. exists s'. auto.
Defined.

Lemma tx_alloc_refines_witness :
  AppRep (flextcp_connection_tx_alloc ex_fc 10000).1.1 (ex_view <| av_alloc := 4095 |>).
Proof.
  destruct (tx_alloc_refines ex_fc ex_view 10000 ex_fc_rep ltac:(lia)) as [_ R].
  destruct (flextcp_connection_tx_alloc ex_fc 10000) as [[x' k] b] eqn:E.
  destruct R as (-> & R & _). exact R.
Defined.

Lemma tx_send_refines_witness :
  flextcp_connection_tx_send (ex_lib ex_fc) 0 64 1 = (ex_lib ex_fc, -1) /\
  exists s', flextcp_connection_tx_send (ex_lib (ex_fc <| fc_txb_head_alloc := 9 |>)) 0 64 4 = (s', 0) /\
    AppRep (fconn s' 64) (mk_app_view 0 60 100 0 9 9).
Proof.
  split.
  - exact (tx_send_refines (ex_lib ex_fc) 0 64 ex_view 1 ex_fc_rep ltac:(lia)).
  - assert (R : AppRep (fconn (ex_lib (ex_fc <| fc_txb_head_alloc := 9 |>)) 64) (mk_app_view 0 60 100 0 5 9))
      by (split; run).
    destruct (tx_send_refines (ex_lib (ex_fc <| fc_txb_head_alloc := 9 |>)) 0 64 _ 4 R ltac:(lia)) as (s' & E & R' & _).
    exists s'. auto.
Defined.

(** 4000 more bytes arrive: they wrap around. *)
Lemma connupdate_refines_witness :
  exists s' evs, event_arx_connupdate (ex_lib (ex_fc <| fc_rxb_nictail := 60 |>)) 64 4000 5 8 0 = Ok (s', Some evs) /\
    length evs = 2%nat /\ ev_ranges 64 evs = map (rx_addr ex_fc) (seqZ 100 4000).
Proof.
  assert (R : AppRep (fconn (ex_lib (ex_fc <| fc_rxb_nictail := 60 |>)) (OPAQUE_PTR 64)) (mk_app_view 60 60 100 0 5 5))
    by (split; run).
  pose proof (connupdate_refines (ex_lib (ex_fc <| fc_rxb_nictail := 60 |>)) 64 4000 5 8 0 _ R eq_refl
                ltac:(lia) ltac:(run) ltac:(run)) as W.
  destruct W as (s' & evs & E & N & _ & V & _). exists s', evs. split; [exact E|]. split; [apply Nat2Z.inj; rewrite N; reflexivity | exact V].
Defined.

Definition ex_early : flextcp_connection := connection_init ex_fc <| fc_status := CONN_OPEN_REQUESTED |>.
Definition ex_info : conn_info := mk_conn_info 0 4096 4096 4096 1000 5000 0 1 0.

Lemma early_data_delivered_witness :
  exists s1 s2, early_updates (ex_lib ex_early) 64 0 [(10, 8); (20, 8)] = Ok s1 /\
    event_kappin_conn_opened s1 64 0 (Some (ex_info, 80)) 8 =
      Ok (s2, Some [FLEXTCP_EV_CONN_OPEN 0 64; FLEXTCP_EV_CONN_RECEIVED 64 0 30]) /\
    fc_seq_rx (fconn s2 64) = 1030.
Proof.
  destruct (early_data_delivered (ex_lib ex_early) 64 0 [(10, 8); (20, 8)] ex_info 80 8) as (s1 & E & D);
    try reflexivity; try (cbn; lia).
  { repeat (apply Forall_cons; split; [cbn; lia|]). constructor. }
  destruct D as (s2 & D & _ & _ & Q). exists s1, s2. split; [exact E|]. split; [exact D | exact Q].
Defined.

(** ** The list of marked connections *)

Definition ex_marked : lib := conn_mark_bump (ex_lib ex_fc) 0 64.

Lemma ex_empty : bumps_ok (ex_lib ex_fc) 0 [].
Proof. split; [constructor | reflexivity | constructor | intros c Hc; inversion Hc]. Qed.

Lemma ex_bumps : bumps_ok ex_marked 0 [64].
Proof. apply (conn_mark_bump_appends _ _ [] 64 ex_empty). reflexivity. Qed.

Lemma ex_txq : txq_ok (fctx ex_marked 0) 0.
Proof. split; [split; vm_compute; congruence | exists 1; reflexivity | exists 0; reflexivity | split; vm_compute; congruence]. Qed.

Lemma ex_words : conn_words (fconn ex_marked 64).
Proof. repeat split; vm_compute; congruence. Qed.

Lemma conns_bump_step_sends_witness :
  exists s', conns_bump_step ex_marked 0 = Some s' /\ bumps_ok s' 0 [] /\ atx_at (l_mem s') 12288 = mk_atx 60 5 0 0 1.
Proof.
  destruct (conns_bump_step_sends ex_marked 0 64 [] ex_bumps ex_txq ex_words) as (s' & E & B & A & _);
    [vm_compute; reflexivity|]. exists s'. split; [exact E|]. split; [exact B | exact A].
Defined.

Lemma bumps_fifo_witness :
  exists s' l1 l2, conns_bump 2 ex_marked 0 = Ok s' /\ [64] = l1 ++ l2 /\ bumps_ok s' 0 l2.
Proof.
  destruct (bumps_fifo ex_marked 0 [64] 2 ex_bumps) as [_ D].
  destruct D as (s' & l1 & l2 & E & El & _ & B & _); [cbn; lia|]. exists s', l1, l2. auto.
Defined.

Lemma ex_locks : locks_free ex_marked.
Proof. intros o. vm_compute. congruence. Qed.

Lemma ex_rxqs : all_rxq_ok ex_marked 0.
Proof.
  intros core. destruct (decide (core = 0)) as [->|N].
  - split; [split; vm_compute; congruence | exists 1; reflexivity | exists 0; reflexivity | split; vm_compute; congruence].
  - assert (E : cq_rxq_head (cx_queues (fctx ex_marked 0) !!! core) = 0).
    { change (cx_queues (fctx ex_marked 0)) with ({[ 0 := mk_ctx_queue 12288 8192 0 0 ]} : gmap Z ctx_queue).
      rewrite lookup_total_singleton_ne by congruence. reflexivity. }
    rewrite E. split; [split; vm_compute; congruence | exists 1; reflexivity | exists 0; reflexivity | split; vm_compute; congruence].
Qed.

Lemma context_poll_ends_witness :
  match flextcp_context_poll 8 ex_marked 0 8 with
  | Ok (s', evs) => Z.of_nat (length evs) <= 8 | Crash => True | Spin => False end.
Proof.
  pose proof (context_poll_ends 8 ex_marked 0 8 [64] ex_locks ex_rxqs ex_bumps ltac:(lia) ltac:(lia)
                ltac:(vm_compute; congruence) ltac:(cbn; lia)) as P.
  destruct (flextcp_context_poll 8 ex_marked 0 8) as [[s' evs]| |]; [apply P | exact I | exact P].
Defined.

(** ** Objects *)

(** Two objects of 12 and 13 bytes are allocated; the second is finished first. *)
Definition ex_view0 : app_view := mk_app_view 0 60 100 0 5 5.
Definition ex_o0 : lib := ex_lib ex_fc <| l_conns := {[ 768 := ex_fc ]} |>.
Definition ex_alloc_obj (s : lib) (dstlen n : Z) : lib :=
  match flextcp_obj_connection_tx_alloc s 512 dstlen n with Ok (s', _) => s' | _ => s end.
Definition ex_o2 : lib := ex_alloc_obj (ex_alloc_obj ex_o0 1 3) 2 3.

Lemma ex_bytes_ok : bytes_ok ex_mem.
Proof.
  apply mem_write_bytes_ok; [intros a; unfold mem_byte; rewrite lookup_empty; cbn; lia|].
  repeat (apply Forall_cons; split; [lia|]). constructor.
Qed.

Lemma ex_objs : ObjTxRep ex_o2 512 (ex_view0 <| av_alloc := 30 |>) ([(12, false)] ++ [(13, false)]).
Proof.
  assert (R0 : ObjTxRep ex_o0 512 ex_view0 []).
  { split; [split; run | run | run | exact ex_bytes_ok | reflexivity | exact I]. }
  pose proof (obj_tx_alloc_appends ex_o0 512 ex_view0 [] 1 3 R0 ltac:(lia) ltac:(lia) ltac:(run)) as (s1 & r1 & E1 & D1).
  destruct D1 as [_ R1].
  pose proof (obj_tx_alloc_appends s1 512 _ _ 2 3 R1 ltac:(lia) ltac:(lia) ltac:(run)) as (s2 & r2 & E2 & D2).
  assert (S1 : ex_alloc_obj ex_o0 1 3 = s1) by (unfold ex_alloc_obj; rewrite E1; reflexivity).
  assert (S2 : ex_o2 = s2) by (unfold ex_o2; rewrite S1; unfold ex_alloc_obj; rewrite E2; reflexivity).
  rewrite S2. subst s1. destruct D2 as [_ R2]. exact R2.
Qed.

Lemma obj_tx_in_order_witness :
  exists s', flextcp_obj_connection_tx_send 2 ex_o2 512 17 = Ok s' /\
    ObjTxRep s' 512 (ex_view0 <| av_alloc := 30 |>) [(12, false); (13, true)].
Proof.
  destruct (obj_tx_in_order 2 ex_o2 512 (ex_view0 <| av_alloc := 30 |>) [(12, false)] 13 false [] ex_objs)
    as (s' & E & R); [cbn; lia|]. exists s'. split; [exact E | exact R].
Defined.

(** ** An update on its way *)

(** The fast path of [ex_world], with a queue from the application at 12288;
    the application has 5 bytes to send. *)
Definition ex_w : fp := ex_world ex_flow <| fp_appctx := {[ 0 := mk_appctx 8192 12288 64 64 0 0 0 0 0 0 ]} |>.
Definition ex_fc0 : flextcp_connection := ex_fc <| fc_rxb_head := 0 |> <| fc_rxb_tail := 0 |>.
Definition ex_marked0 : lib := conn_mark_bump (ex_lib ex_fc0) 0 64.

Lemma ex_w_inv : flow_inv 0 5000 1000 ex_bytes ex_bytes ex_w ex_conn.
Proof.
  destruct (flow_init_rep ex_params 3 zero_flowst ex_bytes ex_mem ex_params_ok eq_refl) as [T R].
  split; try reflexivity; [exact T | exact R | intros i Hi; cbn in Hi; lia |].
  assert (C : flow_ctx ex_w (get_flow ex_w 0) = mk_appctx 8192 12288 64 64 0 0 0 0 0 0) by reflexivity.
  split; rewrite ?C; try (vm_compute; intuition congruence).
  split; try (vm_compute; intuition congruence). split; [exists 1 | exists 0]; reflexivity.
Qed.

Lemma ex_bumps0 : bumps_ok ex_marked0 0 [64].
Proof.
  apply (conn_mark_bump_appends _ _ [] 64); [|reflexivity].
  split; [constructor | reflexivity | constructor | intros c Hc; inversion Hc].
Qed.

Lemma update_reaches_flow_witness :
  exists s' r w', conns_bump_step ex_marked0 0 = Some s' /\
    fast_appctx_poll (ex_w <| fp_mem := l_mem s' |>) ex_nbh 0 7 = Ok (r, w') /\
    flow_inv 0 5000 1000 ex_bytes ex_bytes w' (mk_conn (mk_tx_stream 0 0 5) (mk_rx_stream 0 4096 None)).
Proof.
  destruct (update_reaches_flow (nbh := ex_nbh) 0 5000 1000 ex_bytes ex_bytes ex_marked0 0 64 [] (mk_app_view 0 0 0 0 5 5) ex_w ex_conn 0 7)
    as (s' & r & w' & E & _ & P & I & _).
  - exact ex_bumps0.
  - split; [split; vm_compute; congruence | exists 1; reflexivity | exists 0; reflexivity | split; vm_compute; congruence].
  - repeat split; vm_compute; congruence.
  - split; vm_compute; intuition congruence.
  - vm_compute; reflexivity.
  - split; vm_compute; congruence.
  - vm_compute; reflexivity.
  - reflexivity.
  - exact ex_w_inv.
  - split; vm_compute; intuition congruence.
  - split; vm_compute; intuition congruence.
  - right. run.
  - right. run.
  - vm_compute; reflexivity.
  - intros i Hi. cbn in Hi.
    assert (C : i = 0 \/ i = 1 \/ i = 2 \/ i = 3 \/ i = 4) by lia.
    destruct C as [-> | [-> | [-> | [-> | ->]]]]; reflexivity.
  - run.
  - run.
  - intros _. eexists. vm_compute. reflexivity.
  - exists s', r, w'. split; [exact E|]. split; [exact P | exact I].
Defined.
