(* ===== verification/SockExamples.v ===== *)
(** Concrete runs of the POSIX layer: its theorems applied to a state on which
    their hypotheses hold. *)
From stdpp Require Import base numbers list gmap.
From Stdlib Require Import ZArith Lia.
From S2P Require Import Prelude LinkedList Packet Dma Circ FastPath FastRx Stream KernelState Appif AppConn AppPoll AppRing.
From S2P Require Import SockState SockEpoll SockEpollInv SockEpollSafe SockEpollCtl SockEpollScan SockCalls SockStream.
From S2P Require Import SockUpdate SockSend SockSettings SockControl Examples AppExamples.

(** Socket 64 is connected, and registered for input with the instance 1000;
    bytes 60 to 99 of the peer's stream are unread.  Socket 128 listens, with a
    pending accept for socket 192.  Descriptor 9 is the instance's, 5 to 7 are
    those of the sockets. *)
Definition ex_sconn : sock_conn := mk_sock_conn SOC_CONNECTED None 60 0 40 0 0 0.
Definition ex_sk_conn : socket :=
  mk_socket ex_sconn (mk_sock_listener [] 0 SOL_OPENING) (mk_sockaddr_in 0 0 0 0) SOF_NONBLOCK SOCK_CONNECTION
    (Z.lor EPOLLIN EPOLLOUT) (Some 2000).
Definition ex_pending : socket_pending := mk_pending 192 0 7.
Definition ex_sk_lst : socket :=
  mk_socket ex_sconn (mk_sock_listener [ex_pending] 8 SOL_OPEN) (mk_sockaddr_in 2 80 0 0) SOF_BOUND SOCK_LISTENER 0 None.
Definition ex_sk_new : socket :=
  mk_socket (mk_sock_conn SOC_CONNECTING (Some 128) 0 0 0 0 0 0) (mk_sock_listener [] 0 SOL_OPENING)
    (mk_sockaddr_in 0 0 0 0) 0 SOCK_CONNECTION 0 None.
Definition ex_es : epoll_socket :=
  mk_epoll_socket 1000 64 None None None None 77 (Z.lor EPOLLIN EPOLLERR) 1.

Definition ex_sst : sst :=
  mk_sst (ex_lib ex_fc) {[ 64 := ex_sk_conn; 128 := ex_sk_lst; 192 := ex_sk_new ]}
    {[ 1000 := mk_epoll None (Some 2000) (Some 2000) 0 1 0 ]} {[ 2000 := ex_es ]}
    {[ 5 := FH_SOCKET 64; 6 := FH_SOCKET 128; 7 := FH_SOCKET 192; 9 := FH_EPOLL 1000 ]} 0 0.

Lemma ex_live e : live ex_sst e <-> e = 2000.
Proof. unfold live. change (ss_ess ex_sst) with ({[ 2000 := ex_es ]} : gmap Z epoll_socket). rewrite dom_singleton_L. set_solver. Qed.

Lemma ex_has : ep_has ex_sst 1000 [2000] [].
Proof.
  split.
  - split; try reflexivity; try (vm_compute; auto; fail).
    apply NoDup_singleton.
  - intros e. rewrite list_elem_of_singleton, ex_live. split; [intros ->; auto | tauto].
  - intros e. rewrite ex_live. split; [intros H; inversion H|]. intros (-> & _ & H). discriminate.
Qed.

Lemma ex_socks s : s <> 64 -> so_eps (sk ex_sst s) = None.
Proof.
  intros N. unfold sk. change (ss_socks ex_sst) with ({[ 64 := ex_sk_conn; 128 := ex_sk_lst; 192 := ex_sk_new ]} : gmap Z socket).
  destruct (decide (s = 128)) as [->|N1]; [reflexivity|]. destruct (decide (s = 192)) as [->|N2]; [reflexivity|].
  rewrite !lookup_total_insert_ne by congruence. rewrite lookup_total_singleton_ne by congruence. reflexivity.
Qed.

Lemma ex_ok : epoll_ok ex_sst.
Proof.
  split; [split|].
  - intros ep _. destruct (decide (ep = 1000)) as [->|N]; [exists [2000], []; exact ex_has|]. exists [], [].
    assert (E : sep ex_sst ep = inhabitant).
    { unfold sep. change (ss_epolls ex_sst) with ({[ 1000 := mk_epoll None (Some 2000) (Some 2000) 0 1 0 ]} : gmap Z epoll).
      rewrite lookup_total_singleton_ne by congruence. reflexivity. }
    split; [split; rewrite ?E; try reflexivity; cbn; auto using NoDup_nil_2 | |];
      (intros e; rewrite ex_live; split; [intros H; inversion H | intros (-> & H & _); change (es_ep _) with 1000 in H; congruence]).
  - intros s. destruct (decide (s = 64)) as [->|N].
    + exists [2000]. split; [vm_compute; auto | apply NoDup_singleton | reflexivity|]. intros e.
      rewrite list_elem_of_singleton, ex_live. split; [intros ->; auto | tauto].
    + exists []. split; [constructor | constructor | apply ex_socks, N|]. intros e. rewrite ex_live.
      split; [intros H; inversion H | intros (-> & H); change (es_s _) with 64 in H; congruence].
  - intros e H%ex_live. subst. right. reflexivity.
  - intros e1 e2 H1%ex_live H2%ex_live _ _. congruence.
  - reflexivity.
  - intros e H%ex_live _. subst. reflexivity.
Qed.

Lemma ex_at : sock_at ex_sst 5 64.
Proof. split; [vm_compute; intuition congruence | reflexivity | reflexivity]. Qed.

Lemma ex_sock_rx : SockRx (so_conn (sk ex_sst 64)) (fconn (ss_lib ex_sst) 64) 60 100.
Proof. split; run. Qed.

(** ** Epoll *)

Lemma ex_reg : reg_is ex_sst 1000 64 (Some (9, 77)).
Proof.
  intros md. split.
  - intros (e & H%ex_live & _ & _ & <-). subst. reflexivity.
  - intros [= <-]. exists 2000. split; [apply ex_live; reflexivity|]. auto.
Qed.

Lemma epoll_ctl_refines_witness :
  exists st', lwip_epoll_ctl ex_sst 9 EPOLL_CTL_MOD 5 EPOLLOUT 78 0 (Some 2001) = Ok (st', 0) /\ epoll_ok st' /\
    reg st' 1000 64 (12, 77).
Proof.
  destruct (epoll_ctl_refines ex_sst 9 EPOLL_CTL_MOD 5 EPOLLOUT 78 0 2001 1000 64 (Some (9, 77)) ex_ok) as (st' & E & O & U & _);
    first [exact ex_reg | rewrite ex_live; discriminate | vm_compute; intuition congruence | idtac].
  exists st'. split; [exact E|]. split; [exact O|]. apply (U 1000 64 (12, 77)). reflexivity.
Defined.

Lemma epoll_scan_reports_witness :
  exists st', scan ex_sst 1000 8 = Ok (st', [(1, 77)]) /\ epoll_ok st'.
Proof.
  destruct (epoll_scan_reports ex_sst 1000 8 ex_ok ltac:(lia)) as (st' & evs & P & Q & E & O & _ & _ & _ & In).
  exists st'. split; [|exact O]. rewrite E. vm_compute in E. injection E as _ <-. reflexivity.
Defined.

Lemma epoll_no_starvation_witness : served 1000 1 2000 1 ex_sst.
Proof.
  apply (epoll_no_starvation ex_sst 1000 1 2000 [] [] [] 1 ex_ok ltac:(lia) ex_has); [vm_compute; discriminate | cbn; lia].
Defined.

(** ** Receiving *)

Lemma recv_in_order_witness :
  exists st', recv_simple 8 ex_sst 0 5 10 [] = Ok (st', 10, repeat 0 10) /\ received ex_sst st' 64 ex_view 10 /\
    SockRx (so_conn (sk st' 64)) (fconn (ss_lib st') 64) 70 100.
Proof.
  destruct (recv_in_order 8 ex_sst 0 5 64 ex_view 10 [] ex_ok ex_at ex_fc_rep ex_sock_rx ltac:(lia)) as (st' & E & V).
  exists st'. split; [exact E|]. split; [exact V | apply V].
Defined.

Lemma recvmsg_scatters_witness :
  exists st' bufs, lwip_recvmsg 8 ex_sst 0 5 [4; 0; 90] [] = Ok (st', 40, bufs) /\ map length bufs = [4; 0; 36]%nat.
Proof.
  destruct (recvmsg_scatters 8 ex_sst 0 5 64 ex_view [4; 0; 90] [] ex_ok ex_at ex_fc_rep ex_sock_rx)
    as (st1 & st2 & k & bytes & bufs & E1 & E2 & _); [repeat constructor; lia | cbn; lia | cbn; lia |].
  exists st2, bufs. vm_compute in E2 |- *. injection E2 as <- <- <-. split; reflexivity.
Defined.

(** 3950 bytes arrive; socket 64 is reported. *)
Lemma update_readable_witness :
  exists l evs st' st2 evs', event_arx_connupdate (ss_lib ex_sst) 64 3950 0 8 0 = Ok (l, Some evs) /\
    sock_events (ex_sst <| ss_lib := l |>) evs = Ok st' /\
    SockRx (so_conn (sk st' 64)) (fconn (ss_lib st') 64) 60 4050 /\
    scan st' 1000 8 = Ok (st2, evs') /\ report st' 2000 ∈ evs'.
Proof.
  destruct (update_readable ex_sst 64 3950 0 8 0 ex_view 60 ex_ok eq_refl ex_fc_rep eq_refl ex_sock_rx)
    as (l & evs & st' & E & E' & _ & D & W);
    [vm_compute; intuition congruence..|].
  assert (K : live st' 2000 /\ es_s (ses st' 2000) = 64 /\ es_ep (ses st' 2000) = 1000 /\
              Z.land EPOLLIN (es_mask (ses st' 2000)) <> 0 /\ size (ss_ess st') = 1%nat).
  { vm_compute in E. injection E as <- <-. vm_compute in E'. injection E' as <-. split_and!; try reflexivity; try (vm_compute; discriminate). }
  destruct K as (K1 & K2 & K3 & K4 & K5). destruct (W 2000 8 K1 K2 K4) as (st2 & evs' & S & In); [rewrite K5; lia | lia |].
  rewrite K3 in S. exists l, evs, st', st2, evs'. split_and!; auto. exact (dl_rx _ _ _ _ _ _ D).
Defined.

(** ** Sending *)

Lemma send_in_order_witness :
  exists st', send_simple 8 ex_sst 0 5 [1; 2; 3] [] = Ok (st', 3) /\ sent ex_sst st' 64 ex_view [1; 2; 3].
Proof.
  destruct (send_in_order 8 ex_sst 0 5 64 ex_view [1; 2; 3] [] ex_at ex_fc_rep ltac:(cbn; lia)) as (st' & E & S).
  exists st'. auto.
Defined.

Lemma sendmsg_gathers_witness :
  exists st', lwip_sendmsg 8 ex_sst 0 5 [[1; 2]; []; [3]] [] = Ok (st', 3) /\ sent ex_sst st' 64 ex_view [1; 2; 3].
Proof.
  destruct (sendmsg_gathers 8 ex_sst 0 5 64 ex_view [[1; 2]; []; [3]] [] ex_at ex_fc_rep ltac:(cbn; lia) ltac:(vm_compute; reflexivity))
    as (st1 & st2 & k & E1 & E2 & _ & S). 
  assert (k = 3) as -> by (vm_compute in E2; injection E2; auto). exists st2. auto.
Defined.

(** ** Settings, accepting, descriptors *)

Lemma ex_fd : fd_at ex_sst 6 128.
Proof. split; [vm_compute; intuition congruence | reflexivity]. Qed.

Lemma settings_refine_witness :
  exists st', lwip_fcntl ex_sst 6 F_SETFL O_NONBLOCK = Ok (st', 0) /\
    settings st' 128 = mk_sock_settings (Some (mk_sockaddr_in 2 80 0 0)) true false.
Proof.
  destruct (settings_refine ex_sst 6 128 ex_fd) as (_ & B & _). destruct (B true) as (st' & E & S).
  exists st'. split; [exact E|]. rewrite (os_settings _ _ _ _ S). reflexivity.
Defined.

Lemma accept_outcome_witness :
  exists st1 st2, sock_event ex_sst (FLEXTCP_EV_LISTEN_ACCEPT 0 192) = Ok st1 /\
    lwip_accept 8 st1 0 6 None None None 0 [] = Ok (st2, 7, []) /\ sl_pending (so_listener (sk st2 128)) = [].
Proof.
  destruct (accept_outcome 8 ex_sst 0 6 128 ex_pending 0 None None 0 [] ex_ok ex_fd) as (st1 & E & _ & _ & D); try reflexivity.
  destruct D as (st2 & l1 & l2 & A & P & Q & _). exists st1, st2. split; [exact E|]. split; [exact A|]. rewrite Q.
  destruct l1 as [|q l1], l2 as [|q2 l2]; try reflexivity; exfalso; (injection P as P1 P2 || injection P as P1);
    try discriminate; destruct l1; discriminate.
Defined.

Lemma epoll_fd_reuse_aborts_witness :
  exists st1 st2, lwip_epoll_create1 ex_sst 11 (Some 3000) = Ok (st1, 11) /\ lwip_close st1 11 = Ok (st2, -1) /\
    ss_errno st2 = EBADF /\ lwip_epoll_create1 st2 11 (Some 3000) = Crash.
Proof.
  exact (epoll_fd_reuse_aborts ex_sst 11 3000 (Some 3000) ltac:(vm_compute; intuition congruence) eq_refl).
Defined.

(** Nothing is registered with the instance. *)
Definition ex_idle : sst := ex_sst <| ss_epolls := {[ 1000 := mk_epoll None None None 0 0 0 ]} |>.
Definition ex_env (msecs : Z) : wait_env := mk_wait_env (fun l => l) 1 msecs.

Lemma epoll_wait_deadline_inverted_witness :
  (exists st', lwip_epoll_wait 8 ex_idle 0 9 8 500 1000 (0, []) [ex_env 1001] = Ok (st', 0, [])) /\
  lwip_epoll_wait 8 ex_idle 0 9 8 500 1000 (0, []) (repeat (ex_env 1501) 3) = Spin.
Proof.
  split.
  - destruct (epoll_wait_deadline_inverted 8 ex_idle 0 9 1000 8 500 1000 (0, []) [ex_env 1001]) as [_ D];
      try (vm_compute; intuition congruence). eexists. eapply D; [reflexivity | vm_compute; congruence | vm_compute; reflexivity].
  - apply (epoll_wait_deadline_inverted 8 ex_idle 0 9 1000 8 500 1000 (0, []) (repeat (ex_env 1501) 3));
      try (vm_compute; intuition congruence). repeat constructor.
Defined.
