(* ===== verification/KernelExamples.v ===== *)
(** Concrete runs of the kernel process: the theorems about timers, control
    segments and connections, applied to states on which their hypotheses
    hold; a registration, with one core, 4096 bytes of packet memory and four
    doorbells; and a command line. *)
From stdpp Require Import base numbers list gmap strings relations.
From Stdlib Require Import ZArith Lia.
From S2P Require Import Prelude LinkedList Timeout Packet FlowState TcpCommon Qman Dma FastPath FastRx Stream RxPath Queues NicIf FlowTable CC PacketMem KernelState ControlSeg Arp KernelTcp Appif Kernel KernelTimers KernelSafe KernelConn Backlog AppConn AppPoll Config ConfigParse UxSocket UxSafe UxAgree Examples.

(** ** Timers

    The clock is six microseconds before the 28-bit stamps wrap; timer 4 is
    armed for 100 and timer 6 for 5 microseconds. *)
Definition ex_now : Z := 268435450.
Definition ex_timers : timeout_manager :=
  match (let! m := util_timeout_arm_ts (util_timeout_init ∅) 4 100 1 (ts_of ex_now) in
         util_timeout_arm_ts m 6 5 0 (ts_of ex_now)) with Ok m => m | _ => util_timeout_init ∅ end.
Definition ex_pend : list timer := [mk_timer 6 268435455 0; mk_timer 4 268435550 1].

Lemma ex_timers_rep : timers_rep ex_timers ex_pend [].
Proof.
  destruct (arm_rep (util_timeout_init ∅) [] [] ex_now 4 100 1 (timers_rep_init ∅)) as (m1 & E1 & R1);
    [constructor | apply not_elem_of_nil | unfold HORIZON; lia | lia |].
  destruct (arm_rep m1 _ _ ex_now 6 5 0 R1) as (m2 & E2 & R2).
  - repeat constructor; unfold HORIZON, ex_now; cbn; lia.
  - intros H. cbn in H. apply list_elem_of_singleton in H. discriminate H.
  - unfold HORIZON; lia.
  - lia.
  - assert (ex_timers = m2) as ->; [|exact R2].
    unfold ex_timers. rewrite E1. cbn [obind]. rewrite E2. reflexivity.
Qed.

Lemma ex_within T : ex_now <= T <= ex_now + 1000 -> within T ex_pend.
Proof. unfold ex_now. intros H. repeat constructor; unfold HORIZON; cbn; lia. Qed.
Lemma ex_within_now : within ex_now ex_pend.
Proof. apply ex_within. lia. Qed.

(** An interval at the limit is refused, one below it is inserted behind. *)
Lemma util_timeout_arm_ts_spec_witness :
  util_timeout_arm_ts ex_timers 8 134217728 2 (ts_of ex_now) = Crash /\
  exists m', util_timeout_arm_ts ex_timers 8 7 2 (ts_of ex_now) = Ok m' /\
    map t_id (insert_timer (mk_timer 8 (ex_now + 7) 2) ex_pend) = [6; 8; 4] /\ tm_timeouts_first m' = Some 6.
Proof.
  assert (N : 8 ∉ map t_id (ex_pend ++ [])) by (intros H; cbn in H; rewrite !elem_of_cons, elem_of_nil in H; lia).
  split.
  - exact (util_timeout_arm_ts_spec ex_timers ex_pend [] ex_now 8 134217728 2 ex_timers_rep
      ex_within_now N ltac:(lia) ltac:(lia)).
  - destruct (util_timeout_arm_ts_spec ex_timers ex_pend [] ex_now 8 7 2 ex_timers_rep
      ex_within_now N ltac:(lia) ltac:(lia)) as (m' & E & R).
    exists m'. split; [exact E|]. split; [reflexivity | exact (tr_first _ _ _ R)].
Defined.

Lemma util_timeout_disarm_spec_witness : exists m',
  util_timeout_disarm ex_timers 6 = Ok m' /\ tm_timeouts_first m' = Some 4.
Proof.
  destruct (util_timeout_disarm_spec ex_timers ex_pend [] 6 ex_timers_rep) as (m' & E & R).
  - cbn. left.
  - exists m'. split; [exact E | exact (tr_first _ _ _ R)].
Defined.

(** A handler that records the timers it is called for. *)
Definition ex_record (m : timeout_manager) (s : list (Z * Z)) (to type : Z)
    : outcome (timeout_manager * list (Z * Z)) := Ok (m, s ++ [(to, type)]).

(** The stamps have wrapped when timer 6 is handled; timer 4 stays. *)
Lemma util_timeout_poll_ts_spec_witness : exists m',
  util_timeout_poll_ts ex_record ex_timers [] 10 = Ok (m', [(6, 0)]) /\ tm_timeouts_first m' = Some 4.
Proof.
  destruct (util_timeout_poll_ts_spec ex_record (fun s i ty => s ++ [(i, ty)]) ex_timers [] ex_pend [] 268435466)
    as (m' & E & R).
  - intros m s i ty. reflexivity.
  - exact ex_timers_rep.
  - apply ex_within. unfold ex_now. lia.
  - exists m'. split; [exact E | exact (tr_first _ _ _ R)].
Defined.

Lemma util_timeout_next_spec_witness : util_timeout_next ex_timers (ts_of ex_now) = 5.
Proof. exact (proj1 (util_timeout_next_spec ex_timers ex_pend [] ex_now ex_timers_rep ex_within_now)). Defined.

(** ** Control segments *)

Definition ex_kconfig : kconfig :=
  mk_kconfig 4096 4096 10000 2 1 24 [] 500 10000
    (mk_cc_config CONFIG_CC_DCTCP_WIN 50 10000 50 2 4 268435456 10000 5000 0 10000 0 0 30 500 10000 10000 0 0 10 10000).
#[export] Instance ex_kenv : KEnv :=
  mk_kenv ex_kconfig (fun _ => 0) (fun _ _ => 0) 2 [2;0;0;0;0;9] 0
    (mk_connection 0 0 0 (mk_block 0 0) (mk_block 0 0) 0 0 0 0 0 0 0 0 KernelState.CONN_FAILED 0 0 0 0 0 0 0 false
     (mk_cc_conn 0 0 false 0 0 0 0 0 cc_none 0 0) 0 0 0) 0.

(** A SYN-ACK with both options. *)
Lemma ctl_segment_roundtrip_witness :
  let q := bytes_pkt (pkt_bytes (ctl_segment 2 3 1 7 90 80 5000 1000 (Z.lor TCP_SYN TCP_ACK) true 11 12 1460)) in
  f_beui32 (tcp_seqno (p_tcp q)) = 5000 /\ TCPH_FLAGS (p_tcp q) = 18 /\ exists o, parse_options q 70 = Ok (0, o).
Proof.
  assert (F : 0 <= Z.lor TCP_SYN TCP_ACK < 512) by (split; [discriminate | reflexivity]).
  destruct (ctl_segment_roundtrip 2 3 1 7 90 80 5000 1000 (Z.lor TCP_SYN TCP_ACK) true 11 12 1460 [] F)
    as (_ & _ & _ & _ & _ & _ & _ & S & _ & Fl & o & P & _).
  rewrite app_nil_r in *. split; [exact S|]. split; [exact Fl|]. exists o. exact P.
Defined.

(** ** Connections

    One application context; the peer 7 is in the ARP table; the default
    timeouts. *)
Definition ex_knic : nic := ex_nic <| nc_rxq_len := 16 |> <| nc_txq_len := 16 |>
  <| nc_txq_base := {[ 0 := 65536 ]} |> <| nc_txq_tail := {[ 0 := 0 ]} |>.
Definition ex_ctx : app_context := mk_app_context 0 ∅ 16 0 ∅ 16 0 0 5 0.
Definition ex_k0 : kst :=
  mk_kst ∅ ∅ ∅ ∅ PORT_FIRST_EPH [] [] 1 (util_timeout_init ∅) [mk_block 0 1048576] ex_knic
    {[ 8 := mk_arp_entry 0 1 2 [] 0; 9 := mk_arp_entry 0 7 3 [] 0 ]} [9; 8] [mk_rte 0 0 0]
    {[ 0 := ex_ctx ]} {[ 0 := mk_application [0] [] [] ]} [] [].
Definition ex_ml (c : Z) : mallocs := mk_mallocs (Some c) (Some 10) None None false.

(** The application asks for connections to port 80 of the peer. *)
Definition ex_request (s : kst) : kst := put_ctx s 0 (kctx s 0
  <| ax_kin := <[ax_kin_pos (kctx s 0) := KERNEL_APPOUT_CONN_OPEN 77 7 0 80]> (ax_kin (kctx s 0)) |>).
Definition ex_run (r : outcome (kst * Z)) : kst := match r with Ok (s, _) => s | _ => ex_k0 end.
Definition ex_k1 : kst := ex_run (appif_ctx_poll (ex_request ex_k0) (ex_ml 100) 0 0).
Definition ex_k2 : kst := ex_run (appif_ctx_poll (ex_request ex_k1) (ex_ml 101) 0 0).

Lemma ex_config_ok : KernelTimers.config_ok.
Proof. split; vm_compute; intuition congruence. Qed.

Lemma ex_now0 : now_us = ts_of 0.
Proof. reflexivity. Qed.

Lemma ex_k0_ok : kernel_timers_ok 0 (ex_request ex_k0).
Proof.
  assert (C : forall c, kconn (ex_request ex_k0) c = inhabitant) by reflexivity.
  assert (W : forall l, ln_wait_conns (klisten (ex_request ex_k0) l) = []) by reflexivity.
  exists [], []. split_and!; [apply timers_rep_init | constructor | split | split].
  - intros t Ht. inversion Ht.
  - intros c. rewrite C. split; [intros [?|?]; discriminate | discriminate].
  - intros c. rewrite C. discriminate.
  - intros e He. cbn in He. rewrite !elem_of_cons, elem_of_nil in He.
    destruct He as [->|[->|[]]]; (split; [eexists; reflexivity | discriminate]).
  - constructor.
  - intros c Hc. inversion Hc.
  - intros l. rewrite W. constructor.
  - intros l l' c Hc. rewrite W in Hc. inversion Hc.
  - intros l c Hc. rewrite W in Hc. inversion Hc.
Qed.

Lemma ex_poll1 : appif_ctx_poll (ex_request ex_k0) (ex_ml 100) 0 0 = Ok (ex_k1, 1).
Proof. vm_compute. reflexivity. Qed.
Lemma ex_poll2 : appif_ctx_poll (ex_request ex_k1) (ex_ml 101) 0 0 = Ok (ex_k2, 1).
Proof. vm_compute. reflexivity. Qed.

Lemma ex_mallocs1 : mallocs_ok (ex_request ex_k0) (ex_ml 100).
Proof. split; intros q [= <-]; reflexivity. Qed.
Lemma ex_mallocs2 : mallocs_ok (ex_request ex_k1) (ex_ml 101).
Proof. split; intros q [= <-]; vm_compute; reflexivity. Qed.

Lemma kernel_timers_invariant_witness : kernel_timers_ok 0 ex_k1 /\ kn_to_armed (kconn ex_k1 100) = true.
Proof.
  split; [|vm_compute; reflexivity].
  apply (kernel_timers_invariant 0 (ex_request ex_k0) ex_k1 ex_config_ok ex_now0 ex_k0_ok).
  apply rtc_once, (ks_appif _ (ex_ml 100) 0 0 _ 1 ex_mallocs1); [vm_compute; discriminate | exact ex_poll1].
Defined.

(** The invariant along the two requests. *)
Lemma ex_step T s ml s' n : now_us = ts_of T -> kernel_timers_ok T s -> mallocs_ok s ml ->
  ax_evfd (kctx s 0) <> 0 -> appif_ctx_poll s ml 0 0 = Ok (s', n) -> kernel_timers_ok T s'.
Proof.
  intros Hn I F N E. assert (Hl : T - HORIZON < T - HORIZON + 1 <= T) by (unfold HORIZON; lia).
  exact (appif_ctx_poll_kt T ex_config_ok Hn _ Hl _ _ _ _ _ _ E I F N).
Qed.

Lemma ex_k1_ok : kernel_timers_ok 0 ex_k1.
Proof. apply (ex_step 0 _ _ _ _ ex_now0 ex_k0_ok ex_mallocs1) with (2 := ex_poll1). vm_compute. discriminate. Qed.

(** The timer of the handshake, armed at time 0 by the request, and the kernel's own
    handler at time [T], which sends the SYN again and arms the timer again. *)
Definition ex_platform_at (T : Z) : Platform :=
  mk_platform rte_hash_crc network_buf_tcpxsums fwd_ring_room eth_addr (ts_of T) arx_junk qfuel.
Definition ex_us : Z := Z.land (to_timeout_type (tget (k_timers ex_k1) (conn_timer 100))) TIMEOUT_MASK.

Lemma ex_match : kernel_match ex_k1 [mk_timer (conn_timer 100) ex_us TO_TCP_HANDSHAKE] [].
Proof.
  destruct ex_k1_ok as (pend & due & R & _ & M & L).
  destruct (arm_rep (util_timeout_init ∅) [] [] 0 (conn_timer 100) ex_us TO_TCP_HANDSHAKE (timers_rep_init ∅)) as (m & E & R');
    [constructor | apply not_elem_of_nil | vm_compute; intuition congruence | vm_compute; intuition congruence |].
  assert (K : k_timers ex_k1 = m) by (vm_compute in E; injection E as <-; vm_compute; reflexivity).
  rewrite K in R. pose proof (tm_ids _ _ _ _ (rep_ids _ _ _ _ _ R R') M) as M1. split; assumption.
Qed.

Lemma armed_timer_fires_witness : exists m' m'' s' calls,
  util_timeout_arm_ts (util_timeout_init ∅) (conn_timer 100) ex_us TO_TCP_HANDSHAKE (ts_of 0) = Ok m' /\ m' = k_timers ex_k1 /\
  polls (fun T => recorded (timeout_handler (H := ex_platform_at T))) [20000] m' (ex_k1, []) = Ok (m'', (s', calls)) /\
  (conn_timer 100, TO_TCP_HANDSHAKE) ∈ calls /\ kn_to_attempts (kconn s' 100) = 1 /\ kn_to_armed (kconn s' 100) = true.
Proof.
  destruct (armed_timer_fires (fun T => timeout_handler (H := ex_platform_at T)) kernel_match
    (util_timeout_init ∅) [] [] 0 (conn_timer 100) ex_us TO_TCP_HANDSHAKE) as (m' & E & F).
  - apply kernel_match_moves.
  - apply timers_rep_init.
  - constructor.
  - apply not_elem_of_nil.
  - vm_compute; intuition congruence.
  - vm_compute; intuition congruence.
  - assert (K : m' = k_timers ex_k1) by (vm_compute in E; injection E as <-; vm_compute; reflexivity).
    destruct (F 20000 [] ex_k1) as (m'' & s' & calls & E' & Hc).
    + vm_compute. congruence.
    + apply Forall_singleton. vm_compute. intuition congruence.
    + exact I.
    + exact ex_match.
    + apply Forall_singleton. apply (timeout_handler_fair (H := ex_platform_at 20000) 20000 ex_config_ok). reflexivity.
    + cbn. lia.
    + exists m', m'', s', calls. split; [exact E|]. split; [exact K|]. split; [exact E'|]. split; [exact Hc|].
      subst m'. vm_compute in E'. injection E' as _ <- _. split; vm_compute; reflexivity.
Defined.

Lemma ex_request_ok s : kernel_timers_ok 0 s -> kernel_timers_ok 0 (ex_request s).
Proof. apply kt_view, ctx_view. reflexivity. Qed.

Lemma ex_k2_ok : kernel_timers_ok 0 ex_k2.
Proof.
  apply (ex_step 0 _ _ _ _ ex_now0 (ex_request_ok _ ex_k1_ok) ex_mallocs2) with (2 := ex_poll2). vm_compute. discriminate.
Qed.

Lemma kernel_timeouts_safe_witness : exists s',
  kernel_timeouts ex_k1 now_us = Ok s' /\ kernel_timers_ok 1000000 s'.
Proof.
  destruct (kernel_timeouts_safe 0 ex_k1 ex_config_ok ex_now0 ex_k1_ok) as (s' & E & K).
  exists s'. split; [exact E|]. apply K. unfold HORIZON. lia.
Defined.

(** The peer's answers to the first SYN (from port 49152). *)
Definition ex_answer (flags : Z) : list Z :=
  pkt_bytes (ctl_segment 3 2 7 1 49152 80 5000 1 flags true 11 0 1460).
Definition ex_opts : tcp_opts := mk_tcp_opts (Some 0) (Some 4).

Lemma handshake_completes_witness : exists s',
  tcp_packet ex_k1 (ex_answer (Z.lor TCP_SYN TCP_ACK)) 70 0 0 = Ok s' /\
  kn_status (kconn s' 100) = KernelState.CONN_OPEN /\ kn_remote_seq (kconn s' 100) = 5001 /\ kn_local_seq (kconn s' 100) = 1 /\
  TxRep 1 (nc_flowst (k_nic s') !!! 0) (mk_tx_stream 0 0 0).
Proof.
  destruct (handshake_completes 0 ex_k1 (ex_view ex_knic) 100 (ex_answer (Z.lor TCP_SYN TCP_ACK)) 70 ex_opts 0 0
    (fun _ => 0) ∅) as (s' & E & O & Tx & _).
  - vm_compute. discriminate.
  - vm_compute. reflexivity.
  - vm_compute. reflexivity.
  - vm_compute. reflexivity.
  - split.
    + exact ex_k1_ok.
    + vm_compute. reflexivity.
    + vm_compute. reflexivity.
    + vm_compute. reflexivity.
    + eexists. vm_compute. reflexivity.
    + vm_compute. reflexivity.
    + vm_compute. split; [reflexivity | discriminate].
    + split.
      * split; vm_compute; reflexivity.
      * split; [vm_compute; discriminate|]. intros i fid hash (V & _). vm_compute in V. discriminate V.
      * vm_compute. reflexivity.
      * vm_compute. reflexivity.
      * vm_compute. discriminate.
      * vm_compute. discriminate.
      * vm_compute. reflexivity.
  - vm_compute. intuition congruence.
  - vm_compute. reflexivity.
  - exists s'. split; [exact E|]. split; [exact (op_status _ _ _ _ _ O)|].
    split; [exact (op_remote_seq _ _ _ _ _ O)|]. split; [exact (op_local_seq _ _ _ _ _ O) | exact Tx].
Defined.

(** Two connections; the peer resets the older one twice. *)
Lemma second_reject_aborts_witness : exists s1,
  tcp_packet ex_k2 (ex_answer (Z.lor TCP_RST TCP_ACK)) 70 0 0 = Ok s1 /\
  tcp_packet s1 (ex_answer (Z.lor TCP_RST TCP_ACK)) 70 0 0 = Crash.
Proof.
  destruct (second_reject_aborts 0 ex_k2 100 (ex_answer (Z.lor TCP_RST TCP_ACK)) 70 ex_opts 0 0 101 [100])
    as (s1 & E & _ & _ & _ & _ & C).
  - exact ex_k2_ok.
  - vm_compute. reflexivity.
  - discriminate.
  - vm_compute. reflexivity.
  - vm_compute. reflexivity.
  - vm_compute. discriminate.
  - vm_compute. reflexivity.
  - vm_compute. reflexivity.
  - vm_compute. reflexivity.
  - vm_compute. discriminate.
  - exists s1. split; [exact E | exact C].
Defined.

(** Port 49152 is taken by the first connection. *)
Definition ex_k4 : kst := ex_k1 <| k_port_eph_hint := 49152 |>.

Lemma port_alloc_spec_witness : exists s',
  port_alloc ex_k4 = Ok (s', 49153) /\ port_unused ex_k4 49152 = false /\ port_unused ex_k4 49153 = true.
Proof.
  assert (Hh : k_port_eph_hint ex_k4 = 49152) by (vm_compute; reflexivity).
  assert (Hu : is_u16 (k_port_eph_hint ex_k4)) by (rewrite Hh; unfold is_u16; lia).
  assert (E : exists s', port_alloc ex_k4 = Ok (s', 49153)) by (eexists; vm_compute; reflexivity).
  destruct E as [s' E]. pose proof (port_alloc_spec ex_k4 Hu) as S. cbv zeta in S. rewrite E, Hh in S.
  destruct S as (_ & U & [|n] & En & B); [discriminate En|].
  exists s'. split; [exact E|]. split; [apply (B 0%nat); lia | exact U].
Defined.

(** A listener on port 80 with room for two, and a SYN for it. *)
Definition ex_k3 : kst := put_listen ex_k0 5 (listener_new 0 66 80 2 false false).
Definition ex_syn : list Z := pkt_bytes (ctl_segment 3 2 7 1 80 90 5000 0 TCP_SYN true 11 0 1460).

Lemma backlog_fifo_witness : exists s' b,
  listener_packet ex_k3 5 ex_syn ex_opts 0 0 = Ok s' /\ backlog_list (klisten s' 5) = [b] /\
  slot_holds b ex_syn 0 0.
Proof.
  destruct (backlog_fifo ex_k3 5) as [P _]; [split; vm_compute; intuition congruence|].
  assert (E : exists s', listener_packet ex_k3 5 ex_syn ex_opts 0 0 = Ok s') by (eexists; vm_compute; reflexivity).
  destruct E as [s' E]. destruct (P ex_syn ex_opts 0 0 s' ltac:(vm_compute; reflexivity) E) as (b & Sh & _ & L).
  exists s', b. split; [exact E|]. split; [|exact Sh]. rewrite L. unfold after_syn, dropped.
  rewrite (sh_len _ _ _ _ Sh). vm_compute. reflexivity.
Defined.

(** ** Registration and the command line *)

Definition ex_u0 : ust :=
  mk_ust (ex_k0 <| k_pm := packetmem_init 4096 |>) ∅ ∅ (doorbells_init 4) 0 [] [] [] [].
Definition ex_junk : app_reg := mk_app_reg 0 0 (repeat 0 8) no_response None None 0 0 false false.
Definition ex_urun (o : outcome ust) : ust := match o with Ok u => u | _ => ex_u0 end.
Definition ex_req : list Z := le_bytes 4 256 ++ le_bytes 4 128.

(** The application at 100 connects, sends its request, and the main loop
    registers its context, at 200. *)
Definition ex_u1 : ust := ex_urun (uxsocket_accept 1 ex_u0 9 [11] 5 true (Some 100) true ex_junk true).
Definition ex_u2 : ust := ex_urun (uxsocket_receive 1 256 256 ex_u1 100 (Some ex_req) [77] (Some 200)).
Definition ex_u4 : ust := (appif_register ex_u2 100).1.
Definition ex_u5 : ust := ex_urun (uxsocket_notify_app (ex_u4 <| us_poll_to_ux := [] |>) 100 48).

Lemma ex_u0_init : usys_init 1 4096 4 ex_u0.
Proof. unfold usys_init. split_and!; reflexivity. Qed.

Lemma ex_u4_reached : rtc (usys_step 1 256 256) (mk_usys ex_u0 []) (mk_usys ex_u4 []).
Proof.
  apply (rtc_l _ _ (mk_usys ex_u1 [])).
  { apply (us_accept _ _ _ ex_u0 [] 9 [11] 5 true (Some 100) true ex_junk true).
    - intros a [= <-]. reflexivity.
    - split; [reflexivity|]. repeat constructor; lia.
    - vm_compute. reflexivity. }
  apply (rtc_l _ _ (mk_usys ex_u2 [])).
  { apply (us_receive _ _ _ ex_u1 [] 100 (Some ex_req) [77] (Some 200)).
    - vm_compute. eauto.
    - reflexivity.
    - intros bs [= <-]. split; [repeat constructor; vm_compute; intuition congruence|]. vm_compute. discriminate.
    - vm_compute. discriminate.
    - intros i [= <-]. reflexivity.
    - vm_compute. reflexivity. }
  apply rtc_once. apply (us_register _ _ _ ex_u2 [] 100). vm_compute. eauto.
Qed.

Lemma registration_safe_witness : usys_init 1 4096 4 ex_u0 /\
  (db_of ex_u4 200 <> 0 /\ db_of ex_u4 200 ∉ us_free_doorbells ex_u4) /\ us_free_doorbells ex_u4 = [2; 3].
Proof.
  split; [exact ex_u0_init|].
  destruct (registration_safe 1 256 256 4096 4 ltac:(lia) ltac:(lia) ltac:(lia) ltac:(lia) ex_u0 _ ex_u0_init ex_u4_reached)
    as (_ & _ & D & _).
  destruct (D 200) as [R N]; [vm_compute; eauto|]. cbn [sy_u] in *. split; [split; [lia|exact N]|]. vm_compute. reflexivity.
Defined.

Definition ex_newctx : flextcp_context := mk_fctx ∅ 0 0 ∅ 0 0 0 0 ∅ None None 0 0 0 0.

(** The answer arrives a byte at a time. *)
Lemma registration_agrees_witness : exists c bs,
  us_sent ex_u5 = (5, (bs, [])) :: us_sent ex_u4 /\ cg_ready (uctx ex_u5 c) = 1 /\
  exists x', newctx_answer ex_newctx (bs ++ []) (repeat (Some 1%nat) 48) = Ok (x', 0) /\ cx_num_queues x' = 1 /\
    exists rb tb, cx_queues x' !! 0 = Some (mk_ctx_queue tb rb 0 0).
Proof.
  assert (E : uxsocket_notify_app (ex_u4 <| us_poll_to_ux := [] |>) 100 48 = Ok ex_u5) by (vm_compute; reflexivity).
  destruct (registration_agrees 1 256 256 4096 4 ltac:(lia) ltac:(lia) ltac:(lia) ltac:(lia) ex_u0 _ 100 [] 48 ex_u5 ex_newctx
    ltac:(lia) ltac:(lia) ltac:(lia) ltac:(vm_compute; discriminate) ex_u0_init ex_u4_reached
    ltac:(vm_compute; reflexivity) E ltac:(vm_compute; discriminate)) as (c & bs & Es & Rd & Rx).
  exists c, bs. split; [exact Es|]. split; [exact Rd|].
  assert (Lb : (length bs <= length (repeat (Some 1%nat) 48))%nat).
  { assert (T : us_sent ex_u5 = (5, (ux_resp_bytes (rg_resp (uapp ex_u4 100)), [])) :: us_sent ex_u4) by (vm_compute; reflexivity).
    rewrite T in Es. assert (Eb : bs = ux_resp_bytes (rg_resp (uapp ex_u4 100))) by congruence. rewrite Eb. vm_compute. lia. }
  destruct (Rx [] (repeat (Some 1%nat) 48)) as (x' & En & _ & Nq & Q); [|exact Lb|].
  { apply Forall_forall. intros r Hr. apply list_elem_of_In, repeat_spec in Hr as ->. exists 0%nat. reflexivity. }
  exists x'. split; [exact En|]. split; [exact Nq|]. destruct (Q 0 ltac:(lia)) as (rb & tb & _ & _ & Eq & _). eauto.
Defined.

Lemma connect_gets_descriptors_witness : exists u' msgs,
  us_sent u' = rev (map (pair 5) msgs) /\ flextcp_kernel_connect true msgs = Ok (0, 9, [11; 12; 13; 14; 15]).
Proof.
  destruct (connect_gets_descriptors 5 ex_u0 9 [11; 12; 13; 14; 15] 5 (Some 100) true ex_junk true ltac:(lia) ltac:(lia) eq_refl)
    as (u' & msgs & _ & Es & Ec). exists u', msgs. split; [rewrite Es; apply app_nil_r|exact Ec].
Defined.

(** The first four bytes with the descriptor, then the others: with memory and
    doorbells left, the kernel aborts. *)
Lemma split_request_never_served_witness : exists u1,
  uxsocket_receive 1 256 256 ex_u1 100 (Some (take 4 ex_req)) [77] (Some 200) = Ok u1 /\
  uxsocket_receive 1 256 256 u1 100 (Some (drop 4 ex_req)) [] (Some 200) = Crash.
Proof.
  assert (Ex : us_apps ex_u1 !! 100 = Some (uapp ex_u1 100)) by (vm_compute; reflexivity).
  destruct (split_request_never_served 1 256 256 ex_u1 100 _ (take 4 ex_req) (drop 4 ex_req) [77] (Some 200) (Some 200) Ex
    ltac:(vm_compute; reflexivity) ltac:(discriminate) ltac:(discriminate) eq_refl ltac:(cbn; lia)) as (u1 & E1 & _ & _ & Ab).
  exists u1. split; [exact E1|]. assert (U : u1 = ex_urun (Ok u1)) by reflexivity. rewrite <- E1 in U.
  eapply (Ab 78); [rewrite U; vm_compute; reflexivity|vm_compute; discriminate].
Defined.

(** A host 10.0.0.1/24 with two routes, the second to 10.1.0.0/16. *)
Definition ex_config : configuration :=
  config_defaults (mk_configuration 0 0 0 0 0 0 0 0 0 0 0 24 [(0, 0, 167772414); (167837696, 16, 167772162)] 0 0
    CONFIG_CC_TIMELY 0 0 0 0 0 0 0 0 0 0 0 0 0 0 0 0 0 0) <| g_ip := 167772161 |> <| g_cc_timely_step := 4294967295 |>
    <| g_arp_to_max := 5 |> <| g_cc_dctcp_weight := UINT32_MAX * 25 / 100 |> <| g_cc_dctcp_mimd := UINT32_MAX * 5 / 10 |>.

(** The numbers that are written with a fraction of up to four digits, as [0.0625]. *)
Definition ex_decimal (arg : list Z) : option Z :=
  match strchr arg CH_DOT with
  | Some ([48], ds) => let '(v, ok) := parse_int32 ds in
      if ok && bool_decide (length ds <= 4)%nat then Some (UINT32_MAX * v / 10 ^ Z.of_nat (length ds)) else None
  | _ => None
  end.
Definition ex_factor (arg : list Z) : option Z :=
  match strchr arg CH_DOT with
  | Some ([49], ds) => let '(v, ok) := parse_int32 ds in
      if ok && bool_decide (length ds <= 4)%nat then Some (UINT32_MAX * v / 10 ^ Z.of_nat (length ds)) else None
  | _ => None
  end.
Definition ex_texts : fraction_texts := mk_fraction_texts (str "0.25") (str "1.5") (str "0.02") (str "0.8").

Lemma config_roundtrip_witness :
  config_parse ex_decimal ex_factor (ex_config <| g_routes := [] |> <| g_ip_prefix := 7 |>) (options_of ex_texts ex_config) false
    = (ex_config <| g_arp_to_max := 1000000 |>, 0) /\
  nth_error (options_of ex_texts ex_config) 30 = Some ("ip-addr"%string, str "10.0.0.1/24", true).
Proof.
  split; [|vm_compute; reflexivity]. apply (config_roundtrip ex_decimal ex_factor ex_texts); [|reflexivity].
  assert (B : forall a x b : Z, (a <=? x) && (x <? b) = true -> a <= x < b) by (intros a x b; bsplit; lia).
  constructor.
  - repeat (apply Forall_cons; split; [apply B; vm_compute; reflexivity|]). apply Forall_nil_2.
  - repeat (apply Forall_cons; split; [apply B; vm_compute; reflexivity|]). apply Forall_nil_2.
  - split; apply B; vm_compute; reflexivity.
  - repeat (apply Forall_cons; split; [split; [|split]; apply B; vm_compute; reflexivity|]). apply Forall_nil_2.
  - split_and!; vm_compute; reflexivity.
Defined.

(** Numbers are cut to their field instead of being refused. *)
Example parse_int_truncates : parse_int8 (str "256") = (0, true) /\ parse_int32 (str " +4294967297") = (1, true) /\
  parse_int64 (str "-1") = (18446744073709551615, true) /\ parse_int32 (str "12x") = (12, false) /\
  opt_val opts "arp-timeout-max" = Some CP_ARP_TO.
Proof. vm_compute. auto. Qed.
