(* ===== verification/FkExamples.v ===== *)
(** A small key-value store: the theorems about the allocator, the table and
    the hash of flexkvs applied to concrete states. *)
From stdpp Require Import base numbers list gmap relations.
From Stdlib Require Import ZArith Lia.
From S2P Require Import Prelude LinkedList Dma PacketMem FkHash FkAlloc FkAllocSafe FkAllocSystem FkTable FkTableRep FkTableOps Packet FkServer FkStore FkServe.

(** Four segments of 4096 bytes. *)
#[export] Instance ex_kvenv : KvEnv :=
  mk_kvenv 4096 4 8 65536 (fun f n => 4 * n <=? 5 * f)
    (fun f n o => match o with None => 0 <? f | Some (f', n') => f' * n <? f * n' end).

Definition ex_kv (o : outcome kv) : kv := match o with Ok s => s | _ => kv_init end.
Definition ex_f1 : kv := ex_kv (ialloc_init_allocator kv_init 1 (Some 100) (Some 200)).
Definition ex_f2 : kv := match ialloc_alloc ex_f1 1 29 false None with Ok (s, _) => s | _ => kv_init end.
Definition ex_key : list Z := [107; 101; 121].
Definition ex_hash : Z := jenkins_ref ex_key.
(** The item at 65536 is filled in, key and value, and another one with the
    same key at 65600. *)
Definition ex_f3 : kv :=
  put_item (put_item ex_f2 65536 (mk_item None ex_hash 2 1 3 (ex_key ++ [7; 8]))) 65600 (mk_item None ex_hash 1 1 3 (ex_key ++ [9])).

Lemma ex_f2_reached : rtc alloc_step (kv_init, []) (ex_f2, [mk_block 65536 29]).
Proof.
  apply (rtc_l _ _ (ex_f1, [])).
  { apply (as_init kv_init [] 1 (Some 100) (Some 200) ex_f1); try (intros h _; reflexivity); [intros h [= <-] [=]|vm_compute; reflexivity]. }
  apply rtc_once. apply (as_alloc ex_f1 [] 1 29 false None ex_f2 (Some 65536)); [vm_compute; eauto|intros h [=]|vm_compute; discriminate|vm_compute; reflexivity].
Qed.

Lemma ex_size : 0 < segsize < 4294967296.
Proof. cbn. lia. Qed.
Lemma ex_num : 0 <= segmaxnum.
Proof. cbn. lia. Qed.
Lemma ex_base : 0 <= seg_base.
Proof. cbn. lia. Qed.
Lemma ex_top : seg_base + segsize * segmaxnum < 18446744073709551616.
Proof. cbn. lia. Qed.
Lemma ex_f2_ia : is_Some (kv_ias ex_f2 !! 1).
Proof. vm_compute. eauto. Qed.
Lemma ex_live_in : mk_block 65536 29 ∈ [mk_block 65536 29].
Proof. left. Qed.
Lemma ex_total : SZ_ITEM <= 100 < segsize.
Proof. unfold SZ_ITEM. cbn. lia. Qed.

Lemma allocator_safe_witness : owners [mk_block 65536 29] 65540 <= 1 /\
  (exists s', ialloc_free ex_f2 65536 29 = Ok s') /\
  exists s' r, ialloc_alloc ex_f2 1 100 false None = Ok (s', r) /\
    forall it a, r = Some it -> it <= a < it + 100 -> owners [mk_block 65536 29] a = 0.
Proof.
  pose proof (allocator_safe ex_size ex_num ex_base ex_top ex_f2 [mk_block 65536 29] ex_f2_reached) as (Ap & _ & Al & Fr & _).
  split; [exact (Ap 65540)|]. split; [exact (Fr (mk_block 65536 29) ex_live_in)|].
  apply (Al 1 100 false None ex_f2_ia); [intros h [=]|exact ex_total].
Defined.

Lemma ex_item_wf : item_wf (kitem ex_f3 65536).
Proof. vm_compute. intuition congruence. Qed.
Lemma ex_item_refs : 0 < it_refcount (kitem ex_f3 65536) < 65535.
Proof. vm_compute. intuition congruence. Qed.
Lemma ex_not_in k : (∅ : gmap (Z * list Z) Z) !! k <> Some 65536.
Proof. rewrite lookup_empty. discriminate. Qed.

Lemma hasht_put_refines_witness : exists s', put_done ex_f3 s' ∅ 65536 /\ hasht_put 1 ex_f3 65536 None = Ok s'.
Proof.
  destruct (hasht_put_refines ex_f3 (fun _ => []) ∅ 65536 (empty_rep ex_f3 eq_refl) ex_item_wf ex_not_in ex_item_refs 1 ltac:(vm_compute; lia))
    as (s' & D & E).
  exists s'. split; [exact D|]. rewrite lookup_empty in E. exact E.
Defined.

(** The state after it. *)
Definition ex_f4 : kv := ex_kv (hasht_put 1 ex_f3 65536 None).
Lemma ex_f4_rep : exists cs, table_rep ex_f4 cs {[ (ex_hash, ex_key) := 65536 ]}.
Proof.
  destruct (put_new ex_f3 (fun _ => []) ∅ 65536 (empty_rep ex_f3 eq_refl) ex_item_wf ex_not_in (Some 4%nat)) as [[cs T] _ _ _].
  - apply lookup_empty.
  - intros j [= <-]. split; [lia|reflexivity].
  - exists cs. replace ex_f4 with (set_slot (set_next (add_ref ex_f3 65536 1) 65536 None) ex_hash 4 65536 true) by (vm_compute; reflexivity).
    exact T.
Qed.

Lemma hasht_get_refines_witness : exists cs, table_rep ex_f4 cs {[ (ex_hash, ex_key) := 65536 ]} /\
  hasht_get 2 ex_f4 ex_key ex_hash = Ok (add_ref ex_f4 65536 1, Some 65536) /\ item_value (kitem (add_ref ex_f4 65536 1) 65536) = [7; 8].
Proof.
  destruct ex_f4_rep as [cs T]. exists cs. split; [exact T|].
  destruct (hasht_get_refines ex_f4 cs {[ (ex_hash, ex_key) := 65536 ]} 2 ex_key ex_hash T) as [E _].
  - rewrite map_size_singleton. lia.
  - intros it. rewrite lookup_singleton_eq. intros [= <-]. vm_compute. intuition congruence.
  - rewrite lookup_singleton_eq in E. split; [exact E|]. vm_compute. reflexivity.
Defined.

(** The second item takes the place of the first, and is not stored once that
    has happened. *)
Lemma hasht_put_cas_witness : exists s', put_done ex_f4 s' {[ (ex_hash, ex_key) := 65536 ]} 65600 /\
  hasht_put 1 ex_f4 65600 (Some 65536) = item_unref s' 65536.
Proof.
  destruct ex_f4_rep as [cs T].
  assert (W : item_wf (kitem ex_f4 65600)) by (vm_compute; intuition congruence).
  assert (Rf : 0 < it_refcount (kitem ex_f4 65600) < 65535) by (vm_compute; intuition congruence).
  assert (K : key_of ex_f4 65600 = (ex_hash, ex_key)) by (vm_compute; reflexivity).
  assert (N : forall k, ({[ (ex_hash, ex_key) := 65536 ]} : gmap (Z * list Z) Z) !! k <> Some 65600).
  { intros k E. apply lookup_singleton_Some in E as [_ [=]]. }
  destruct (hasht_put_cas ex_f4 cs {[ (ex_hash, ex_key) := 65536 ]} 65600 T W N Rf 1 65536) as [(_ & _ & R)|[Nr _]]; [exact R|].
  destruct Nr. rewrite K, lookup_singleton_eq. split; [reflexivity|]. exists 4%nat. vm_compute. reflexivity.
Defined.

Definition ex_key_mem : mem := mem_write ∅ 4097 ex_key.
Lemma ex_key_bytes : bytes_ok ex_key_mem.
Proof. intros a. unfold mem_byte, ex_key_mem, ex_key. cbn [mem_write]. rewrite !lookup_insert, lookup_empty. repeat case_decide; cbn; lia. Qed.

(** At an odd address. *)
Lemma jenkins_hash_string_witness : bytes_ok ex_key_mem /\ jenkins_hash 1 ex_key_mem 4097 (Z.of_nat 3) = Ok ex_hash.
Proof.
  assert (L : (3 <= 12 * 1 + 12)%nat) by lia. split; [exact ex_key_bytes|].
  rewrite (jenkins_hash_string 1 ex_key_mem 4097 3 ex_key_bytes L). vm_compute. reflexivity.
Defined.

(** ** A server *)

Definition ex_pad (l : list Z) : list Z := l ++ repeat 0 (2048 - length l).
(** SET key = 7 8, and GET key. *)
Definition ex_set : connection :=
  mk_connection None 37 0 0 0 0 false
    (ex_pad ([128; 1; 0; 3; 8; 0; 0; 0; 0; 0; 0; 13; 1; 2; 3; 4] ++ repeat 0 16 ++ ex_key ++ [7; 8])) (repeat 0 2048).
Definition ex_get : connection :=
  mk_connection None 27 0 0 0 0 false
    (ex_pad ([128; 0; 0; 3; 0; 0; 0; 0; 0; 0; 0; 3; 5; 6; 7; 8] ++ repeat 0 8 ++ ex_key)) (repeat 0 2048).

Definition ex_served : kv * connection :=
  match conn_req_process 2 40000 1 None ex_f1 ex_set with Ok (s, Some c, _) => (s, c) | _ => (kv_init, ex_set) end.

Lemma ex_bytes l : forallb (fun b => (0 <=? b) && (b <? 256)) l = true -> bytes l.
Proof.
  intros E. apply Forall_forall. intros b Hb. rewrite forallb_forall in E. specialize (E b). rewrite <- list_elem_of_In in E.
  specialize (E Hb). apply andb_true_iff in E as [E1 E2]. lia.
Qed.

Lemma ex_set_request : set_request ex_set.
Proof.
  constructor; try (vm_compute; reflexivity); try (vm_compute; discriminate).
  constructor; try (vm_compute; reflexivity); try (apply ex_bytes; vm_compute; reflexivity); try (vm_compute; discriminate).
  vm_compute; split; discriminate.
Qed.

Lemma ex_get_request : get_request ex_get.
Proof.
  constructor; try (vm_compute; reflexivity); try (vm_compute; discriminate).
  constructor; try (vm_compute; reflexivity); try (apply ex_bytes; vm_compute; reflexivity); try (vm_compute; discriminate).
  vm_compute; split; discriminate.
Qed.

Lemma ex_f1_reached : rtc store_step (kv_init, spec_init) (ex_f1, spec_init).
Proof.
  apply rtc_once, (ss_init kv_init spec_init 1 (Some 100) (Some 200) ex_f1); try (intros h _; reflexivity); [intros h [= <-] [=]|vm_compute; reflexivity].
Qed.

Lemma ex_set_answered : set_answered 2 40000 1 None ex_f1 spec_init ex_set ex_served.1 ex_served.2 65536.
Proof.
  split; [exact ex_set_request|]. split; [exact (store_reachable ex_size ex_num ex_base ex_top ex_f1 spec_init ex_f1_reached)|].
  split; [vm_compute; eauto|]. split; [intros h [=]|]. split; [vm_compute; reflexivity|]. split; [vm_compute; lia|].
  split; [vm_compute; discriminate|]. split; vm_compute; reflexivity.
Qed.

Lemma ex_same_key : get_key ex_get = set_key ex_set.
Proof. vm_compute. reflexivity. Qed.
Lemma ex_fits : c_tx_len ex_get + SZ_GET_RESPONSE + Z.of_nat (length (set_val ex_set)) <= MAX_MSGSIZE.
Proof. vm_compute. discriminate. Qed.

Lemma set_then_get_witness : exists s2 c2, conn_req_process 2 50001 1 None ex_served.1 ex_get = Ok (s2, Some c2, 0) /\
  answered ex_get c2 PROTOCOL_BINARY_CMD_GET 4 RESPONSE_SUCCESS (be32_bytes 0 ++ [7; 8]).
Proof.
  exact (set_then_get ex_size ex_num ex_base ex_top 2 40000 1 None ex_f1 spec_init ex_set _ _ 65536 ex_set_answered
    50001 1 None ex_get ex_get_request ex_same_key ex_fits).
Defined.

Lemma close_after_set_aborts_witness : exists s2, conn_close ex_served.1 ex_served.2 = Ok s2 /\
  conn_req_process 2 50001 1 None s2 ex_get = Crash.
Proof.
  destruct (close_after_set_aborts ex_size ex_num ex_base ex_top 2 40000 1 None ex_f1 spec_init ex_set _ _ 65536 ex_set_answered)
    as (s2 & E & C).
  exists s2. split; [exact E|]. exact (C 50001 1 None ex_get ex_get_request ex_same_key).
Defined.

(** An item is filled, stored and released; then it is found. *)
Definition ex_g2 : kv := fill ex_f2 65536 ex_hash ex_key [7; 8].
Definition ex_g3 : kv := ex_kv (hasht_put 1 ex_g2 65536 None).
Definition ex_g4 : kv := ex_kv (item_unref ex_g3 65536).
Definition ex_a2 : spec := spec_new spec_init 65536 (ex_hash, ex_key, [7; 8]).
Definition ex_a3 : spec := spec_put ex_a2 (key_of ex_g2 65536) 65536.
Definition ex_a4 : spec := hold ex_a3 65536 (-1).

Lemma ex_f1_ia : is_Some (kv_ias ex_f1 !! 1).
Proof. vm_compute. eauto. Qed.
Lemma ex_none : new_header ex_f1 None.
Proof. intros h [=]. Qed.
Lemma ex_u16 : is_u16 (Z.of_nat (length ex_key)).
Proof. vm_compute. intuition congruence. Qed.
Lemma ex_f2_alloc : ialloc_alloc ex_f1 1 (SZ_ITEM + Z.of_nat (length ex_key) + Z.of_nat (length [7; 8])) false None = Ok (ex_f2, Some 65536).
Proof. vm_compute. reflexivity. Qed.
Lemma ex_g2_held : 0 < held ex_a2 65536.
Proof. vm_compute. reflexivity. Qed.
Lemma ex_g2_new k : sp_map ex_a2 !! k <> Some 65536.
Proof. change (sp_map ex_a2) with (∅ : gmap (Z * list Z) Z). rewrite lookup_empty. discriminate. Qed.
Lemma ex_g2_refs : it_refcount (kitem ex_g2 65536) < 65535.
Proof. vm_compute. reflexivity. Qed.
Lemma ex_one : (size (sp_map ex_a2) < 1)%nat.
Proof. vm_compute. lia. Qed.
Lemma ex_g3_put : hasht_put 1 ex_g2 65536 None = Ok ex_g3.
Proof. vm_compute. reflexivity. Qed.
Lemma ex_g3_held : 0 < held ex_a3 65536.
Proof. vm_compute. reflexivity. Qed.
Lemma ex_g4_unref : item_unref ex_g3 65536 = Ok ex_g4.
Proof. vm_compute. reflexivity. Qed.

Lemma ex_g4_reached : rtc store_step (kv_init, spec_init) (ex_g4, ex_a4).
Proof.
  etransitivity; [exact ex_f1_reached|]. apply (rtc_l _ _ (ex_g2, ex_a2)).
  { exact (ss_new ex_f1 spec_init 1 ex_hash ex_key [7; 8] None ex_f2 65536 ex_f1_ia ex_none ex_u16 ex_f2_alloc). }
  apply (rtc_l _ _ (ex_g3, ex_a3)).
  { exact (ss_put ex_g2 ex_a2 65536 1 ex_g3 ex_g2_held ex_g2_new ex_g2_refs ex_one ex_g3_put). }
  apply rtc_once. exact (ss_unref ex_g3 ex_a3 65536 ex_g4 ex_g3_held ex_g4_unref).
Qed.

Lemma store_refines_witness : exists s', hasht_get 2 ex_g4 ex_key ex_hash = Ok (s', Some 65536) /\ item_value (kitem s' 65536) = [7; 8].
Proof.
  destruct (store_refines ex_size ex_num ex_base ex_top ex_g4 ex_a4 ex_g4_reached) as (G & _).
  assert (Em : sp_map ex_a4 !! (ex_hash, ex_key) = Some 65536) by (vm_compute; reflexivity).
  assert (Rm : room ex_g4 ex_a4 ex_hash ex_key) by (intros it E; rewrite Em in E; injection E as <-; vm_compute; reflexivity).
  assert (Sz : (size (sp_map ex_a4) < 2)%nat) by (vm_compute; lia).
  destruct (G 2%nat ex_hash ex_key Rm Sz) as (s' & E & V). rewrite Em in E. exists s'. split; [exact E|].
  destruct (V 65536 Em) as (val & Ec & Ev). rewrite Ev. vm_compute in Ec. congruence.
Defined.
