(* ===== verification/StormExamples.v ===== *)
(** The theorems about the stream processor applied to concrete states. *)
From stdpp Require Import base numbers list gmap functions relations sorting.
From Stdlib Require Import ZArith Lia.
From S2P Require Import Prelude Dma FkHash StormQueue StormTuple StormBolts StormSystem StormCount StormNic.

(** ** A queue *)

Definition ex_tuple : tuple := tuple_zero <| t_task := 12 |> <| t_fromtask := 3 |>.

(** A tuple is posted, seen and given back; while it is copied, the slot holds
    something else. *)
Lemma ex_queue_run : exists tr s, q_run qsys_init tr s /\ tr = [Push ex_tuple; Pop ex_tuple].
Proof.
  eexists _, _. split.
  - eapply q_run_cons; [apply (q_call _ ex_tuple); [reflexivity|discriminate]|].
    do 2 (eapply q_run_cons; [eapply q_prod; reflexivity|]).
    eapply q_run_cons; [eapply (q_torn _ ex_tuple _ tuple_zero); reflexivity|].
    do 3 (eapply q_run_cons; [eapply q_prod; reflexivity|]).
    eapply q_run_cons; [eapply (q_peek _ false); reflexivity|].
    eapply q_run_cons; [eapply q_advance; [reflexivity|vm_compute; reflexivity]|].
    do 2 (eapply q_run_cons; [eapply q_cons; reflexivity|]).
    apply q_run_nil.
  - reflexivity.
Qed.

Lemma storm_queue_refines_witness : exists s l, q_run qsys_init [Push ex_tuple; Pop ex_tuple] s /\ bq_run [] [Push ex_tuple; Pop ex_tuple] l /\ queue_ok s l.
Proof.
  destruct ex_queue_run as (tr & s & R & ->). destruct (storm_queue_refines s _ R) as (l & B & O). exists s, l. auto.
Defined.

(** ** A ranking *)

(** Sorting as [qsort] promises it. *)
Definition field_ge (a b : field) : Prop := f_integer b <= f_integer a.
#[export] Instance field_ge_dec : RelDecision field_ge.
Proof. intros a b. unfold field_ge. apply _. Defined.
#[export] Instance field_ge_total : Total field_ge.
Proof. intros a b. unfold field_ge. lia. Qed.
#[export] Instance field_ge_trans : Transitive field_ge.
Proof. intros a b c. unfold field_ge. lia. Qed.

Lemma merge_sort_ranks l : Forall counted l -> merge_sort field_ge l ≡ₚ l /\ StronglySorted (fun a b => rank a b <= 0) (merge_sort field_ge l).
Proof.
  intros F. split; [apply merge_sort_Permutation|].
  assert (C : Forall counted (merge_sort field_ge l)) by now rewrite merge_sort_Permutation.
  pose proof (StronglySorted_merge_sort field_ge l) as S. induction S as [|a rk S IH Ha]; [constructor|].
  apply Forall_cons in C as [Ca C]. constructor; [exact (IH C)|].
  apply Forall_forall. intros b Hb. rewrite Forall_forall in Ha, C. specialize (Ha b Hb). specialize (C b Hb).
  unfold rank, field_ge, counted in *. rewrite s32_small by lia. lia.
Qed.
#[export] Instance ex_qsort : Qsort := { qsort := merge_sort field_ge; qsort_spec := merge_sort_ranks }.

Definition ex_str (s : list Z) : list Z := s ++ repeat 0 (Z.to_nat MAX_STR - length s).
Definition ex_counts (v : list (list Z * Z)) : tuple :=
  tuple_zero <| t_v := map (fun p => mk_field (ex_str p.1) p.2) v ++ repeat field_zero (5 - length v) |>.
(** Two tuples with counts; the second arrives when a ranking is due. *)
Definition ex_calls : list (Z * tuple * tuple) :=
  [(0, tuple_zero, ex_counts [([97], 3); ([98], 5)]); (1, tuple_zero, ex_counts [([97], 7); ([99], 1)])].

Lemma ex_entry s n : bool_decide (Forall (fun b => 0 < b < 256) s) = true -> (length s < 64)%nat -> 0 <= n < 2147483648 -> entry_ok (mk_field (ex_str s) n).
Proof.
  intros B L Hn. apply bool_decide_eq_true in B. unfold ex_str.
  replace (Z.to_nat MAX_STR - length s)%nat with (S (63 - length s)) by (unfold MAX_STR; lia). cbn [repeat].
  assert (N : 0 ∉ s) by (intros Z0; rewrite Forall_forall in B; specialize (B 0 Z0); lia).
  assert (E : c_string (s ++ 0 :: repeat 0 (63 - length s)) = Ok s) by now apply c_string_app.
  constructor; cbn [f_str f_integer]; [|now rewrite (entry_key (mk_field _ n) s E)|exact Hn].
  split; [rewrite length_app; cbn [length]; rewrite repeat_length; unfold MAX_STR; lia|].
  apply Forall_app. split; [eapply Forall_impl; [exact B|]; cbn; lia|]. apply Forall_cons. split; [lia|].
  apply Forall_forall. intros x Hx. apply list_elem_of_In, repeat_spec in Hx. lia.
Qed.

Lemma ex_str_ok s : bool_decide (Forall (fun b => 0 < b < 256) s) = true -> (length s < 64)%nat -> str_ok (ex_str s).
Proof. intros B L. apply (en_str (mk_field (ex_str s) 0)), ex_entry; [exact B|exact L|lia]. Qed.

Ltac grown := split; [apply ex_entry; [vm_compute; reflexivity|cbn; lia|cbn; lia]|]; split; [vm_compute; discriminate|]; split;
  [intros c E; vm_compute in E; first [discriminate|injection E as <-; cbn; lia]|].

Lemma ex_growing : growing ∅ (calls_fields ex_calls).
Proof. cbn [ex_calls calls_fields map concat snd]. do 4 grown. exact I. Qed.
Lemma ex_stack : Forall (fun c : Z * tuple * tuple => stack_ok c.1.2) ex_calls.
Proof. repeat (apply Forall_cons; split; [split; [reflexivity|]; repeat (apply Forall_cons; split; [apply field_zero_ok|]); constructor|]). constructor. Qed.

Lemma rank_finds_best_witness : exists st os, rank_run rank_init ex_calls = Ok (st, os) /\
  map entry (take TOP_N (rk_rankings st)) = [([97], 7); ([98], 5); ([99], 1); ([], 0); ([], 0)] /\ length os = 1%nat /\
  best (counts_of ex_calls) (map entry (take TOP_N (rk_rankings st))) /\
  Forall2 (fun done o => best (counts_of done) (map entry (t_v o))) [ex_calls] os.
Proof.
  destruct (rank_finds_best ex_calls ex_growing ex_stack) as (st & os & E & _ & B & S). exists st, os. split; [exact E|].
  change (sends 0 [] ex_calls) with [ex_calls] in S.
  vm_compute in E. injection E as <- <-. split; [vm_compute; reflexivity|]. split; [reflexivity|]. split; [exact B|exact S].
Defined.

(** ** Counting *)

Definition ex_words : list (Z * Z * tuple) := [(0, 100, ex_counts [([97], 0)]); (1, 200, ex_counts [([98], 0)]); (2, 300, ex_counts [([97], 0)])].

Lemma ex_counts_ok v : Forall entry_ok (map (fun p => mk_field (ex_str p.1) p.2) v) -> (length v <= 5)%nat -> tuple_ok (ex_counts v).
Proof.
  intros F L. constructor; cbn -[repeat]; try (unfold is_s32; lia).
  - rewrite length_app, length_map, repeat_length. unfold MAX_VECTOR. lia.
  - apply Forall_app. split.
    + eapply Forall_impl; [exact F|]. intros f K. split; [apply K|]. pose proof (en_count f K) as C. unfold counted, is_s32 in *. lia.
    + apply Forall_forall. intros f Hf. apply list_elem_of_In, repeat_spec in Hf as ->. apply field_zero_ok.
Qed.
Lemma ex_countable s n : entry_ok (mk_field (ex_str s) n) -> countable (ex_counts [(s, n)]).
Proof.
  intros K. split; [apply ex_counts_ok; [now apply Forall_singleton|cbn; lia]|]. eexists _, _. split; [reflexivity|]. apply (en_key _ K).
Qed.
Lemma ex_words_ok : Forall (fun c : Z * Z * tuple => countable c.2) ex_words.
Proof. repeat (apply Forall_cons; split; [apply ex_countable, ex_entry; [vm_compute; reflexivity|cbn; lia|cbn; lia]|]). constructor. Qed.
Lemma ex_fresh : fresh ∅ ex_words.
Proof. cbn. set_solver. Qed.

Lemma count_counts_witness : exists st, count_run count_init ex_words = Ok st /\ counts st (jenkins_ref [97]) 2 /\ counts st (jenkins_ref [98]) 1 /\ counts st 0 0.
Proof.
  destruct (count_counts ex_words ex_words_ok ex_fresh ltac:(cbn; lia)) as (st & E & C). exists st. split; [exact E|].
  split; [exact (C (jenkins_ref [97]))|]. split; [exact (C (jenkins_ref [98]))|exact (C 0)].
Defined.

(** ** All workers *)

Definition ex_socks : list Z := [5; 6; 7].
Definition ex_workers : list worker := zip_with (fun w k => mk_worker (w_hostname w) (w_port w) k (w_executors w)) workers ex_socks.
Lemma ex_topology : topology ex_workers.
Proof. apply topology_ok_wf. vm_compute. reflexivity. Qed.
Lemma ex_connected w : w ∈ ex_workers -> w_sock w <> 0.
Proof. intros Hw. assert (F : Forall (fun w => w_sock w <> 0) ex_workers) by (repeat (constructor; [discriminate|]); constructor). rewrite Forall_forall in F. auto. Qed.

(** Every spout has the words "ab" and "c". *)
Definition ex_spout : spout_state := mk_spout [ex_str [97; 98]; ex_str [99]] 0.
Definition ex_bolts (d : Z) : bolt_state :=
  if d <? 10 then bs_spout ex_spout else if d <? 20 then bs_count count_init else bs_rank rank_init.

Lemma ex_bolts_ok x : x ∈ all_executors ex_workers -> storm_bolt_ok x (ex_bolts (x_taskid x)).
Proof.
  intros _. unfold ex_bolts. destruct (_ <? 10); [|destruct (_ <? 20)]; cbn [storm_bolt_ok].
  - unfold ex_spout. cbn [sp_words]. repeat (apply Forall_cons; split; [apply ex_str_ok; [vm_compute; reflexivity|cbn; lia]|]). constructor.
  - exact I.
  - destruct rank_init_ranked as [R _]. split; [apply (rn_len _ _ R)|apply (rn_ok _ _ R)].
Qed.

(** The first word of task 3, as task 13 gets it. *)
Definition ex_sent : tuple := ex_counts [([97; 98], 0)] <| t_fromtask := 3 |> <| t_task := 13 |>.

(** Task 3 emits it (1, 2), worker 0 takes it (3) and sends it in two pieces
    (4, 6), worker 1 receives them (5, 7) and hands it to task 13 (8), which
    counts it (9, 10). *)
Definition ex_timed : tuple := ex_sent <| t_starttime := 1000 |>.
Definition ex_y0 : sys := sys_init ex_bolts.
Definition ex_y1 : sys := ex_y0 <| y_exec := <[3 := Some [ex_counts [([97; 98], 0)]]]> (y_exec ex_y0) |>
  <| y_state := <[3 := bs_spout (mk_spout (sp_words ex_spout) 1)]> (y_state ex_y0) |>.
Definition ex_y2 : sys := ex_y1 <| y_exec := <[3 := Some []]> (y_exec ex_y1) |> <| y_numtasks := <[3 := 4]> (y_numtasks ex_y1) |>
  <| y_outq := <[3 := y_outq ex_y1 3 ++ [ex_timed]]> (y_outq ex_y1) |> <| y_emitted := <[3 := y_emitted ex_y1 3 ++ [ex_timed]]> (y_emitted ex_y1) |>.
Definition ex_y3 : sys := ex_y2 <| y_sending := <[0%nat := Some (1%nat, tuple_bytes ex_timed)]> (y_sending ex_y2) |>.
Definition ex_first : list Z := take 100 (tuple_bytes ex_timed).
Definition ex_second : list Z := drop 100 (tuple_bytes ex_timed).
Definition ex_y4 : sys := ex_y3 <| y_sending := <[0%nat := Some (1%nat, ex_second)]> (y_sending ex_y3) |>
  <| y_wire := <[0%nat := <[1%nat := y_wire ex_y3 0 1 ++ ex_first]> (y_wire ex_y3 0)]> (y_wire ex_y3) |>.
Definition ex_y5 : sys := ex_y4 <| y_wire := <[0%nat := <[1%nat := []]> (y_wire ex_y4 0)]> (y_wire ex_y4) |>
  <| y_rest := <[1%nat := <[0%nat := ex_first]> (y_rest ex_y4 1)]> (y_rest ex_y4) |> <| y_main := <[1%nat := []]> (y_main ex_y4) |>.
Definition ex_y6 : sys := ex_y5 <| y_sending := <[0%nat := None]> (y_sending ex_y5) |> <| y_scan := <[0%nat := S (y_scan ex_y5 0)]> (y_scan ex_y5) |>
  <| y_wire := <[0%nat := <[1%nat := y_wire ex_y5 0 1 ++ ex_second]> (y_wire ex_y5 0)]> (y_wire ex_y5) |> <| y_outq := <[3 := []]> (y_outq ex_y5) |>.
Definition ex_y7 : sys := ex_y6 <| y_wire := <[0%nat := <[1%nat := []]> (y_wire ex_y6 0)]> (y_wire ex_y6) |>
  <| y_rest := <[1%nat := <[0%nat := []]> (y_rest ex_y6 1)]> (y_rest ex_y6) |> <| y_main := <[1%nat := [ex_timed]]> (y_main ex_y6) |>.
Definition ex_y8 : sys := ex_y7 <| y_main := <[1%nat := []]> (y_main ex_y7) |>
  <| y_inq := <[13 := y_inq ex_y7 13 ++ [ex_timed <| t_starttime := 2000 |>]]> (y_inq ex_y7) |>.
Definition ex_counted : bolt_state := match count_execute 0 100 count_init (ex_timed <| t_starttime := 2000 |>) with Ok c => bs_count c | _ => bs_print end.
Definition ex_y9 : sys := ex_y8 <| y_exec := <[13 := Some []]> (y_exec ex_y8) |> <| y_state := <[13 := ex_counted]> (y_state ex_y8) |>.
Definition ex_y10 : sys := ex_y9 <| y_exec := <[13 := None]> (y_exec ex_y9) |> <| y_inq := <[13 := []]> (y_inq ex_y9) |>
  <| y_done := <[13 := y_done ex_y9 13 ++ [ex_timed <| t_starttime := 2000 |>]]> (y_done ex_y9) |>.

Definition ex_spout_x : executor := spout_x 3 [10; 11; 12; 13].
Definition ex_count_x : executor := count_x 13 [20; 21; 22; 23].
Ltac compute_it := vm_compute; reflexivity.

Lemma ex_storm_run : rtc (y_step storm_bolt ex_workers) ex_y0 ex_y10.
Proof.
  apply (rtc_l _ _ ex_y1); [apply y_executor, (y_spout _ _ _ 0 0 ex_spout_x); [compute_it..|apply sb_spout; compute_it]|].
  apply (rtc_l _ _ ex_y2); [apply y_executor, (y_send _ _ _ 0 0 ex_spout_x (ex_counts [([97; 98], 0)]) [] 0 1000 4 ex_timed); [compute_it|compute_it|lia|compute_it|compute_it]|].
  apply (rtc_l _ _ ex_y3); [apply y_sender, (y_peek _ _ 0 ex_spout_x ex_timed [] 6 1); compute_it|].
  apply (rtc_l _ _ ex_y4); [apply y_sender, (y_write _ _ 0 1 ex_first ex_second); [compute_it|vm_compute; discriminate]|].
  apply (rtc_l _ _ ex_y5); [apply y_receiver, (y_recv _ _ 0 1 ex_first [] [] ex_first); [compute_it|compute_it|vm_compute; discriminate|compute_it]|].
  apply (rtc_l _ _ ex_y6); [apply y_sender, (y_written _ _ 0 1 ex_second ex_spout_x ex_timed []); compute_it|].
  apply (rtc_l _ _ ex_y7); [apply y_receiver, (y_recv _ _ 0 1 ex_second [] [ex_timed] []); [compute_it|compute_it|vm_compute; discriminate|compute_it]|].
  apply (rtc_l _ _ ex_y8); [apply y_receiver, (y_post _ _ 1 (mk_worker [10; 0; 0; 4] 7002 6 (default [] (w_executors <$> workers !! 1%nat))) ex_timed [] 2000 ex_count_x); [compute_it|compute_it|lia|compute_it|compute_it]|].
  apply (rtc_l _ _ ex_y9); [apply y_executor, (y_bolt _ _ _ 1 3 ex_count_x ex_counted [] (ex_timed <| t_starttime := 2000 |>) []); [compute_it..|]|].
  { apply (sb_count ex_count_x 0 100 count_init); compute_it. }
  apply (rtc_l _ _ ex_y10); [apply y_executor, (y_return _ _ _ 1 3 ex_count_x (ex_timed <| t_starttime := 2000 |>) []); compute_it|apply rtc_refl].
Qed.

Lemma storm_delivers_witness : between 3 13 (y_done ex_y10 13) = [ex_sent] /\
  between 3 13 (y_done ex_y10 13) `prefix_of` between 3 13 (y_emitted ex_y10 3).
Proof.
  split; [vm_compute; reflexivity|].
  apply (storm_delivers storm_bolt ex_workers ex_topology ex_connected storm_bolt_ok storm_bolts ex_bolts ex_y10 ex_bolts_ok ex_storm_run);
    apply (bool_decide_unpack _); vm_compute; reflexivity.
Defined.

(** ** The card *)

Definition ex_fq : flexnic_queue := mk_fqueue 0 0 (repeat tuple_zero (Z.to_nat MAX_ELEMS)).
Lemma ex_fq_rep : fq_rep ex_fq [].
Proof.
  split; [|reflexivity]. constructor; try (cbn -[repeat]; unfold MAX_ELEMS; lia); try (intros i Hi; cbn in Hi; lia).
  - apply repeat_length.
  - constructor.
  - intros i Hi. cbn [ex_fq fq_elems fq_tail]. pose proof (mod_range (0 + i)).
    destruct (lookup_lt_is_Some_2 (repeat tuple_zero (Z.to_nat MAX_ELEMS)) (Z.to_nat ((0 + i) mod MAX_ELEMS))) as [t E]; [rewrite repeat_length; lia|].
    exists t. split; [exact E|]. apply list_elem_of_lookup_2, list_elem_of_In, repeat_spec in E as ->. reflexivity.
Qed.
Definition ex_outq : flexnic_queue := match flexnic_queue_post ex_fq ex_tuple with Ok q => q | _ => ex_fq end.
Lemma ex_outq_rep : fq_rep ex_outq [ex_tuple].
Proof.
  assert (N : t_task ex_tuple <> 0) by discriminate. pose proof (flexnic_post_spec ex_fq [] ex_tuple ex_fq_rep N) as (q & E & R).
  unfold ex_outq. rewrite E. exact R.
Qed.
Lemma ex_in_range : Forall (fun t => 0 < t_task t < MAX_TASKS /\ hosted workers (t_task t) = true) [ex_tuple].
Proof. apply Forall_singleton. split; [cbn; unfold MAX_TASKS; lia|vm_compute; reflexivity]. Qed.

Lemma flexnic_round_delivers_witness : exists outq inqs, flexnic_round (hosted workers) 64 ex_outq (fun _ => ex_fq) = Ok (outq, inqs) /\
  fq_rep outq [] /\ fq_rep (inqs 12) [ex_tuple] /\ fq_rep (inqs 13) [].
Proof.
  destruct (flexnic_round_delivers (hosted workers) 64 ex_outq (fun _ => ex_fq) [ex_tuple] (fun _ => []) ltac:(unfold BATCH_SIZE; lia) ex_outq_rep (fun _ => ex_fq_rep) ex_in_range)
    as (outq & inqs & E & Ro & Ri).
  exists outq, inqs. split; [exact E|]. split; [exact Ro|]. split; [exact (Ri 12)|exact (Ri 13)].
Defined.

(** [flexnic_queue_post] copies a tuple front to back with its task first: the
    other side can find the slot in use before the rest of it is there. *)
Definition half_posted (q : flexnic_queue) (t : tuple) : flexnic_queue := fq_put q (fq_head q) (fq_at q (fq_head q) <| t_task := t_task t |>).
Lemma flexnic_torn_read : exists t, flexnic_queue_poll (half_posted ex_fq ex_tuple) = Some t /\ t <> ex_tuple.
Proof. exists (tuple_zero <| t_task := 12 |>). split; [vm_compute; reflexivity|discriminate]. Qed.

(** A thread of the card has reserved 64 slots of a queue and has not written
    them yet.  When another one has delivered 63 more batches, the slots look
    free once more: they are reserved a second time, though nothing has been
    taken out of the queue. *)
Definition ex_batch : list tuple := repeat ex_tuple 64.
Definition ex_reserved : flexnic_queue := match reserve 64 ex_fq 0 with Some q => q | None => ex_fq end.
Definition ex_wrapped : flexnic_queue := Nat.iter 63 (deliver_task ex_batch 12) ex_reserved.
Lemma flexnic_reserved_twice :
  (slots_free 64 ex_fq 0, fq_head ex_reserved, fq_tail ex_wrapped, fq_head ex_wrapped, slots_free 64 ex_wrapped 0) = (true, 64, 0, 0, true) /\
  bool_decide (is_Some (reserve 64 ex_wrapped 0)) = true.
Proof. split; vm_compute; reflexivity. Qed.
